(* ===== verification/_CoqProject ===== *)
-Q . S2P
Prelude.v
CString.v
Memlayout.v
Kalloc.v
UserMem.v
Pipe.v
Console.v
BufCache.v
Bio.v
Log.v
LogCrash.v
Fs.v
FsBlocks.v
FsFiles.v
FsDirs.v
Vm.v
VmTables.v
VmUser.v
VmAlloc.v
Ulib.v
Uprintf.v
Dto.v
Topfree.v
TopfreeProps.v
Grep.v
Proc.v
ProcTable.v
ProcFiles.v
File.v
FileLayer.v
ProcListing.v
Spinlock.v
SleepWakeup.v
Sysfile.v
SysfileProps.v
Sysproc.v
Umalloc.v
UmallocProps.v
Sh.v
ShProps.v
ShPrint.v
ShRun.v
Virtio.v
VirtioProps.v
VirtioInit.v
VmSpace.v
VmCopy.v
Exec.v
ExecSpace.v
ExecFile.v
ExecProps.v
ExecArgs.v
ExecSys.v
Mkfs.v
MkfsProps.v
MkfsImage.v
Uart.v
Trap.v
TrapProps.v
Fork.v
Sched.v
Kprintf.v
Umem.v
Utils.v
