(* ===== verification/Prelude.v ===== *)
(** * Verification of xv6-riscv with the topfree extension

    The program is the teaching kernel xv6 for RISC-V (src/xv6-riscv/kernel),
    its user programs (user/) and, as an addition of this repository, topfree:
    a process monitor (user/topfree.c, user/topfree_utils.c) with the system
    calls behind it (getallprocs, getmemstats, getc_nb, toggle_debug) and the
    records both sides share (dto/u_proc.h).

    ** Conventions

    Integers are [Z] kept at the width of the C type by [u8], [u32], [u64],
    [i32], [i64] wherever the code can wrap around. Memory is a function from
    addresses to bytes ([bytes], with [ld32], [ld64], [st32], [st64], [fill],
    [blit]); tables of structures are functions from indices. A kernel
    function is a computation [M S A] on the state [S] of its component; it
    returns, panics, sleeps on a channel (the state is the one in which it
    entered the scheduler) or exhausts its fuel ([Diverge]). Every fuel of the
    development is a bound computed from the arguments (pages of a range, free
    pages, blocks of a file), and the theorems say that calls return, so it is
    enough. User programs are functions on lists of characters.

    A function of the kernel that runs with its lock held from beginning to
    end, or between two sleeps, is one step; the interleavings of the steps of
    several processes are the paths of a step relation. The locks themselves
    are modelled one memory access at a time in file Spinlock, and the hand-over
    of locks between sleep, wakeup and scheduler in file SleepWakeup.

    ** Files

    - Prelude: outcomes and the monad, fixed-width arithmetic, memory,
      circular buffers, tactics and the hint databases.
    - CString: kernel/string.c; Umem: the memory functions of user/ulib.c.
    - Memlayout: kernel/riscv.h (address macros), memlayout.h, param.h.
    - Kalloc: kernel/kalloc.c. The free list is stored in the pages.
    - Vm: kernel/vm.c, all of it, over the pages of Kalloc. VmTables has the
      theory of page tables as maps (walk, mappages), VmUser the address space
      of a process (vmfault, copyin, copyout), VmAlloc growing and shrinking,
      VmSpace building and freeing an address space, VmCopy copying one.
    - UserMem: the interface of copyin and copyout to pipes, the console and
      the file system (classes [UserMem], [UserMemLaws]).
    - Spinlock: kernel/spinlock.c on NCPU processors.
    - SleepWakeup: sleep, wakeup and the scheduler of kernel/proc.c, one lock
      operation at a time; Sched: scheduler, sched and yield on all CPUs with
      the locks handed over by swtch.
    - Pipe: kernel/pipe.c; Console: kernel/console.c; Uart: kernel/uart.c with
      the transmitter of the 16550 as an agent of its own; Kprintf:
      kernel/printf.c.
    - BufCache: the interface of the buffer cache (classes [BufCache],
      [BufCacheLaws]); Bio: kernel/bio.c and sleeplock.c, which implement it.
    - Virtio, VirtioInit, VirtioProps: kernel/virtio_disk.c, the device given
      by what the virtio standard says of it.
    - Log: kernel/log.c over any buffer cache; LogCrash: its theorems.
    - Fs: kernel/fs.c (blocks, inodes, directories, paths) above the log;
      FsBlocks, FsFiles, FsDirs: the allocator, the contents of files,
      directories. Mkfs, MkfsProps, MkfsImage: mkfs/mkfs.c and the image it
      writes, read with the functions of Fs.
    - File: kernel/file.c and the file side of pipe.c.
    - Proc: kernel/proc.c over any file layer (classes [FileOps], [FileLaws]);
      ProcTable, ProcFiles: its invariants; FileLayer: File implements the
      interface; ProcListing: the listing of topfree and kill; Fork: fork over
      the page tables of Vm.
    - Exec: kernel/exec.c over the page tables and an interface of the file
      system, which ExecFile implements with Fs; ExecSpace, ExecProps,
      ExecArgs: its theorems; ExecSys: sys_exec.
    - Trap, TrapProps: kernel/trap.c, plic.c and forkret over the control
      registers of a hart.
    - Sysfile, SysfileProps: kernel/sysfile.c; Sysproc: kernel/sysproc.c and
      the dispatch of kernel/syscall.c.
    - Ulib, Uprintf: user/ulib.c and user/printf.c; Umalloc, UmallocProps:
      user/umalloc.c; Sh, ShProps, ShPrint, ShRun: user/sh.c; Dto:
      dto/u_proc.h; Topfree, TopfreeProps: topfree; Grep: user/grep.c; Utils:
      cat, wc, echo, ls, rm, mkdir, ln and kill over a class of system calls.

    ** What the theorems show

    - Memory: every page is free or allocated, never both, over all sequences
      of kalloc and kfree; walk, mappages, uvmalloc, uvmdealloc, vmfault and
      sbrk on every branch, failures for lack of memory included; copyin and
      copyout move exactly the requested bytes where the process itself may
      access them, and fail only where it may not or without memory; shrinking
      gives back exactly the frames it unmaps.
    - Concurrency: mutual exclusion of spin locks, nesting of push_off and
      pop_off, no lost wakeup.
    - Storage: a crash at any point of a commit leaves the old or the new
      contents after recovery; the reservation of begin_op suffices for calls
      that log at most MAXOPBLOCKS different blocks; the ring
      of the buffer cache, its replacement order; block allocation; bmap,
      readi and writei against the contents of a file; dirlookup and dirlink
      against a directory as a map from names to inodes.
    - Processes and files: the table invariant (unique pids, living parents)
      and exact reference counts over all interleavings of the operations of
      proc.c and over all descriptor system calls.
    - Pipes deliver the bytes written, in order; the console implements a line
      editor.
      The serial port transmits what is written to it, every byte once and
      each only when the transmitter is idle. printf of the kernel sends what
      that of user programs prints, except for the one argument of %c that
      consputc takes for a backspace.
    - Traps: usertrap, prepare_return and kerneltrap on every cause of a trap,
      with the interrupt state they leave; a new process starts where its
      parent forked.
    - Scheduling: a process runs on one CPU at most, every lock is released by
      the CPU that holds it, and a thread finds its own interrupt state again.
    - fork and exec: the child has the memory, rights, files and registers of
      the parent; a new image has its segments, with the rights of their flags,
      and its arguments in memory; a failed call leaves everything as it was
      and loses no page.
    - The disk driver implements reads and writes of blocks on any device that
      finishes requests with a status, and panics exactly on a request that
      failed; mkfs writes an image in which the file system finds the files it
      was given, and exactly the other blocks free.
    - User code: the shell's parser reads back what a printer of commands
      writes, terminates on every line, and runcmd connects processes as the
      command says, leaving no end of a pipe open that would keep its reader
      from the end of the file; malloc hands out disjoint blocks; sorting and number
      formats of topfree, numerals of ulib.c and printf.c, the matcher of grep
      against the language of its patterns; the output of cat, wc, echo and ls.

    Some theorems state behaviour that is a defect: the read index of
    consolegetc_nb at its wrap-around, the commit of a transaction that pins
    every buffer, fractions that topfree prints without padding, kill(0).

    ** Atomicity

    Some functions are one step of the model although the code sleeps or gives
    up a lock inside: bread while the disk works, kfork between its critical
    sections, kexit while it closes files. The end of an operation of the log
    is three steps (end_op_locked, commit, end_op_finish). The handlers of the
    serial port and of the disk enter the model of traps as computations on the
    devices that cannot reach the memory of processes and that return.

    ** Not modelled

    Assembly (entry.S, swtch.S, trampoline.S, kernelvec.S), the CSR accessors
    of riscv.h and the boot code (start.c, main.c) have no state of their own
    beyond registers; what the C code relies on is stated where it is used.
    The devices are hardware and enter as parameters with their documented
    behaviour. usertests.c, grind.c and the other test programs are sequences
    of system calls with expected results; init and the programs that make one
    system call have no logic to verify. Weak memory is not modelled: the
    steps of Spinlock, Sched and Uart are sequentially consistent. *)
From stdpp Require Import base list numbers strings.
From Stdlib Require Import ZArith Lia FunctionalExtensionality.

#[global] Open Scope Z_scope.

(** ** Outcomes of kernel code

    A kernel function may return, stop the machine with [panic], block in
    [sleep], or (for loops run on fuel) not finish within the fuel given.
    A blocked call carries the wait channel and the state it left. *)
Inductive outcome (S A : Type) : Type :=
| Ret (a : A) (s : S)
| Panic (msg : string)
| Sleep (chan : Z) (s : S)
| Diverge.
Arguments Ret {S A} a s.
Arguments Panic {S A} msg.
Arguments Sleep {S A} chan s.
Arguments Diverge {S A}.

Definition M (S A : Type) : Type := S -> outcome S A.

Definition ret {S A} (a : A) : M S A := fun s => Ret a s.
Definition panic {S A} (msg : string) : M S A := fun _ => Panic msg.
Definition bind {S A B} (m : M S A) (k : A -> M S B) : M S B :=
  fun s => match m s with
           | Ret a s' => k a s'
           | Panic e => Panic e
           | Sleep c s' => Sleep c s'
           | Diverge => Diverge
           end.
Definition get {S} : M S S := fun s => Ret s s.
Definition put {S} (s' : S) : M S unit := fun _ => Ret tt s'.
Definition modify {S} (f : S -> S) : M S unit := fun s => Ret tt (f s).
Definition gets {S A} (f : S -> A) : M S A := fun s => Ret (f s) s.
Definition sleep_on {S A} (chan : Z) : M S A := fun s => Sleep chan s.
Definition assert_or {S} (b : bool) (msg : string) : M S unit :=
  if b then ret tt else panic msg.
Definition when {S} (b : bool) (m : M S unit) : M S unit :=
  if b then m else ret tt.

Declare Scope kernel_scope.
Delimit Scope kernel_scope with kernel.
Notation "x <- c ;; k" := (bind c (fun x => k))
  (at level 100, c at next level, right associativity) : kernel_scope.
Notation "c ;;; k" := (bind c (fun _ => k))
  (at level 100, right associativity) : kernel_scope.
#[global] Open Scope kernel_scope.

(** The computation on a larger state, through a projection and an update. *)
Definition lift {S T A} (prj : T -> S) (upd : S -> T -> T) (m : M S A) : M T A :=
  fun t => match m (prj t) with
           | Ret a s => Ret a (upd s t)
           | Panic e => Panic e
           | Sleep c s => Sleep c (upd s t)
           | Diverge => Diverge
           end.

(** C's [for] loops over a counted range: [n] iterations from index [i]. *)
Fixpoint for_loop {S} (n : nat) (i : Z) (body : Z -> M S unit) : M S unit :=
  match n with
  | O => ret tt
  | Datatypes.S n' => body i ;;; for_loop n' (i + 1) body
  end.

(** A [while] loop with local variables [a]: the body either continues with
    new locals ([inl]) or leaves the loop with a value ([inr]). *)
Fixpoint loop {S A B} (fuel : nat) (body : A -> M S (A + B)) (a : A) : M S B :=
  match fuel with
  | O => fun _ => Diverge
  | Datatypes.S n =>
      r <- body a ;;
      match r with
      | inl a' => loop n body a'
      | inr b => ret b
      end
  end.

Section monad_laws.
Context {S : Type}.

Lemma bind_ret_l {A B} (a : A) (k : A -> M S B) : bind (ret a) k = k a.
Proof. reflexivity. Qed.

Lemma bind_assoc {A B C} (m : M S A) (f : A -> M S B) (g : B -> M S C) :
  bind (bind m f) g = bind m (fun x => bind (f x) g).
Proof. extensionality s. unfold bind. by destruct (m s). Qed.

Lemma bind_Ret {A B} (m : M S A) (k : A -> M S B) s b s' :
  bind m k s = Ret b s' <-> exists a s1, m s = Ret a s1 /\ k a s1 = Ret b s'.
Proof.
  unfold bind. split.
  - destruct (m s) eqn:E; try discriminate. eauto.
  - intros (a & s1 & -> & H). exact H.
Qed.

Lemma bind_step {A B} (m : M S A) (k : A -> M S B) s a s1 :
  m s = Ret a s1 -> bind m k s = k a s1.
Proof. intros H. unfold bind. by rewrite H. Qed.

Lemma bind_panic {A B} (m : M S A) (k : A -> M S B) s e :
  m s = Panic e -> bind m k s = Panic e.
Proof. intros H. unfold bind. by rewrite H. Qed.
End monad_laws.

Lemma lift_Ret {S T A} (prj : T -> S) upd (m : M S A) t a s :
  m (prj t) = Ret a s -> lift prj upd m t = Ret a (upd s t).
Proof. intros H. unfold lift. by rewrite H. Qed.

Lemma lift_Ret_inv {S T A} (prj : T -> S) upd (m : M S A) t a t' :
  lift prj upd m t = Ret a t' -> exists s, m (prj t) = Ret a s /\ t' = upd s t.
Proof. unfold lift. destruct (m (prj t)); intros; simplify_eq. eauto. Qed.

(** A loop whose body keeps an invariant and decreases a measure returns. *)
Lemma loop_total {S A B} (body : A -> M S (A + B)) (I : A -> S -> Prop)
    (Q : B -> S -> Prop) (meas : A -> S -> nat) :
  (forall a s, I a s -> exists r s', body a s = Ret r s' /\
     match r with
     | inl a' => I a' s' /\ (meas a' s' < meas a s)%nat
     | inr b => Q b s'
     end) ->
  forall n a s, I a s -> (meas a s < n)%nat ->
  exists b s', loop n body a s = Ret b s' /\ Q b s'.
Proof.
  intros Hb n. induction n as [|n IH]; intros a s HI Hm; [lia|].
  simpl. destruct (Hb a s HI) as (r & s1 & E & Hr).
  unfold bind. rewrite E. destruct r as [a'|b].
  - destruct Hr as [HI' Hlt]. apply IH; [done|lia].
  - by exists b, s1.
Qed.

(** Whatever a loop returns satisfies what its invariant gives at the exit. *)
Lemma loop_partial {S A B} (body : A -> M S (A + B)) (I : A -> S -> Prop)
    (Q : B -> S -> Prop) :
  (forall a s r s', I a s -> body a s = Ret r s' ->
     match r with inl a' => I a' s' | inr b => Q b s' end) ->
  forall n a s b s', I a s -> loop n body a s = Ret b s' -> Q b s'.
Proof.
  intros Hb n. induction n as [|n IH]; intros a s b s' HI E; [done|].
  simpl in E. apply bind_Ret in E as ([a'|b'] & s1 & E1 & E2).
  - eapply IH; [|exact E2]. by apply (Hb _ _ _ _ HI E1).
  - apply (Hb _ _ _ _ HI) in E1. by injection E2 as -> ->.
Qed.

(** Inverts a hypothesis that a sequence of binds returned. *)
Ltac minv H :=
  repeat match type of H with
  | bind _ _ _ = Ret _ _ =>
      let a := fresh "x" in let s := fresh "st" in
      let H1 := fresh "E" in
      apply bind_Ret in H; destruct H as (a & s & H1 & H)
  | Ret _ _ = Ret _ _ => injection H as ? ?; subst
  | Panic _ = Ret _ _ => discriminate H
  | Sleep _ _ = Ret _ _ => discriminate H
  | Diverge = Ret _ _ => discriminate H
  end.

(** ** Machine integers *)

(** [wrap w z] is the w-bit unsigned representation of [z]. *)
Definition wrap (w z : Z) : Z := z mod 2 ^ w.
Abbreviation u8 := (wrap 8).
Abbreviation u16 := (wrap 16).
Abbreviation u32 := (wrap 32).
Abbreviation u64 := (wrap 64).

(** The signed reading of the low [w] bits. *)
Definition swrap (w z : Z) : Z := (z + 2 ^ (w - 1)) mod 2 ^ w - 2 ^ (w - 1).
Abbreviation i16 := (swrap 16).
Abbreviation i32 := (swrap 32).
Abbreviation i64 := (swrap 64).

Lemma wrap_range w z : 0 <= w -> 0 <= wrap w z < 2 ^ w.
Proof. intros. apply Z.mod_pos_bound. by apply Z.pow_pos_nonneg. Qed.

Lemma wrap_small w z : 0 <= z < 2 ^ w -> wrap w z = z.
Proof. intros. by apply Z.mod_small. Qed.

Lemma swrap_small w z : 0 < w -> - 2 ^ (w - 1) <= z < 2 ^ (w - 1) -> swrap w z = z.
Proof.
  intros Hw Hz. unfold swrap.
  assert (2 ^ w = 2 * 2 ^ (w - 1)) as Hp.
  { rewrite <- Z.pow_succ_r by lia. f_equal. lia. }
  rewrite Z.mod_small; lia.
Qed.

Lemma swrap_range w z : 0 < w -> - 2 ^ (w - 1) <= swrap w z < 2 ^ (w - 1).
Proof.
  intros Hw. unfold swrap.
  assert (2 ^ w = 2 * 2 ^ (w - 1)) as Hp.
  { rewrite <- Z.pow_succ_r by lia. f_equal. lia. }
  pose proof (Z.mod_pos_bound (z + 2 ^ (w - 1)) (2 ^ w)).
  assert (0 < 2 ^ (w - 1)) by (apply Z.pow_pos_nonneg; lia). lia.
Qed.

(** [2 ^ w] for the widths in use, so that [lia] sees numbers. *)
Lemma pow2_8 : 2 ^ 8 = 256. Proof. reflexivity. Qed.
Lemma pow2_16 : 2 ^ 16 = 65536. Proof. reflexivity. Qed.
Lemma pow2_31 : 2 ^ 31 = 2147483648. Proof. reflexivity. Qed.
Lemma pow2_32 : 2 ^ 32 = 4294967296. Proof. reflexivity. Qed.
Lemma pow2_63 : 2 ^ 63 = 9223372036854775808. Proof. reflexivity. Qed.
Lemma pow2_64 : 2 ^ 64 = 18446744073709551616. Proof. reflexivity. Qed.

(** Unfolds the wrap-around of the machine types into [mod] by a numeral. *)
Ltac unwrap :=
  unfold wrap, swrap in *;
  repeat change (2 ^ 8) with 256 in *;
  repeat change (2 ^ 16) with 65536 in *;
  repeat change (2 ^ 32) with 4294967296 in *;
  repeat change (2 ^ 64) with 18446744073709551616 in *;
  repeat change (2 ^ (32 - 1)) with 2147483648 in *;
  repeat change (2 ^ (16 - 1)) with 32768 in *;
  repeat change (2 ^ (64 - 1)) with 9223372036854775808 in *.

(** [lia] after turning [div] and [mod] by numerals into equations. *)
Ltac dlia := unwrap; Z.div_mod_to_equations; lia.

(** Case analysis on every boolean comparison of integers in sight. *)
Ltac zbool :=
  repeat match goal with
  | |- context [?a =? ?b] => destruct (Z.eqb_spec a b)
  | |- context [?a <? ?b] => destruct (Z.ltb_spec a b)
  | |- context [?a <=? ?b] => destruct (Z.leb_spec a b)
  | H : context [?a =? ?b] |- _ => destruct (Z.eqb_spec a b)
  | H : context [?a <? ?b] |- _ => destruct (Z.ltb_spec a b)
  | H : context [?a <=? ?b] |- _ => destruct (Z.leb_spec a b)
  end.

(** ** Total maps with update *)

Definition fupd {A} (f : Z -> A) (k : Z) (v : A) : Z -> A :=
  fun x => if x =? k then v else f x.

Section fupd_lemmas.
Context {A : Type}.
Implicit Types f : Z -> A.

Lemma fupd_eq f k v : fupd f k v k = v.
Proof. unfold fupd. by rewrite Z.eqb_refl. Qed.

Lemma fupd_ne f k v x : x <> k -> fupd f k v x = f x.
Proof. intros H. unfold fupd. by apply Z.eqb_neq in H as ->. Qed.

Lemma fupd_twice f k v w : fupd (fupd f k v) k w = fupd f k w.
Proof. extensionality x. unfold fupd. by destruct (x =? k). Qed.

Lemma fupd_id f k : fupd f k (f k) = f.
Proof. extensionality x. unfold fupd. destruct (Z.eqb_spec x k); by subst. Qed.

Lemma fupd_comm f k v l w : k <> l -> fupd (fupd f k v) l w = fupd (fupd f l w) k v.
Proof.
  intros H. extensionality x. unfold fupd.
  destruct (Z.eqb_spec x k), (Z.eqb_spec x l); congruence.
Qed.
End fupd_lemmas.

Create HintDb xv6.
Create Rewrite HintDb xv6.
#[export] Hint Rewrite @fupd_eq : xv6.
#[export] Hint Rewrite @fupd_ne using (first [lia | congruence]) : xv6.

(** ** Byte arrays

    Memory, disk blocks and buffers are total maps from an offset or an
    address to a byte; multi-byte fields are little endian. *)

Definition bytes : Type := Z -> Z.

Definition bytes_ok (m : bytes) : Prop := forall a, 0 <= m a < 256.

Fixpoint ld (n : nat) (m : bytes) (a : Z) : Z :=
  match n with
  | O => 0
  | S n' => m a + 256 * ld n' m (a + 1)
  end.

Fixpoint st (n : nat) (m : bytes) (a v : Z) : bytes :=
  match n with
  | O => m
  | S n' => st n' (fupd m a (v mod 256)) (a + 1) (v / 256)
  end.

Abbreviation ld8 := (ld 1).
Abbreviation ld16 := (ld 2).
Abbreviation ld32 := (ld 4).
Abbreviation ld64 := (ld 8).
Abbreviation st8 := (st 1).
Abbreviation st16 := (st 2).
Abbreviation st32 := (st 4).
Abbreviation st64 := (st 8).

(** [memset] and [memmove] as range operations; file CString proves that the
    loops of string.c compute them. *)
Definition fill (m : bytes) (a c n : Z) : bytes :=
  fun x => if (a <=? x) && (x <? a + n) then c mod 256 else m x.

Definition blit (dst : bytes) (d : Z) (src : bytes) (s n : Z) : bytes :=
  fun x => if (d <=? x) && (x <? d + n) then src (x - d + s) else dst x.

Section bytes_lemmas.
Implicit Types m : bytes.

Lemma st_other n : forall m a v x, x < a \/ a + Z.of_nat n <= x -> st n m a v x = m x.
Proof.
  induction n as [|n IH]; intros m a v x Hx; [done|].
  simpl. rewrite IH by lia. apply fupd_ne. lia.
Qed.

Lemma ld_ext n : forall m m' a,
  (forall x, a <= x < a + Z.of_nat n -> m x = m' x) -> ld n m a = ld n m' a.
Proof.
  induction n as [|n IH]; intros m m' a H; [done|].
  simpl. rewrite (H a) by lia. rewrite (IH m m') by (intros; apply H; lia). done.
Qed.

Lemma ld_shift n : forall m m' a b,
  (forall x, 0 <= x < Z.of_nat n -> m (a + x) = m' (b + x)) -> ld n m a = ld n m' b.
Proof.
  induction n as [|n IH]; intros m m' a b H; [done|].
  simpl. pose proof (H 0 ltac:(lia)) as H0. rewrite !Z.add_0_r in H0. rewrite H0.
  rewrite (IH m m' (a + 1) (b + 1)); [done|].
  intros x Hx. rewrite <- !Z.add_assoc. apply H. lia.
Qed.

Lemma ld_st_same n : forall m a v, ld n (st n m a v) a = v mod 256 ^ Z.of_nat n.
Proof.
  induction n as [|n IH]; intros m a v.
  - simpl. by rewrite Z.mod_1_r.
  - simpl ld. simpl st. rewrite st_other by lia. rewrite fupd_eq, IH.
    rewrite Nat2Z.inj_succ, Z.pow_succ_r by lia.
    rewrite Z.rem_mul_r by (try lia; apply Z.pow_nonzero; lia). lia.
Qed.

Lemma ld_st_other n k m a b v :
  b + Z.of_nat k <= a \/ a + Z.of_nat n <= b -> ld k (st n m a v) b = ld k m b.
Proof. intros H. apply ld_ext. intros x Hx. apply st_other. lia. Qed.

Lemma ld_range n : forall m a, bytes_ok m -> 0 <= ld n m a < 256 ^ Z.of_nat n.
Proof.
  induction n as [|n IH]; intros m a Hm; [simpl; lia|].
  simpl ld. rewrite Nat2Z.inj_succ, Z.pow_succ_r by lia.
  specialize (IH m (a + 1) Hm). specialize (Hm a). nia.
Qed.

Lemma fupd_bytes_ok m a v : bytes_ok m -> 0 <= v < 256 -> bytes_ok (fupd m a v).
Proof. intros Hm Hv x. unfold fupd. destruct (x =? a); auto. Qed.

Lemma st_bytes_ok n : forall m a v, bytes_ok m -> bytes_ok (st n m a v).
Proof.
  induction n as [|n IH]; intros m a v Hm; [done|].
  simpl. apply IH, fupd_bytes_ok; [done|]. apply Z.mod_pos_bound. lia.
Qed.

Lemma fill_bytes_ok m a c n : bytes_ok m -> bytes_ok (fill m a c n).
Proof.
  intros Hm x. unfold fill. destruct (_ && _); [|done].
  apply Z.mod_pos_bound. lia.
Qed.

Lemma blit_bytes_ok m d s x n : bytes_ok m -> bytes_ok s -> bytes_ok (blit m d s x n).
Proof. intros Hm Hs y. unfold blit. destruct (_ && _); auto. Qed.

Lemma fill_in m a c n x : a <= x < a + n -> fill m a c n x = c mod 256.
Proof. intros. unfold fill. zbool; simpl; lia || done. Qed.

Lemma fill_out m a c n x : x < a \/ a + n <= x -> fill m a c n x = m x.
Proof. intros. unfold fill. zbool; simpl; lia || done. Qed.

Lemma blit_in m d s o n x : d <= x < d + n -> blit m d s o n x = s (x - d + o).
Proof. intros. unfold blit. zbool; simpl; lia || done. Qed.

Lemma blit_out m d s o n x : x < d \/ d + n <= x -> blit m d s o n x = m x.
Proof. intros. unfold blit. zbool; simpl; lia || done. Qed.

Lemma ld_fill_other k m a c n b :
  b + Z.of_nat k <= a \/ a + n <= b -> ld k (fill m a c n) b = ld k m b.
Proof. intros H. apply ld_ext. intros x Hx. apply fill_out. lia. Qed.

Lemma ld_blit_other k m d s o n b :
  b + Z.of_nat k <= d \/ d + n <= b -> ld k (blit m d s o n) b = ld k m b.
Proof. intros H. apply ld_ext. intros x Hx. apply blit_out. lia. Qed.

Lemma ld_fill_zero k : forall m a n b,
  a <= b -> b + Z.of_nat k <= a + n -> ld k (fill m a 0 n) b = 0.
Proof.
  induction k as [|k IH]; intros m a n b H1 H2; [done|].
  simpl. rewrite fill_in by lia. rewrite IH by lia. done.
Qed.
End bytes_lemmas.

(** A NUL-terminated string [s] stored at address [a]. *)
Fixpoint cstr (m : bytes) (a : Z) (s : list Z) : Prop :=
  match s with
  | [] => m a = 0
  | c :: s' => m a = c /\ c <> 0 /\ cstr m (a + 1) s'
  end.

(** The bytes [m a], [m (a+1)], ... as a list of length [n]. *)
Fixpoint slice (n : nat) (m : bytes) (a : Z) : list Z :=
  match n with
  | O => []
  | S n' => m a :: slice n' m (a + 1)
  end.

(** Stores a list of bytes at [a]. *)
Fixpoint store_list (m : bytes) (a : Z) (l : list Z) : bytes :=
  match l with
  | [] => m
  | c :: l' => store_list (fupd m a c) (a + 1) l'
  end.

Section slice_lemmas.
Implicit Types m : bytes.

Lemma length_slice n : forall m a, length (slice n m a) = n.
Proof. induction n; intros; simpl; auto. Qed.

Lemma slice_ext n : forall m m' a,
  (forall x, a <= x < a + Z.of_nat n -> m x = m' x) -> slice n m a = slice n m' a.
Proof.
  induction n as [|n IH]; intros m m' a H; [done|]. simpl.
  f_equal; [apply H; lia|]. apply IH. intros. apply H. lia.
Qed.

Lemma slice_lookup n : forall m a i, (i < n)%nat -> slice n m a !! i = Some (m (a + Z.of_nat i)).
Proof.
  induction n as [|n IH]; intros m a i H; [lia|].
  destruct i as [|i]; simpl; [by rewrite Z.add_0_r|].
  rewrite IH by lia. do 2 f_equal. lia.
Qed.

Lemma slice_app k n : forall m a,
  slice (k + n) m a = slice k m a ++ slice n m (a + Z.of_nat k).
Proof.
  induction k as [|k IH]; intros m a; simpl; [by rewrite Z.add_0_r|].
  rewrite IH. do 2 f_equal. f_equal. lia.
Qed.

Lemma store_list_other l : forall m a x,
  x < a \/ a + Z.of_nat (length l) <= x -> store_list m a l x = m x.
Proof.
  induction l as [|c l IH]; intros m a x H; [done|]. simpl in *.
  rewrite IH by lia. apply fupd_ne. lia.
Qed.

Lemma store_list_slice l : forall m a, slice (length l) (store_list m a l) a = l.
Proof.
  induction l as [|c l IH]; intros m a; [done|]. simpl.
  rewrite store_list_other by lia. by rewrite fupd_eq, IH.
Qed.
End slice_lemmas.

#[global] Arguments ld : simpl never.
#[global] Arguments st : simpl never.

(** ** Ring buffers

    [ring n d a len] is the list of the [len] bytes of the ring [d] of size
    [n] that start at the free-running index [a]. *)
Definition ring (n : Z) (d : bytes) (a len : Z) : list Z :=
  (fun j => d ((a + j) mod n)) <$> seqZ 0 len.

Section ring_lemmas.
Implicit Types d : bytes.

Lemma length_ring n d a len : 0 <= len -> Z.of_nat (length (ring n d a len)) = len.
Proof. intros. unfold ring. rewrite length_fmap, length_seqZ. lia. Qed.

Lemma ring_nil n d a len : len <= 0 -> ring n d a len = [].
Proof. intros. unfold ring. by rewrite seqZ_nil. Qed.

Lemma ring_ext n d d' a b len :
  (forall j, 0 <= j < len -> d ((a + j) mod n) = d' ((b + j) mod n)) ->
  ring n d a len = ring n d' b len.
Proof.
  intros E. unfold ring. apply list_fmap_ext. intros i x Hx.
  apply lookup_seqZ in Hx as [-> Hi]. apply E. lia.
Qed.

Lemma ring_shift n d a b len :
  n <> 0 -> a mod n = b mod n -> ring n d a len = ring n d b len.
Proof.
  intros Hn E. apply ring_ext. intros j _. f_equal.
  rewrite (Z.add_mod a j), (Z.add_mod b j) by done. by rewrite E.
Qed.

Lemma ring_app n d a l1 l2 : 0 <= l1 -> 0 <= l2 ->
  ring n d a (l1 + l2) = ring n d a l1 ++ ring n d (a + l1) l2.
Proof.
  intros H1 H2. unfold ring. rewrite seqZ_app, fmap_app by lia. f_equal.
  rewrite Z.add_0_l. apply list_eq. intros i. rewrite !list_lookup_fmap.
  destruct (decide (i < Z.to_nat l2)%nat).
  - rewrite !lookup_seqZ_lt by lia. simpl. do 3 f_equal. lia.
  - rewrite !lookup_seqZ_ge by lia. done.
Qed.

Lemma ring_one n d a : ring n d a 1 = [d (a mod n)].
Proof. unfold ring. rewrite seqZ_cons, seqZ_nil by lia. simpl. by rewrite Z.add_0_r. Qed.

Lemma ring_cons n d a len : 0 < len ->
  ring n d a len = d (a mod n) :: ring n d (a + 1) (len - 1).
Proof.
  intros. replace len with (1 + (len - 1)) at 1 by lia.
  by rewrite ring_app, ring_one by lia.
Qed.

Lemma ring_snoc n d a len k v : 0 < n -> 0 <= len < n -> k mod n = (a + len) mod n ->
  ring n (fupd d (k mod n) v) a (len + 1) = ring n d a len ++ [v].
Proof.
  intros Hn Hl Hk. rewrite ring_app, ring_one by lia. f_equal.
  - apply ring_ext. intros j Hj. apply fupd_ne. rewrite Hk. intros E.
    assert ((a + len - (a + j)) mod n = 0) as H0.
    { rewrite Zminus_mod, E, Z.sub_diag. apply Z.mod_0_l. lia. }
    replace (a + len - (a + j)) with (len - j) in H0 by lia.
    rewrite Z.mod_small in H0; lia.
  - by rewrite <- Hk, fupd_eq.
Qed.
End ring_lemmas.
