(* ===== verification/CString.v ===== *)
(** * kernel/string.c: memory and string routines

    The loops of string.c over byte memory, and the theorems that the rest of
    the development uses in place of the loops: [memset] and [memmove] compute
    the range operations [fill] and [blit] of file Prelude, also when the
    source and destination of [memmove] overlap. *)
From stdpp Require Import base list numbers strings.
From Stdlib Require Import ZArith Lia FunctionalExtensionality.
From S2P Require Import Prelude.

(** for (i = 0; i < n; i++) cdst[i] = c; *)
Fixpoint memset_loop (m : bytes) (cdst c i : Z) (n : nat) : bytes :=
  match n with
  | O => m
  | S n' => memset_loop (fupd m (cdst + i) (u8 c)) cdst c (i + 1) n'
  end.
Definition memset (m : bytes) (dst c n : Z) : bytes :=
  memset_loop m dst c 0 (Z.to_nat n).

(** while (n-- > 0) ... ; bytes are unsigned char, the result is an int. *)
Fixpoint memcmp_loop (m : bytes) (s1 s2 : Z) (n : nat) : Z :=
  match n with
  | O => 0
  | S n' => if m s1 =? m s2 then memcmp_loop m (s1 + 1) (s2 + 1) n'
            else m s1 - m s2
  end.
Definition memcmp (m : bytes) (v1 v2 n : Z) : Z := memcmp_loop m v1 v2 (Z.to_nat n).

Fixpoint copy_back (m : bytes) (d s : Z) (n : nat) : bytes :=
  match n with
  | O => m
  | S n' => copy_back (fupd m (d - 1) (m (s - 1))) (d - 1) (s - 1) n'
  end.
Fixpoint copy_fwd (m : bytes) (d s : Z) (n : nat) : bytes :=
  match n with
  | O => m
  | S n' => copy_fwd (fupd m d (m s)) (d + 1) (s + 1) n'
  end.
Definition memmove (m : bytes) (dst src n : Z) : bytes :=
  if n =? 0 then m
  else if (src <? dst) && (src + n >? dst)
  then copy_back m (dst + n) (src + n) (Z.to_nat n)
  else copy_fwd m dst src (Z.to_nat n).
Definition memcpy (m : bytes) (dst src n : Z) : bytes := memmove m dst src n.

Fixpoint strncmp_loop (m : bytes) (p q : Z) (n : nat) : Z :=
  match n with
  | O => 0
  | S n' => if negb (m p =? 0) && (m p =? m q)
            then strncmp_loop m (p + 1) (q + 1) n'
            else m p - m q
  end.
Definition strncmp (m : bytes) (p q n : Z) : Z := strncmp_loop m p q (Z.to_nat n).

(** The second loop of strncpy: pad with NULs. *)
Fixpoint pad_zero (m : bytes) (s : Z) (n : nat) : bytes :=
  match n with
  | O => m
  | S n' => pad_zero (fupd m s 0) (s + 1) n'
  end.
Fixpoint strncpy_loop (m : bytes) (s t : Z) (n : nat) : bytes :=
  match n with
  | O => m
  | S n' => let m' := fupd m s (m t) in
            if m t =? 0 then pad_zero m' (s + 1) n'
            else strncpy_loop m' (s + 1) (t + 1) n'
  end.
Definition strncpy (m : bytes) (s t n : Z) : bytes := strncpy_loop m s t (Z.to_nat n).

(** [n] is the value after [--n]; the final [*s = 0] is the base case. *)
Fixpoint safestrcpy_loop (m : bytes) (s t : Z) (n : nat) : bytes :=
  match n with
  | O => fupd m s 0
  | S n' => let m' := fupd m s (m t) in
            if m t =? 0 then fupd m' (s + 1) 0
            else safestrcpy_loop m' (s + 1) (t + 1) n'
  end.
Definition safestrcpy (m : bytes) (s t n : Z) : bytes :=
  if n <=? 0 then m else safestrcpy_loop m s t (Z.to_nat (n - 1)).

(** strlen runs until it meets a NUL; the fuel bounds the scan. *)
Fixpoint strlen (fuel : nat) (m : bytes) (s : Z) : option Z :=
  match fuel with
  | O => None
  | S f => if m s =? 0 then Some 0
           else option_map (Z.add 1) (strlen f m (s + 1))
  end.

(** The bytes of a string up to its NUL, at most [n] of them. *)
Fixpoint cprefix (n : nat) (m : bytes) (a : Z) : list Z :=
  match n with
  | O => []
  | S n' => if m a =? 0 then [] else m a :: cprefix n' m (a + 1)
  end.

Section loops.
Implicit Types m : bytes.

Lemma memset_loop_fill n : forall m d c i,
  memset_loop m d c i n = fill m (d + i) c (Z.of_nat n).
Proof.
  induction n as [|n IH]; intros m d c i; simpl.
  - extensionality x. unfold fill. zbool; simpl; lia || done.
  - rewrite IH. extensionality x. unfold fill, fupd, wrap.
    change (2 ^ 8) with 256. zbool; simpl; lia || done.
Qed.

Lemma copy_fwd_spec n : forall m d s,
  d <= s \/ s + Z.of_nat n <= d ->
  copy_fwd m d s n = blit m d m s (Z.of_nat n).
Proof.
  induction n as [|n IH]; intros m d s H; cbn [copy_fwd].
  - extensionality x. unfold blit. zbool; simpl; lia || done.
  - rewrite IH by lia. extensionality x. unfold blit, fupd.
    zbool; simpl; try lia; try done; f_equal; lia.
Qed.

Lemma copy_back_spec n : forall m d s,
  s <= d -> copy_back m d s n = blit m (d - Z.of_nat n) m (s - Z.of_nat n) (Z.of_nat n).
Proof.
  induction n as [|n IH]; intros m d s H; cbn [copy_back].
  - extensionality x. unfold blit. zbool; simpl; lia || done.
  - rewrite IH by lia. extensionality x. unfold blit, fupd.
    zbool; simpl; try lia; try done; f_equal; lia.
Qed.

Lemma pad_zero_fill n : forall m s, pad_zero m s n = fill m s 0 (Z.of_nat n).
Proof.
  induction n as [|n IH]; intros m s; cbn [pad_zero].
  - extensionality x. unfold fill. zbool; simpl; lia || done.
  - rewrite IH. extensionality x. unfold fill, fupd. zbool; simpl; lia || done.
Qed.

Lemma cprefix_ext n : forall m m' a,
  (forall x, a <= x < a + Z.of_nat n -> m x = m' x) -> cprefix n m a = cprefix n m' a.
Proof.
  induction n as [|n IH]; intros m m' a H; [done|]. simpl.
  rewrite (H a) by lia. destruct (m' a =? 0); [done|].
  f_equal. apply IH. intros. apply H. lia.
Qed.

Lemma cprefix_length n : forall m a, (length (cprefix n m a) <= n)%nat.
Proof.
  induction n as [|n IH]; intros m a; simpl; [lia|].
  destruct (m a =? 0); simpl; [lia|]. specialize (IH m (a + 1)). lia.
Qed.

Lemma cprefix_cstr s : forall m a n, cstr m a s -> (length s < n)%nat -> cprefix n m a = s.
Proof.
  induction s as [|c s IH]; intros m a n Hs Hn; destruct n as [|n]; simpl in *; try lia.
  - by rewrite Hs.
  - destruct Hs as (Ha & Hc & Hs). rewrite Ha. rewrite (proj2 (Z.eqb_neq _ _) Hc).
    f_equal. apply IH; [done|lia].
Qed.

Lemma strncpy_loop_out n : forall m s t x,
  x < s \/ s + Z.of_nat n <= x -> strncpy_loop m s t n x = m x.
Proof.
  induction n as [|n IH]; intros m s t x H; [done|]. cbn [strncpy_loop].
  destruct (m t =? 0).
  - rewrite pad_zero_fill, fill_out by lia. apply fupd_ne. lia.
  - rewrite IH by lia. apply fupd_ne. lia.
Qed.

Lemma safestrcpy_loop_out n : forall m s t x,
  x < s \/ s + Z.of_nat n < x -> safestrcpy_loop m s t n x = m x.
Proof.
  induction n as [|n IH]; intros m s t x H; cbn [safestrcpy_loop].
  - apply fupd_ne. lia.
  - destruct (m t =? 0).
    + rewrite !fupd_ne by lia. done.
    + rewrite IH by lia. apply fupd_ne. lia.
Qed.

Lemma safestrcpy_loop_spec n : forall m s t,
  s + Z.of_nat n < t \/ t + Z.of_nat n <= s ->
  cstr (safestrcpy_loop m s t n) s (cprefix n m t).
Proof.
  induction n as [|n IH]; intros m s t H; cbn [safestrcpy_loop cprefix].
  - simpl. apply fupd_eq.
  - destruct (Z.eqb_spec (m t) 0) as [E|E].
    + simpl. rewrite fupd_ne by lia. rewrite fupd_eq. done.
    + cbn [cstr]. repeat split; [|done|].
      * rewrite safestrcpy_loop_out by lia. apply fupd_eq.
      * rewrite (cprefix_ext n m (fupd m s (m t))) by (intros; rewrite fupd_ne; lia || done).
        apply IH. lia.
Qed.

Lemma strncpy_loop_spec n : forall m s t,
  s + Z.of_nat n <= t \/ t + Z.of_nat n <= s ->
  slice n (strncpy_loop m s t n) s =
    cprefix n m t ++ replicate (n - length (cprefix n m t)) 0.
Proof.
  induction n as [|n IH]; intros m s t H; [done|].
  cbn [strncpy_loop cprefix slice]. destruct (Z.eqb_spec (m t) 0) as [E|E]; cbn [length app].
  - rewrite pad_zero_fill. rewrite fill_out, fupd_eq by lia.
    rewrite E, Nat.sub_0_r. cbn [replicate]. f_equal.
    apply list_eq. intros i. destruct (decide (i < n)%nat) as [Hi|Hi].
    + rewrite slice_lookup, fill_in by lia. by rewrite lookup_replicate_2.
    + rewrite !lookup_ge_None_2; [done|by rewrite length_replicate; lia|by rewrite length_slice; lia].
  - rewrite strncpy_loop_out, fupd_eq by lia. f_equal.
    rewrite (cprefix_ext n m (fupd m s (m t))) by (intros; rewrite fupd_ne; lia || done).
    rewrite IH by lia. done.
Qed.
End loops.

Lemma memset_fill m dst c n : 0 <= n -> memset m dst c n = fill m dst c n.
Proof. intros H. unfold memset. rewrite memset_loop_fill. f_equal; lia. Qed.

Lemma memmove_blit m dst src n : 0 <= n -> memmove m dst src n = blit m dst m src n.
Proof.
  intros H. unfold memmove. destruct (Z.eqb_spec n 0) as [->|Hn].
  - extensionality x. unfold blit. zbool; simpl; lia || done.
  - destruct (Z.ltb_spec src dst), (Z.gtb_spec (src + n) dst); cbn [andb].
    + rewrite copy_back_spec, Z2Nat.id by lia. f_equal; lia.
    + rewrite copy_fwd_spec, Z2Nat.id by lia. done.
    + rewrite copy_fwd_spec, Z2Nat.id by lia. done.
    + rewrite copy_fwd_spec, Z2Nat.id by lia. done.
Qed.

(** memmove: whatever the overlap of the two ranges, the destination ends
    up holding the bytes the source range held before the call, and no byte
    outside the destination changes. memset fills exactly its range. *)
Theorem memmove_memset_correct m dst src n c :
  0 <= n ->
  (forall i, 0 <= i < n -> memmove m dst src n (dst + i) = m (src + i)) /\
  (forall x, x < dst \/ dst + n <= x -> memmove m dst src n x = m x) /\
  (forall i, 0 <= i < n -> memset m dst c n (dst + i) = u8 c) /\
  (forall x, x < dst \/ dst + n <= x -> memset m dst c n x = m x).
Proof.
  intros H. rewrite memmove_blit, memset_fill by done. repeat split; intros.
  - rewrite blit_in by lia. f_equal. lia.
  - by apply blit_out.
  - by rewrite fill_in by lia.
  - by apply fill_out.
Qed.

Lemma memmove_memset_correct_witness :
  0 <= 3 /\ memmove (fun a => a) 11 10 3 (11 + 2) = 12 /\ memset (fun a => a) 4 257 2 (4 + 1) = 1.
Proof.
  split; [lia|].
  destruct (memmove_memset_correct (fun a => a) 11 10 3 1 ltac:(lia)) as (H & _).
  split; [exact (H 2 ltac:(lia))|].
  destruct (memmove_memset_correct (fun a => a) 4 0 2 257 ltac:(lia)) as (_ & _ & G & _).
  exact (G 1 ltac:(lia)).
Defined.

Lemma strncmp_loop_zero n : forall m p q,
  strncmp_loop m p q n = 0 <-> cprefix n m p = cprefix n m q.
Proof.
  induction n as [|n IH]; intros m p q; [done|]. cbn [strncmp_loop cprefix].
  destruct (Z.eqb_spec (m p) 0) as [Ep|Ep], (Z.eqb_spec (m q) 0) as [Eq|Eq],
    (Z.eqb_spec (m p) (m q)) as [E|E]; cbn [negb andb]; try lia.
  all: first [ by rewrite IH, E; split; intros H; simplify_eq; congruence
             | split; intros H; first [lia | by simplify_eq] ].
Qed.

(** strncmp returns 0 exactly when the two strings agree up to their NUL
    or up to the first n bytes; namecmp relies on it to compare directory
    entry names that need not be NUL-terminated. *)
Theorem strncmp_zero_iff m p q n :
  strncmp m p q n = 0 <-> cprefix (Z.to_nat n) m p = cprefix (Z.to_nat n) m q.
Proof. apply strncmp_loop_zero. Qed.

(** safestrcpy, given a buffer of n > 0 bytes that does not overlap the
    source, always leaves a NUL-terminated string there: the source's bytes up
    to its NUL, cut to n - 1; it writes nothing outside the buffer. strncpy
    leaves exactly n bytes: the source's prefix padded with NULs. *)
Theorem safestrcpy_strncpy_correct m s t n :
  0 < n -> s + n <= t \/ t + n <= s ->
  cstr (safestrcpy m s t n) s (cprefix (Z.to_nat (n - 1)) m t) /\
  (forall x, x < s \/ s + n <= x -> safestrcpy m s t n x = m x) /\
  slice (Z.to_nat n) (strncpy m s t n) s =
    cprefix (Z.to_nat n) m t ++ replicate (Z.to_nat n - length (cprefix (Z.to_nat n) m t)) 0 /\
  (forall x, x < s \/ s + n <= x -> strncpy m s t n x = m x).
Proof.
  intros Hn Hd. unfold safestrcpy, strncpy.
  destruct (Z.leb_spec n 0); [lia|]. repeat split.
  - apply safestrcpy_loop_spec. lia.
  - intros. apply safestrcpy_loop_out. lia.
  - apply strncpy_loop_spec. lia.
  - intros. apply strncpy_loop_out. lia.
Qed.

Lemma safestrcpy_strncpy_correct_witness :
  let m := store_list (fun _ => 7) 100 [65; 66; 67; 68; 0] in
  cstr (safestrcpy m 0 100 3) 0 [65; 66] /\ slice 6 (strncpy m 0 100 6) 0 = [65; 66; 67; 68; 0; 0].
Proof.
  intros m. split.
  - exact (proj1 (safestrcpy_strncpy_correct m 0 100 3 ltac:(lia) ltac:(lia))).
  - exact (proj1 (proj2 (proj2 (safestrcpy_strncpy_correct m 0 100 6 ltac:(lia) ltac:(lia))))).
Defined.

Lemma strlen_cstr s : forall m a f, cstr m a s -> (length s < f)%nat ->
  strlen f m a = Some (Z.of_nat (length s)).
Proof.
  induction s as [|c s IH]; intros m a f Hs Hf; destruct f as [|f]; simpl in *; try lia.
  - by rewrite Hs.
  - destruct Hs as (-> & Hc & Hs). rewrite (proj2 (Z.eqb_neq _ _) Hc).
    rewrite (IH m (a + 1) f Hs) by lia. simpl. f_equal. lia.
Qed.
