(* ===== verification/Memlayout.v ===== *)
(** * kernel/riscv.h, kernel/memlayout.h, kernel/param.h: address arithmetic

    The constants and address macros of the kernel headers, with the lemmas
    that turn their bit operations into division and remainder. *)
From stdpp Require Import base list numbers strings.
From Stdlib Require Import ZArith Lia.
From S2P Require Import Prelude.

Definition PGSIZE : Z := 4096.
Definition PGSHIFT : Z := 12.

(** ~(PGSIZE - 1) is an int; converted to uint64 it is -4096 mod 2^64, whose
    conjunction with a 64-bit value is the conjunction with -4096. *)
Definition PGROUNDUP (sz : Z) : Z := Z.land (u64 (sz + PGSIZE - 1)) (Z.lnot (PGSIZE - 1)).
Definition PGROUNDDOWN (a : Z) : Z := Z.land a (Z.lnot (PGSIZE - 1)).

Definition PTE_V : Z := Z.shiftl 1 0.
Definition PTE_R : Z := Z.shiftl 1 1.
Definition PTE_W : Z := Z.shiftl 1 2.
Definition PTE_X : Z := Z.shiftl 1 3.
Definition PTE_U : Z := Z.shiftl 1 4.

Definition PA2PTE (pa : Z) : Z := u64 (Z.shiftl (Z.shiftr pa 12) 10).
Definition PTE2PA (pte : Z) : Z := u64 (Z.shiftl (Z.shiftr pte 10) 12).
Definition PTE_FLAGS (pte : Z) : Z := Z.land pte 0x3FF.

Definition PXMASK : Z := 0x1FF.
Definition PXSHIFT (level : Z) : Z := PGSHIFT + 9 * level.
Definition PX (level va : Z) : Z := Z.land (Z.shiftr va (PXSHIFT level)) PXMASK.

Definition MAXVA : Z := Z.shiftl 1 (9 + 9 + 9 + 12 - 1).

Definition QEMU_POWER : Z := 0x100000.
Definition UART0 : Z := 0x10000000.
Definition VIRTIO0 : Z := 0x10001000.
Definition PLIC : Z := 0x0c000000.
Definition KERNBASE : Z := 0x80000000.
Definition PHYSTOP : Z := KERNBASE + 128 * 1024 * 1024.
Definition TRAMPOLINE : Z := MAXVA - PGSIZE.
Definition KSTACK (p : Z) : Z := TRAMPOLINE - (p + 1) * 2 * PGSIZE.
Definition TRAPFRAME : Z := TRAMPOLINE - PGSIZE.

Definition NPROC : Z := 64.
Definition NCPU : Z := 8.
Definition NOFILE : Z := 16.
Definition NFILE : Z := 100.
Definition NINODE : Z := 50.
Definition NDEV : Z := 10.
Definition ROOTDEV : Z := 1.
Definition MAXARG : Z := 32.
Definition MAXOPBLOCKS : Z := 10.
Definition LOGBLOCKS : Z := MAXOPBLOCKS * 3.
Definition NBUF : Z := MAXOPBLOCKS * 3.
Definition FSSIZE : Z := 2000.
Definition MAXPATH : Z := 128.
Definition USERSTACK : Z := 1.

Lemma land_lnot_page a : Z.land a (Z.lnot (PGSIZE - 1)) = a / 4096 * 4096.
Proof.
  change (PGSIZE - 1) with (Z.ones 12). rewrite <- Z.ldiff_land.
  rewrite Z.ldiff_ones_r by lia. rewrite Z.shiftl_mul_pow2, Z.shiftr_div_pow2 by lia. done.
Qed.

Lemma PGROUNDDOWN_div a : PGROUNDDOWN a = a / 4096 * 4096.
Proof. apply land_lnot_page. Qed.

Lemma PGROUNDUP_div sz :
  0 <= sz -> sz + 4095 < 2 ^ 64 -> PGROUNDUP sz = (sz + 4095) / 4096 * 4096.
Proof.
  intros. unfold PGROUNDUP. rewrite land_lnot_page, wrap_small.
  - unfold PGSIZE. f_equal. f_equal. lia.
  - unfold PGSIZE. lia.
Qed.

Lemma PX_div level va :
  0 <= level -> PX level va = va / 2 ^ (12 + 9 * level) mod 512.
Proof.
  intros. unfold PX, PXSHIFT, PGSHIFT, PXMASK.
  change 0x1FF with (Z.ones 9). rewrite Z.land_ones, Z.shiftr_div_pow2 by lia. done.
Qed.

Lemma PX_range level va : 0 <= level -> 0 <= PX level va < 512.
Proof. intros. rewrite PX_div by done. apply Z.mod_pos_bound. lia. Qed.

(** A page-aligned physical address survives the trip through a PTE. *)
Lemma PA2PTE_div pa : 0 <= pa < 2 ^ 56 -> PA2PTE pa = pa / 4096 * 1024.
Proof.
  intros. unfold PA2PTE. rewrite Z.shiftl_mul_pow2, Z.shiftr_div_pow2 by lia.
  change (2 ^ 12) with 4096. change (2 ^ 10) with 1024.
  apply wrap_small. change (2 ^ 56) with 72057594037927936 in *.
  change (2 ^ 64) with 18446744073709551616. Z.div_mod_to_equations. lia.
Qed.

Lemma lor_disjoint_add a b n :
  0 <= n -> 0 <= b < 2 ^ n -> a mod 2 ^ n = 0 -> Z.lor a b = a + b.
Proof.
  intros Hn Hb Ha. symmetry. rewrite Z.add_nocarry_lxor.
  - symmetry. rewrite <- Z.lxor_lor; [done|].
    apply Z.bits_inj'. intros i Hi. rewrite Z.land_spec, Z.bits_0.
    destruct (Z.ltb_spec i n).
    + rewrite <- (Z.mod_pow2_bits_low a n i) by lia. by rewrite Ha, Z.bits_0.
    + rewrite <- (Z.mod_small b (2 ^ n)) by lia.
      rewrite (Z.mod_pow2_bits_high b n i) by lia. by rewrite andb_false_r.
  - apply Z.bits_inj'. intros i Hi. rewrite Z.land_spec, Z.bits_0.
    destruct (Z.ltb_spec i n).
    + rewrite <- (Z.mod_pow2_bits_low a n i) by lia. by rewrite Ha, Z.bits_0.
    + rewrite <- (Z.mod_small b (2 ^ n)) by lia.
      rewrite (Z.mod_pow2_bits_high b n i) by lia. by rewrite andb_false_r.
Qed.

Lemma PTE2PA_div pte : 0 <= pte < 2 ^ 54 -> PTE2PA pte = pte / 1024 * 4096.
Proof.
  intros. unfold PTE2PA. rewrite Z.shiftl_mul_pow2, Z.shiftr_div_pow2 by lia.
  change (2 ^ 12) with 4096. change (2 ^ 10) with 1024.
  apply wrap_small. change (2 ^ 54) with 18014398509481984 in *.
  change (2 ^ 64) with 18446744073709551616. Z.div_mod_to_equations. lia.
Qed.

Lemma PTE2PA_PA2PTE pa f :
  0 <= pa < 2 ^ 56 -> pa mod 4096 = 0 -> 0 <= f < 1024 ->
  PTE2PA (Z.lor (PA2PTE pa) f) = pa.
Proof.
  intros Hp Ha Hf. rewrite PA2PTE_div by done.
  rewrite (lor_disjoint_add _ _ 10); [|lia|done|by apply Z.mod_mul].
  change (2 ^ 56) with 72057594037927936 in Hp.
  rewrite PTE2PA_div.
  - Z.div_mod_to_equations. lia.
  - change (2 ^ 54) with 18014398509481984. Z.div_mod_to_equations. lia.
Qed.

(** The flag bits of a PTE built from an address are the flags given. *)
Lemma PTE_flag_bits pa f i :
  0 <= pa < 2 ^ 56 -> 0 <= f < 1024 -> 0 <= i < 10 ->
  Z.testbit (Z.lor (PA2PTE pa) f) i = Z.testbit f i.
Proof.
  intros Hp Hf Hi. rewrite Z.lor_spec, PA2PTE_div by done.
  change 1024 with (2 ^ 10). rewrite Z.mul_pow2_bits_low by lia. done.
Qed.

Lemma land_shiftl1 x i : 0 <= i -> (Z.land x (Z.shiftl 1 i) =? 0) = negb (Z.testbit x i).
Proof.
  intros Hi. rewrite Z.shiftl_1_l. destruct (Z.testbit x i) eqn:E; cbn [negb].
  - apply Z.eqb_neq. intros H. assert (Z.testbit (Z.land x (2 ^ i)) i = false) as H1.
    { rewrite H. apply Z.bits_0. }
    rewrite Z.land_spec, E, Z.pow2_bits_true in H1 by lia. done.
  - apply Z.eqb_eq. apply Z.bits_inj'. intros j Hj.
    rewrite Z.land_spec, Z.bits_0. destruct (decide (i = j)) as [<-|Hne].
    + by rewrite E.
    + rewrite Z.pow2_bits_false by done. by rewrite andb_false_r.
Qed.
