(* ===== verification/Kalloc.v ===== *)
(** * kernel/kalloc.c: the physical page allocator

    The free list is a chain of [struct run] nodes stored inside the free
    pages themselves, so the state is the byte memory and the head pointer.
    The invariant [kmem_inv k l] says that following [next] pointers from the
    head visits exactly the distinct, aligned, in-range pages [l]. Spinlock
    sections (kmem.lock) are atomic steps of the model. *)
From stdpp Require Import base list numbers strings relations.
From Stdlib Require Import ZArith Lia FunctionalExtensionality.
From S2P Require Import Prelude Memlayout.

(** [end], the first address after the kernel, is set by the linker script. *)
Class KernelEnd := {
  kend : Z;
  kend_lo : KERNBASE <= kend;
  kend_hi : kend <= PHYSTOP;
}.

(** Physical memory and kmem.freelist. *)
Record kmem := Kmem { mem : bytes; freelist : Z }.

Definition set_mem (m : bytes) (k : kmem) : kmem := Kmem m (freelist k).
Definition set_freelist (r : Z) (k : kmem) : kmem := Kmem (mem k) r.

Section kalloc.
Context `{KernelEnd}.

Definition kfree (pa : Z) : M kmem unit :=
  if negb (pa mod PGSIZE =? 0) || (pa <? kend) || (PHYSTOP <=? pa)
  then panic "kfree"
  else
    modify (fun k => set_mem (fill (mem k) pa 1 PGSIZE) k) ;;;
    modify (fun k => set_mem (st64 (mem k) pa (freelist k)) k) ;;;
    modify (set_freelist pa).

Definition kalloc : M kmem Z :=
  r <- gets freelist ;;
  when (negb (r =? 0)) (modify (fun k => set_freelist (ld64 (mem k) r) k)) ;;;
  when (negb (r =? 0)) (modify (fun k => set_mem (fill (mem k) r 5 PGSIZE) k)) ;;;
  ret r.

(** for (; p + PGSIZE <= pa_end; p += PGSIZE) kfree(p); *)
Definition freerange (pa_start pa_end : Z) : M kmem unit :=
  loop (Z.to_nat ((pa_end - pa_start) / PGSIZE + 2))
    (fun p => if p + PGSIZE <=? pa_end then kfree p ;;; ret (inl (p + PGSIZE))
              else ret (inr tt))
    (PGROUNDUP pa_start).

Definition kinit : M kmem unit := freerange kend PHYSTOP.

(** while (r) { free_bytes += PGSIZE; r = r->next; } *)
Definition count_free_ram (fuel : nat) : M kmem Z :=
  r <- gets freelist ;;
  loop fuel
    (fun '(r, free_bytes) =>
       if negb (r =? 0)
       then k <- get ;; ret (inl (ld64 (mem k) r, u64 (free_bytes + PGSIZE)))
       else ret (inr free_bytes))
    (r, 0).

(** ** Invariant *)

Definition page_ok (p : Z) : Prop := p mod PGSIZE = 0 /\ kend <= p < PHYSTOP.

#[global] Instance page_ok_dec p : Decision (page_ok p).
Proof. unfold page_ok. apply _. Defined.

Fixpoint chain (m : bytes) (h : Z) (l : list Z) : Prop :=
  match l with
  | [] => h = 0
  | p :: l' => h = p /\ chain m (ld64 m p) l'
  end.

Record kmem_inv (k : kmem) (l : list Z) : Prop := {
  inv_chain : chain (mem k) (freelist k) l;
  inv_nodup : NoDup l;
  inv_pages : Forall page_ok l;
}.

(** Memory agrees outside the page [p]. *)
Definition same_outside (p : Z) (m m' : bytes) : Prop :=
  forall x, x < p \/ p + PGSIZE <= x -> m' x = m x.

Lemma page_ok_range p : page_ok p -> 0 < p /\ p + PGSIZE <= 2 ^ 32.
Proof.
  intros [Ha Hr]. pose proof kend_lo. pose proof kend_hi.
  unfold PHYSTOP, KERNBASE, PGSIZE in *. lia.
Qed.

Lemma page_disjoint p q x :
  p mod PGSIZE = 0 -> q mod PGSIZE = 0 -> p <> q ->
  p <= x < p + PGSIZE -> x < q \/ q + PGSIZE <= x.
Proof. unfold PGSIZE. intros. dlia. Qed.

Lemma chain_frame l : forall m m' h,
  (forall p x, p ∈ l -> p <= x < p + 8 -> m' x = m x) ->
  chain m h l -> chain m' h l.
Proof.
  induction l as [|p l IH]; intros m m' h Hf Hc; simpl in *; [done|].
  destruct Hc as [-> Hc]. split; [done|].
  rewrite (ld_ext 8 m' m) by (intros; apply (Hf p); [left|lia]).
  apply (IH m); [|done]. intros q x Hq. apply Hf. by right.
Qed.

Lemma chain_head_zero m l : Forall page_ok l -> chain m 0 l -> l = [].
Proof.
  destruct l as [|p l]; [done|]. intros HF [Hp _]. inversion HF; subst.
  match goal with H : page_ok 0 |- _ => apply page_ok_range in H end. lia.
Qed.

(** The other pages of the chain are untouched by writes inside page [p]. *)
Lemma chain_outside l m m' h p :
  p mod PGSIZE = 0 -> p ∉ l -> Forall page_ok l -> same_outside p m m' ->
  chain m h l -> chain m' h l.
Proof.
  intros Hp Hn HF Hs. apply chain_frame. intros q x Hq Hx.
  assert (page_ok q) as [Hqa _] by (by eapply Forall_forall in HF).
  apply Hs. apply (page_disjoint q p x); [done..| |unfold PGSIZE; lia].
  intros ->. done.
Qed.

Lemma chain_head_word m h l :
  Forall page_ok l -> chain m h l -> 0 <= h < 2 ^ 64.
Proof.
  destruct l as [|p l]; simpl; [intros _ ->; lia|].
  intros HF [-> _]. inversion HF; subst.
  match goal with H : page_ok _ |- _ => apply page_ok_range in H end.
  unfold PGSIZE in *. lia.
Qed.

Lemma kfree_ok k l pa :
  kmem_inv k l -> page_ok pa -> pa ∉ l ->
  exists k', kfree pa k = Ret tt k' /\ kmem_inv k' (pa :: l) /\
    same_outside pa (mem k) (mem k').
Proof.
  intros [Hc Hn HF] Hpa Hni. pose proof Hpa as [Ha Hr].
  eexists. split.
  { unfold kfree. rewrite Ha. destruct (Z.ltb_spec pa kend); [lia|].
    destruct (Z.leb_spec PHYSTOP pa); [lia|]. reflexivity. }
  assert (same_outside pa (mem k)
    (st64 (fill (mem k) pa 1 PGSIZE) pa (freelist k))) as Hs.
  { intros x Hx. unfold PGSIZE in *. rewrite st_other by lia. by apply fill_out. }
  split; [split; simpl|exact Hs].
  - split; [done|].
    match goal with |- chain ?m' ?h l => assert (h = freelist k) as -> end.
    { change (ld64 (st64 (fill (mem k) pa 1 PGSIZE) pa (freelist k)) pa = freelist k).
      rewrite ld_st_same. apply Z.mod_small. by apply (chain_head_word (mem k) _ l). }
    by apply (chain_outside l (mem k) _ _ pa).
  - by constructor.
  - by constructor.
Qed.

Lemma kalloc_empty k : kmem_inv k [] -> kalloc k = Ret 0 k.
Proof. intros [Hc _ _]. simpl in Hc. unfold kalloc, gets, bind. by rewrite Hc. Qed.

Lemma kalloc_cons k p l :
  kmem_inv k (p :: l) ->
  exists k', kalloc k = Ret p k' /\ kmem_inv k' l /\
    (forall x, p <= x < p + PGSIZE -> mem k' x = 5) /\
    same_outside p (mem k) (mem k').
Proof.
  intros [Hc Hn HF]. simpl in Hc. destruct Hc as [Hh Hc].
  apply Forall_cons in HF as [Hp HF'].
  apply NoDup_cons in Hn as [Hni Hn].
  assert (p <> 0) as Hp0 by (apply page_ok_range in Hp; lia).
  assert (same_outside p (mem k) (fill (mem k) p 5 PGSIZE)) as Hs.
  { intros x Hx. by apply fill_out. }
  exists (Kmem (fill (mem k) p 5 PGSIZE) (ld64 (mem k) p)).
  split; [|split; [split|split; [|exact Hs]]].
  - unfold kalloc, gets, bind. rewrite Hh.
    rewrite (proj2 (Z.eqb_neq _ _) Hp0). reflexivity.
  - simpl. apply (chain_outside l (mem k) _ _ p); try done. apply Hp.
  - done.
  - done.
  - intros x Hx. simpl. by rewrite fill_in.
Qed.

Lemma count_loop_ok l : forall m fuel h acc,
  Forall page_ok l -> chain m h l -> (length l < fuel)%nat ->
  0 <= acc -> acc + 4096 * Z.of_nat (length l) < 2 ^ 64 ->
  forall fl, loop fuel
    (fun '(r, free_bytes) =>
       if negb (r =? 0)
       then k <- get ;; ret (inl (ld64 (mem k) r, u64 (free_bytes + PGSIZE)))
       else ret (inr free_bytes))
    (h, acc) (Kmem m fl) = Ret (acc + 4096 * Z.of_nat (length l)) (Kmem m fl).
Proof.
  induction l as [|p l IH]; intros m fuel h acc HF Hc Hf Ha Hb fl;
    destruct fuel as [|fuel]; simpl in *; try lia.
  - subst h. unfold bind. simpl. unfold ret. do 2 f_equal. lia.
  - destruct Hc as [-> Hc]. inversion HF as [|? ? Hp HF' E1]; subst.
    assert (p <> 0) as Hp0 by (apply page_ok_range in Hp; lia).
    unfold bind at 1. rewrite (proj2 (Z.eqb_neq _ _) Hp0). simpl.
    unfold PGSIZE. rewrite wrap_small by lia.
    rewrite (IH m fuel (ld64 m p) (acc + 4096)) by (try done; lia).
    f_equal. lia.
Qed.

(** The pages freerange visits: p, p + PGSIZE, ... while they fit. *)
Fixpoint pages_from (n : nat) (p : Z) : list Z :=
  match n with
  | O => []
  | S n' => p :: pages_from n' (p + PGSIZE)
  end.

Lemma elem_of_pages_from n : forall p x,
  x ∈ pages_from n p <-> exists i, (i < n)%nat /\ x = p + PGSIZE * Z.of_nat i.
Proof.
  induction n as [|n IH]; intros p x; simpl.
  - rewrite elem_of_nil. split; [done|]. intros (i & Hi & _). lia.
  - rewrite elem_of_cons, IH. split.
    + intros [->|(i & Hi & ->)]; [exists 0%nat|exists (S i)]; unfold PGSIZE; lia.
    + intros (i & Hi & ->). destruct i as [|i]; [left; lia|].
      right. exists i. unfold PGSIZE. lia.
Qed.

Lemma NoDup_pages_from n : forall p, NoDup (pages_from n p).
Proof.
  induction n as [|n IH]; intros p; simpl; constructor; [|done].
  rewrite elem_of_pages_from. intros (i & _ & E). unfold PGSIZE in E. lia.
Qed.

(** The pages the allocator manages: every aligned page in [end, PHYSTOP). *)
Definition npages : nat := Z.to_nat ((PHYSTOP - PGROUNDUP kend) / PGSIZE).
Definition all_pages : list Z := pages_from npages (PGROUNDUP kend).

Lemma PGROUNDUP_kend :
  PGROUNDUP kend = (kend + 4095) / 4096 * 4096 /\ KERNBASE <= PGROUNDUP kend <= PHYSTOP /\
  kend <= PGROUNDUP kend.
Proof.
  pose proof kend_lo. pose proof kend_hi.
  unfold PHYSTOP, KERNBASE in *. rewrite PGROUNDUP_div by lia.
  repeat split; dlia.
Qed.

Lemma elem_of_all_pages p : p ∈ all_pages <-> page_ok p.
Proof.
  unfold all_pages. rewrite elem_of_pages_from.
  destruct PGROUNDUP_kend as (E & Hr & Hk). pose proof kend_lo. pose proof kend_hi.
  unfold page_ok, npages, PGSIZE in *. unfold PHYSTOP, KERNBASE in *. rewrite E in *.
  split.
  - intros (i & Hi & ->). dlia.
  - intros [Ha Hp]. exists (Z.to_nat ((p - (kend + 4095) / 4096 * 4096) / 4096)). dlia.
Qed.

Lemma freerange_loop n : forall k l p fuel,
  kmem_inv k l -> p mod PGSIZE = 0 -> kend <= p ->
  p + PGSIZE * Z.of_nat n <= PHYSTOP -> PHYSTOP < p + PGSIZE * (Z.of_nat n + 1) ->
  (forall q, q ∈ l -> q < p) -> (n < fuel)%nat ->
  exists k' l', loop fuel
    (fun p => if p + PGSIZE <=? PHYSTOP then kfree p ;;; ret (inl (p + PGSIZE))
              else ret (inr tt)) p k = Ret tt k' /\
    kmem_inv k' l' /\ l' ≡ₚ pages_from n p ++ l.
Proof.
  induction n as [|n IH]; intros k l p fuel Hi Ha Hk H1 H2 Hl Hf;
    destruct fuel as [|fuel]; try lia; simpl loop; unfold bind at 1.
  - destruct (Z.leb_spec (p + PGSIZE) PHYSTOP); [lia|]. by exists k, l.
  - destruct (Z.leb_spec (p + PGSIZE) PHYSTOP); [|unfold PGSIZE in *; lia].
    destruct (kfree_ok k l p Hi) as (k1 & E1 & Hi1 & _).
    { unfold page_ok, PGSIZE in *. lia. }
    { intros Hin. apply Hl in Hin. lia. }
    unfold bind. rewrite E1. simpl.
    destruct (IH k1 (p :: l) (p + PGSIZE) fuel Hi1) as (k' & l' & E2 & Hi2 & HP).
    { unfold PGSIZE in *. dlia. }
    { unfold PGSIZE. lia. }
    { lia. }
    { lia. }
    { intros q Hq. apply elem_of_cons in Hq as [->|Hq]; [unfold PGSIZE; lia|].
      apply Hl in Hq. unfold PGSIZE. lia. }
    { lia. }
    exists k', l'. split; [done|]. split; [done|]. rewrite HP. simpl.
    by rewrite Permutation_middle.
Qed.

Lemma kinit_ok m :
  exists k l, kinit (Kmem m 0) = Ret tt k /\ kmem_inv k l /\ l ≡ₚ all_pages.
Proof.
  destruct PGROUNDUP_kend as (E & Hr & Hk). pose proof kend_lo. pose proof kend_hi.
  unfold kinit, freerange.
  destruct (freerange_loop npages (Kmem m 0) [] (PGROUNDUP kend)
    (Z.to_nat ((PHYSTOP - kend) / PGSIZE + 2))) as (k & l & E1 & Hi & HP).
  - split; [done|constructor|constructor].
  - rewrite E. unfold PGSIZE. apply Z.mod_mul. lia.
  - done.
  - unfold npages, PGSIZE, PHYSTOP, KERNBASE in *. dlia.
  - unfold npages, PGSIZE, PHYSTOP, KERNBASE in *. dlia.
  - intros q Hq. by apply elem_of_nil in Hq.
  - unfold npages, PGSIZE, PHYSTOP, KERNBASE in *. dlia.
  - exists k, l. rewrite app_nil_r in HP. done.
Qed.

(** ** The allocator as a transition system

    The clients' view: [own] is the list of pages handed out and not yet
    given back; a client frees only pages it owns. *)
Inductive kstep : kmem * list Z -> kmem * list Z -> Prop :=
| kstep_alloc k k' own p :
    kalloc k = Ret p k' -> p <> 0 -> kstep (k, own) (k', p :: own)
| kstep_alloc_fail k k' own :
    kalloc k = Ret 0 k' -> kstep (k, own) (k', own)
| kstep_free k k' own own1 own2 p :
    own = own1 ++ p :: own2 -> kfree p k = Ret tt k' -> kstep (k, own) (k', own1 ++ own2)
| kstep_use k own p m' :
    p ∈ own -> same_outside p (mem k) m' -> kstep (k, own) (set_mem m' k, own).

Definition alloc_inv (c : kmem * list Z) : Prop :=
  exists l, kmem_inv c.1 l /\ c.2 ++ l ≡ₚ all_pages.

Lemma alloc_inv_step c c' : alloc_inv c -> kstep c c' -> alloc_inv c'.
Proof.
  intros (l & Hi & HP) Hs.
  assert (NoDup (c.2 ++ l)) as Hnd by (rewrite HP; apply NoDup_pages_from).
  assert (forall p, p ∈ c.2 ++ l -> page_ok p) as Hok.
  { intros p Hp. apply elem_of_all_pages. by rewrite <- HP. }
  destruct Hs as [k k' own p E Hp|k k' own E|k k' own own1 own2 p -> E|k own p m' Hin Hs];
    simpl in *.
  - destruct l as [|q l]; [rewrite (kalloc_empty k Hi) in E; congruence|].
    destruct (kalloc_cons k q l Hi) as (k1 & E1 & Hi1 & _). rewrite E in E1. simplify_eq.
    exists l. split; [done|]. simpl. rewrite <- HP. by rewrite Permutation_middle.
  - destruct l as [|q l].
    + rewrite (kalloc_empty k Hi) in E. simplify_eq. by exists [].
    + destruct (kalloc_cons k q l Hi) as (k1 & E1 & Hi1 & _). rewrite E in E1. simplify_eq.
      assert (page_ok 0) as H0 by (apply Hok; set_solver). apply page_ok_range in H0. lia.
  - assert (p ∉ l) as Hni.
    { apply NoDup_app in Hnd as (_ & Hd & _). apply Hd. set_solver. }
    destruct (kfree_ok k l p Hi ltac:(apply Hok; set_solver) Hni) as (k1 & E1 & Hi1 & _).
    rewrite E in E1. simplify_eq. exists (p :: l). split; [done|]. simpl.
    rewrite <- HP. rewrite <- !app_assoc. apply Permutation_app_head. simpl.
    by rewrite <- Permutation_middle.
  - exists l. split; [|done]. destruct Hi as [Hc Hn HF]. split; simpl; [|done..].
    apply (chain_outside l (mem k) _ _ p); try done.
    + apply Hok. set_solver.
    + apply NoDup_app in Hnd as (_ & Hd & _). by apply Hd.
Qed.

Lemma alloc_inv_reachable c c' : alloc_inv c -> rtc kstep c c' -> alloc_inv c'.
Proof. intros Hi Hr. induction Hr; eauto using alloc_inv_step. Qed.

(** C2. From boot, over any sequence of kalloc and kfree calls in which
    clients free only pages they own and write only into pages they own,
    the pages handed out and the pages on the free list together are always
    exactly the aligned pages of [end, PHYSTOP), each once: no page is ever
    handed out twice, none is lost, and freeing an owned page never panics. *)
Theorem allocator_partitions_memory m :
  exists k0, kinit (Kmem m 0) = Ret tt k0 /\
  forall k own, rtc kstep (k0, []) (k, own) ->
  exists l, kmem_inv k l /\ own ++ l ≡ₚ all_pages /\ NoDup (own ++ l) /\
    (forall p, p ∈ own -> exists k', kfree p k = Ret tt k' /\ kmem_inv k' (p :: l)) /\
    (l <> [] -> exists p k', kalloc k = Ret p k' /\ page_ok p /\ p ∉ own).
Proof.
  destruct (kinit_ok m) as (k0 & l0 & E & Hi & HP). exists k0. split; [done|].
  intros k own Hr.
  destruct (alloc_inv_reachable (k0, []) (k, own)) as (l & Hi' & HP'); [by exists l0|done|].
  simpl in *. exists l.
  assert (NoDup (own ++ l)) as Hnd by (rewrite HP'; apply NoDup_pages_from).
  repeat split; try apply Hi'; try done.
  - intros p Hp. destruct (kfree_ok k l p Hi') as (k' & E1 & Hi1 & _); [| |by exists k'].
    + apply elem_of_all_pages. rewrite <- HP'. set_solver.
    + apply NoDup_app in Hnd as (_ & Hd & _). by apply Hd.
  - intros Hne. destruct l as [|q l]; [done|].
    destruct (kalloc_cons k q l Hi') as (k' & E1 & _). exists q, k'. split; [done|]. split.
    + apply elem_of_all_pages. rewrite <- HP'. set_solver.
    + apply NoDup_app in Hnd as (_ & Hd & _). intros Hq. apply (Hd q Hq). set_solver.
Qed.

(** kalloc on an allocator whose free list is l: with no free page it
    returns 0 and changes nothing; otherwise it returns the head of the list,
    an aligned page of [end, PHYSTOP), unlinks it, fills it with 5s and leaves
    every other byte of memory alone. kfree of a misaligned or out-of-range
    address panics. *)
Theorem kalloc_kfree_behaviour k l pa :
  kmem_inv k l ->
  match l with
  | [] => kalloc k = Ret 0 k
  | p :: l' => exists k', kalloc k = Ret p k' /\ page_ok p /\ kmem_inv k' l' /\
      (forall x, p <= x < p + PGSIZE -> mem k' x = 5) /\ same_outside p (mem k) (mem k')
  end /\
  (~ page_ok pa -> kfree pa k = Panic "kfree").
Proof.
  intros Hi. split.
  - destruct l as [|p l]; [by apply kalloc_empty|].
    destruct (kalloc_cons k p l Hi) as (k' & E & Hi' & H5 & Hs). exists k'.
    repeat split; try done; try apply Hi'.
    all: destruct Hi as [_ _ HF]; apply Forall_cons in HF as [[Ha Hr] _]; lia || done.
  - intros Hn. unfold kfree, page_ok in *.
    destruct (Z.eqb_spec (pa mod PGSIZE) 0), (Z.ltb_spec pa kend), (Z.leb_spec PHYSTOP pa);
      simpl; try done. exfalso. apply Hn. lia.
Qed.

(** count_free_ram terminates on every reachable allocator state and
    returns PGSIZE times the number of pages not handed out: the RAM figure
    topfree prints is exact. *)
Theorem count_free_ram_exact m :
  exists k0, kinit (Kmem m 0) = Ret tt k0 /\
  forall k own, rtc kstep (k0, []) (k, own) ->
    count_free_ram (S npages) k =
      Ret (PGSIZE * (Z.of_nat npages - Z.of_nat (length own))) k.
Proof.
  destruct (kinit_ok m) as (k0 & l0 & E & Hi & HP). exists k0. split; [done|].
  intros k own Hr.
  destruct (alloc_inv_reachable (k0, []) (k, own)) as (l & [Hc Hn HF] & HP'); [by exists l0|done|].
  simpl in *. apply Permutation_length in HP' as HL. rewrite length_app in HL.
  assert (length all_pages = npages) as HA.
  { unfold all_pages. generalize (PGROUNDUP kend). induction npages; intros; simpl; auto. }
  destruct k as [mm fl]. simpl in *. unfold count_free_ram, gets, bind.
  destruct PGROUNDUP_kend as (E1 & Hr1 & Hk1).
  rewrite (count_loop_ok l mm); try done; try lia.
  - f_equal. unfold PGSIZE. lia.
  - unfold npages, PHYSTOP, KERNBASE, PGSIZE in *. dlia.
Qed.
End kalloc.

(** A small machine with three allocatable pages, for concrete runs. *)
#[local] Instance three_pages : KernelEnd.
Proof. refine {| kend := PHYSTOP - 3 * PGSIZE |}; vm_compute; congruence. Defined.

Lemma kalloc_kfree_behaviour_witness :
  let k := Kmem (fun _ => 0) (PHYSTOP - PGSIZE) in
  kmem_inv k [PHYSTOP - PGSIZE] /\ kfree 12 k = Panic "kfree".
Proof.
  intros k. assert (kmem_inv k [PHYSTOP - PGSIZE]) as Hi.
  { split; [by vm_compute|apply NoDup_singleton|].
    repeat constructor; vm_compute; congruence. }
  split; [exact Hi|].
  apply (kalloc_kfree_behaviour k _ 12 Hi). vm_compute. intros [? _]. discriminate.
Defined.
