(* ===== verification/UserMem.v ===== *)
(** * The interface between the kernel's copy routines and their clients

    pipe.c, console.c and fs.c move bytes between kernel buffers and the
    memory of the current process only through copyin and copyout (vm.c).
    [UserMem] is what they call, [UserMemLaws] is what they rely on; file Vm
    models the routines themselves over page tables. *)
From stdpp Require Import base list numbers strings.
From Stdlib Require Import ZArith Lia FunctionalExtensionality.
From S2P Require Import Prelude.

(** [copyin dst d srcva len u] is copyin(pagetable, dst + d, srcva, len): the
    boolean is true for the return value 0 and false for -1, in which case
    the destination may have been written in part. [uread u va] is the byte
    the process would load from [va]. *)
Class UserMem (U : Type) := {
  copyin : bytes -> Z -> Z -> Z -> U -> bool * bytes * U;
  copyout : Z -> bytes -> Z -> Z -> U -> bool * U;
  uread : U -> Z -> Z;
}.

Class UserMemLaws (U : Type) `{UserMem U} := {
  copyin_ok dst d va len u dst' u' :
    0 <= len -> copyin dst d va len u = (true, dst', u') ->
    (forall i, 0 <= i < len -> dst' (d + i) = uread u (va + i)) /\
    (forall x, uread u' x = uread u x);
  copyin_frame dst d va len u b dst' u' :
    0 <= len -> copyin dst d va len u = (b, dst', u') ->
    forall x, x < d \/ d + len <= x -> dst' x = dst x;
  copyin_byte dst d va len u b dst' u' :
    bytes_ok dst -> copyin dst d va len u = (b, dst', u') -> bytes_ok dst';
  copyout_ok va src s len u u' :
    bytes_ok src -> 0 <= len -> copyout va src s len u = (true, u') ->
    (forall i, 0 <= i < len -> uread u' (va + i) = src (s + i));
  copyout_frame va src s len u b u' :
    0 <= len -> copyout va src s len u = (b, u') ->
    forall x, x < va \/ va + len <= x -> uread u' x = uread u x;
}.

(** Flat memory with addresses below [flimit] accessible: the smallest
    instance of the interface, used to run the clients on concrete inputs. *)
Record flat := Flat { fbytes : bytes; flimit : Z }.

Definition flat_in (f : flat) (va len : Z) : bool := (0 <=? va) && (va + len <=? flimit f).

#[export] Instance flat_usermem : UserMem flat := {|
  copyin dst d va len f :=
    if flat_in f va len then (true, blit dst d (fun a => u8 (fbytes f a)) va len, f)
    else (false, dst, f);
  copyout va src s len f :=
    if flat_in f va len
    then (true, Flat (blit (fbytes f) va (fun a => u8 (src a)) s len) (flimit f))
    else (false, f);
  uread f a := u8 (fbytes f a);
|}.

#[export] Instance flat_usermem_laws : UserMemLaws flat.
Proof.
  split.
  - intros dst d va len u dst' u' Hl E. simpl in E.
    destruct (flat_in u va len); simplify_eq. split; [|done].
    intros i Hi. rewrite blit_in by lia. simpl. do 2 f_equal. lia.
  - intros dst d va len u b dst' u' Hl E x Hx. simpl in E.
    destruct (flat_in u va len); simplify_eq; [by apply blit_out|done].
  - intros dst d va len u b dst' u' Hd E. simpl in E.
    destruct (flat_in u va len); simplify_eq; [|done].
    apply blit_bytes_ok; [done|]. intros a. apply wrap_range. lia.
  - intros va src s len u u' Hsrc Hl E i Hi. simpl in E.
    destruct (flat_in u va len); simplify_eq. simpl. rewrite blit_in by lia.
    rewrite Z.add_simpl_l, (Z.add_comm i s). unwrap. by rewrite Zmod_mod, Z.mod_small by apply Hsrc.
  - intros va src s len u b u' Hl E x Hx. simpl in E.
    destruct (flat_in u va len); simplify_eq; [|done]. simpl. by rewrite blit_out.
Qed.

(** The user bytes at addr + i, addr + i + 1, ...: [k] of them. *)
Definition ubytes {U} `{UserMem U} (u : U) (addr i : Z) (k : nat) : list Z :=
  (fun j => uread u (u64 (addr + i + j))) <$> seqZ 0 (Z.of_nat k).

Section ubytes.
Context {U : Type} `{UserMem U}.

Lemma ubytes_S (u : U) addr i k :
  ubytes u addr i (S k) = uread u (u64 (addr + i)) :: ubytes u addr (i + 1) k.
Proof.
  unfold ubytes. rewrite Nat2Z.inj_succ, seqZ_cons by lia. cbn [fmap list_fmap].
  f_equal; [do 2 f_equal; lia|]. rewrite Z.pred_succ.
  apply list_eq. intros j. rewrite !list_lookup_fmap.
  destruct (decide (j < k)%nat).
  - rewrite !lookup_seqZ_lt by lia. simpl. do 3 f_equal. lia.
  - rewrite !lookup_seqZ_ge by lia. done.
Qed.

Lemma length_ubytes (u : U) addr i k : length (ubytes u addr i k) = k.
Proof. unfold ubytes. rewrite length_fmap, length_seqZ. lia. Qed.

Lemma ubytes_shift (u : U) addr i j k : ubytes u (addr + i) j k = ubytes u addr (i + j) k.
Proof. unfold ubytes. apply list_fmap_ext. intros. by rewrite !Z.add_assoc. Qed.

Lemma ubytes_app (u : U) addr i k l :
  ubytes u addr i (k + l) = ubytes u addr i k ++ ubytes u addr (i + Z.of_nat k) l.
Proof.
  revert i. induction k as [|k IH]; intros i; [simpl; by rewrite Z.add_0_r|].
  cbn [Nat.add]. rewrite !ubytes_S, IH. cbn [app]. do 3 f_equal. lia.
Qed.

Lemma ubytes_ext (u u' : U) addr i k :
  (forall x, uread u' x = uread u x) -> ubytes u' addr i k = ubytes u addr i k.
Proof. intros E. unfold ubytes. apply list_fmap_ext. intros. apply E. Qed.
End ubytes.
