(* ===== verification/Pipe.v ===== *)
(** * kernel/pipe.c: pipes

    [struct pipe] is a ring of PIPESIZE bytes with two free-running 32-bit
    counters. pipewrite and piperead hold pi->lock except while sleeping, so
    each run between two sleeps is one step of the model: [pipewrite_seg] and
    [piperead_seg] run from the head of the wait loop until the call returns
    or sleeps, and a sleeping call is resumed by running the segment again
    with the index it slept with. [killed(pr)] may change between any two
    tests, so it is an arbitrary oracle. wakeup calls are recorded. *)
From stdpp Require Import base list numbers strings relations.
From Stdlib Require Import ZArith Lia FunctionalExtensionality.
From S2P Require Import Prelude UserMem.

Definition PIPESIZE : Z := 512.

Record pipe := Pipe {
  data : bytes;
  nread : Z;
  nwrite : Z;
  readopen : Z;
  writeopen : Z;
}.

(** The wait channels &pi->nread and &pi->nwrite. *)
Inductive pchan := ChanNread | ChanNwrite.

(** A segment either returns from the call or sleeps with loop index [i]. *)
Inductive presult := PDone (r : Z) | PSleep (c : pchan) (i : Z).

#[export] Instance pchan_eq_dec : EqDecision pchan.
Proof. solve_decision. Defined.

(** The initialisation in pipealloc of a freshly allocated page [d]. *)
Definition pipe_init (d : bytes) : pipe := Pipe d 0 0 1 1.

(** pi->data[pi->nwrite++ % PIPESIZE] = ch *)
Definition pipe_put (ch : Z) (pi : pipe) : pipe :=
  Pipe (fupd (data pi) (nwrite pi mod PIPESIZE) (u8 ch)) (nread pi)
       (u32 (nwrite pi + 1)) (readopen pi) (writeopen pi).

(** pi->nread++ *)
Definition pipe_advance (pi : pipe) : pipe :=
  Pipe (data pi) (u32 (nread pi + 1)) (nwrite pi) (readopen pi) (writeopen pi).

Section pipe.
Context {U : Type} `{UserMem U}.

Record pstate := PState { pi : pipe; us : U; woken : list pchan }.

Definition pwakeup (c : pchan) (s : pstate) : pstate :=
  PState (pi s) (us s) (woken s ++ [c]).

(** pipeclose: the second component tells whether the page is kfree'd. *)
Definition pipeclose (writable : bool) (s : pstate) : pstate * bool :=
  let p := pi s in
  let s1 :=
    if writable
    then pwakeup ChanNread (PState (Pipe (data p) (nread p) (nwrite p) (readopen p) 0) (us s) (woken s))
    else pwakeup ChanNwrite (PState (Pipe (data p) (nread p) (nwrite p) 0 (writeopen p)) (us s) (woken s)) in
  (s1, (readopen (pi s1) =? 0) && (writeopen (pi s1) =? 0)).

(** pipewrite from the head of its loop with index [i], [rem] = n - i. *)
Fixpoint pipewrite_seg (killed : Z -> bool) (addr : Z) (rem : nat) (i : Z)
    (s : pstate) : presult * pstate :=
  match rem with
  | O => (PDone i, pwakeup ChanNread s)
  | S rem' =>
      if (readopen (pi s) =? 0) || killed i then (PDone (-1), s)
      else if nwrite (pi s) =? u32 (nread (pi s) + PIPESIZE)
      then (PSleep ChanNwrite i, pwakeup ChanNread s)
      else
        let '(ok, ch, u') := copyin (fun _ => 0) 0 (u64 (addr + i)) 1 (us s) in
        if ok
        then pipewrite_seg killed addr rem' (i + 1)
               (PState (pipe_put (ch 0) (pi s)) u' (woken s))
        else (PDone i, pwakeup ChanNread (PState (pi s) u' (woken s)))
  end.

Definition pipewrite (killed : Z -> bool) (addr n i : Z) (s : pstate) : presult * pstate :=
  pipewrite_seg killed addr (Z.to_nat (n - i)) i s.

(** The copy loop of piperead: for (i = 0; i < n; i++) ... *)
Fixpoint piperead_copy (addr : Z) (rem : nat) (i : Z) (s : pstate) : Z * pstate :=
  match rem with
  | O => (i, s)
  | S rem' =>
      if nread (pi s) =? nwrite (pi s) then (i, s)
      else
        let ch := data (pi s) (nread (pi s) mod PIPESIZE) in
        let '(ok, u') := copyout (u64 (addr + i)) (fun _ => ch) 0 1 (us s) in
        if ok then piperead_copy addr rem' (i + 1) (PState (pipe_advance (pi s)) u' (woken s))
        else ((if i =? 0 then -1 else i), PState (pi s) u' (woken s))
  end.

Definition piperead (killed : bool) (addr n : Z) (s : pstate) : presult * pstate :=
  if (nread (pi s) =? nwrite (pi s)) && negb (writeopen (pi s) =? 0)
  then if killed then (PDone (-1), s) else (PSleep ChanNread 0, s)
  else
    let '(i, s') := piperead_copy addr (Z.to_nat n) 0 s in
    (PDone i, pwakeup ChanNwrite s').
End pipe.
Arguments pstate : clear implicits.

(** ** The ring as a queue *)

Definition count (p : pipe) : Z := u32 (nwrite p - nread p).

(** The bytes written and not yet read, oldest first. *)
Definition queue (p : pipe) : list Z := ring PIPESIZE (data p) (nread p) (count p).

Record pipe_wf (p : pipe) : Prop := {
  wf_nread : 0 <= nread p < 2 ^ 32;
  wf_nwrite : 0 <= nwrite p < 2 ^ 32;
  wf_count : count p <= PIPESIZE;
  wf_data : bytes_ok (data p);
}.

Section ring.
Implicit Types p : pipe.

Lemma count_nonneg p : 0 <= count p.
Proof. apply wrap_range. lia. Qed.

Lemma length_queue p : pipe_wf p -> Z.of_nat (length (queue p)) = count p.
Proof. intros _. apply length_ring, count_nonneg. Qed.

Lemma pipe_init_wf d : bytes_ok d -> pipe_wf (pipe_init d).
Proof. intros Hd. split; [simpl; lia..|by vm_compute|exact Hd]. Qed.

Lemma put_wf p ch : pipe_wf p -> nwrite p <> u32 (nread p + PIPESIZE) ->
  pipe_wf (pipe_put ch p) /\ count (pipe_put ch p) = count p + 1.
Proof.
  intros [Hr Hw Hc Hd] Hf. unfold count, PIPESIZE in *. simpl.
  assert (u32 (u32 (nwrite p + 1) - nread p) = u32 (nwrite p - nread p) + 1) as E.
  { unwrap. dlia. }
  split; [|exact E]. split; unfold count, PIPESIZE; simpl; [done|apply wrap_range; lia| |].
  - rewrite E. unwrap. dlia.
  - apply fupd_bytes_ok; [done|]. by apply wrap_range.
Qed.

Lemma queue_put p ch : pipe_wf p -> nwrite p <> u32 (nread p + PIPESIZE) ->
  queue (pipe_put ch p) = queue p ++ [u8 ch].
Proof.
  intros Hwf Hf. destruct (put_wf p ch Hwf Hf) as [Hwf' Ec].
  unfold queue at 1. rewrite Ec. pose proof (count_nonneg p).
  destruct Hwf' as [_ _ Hc' _]. rewrite Ec in Hc'. destruct Hwf as [Hr Hw _ _].
  clear Ec. apply ring_snoc; unfold PIPESIZE in *; [lia|lia|].
  cbn [nread pipe_put]. unfold count in *. clear Hf. unwrap. dlia.
Qed.

Lemma queue_nil_iff p : pipe_wf p -> queue p = [] <-> nread p = nwrite p.
Proof.
  intros Hwf. pose proof (length_queue p Hwf) as HL. destruct Hwf as [Hr Hw Hc _].
  unfold count in *. split.
  - intros E. rewrite E in HL. simpl in HL. unwrap. dlia.
  - intros E. apply nil_length_inv. rewrite E in HL.
    replace (nwrite p - nwrite p) with 0 in HL by lia. unwrap. dlia.
Qed.

Lemma queue_advance p : pipe_wf p -> nread p <> nwrite p ->
  pipe_wf (pipe_advance p) /\
  queue p = data p (nread p mod PIPESIZE) :: queue (pipe_advance p).
Proof.
  intros [Hr Hw Hc Hd] Hne. unfold count, PIPESIZE in *.
  assert (u32 (nwrite p - u32 (nread p + 1)) = u32 (nwrite p - nread p) - 1) as E.
  { unwrap. dlia. }
  assert (1 <= u32 (nwrite p - nread p)) as H1 by (unwrap; dlia).
  split.
  - split; unfold count, PIPESIZE; simpl; [apply wrap_range; lia|done|lia|done].
  - unfold queue, count. cbn [data nread nwrite pipe_advance]. rewrite E.
    rewrite ring_cons by lia. f_equal. apply ring_shift; unfold PIPESIZE; [lia|]. unwrap. dlia.
Qed.
End ring.

Section fifo.
Context {U : Type} `{UL : UserMemLaws U}.
Implicit Types s : pstate U.

Lemma copyin1 (u u' : U) va ch :
  copyin (fun _ => 0) 0 va 1 u = (true, ch, u') ->
  u8 (ch 0) = uread u va /\ forall x, uread u' x = uread u x.
Proof.
  intros E. destruct (copyin_ok (fun _ => 0) 0 va 1 u ch u' ltac:(lia) E) as (H1 & H3).
  split; [|exact H3]. specialize (H1 0 ltac:(lia)). rewrite !Z.add_0_r in H1.
  rewrite <- H1. apply wrap_small.
  eapply copyin_byte; [|exact E]. intros a. lia.
Qed.

(** What one segment of pipewrite does, as a queue operation. *)
Definition write_post (i : Z) (r : presult) (k : nat) s' : Prop :=
  match r with
  | PDone r => r = -1 \/ (r = i + Z.of_nat k /\ last (woken s') = Some ChanNread)
  | PSleep c j => c = ChanNwrite /\ j = i + Z.of_nat k /\
      nwrite (pi s') = u32 (nread (pi s') + PIPESIZE) /\ last (woken s') = Some ChanNread
  end.

Lemma pipewrite_seg_queue killed addr rem : forall i s r s',
  pipe_wf (pi s) -> pipewrite_seg killed addr rem i s = (r, s') ->
  exists k, (k <= rem)%nat /\ pipe_wf (pi s') /\ nread (pi s') = nread (pi s) /\
    queue (pi s') = queue (pi s) ++ ubytes (us s) addr i k /\ write_post i r k s'.
Proof.
  induction rem as [|rem IH]; intros i s r s' Hwf E; simpl in E.
  { simplify_eq. exists 0%nat. simpl. rewrite app_nil_r. repeat split; try done; try apply Hwf.
    right. split; [lia|]. apply last_snoc. }
  destruct ((readopen (pi s) =? 0) || killed i).
  { simplify_eq. exists 0%nat. rewrite app_nil_r. repeat split; try done; try apply Hwf; try lia. by left. }
  destruct (Z.eqb_spec (nwrite (pi s)) (u32 (nread (pi s) + PIPESIZE))) as [Ef|Ef].
  { simplify_eq. exists 0%nat. rewrite app_nil_r. simpl. repeat split; try done; try apply Hwf; try lia.
    apply last_snoc. }
  destruct (copyin _ 0 _ 1 (us s)) as [[ok ch] u'] eqn:Ec. destruct ok.
  - destruct (copyin1 _ _ _ _ Ec) as [Hch Hu].
    destruct (put_wf (pi s) (ch 0) Hwf Ef) as [Hwf' _].
    destruct (IH _ (PState (pipe_put (ch 0) (pi s)) u' (woken s)) _ _ Hwf' E)
      as (k & Hk & Hw & Hr & Hq & Hp).
    exists (S k). split; [lia|]. split; [done|]. split; [done|]. split.
    + rewrite Hq. cbn [pi us]. rewrite queue_put by done. rewrite ubytes_S, Hch.
      rewrite (ubytes_ext (us s) u') by done. by rewrite <- app_assoc.
    + destruct r as [r|c j]; simpl in *.
      * destruct Hp as [->|[-> ?]]; [by left|right]. split; [lia|done].
      * destruct Hp as (-> & -> & ? & ?). repeat split; try done; lia.
  - simplify_eq. exists 0%nat. rewrite app_nil_r. simpl. repeat split; try done; try apply Hwf; try lia.
    right. split; [lia|]. apply last_snoc.
Qed.

Lemma piperead_copy_queue addr rem : forall i s r s',
  0 <= i -> i + Z.of_nat rem < 2 ^ 32 ->
  pipe_wf (pi s) -> piperead_copy addr rem i s = (r, s') ->
  exists k, (k <= rem)%nat /\ pipe_wf (pi s') /\
    queue (pi s) = ubytes (us s') addr i k ++ queue (pi s') /\
    (forall x, (forall j, 0 <= j < Z.of_nat rem -> x <> u64 (addr + i + j)) ->
       uread (us s') x = uread (us s) x) /\
    (r = i + Z.of_nat k \/ (r = -1 /\ i = 0 /\ k = 0%nat)) /\ woken s' = woken s.
Proof.
  induction rem as [|rem IH]; intros i s r s' Hi Hb Hwf E; simpl in E.
  { simplify_eq. exists 0%nat. repeat split; try done; try apply Hwf; left; lia. }
  destruct (Z.eqb_spec (nread (pi s)) (nwrite (pi s))) as [Ee|Ee].
  { simplify_eq. exists 0%nat. repeat split; try done; try apply Hwf; try lia; left; lia. }
  destruct (copyout _ _ 0 1 (us s)) as [ok u'] eqn:Ec.
  pose proof (copyout_frame _ _ _ 1 _ _ _ ltac:(lia) Ec) as Hfr.
  destruct ok.
  - pose proof (copyout_ok _ (fun _ => data (pi s) (nread (pi s) mod PIPESIZE)) _ 1 _ _
      ltac:(intros ?; apply Hwf) ltac:(lia) Ec) as Hw.
    specialize (Hw 0 ltac:(lia)). rewrite Z.add_0_r in Hw. simpl in Hw.
    destruct (queue_advance (pi s) Hwf Ee) as [Hwf' Hq].
    destruct (IH (i + 1) (PState (pipe_advance (pi s)) u' (woken s)) r s'
      ltac:(lia) ltac:(lia) Hwf' E) as (k & Hk & Hw' & Hq' & Hv & Hr & Hwk).
    exists (S k). split; [lia|]. split; [done|]. split; [|split; [|split; [|done]]].
    + rewrite Hq, ubytes_S. cbn [app pi us] in *. f_equal; [|exact Hq'].
      rewrite Hv.
      * cbn [us]. done.
      * intros j Hj. unwrap. dlia.
    + intros x Hx. rewrite Hv.
      * cbn [us]. apply Hfr. specialize (Hx 0 ltac:(lia)). rewrite Z.add_0_r in Hx. lia.
      * intros j Hj. specialize (Hx (1 + j) ltac:(lia)). intros ->. apply Hx. f_equal. lia.
    + left. lia.
  - simplify_eq. exists 0%nat. cbn [pi us woken]. repeat split; try done; try apply Hwf; try lia.
    + intros x Hx. apply Hfr. specialize (Hx 0 ltac:(lia)). rewrite Z.add_0_r in Hx. lia.
    + destruct (Z.eqb_spec i 0); [right|left]; lia.
Qed.

(** ** Interleavings

    Any number of processes run write and read segments in any order; [switch]
    replaces the user memory when another process runs. [W] and [R] are the
    bytes the writers handed over and the bytes the readers received. *)
Record pconf := PConf { cs : pstate U; W : list Z; R : list Z }.

Inductive pstep : pconf -> pconf -> Prop :=
| pstep_write s w r killed addr n i res s' :
    0 <= i -> n < 2 ^ 31 -> pipewrite killed addr n i s = (res, s') ->
    pstep (PConf s w r)
      (PConf s' (w ++ ubytes (us s) addr i (Z.to_nat (count (pi s') - count (pi s)))) r)
| pstep_read s w r killed addr n res s' :
    n < 2 ^ 31 -> piperead killed addr n s = (res, s') ->
    pstep (PConf s w r)
      (PConf s' w (r ++ ubytes (us s') addr 0 (Z.to_nat (count (pi s) - count (pi s')))))
| pstep_close s w r writable :
    pstep (PConf s w r) (PConf (fst (pipeclose writable s)) w r)
| pstep_switch s w r u :
    pstep (PConf s w r) (PConf (PState (pi s) u []) w r).

Definition fifo_inv (c : pconf) : Prop :=
  pipe_wf (pi (cs c)) /\ W c = R c ++ queue (pi (cs c)).

Lemma fifo_inv_step c c' : fifo_inv c -> pstep c c' -> fifo_inv c'.
Proof.
  intros [Hwf HW] Hs. destruct Hs as [s w r killed addr n i res s' Hi Hn E
    |s w r killed addr n res s' Hn E|s w r writable|s w r u]; unfold fifo_inv in *; simpl in *; subst w.
  - destruct (pipewrite_seg_queue _ _ _ _ _ _ _ Hwf E) as (k & Hk & Hwf' & _ & Hq & _).
    split; [done|]. rewrite Hq, app_assoc. do 2 f_equal.
    rewrite <- !length_queue by done. rewrite Hq, length_app, length_ubytes. lia.
  - unfold piperead in E. destruct (_ && _) eqn:Eb; [destruct killed; simplify_eq; split; try done|].
    1,2: rewrite Z.sub_diag; unfold ubytes; simpl; by rewrite app_nil_r.
    destruct (piperead_copy _ _ _ _) as [j s1] eqn:E1. simplify_eq. simpl.
    destruct (piperead_copy_queue addr (Z.to_nat n) 0 s j s1 ltac:(lia) ltac:(lia) Hwf E1)
      as (k & Hk & Hwf' & Hq & _).
    split; [done|]. rewrite Hq, app_assoc. do 2 f_equal.
    rewrite <- !length_queue by done. rewrite Hq, length_app, length_ubytes. f_equal. lia.
  - unfold pipeclose. destruct writable; simpl; (split; [by destruct Hwf|done]).
  - done.
Qed.

(** C8. Pipes are FIFO: from a fresh pipe, over every interleaving of write
    segments, read segments, closes and context switches between processes,
    the bytes the readers have received followed by the bytes still in the
    ring are exactly the bytes the writers handed over, in order; at most
    PIPESIZE bytes are buffered. The 32-bit counters may wrap any number of
    times. *)
Theorem pipe_fifo d u c :
  bytes_ok d -> rtc pstep (PConf (PState (pipe_init d) u []) [] []) c ->
  W c = R c ++ queue (pi (cs c)) /\ Z.of_nat (length (queue (pi (cs c)))) <= PIPESIZE.
Proof.
  intros Hd Hr.
  assert (fifo_inv (PConf (PState (pipe_init d) u []) [] [])) as H0.
  { split; [by apply pipe_init_wf|done]. }
  assert (fifo_inv c) as [Hwf HW] by (induction Hr; eauto using fifo_inv_step).
  split; [done|]. rewrite length_queue by done. apply Hwf.
Qed.

(** One run of pipewrite from index i to its return or its sleep: it
    appends to the queue the next k bytes of the caller's buffer, never more
    than fit; when it sleeps the ring is full, it has woken the readers and it
    resumes at i + k; when it returns normally the result is the number of
    bytes handed over and the readers have been woken; -1 means that the read
    end was closed or the caller was killed. *)
Theorem pipewrite_correct killed addr n i s r s' :
  pipe_wf (pi s) -> 0 <= i <= n -> pipewrite killed addr n i s = (r, s') ->
  exists k, (Z.of_nat k <= n - i) /\ pipe_wf (pi s') /\
    queue (pi s') = queue (pi s) ++ ubytes (us s) addr i k /\ write_post i r k s' /\
    (r = PDone (-1) -> readopen (pi s) = 0 \/ exists j, killed j = true).
Proof.
  intros Hwf Hi E. unfold pipewrite in E.
  destruct (pipewrite_seg_queue _ _ _ _ _ _ _ Hwf E) as (k & Hk & Hwf' & _ & Hq & Hp).
  exists k. split; [lia|]. split; [done|]. split; [done|]. split; [done|].
  intros ->. clear - E Hi.
  assert (forall rem i s, 0 <= i -> pipewrite_seg killed addr rem i s = (PDone (-1), s') ->
    readopen (pi s) = 0 \/ exists j, killed j = true) as G; [|by apply (G _ i s ltac:(lia) E)].
  clear. induction rem as [|rem IH]; intros i s Hi E; simpl in E; [by simplify_eq; lia|].
  destruct (Z.eqb_spec (readopen (pi s)) 0); [by left|].
  destruct (killed i) eqn:Ek; [right; eauto|]. simpl in E.
  destruct (nwrite (pi s) =? _); [done|].
  destruct (copyin _ _ _ _ _) as [[[] ch] u']; [|by simplify_eq; lia].
  destruct (IH (i + 1) _ ltac:(lia) E) as [H0|H0]; [by left|by right].
Qed.

(** One run of piperead: with no data and the write end open it sleeps
    (or returns -1 if killed) and changes nothing; otherwise it returns
    without sleeping: the k bytes it removes from the front of the queue are
    exactly the bytes then stored at addr in the caller's memory, nothing else
    of that memory changes, and the result is k (or -1 if the very first
    copyout failed); end of file is the result 0 on an empty closed pipe. *)
Theorem piperead_correct killed addr n s r s' :
  pipe_wf (pi s) -> 0 <= n < 2 ^ 31 -> piperead killed addr n s = (r, s') ->
  (queue (pi s) = [] /\ writeopen (pi s) <> 0 /\ s' = s /\
     r = if killed then PDone (-1) else PSleep ChanNread 0) \/
  (exists k, Z.of_nat k <= n /\ pipe_wf (pi s') /\
     queue (pi s) = ubytes (us s') addr 0 k ++ queue (pi s') /\
     (forall x, (forall j, 0 <= j < n -> x <> u64 (addr + j)) ->
        uread (us s') x = uread (us s) x) /\
     (r = PDone (Z.of_nat k) \/ (r = PDone (-1) /\ k = 0%nat)) /\
     last (woken s') = Some ChanNwrite).
Proof.
  intros Hwf Hn E. unfold piperead in E.
  destruct (Z.eqb_spec (nread (pi s)) (nwrite (pi s))) as [Ee|Ee];
    destruct (Z.eqb_spec (writeopen (pi s)) 0) as [Ew|Ew]; cbn [andb negb] in E.
  2: { left. apply queue_nil_iff in Ee; [|done]. destruct killed; simplify_eq; done. }
  all: right; destruct (piperead_copy _ _ _ _) as [j s1] eqn:E1; simplify_eq;
    destruct (piperead_copy_queue addr (Z.to_nat n) 0 s j s1 ltac:(lia) ltac:(lia) Hwf E1)
      as (k & Hk & Hwf' & Hq & Hv & Hj & Hwk);
    exists k; simpl; rewrite last_snoc; repeat split; try done; try apply Hwf'; try lia;
    [intros x Hx; apply Hv; rewrite Z.add_0_r; intros; apply Hx; lia
    |destruct Hj as [->|(-> & _ & ->)]; [left|right]; [f_equal; lia|done]].
Qed.
End fifo.

Lemma pipe_fifo_witness :
  exists c : pconf (U := flat), W c = R c ++ queue (pi (cs c)) /\ R c = [10; 11].
Proof.
  set (u := Flat (fun a => a) 100).
  set (s0 := PState (pipe_init (fun _ => 0)) u []).
  destruct (pipewrite (fun _ => false) 10 3 0 s0) as [r1 s1] eqn:E1.
  destruct (piperead false 40 2 s1) as [r2 s2] eqn:E2.
  eexists. split.
  - apply (pipe_fifo (fun _ => 0) u); [intros a; lia|].
    eapply rtc_l; [apply (pstep_write s0 [] [] (fun _ => false) 10 3 0 r1 s1); [lia|lia|exact E1]|].
    eapply rtc_l; [eapply (pstep_read s1 _ [] false 40 2 r2 s2); [lia|exact E2]|].
    apply rtc_refl.
  - vm_compute in E1. injection E1 as <- <-. vm_compute in E2. injection E2 as <- <-.
    vm_compute. reflexivity.
Defined.

Lemma pipewrite_correct_witness :
  let s := PState (pipe_init (fun _ => 0)) (Flat (fun a => a) 100) [] in
  pipe_wf (pi s) /\ exists k, Z.of_nat k <= 3 - 0 /\
    queue (pi (snd (pipewrite (fun _ => false) 10 3 0 s))) = [] ++ ubytes (us s) 10 0 k.
Proof.
  intros s. assert (pipe_wf (pi s)) as Hwf.
  { apply pipe_init_wf. intros a. lia. }
  split; [exact Hwf|].
  destruct (pipewrite (fun _ => false) 10 3 0 s) as [r s'] eqn:E.
  destruct (pipewrite_correct (fun _ => false) 10 3 0 s r s' Hwf ltac:(lia) E)
    as (k & Hk & _ & Hq & _).
  exists k. split; [exact Hk|exact Hq].
Defined.

Lemma piperead_correct_witness :
  let s := PState (pipe_init (fun _ => 0)) (Flat (fun a => a) 100) [] in
  piperead false 10 5 s = (PSleep ChanNread 0, s).
Proof.
  intros s. assert (pipe_wf (pi s)) as Hwf.
  { apply pipe_init_wf. intros a. lia. }
  destruct (piperead false 10 5 s) as [r s'] eqn:E.
  destruct (piperead_correct false 10 5 s r s' Hwf ltac:(lia) E) as [(_ & _ & -> & ->)|Hr].
  - reflexivity.
  - exfalso. vm_compute in E. injection E as <- <-.
    destruct Hr as (k & _ & _ & _ & _ & [Hr|[Hr _]] & _); discriminate.
Defined.
