(* ===== verification/Console.v ===== *)
(** * kernel/console.c: console input line discipline

    The input ring [cons] with its read, write and edit indices, the input
    interrupt handler, console reads and writes and the non-blocking
    consolegetc_nb that topfree uses. Functions run under cons.lock, so a run
    between sleeps is one step; output bytes, wakeups and the ^P process
    listing are recorded as events. The abstract view of the ring is a line
    editor: a queue of committed input and the line being edited. *)
From stdpp Require Import base list numbers strings.
From Stdlib Require Import ZArith Lia FunctionalExtensionality.
From S2P Require Import Prelude UserMem.

Definition BACKSPACE : Z := 0x100.
Definition INPUT_BUF_SIZE : Z := 128.
(** C(x) = x - '@' *)
Definition ctrl (x : Z) : Z := x - 64.
Definition ctrl_P : Z := ctrl 80.
Definition ctrl_U : Z := ctrl 85.
Definition ctrl_H : Z := ctrl 72.
Definition ctrl_D : Z := ctrl 68.

Record cons := Cons { buf : bytes; r : Z; w : Z; e : Z }.

Inductive cevent := EPutc (c : Z) | EProcdump | EWakeup.

Definition consputc (c : Z) : list cevent :=
  if c =? BACKSPACE then [EPutc 8; EPutc 32; EPutc 8] else [EPutc c].

(** while (cons.e != cons.w && cons.buf[(cons.e - 1) % INPUT_BUF_SIZE] != '\n')
    { cons.e--; consputc(BACKSPACE); }: at most e - w iterations. *)
Fixpoint kill_line (fuel : nat) (s : cons) : cons * list cevent :=
  match fuel with
  | O => (s, [])
  | S f =>
      if negb (e s =? w s) && negb (buf s (u32 (e s - 1) mod INPUT_BUF_SIZE) =? 10)
      then let '(s', out) := kill_line f (Cons (buf s) (r s) (w s) (u32 (e s - 1))) in
           (s', consputc BACKSPACE ++ out)
      else (s, [])
  end.

Definition consoleintr (c : Z) (s : cons) : cons * list cevent :=
  if c =? ctrl_P then (s, [EProcdump])
  else if c =? ctrl_U then kill_line (Z.to_nat (u32 (e s - w s))) s
  else if (c =? ctrl_H) || (c =? 0x7f) then
    if negb (e s =? w s)
    then (Cons (buf s) (r s) (w s) (u32 (e s - 1)), consputc BACKSPACE)
    else (s, [])
  else if negb (c =? 0) && (u32 (e s - r s) <? INPUT_BUF_SIZE) then
    let c := if c =? 13 then 10 else c in
    let out := consputc c in
    let s1 := Cons (fupd (buf s) (e s mod INPUT_BUF_SIZE) (u8 c)) (r s) (w s) (u32 (e s + 1)) in
    if (c =? 10) || (c =? ctrl_D) || (u32 (e s1 - r s1) =? INPUT_BUF_SIZE)
    then (Cons (buf s1) (r s1) (e s1) (e s1), out ++ [EWakeup])
    else (s1, out)
  else (s, []).

(** The non-blocking read: the comparison of w and r is on uint. *)
Definition consolegetc_nb (s : cons) : Z * cons :=
  if negb (r s =? e s) then
    let c := buf s (r s mod INPUT_BUF_SIZE) in
    let r' := u32 (r s + 1) in
    (c, Cons (buf s) r' (if w s <? r' then r' else w s) (e s))
  else (-1, s).

(** Runs of consoleread end in a return or in a sleep with locals dst, n. *)
Inductive cresult := CDone (res : Z) | CSleep (dst n : Z).

Section console.
Context {U : Type} `{UserMem U}.

(** consoleread from the head of its outer loop, [rem] = n, [dst] advanced. *)
Fixpoint consoleread_seg (killed : nat -> bool) (target : Z) (dst : Z) (rem : nat)
    (s : cons) (u : U) : cresult * cons * U :=
  match rem with
  | O => (CDone target, s, u)
  | S rem' =>
      let n := Z.of_nat rem in
      if r s =? w s then
        if killed rem then (CDone (-1), s, u) else (CSleep dst n, s, u)
      else
        let c := buf s (r s mod INPUT_BUF_SIZE) in
        let s1 := Cons (buf s) (u32 (r s + 1)) (w s) (e s) in
        if c =? ctrl_D then
          let s2 := if n <? target then Cons (buf s1) (u32 (r s1 - 1)) (w s1) (e s1) else s1 in
          (CDone (target - n), s2, u)
        else
          let '(ok, u') := copyout (u64 dst) (fun _ => c) 0 1 u in
          if ok
          then if c =? 10 then (CDone (target - (n - 1)), s1, u')
               else consoleread_seg killed target (dst + 1) rem' s1 u'
          else (CDone (target - n), s1, u')
  end.

(** consoleread(1, dst, n): target = n, and n <= 0 reads nothing. *)
Definition consoleread (killed : nat -> bool) (dst n : Z) (s : cons) (u : U)
    : cresult * cons * U :=
  if 0 <? n then consoleread_seg killed n dst (Z.to_nat n) s u else (CDone 0, s, u).

(** consolewrite copies batches of at most 32 bytes and passes them to the
    uart; [fuel] batches are tried. The result is i and the bytes sent. *)
Fixpoint consolewrite_loop (fuel : nat) (src n i : Z) (u : U) : Z * list Z * U :=
  match fuel with
  | O => (i, [], u)
  | S f =>
      if i <? n then
        let nn := Z.min 32 (n - i) in
        let '(ok, b, u') := copyin (fun _ => 0) 0 (u64 (src + i)) nn u in
        if ok then
          let '(i', out, u'') := consolewrite_loop f src n (i + nn) u' in
          (i', slice (Z.to_nat nn) b 0 ++ out, u'')
        else (i, [], u')
      else (i, [], u)
  end.
Definition consolewrite (src n : Z) (u : U) : Z * list Z * U :=
  consolewrite_loop (Z.to_nat n) src n 0 u.
End console.

(** ** The line editor behind the ring *)

Record line := Line { committed : list Z; editing : list Z }.

Definition line_full (l : line) : bool :=
  Z.of_nat (length (committed l) + length (editing l)) =? INPUT_BUF_SIZE.

Definition line_intr (c : Z) (l : line) : line :=
  if c =? ctrl_P then l
  else if c =? ctrl_U then Line (committed l) []
  else if (c =? ctrl_H) || (c =? 0x7f) then Line (committed l) (removelast (editing l))
  else if negb (c =? 0) && negb (line_full l) then
    let c := if c =? 13 then 10 else c in
    let l1 := Line (committed l) (editing l ++ [c]) in
    if (c =? 10) || (c =? ctrl_D) || line_full l1
    then Line (committed l1 ++ editing l1) []
    else l1
  else l.

Definition abs (s : cons) : line :=
  Line (ring INPUT_BUF_SIZE (buf s) (r s) (u32 (w s - r s)))
       (ring INPUT_BUF_SIZE (buf s) (w s) (u32 (e s - w s))).

(** Number of uncommitted, committed and free positions add up; the line
    being edited holds no newline. *)
Record cons_wf (s : cons) : Prop := {
  cwf_r : 0 <= r s < 2 ^ 32;
  cwf_w : 0 <= w s < 2 ^ 32;
  cwf_e : 0 <= e s < 2 ^ 32;
  cwf_order : u32 (e s - r s) = u32 (w s - r s) + u32 (e s - w s);
  cwf_bound : u32 (e s - r s) <= INPUT_BUF_SIZE;
  cwf_edit : Forall (fun c => c <> 10) (editing (abs s));
}.

Section line_discipline.
Implicit Types s : cons.

Lemma u32_nonneg z : 0 <= u32 z < 4294967296.
Proof. apply (wrap_range 32). lia. Qed.

Lemma editing_snoc s : 0 < u32 (e s - w s) -> 0 <= e s < 2 ^ 32 ->
  editing (abs s) = ring INPUT_BUF_SIZE (buf s) (w s) (u32 (e s - w s) - 1) ++
                    [buf s (u32 (e s - 1) mod INPUT_BUF_SIZE)].
Proof.
  intros Hp He. simpl.
  replace (u32 (e s - w s)) with ((u32 (e s - w s) - 1) + 1) at 1 by lia.
  rewrite ring_app, ring_one by lia. do 3 f_equal.
  unfold INPUT_BUF_SIZE. unwrap. dlia.
Qed.

Lemma backspace_index s : e s <> w s -> 0 <= e s < 2 ^ 32 -> 0 <= w s < 2 ^ 32 ->
  0 < u32 (e s - w s) /\ u32 (u32 (e s - 1) - w s) = u32 (e s - w s) - 1.
Proof. intros. unwrap. dlia. Qed.

(** Removing the last edited character keeps the invariant. *)
Lemma backspace_wf s : cons_wf s -> e s <> w s ->
  let s' := Cons (buf s) (r s) (w s) (u32 (e s - 1)) in
  cons_wf s' /\ abs s' = Line (committed (abs s)) (removelast (editing (abs s))).
Proof.
  intros [Hr Hw He Ho Hb Hed] Hne s'.
  destruct (backspace_index s Hne He Hw) as [Hp Ei].
  assert (editing (abs s') = removelast (editing (abs s))) as Eed.
  { rewrite (editing_snoc s Hp He), removelast_last. simpl. by rewrite Ei. }
  split; [split; simpl|].
  - done.
  - done.
  - apply u32_nonneg.
  - unwrap. dlia.
  - unfold INPUT_BUF_SIZE in *. unwrap. dlia.
  - change (Forall (fun c => c <> 10) (editing (abs s'))). rewrite Eed.
    rewrite (editing_snoc s Hp He) in Hed |- *. rewrite removelast_last.
    by apply Forall_app in Hed as [? _].
  - rewrite <- Eed. reflexivity.
Qed.

Lemma kill_line_spec n : forall s, cons_wf s -> n = Z.to_nat (u32 (e s - w s)) ->
  let '(s', out) := kill_line n s in
  cons_wf s' /\ abs s' = Line (committed (abs s)) [] /\
  out = concat (replicate n (consputc BACKSPACE)).
Proof.
  induction n as [|n IH]; intros s Hwf Hn; simpl.
  - split; [done|]. split; [|done]. unfold abs. simpl. f_equal.
    apply ring_nil. pose proof (u32_nonneg (e s - w s)). lia.
  - assert (e s <> w s) as Hne.
    { intros E. rewrite E, Z.sub_diag in Hn. vm_compute in Hn. lia. }
    destruct Hwf as [Hr Hw He Ho Hb Hed] eqn:Ewf. clear Ewf.
    destruct (backspace_index s Hne He Hw) as [Hp Ei].
    rewrite (proj2 (Z.eqb_neq _ _) Hne).
    assert (buf s (u32 (e s - 1) mod INPUT_BUF_SIZE) <> 10) as Hnl.
    { rewrite (editing_snoc s Hp He) in Hed. apply Forall_app in Hed as [_ Hl].
      by inversion Hl. }
    rewrite (proj2 (Z.eqb_neq _ _) Hnl). simpl.
    destruct (backspace_wf s Hwf Hne) as [Hwf' Habs].
    specialize (IH _ Hwf'). simpl in IH. rewrite Ei in IH. specialize (IH ltac:(lia)).
    destruct (kill_line n _) as [s' out]. destruct IH as (H1 & H2 & ->).
    split; [done|]. split; [|done]. rewrite H2. f_equal.
Qed.

(** The index arithmetic of storing one character at e. *)
Lemma store_index s : cons_wf s -> u32 (e s - r s) < INPUT_BUF_SIZE ->
  u32 (u32 (e s + 1) - w s) = u32 (e s - w s) + 1 /\
  u32 (u32 (e s + 1) - r s) = u32 (e s - r s) + 1.
Proof.
  intros [Hr Hw He Ho Hb _] Hlt. unfold INPUT_BUF_SIZE in *.
  pose proof (u32_nonneg (w s - r s)). pose proof (u32_nonneg (e s - w s)).
  assert (u32 (e s - w s) < 128) by lia. clear Hb Ho. unwrap. split; dlia.
Qed.

Lemma store_rings s v : cons_wf s -> u32 (e s - r s) < INPUT_BUF_SIZE ->
  let b := fupd (buf s) (e s mod INPUT_BUF_SIZE) v in
  ring INPUT_BUF_SIZE b (r s) (u32 (w s - r s)) = committed (abs s) /\
  ring INPUT_BUF_SIZE b (w s) (u32 (e s - w s) + 1) = editing (abs s) ++ [v] /\
  ring INPUT_BUF_SIZE b (r s) (u32 (e s - r s) + 1) =
    committed (abs s) ++ editing (abs s) ++ [v].
Proof.
  intros Hwf Hlt b. destruct (store_index s Hwf Hlt) as [E1 E2].
  destruct Hwf as [Hr Hw He Ho Hb _]. unfold INPUT_BUF_SIZE in *.
  pose proof (u32_nonneg (w s - r s)). pose proof (u32_nonneg (e s - w s)).
  assert (ring 128 b (w s) (u32 (e s - w s) + 1) = editing (abs s) ++ [v]) as H2.
  { apply ring_snoc; [lia|lia|]. clear Ho Hb E1 E2. unwrap. dlia. }
  assert (ring 128 b (r s) (u32 (w s - r s)) = committed (abs s)) as H1.
  { simpl. apply ring_ext. intros j Hj. apply fupd_ne.
    assert (e s mod 128 = (r s + u32 (e s - r s)) mod 128) as -> by (clear; unwrap; dlia).
    assert (0 <= j < u32 (e s - r s)) by lia. revert Hlt.
    generalize dependent (u32 (e s - r s)). clear. unfold INPUT_BUF_SIZE. intros z _ _ _ ? ?. dlia. }
  split; [done|]. split; [done|].
  rewrite Ho, <- Z.add_assoc, ring_app, H1, <- H2 by lia. f_equal.
  apply ring_shift; [lia|]. clear. unwrap. dlia.
Qed.

Lemma line_full_spec s : cons_wf s -> line_full (abs s) = (u32 (e s - r s) =? INPUT_BUF_SIZE).
Proof.
  intros [Hr Hw He Ho Hb _]. unfold line_full. simpl.
  pose proof (u32_nonneg (w s - r s)). pose proof (u32_nonneg (e s - w s)).
  rewrite Nat2Z.inj_add, !length_ring by lia. by rewrite Ho.
Qed.
End line_discipline.

(** What a read of at most [n] bytes takes from the committed input: up to a
    newline; ^D ends the read and is consumed only as its first byte. *)
Fixpoint line_read (first : bool) (n : nat) (l : list Z) : list Z * list Z * bool :=
  match n with
  | O => ([], l, false)
  | S n' =>
      match l with
      | [] => ([], [], true)
      | c :: l' =>
          if c =? ctrl_D then ([], if first then l' else l, false)
          else if c =? 10 then ([c], l', false)
          else let '(d, rest, blocked) := line_read false n' l' in (c :: d, rest, blocked)
      end
  end.

Lemma advance_wf s : cons_wf s -> r s <> w s ->
  let s1 := Cons (buf s) (u32 (r s + 1)) (w s) (e s) in
  cons_wf s1 /\ editing (abs s1) = editing (abs s) /\
  committed (abs s) = buf s (r s mod INPUT_BUF_SIZE) :: committed (abs s1).
Proof.
  intros [Hr Hw He Ho Hb Hed] Hne s1. unfold INPUT_BUF_SIZE in *.
  assert (0 < u32 (w s - r s)) as Hp by (clear - Hr Hw Hne; unwrap; dlia).
  assert (u32 (w s - u32 (r s + 1)) = u32 (w s - r s) - 1) as E1
    by (clear - Hp; unwrap; dlia).
  pose proof (u32_nonneg (e s - w s)).
  assert (u32 (e s - u32 (r s + 1)) = u32 (e s - r s) - 1) as E2.
  { assert (0 < u32 (e s - r s)) as Hp2 by lia. clear - Hp2. unwrap; dlia. }
  split; [split; simpl; try done; unfold INPUT_BUF_SIZE; try lia|].
  - apply u32_nonneg.
  - split; [done|]. simpl. rewrite E1, (ring_cons _ _ _ (u32 (w s - r s))) by lia.
    f_equal. apply ring_shift; unfold INPUT_BUF_SIZE; [lia|]. clear. unwrap. dlia.
Qed.

(** The default branch of the handler: store [c] at e, commit or not. *)
Definition store_char (c : Z) (s : cons) : cons * bool :=
  let s1 := Cons (fupd (buf s) (e s mod INPUT_BUF_SIZE) c) (r s) (w s) (u32 (e s + 1)) in
  if (c =? 10) || (c =? ctrl_D) || (u32 (e s1 - r s1) =? INPUT_BUF_SIZE)
  then (Cons (buf s1) (r s1) (e s1) (e s1), true) else (s1, false).

Lemma store_char_full c s : cons_wf s ->
  line_full (Line (committed (abs s)) (editing (abs s) ++ [c])) =
    (u32 (e s - r s) + 1 =? INPUT_BUF_SIZE).
Proof.
  intros Hwf. unfold line_full. cbn [committed editing abs].
  pose proof (u32_nonneg (w s - r s)). pose proof (u32_nonneg (e s - w s)).
  rewrite length_app, !Nat2Z.inj_add, !length_ring by lia.
  rewrite (cwf_order s Hwf). simpl. f_equal. lia.
Qed.

Lemma store_char_spec c s :
  cons_wf s -> u32 (e s - r s) < INPUT_BUF_SIZE ->
  let '(s', commit) := store_char c s in
  let l1 := Line (committed (abs s)) (editing (abs s) ++ [c]) in
  cons_wf s' /\ commit = (c =? 10) || (c =? ctrl_D) || line_full l1 /\
  abs s' = if commit then Line (committed l1 ++ editing l1) [] else l1.
Proof.
  intros Hwf Hlt. unfold store_char. cbn [buf r w e committed editing].
  destruct (store_rings s c Hwf Hlt) as (R1 & R2 & R3).
  destruct (store_index s Hwf Hlt) as [E1 E2].
  rewrite E2, (store_char_full c s Hwf).
  pose proof (u32_nonneg (w s - r s)). pose proof (u32_nonneg (e s - w s)).
  destruct Hwf as [Hr Hw He Ho Hb Hed].
  destruct ((c =? 10) || (c =? ctrl_D) || (u32 (e s - r s) + 1 =? INPUT_BUF_SIZE)) eqn:Ecm.
  - match goal with |- cons_wf ?s' /\ _ => assert (abs s' =
      Line (committed (abs s) ++ editing (abs s) ++ [c]) []) as Ea end.
    { unfold abs at 1. cbn [buf r w e]. rewrite E2, R3, Z.sub_diag, ring_nil; [done|by vm_compute]. }
    split; [|by rewrite Ea]. split; cbn [r w e buf]; try apply u32_nonneg; try done.
    + rewrite Z.sub_diag. change (u32 0) with 0. lia.
    + unfold INPUT_BUF_SIZE in *. lia.
    + rewrite Ea. constructor.
  - match goal with |- cons_wf ?s' /\ _ => assert (abs s' =
      Line (committed (abs s)) (editing (abs s) ++ [c])) as Ea end.
    { unfold abs at 1. cbn [buf r w e]. by rewrite R1, E1, R2. }
    split; [|by rewrite Ea].
    split; cbn [r w e buf]; try apply u32_nonneg; try done; unfold INPUT_BUF_SIZE in *; try lia.
    rewrite Ea. apply Forall_app. split; [done|]. repeat constructor.
    apply orb_false_iff in Ecm as [Ecm _]. apply orb_false_iff in Ecm as [Ecm _].
    by apply Z.eqb_neq.
Qed.

Lemma consputc_nowake c : EWakeup ∉ consputc c.
Proof.
  unfold consputc. intros H. destruct (c =? BACKSPACE);
    repeat (apply elem_of_cons in H as [H|H]; [discriminate|]); by apply elem_of_nil in H.
Qed.

Lemma replicate_nowake n c : EWakeup ∉ concat (replicate n (consputc c)).
Proof.
  induction n as [|n IH]; simpl; [apply not_elem_of_nil|].
  rewrite elem_of_app. intros [H|H]; [by apply consputc_nowake in H|done].
Qed.

(** C27. The console input interrupt handler implements the line editor: each
    character acts on the committed input and the line being edited as
    [line_intr] says (^U erases the line, ^H and DEL the last character, a
    newline, ^D or a full buffer commits the line, a carriage return becomes
    a newline, input to a full buffer is dropped), the ring invariant is
    kept, and a sleeping reader is woken exactly when input is committed. *)
Theorem consoleintr_correct c s :
  cons_wf s -> 0 <= c < 256 ->
  let '(s', out) := consoleintr c s in
  cons_wf s' /\ abs s' = line_intr c (abs s) /\
  (EWakeup ∈ out <-> committed (abs s') <> committed (abs s)).
Proof.
  intros Hwf Hc. unfold consoleintr, line_intr.
  pose proof (not_elem_of_nil EWakeup) as Hnil.
  destruct (c =? ctrl_P).
  { split; [done|]. split; [done|]. split; [|done]. intros H.
    apply elem_of_cons in H as [H|H]; done. }
  destruct (c =? ctrl_U).
  { pose proof (kill_line_spec _ s Hwf eq_refl) as Hk.
    destruct (kill_line _ s) as [s' out]. destruct Hk as (H1 & H2 & ->).
    split; [done|]. split; [done|]. rewrite H2. split; [|done]. by intros H%replicate_nowake. }
  destruct ((c =? ctrl_H) || (c =? 127)).
  { destruct (Z.eqb_spec (e s) (w s)) as [Ee|Ee]; cbn [negb].
    - split; [done|]. split; [|done]. unfold abs. cbn [committed editing]. f_equal.
      rewrite Ee, Z.sub_diag, ring_nil; [done|by vm_compute].
    - destruct (backspace_wf s Hwf Ee) as [H1 H2]. split; [done|]. split; [done|].
      split; [by intros H%consputc_nowake|done]. }
  rewrite (line_full_spec s Hwf).
  pose proof (cwf_bound s Hwf) as Hbound.
  assert (negb (u32 (e s - r s) =? INPUT_BUF_SIZE) = (u32 (e s - r s) <? INPUT_BUF_SIZE)) as ->.
  { zbool; cbn [negb]; lia || done. }
  destruct (negb (c =? 0) && (u32 (e s - r s) <? INPUT_BUF_SIZE)) eqn:Econd; [|done].
  apply andb_true_iff in Econd as [_ Hlt%Z.ltb_lt].
  set (c' := if c =? 13 then 10 else c).
  assert (u8 c' = c') as -> by (apply wrap_small; unfold c'; destruct (c =? 13); lia).
  pose proof (store_char_spec c' s Hwf Hlt) as Hs. unfold store_char in Hs.
  cbn [committed editing] in Hs |- *.
  destruct (_ || _ || (u32 (e _ - r _) =? INPUT_BUF_SIZE)); destruct Hs as (H1 & <- & H2);
    (split; [done|]; split; [done|]; rewrite H2; cbn [committed]).
  - split; [|intros _; rewrite elem_of_app; right; by apply list_elem_of_singleton].
    intros _ E. apply (f_equal (@length Z)) in E. rewrite !length_app in E. simpl in E. lia.
  - split; [by intros H%consputc_nowake|done].
Qed.

Lemma cons_init_wf b : cons_wf (Cons b 0 0 0).
Proof.
  split; simpl; try lia; try (vm_compute; congruence).
  rewrite ring_nil; [constructor|by vm_compute].
Qed.

Lemma consoleintr_correct_witness :
  abs (fst (consoleintr 13 (Cons (fun _ => 0) 0 0 0))) = Line [10] [].
Proof.
  pose proof (consoleintr_correct 13 (Cons (fun _ => 0) 0 0 0) (cons_init_wf _) ltac:(lia)) as H.
  destruct (consoleintr 13 _) as [s' out]. destruct H as (_ & H & _). exact H.
Defined.

Section console_io.
Context {U : Type} `{UL : UserMemLaws U}.

(** What a run of consoleread delivers: [k] bytes of what the line editor
    gives out reach the caller; all of them, or a copyout failed on the byte
    at position [k], which is then consumed and lost. *)
Definition read_post (killed : nat -> bool) (target dst : Z) (rem : nat) (s s' : cons)
    (u' : U) (res : cresult) (k : nat) : Prop :=
  let '(d, rest, blocked) :=
    line_read (negb (Z.of_nat rem <? target)) rem (committed (abs s)) in
  ubytes u' dst 0 k = take k d /\ (k <= length d)%nat /\
  ((k = length d /\ committed (abs s') = rest /\
    res = if blocked
          then if killed (rem - k)%nat then CDone (-1)
               else CSleep (dst + Z.of_nat k) (Z.of_nat (rem - k))
          else CDone (target - Z.of_nat rem + Z.of_nat k)) \/
   ((k < length d)%nat /\ committed (abs s') = drop (S k) (committed (abs s)) /\
    res = CDone (target - Z.of_nat rem + Z.of_nat k))).

Lemma copyout1 (u u' : U) va c ok : 0 <= c < 256 ->
  copyout va (fun _ => c) 0 1 u = (ok, u') ->
  (ok = true -> uread u' va = c) /\ forall x, x <> va -> uread u' x = uread u x.
Proof.
  intros Hc E. split.
  - intros ->. pose proof (copyout_ok va (fun _ => c) 0 1 u u' ltac:(intros ?; exact Hc)
      ltac:(lia) E 0 ltac:(lia)) as H'. by rewrite Z.add_0_r in H'.
  - intros x Hx. eapply (copyout_frame _ _ _ 1); [lia|exact E|lia].
Qed.

Lemma consoleread_seg_spec killed target rem : forall dst s (u : U) res s' u',
  cons_wf s -> bytes_ok (buf s) -> Z.of_nat rem <= target < 2 ^ 31 ->
  consoleread_seg killed target dst rem s u = (res, s', u') ->
  cons_wf s' /\ editing (abs s') = editing (abs s) /\
  (forall x, (forall j, 0 <= j < Z.of_nat rem -> x <> u64 (dst + j)) -> uread u' x = uread u x) /\
  exists k, read_post killed target dst rem s s' u' res k.
Proof.
  induction rem as [|rem IH]; intros dst s u res s' u' Hwf Hb Ht E; cbn [consoleread_seg] in E.
  { simplify_eq. repeat split; try apply Hwf. exists 0%nat. simpl. repeat split; try lia.
    left. repeat split; f_equal; lia. }
  destruct (Z.eqb_spec (r s) (w s)) as [Ee|Ee].
  { assert (committed (abs s) = []) as Ec.
    { simpl. rewrite Ee, Z.sub_diag. by apply ring_nil. }
    assert (s' = s /\ u' = u /\ res = if killed (S rem) then CDone (-1) else CSleep dst (Z.of_nat (S rem)))
      as (-> & -> & ->) by (destruct (killed (S rem)); simplify_eq; done).
    repeat split; try apply Hwf. exists 0%nat. unfold read_post. rewrite Ec.
    cbn [line_read]. repeat split; [simpl; lia|]. left. repeat split.
    rewrite Nat.sub_0_r, Z.add_0_r. done. }
  destruct (advance_wf s Hwf Ee) as (Hwf1 & Hed & Hcm).
  set (c := buf s (r s mod INPUT_BUF_SIZE)) in *.
  set (s1 := Cons (buf s) (u32 (r s + 1)) (w s) (e s)) in *.
  destruct (c =? ctrl_D) eqn:Ecd.
  { assert (res = CDone (target - Z.of_nat (S rem)) /\ u' = u /\
      s' = if Z.of_nat (S rem) <? target then s else s1) as (-> & -> & ->).
    { destruct (Z.of_nat (S rem) <? target); simplify_eq; repeat split.
      destruct s as [b0 r0 w0 e0]. unfold s1. cbn [buf Console.r w e] in *. f_equal.
      pose proof (cwf_r _ Hwf) as Hr. cbn [Console.r] in Hr. clear - Hr. dlia. }
    split; [by destruct (_ <? _)|]. split; [by destruct (_ <? _)|]. split; [done|].
    exists 0%nat. unfold read_post. rewrite Hcm. cbn [line_read]. rewrite Ecd.
    repeat split; [simpl; lia|]. left. repeat split; [|f_equal; lia].
    destruct (_ <? _); [exact Hcm|done]. }
  destruct (copyout (u64 dst) (fun _ => c) 0 1 u) as [ok u1] eqn:Eo.
  destruct (copyout1 _ _ _ c _ (Hb _) Eo) as [Hok Hfr].
  assert (forall x, (forall j, 0 <= j < Z.of_nat (S rem) -> x <> u64 (dst + j)) ->
    uread u1 x = uread u x) as Hfr1.
  { intros x Hx. apply Hfr. specialize (Hx 0 ltac:(lia)). by rewrite Z.add_0_r in Hx. }
  destruct ok.
  - specialize (Hok eq_refl). destruct (c =? 10) eqn:Enl.
    + simplify_eq. split; [done|]. split; [done|]. split; [done|].
      exists 1%nat. unfold read_post. rewrite Hcm. cbn [line_read]. rewrite Ecd, Enl.
      split; [|split; [simpl; lia|left; repeat split; f_equal; lia]].
      rewrite ubytes_S, !Z.add_0_r. simpl. by rewrite Hok.
    + destruct (IH _ _ _ _ _ _ Hwf1 Hb ltac:(lia) E) as (H1 & H2 & H3 & k & Hk).
      split; [done|]. split; [by rewrite H2|]. split.
      { intros x Hx. rewrite H3; [by apply Hfr1|]. intros j Hj.
        rewrite <- Z.add_assoc. apply Hx. lia. }
      exists (S k). unfold read_post in *. rewrite Hcm. cbn [line_read]. rewrite Ecd, Enl.
      replace (negb (Z.of_nat rem <? target)) with false in Hk by (zbool; done || lia).
      destruct (line_read false rem _) as [[d rest] blocked].
      destruct Hk as (Hk1 & Hk2 & Hk3). split; [|split; [simpl; lia|]].
      * rewrite ubytes_shift, Z.add_0_r in Hk1. rewrite ubytes_S. cbn [take]. rewrite Z.add_0_l, Z.add_0_r, Hk1. f_equal.
        rewrite H3; [done|]. intros j Hj. clear - Hj Ht. unwrap. dlia.
      * destruct Hk3 as [(-> & -> & ->)|(H4 & -> & ->)]; [left|right; simpl].
        -- repeat split. simpl (S rem - length (c :: d))%nat. destruct blocked.
           ++ destruct (killed _); [done|]. f_equal; simpl; lia.
           ++ f_equal. simpl. lia.
        -- repeat split; [lia|]. f_equal. lia.
  - simplify_eq. split; [done|]. split; [done|]. split; [done|].
    exists 0%nat. unfold read_post. rewrite Hcm. cbn [line_read]. rewrite Ecd.
    destruct (c =? 10); [|destruct (line_read false rem _) as [[d rest] blocked]].
    all: repeat split; simpl; try lia; right; repeat split; simpl; try lia.
    all: rewrite ?drop_0; try done; f_equal; lia.
Qed.

(** C28. Console reads follow the line editor. A read of n bytes takes from
    the committed input what [line_read] says (at most n bytes, up to and
    including the first newline, ending before a ^D that is consumed only
    when the read has returned nothing), stores exactly those bytes at dst and
    touches no other user memory and nothing of the line being edited; it
    sleeps precisely when it still wants input and none is committed (or
    returns -1 if killed). If copyout fails the read ends early with the
    number of bytes delivered. *)
Theorem consoleread_correct killed dst n s (u : U) res s' u' :
  cons_wf s -> bytes_ok (buf s) -> 0 < n < 2 ^ 31 ->
  consoleread killed dst n s u = (res, s', u') ->
  cons_wf s' /\ editing (abs s') = editing (abs s) /\
  (forall x, (forall j, 0 <= j < n -> x <> u64 (dst + j)) -> uread u' x = uread u x) /\
  exists k, read_post killed n dst (Z.to_nat n) s s' u' res k.
Proof.
  intros Hwf Hb Hn E. unfold consoleread in E.
  rewrite (proj2 (Z.ltb_lt 0 n)) in E by lia.
  destruct (consoleread_seg_spec killed n (Z.to_nat n) dst s u res s' u' Hwf Hb ltac:(lia) E)
    as (H1 & H2 & H3 & H4).
  rewrite Z2Nat.id in H3 by lia. done.
Qed.

Lemma consolewrite_loop_spec fuel : forall src n i (u u' : U) i' out,
  0 <= i <= n -> n <= i + Z.of_nat fuel -> 0 <= src -> src + n <= 2 ^ 64 ->
  consolewrite_loop fuel src n i u = (i', out, u') ->
  out = ubytes u src i (Z.to_nat (i' - i)) /\ i <= i' <= n /\
  (i' = n \/ exists b u1 u2,
     copyin (fun _ => 0) 0 (u64 (src + i')) (Z.min 32 (n - i')) u1 = (false, b, u2)).
Proof.
  induction fuel as [|fuel IH]; intros src n i u u' i' out Hi Hf Hs Hs2 E;
    cbn [consolewrite_loop] in E.
  { simplify_eq. rewrite Z.sub_diag. repeat split; [lia|lia|left; lia]. }
  destruct (Z.ltb_spec i n) as [Hlt|Hge].
  2: { simplify_eq. rewrite Z.sub_diag. repeat split; [lia|lia|left; lia]. }
  destruct (copyin _ _ _ _ u) as [[ok b] u1] eqn:Ec. destruct ok.
  2: { simplify_eq. rewrite Z.sub_diag. repeat split; [lia|lia|right]. by exists b, u, u'. }
  destruct (consolewrite_loop fuel src n _ u1) as [[j o] u2] eqn:El.
  injection E as -> <- ->.
  destruct (copyin_ok (fun _ => 0) 0 (u64 (src + i)) (Z.min 32 (n - i)) u b u1 ltac:(lia) Ec) as [Hb Hu].
  destruct (IH src n (i + Z.min 32 (n - i)) u1 u' i' o ltac:(lia) ltac:(lia) Hs Hs2 El) as (-> & Hij & Hend).
  split; [|split; [lia|exact Hend]].
  rewrite (ubytes_ext u u1) by done.
  replace (Z.to_nat (i' - i)) with
    (Z.to_nat (Z.min 32 (n - i)) + Z.to_nat (i' - (i + Z.min 32 (n - i))))%nat by lia.
  rewrite ubytes_app. f_equal; [|f_equal; lia].
  apply list_eq. intros k. destruct (decide (k < Z.to_nat (Z.min 32 (n - i)))%nat) as [Hk|Hk].
  - rewrite slice_lookup by done. unfold ubytes. rewrite list_lookup_fmap, lookup_seqZ_lt by lia.
    simpl. rewrite <- (Z.add_0_l (Z.of_nat k)), Hb by lia. do 2 f_equal.
    clear - Hs Hs2 Hi Hk Hlt. unwrap. rewrite !Z.mod_small by lia. lia.
  - rewrite !lookup_ge_None_2; rewrite ?length_slice, ?length_ubytes; lia || done.
Qed.

(** Console writes send the caller's bytes to the uart in order: the
    bytes sent are exactly the first i' bytes of the buffer where i' is the
    result, and i' is n unless a copyin of the next batch (of 32 bytes or
    what is left) failed. *)
Theorem consolewrite_correct src n (u u' : U) i' out :
  0 <= n < 2 ^ 31 -> 0 <= src -> src + n <= 2 ^ 64 ->
  consolewrite src n u = (i', out, u') ->
  out = ubytes u src 0 (Z.to_nat i') /\ 0 <= i' <= n /\
  (i' = n \/ exists b u1 u2,
     copyin (fun _ => 0) 0 (u64 (src + i')) (Z.min 32 (n - i')) u1 = (false, b, u2)).
Proof.
  intros Hn Hs Hs2 E.
  destruct (consolewrite_loop_spec (Z.to_nat n) src n 0 u u' i' out ltac:(lia) ltac:(lia) Hs Hs2 E)
    as (-> & Hi & Hend).
  rewrite Z.sub_0_r. done.
Qed.
End console_io.

Lemma consoleread_correct_witness :
  let s := Cons (fun a => (48 + a) mod 256) 0 3 3 in
  let '(res, s', u') := consoleread (fun _ => false) 64 2 s (Flat (fun _ => 0) 100) in
  res = CDone 2 /\ exists k, read_post (fun _ => false) 2 64 2 s s' u' res k.
Proof.
  intros s.
  assert (cons_wf s) as Hwf.
  { split; simpl; try lia; try (vm_compute; congruence). rewrite ring_nil; [constructor|by vm_compute]. }
  destruct (consoleread (fun _ => false) 64 2 s (Flat (fun _ => 0) 100)) as [[res s'] u'] eqn:E.
  assert (bytes_ok (buf s)) as Hb by (intros a; apply Z.mod_pos_bound; lia).
  destruct (consoleread_correct _ 64 2 _ _ res s' u' Hwf Hb ltac:(lia) E) as (_ & _ & _ & Hk).
  split; [|exact Hk]. apply (f_equal (fun x => fst (fst x))) in E. simpl fst in E. subst res. reflexivity.
Defined.

Lemma consolewrite_correct_witness :
  let u := Flat (fun a => a) 100 in
  snd (fst (consolewrite 10 40 u)) = ubytes u 10 0 40.
Proof.
  intros u. destruct (consolewrite 10 40 u) as [[i' out] u'] eqn:E.
  destruct (consolewrite_correct 10 40 u u' i' out ltac:(lia) ltac:(lia) ltac:(lia) E) as (-> & _ & _).
  apply (f_equal (fun x => fst (fst x))) in E. vm_compute in E. by rewrite <- E.
Defined.

(** ** The non-blocking read *)

(** The non-blocking read takes the oldest pending character, edited or
    committed, and -1 on an empty buffer; as long as the 32-bit read index
    does not wrap around, the ring invariant survives (the line being edited
    loses its first character only when nothing is committed). *)
Theorem consolegetc_nb_correct s :
  cons_wf s -> r s <= w s -> w s <= e s ->
  let pending := committed (abs s) ++ editing (abs s) in
  match consolegetc_nb s with
  | (c, s') =>
      cons_wf s' /\
      match pending with
      | [] => c = -1 /\ s' = s
      | x :: rest => c = x /\ committed (abs s') ++ editing (abs s') = rest /\
          (committed (abs s) <> [] -> editing (abs s') = editing (abs s))
      end
  end.
Proof.
  intros Hwf Hrw Hwe pending.
  assert (pending = ring INPUT_BUF_SIZE (buf s) (r s) (e s - r s)) as Hp.
  { unfold pending. simpl. pose proof (cwf_e s Hwf). pose proof (cwf_r s Hwf).
    rewrite !(wrap_small 32) by lia.
    replace (e s - r s) with ((w s - r s) + (e s - w s)) by lia.
    rewrite ring_app by lia. by rewrite Zplus_minus. }
  unfold consolegetc_nb.
  destruct (Z.eqb_spec (r s) (e s)) as [Ee|Ee]; cbn [negb].
  { split; [done|]. by rewrite Hp, Ee, Z.sub_diag, ring_nil by lia. }
  pose proof (cwf_e s Hwf) as He. pose proof (cwf_r s Hwf) as Hr.
  rewrite Hp, ring_cons by lia.
  rewrite (wrap_small 32 (r s + 1)) by lia.
  destruct (Z.ltb_spec (w s) (r s + 1)) as [Hlt|Hge].
  - assert (w s = r s) as Ew by lia.
    split; [|split; [done|split]].
    + destruct Hwf as [_ _ _ Ho Hb Hed]. revert Hb Hed. simpl.
      rewrite Ew, !(wrap_small 32) by lia. intros Hb Hed.
      rewrite (ring_cons _ _ (r s)) in Hed by lia. inversion Hed as [|? ? _ Hed'].
      split; simpl; try lia; rewrite !(wrap_small 32) by lia; try lia.
      by replace (e s - (r s + 1)) with (e s - r s - 1) by lia.
    + simpl. rewrite Z.sub_diag, ring_nil by (by vm_compute). simpl.
      rewrite (wrap_small 32) by lia. f_equal. lia.
    + intros Hn. exfalso. apply Hn. simpl. rewrite Ew, Z.sub_diag. by apply ring_nil.
  - destruct (advance_wf s Hwf ltac:(lia)) as (Hwf1 & Hed1 & Hcm).
    rewrite (wrap_small 32 (r s + 1)) in * by lia.
    split; [done|]. split; [done|]. split; [|done].
    assert (committed (abs s) ++ editing (abs s) = pending) as Hpe by done.
    rewrite Hp, Hcm, ring_cons in Hpe by lia. injection Hpe as Hpe.
    rewrite Hed1. exact Hpe.
Qed.

Lemma consolegetc_nb_correct_witness :
  consolegetc_nb (Cons (fun _ => 113) 0 0 1) = (113, Cons (fun _ => 113) 1 1 1).
Proof.
  assert (cons_wf (Cons (fun _ => 113) 0 0 1)) as Hwf.
  { split; simpl; try lia; try (vm_compute; congruence). vm_compute. repeat constructor. congruence. }
  pose proof (consolegetc_nb_correct _ Hwf) as H. simpl in H.
  destruct (H ltac:(lia) ltac:(lia)) as [_ _]. reflexivity.
Defined.

(** C29. The uint comparison w < r of consolegetc_nb fails when the read
    index wraps around: with one uncommitted character in the buffer at
    r = w = 2^32 - 1, the read leaves w behind r, and the ring invariant (on
    which consoleread and consoleintr rely) is lost. *)
Theorem consolegetc_nb_wrap_bug b :
  b 127 <> 10 ->
  let s := Cons b (2 ^ 32 - 1) (2 ^ 32 - 1) 0 in
  cons_wf s /\ let s' := snd (consolegetc_nb s) in r s' <> w s' /\ ~ cons_wf s'.
Proof.
  intros Hb s. split.
  - split; simpl; try lia; try (vm_compute; congruence). vm_compute. by repeat constructor.
  - simpl. split; [vm_compute; congruence|]. intros Hw. pose proof (cwf_order _ Hw) as Ho.
    vm_compute in Ho. congruence.
Qed.

Lemma consolegetc_nb_wrap_bug_witness :
  cons_wf (Cons (fun _ => 113) (2 ^ 32 - 1) (2 ^ 32 - 1) 0).
Proof. apply (consolegetc_nb_wrap_bug (fun _ => 113)). lia. Defined.
