(* ===== verification/BufCache.v ===== *)
(** * The interface of the buffer cache

    log.c and fs.c reach the disk only through bread, bwrite, brelse, bpin
    and bunpin (bio.c). [BufCache] is what they call; [BufCacheLaws] is what
    they rely on, stated over an abstract cache: what a reader of each block
    would see, what is on the disk, the reference count and the holder of
    each block's buffer, and the number of reusable buffers. File Bio
    implements the interface; file Log is proved against it. *)
From stdpp Require Import base list numbers strings.
From Stdlib Require Import ZArith Lia FunctionalExtensionality.
From S2P Require Import Prelude.

Definition BSIZE : Z := 1024.

Class BufCache (S : Type) := {
  bread : Z -> Z -> M S Z;
  bwrite : Z -> M S unit;
  brelse : Z -> M S unit;
  bpin : Z -> M S unit;
  bunpin : Z -> M S unit;
  bdata : Z -> S -> bytes;
  set_bdata : Z -> bytes -> S -> S;
  bblockno : Z -> S -> Z;
}.

Record babs := BAbs {
  view : Z -> bytes;          (* contents of the block as bread gives it *)
  disk : Z -> bytes;
  writes : list (Z * bytes);  (* the writes the disk has performed, in order *)
  pins : Z -> Z;              (* reference count of the block's buffer *)
  holder : Z -> option Z;     (* the buffer locked for the block *)
  nfree : Z;                  (* buffers with reference count 0 *)
}.

Section abstract.
Implicit Types a : babs.

Definition a_bread (b i : Z) a : babs :=
  BAbs (view a) (disk a) (writes a) (fupd (pins a) b (pins a b + 1))
    (fupd (holder a) b (Some i)) (if pins a b =? 0 then nfree a - 1 else nfree a).
Definition a_set (b : Z) (d : bytes) a : babs :=
  BAbs (fupd (view a) b d) (disk a) (writes a) (pins a) (holder a) (nfree a).
Definition a_bwrite (b : Z) a : babs :=
  BAbs (view a) (fupd (disk a) b (view a b)) (writes a ++ [(b, view a b)])
    (pins a) (holder a) (nfree a).
Definition a_brelse (b : Z) a : babs :=
  BAbs (view a) (disk a) (writes a) (fupd (pins a) b (pins a b - 1))
    (fupd (holder a) b None) (if pins a b =? 1 then nfree a + 1 else nfree a).
Definition a_pin (b d : Z) a : babs :=
  BAbs (view a) (disk a) (writes a) (fupd (pins a) b (pins a b + d)) (holder a) (nfree a).
End abstract.

(** [bdev] is the one device the cache serves. *)
Class BufCacheLaws (S : Type) `{BufCache S} := {
  bdev : Z;
  binv : S -> Prop;
  absc : S -> babs;
  pins_range s b : binv s -> 0 <= pins (absc s) b < 2 ^ 32;
  holder_pins s b i : binv s -> holder (absc s) b = Some i -> 0 < pins (absc s) b;
  unpinned_clean s b : binv s -> pins (absc s) b = 0 -> view (absc s) b = disk (absc s) b;
  bread_ok s b :
    binv s -> holder (absc s) b = None -> pins (absc s) b < 2 ^ 32 - 1 ->
    0 < pins (absc s) b \/ 0 < nfree (absc s) ->
    exists i s', bread bdev b s = Ret i s' /\ binv s' /\ absc s' = a_bread b i (absc s);
  bdata_ok s b i :
    binv s -> holder (absc s) b = Some i ->
    bdata i s = view (absc s) b /\ bblockno i s = b;
  set_ok s b i d :
    binv s -> holder (absc s) b = Some i ->
    binv (set_bdata i d s) /\ absc (set_bdata i d s) = a_set b d (absc s);
  bwrite_ok s b i :
    binv s -> holder (absc s) b = Some i ->
    exists s', bwrite i s = Ret tt s' /\ binv s' /\ absc s' = a_bwrite b (absc s);
  brelse_ok s b i :
    binv s -> holder (absc s) b = Some i ->
    (pins (absc s) b = 1 -> view (absc s) b = disk (absc s) b) ->
    exists s', brelse i s = Ret tt s' /\ binv s' /\ absc s' = a_brelse b (absc s);
  bpin_ok s b i :
    binv s -> holder (absc s) b = Some i -> pins (absc s) b < 2 ^ 32 - 1 ->
    exists s', bpin i s = Ret tt s' /\ binv s' /\ absc s' = a_pin b 1 (absc s);
  bunpin_ok s b i :
    binv s -> holder (absc s) b = Some i -> 1 < pins (absc s) b ->
    exists s', bunpin i s = Ret tt s' /\ binv s' /\ absc s' = a_pin b (-1) (absc s);
}.
