(* ===== verification/Bio.v ===== *)
(** * kernel/bio.c: the buffer cache

    NBUF buffers on a doubly linked list kept in order of use, through prev
    and next indices ([HEAD] is the list head), their reference counts and
    sleep locks, the disk as a map from block numbers to contents with the
    trace of its writes, and the event counters topfree reports. A call runs
    under bcache.lock; a process that has to wait for a buffer's sleep lock
    blocks in [Sleep]. *)
From stdpp Require Import base list numbers strings relations.
From Stdlib Require Import ZArith Lia FunctionalExtensionality.
From S2P Require Import Prelude Memlayout BufCache.

Record buf := Buf {
  b_valid : Z; b_dev : Z; b_blockno : Z;
  b_locked : Z; b_pid : Z;             (* struct sleeplock lock *)
  b_refcnt : Z; b_prev : Z; b_next : Z;
  b_data : bytes;
}.

Record bcache := BCache {
  bufs : Z -> buf;                     (* buf[0..NBUF-1] and head at HEAD *)
  read_cache_counter : Z; read_cache_hit_counter : Z; write_cahce_counter : Z;
  read_disk_counter : Z; write_disk_counter : Z;
  blocks : Z -> bytes;                 (* the disk *)
  trace : list (Z * bytes);            (* writes performed by the disk *)
  curpid : Z;                          (* myproc()->pid *)
}.

Definition HEAD : Z := NBUF.

Definition on_buf (i : Z) (f : buf -> buf) (s : bcache) : bcache :=
  BCache (fupd (bufs s) i (f (bufs s i))) (read_cache_counter s) (read_cache_hit_counter s)
    (write_cahce_counter s) (read_disk_counter s) (write_disk_counter s) (blocks s)
    (trace s) (curpid s).

Definition set_next (n : Z) (b : buf) : buf :=
  Buf (b_valid b) (b_dev b) (b_blockno b) (b_locked b) (b_pid b) (b_refcnt b) (b_prev b) n (b_data b).
Definition set_prev (p : Z) (b : buf) : buf :=
  Buf (b_valid b) (b_dev b) (b_blockno b) (b_locked b) (b_pid b) (b_refcnt b) p (b_next b) (b_data b).
Definition set_refcnt (r : Z) (b : buf) : buf :=
  Buf (b_valid b) (b_dev b) (b_blockno b) (b_locked b) (b_pid b) r (b_prev b) (b_next b) (b_data b).
Definition set_lock (l p : Z) (b : buf) : buf :=
  Buf (b_valid b) (b_dev b) (b_blockno b) l p (b_refcnt b) (b_prev b) (b_next b) (b_data b).
Definition set_data (d : bytes) (b : buf) : buf :=
  Buf (b_valid b) (b_dev b) (b_blockno b) (b_locked b) (b_pid b) (b_refcnt b) (b_prev b) (b_next b) d.
Definition set_valid (v : Z) (b : buf) : buf :=
  Buf v (b_dev b) (b_blockno b) (b_locked b) (b_pid b) (b_refcnt b) (b_prev b) (b_next b) (b_data b).
(** b->dev = dev; b->blockno = blockno; b->valid = 0; b->refcnt = 1; *)
Definition recycle (dev blockno : Z) (b : buf) : buf :=
  Buf 0 dev blockno (b_locked b) (b_pid b) 1 (b_prev b) (b_next b) (b_data b).

(** head.next->prev = b; head.next = b, after b->next = head.next and
    b->prev = head: insertion of [i] after the head. *)
Definition push_front (i : Z) (s : bcache) : bcache :=
  let s := on_buf i (set_next (b_next (bufs s HEAD))) s in
  let s := on_buf i (set_prev HEAD) s in
  let s := on_buf (b_next (bufs s HEAD)) (set_prev i) s in
  on_buf HEAD (set_next i) s.

Definition binit : M bcache unit :=
  modify (on_buf HEAD (set_prev HEAD)) ;;;
  modify (on_buf HEAD (set_next HEAD)) ;;;
  for_loop (Z.to_nat NBUF) 0 (fun i => modify (push_front i) ;;; modify (on_buf i (set_lock 0 0))).

(** A walk of the list along [step] from [i] to the first buffer satisfying
    [P]: [Some None] is the end of the list, [None] an exhausted fuel. *)
Fixpoint scan (fuel : nat) (step : Z -> Z) (P : Z -> bool) (i : Z) : option (option Z) :=
  if i =? HEAD then Some None
  else if P i then Some (Some i)
  else match fuel with
       | O => None
       | S f => scan f step P (step i)
       end.

(** acquiresleep, releasesleep and holdingsleep of the buffer's lock. *)
Definition acquiresleep (i : Z) : M bcache unit :=
  s <- get ;;
  if b_locked (bufs s i) =? 0 then modify (on_buf i (set_lock 1 (curpid s))) else sleep_on i.
Definition releasesleep (i : Z) : M bcache unit := modify (on_buf i (set_lock 0 0)).
Definition holdingsleep (i : Z) (s : bcache) : bool :=
  negb (b_locked (bufs s i) =? 0) && (b_pid (bufs s i) =? curpid s).

Definition add_counters (r h w rd wd : Z) (s : bcache) : bcache :=
  BCache (bufs s) (u64 (read_cache_counter s + r)) (u64 (read_cache_hit_counter s + h))
    (u64 (write_cahce_counter s + w)) (u64 (read_disk_counter s + rd))
    (u64 (write_disk_counter s + wd)) (blocks s) (trace s) (curpid s).

Definition bget (dev blockno : Z) : M bcache Z :=
  modify (add_counters 1 0 0 0 0) ;;;
  s <- get ;;
  match scan (Z.to_nat NBUF) (fun i => b_next (bufs s i))
          (fun i => (b_dev (bufs s i) =? dev) && (b_blockno (bufs s i) =? blockno))
          (b_next (bufs s HEAD)) with
  | None => fun _ => Diverge
  | Some (Some i) =>
      modify (add_counters 0 1 0 0 0) ;;;
      modify (on_buf i (fun b => set_refcnt (u32 (b_refcnt b + 1)) b)) ;;;
      acquiresleep i ;;;
      ret i
  | Some None =>
      match scan (Z.to_nat NBUF) (fun i => b_prev (bufs s i))
              (fun i => b_refcnt (bufs s i) =? 0) (b_prev (bufs s HEAD)) with
      | None => fun _ => Diverge
      | Some (Some i) =>
          modify (add_counters 0 0 1 0 0) ;;;
          modify (on_buf i (recycle dev blockno)) ;;;
          acquiresleep i ;;;
          ret i
      | Some None => panic "bget: no buffers"
      end
  end.

(** The transfer of one block by the disk device: the effect of
    virtio_disk_rw once the request has completed. *)
Definition virtio_disk_rw (i : Z) (write : bool) : M bcache unit :=
  if write
  then modify (add_counters 0 0 0 0 1) ;;;
       modify (fun s =>
         let n := b_blockno (bufs s i) in let d := b_data (bufs s i) in
         BCache (bufs s) (read_cache_counter s) (read_cache_hit_counter s)
           (write_cahce_counter s) (read_disk_counter s) (write_disk_counter s)
           (fupd (blocks s) n d) (trace s ++ [(n, d)]) (curpid s))
  else modify (add_counters 0 0 0 1 0) ;;;
       modify (fun s => on_buf i (set_data (blocks s (b_blockno (bufs s i)))) s).

(** One step, although virtio_disk_rw sleeps until the disk has answered: the
    caller holds the lock of the buffer all the while, and nobody else looks at
    its contents. Steps of other processes in between are not part of the
    model; those of the driver are in file VirtioProps. *)
Definition b_read (dev blockno : Z) : M bcache Z :=
  i <- bget dev blockno ;;
  s <- get ;;
  when (b_valid (bufs s i) =? 0)
    (virtio_disk_rw i false ;;; modify (on_buf i (set_valid 1))) ;;;
  ret i.

Definition b_write (i : Z) : M bcache unit :=
  s <- get ;;
  if holdingsleep i s then virtio_disk_rw i true else panic "bwrite".

(** b->next->prev = b->prev; b->prev->next = b->next *)
Definition unlink (i : Z) (s : bcache) : bcache :=
  let s := on_buf (b_next (bufs s i)) (set_prev (b_prev (bufs s i))) s in
  on_buf (b_prev (bufs s i)) (set_next (b_next (bufs s i))) s.

Definition b_relse (i : Z) : M bcache unit :=
  s <- get ;;
  if holdingsleep i s then
    releasesleep i ;;;
    modify (on_buf i (fun b => set_refcnt (u32 (b_refcnt b - 1)) b)) ;;;
    s <- get ;;
    when (b_refcnt (bufs s i) =? 0) (modify (fun s => push_front i (unlink i s)))
  else panic "brelse".

Definition b_pin (i : Z) : M bcache unit :=
  modify (on_buf i (fun b => set_refcnt (u32 (b_refcnt b + 1)) b)).
Definition b_unpin (i : Z) : M bcache unit :=
  modify (on_buf i (fun b => set_refcnt (u32 (b_refcnt b - 1)) b)).

Definition count_free_cache (s : bcache) : Z :=
  fold_left (fun free i => if b_refcnt (bufs s i) =? 0 then u64 (free + BSIZE) else free)
    (seqZ 0 NBUF) 0.

#[export] Instance bio_cache : BufCache bcache := {|
  bread := b_read; bwrite := b_write; brelse := b_relse; bpin := b_pin; bunpin := b_unpin;
  bdata i s := b_data (bufs s i);
  set_bdata i d s := on_buf i (set_data d) s;
  bblockno i s := b_blockno (bufs s i);
|}.

(** ** Doubly linked lists *)

(** A path from [x] through the nodes [l] to [y], linked both ways. *)
Fixpoint seg (nx pv : Z -> Z) (x : Z) (l : list Z) (y : Z) : Prop :=
  match l with
  | [] => nx x = y /\ pv y = x
  | z :: l' => nx x = z /\ pv z = x /\ seg nx pv z l' y
  end.

Section dll.
Implicit Types nx pv : Z -> Z.

Lemma seg_app nx pv l1 : forall x z l2 y,
  seg nx pv x (l1 ++ z :: l2) y <-> seg nx pv x l1 z /\ seg nx pv z l2 y.
Proof.
  induction l1 as [|c l1 IH]; intros x z l2 y; simpl; [tauto|]. rewrite IH. tauto.
Qed.

Lemma seg_ext nx pv nx' pv' l : forall x y,
  (forall z, z ∈ x :: l -> nx' z = nx z) -> (forall z, z ∈ l ++ [y] -> pv' z = pv z) ->
  seg nx pv x l y -> seg nx' pv' x l y.
Proof.
  induction l as [|c l IH]; intros x y Hn Hp; simpl.
  - rewrite Hn, Hp by (simpl; constructor). done.
  - intros (H1 & H2 & H3). rewrite Hn, Hp by (simpl; constructor). repeat split; try done.
    apply IH; [|intros; apply Hp; simpl; by right|done].
    intros; apply Hn. by right.
Qed.

Lemma seg_pv_in nx pv l : forall x y, seg nx pv x l y -> pv y ∈ x :: l.
Proof.
  induction l as [|c l IH]; intros x y H; simpl in H.
  - destruct H as [_ ->]. left.
  - right. destruct H as (_ & _ & H). by apply IH.
Qed.

Lemma seg_nx_in nx pv x l y : seg nx pv x l y -> nx x ∈ l ++ [y].
Proof. destruct l; simpl; [intros [-> _]|intros (-> & _)]; left. Qed.

Lemma seg_unlink nx pv l1 : forall x b l2 y,
  NoDup (l1 ++ b :: l2) -> x ∉ l1 ++ b :: l2 -> y ∉ l1 ++ b :: l2 ->
  seg nx pv x (l1 ++ b :: l2) y ->
  seg (fupd nx (pv b) (nx b)) (fupd pv (nx b) (pv b)) x (l1 ++ l2) y.
Proof.
  induction l1 as [|c l1 IH]; intros x b l2 y Hnd Hx Hy H.
  - simpl in *. destruct H as (H1 & H2 & H3). rewrite H2.
    rewrite not_elem_of_cons in Hx, Hy. apply NoDup_cons in Hnd as [Hb Hnd].
    destruct l2 as [|z l3]; simpl in *.
    + destruct H3 as [-> _]. by rewrite !fupd_eq.
    + destruct H3 as (-> & _ & H3). rewrite !fupd_eq. repeat split.
      apply NoDup_cons in Hnd as [Hz _].
      eapply seg_ext; [| |exact H3].
      * intros w Hw. apply fupd_ne. intros ->. tauto.
      * intros w Hw. apply fupd_ne. intros ->. rewrite elem_of_app, list_elem_of_singleton in Hw.
        destruct Hw as [Hw| ->]; [done|]. destruct Hy as [_ Hy]. apply Hy. left.
  - cbn [app] in *. destruct H as (H1 & H2 & H3). rewrite not_elem_of_cons in Hx, Hy.
    apply NoDup_cons in Hnd as [Hc Hnd]. pose proof H3 as H4. apply seg_app in H4 as [H5 H6].
    apply seg_pv_in in H5. apply seg_nx_in in H6.
    split; [|split; [|apply IH; tauto]].
    + rewrite fupd_ne; [done|]. intros ->. destruct Hx as [Hx1 Hx2].
      apply elem_of_cons in H5 as [H5|H5]; [done|]. apply Hx2, elem_of_app. by left.
    + rewrite fupd_ne; [done|]. intros ->. apply elem_of_app in H6 as [H6|H6].
      * apply Hc, elem_of_app. right. by right.
      * apply list_elem_of_singleton in H6. by destruct Hy.
Qed.

Lemma seg_push nx pv x b l y :
  b ∉ l -> b <> x -> b <> y -> x ∉ l -> y ∉ l -> NoDup l -> seg nx pv x l y ->
  seg (fupd (fupd nx b (nx x)) x b) (fupd (fupd pv b x) (nx x) b) x (b :: l) y.
Proof.
  intros Hb Hbx Hby Hx Hy Hnd H. simpl. rewrite fupd_eq.
  assert (nx x <> b) as Hnb.
  { intros E. apply seg_nx_in in H. rewrite E, elem_of_app, list_elem_of_singleton in H. tauto. }
  split; [done|]. split; [rewrite fupd_ne by congruence; apply fupd_eq|].
  destruct l as [|z l]; simpl in *.
  - destruct H as [-> _]. rewrite fupd_ne, !fupd_eq by done. done.
  - destruct H as (-> & _ & H). rewrite fupd_ne, !fupd_eq by done. repeat split.
    apply NoDup_cons in Hnd as [Hz Hnd]. rewrite not_elem_of_cons in Hb, Hx, Hy.
    eapply seg_ext; [| |exact H].
    + intros w Hw. rewrite !fupd_ne; [done| |].
      * intros ->. apply elem_of_cons in Hw as [Hw|Hw]; tauto.
      * intros ->. apply elem_of_cons in Hw as [Hw|Hw]; [by destruct Hx|tauto].
    + intros w Hw. rewrite elem_of_app, list_elem_of_singleton in Hw. rewrite !fupd_ne; [done| |].
      * intros ->. destruct Hw as [Hw| ->]; tauto.
      * intros ->. destruct Hw as [Hw| ->]; tauto.
Qed.

Lemma scan_next nx pv P l : forall x fuel, HEAD ∉ l -> (length l <= fuel)%nat ->
  seg nx pv x l HEAD -> scan fuel nx P (nx x) = Some (List.find P l).
Proof.
  induction l as [|c l IH]; intros x fuel Hh Hf H; simpl in H.
  - destruct H as [-> _]. by destruct fuel.
  - destruct H as (-> & _ & H). rewrite not_elem_of_cons in Hh. simpl in Hf |- *.
    destruct fuel as [|fuel]; [lia|]. simpl.
    rewrite (proj2 (Z.eqb_neq c HEAD)) by (destruct Hh; congruence).
    destruct (P c); [done|]. apply IH; [tauto|lia|done].
Qed.

Lemma elem_of_reverse_In (x : Z) l : x ∈ rev l <-> x ∈ l.
Proof. rewrite !list_elem_of_In. symmetry. apply in_rev. Qed.

Lemma seg_rev nx pv l : forall x y, seg nx pv x l y -> seg pv nx y (rev l) x.
Proof.
  induction l as [|c l IH]; intros x y H; simpl in *; [tauto|].
  destruct H as (H1 & H2 & H3). apply seg_app. split; [by apply IH|]. simpl. tauto.
Qed.
End dll.

(** ** The invariant and the abstraction *)

Definition nx (s : bcache) (i : Z) : Z := b_next (bufs s i).
Definition pv (s : bcache) (i : Z) : Z := b_prev (bufs s i).

(** The fields of a buffer other than its list links. *)
Definition strip (b : buf) : buf := set_next 0 (set_prev 0 b).

Definition ids : list Z := seqZ 0 NBUF.

Definition caches (s : bcache) (b i : Z) : bool :=
  (b_dev (bufs s i) =? ROOTDEV) && (b_blockno (bufs s i) =? b).
Definition idx (s : bcache) (b : Z) : option Z := List.find (caches s b) ids.

Definition lock_holder (i : Z) (b : buf) : option Z :=
  if b_locked b =? 0 then None else Some i.

Definition cnt (f : Z -> bool) (l : list Z) : Z := Z.of_nat (length (List.filter f l)).

Definition bio_abs (s : bcache) : babs :=
  BAbs (fun b => match idx s b with Some i => b_data (bufs s i) | None => blocks s b end)
       (blocks s) (trace s)
       (fun b => match idx s b with Some i => b_refcnt (bufs s i) | None => 0 end)
       (fun b => match idx s b with Some i => lock_holder i (bufs s i) | None => None end)
       (cnt (fun i => b_refcnt (bufs s i) =? 0) ids).

(** A buffer is either never used or holds a block of the root device; it is
    locked only while referenced, and then by the running process; once
    nobody references it, it agrees with the disk. *)
Record buf_ok (s : bcache) (b : buf) : Prop := {
  ok_ref : 0 <= b_refcnt b < 2 ^ 32;
  ok_dev : (b_dev b = ROOTDEV /\ b_valid b <> 0) \/ (b_dev b = 0 /\ b_refcnt b = 0);
  ok_lock : b_refcnt b = 0 -> b_locked b = 0;
  ok_pid : b_locked b <> 0 -> b_pid b = curpid s;
  ok_clean : b_refcnt b = 0 -> b_dev b = ROOTDEV -> b_data b = blocks s (b_blockno b);
}.

Record bwf (s : bcache) (l : list Z) : Prop := {
  w_perm : l ≡ₚ ids;
  w_dll : seg (nx s) (pv s) HEAD l HEAD;
  w_buf i : 0 <= i < NBUF -> buf_ok s (bufs s i);
  w_uniq i j : 0 <= i < NBUF -> 0 <= j < NBUF ->
    b_dev (bufs s i) = ROOTDEV -> b_dev (bufs s j) = ROOTDEV ->
    b_blockno (bufs s i) = b_blockno (bufs s j) -> i = j;
}.

Definition bio_inv (s : bcache) : Prop := exists l, bwf s l.

Section bio.
Implicit Types s : bcache.

Lemma elem_of_ids i : i ∈ ids <-> 0 <= i < NBUF.
Proof. unfold ids. rewrite elem_of_seqZ. lia. Qed.

Lemma NoDup_ids : NoDup ids.
Proof. apply NoDup_seqZ. Qed.

Lemma wf_list s l : bwf s l -> NoDup l /\ (HEAD ∉ l) /\ length l = Z.to_nat NBUF /\
  forall i, i ∈ l <-> 0 <= i < NBUF.
Proof.
  intros [Hp _ _ _].
  assert (forall i, i ∈ l <-> 0 <= i < NBUF) as He by (intros i; rewrite Hp; apply elem_of_ids).
  split; [rewrite Hp; apply NoDup_ids|]. split; [rewrite He; unfold HEAD; lia|].
  split; [by rewrite Hp|done].
Qed.

Lemma find_some_iff (f : Z -> bool) l i :
  (forall j, j ∈ l -> f j = true -> j = i) -> i ∈ l -> f i = true -> List.find f l = Some i.
Proof.
  induction l as [|c l IH]; intros Hu Hi Hf; [by apply not_elem_of_nil in Hi|]. simpl.
  destruct (f c) eqn:Ec; [f_equal; apply Hu; [constructor|done]|].
  apply elem_of_cons in Hi as [->|Hi]; [congruence|].
  apply IH; [|done|done]. intros j Hj. apply Hu. by right.
Qed.

Lemma find_none_iff (f : Z -> bool) l :
  List.find f l = None <-> forall j, j ∈ l -> f j = false.
Proof.
  induction l as [|c l IH]; simpl.
  - split; [|done]. intros _ j Hj. by apply not_elem_of_nil in Hj.
  - destruct (f c) eqn:Ec.
    + split; [done|]. intros H. rewrite H in Ec by constructor. done.
    + rewrite IH. split; intros H j Hj.
      * apply elem_of_cons in Hj as [->|Hj]; auto.
      * apply H. by right.
Qed.

Lemma caches_true s b i : caches s b i = true <->
  b_dev (bufs s i) = ROOTDEV /\ b_blockno (bufs s i) = b.
Proof. unfold caches. rewrite andb_true_iff, !Z.eqb_eq. done. Qed.

Lemma idx_some s l b i : bwf s l -> idx s b = Some i <->
  0 <= i < NBUF /\ b_dev (bufs s i) = ROOTDEV /\ b_blockno (bufs s i) = b.
Proof.
  intros Hwf. unfold idx. split.
  - intros H. apply find_some in H as [Hi Hc]. apply caches_true in Hc.
    rewrite <- list_elem_of_In, elem_of_ids in Hi. done.
  - intros (Hi & Hd & Hb). apply find_some_iff; [|by apply elem_of_ids|by apply caches_true].
    intros j Hj (Hd' & Hb')%caches_true. apply elem_of_ids in Hj.
    eapply (w_uniq _ _ Hwf); congruence.
Qed.

Lemma idx_none s b : idx s b = None <->
  forall i, 0 <= i < NBUF -> b_dev (bufs s i) = ROOTDEV -> b_blockno (bufs s i) <> b.
Proof.
  unfold idx. rewrite find_none_iff. split.
  - intros H i Hi Hd Hb. specialize (H i (proj2 (elem_of_ids i) Hi)).
    rewrite (proj2 (caches_true s b i)) in H; done.
  - intros H i Hi%elem_of_ids. destruct (caches s b i) eqn:E; [|done].
    apply caches_true in E as [Hd Hb]. by destruct (H i Hi Hd).
Qed.

Lemma filter_ext_in (f g : Z -> bool) l :
  (forall j, j ∈ l -> f j = g j) -> List.filter f l = List.filter g l.
Proof.
  intros H. induction l as [|c l IH]; [done|]. simpl. rewrite H by constructor.
  rewrite IH; [done|]. intros. apply H. by right.
Qed.

Lemma cnt_update f f' l i : NoDup l -> i ∈ l -> (forall j, j ∈ l -> j <> i -> f' j = f j) ->
  cnt f' l = cnt f l - Z.b2z (f i) + Z.b2z (f' i).
Proof.
  unfold cnt. induction l as [|c l IH]; intros Hnd Hi Hf; [by apply not_elem_of_nil in Hi|].
  apply NoDup_cons in Hnd as [Hc Hnd]. simpl.
  apply elem_of_cons in Hi as [->|Hi].
  - rewrite (filter_ext_in f' f l).
    2: { intros j Hj. apply Hf; [by right|]. congruence. }
    destruct (f c), (f' c); simpl; lia.
  - assert (c <> i) by congruence. rewrite (Hf c) by (constructor || done).
    assert (forall j, j ∈ l -> j <> i -> f' j = f j) as Hf' by (intros; apply Hf; [by right|done]).
    specialize (IH Hnd Hi Hf'). destruct (f c); simpl length; lia.
Qed.

Lemma strip_fields b b' : strip b = strip b' ->
  b_valid b = b_valid b' /\ b_dev b = b_dev b' /\ b_blockno b = b_blockno b' /\
  b_locked b = b_locked b' /\ b_pid b = b_pid b' /\ b_refcnt b = b_refcnt b' /\ b_data b = b_data b'.
Proof. intros [=]. done. Qed.

Lemma lock_holder_eq i b b' : b_locked b = b_locked b' -> lock_holder i b = lock_holder i b'.
Proof. intros E. unfold lock_holder. by rewrite E. Qed.
End bio.

(** ** Steps that touch one buffer *)

Section update_one.
Context (s : bcache) (l : list Z) (s' : bcache) (l' : list Z) (i b : Z).
Hypothesis Hwf : bwf s l.
Hypothesis Hi : 0 <= i < NBUF.
Hypothesis Hj : forall j, 0 <= j < NBUF -> j <> i -> strip (bufs s' j) = strip (bufs s j).
Hypothesis Hbl : forall c, c <> b -> blocks s' c = blocks s c.
Hypothesis Hpid : curpid s' = curpid s.
Hypothesis Hp : l' ≡ₚ ids.
Hypothesis Hdll : seg (nx s') (pv s') HEAD l' HEAD.
Hypothesis Hok : buf_ok s' (bufs s' i).
Hypothesis Hd' : b_dev (bufs s' i) = ROOTDEV.
Hypothesis Hb' : b_blockno (bufs s' i) = b.
(** No other buffer caches [b]. *)
Hypothesis Hno : forall j, 0 <= j < NBUF -> j <> i -> b_dev (bufs s j) = ROOTDEV ->
  b_blockno (bufs s j) <> b.

Lemma update_one_wf : bwf s' l'.
Proof.
  split; [done|done| |].
  - intros j Hjr. destruct (decide (j = i)) as [->|Hne]; [done|].
    destruct (strip_fields _ _ (Hj j Hjr Hne)) as (E1 & E2 & E3 & E4 & E5 & E6 & E7).
    destruct (w_buf _ _ Hwf j Hjr) as [O1 O2 O3 O4 O5].
    split; rewrite ?E1, ?E2, ?E3, ?E4, ?E5, ?E6, ?E7, ?Hpid; auto.
    intros Hr Hdj. rewrite Hbl; auto.
  - intros j k Hjr Hkr Dj Dk Hjk.
    destruct (decide (j = i)) as [->|Hne]; destruct (decide (k = i)) as [->|Hne']; try done.
    + destruct (strip_fields _ _ (Hj k Hkr Hne')) as (_ & E2 & E3 & _).
      exfalso. apply (Hno k Hkr Hne'); congruence.
    + destruct (strip_fields _ _ (Hj j Hjr Hne)) as (_ & E2 & E3 & _).
      exfalso. apply (Hno j Hjr Hne); congruence.
    + destruct (strip_fields _ _ (Hj k Hkr Hne')) as (_ & E2 & E3 & _).
      destruct (strip_fields _ _ (Hj j Hjr Hne)) as (_ & E4 & E5 & _).
      eapply (w_uniq _ _ Hwf); congruence.
Qed.

Lemma update_one_idx c k : c <> b -> k <> i ->
  idx s' c = Some k <-> idx s c = Some k.
Proof.
  intros Hc Hk. rewrite (idx_some _ _ _ _ Hwf), (idx_some _ _ _ _ update_one_wf).
  split; intros (H1 & H2 & H3);
    destruct (strip_fields _ _ (Hj k H1 Hk)) as (_ & E2 & E3 & _); repeat split; try lia; congruence.
Qed.

Lemma update_one_idx_same : idx s' b = Some i.
Proof. by apply (idx_some _ _ _ _ update_one_wf). Qed.

(** What [i] was before: the same block, or an unreferenced buffer. *)
Hypothesis Hold : (b_dev (bufs s i) = ROOTDEV /\ b_blockno (bufs s i) = b) \/
  (b_refcnt (bufs s i) = 0).

Lemma update_one_other {A} (f : Z -> buf -> A) (g : bcache -> Z -> A) :
  (forall j x y, strip x = strip y -> f j x = f j y) ->
  (forall c, c <> b -> g s' c = g s c) ->
  (b_refcnt (bufs s i) = 0 -> b_dev (bufs s i) = ROOTDEV ->
    f i (bufs s i) = g s (b_blockno (bufs s i))) ->
  (fun c => match idx s' c with Some j => f j (bufs s' j) | None => g s' c end) =
  fupd (fun c => match idx s c with Some j => f j (bufs s j) | None => g s c end) b
    (f i (bufs s' i)).
Proof.
  intros Hf Hg Hfree. extensionality c. destruct (decide (c = b)) as [->|Hc].
  { by rewrite fupd_eq, update_one_idx_same. }
  rewrite fupd_ne by done.
  destruct (idx s' c) as [j|] eqn:E'.
  - assert (j <> i) as Hne.
    { intros ->. apply (idx_some _ _ _ _ update_one_wf) in E' as (_ & _ & E'). congruence. }
    pose proof E' as E. apply (update_one_idx c j Hc Hne) in E. rewrite E.
    apply Hf, Hj; [|done]. by apply (idx_some _ _ _ _ Hwf) in E as (? & _).
  - destruct (idx s c) as [j|] eqn:E; [|by apply Hg].
    destruct (decide (j = i)) as [->|Hne].
    + apply (idx_some _ _ _ _ Hwf) in E as (_ & Dd & Db).
      destruct Hold as [[_ Ho]|Ho]; [congruence|].
      rewrite Hfree, Db by done. by apply Hg.
    + apply (update_one_idx c j Hc Hne) in E. congruence.
Qed.

Lemma update_one_abs : bwf s' l' /\
  bio_abs s' = BAbs (fupd (view (bio_abs s)) b (b_data (bufs s' i))) (blocks s') (trace s')
    (fupd (pins (bio_abs s)) b (b_refcnt (bufs s' i)))
    (fupd (holder (bio_abs s)) b (lock_holder i (bufs s' i)))
    (nfree (bio_abs s) - Z.b2z (b_refcnt (bufs s i) =? 0) + Z.b2z (b_refcnt (bufs s' i) =? 0)).
Proof.
  split; [exact update_one_wf|]. destruct (w_buf _ _ Hwf i Hi) as [O1 O2 O3 O4 O5].
  unfold bio_abs. cbn [view pins holder nfree]. f_equal.
  - apply (update_one_other (fun _ x => b_data x) blocks); [|done|done].
    intros j x y E. by apply strip_fields.
  - apply (update_one_other (fun _ x => b_refcnt x) (fun _ _ => 0)); [|done|done].
    intros j x y E. by apply strip_fields.
  - apply (update_one_other lock_holder (fun _ _ => None)); [|done|].
    + intros j x y E. by apply lock_holder_eq, strip_fields.
    + intros H0 _. unfold lock_holder. by rewrite O3.
  - apply (cnt_update (fun j => b_refcnt (bufs s j) =? 0) (fun j => b_refcnt (bufs s' j) =? 0)).
    + apply NoDup_ids.
    + by apply elem_of_ids.
    + intros j Hjr%elem_of_ids Hne. by destruct (strip_fields _ _ (Hj j Hjr Hne)) as (_&_&_&_&_&->&_).
Qed.
End update_one.

(** ** The operations against the interface *)

Section ops.
Implicit Types s : bcache.

Lemma nx_on_buf i f s : nx (on_buf i f s) = fupd (nx s) i (b_next (f (bufs s i))).
Proof. extensionality j. unfold nx, on_buf, fupd. cbn [bufs]. by destruct (j =? i). Qed.

Lemma pv_on_buf i f s : pv (on_buf i f s) = fupd (pv s) i (b_prev (f (bufs s i))).
Proof. extensionality j. unfold pv, on_buf, fupd. cbn [bufs]. by destruct (j =? i). Qed.

Lemma links_on_buf i f s : (forall x, b_next (f x) = b_next x /\ b_prev (f x) = b_prev x) ->
  nx (on_buf i f s) = nx s /\ pv (on_buf i f s) = pv s.
Proof.
  intros Hf. destruct (Hf (bufs s i)) as [E1 E2]. rewrite nx_on_buf, pv_on_buf, E1, E2.
  split; [apply (fupd_id (nx s))|apply (fupd_id (pv s))].
Qed.

Lemma strip_on_buf i f s j : (forall x, strip (f x) = strip x) ->
  strip (bufs (on_buf i f s) j) = strip (bufs s j).
Proof. intros Hf. unfold on_buf, fupd. cbn [bufs]. destruct (Z.eqb_spec j i); by subst. Qed.

Lemma bufs_on_buf_eq i f s : bufs (on_buf i f s) i = f (bufs s i).
Proof. apply fupd_eq. Qed.

Lemma bufs_on_buf_ne i f s j : j <> i -> bufs (on_buf i f s) j = bufs s j.
Proof. apply fupd_ne. Qed.

Lemma bwf_ext s s' l : bufs s' = bufs s -> blocks s' = blocks s -> curpid s' = curpid s ->
  bwf s l -> bwf s' l.
Proof.
  intros Eb Ek Ep [H1 H2 H3 H4].
  assert (nx s' = nx s /\ pv s' = pv s) as [En Epv] by (unfold nx, pv; by rewrite Eb).
  split; rewrite ?En, ?Epv, ?Eb; try done.
  intros i Hi. destruct (H3 i Hi) as [O1 O2 O3 O4 O5]. split; rewrite ?Ek, ?Ep; auto.
Qed.

Lemma push_front_links s i : i <> HEAD ->
  nx (push_front i s) = fupd (fupd (nx s) i (nx s HEAD)) HEAD i /\
  pv (push_front i s) = fupd (fupd (pv s) i HEAD) (nx s HEAD) i.
Proof.
  intros Hi. unfold push_front. cbv zeta.
  set (s1 := on_buf i (set_next _) s). set (s2 := on_buf i (set_prev HEAD) s1).
  assert (b_next (bufs s2 HEAD) = nx s HEAD) as ->.
  { unfold s2, s1. rewrite !bufs_on_buf_ne by done. done. }
  set (s3 := on_buf (nx s HEAD) (set_prev i) s2).
  assert (nx s2 = nx s1) as E2 by (unfold s2; rewrite nx_on_buf; apply (fupd_id (nx s1) i)).
  assert (nx s3 = nx s2) as E3 by (unfold s3; rewrite nx_on_buf; apply (fupd_id (nx s2))).
  assert (pv s1 = pv s) as P1 by (unfold s1; rewrite pv_on_buf; apply (fupd_id (pv s))).
  assert (pv s2 = fupd (pv s1) i HEAD) as P2 by (unfold s2; by rewrite pv_on_buf).
  assert (pv s3 = fupd (pv s2) (nx s HEAD) i) as P3 by (unfold s3; by rewrite pv_on_buf).
  rewrite nx_on_buf, pv_on_buf. split.
  - rewrite E3, E2. unfold s1. by rewrite nx_on_buf.
  - rewrite <- P1, <- P2, <- P3. apply (fupd_id (pv s3)).
Qed.

Lemma unlink_links s i : nx s i <> i ->
  nx (unlink i s) = fupd (nx s) (pv s i) (nx s i) /\
  pv (unlink i s) = fupd (pv s) (nx s i) (pv s i).
Proof.
  intros Hi. unfold unlink. cbv zeta.
  set (s1 := on_buf (b_next (bufs s i)) _ s).
  assert (nx s1 = nx s) as En by (unfold s1; rewrite nx_on_buf; apply (fupd_id (nx s))).
  assert (pv s1 = fupd (pv s) (nx s i) (pv s i)) as Ep by (unfold s1; by rewrite pv_on_buf).
  assert (b_next (bufs s1 i) = nx s i) as -> by (change (nx s1 i = nx s i); by rewrite En).
  assert (b_prev (bufs s1 i) = pv s i) as ->.
  { change (pv s1 i = pv s i). rewrite Ep. apply fupd_ne. congruence. }
  rewrite nx_on_buf, pv_on_buf, En. split; [done|].
  rewrite <- Ep. apply (fupd_id (pv s1)).
Qed.

Lemma move_front_links s l1 i l2 : let l := l1 ++ i :: l2 in
  NoDup l -> HEAD ∉ l -> seg (nx s) (pv s) HEAD l HEAD ->
  let s' := push_front i (unlink i s) in
  seg (nx s') (pv s') HEAD (i :: l1 ++ l2) HEAD /\
  (forall j, strip (bufs s' j) = strip (bufs s j)) /\
  blocks s' = blocks s /\ curpid s' = curpid s /\ trace s' = trace s.
Proof.
  intros l Hnd Hh Hs s'.
  assert (i <> HEAD) as Hih.
  { intros ->. apply Hh. unfold l. apply elem_of_app. right. left. }
  assert (NoDup (l1 ++ l2) /\ (i ∉ l1 ++ l2)) as [Hnd' Hi'].
  { unfold l in Hnd. rewrite <- Permutation_middle in Hnd. by apply NoDup_cons in Hnd as [? ?]. }
  assert (HEAD ∉ l1 ++ l2) as Hh'.
  { intros H. apply Hh. unfold l. rewrite elem_of_app in H |- *. rewrite elem_of_cons. tauto. }
  assert (nx s i <> i) as Hne.
  { pose proof Hs as H. apply seg_app in H as [_ H]. apply seg_nx_in in H. intros E.
    rewrite E, elem_of_app, list_elem_of_singleton in H.
    destruct H as [H|H]; [|done]. apply Hi', elem_of_app. by right. }
  destruct (unlink_links s i Hne) as [En Ep].
  destruct (push_front_links (unlink i s) i Hih) as [En' Ep'].
  split; [|split; [|done]].
  - unfold s'. rewrite En', Ep'. apply seg_push; try done.
    rewrite En, Ep. by apply seg_unlink.
  - intros j. unfold s', push_front, unlink. cbv zeta. by rewrite !strip_on_buf.
Qed.
End ops.

Section laws.
Implicit Types s : bcache.

Lemma bio_holder s l b i : bwf s l -> holder (bio_abs s) b = Some i <->
  0 <= i < NBUF /\ b_dev (bufs s i) = ROOTDEV /\ b_blockno (bufs s i) = b /\ b_locked (bufs s i) <> 0.
Proof.
  intros Hwf. simpl. split.
  - destruct (idx s b) as [k|] eqn:E; [|done]. unfold lock_holder.
    destruct (Z.eqb_spec (b_locked (bufs s k)) 0); [done|]. intros [= ->].
    apply (idx_some _ _ _ _ Hwf) in E. tauto.
  - intros (H1 & H2 & H3 & H4). rewrite (proj2 (idx_some _ _ _ _ Hwf)) by eauto.
    unfold lock_holder. by rewrite (proj2 (Z.eqb_neq _ _)).
Qed.

(** A held buffer: its abstract state, and that no other caches its block. *)
Lemma held_facts s l b i : bwf s l -> holder (bio_abs s) b = Some i ->
  0 <= i < NBUF /\ b_dev (bufs s i) = ROOTDEV /\ b_blockno (bufs s i) = b /\
  b_locked (bufs s i) <> 0 /\ 0 < b_refcnt (bufs s i) < 2 ^ 32 /\ holdingsleep i s = true /\
  view (bio_abs s) b = b_data (bufs s i) /\ pins (bio_abs s) b = b_refcnt (bufs s i) /\
  (forall j, 0 <= j < NBUF -> j <> i -> b_dev (bufs s j) = ROOTDEV -> b_blockno (bufs s j) <> b).
Proof.
  intros Hwf Hh. apply (bio_holder _ _ _ _ Hwf) in Hh as (H1 & H2 & H3 & H4).
  pose proof (w_buf _ _ Hwf i H1) as [O1 O2 O3 O4 O5].
  assert (b_refcnt (bufs s i) <> 0) as Hr by tauto.
  split; [done|]. split; [done|]. split; [done|]. split; [done|]. split; [lia|].
  split; [|split; [|split]].
  - unfold holdingsleep. rewrite (proj2 (Z.eqb_neq _ _) H4), O4, Z.eqb_refl by done. done.
  - simpl. by rewrite (proj2 (idx_some _ _ _ _ Hwf)) by eauto.
  - simpl. by rewrite (proj2 (idx_some _ _ _ _ Hwf)) by eauto.
  - intros j Hj Hne Hd E. apply Hne. eapply (w_uniq _ _ Hwf); congruence.
Qed.

(** An update of a held buffer that leaves the list alone. *)
Lemma held_update s l b i f : bwf s l -> holder (bio_abs s) b = Some i ->
  (forall x, b_next (f x) = b_next x /\ b_prev (f x) = b_prev x /\ b_dev (f x) = b_dev x /\
     b_blockno (f x) = b_blockno x /\ b_valid (f x) = b_valid x /\
     b_locked (f x) = b_locked x /\ b_pid (f x) = b_pid x) ->
  0 < b_refcnt (f (bufs s i)) < 2 ^ 32 ->
  bio_inv (on_buf i f s) /\
  bio_abs (on_buf i f s) =
    BAbs (fupd (view (bio_abs s)) b (b_data (f (bufs s i)))) (disk (bio_abs s)) (writes (bio_abs s))
      (fupd (pins (bio_abs s)) b (b_refcnt (f (bufs s i)))) (holder (bio_abs s)) (nfree (bio_abs s)).
Proof.
  intros Hwf Hh Hf Hr. destruct (held_facts _ _ _ _ Hwf Hh) as (H1 & H2 & H3 & H4 & H5 & _ & _ & _ & H9).
  destruct (Hf (bufs s i)) as (F1 & F2 & F3 & F4 & F5 & F6 & F7).
  pose proof (w_buf _ _ Hwf i H1) as [O1 O2 O3 O4 O5].
  destruct (update_one_abs s l (on_buf i f s) l i b) as [Hwf' Habs]; try done.
  - intros j _ Hne. by rewrite bufs_on_buf_ne.
  - apply (w_perm _ _ Hwf).
  - rewrite nx_on_buf, pv_on_buf, F1, F2.
    rewrite (fupd_id (nx s)), (fupd_id (pv s)). apply (w_dll _ _ Hwf).
  - rewrite bufs_on_buf_eq. split; rewrite ?F3, ?F4, ?F5, ?F6, ?F7; try lia; auto.
  - rewrite bufs_on_buf_eq. congruence.
  - rewrite bufs_on_buf_eq. congruence.
  - by left.
  - split; [by exists l|]. rewrite Habs, bufs_on_buf_eq. simpl blocks. simpl trace. f_equal.
    + rewrite <- (fupd_id (holder (bio_abs s)) b) at 2. f_equal. rewrite Hh.
      unfold lock_holder. rewrite F6. by rewrite (proj2 (Z.eqb_neq _ _)).
    + rewrite !(proj2 (Z.eqb_neq _ _)) by lia. simpl. lia.
Qed.

Lemma b_write_ok s b i : bio_inv s -> holder (bio_abs s) b = Some i ->
  exists s', b_write i s = Ret tt s' /\ bio_inv s' /\ bio_abs s' = a_bwrite b (bio_abs s).
Proof.
  intros [l Hwf] Hh.
  destruct (held_facts _ _ _ _ Hwf Hh) as (H1 & H2 & H3 & H4 & H5 & H6 & H7 & H8 & H9).
  unfold b_write, bind, get. rewrite H6. eexists. split; [reflexivity|].
  pose proof (w_buf _ _ Hwf i H1) as [O1 O2 O3 O4 O5].
  match goal with |- bio_inv ?t /\ _ => set (s' := t) end.
  destruct (update_one_abs s l s' l i b) as [Hwf' Habs]; try done.
  - intros c Hc. unfold s'. cbn [blocks add_counters bufs]. rewrite H3. by apply fupd_ne.
  - apply (w_perm _ _ Hwf).
  - apply (w_dll _ _ Hwf).
  - split; auto. change (bufs s' i) with (bufs s i). lia.
  - by left.
  - split; [by exists l|]. rewrite Habs. unfold a_bwrite, s'. cbn [bufs add_counters blocks trace].
    f_equal.
    + rewrite <- H7. apply fupd_id.
    + rewrite H3. by rewrite H7.
    + rewrite H3. by rewrite H7.
    + rewrite <- H8. apply fupd_id.
    + rewrite <- (fupd_id (holder (bio_abs s)) b) at 2. f_equal. rewrite Hh.
      unfold lock_holder. by rewrite (proj2 (Z.eqb_neq _ _)).
    + lia.
Qed.

(** The buffer after releasing it: unlocked, one reference fewer. *)
Definition released (i : Z) s : bcache :=
  on_buf i (fun b => set_refcnt (u32 (b_refcnt b - 1)) b) (on_buf i (set_lock 0 0) s).

Lemma released_buf i s : bufs (released i s) i =
  set_refcnt (u32 (b_refcnt (bufs s i) - 1)) (set_lock 0 0 (bufs s i)).
Proof. unfold released. by rewrite !bufs_on_buf_eq. Qed.

Lemma released_links i s : nx (released i s) = nx s /\ pv (released i s) = pv s.
Proof.
  unfold released. rewrite !nx_on_buf, !pv_on_buf, !bufs_on_buf_eq. simpl.
  change (b_next (bufs s i)) with (nx s i). change (b_prev (bufs s i)) with (pv s i).
  by rewrite !fupd_id.
Qed.

(** The list order after brelse: to the front once nobody refers to it. *)
Definition release_order (i : Z) (last_ref : bool) (l : list Z) : list Z :=
  if last_ref then i :: List.filter (fun j => negb (j =? i)) l else l.

Lemma filter_out l1 i l2 : i ∉ l1 ++ l2 ->
  List.filter (fun j => negb (j =? i)) (l1 ++ i :: l2) = l1 ++ l2.
Proof.
  intros Hi. assert (forall l, i ∉ l -> List.filter (fun j => negb (j =? i)) l = l) as G.
  { induction l as [|c l IH]; [done|]. rewrite not_elem_of_cons. intros [Hc Hl]. simpl.
    rewrite (proj2 (Z.eqb_neq c i)) by congruence. simpl. by rewrite IH. }
  rewrite not_elem_of_app in Hi. destruct Hi as [H1 H2].
  rewrite List.filter_app. simpl. rewrite Z.eqb_refl. simpl. by rewrite !G.
Qed.

(** brelse runs to a state whose list is [release_order]. *)
Lemma b_relse_run s l b i : bwf s l -> holder (bio_abs s) b = Some i ->
  exists s', b_relse i s = Ret tt s' /\
    let l' := release_order i (b_refcnt (bufs s i) =? 1) l in
    l' ≡ₚ l /\ seg (nx s') (pv s') HEAD l' HEAD /\
    (forall j, strip (bufs s' j) = strip (bufs (released i s) j)) /\
    blocks s' = blocks s /\ curpid s' = curpid s /\ trace s' = trace s.
Proof.
  intros Hwf Hh.
  destruct (held_facts _ _ _ _ Hwf Hh) as (H1 & _ & _ & _ & H5 & H6 & _).
  destruct (wf_list _ _ Hwf) as (Hnd & Hhead & _ & Hin).
  destruct (released_links i s) as [En Ep].
  assert (u32 (b_refcnt (bufs s i) - 1) = b_refcnt (bufs s i) - 1) as Er by (apply wrap_small; lia).
  unfold b_relse, bind, get. rewrite H6. unfold releasesleep, modify, when.
  change (on_buf i (fun b0 => set_refcnt (u32 (b_refcnt b0 - 1)) b0) (on_buf i (set_lock 0 0) s))
    with (released i s).
  rewrite released_buf. cbn [set_refcnt b_refcnt]. rewrite Er.
  replace (b_refcnt (bufs s i) - 1 =? 0) with (b_refcnt (bufs s i) =? 1) by (zbool; lia || done).
  pose proof (w_dll _ _ Hwf) as Hdll. rewrite <- En, <- Ep in Hdll.
  destruct (b_refcnt (bufs s i) =? 1); simpl.
  - apply Hin in H1. apply list_elem_of_split in H1 as (l1 & l2 & ->).
    destruct (move_front_links (released i s) l1 i l2 Hnd Hhead Hdll) as (M1 & M2 & M3 & M4 & M5).
    eexists. split; [reflexivity|].
    assert (i ∉ l1 ++ l2) as Hi.
    { rewrite <- Permutation_middle in Hnd. by apply NoDup_cons in Hnd as [? _]. }
    rewrite filter_out by done. split; [by rewrite Permutation_middle|].
    split; [exact M1|]. split; [exact M2|]. done.
  - eexists. split; [reflexivity|]. done.
Qed.

Lemma b_relse_full s l b i : bwf s l -> holder (bio_abs s) b = Some i ->
  (pins (bio_abs s) b = 1 -> view (bio_abs s) b = disk (bio_abs s) b) ->
  exists s', b_relse i s = Ret tt s' /\ bwf s' (release_order i (pins (bio_abs s) b =? 1) l) /\
    bio_abs s' = a_brelse b (bio_abs s).
Proof.
  intros Hwf Hh Hcl.
  destruct (held_facts _ _ _ _ Hwf Hh) as (H1 & H2 & H3 & H4 & H5 & H6 & H7 & H8 & H9).
  destruct (b_relse_run _ _ _ _ Hwf Hh) as (s' & E & Hp & Hdll & Hst & Hbl & Hpid & Htr).
  exists s'. split; [done|].
  assert (u32 (b_refcnt (bufs s i) - 1) = b_refcnt (bufs s i) - 1) as Er by (apply wrap_small; lia).
  pose proof (Hst i) as Hi. rewrite released_buf in Hi.
  apply strip_fields in Hi as (S1 & S2 & S3 & S4 & S5 & S6 & S7).
  cbn [set_refcnt set_lock b_valid b_dev b_blockno b_locked b_pid b_refcnt b_data] in *.
  rewrite Er in S6. pose proof (w_buf _ _ Hwf i H1) as [O1 O2 O3 O4 O5].
  destruct (update_one_abs s l s' (release_order i (b_refcnt (bufs s i) =? 1) l) i b)
    as [Hwf' Habs]; try done.
  - intros j _ Hne. rewrite Hst. unfold released. by rewrite !bufs_on_buf_ne.
  - by rewrite Hbl.
  - rewrite Hp. apply (w_perm _ _ Hwf).
  - split; rewrite ?S1, ?S2, ?S3, ?S4, ?S5, ?S6, ?S7; try done; try lia.
    + intros Hr _. rewrite Hbl, <- H7, H3. apply Hcl. lia.
  - by rewrite S2.
  - by rewrite S3.
  - by left.
  - rewrite H8. split; [done|]. rewrite Habs, S6, S7, Hbl, Htr. unfold a_brelse. f_equal.
    + rewrite <- H7. apply fupd_id.
    + by rewrite H8.
    + f_equal. unfold lock_holder. by rewrite S4.
    + rewrite H8. zbool; simpl; lia.
Qed.

Lemma b_relse_ok s b i : bio_inv s -> holder (bio_abs s) b = Some i ->
  (pins (bio_abs s) b = 1 -> view (bio_abs s) b = disk (bio_abs s) b) ->
  exists s', b_relse i s = Ret tt s' /\ bio_inv s' /\ bio_abs s' = a_brelse b (bio_abs s).
Proof.
  intros [l Hwf] Hh Hcl. destruct (b_relse_full _ _ _ _ Hwf Hh Hcl) as (s' & E & Hwf' & Ha).
  exists s'. split; [done|]. split; [by eexists|done].
Qed.

(** The state after a successful bread of [b] into buffer [i]. *)
Record read_state s s' (b i : Z) : Prop := {
  rs_nx : nx s' = nx s; rs_pv : pv s' = pv s;
  rs_blocks : blocks s' = blocks s; rs_trace : trace s' = trace s; rs_pid : curpid s' = curpid s;
  rs_other j : j <> i -> bufs s' j = bufs s j;
  rs_dev : b_dev (bufs s' i) = ROOTDEV; rs_bno : b_blockno (bufs s' i) = b;
  rs_valid : b_valid (bufs s' i) <> 0;
  rs_locked : b_locked (bufs s' i) = 1; rs_lpid : b_pid (bufs s' i) = curpid s;
  rs_ref : b_refcnt (bufs s' i) = pins (bio_abs s) b + 1;
  rs_data : b_data (bufs s' i) = view (bio_abs s) b;
}.

Lemma read_state_abs s l s' b i : bwf s l -> 0 <= i < NBUF -> pins (bio_abs s) b < 2 ^ 32 - 1 ->
  idx s b = Some i \/ (idx s b = None /\ b_refcnt (bufs s i) = 0) ->
  read_state s s' b i -> bwf s' l /\ bio_abs s' = a_bread b i (bio_abs s).
Proof.
  intros Hwf Hi Hpin Hidx [Rn Rp Rb Rt Rpid Ro Rd Rno Rv Rl Rlp Rr Rda].
  assert (b_refcnt (bufs s i) = pins (bio_abs s) b) as Hpi.
  { simpl. destruct Hidx as [->|[-> ->]]; done. }
  pose proof (ok_ref _ _ (w_buf _ _ Hwf i Hi)) as Hri.
  destruct (update_one_abs s l s' l i b) as [Hwf' Habs]; try done.
  - intros j _ Hne. by rewrite Ro.
  - intros c _. by rewrite Rb.
  - apply (w_perm _ _ Hwf).
  - rewrite Rn, Rp. apply (w_dll _ _ Hwf).
  - split; rewrite ?Rr; try lia.
  - intros j Hj Hne Hd E. destruct Hidx as [H|[H _]].
    + apply (idx_some _ _ _ _ Hwf) in H as (_ & D & B). apply Hne. eapply (w_uniq _ _ Hwf); congruence.
    + by apply (proj1 (idx_none s b) H j).
  - destruct Hidx as [H|[_ H]]; [left|by right].
    apply (idx_some _ _ _ _ Hwf) in H as (_ & D & B). done.
  - split; [done|]. rewrite Habs, Rda, Rr, Rb, Rt, <- Hpi. unfold a_bread. f_equal.
    + apply fupd_id.
    + by rewrite Hpi.
    + f_equal. unfold lock_holder. by rewrite Rl.
    + rewrite <- Hpi. zbool; simpl; lia.
Qed.

(** The two walks of bget. *)
Lemma bget_walks s l b : bwf s l ->
  scan (Z.to_nat NBUF) (nx s) (caches s b) (nx s HEAD) = Some (idx s b) /\
  scan (Z.to_nat NBUF) (pv s) (fun i => b_refcnt (bufs s i) =? 0) (pv s HEAD) =
    Some (List.find (fun i => b_refcnt (bufs s i) =? 0) (rev l)).
Proof.
  intros Hwf. destruct (wf_list _ _ Hwf) as (Hnd & Hhead & Hlen & Hin). split.
  - rewrite (scan_next _ (pv s) _ l); [|done|lia|apply (w_dll _ _ Hwf)]. f_equal.
    destruct (idx s b) as [i|] eqn:E.
    + pose proof (proj1 (idx_some _ _ _ _ Hwf) E) as (H1 & H2 & H3).
      apply find_some_iff; [|by apply Hin|by apply caches_true].
      intros j Hj%Hin (Dj & Bj)%caches_true. eapply (w_uniq _ _ Hwf); congruence.
    + apply find_none_iff. intros j Hj%Hin. unfold idx in E. rewrite find_none_iff in E.
      by apply E, elem_of_ids.
  - rewrite (scan_next _ (nx s) _ (rev l)); [done| | |].
    + rewrite elem_of_reverse_In. done.
    + rewrite length_rev. lia.
    + apply seg_rev, (w_dll _ _ Hwf).
Qed.

Lemma b_read_hit s l b i : bwf s l -> idx s b = Some i -> b_locked (bufs s i) = 0 ->
  b_refcnt (bufs s i) < 2 ^ 32 - 1 ->
  exists s', b_read ROOTDEV b s = Ret i s' /\ read_state s s' b i.
Proof.
  intros Hwf Hidx Hlk Hrc.
  pose proof (proj1 (idx_some _ _ _ _ Hwf) Hidx) as (H1 & H2 & H3).
  pose proof (w_buf _ _ Hwf i H1) as [O1 O2 O3 O4 O5].
  set (s1 := on_buf i (fun b0 => set_refcnt (u32 (b_refcnt b0 + 1)) b0)
               (add_counters 0 1 0 0 0 (add_counters 1 0 0 0 0 s))).
  set (s2 := on_buf i (set_lock 1 (curpid s)) s1).
  assert (bufs s2 i = set_lock 1 (curpid s) (set_refcnt (u32 (b_refcnt (bufs s i) + 1)) (bufs s i))) as Ei.
  { unfold s2, s1. by rewrite !bufs_on_buf_eq. }
  assert (u32 (b_refcnt (bufs s i) + 1) = b_refcnt (bufs s i) + 1) as Er by (apply wrap_small; lia).
  exists s2. split.
  - unfold b_read, bget, bind, modify, get.
    destruct (bget_walks s l b Hwf) as [W1 _].
    unfold caches, nx in W1. cbn [bufs add_counters]. rewrite W1, Hidx.
    fold s1. unfold acquiresleep, bind, get.
    assert (b_locked (bufs s1 i) = 0) as -> by (unfold s1; by rewrite bufs_on_buf_eq).
    unfold modify, ret. cbn [Z.eqb]. change (curpid s1) with (curpid s). fold s2.
    cbv beta iota. fold s2. rewrite Ei. cbn [set_lock set_refcnt b_valid].
    rewrite (proj2 (Z.eqb_neq _ _)); [done|].
    destruct O2 as [[_ ?]|[E _]]; [done|]. rewrite H2 in E. done.
  - split; rewrite ?Ei; simpl; try done; try (by rewrite Hidx).
    + unfold s2, s1. rewrite !nx_on_buf, !bufs_on_buf_eq. simpl. by rewrite !(fupd_id (nx s)).
    + unfold s2, s1. rewrite !pv_on_buf, !bufs_on_buf_eq. simpl. by rewrite !(fupd_id (pv s)).
    + intros j Hj. change (bufs s2 j = bufs s j). unfold s2, s1. by rewrite !bufs_on_buf_ne.
    + destruct O2 as [[_ ?]|[E _]]; [done|]. rewrite H2 in E. done.
Qed.

Lemma b_read_miss s l b i : bwf s l -> idx s b = None ->
  List.find (fun i => b_refcnt (bufs s i) =? 0) (rev l) = Some i ->
  exists s', b_read ROOTDEV b s = Ret i s' /\ read_state s s' b i.
Proof.
  intros Hwf Hidx Hfind. destruct (wf_list _ _ Hwf) as (_ & _ & _ & Hin).
  pose proof (find_some _ _ Hfind) as [H1 H2%Z.eqb_eq].
  rewrite <- list_elem_of_In in H1. rewrite elem_of_reverse_In, Hin in H1.
  pose proof (w_buf _ _ Hwf i H1) as [O1 O2 O3 O4 O5].
  set (s1 := on_buf i (recycle ROOTDEV b) (add_counters 0 0 1 0 0 (add_counters 1 0 0 0 0 s))).
  set (s2 := on_buf i (set_lock 1 (curpid s)) s1).
  set (s3 := on_buf i (set_data (blocks s b)) (add_counters 0 0 0 1 0 s2)).
  set (s4 := on_buf i (set_valid 1) s3).
  assert (bufs s2 i = set_lock 1 (curpid s) (recycle ROOTDEV b (bufs s i))) as Ei.
  { unfold s2, s1. by rewrite !bufs_on_buf_eq. }
  assert (bufs s4 i = set_valid 1 (set_data (blocks s b) (bufs s2 i))) as E4.
  { unfold s4, s3. by rewrite !bufs_on_buf_eq. }
  exists s4. split.
  - unfold b_read, bget, bind, modify, get.
    destruct (bget_walks s l b Hwf) as [W1 W2].
    unfold caches, nx in W1. unfold pv in W2. cbn [bufs add_counters]. rewrite W1, Hidx, W2, Hfind.
    fold s1. unfold acquiresleep, bind, get.
    assert (b_locked (bufs s1 i) = 0) as ->.
    { unfold s1. rewrite bufs_on_buf_eq. cbn. auto. }
    unfold modify, ret. cbn [Z.eqb]. change (curpid s1) with (curpid s).
    cbv beta iota. fold s2. rewrite Ei. cbn [set_lock recycle b_valid Z.eqb when].
    unfold virtio_disk_rw, bind, modify. cbn [bufs add_counters]. rewrite Ei. done.
  - split; rewrite ?E4, ?Ei; simpl; try done; try (by rewrite Hidx).
    + transitivity (nx s2); [|transitivity (nx s1)].
      * transitivity (nx s3); [|by apply (links_on_buf i (set_data (blocks s b)) (add_counters 0 0 0 1 0 s2))].
        by apply links_on_buf.
      * by apply links_on_buf.
      * by apply (links_on_buf i (recycle ROOTDEV b) (add_counters 0 0 1 0 0 (add_counters 1 0 0 0 0 s))).
    + transitivity (pv s2); [|transitivity (pv s1)].
      * transitivity (pv s3); [|by apply (links_on_buf i (set_data (blocks s b)) (add_counters 0 0 0 1 0 s2))].
        by apply links_on_buf.
      * by apply links_on_buf.
      * by apply (links_on_buf i (recycle ROOTDEV b) (add_counters 0 0 1 0 0 (add_counters 1 0 0 0 0 s))).
    + intros j Hj. unfold s4, s3, s2, s1, on_buf. cbn [bufs add_counters]. by rewrite !fupd_ne by done.
Qed.

Lemma b_read_ok s b : bio_inv s -> holder (bio_abs s) b = None -> pins (bio_abs s) b < 2 ^ 32 - 1 ->
  0 < pins (bio_abs s) b \/ 0 < nfree (bio_abs s) ->
  exists i s', b_read ROOTDEV b s = Ret i s' /\ bio_inv s' /\ bio_abs s' = a_bread b i (bio_abs s).
Proof.
  intros [l Hwf] Hh Hpin Hfree. destruct (idx s b) as [i|] eqn:Hidx.
  - pose proof (proj1 (idx_some _ _ _ _ Hwf) Hidx) as (H1 & _ & _).
    assert (b_locked (bufs s i) = 0) as Hlk.
    { simpl in Hh. rewrite Hidx in Hh. unfold lock_holder in Hh.
      by destruct (Z.eqb_spec (b_locked (bufs s i)) 0). }
    pose proof Hpin as Hr. simpl in Hr. rewrite Hidx in Hr.
    destruct (b_read_hit _ _ _ _ Hwf Hidx Hlk Hr) as (s' & E & Hrs).
    exists i, s'. split; [done|].
    destruct (read_state_abs s l s' b i) as [? ?]; auto. split; [by exists l|done].
  - destruct (List.find (fun i => b_refcnt (bufs s i) =? 0) (rev l)) as [i|] eqn:Hf.
    + destruct (b_read_miss _ _ _ _ Hwf Hidx Hf) as (s' & E & Hrs).
      destruct (find_some _ _ Hf) as [Hin Hz%Z.eqb_eq]. destruct (wf_list _ _ Hwf) as (_ & _ & _ & He).
      rewrite <- list_elem_of_In, elem_of_reverse_In, He in Hin.
      exists i, s'. split; [done|].
      destruct (read_state_abs s l s' b i) as [? ?]; auto. split; [by exists l|done].
    + exfalso. rewrite find_none_iff in Hf. simpl in Hfree. rewrite Hidx in Hfree.
      destruct Hfree as [?|Hfree]; [lia|]. unfold cnt in Hfree.
      destruct (List.filter _ ids) as [|k l0] eqn:Ef; [simpl in Hfree; lia|].
      assert (In k (List.filter (fun i => b_refcnt (bufs s i) =? 0) ids)) as Hk by (rewrite Ef; by left).
      apply filter_In in Hk as [Hk Hk2]. rewrite Hf in Hk2; [done|].
      rewrite elem_of_reverse_In, (w_perm _ _ Hwf). by apply list_elem_of_In.
Qed.

(** A miss with every buffer referenced cannot be served. *)
Lemma b_read_no_buffers s l b : bwf s l -> idx s b = None -> nfree (bio_abs s) = 0 ->
  b_read ROOTDEV b s = Panic "bget: no buffers".
Proof.
  intros Hwf Hidx Hf. unfold b_read, bget, bind, modify, get.
  destruct (bget_walks s l b Hwf) as [W1 W2]. unfold caches, nx in W1. unfold pv in W2.
  cbn [bufs add_counters]. rewrite W1, Hidx, W2.
  destruct (List.find _ (rev l)) as [i|] eqn:Ei; [|done]. exfalso.
  destruct (find_some _ _ Ei) as [Hin Hz]. simpl in Hf. unfold cnt in Hf.
  rewrite <- list_elem_of_In, elem_of_reverse_In, (w_perm _ _ Hwf), list_elem_of_In in Hin.
  assert (In i (List.filter (fun i => b_refcnt (bufs s i) =? 0) ids)) as Hk
    by (apply filter_In; done).
  destruct (List.filter _ ids); [done|simpl in Hf; lia].
Qed.
End laws.

#[export] Instance bio_laws : BufCacheLaws bcache.
Proof.
  apply (Build_BufCacheLaws bcache bio_cache ROOTDEV bio_inv bio_abs).
  - intros s b [l Hwf]. simpl. destruct (idx s b) as [i|] eqn:E; [|lia].
    apply (idx_some _ _ _ _ Hwf) in E as (Hi & _ & _). apply (w_buf _ _ Hwf i Hi).
  - intros s b i [l Hwf] Hh. destruct (held_facts _ _ _ _ Hwf Hh) as (_&_&_&_&?&_&_&->&_). lia.
  - intros s b [l Hwf] Hp. simpl in *. destruct (idx s b) as [i|] eqn:E; [|done].
    apply (idx_some _ _ _ _ Hwf) in E as (Hi & Hd & Hb). rewrite <- Hb.
    by apply (w_buf _ _ Hwf i Hi).
  - exact b_read_ok.
  - intros s b i [l Hwf] Hh. destruct (held_facts _ _ _ _ Hwf Hh) as (_&_&?&_&_&_&->&_). done.
  - intros s b i d [l Hwf] Hh. destruct (held_facts _ _ _ _ Hwf Hh) as (_&_&_&_&Hr&_&_&Hp&_).
    destruct (held_update s l b i (set_data d) Hwf Hh ltac:(done) ltac:(done)) as [H1 H2].
    split; [done|]. simpl set_bdata. rewrite H2. unfold a_set. f_equal.
    cbn [set_data b_refcnt]. rewrite <- Hp. apply fupd_id.
  - exact b_write_ok.
  - exact b_relse_ok.
  - intros s b i [l Hwf] Hh Hp. destruct (held_facts _ _ _ _ Hwf Hh) as (_&_&_&_&Hr&_&Hv&Hpi&_).
    eexists. split; [reflexivity|].
    destruct (held_update s l b i (fun b0 => set_refcnt (u32 (b_refcnt b0 + 1)) b0) Hwf Hh) as [H1 H2].
    + done.
    + cbn [set_refcnt b_refcnt]. rewrite (wrap_small 32) by lia. lia.
    + split; [done|]. rewrite H2. cbn [set_refcnt b_refcnt b_data]. unfold a_pin.
      rewrite (wrap_small 32), <- Hv, fupd_id, Hpi by lia. done.
  - intros s b i [l Hwf] Hh Hp. destruct (held_facts _ _ _ _ Hwf Hh) as (_&_&_&_&Hr&_&Hv&Hpi&_).
    eexists. split; [reflexivity|].
    destruct (held_update s l b i (fun b0 => set_refcnt (u32 (b_refcnt b0 - 1)) b0) Hwf Hh) as [H1 H2].
    + done.
    + cbn [set_refcnt b_refcnt]. rewrite (wrap_small 32) by lia. lia.
    + split; [done|]. rewrite H2. cbn [set_refcnt b_refcnt b_data]. unfold a_pin.
      rewrite (wrap_small 32), <- Hv, fupd_id, Hpi by lia. done.
Defined.

(** ** From boot *)

Definition zero_buf : buf := Buf 0 0 0 0 0 0 0 0 (fun _ => 0).

(** The cache binit leaves, over a disk with contents [d]. *)
Definition bcache_boot (d : Z -> bytes) (pid : Z) : bcache :=
  match binit (BCache (fun _ => zero_buf) 0 0 0 0 0 d [] pid) with
  | Ret _ s => s
  | _ => BCache (fun _ => zero_buf) 0 0 0 0 0 d [] pid
  end.

Lemma push_front_zero s i : (forall j, strip (bufs s j) = zero_buf) ->
  forall j, strip (bufs (on_buf i (set_lock 0 0) (push_front i s)) j) = zero_buf.
Proof.
  intros Hs j. assert (forall k, strip (bufs (push_front i s) k) = zero_buf) as H.
  { intros k. unfold push_front. cbv zeta. by rewrite !strip_on_buf. }
  destruct (decide (j = i)) as [->|Hne]; [|by rewrite bufs_on_buf_ne].
  rewrite bufs_on_buf_eq. change (set_lock 0 0 (strip (bufs (push_front i s) i)) = zero_buf).
  by rewrite H.
Qed.

Lemma boot_loop n : forall i s s', (forall j, strip (bufs s j) = zero_buf) ->
  for_loop n i (fun i => modify (push_front i) ;;; modify (on_buf i (set_lock 0 0))) s = Ret tt s' ->
  forall j, strip (bufs s' j) = zero_buf.
Proof.
  induction n as [|n IH]; intros i s s' Hs E; simpl in E; [by injection E as <-|].
  refine (IH (i + 1) _ s' _ E). by apply push_front_zero.
Qed.

Lemma boot_strip d pid j : strip (bufs (bcache_boot d pid) j) = zero_buf.
Proof.
  apply (boot_loop (Z.to_nat NBUF) 0 (on_buf HEAD (set_next HEAD) (on_buf HEAD (set_prev HEAD)
    (BCache (fun _ => zero_buf) 0 0 0 0 0 d [] pid)))); [|reflexivity].
  intros k. by rewrite !strip_on_buf.
Qed.

Lemma zero_buf_ok s b : strip b = zero_buf -> buf_ok s b /\ b_dev b = 0.
Proof.
  intros (E1 & E2 & E3 & E4 & E5 & E6 & E7)%(strip_fields b zero_buf). split; [|done].
  split; rewrite ?E1, ?E2, ?E4, ?E6; simpl; try done; try lia.
Qed.

Lemma boot_wf d pid : bwf (bcache_boot d pid) (rev ids).
Proof.
  split.
  - rewrite <- Permutation_rev. done.
  - vm_compute. repeat split.
  - intros i Hi. apply zero_buf_ok, boot_strip.
  - intros i j Hi Hj Di. destruct (zero_buf_ok (bcache_boot d pid) _ (boot_strip d pid i)) as [_ E].
    rewrite E in Di. discriminate Di.
Qed.

(** ** Runs of the cache

    Any sequence of calls by a process that follows the interface: it reads
    blocks it does not hold, modifies and writes blocks it holds, and releases
    a modified block only when it has been written or is pinned. *)
Inductive bstep : bcache -> bcache -> Prop :=
| bs_read b i s s' :
    holder (bio_abs s) b = None -> pins (bio_abs s) b < 2 ^ 32 - 1 ->
    b_read ROOTDEV b s = Ret i s' -> bstep s s'
| bs_modify b i d s :
    holder (bio_abs s) b = Some i -> bstep s (on_buf i (set_data d) s)
| bs_write b i s s' :
    holder (bio_abs s) b = Some i -> b_write i s = Ret tt s' -> bstep s s'
| bs_relse b i s s' :
    holder (bio_abs s) b = Some i ->
    (pins (bio_abs s) b = 1 -> view (bio_abs s) b = disk (bio_abs s) b) ->
    b_relse i s = Ret tt s' -> bstep s s'
| bs_pin b i s s' :
    holder (bio_abs s) b = Some i -> pins (bio_abs s) b < 2 ^ 32 - 1 ->
    b_pin i s = Ret tt s' -> bstep s s'
| bs_unpin b i s s' :
    holder (bio_abs s) b = Some i -> 1 < pins (bio_abs s) b ->
    b_unpin i s = Ret tt s' -> bstep s s'.

Definition counters_ok (s : bcache) : Prop :=
  read_cache_counter s = u64 (read_cache_hit_counter s + write_cahce_counter s).

Lemma on_buf_counters i f s : counters_ok s -> counters_ok (on_buf i f s).
Proof. done. Qed.

Lemma add_counters_ok r h w rd wd s : r = h + w -> counters_ok s ->
  counters_ok (add_counters r h w rd wd s).
Proof. unfold counters_ok. intros -> H. cbn. rewrite H. clear. unwrap. dlia. Qed.

Lemma add_counters_seq r h w rd wd r' h' w' s : r + r' = h + h' + w + w' -> counters_ok s ->
  counters_ok (add_counters r h w rd wd (add_counters r' h' w' 0 0 s)).
Proof.
  unfold counters_ok. intros E H. cbn. rewrite H. clear H. unwrap. dlia.
Qed.

Lemma acquiresleep_counters i s s' : counters_ok s -> acquiresleep i s = Ret tt s' -> counters_ok s'.
Proof.
  intros H E. unfold acquiresleep in E. minv E. injection E0 as <- <-.
  destruct (b_locked _ =? 0); [|done]. by injection E as <-.
Qed.

Lemma bget_counters dev b s i s' : counters_ok s -> bget dev b s = Ret i s' -> counters_ok s'.
Proof.
  intros H E. unfold bget in E. minv E. injection E0 as <- <-. injection E1 as <- <-.
  destruct (scan _ _ _ _) as [[k|]|]; [| |done].
  - minv E. injection E0 as <- <-. injection E1 as <- <-. injection E as <- <-. destruct x1.
    eapply acquiresleep_counters; [|exact E2]. by apply add_counters_seq.
  - destruct (scan _ _ _ _) as [[k|]|]; [|done|done].
    minv E. injection E0 as <- <-. injection E1 as <- <-. injection E as <- <-. destruct x1.
    eapply acquiresleep_counters; [|exact E2]. by apply add_counters_seq.
Qed.

Lemma b_read_counters dev b s i s' : counters_ok s -> b_read dev b s = Ret i s' -> counters_ok s'.
Proof.
  intros H E. unfold b_read in E. minv E. injection E as <- <-. injection E1 as <- <-.
  apply bget_counters in E0; [|done]. destruct (b_valid _ =? 0); injection E2 as <- <-; [|done].
  by apply (add_counters_ok 0 0 0 1 0).
Qed.

Lemma bstep_counters s s' : counters_ok s -> bstep s s' -> counters_ok s'.
Proof.
  intros H Hst. revert H.
  destruct Hst as [b i s0 s1 _ _ E|b i d s0 _|b i s0 s1 _ E|b i s0 s1 _ _ E|b i s0 s1 _ _ E|b i s0 s1 _ _ E];
    intros H.
  - by eapply b_read_counters.
  - done.
  - unfold b_write, bind, get in E. destruct (holdingsleep i s0); [|done].
    injection E as <-. by apply (add_counters_ok 0 0 0 0 1 s0).
  - unfold b_relse, bind, get, releasesleep, modify, when, ret in E.
    destruct (holdingsleep i s0); [|done].
    destruct (b_refcnt _ =? 0); by injection E as <-.
  - by injection E as <-.
  - by injection E as <-.
Qed.

Lemma bstep_inv s s' : bio_inv s -> bstep s s' -> bio_inv s'.
Proof.
  intros H Hst. revert H.
  destruct Hst as [b i s0 s1 Hh Hp E|b i d s0 Hh|b i s0 s1 Hh E|b i s0 s1 Hh Hc E
    |b i s0 s1 Hh Hp E|b i s0 s1 Hh Hp E]; intros H.
  - destruct (b_read_ok s0 b H Hh Hp) as (j & s2 & E' & Hi & _).
    + destruct (Z.ltb_spec 0 (pins (bio_abs s0) b)); [by left|right].
      destruct (Z.ltb_spec 0 (nfree (bio_abs s0))); [done|]. exfalso.
      destruct H as [l Hwf]. rewrite (b_read_no_buffers s0 l b Hwf) in E; [done| |].
      * destruct (idx s0 b) as [k|] eqn:Ek; [|done]. exfalso.
        assert (pins (bio_abs s0) b = 0) as Hz
          by (pose proof (pins_range s0 b (ex_intro _ l Hwf)) as Hr; simpl in *; lia).
        simpl in Hz. rewrite Ek in Hz. simpl in *.
        apply (idx_some _ _ _ _ Hwf) in Ek as (Hk & _).
        assert (0 < nfree (bio_abs s0)) as Hpos; [|simpl in *; lia].
        simpl. unfold cnt. assert (In k (List.filter (fun i => b_refcnt (bufs s0 i) =? 0) ids)) as Hin.
        { apply filter_In. split; [by apply list_elem_of_In, elem_of_ids|by apply Z.eqb_eq]. }
        destruct (List.filter _ ids); [done|simpl; lia].
      * simpl in *. unfold cnt in *. lia.
    + rewrite E' in E. by injection E as <- <-.
  - apply (@set_ok bcache bio_cache bio_laws s0 b i d H Hh).
  - destruct (b_write_ok _ _ _ H Hh) as (s2 & E' & Hi & _). rewrite E' in E. by injection E as <-.
  - destruct (b_relse_ok _ _ _ H Hh Hc) as (s2 & E' & Hi & _). rewrite E' in E. by injection E as <-.
  - destruct (@bpin_ok bcache bio_cache bio_laws _ _ _ H Hh Hp) as (s2 & E' & Hi & _). simpl in E'. rewrite E' in E. by injection E as <-.
  - destruct (@bunpin_ok bcache bio_cache bio_laws _ _ _ H Hh Hp) as (s2 & E' & Hi & _). simpl in E'. rewrite E' in E. by injection E as <-.
Qed.

(** C23. The buffer cache over every run from boot: the buffers form one
    doubly linked list in both directions, no block is cached twice (so all
    users of a block share one buffer), a buffer nobody references agrees with
    the disk, and the statistics satisfy lookups = hits + recyclings modulo
    2^64. *)
Theorem bcache_invariant d pid s :
  rtc bstep (bcache_boot d pid) s ->
  (exists l, l ≡ₚ ids /\ seg (nx s) (pv s) HEAD l HEAD) /\
  (forall i j, 0 <= i < NBUF -> 0 <= j < NBUF -> b_dev (bufs s i) = ROOTDEV ->
     b_dev (bufs s j) = ROOTDEV -> b_blockno (bufs s i) = b_blockno (bufs s j) -> i = j) /\
  (forall b, pins (bio_abs s) b = 0 -> view (bio_abs s) b = blocks s b) /\
  read_cache_counter s = u64 (read_cache_hit_counter s + write_cahce_counter s).
Proof.
  intros Hr.
  assert (bio_inv s /\ counters_ok s) as [[l Hwf] Hc].
  { assert (bio_inv (bcache_boot d pid)) as H0 by (exists (rev ids); apply boot_wf).
    assert (counters_ok (bcache_boot d pid)) as H1 by reflexivity.
    induction Hr as [|s1 s2 s3 Hs _ IH]; [done|]. apply IH.
    - by apply (bstep_inv s1).
    - by apply (bstep_counters s1). }
  split; [|split; [|split; [|exact Hc]]].
  - exists l. split; apply Hwf.
  - intros i j. apply (w_uniq _ _ Hwf).
  - intros b Hb. apply (@unpinned_clean bcache bio_cache bio_laws s b); [by exists l|done].
Qed.

Lemma bcache_invariant_witness :
  exists s, rtc bstep (bcache_boot (fun _ _ => 0) 7) s /\ read_cache_counter s = 1 /\
    read_cache_counter s = u64 (read_cache_hit_counter s + write_cahce_counter s).
Proof.
  destruct (b_read ROOTDEV 5 (bcache_boot (fun _ _ => 0) 7)) as [i s| | |] eqn:E;
    [|vm_compute in E; discriminate..].
  assert (rtc bstep (bcache_boot (fun _ _ => 0) 7) s) as Hr.
  { eapply rtc_l; [|apply rtc_refl]. eapply (bs_read 5 i); [vm_compute; reflexivity|vm_compute; reflexivity|exact E]. }
  exists s. split; [exact Hr|]. split; [|apply (bcache_invariant _ _ s Hr)].
  apply (f_equal (fun o => match o with Ret _ t => read_cache_counter t | _ => 0 end)) in E.
  vm_compute in E. simpl in E. symmetry. exact E.
Defined.

Lemma lru_read_relse s l s' b i : bwf s l -> 0 <= i < NBUF -> pins (bio_abs s) b < 2 ^ 32 - 1 ->
  idx s b = Some i \/ (idx s b = None /\ b_refcnt (bufs s i) = 0) ->
  b_read ROOTDEV b s = Ret i s' -> read_state s s' b i ->
  exists s', b_read ROOTDEV b s = Ret i s' /\ bwf s' l /\
    b_data (bufs s' i) = view (bio_abs s) b /\
    (view (bio_abs s) b = blocks s b ->
     exists s'', b_relse i s' = Ret tt s'' /\ bwf s'' (release_order i (pins (bio_abs s) b =? 0) l)).
Proof.
  intros Hwf Hi Hpin Hidx E Hrs. destruct (read_state_abs _ _ _ _ _ Hwf Hi Hpin Hidx Hrs) as [Hwf' Ha].
  exists s'. split; [done|]. split; [done|]. split; [apply Hrs|]. intros Hcl.
  assert (holder (bio_abs s') b = Some i) as Hh by (rewrite Ha; apply fupd_eq).
  destruct (b_relse_full _ _ _ _ Hwf' Hh) as (s'' & E2 & Hwf'' & _).
  - rewrite Ha. intros _. exact Hcl.
  - exists s''. split; [done|]. rewrite Ha in Hwf''. cbn [a_bread pins] in Hwf''.
    rewrite fupd_eq in Hwf''.
    by replace (pins (bio_abs s) b + 1 =? 1) with (pins (bio_abs s) b =? 0) in Hwf'' by (zbool; lia || done).
Qed.

Lemma lru_panic s l b : bwf s l -> idx s b = None ->
  List.find (fun i => b_refcnt (bufs s i) =? 0) (rev l) = None ->
  b_read ROOTDEV b s = Panic "bget: no buffers".
Proof.
  intros Hwf Hidx Hf. unfold b_read, bget, bind, modify, get.
  destruct (bget_walks s l b Hwf) as [W1 W2]. unfold caches, nx in W1. unfold pv in W2.
  cbn [bufs add_counters]. by rewrite W1, Hidx, W2, Hf.
Qed.

(** The number of free bytes: a buffer counts when nobody references it. *)
Lemma count_free_fold s l a : 0 <= a -> a + BSIZE * Z.of_nat (length l) < 2 ^ 64 ->
  fold_left (fun free i => if b_refcnt (bufs s i) =? 0 then u64 (free + BSIZE) else free) l a =
  a + BSIZE * cnt (fun i => b_refcnt (bufs s i) =? 0) l.
Proof.
  unfold cnt, BSIZE. revert a. induction l as [|c l IH]; intros a Ha Hb; simpl in *; [lia|].
  destruct (b_refcnt (bufs s c) =? 0).
  - rewrite (wrap_small 64), IH by lia. simpl length. lia.
  - rewrite IH by lia. lia.
Qed.

(** count_free_cache reports BSIZE times the number of buffers that bread
    could recycle. *)
Theorem count_free_cache_exact s : count_free_cache s = BSIZE * nfree (bio_abs s).
Proof.
  unfold count_free_cache. rewrite count_free_fold; [done|lia|].
  rewrite length_seqZ. by vm_compute.
Qed.

(** Replacement is least recently used. In a state whose buffers, from
    most to least recently released, are [l]: bread of a cached block locks
    its buffer and leaves the order alone; bread of any other block reuses the
    last unreferenced buffer of [l], reading the block from disk, and panics
    exactly when there is none; brelse moves the buffer to the front when its
    last reference goes. In both cases bread returns the block's current
    contents. *)
Theorem lru_replacement s l b :
  bwf s l -> holder (bio_abs s) b = None -> pins (bio_abs s) b < 2 ^ 32 - 1 ->
  match idx s b, List.find (fun i => b_refcnt (bufs s i) =? 0) (rev l) with
  | Some i, _ | None, Some i =>
      exists s', b_read ROOTDEV b s = Ret i s' /\ bwf s' l /\
        b_data (bufs s' i) = view (bio_abs s) b /\
        (view (bio_abs s) b = blocks s b ->
         exists s'', b_relse i s' = Ret tt s'' /\
           bwf s'' (release_order i (pins (bio_abs s) b =? 0) l))
  | None, None => b_read ROOTDEV b s = Panic "bget: no buffers"
  end.
Proof.
  intros Hwf Hh Hpin.
  destruct (idx s b) as [i|] eqn:Hidx;
    [|destruct (List.find _ (rev l)) as [i|] eqn:Hf; [|by apply (lru_panic _ l)]].
  - pose proof (proj1 (idx_some _ _ _ _ Hwf) Hidx) as (H1 & _ & _).
    assert (b_locked (bufs s i) = 0) as Hlk.
    { simpl in Hh. rewrite Hidx in Hh. unfold lock_holder in Hh.
      by destruct (Z.eqb_spec (b_locked (bufs s i)) 0). }
    pose proof Hpin as Hr. simpl in Hr. rewrite Hidx in Hr.
    destruct (b_read_hit _ _ _ _ Hwf Hidx Hlk Hr) as (s' & E & Hrs).
    eapply lru_read_relse; eauto.
  - destruct (b_read_miss _ _ _ _ Hwf Hidx Hf) as (s' & E & Hrs).
    destruct (find_some _ _ Hf) as [Hin Hz%Z.eqb_eq]. destruct (wf_list _ _ Hwf) as (_ & _ & _ & He).
    rewrite <- list_elem_of_In, elem_of_reverse_In, He in Hin.
    eapply lru_read_relse; eauto.
Qed.

Lemma lru_replacement_witness :
  exists s', b_read ROOTDEV 5 (bcache_boot (fun _ _ => 0) 7) = Ret 0 s'.
Proof.
  pose proof (lru_replacement (bcache_boot (fun _ _ => 0) 7) (rev ids) 5 (boot_wf _ _)
    eq_refl ltac:(vm_compute; reflexivity)) as H.
  assert (idx (bcache_boot (fun _ _ => 0) 7) 5 = None) as E1 by (vm_compute; reflexivity).
  assert (List.find (fun i => b_refcnt (bufs (bcache_boot (fun _ _ => 0) 7) i) =? 0) (rev (rev ids))
          = Some 0) as E2 by (vm_compute; reflexivity).
  rewrite E1, E2 in H. destruct H as (s' & H & _). exists s'. exact H.
Defined.
