(* ===== verification/Log.v ===== *)
(** * kernel/log.c: write-ahead logging

    The in-memory log (header, outstanding calls, the committing flag) over
    any buffer cache with the interface of file BufCache, and the on-disk log:
    a header block followed by the logged blocks. The order of the disk writes
    is the order of the bwrite calls, recorded in the trace of the cache, and
    a crash leaves the disk after some prefix of that trace. The main result
    is that a crash at any point of a commit, followed by any crash during
    recovery, ends after recovery in the disk before the transaction or in the
    disk after it. *)
From stdpp Require Import base list numbers strings relations.
From Stdlib Require Import ZArith Lia FunctionalExtensionality.
From S2P Require Import Prelude Memlayout BufCache.

(** struct log with its struct logheader lh = { n, block[] }; [wakeups]
    counts the calls of wakeup(&log). *)
Record log := Log {
  start : Z; outstanding : Z; committing : Z; ldev : Z;
  lh_n : Z; lh_block : Z -> Z;
  wakeups : Z;
}.

Definition set_lh_n (k : Z) (l : log) : log :=
  Log (start l) (outstanding l) (committing l) (ldev l) k (lh_block l) (wakeups l).
Definition set_lh_block (f : Z -> Z) (l : log) : log :=
  Log (start l) (outstanding l) (committing l) (ldev l) (lh_n l) f (wakeups l).
Definition set_outstanding (k : Z) (l : log) : log :=
  Log (start l) k (committing l) (ldev l) (lh_n l) (lh_block l) (wakeups l).
Definition set_committing (k : Z) (l : log) : log :=
  Log (start l) (outstanding l) k (ldev l) (lh_n l) (lh_block l) (wakeups l).
Definition add_wakeup (l : log) : log :=
  Log (start l) (outstanding l) (committing l) (ldev l) (lh_n l) (lh_block l) (wakeups l + 1).

(** The header as stored in a block: n at offset 0, block[i] at 4 + 4 i. *)
Fixpoint put_blocks (m : nat) (i : Z) (block : Z -> Z) (d : bytes) : bytes :=
  match m with
  | O => d
  | S m' => put_blocks m' (i + 1) block (st32 d (4 + 4 * i) (block i))
  end.
Fixpoint get_blocks (m : nat) (i : Z) (d : bytes) (block : Z -> Z) : Z -> Z :=
  match m with
  | O => block
  | S m' => get_blocks m' (i + 1) d (fupd block i (i32 (ld32 d (4 + 4 * i))))
  end.

(** for (i = 0; i < log.lh.n; i++) if (log.lh.block[i] == b->blockno) break; *)
Fixpoint find_block (m : nat) (i : Z) (block : Z -> Z) (b : Z) : Z :=
  match m with
  | O => i
  | S m' => if u32 (block i) =? b then i else find_block m' (i + 1) block b
  end.

Record lstate (S : Type) := LS { lg : log; bc : S }.
Arguments LS {S} lg bc.
Arguments lg {S} l.
Arguments bc {S} l.

Section log_ops.
Context {S : Type} `{BufCache S}.

(** Calls of the buffer cache, and updates of the log structure. *)
Definition cache {A} (m : M S A) : M (lstate S) A := lift bc (fun s t => LS (lg t) s) m.
Definition on_log (f : log -> log) : M (lstate S) unit := modify (fun t => LS (f (lg t)) (bc t)).

(** memmove(dst->data, src->data, BSIZE) *)
Definition copy_buf (dst src : Z) (s : S) : S :=
  set_bdata dst (blit (bdata dst s) 0 (bdata src s) 0 BSIZE) s.

Definition install_one (recovering : bool) (tail : Z) : M (lstate S) unit :=
  l <- gets lg ;;
  lbuf <- cache (bread (ldev l) (u32 (start l + tail + 1))) ;;
  dbuf <- cache (bread (ldev l) (u32 (lh_block l tail))) ;;
  cache (modify (copy_buf dbuf lbuf)) ;;;
  cache (bwrite dbuf) ;;;
  when (negb recovering) (cache (bunpin dbuf)) ;;;
  cache (brelse lbuf) ;;;
  cache (brelse dbuf).

Definition install_trans (recovering : bool) : M (lstate S) unit :=
  l <- gets lg ;;
  for_loop (Z.to_nat (lh_n l)) 0 (install_one recovering).

Definition read_head : M (lstate S) unit :=
  l <- gets lg ;;
  buf <- cache (bread (ldev l) (u32 (start l))) ;;
  d <- cache (gets (bdata buf)) ;;
  on_log (set_lh_n (i32 (ld32 d 0))) ;;;
  on_log (fun l => set_lh_block (get_blocks (Z.to_nat (lh_n l)) 0 d (lh_block l)) l) ;;;
  cache (brelse buf).

Definition write_head : M (lstate S) unit :=
  l <- gets lg ;;
  buf <- cache (bread (ldev l) (u32 (start l))) ;;
  cache (modify (fun s => set_bdata buf (st32 (bdata buf s) 0 (lh_n l)) s)) ;;;
  cache (modify (fun s =>
    set_bdata buf (put_blocks (Z.to_nat (lh_n l)) 0 (lh_block l) (bdata buf s)) s)) ;;;
  cache (bwrite buf) ;;;
  cache (brelse buf).

Definition recover_from_log : M (lstate S) unit :=
  read_head ;;;
  install_trans true ;;;
  on_log (set_lh_n 0) ;;;
  write_head.

Definition initlog (dev logstart : Z) : M (lstate S) unit :=
  if BSIZE <=? 4 + 4 * LOGBLOCKS then panic "initlog: too big logheader"
  else
    on_log (fun l => Log logstart (outstanding l) (committing l) dev (lh_n l) (lh_block l) (wakeups l)) ;;;
    recover_from_log.

(** One turn of begin_op's loop; a sleeping caller runs it again when woken. *)
Definition begin_op : M (lstate S) unit :=
  l <- gets lg ;;
  if negb (committing l =? 0) then sleep_on 0
  else if LOGBLOCKS <? lh_n l + (outstanding l + 1) * MAXOPBLOCKS then sleep_on 0
  else on_log (set_outstanding (outstanding l + 1)).

Definition write_log_one (tail : Z) : M (lstate S) unit :=
  l <- gets lg ;;
  to <- cache (bread (ldev l) (u32 (start l + tail + 1))) ;;
  from <- cache (bread (ldev l) (u32 (lh_block l tail))) ;;
  cache (modify (copy_buf to from)) ;;;
  cache (bwrite to) ;;;
  cache (brelse from) ;;;
  cache (brelse to).

Definition write_log : M (lstate S) unit :=
  l <- gets lg ;;
  for_loop (Z.to_nat (lh_n l)) 0 write_log_one.

Definition commit : M (lstate S) unit :=
  l <- gets lg ;;
  when (0 <? lh_n l)
    (write_log ;;;
     write_head ;;;
     install_trans false ;;;
     on_log (set_lh_n 0) ;;;
     write_head).

(** end_op: what it does under the lock, whether it has to commit, and what
    follows the commit, which runs without the lock. *)
Definition end_op_locked : M (lstate S) bool :=
  on_log (fun l => set_outstanding (outstanding l - 1) l) ;;;
  l <- gets lg ;;
  if negb (committing l =? 0) then panic "log.committing"
  else if outstanding l =? 0 then
    on_log (set_committing 1) ;;;
    ret true
  else
    on_log add_wakeup ;;;
    ret false.

Definition end_op_finish : M (lstate S) unit :=
  on_log (set_committing 0) ;;;
  on_log add_wakeup.

Definition end_op : M (lstate S) unit :=
  do_commit <- end_op_locked ;;
  when do_commit (commit ;;; end_op_finish).

Definition log_write (b : Z) : M (lstate S) unit :=
  l <- gets lg ;;
  if LOGBLOCKS <=? lh_n l then panic "too big a transaction"
  else if outstanding l <? 1 then panic "log_write outside of trans"
  else
    bno <- cache (gets (bblockno b)) ;;
    let i := find_block (Z.to_nat (lh_n l)) 0 (lh_block l) bno in
    on_log (set_lh_block (fupd (lh_block l) i (i32 bno))) ;;;
    when (i =? lh_n l)
      (cache (bpin b) ;;; on_log (set_lh_n (lh_n l + 1))).
End log_ops.

(** Equality of two chains of updates, by cases on the index. *)
Ltac fupd_solve :=
  let c := fresh "c" in
  extensionality c; unfold fupd;
  repeat match goal with
  | |- context [?x =? ?y] => destruct (Z.eqb_spec x y); subst
  end; try congruence; try lia.

(** The components of an explicit abstract cache. *)
Tactic Notation "bproj" := cbn [view disk writes pins holder nfree].
Tactic Notation "bproj" "in" hyp(H) := cbn [view disk writes pins holder nfree] in H.

(** The abstract cache after writing [d] to block [b] and to the disk. *)
Definition put_disk (b : Z) (d : bytes) (a : babs) : babs :=
  BAbs (fupd (view a) b d) (fupd (disk a) b d) (writes a ++ [(b, d)]) (pins a) (holder a) (nfree a).

(** ... and additionally dropping the log's reference to [b]. *)
Definition unpin_disk (b : Z) (d : bytes) (a : babs) : babs :=
  BAbs (fupd (view a) b d) (fupd (disk a) b d) (writes a ++ [(b, d)])
    (fupd (pins a) b 0) (holder a) (nfree a + 1).

Section steps.
Context {S : Type} `{BL : BufCacheLaws S}.
Implicit Types t : lstate S.

Lemma cache_Ret {A} (m : M S A) t a s' : m (bc t) = Ret a s' -> cache m t = Ret a (LS (lg t) s').
Proof. intros E. unfold cache. by rewrite (lift_Ret _ _ _ _ _ _ E). Qed.

(** Runs one call of the cache at the head of a sequence. *)
Lemma cache_step {A B} (m : M S A) (k : A -> M (lstate S) B) t a s' :
  m (bc t) = Ret a s' -> bind (cache m) k t = k a (LS (lg t) s').
Proof. intros E. apply bind_step. by apply cache_Ret. Qed.

(** Reading two distinct blocks: both are then held. *)
Lemma two_breads s b1 b2 : let a := absc s in
  binv s -> b1 <> b2 -> holder a b1 = None -> holder a b2 = None ->
  pins a b1 = 0 -> 0 <= pins a b2 <= 1 -> 1 - pins a b2 < nfree a ->
  exists i j s1 s2, bread bdev b1 s = Ret i s1 /\ bread bdev b2 s1 = Ret j s2 /\ binv s2 /\
    absc s2 = BAbs (view a) (disk a) (writes a)
      (fupd (fupd (pins a) b1 1) b2 (pins a b2 + 1))
      (fupd (fupd (holder a) b1 (Some i)) b2 (Some j)) (nfree a - 2 + pins a b2).
Proof.
  intros a Hinv Hne H1 H2 P1 P2 Hfree.
  destruct (bread_ok s b1) as (i & s1 & E1 & I1 & A1); try done; fold a; try lia.
  fold a in A1. unfold a_bread in A1. rewrite P1 in A1. cbn [Z.eqb] in A1.
  destruct (bread_ok s1 b2) as (j & s2 & E2 & I2 & A2); try done; rewrite ?A1; bproj.
  { by rewrite fupd_ne. } { rewrite fupd_ne by done. lia. } { rewrite fupd_ne by done. lia. }
  exists i, j, s1, s2. split; [done|]. split; [done|]. split; [done|].
  rewrite A2, A1. unfold a_bread. bproj.
  rewrite (fupd_ne _ b1 _ b2) by done. f_equal. zbool; lia.
Qed.

Lemma write_log_one_ok t tail :
  let L := u32 (start (lg t) + tail + 1) in let b := u32 (lh_block (lg t) tail) in
  let a := absc (bc t) in
  binv (bc t) -> ldev (lg t) = bdev -> L <> b -> holder a L = None -> holder a b = None ->
  pins a L = 0 -> pins a b = 1 -> 0 < nfree a ->
  exists s', write_log_one tail t = Ret tt (LS (lg t) s') /\ binv s' /\
    absc s' = put_disk L (blit (view a L) 0 (view a b) 0 BSIZE) a.
Proof.
  intros L b a Hinv Hdev Hne HL Hb PL Pb Hfree.
  unfold write_log_one. rewrite (bind_step (gets lg) _ t (lg t) t) by done. rewrite Hdev.
  destruct (two_breads (bc t) L b) as (to & from & s1 & s2 & E1 & E2 & I2 & A2); try done; fold a; try lia.
  fold a in A2. rewrite Pb in A2.
  rewrite (cache_step _ _ _ _ _ E1). fold L. rewrite (cache_step _ _ (LS (lg t) s1) _ _ E2).
  assert (holder (absc s2) L = Some to) as H2L by (rewrite A2; bproj; by rewrite fupd_ne, fupd_eq).
  assert (holder (absc s2) b = Some from) as H2b by (rewrite A2; apply fupd_eq).
  destruct (bdata_ok s2 L to I2 H2L) as [D1 _]. destruct (bdata_ok s2 b from I2 H2b) as [D2 _].
  destruct (set_ok s2 L to (blit (bdata to s2) 0 (bdata from s2) 0 BSIZE) I2 H2L) as [I3 A3].
  rewrite (cache_step (modify (copy_buf to from)) _ (LS (lg t) s2) tt (copy_buf to from s2)) by done.
  fold (copy_buf to from s2) in I3, A3. set (s3 := copy_buf to from s2) in *.
  rewrite D1, D2, A2 in A3. unfold a_set in A3. bproj in A3.
  destruct (bwrite_ok s3 L to I3) as (s4 & E4 & I4 & A4); [rewrite A3; by rewrite A2 in H2L|].
  rewrite A3 in A4. unfold a_bwrite in A4. bproj in A4.
  rewrite fupd_eq in A4. rewrite (cache_step _ _ (LS (lg t) s3) _ _ E4).
  destruct (brelse_ok s4 b from I4) as (s5 & E5 & I5 & A5); [rewrite A4; by rewrite A2 in H2b| |].
  { rewrite A4. bproj. rewrite fupd_eq. lia. }
  rewrite A4 in A5. unfold a_brelse in A5. bproj in A5.
  rewrite fupd_eq in A5. rewrite (cache_step _ _ (LS (lg t) s4) _ _ E5).
  destruct (brelse_ok s5 L to I5) as (s6 & E6 & I6 & A6).
  { rewrite A5. bproj. rewrite !(fupd_ne _ b _ L) by done. apply fupd_eq. }
  { rewrite A5. bproj. by rewrite !fupd_eq. }
  exists s6. split; [by apply (cache_Ret _ (LS (lg t) s5))|]. split; [done|].
  rewrite A6, A5. unfold a_brelse, put_disk. bproj.
  rewrite !(fupd_ne _ b _ L), fupd_eq by done. f_equal; [fupd_solve..|zbool; lia].
Qed.

(** if (recovering == 0) bunpin(dbuf) *)
Lemma maybe_unpin (recovering : bool) l s b i : binv s -> holder (absc s) b = Some i ->
  (if recovering then 0 else 1) < pins (absc s) b ->
  exists s', when (negb recovering) (cache (bunpin i)) (LS l s) = Ret tt (LS l s') /\ binv s' /\
    absc s' = a_pin b (if recovering then 0 else -1) (absc s).
Proof.
  intros Hinv Hh Hp. destruct recovering; cbn [negb when].
  - exists s. repeat split; [done|]. unfold a_pin. rewrite Z.add_0_r, fupd_id. by destruct (absc s).
  - destruct (bunpin_ok s b i Hinv Hh Hp) as (s5 & E5 & I5 & A5).
    exists s5. split; [by apply (cache_Ret _ (LS l s))|done].
Qed.

(** One iteration of install_trans after a commit (the block is pinned) and
    during recovery (it is not). *)
Lemma install_one_ok (recovering : bool) t tail :
  let L := u32 (start (lg t) + tail + 1) in let b := u32 (lh_block (lg t) tail) in
  let a := absc (bc t) in let d := blit (view a b) 0 (view a L) 0 BSIZE in
  binv (bc t) -> ldev (lg t) = bdev -> L <> b -> holder a L = None -> holder a b = None ->
  pins a L = 0 -> pins a b = (if recovering then 0 else 1) -> 1 - pins a b < nfree a ->
  exists s', install_one recovering tail t = Ret tt (LS (lg t) s') /\ binv s' /\
    absc s' = if recovering then put_disk b d a else unpin_disk b d a.
Proof.
  intros L b a d Hinv Hdev Hne HL Hb PL Pb Hfree.
  unfold install_one. rewrite (bind_step (gets lg) _ t (lg t) t) by done. rewrite Hdev.
  destruct (two_breads (bc t) L b) as (lb & db & s1 & s2 & E1 & E2 & I2 & A2); try done.
  { fold a. destruct recovering; lia. }
  fold a in A2. rewrite (cache_step _ _ _ _ _ E1). fold L. rewrite (cache_step _ _ (LS (lg t) s1) _ _ E2).
  assert (holder (absc s2) L = Some lb) as H2L by (rewrite A2; bproj; by rewrite fupd_ne, fupd_eq).
  assert (holder (absc s2) b = Some db) as H2b by (rewrite A2; apply fupd_eq).
  destruct (bdata_ok s2 L lb I2 H2L) as [D1 _]. destruct (bdata_ok s2 b db I2 H2b) as [D2 _].
  destruct (set_ok s2 b db (blit (bdata db s2) 0 (bdata lb s2) 0 BSIZE) I2 H2b) as [I3 A3].
  rewrite (cache_step (modify (copy_buf db lb)) _ (LS (lg t) s2) tt (copy_buf db lb s2)) by done.
  fold (copy_buf db lb s2) in I3, A3. set (s3 := copy_buf db lb s2) in *.
  rewrite D1, D2, A2 in A3. unfold a_set in A3. bproj in A3. fold d in A3.
  destruct (bwrite_ok s3 b db I3) as (s4 & E4 & I4 & A4); [rewrite A3; by rewrite A2 in H2b|].
  rewrite A3 in A4. unfold a_bwrite in A4. bproj in A4.
  rewrite fupd_eq in A4. rewrite (cache_step _ _ (LS (lg t) s3) _ _ E4).
  destruct (maybe_unpin recovering (lg t) s4 b db) as (s5 & E5 & I5 & A5); [done|rewrite A4; by rewrite A2 in H2b| |].
  { rewrite A4. bproj. rewrite fupd_eq, Pb. destruct recovering; lia. }
  rewrite A4 in A5. unfold a_pin in A5. bproj in A5.
  rewrite fupd_eq in A5. rewrite (bind_step _ _ _ _ _ E5).
  destruct (brelse_ok s5 L lb I5) as (s6 & E6 & I6 & A6); [rewrite A5; by rewrite A2 in H2L| |].
  { intros _. rewrite A5. bproj. rewrite !fupd_ne by done. by apply unpinned_clean. }
  rewrite A5 in A6. unfold a_brelse in A6. bproj in A6.
  rewrite !(fupd_ne _ b _ L), fupd_eq in A6 by done.
  rewrite (cache_step _ _ (LS (lg t) s5) _ _ E6).
  destruct (brelse_ok s6 b db I6) as (s7 & E7 & I7 & A7).
  { rewrite A6. bproj. by rewrite fupd_ne, fupd_eq. } { intros _. rewrite A6. bproj. by rewrite !fupd_eq. }
  exists s7. split; [by apply (cache_Ret _ (LS (lg t) s6))|]. split; [done|].
  rewrite A7, A6. unfold a_brelse. bproj.
  rewrite !(fupd_ne _ L _ b), fupd_eq, Pb by done.
  destruct recovering; unfold put_disk, unpin_disk; f_equal; try fupd_solve; zbool; lia.
Qed.

(** The header block write_head writes. *)
Definition header (l : log) (d : bytes) : bytes :=
  put_blocks (Z.to_nat (lh_n l)) 0 (lh_block l) (st32 d 0 (lh_n l)).

Lemma write_head_ok t : let a := absc (bc t) in let h := u32 (start (lg t)) in
  binv (bc t) -> ldev (lg t) = bdev -> holder a h = None -> pins a h = 0 -> 0 < nfree a ->
  exists s', write_head t = Ret tt (LS (lg t) s') /\ binv s' /\
    absc s' = put_disk h (header (lg t) (view a h)) a.
Proof.
  intros a h Hinv Hdev Hh Ph Hfree.
  unfold write_head. rewrite (bind_step (gets lg) _ t (lg t) t) by done. rewrite Hdev.
  destruct (bread_ok (bc t) h) as (i & s1 & E1 & I1 & A1); try done; fold a; try lia.
  rewrite (cache_step _ _ _ _ _ E1). fold h.
  assert (holder (absc s1) h = Some i) as H1 by (rewrite A1; apply fupd_eq).
  destruct (bdata_ok s1 h i I1 H1) as [D1 _].
  destruct (set_ok s1 h i (st32 (bdata i s1) 0 (lh_n (lg t))) I1 H1) as [I2 A2].
  match goal with |- context [cache (modify ?f) ;;; _] =>
    rewrite (cache_step (modify f) _ (LS (lg t) s1) tt (f s1)) by done end.
  cbv beta. set (s2 := set_bdata i _ s1) in *.
  assert (holder (absc s2) h = Some i) as H2 by by rewrite A2.
  destruct (bdata_ok s2 h i I2 H2) as [D2 _].
  destruct (set_ok s2 h i (put_blocks (Z.to_nat (lh_n (lg t))) 0 (lh_block (lg t)) (bdata i s2)) I2 H2)
    as [I3 A3].
  match goal with |- context [cache (modify ?f) ;;; _] =>
    rewrite (cache_step (modify f) _ (LS (lg t) s2) tt (f s2)) by done end.
  cbv beta. set (s3 := set_bdata i _ s2) in *.
  destruct (bwrite_ok s3 h i I3) as (s4 & E4 & I4 & A4); [by rewrite A3|].
  rewrite (cache_step _ _ (LS (lg t) s3) _ _ E4).
  destruct (brelse_ok s4 h i I4) as (s5 & E5 & I5 & A5).
  { by rewrite A4, A3. } { intros _. rewrite A4. simpl. by rewrite fupd_eq. }
  exists s5. split; [by apply (cache_Ret _ (LS (lg t) s4))|]. split; [done|].
  rewrite A5, A4, A3, D2, A2, D1, A1.
  unfold a_brelse, a_bwrite, a_set, a_bread, put_disk, header. cbn [view disk writes pins holder nfree].
  fold a. rewrite ?fupd_eq, Ph. f_equal; try fupd_solve; simpl; lia.
Qed.

Lemma read_head_ok t : let a := absc (bc t) in let h := u32 (start (lg t)) in
  binv (bc t) -> ldev (lg t) = bdev -> holder a h = None -> pins a h = 0 -> 0 < nfree a ->
  let k := i32 (ld32 (view a h) 0) in
  exists s', read_head t =
      Ret tt (LS (set_lh_block (get_blocks (Z.to_nat k) 0 (view a h) (lh_block (lg t)))
                   (set_lh_n k (lg t))) s') /\
    binv s' /\ absc s' = a.
Proof.
  intros a h Hinv Hdev Hh Ph Hfree k.
  unfold read_head. rewrite (bind_step (gets lg) _ t (lg t) t) by done. rewrite Hdev.
  destruct (bread_ok (bc t) h) as (i & s1 & E1 & I1 & A1); try done; fold a; try lia.
  rewrite (cache_step _ _ _ _ _ E1). fold h.
  assert (holder (absc s1) h = Some i) as H1 by (rewrite A1; apply fupd_eq).
  destruct (bdata_ok s1 h i I1 H1) as [D1 _].
  rewrite (cache_step (gets (bdata i)) _ (LS (lg t) s1) (view a h) s1)
    by (unfold gets; cbn [bc]; by rewrite D1, A1).
  unfold on_log. unfold bind at 1, modify at 1. unfold bind at 1, modify at 1. cbn [lg bc].
  fold k. cbn [set_lh_n lh_n lh_block].
  destruct (brelse_ok s1 h i I1 H1) as (s2 & E2 & I2 & A2).
  { intros _. rewrite A1. simpl. by apply unpinned_clean. }
  exists s2. split; [by apply (cache_Ret _ (LS _ s1))|]. split; [done|].
  rewrite A2, A1. unfold a_brelse, a_bread. cbn [view disk writes pins holder nfree].
  fold a. rewrite fupd_eq, Ph.
  transitivity (BAbs (view a) (disk a) (writes a) (pins a) (holder a) (nfree a)).
  - f_equal; try fupd_solve; simpl; lia.
  - by destruct (absc (bc t)).
Qed.
End steps.

(** ** The on-disk header *)

Section header.

Lemma put_blocks_other m : forall i blk d x, 0 <= i ->
  x + 4 <= 4 + 4 * i \/ 4 + 4 * (i + Z.of_nat m) <= x -> ld32 (put_blocks m i blk d) x = ld32 d x.
Proof.
  induction m as [|m IH]; intros i blk d x Hi Hx; [done|].
  cbn [put_blocks]. rewrite IH by lia. apply ld_st_other. lia.
Qed.

Lemma put_blocks_in m : forall i blk d j, 0 <= i -> i <= j < i + Z.of_nat m ->
  ld32 (put_blocks m i blk d) (4 + 4 * j) = u32 (blk j).
Proof.
  induction m as [|m IH]; intros i blk d j Hi Hj; [lia|].
  cbn [put_blocks]. destruct (decide (j = i)) as [->|Hne]; [|apply IH; lia].
  rewrite put_blocks_other by lia. apply ld_st_same.
Qed.

Lemma get_blocks_spec m : forall i d blk j,
  get_blocks m i d blk j =
    if (i <=? j) && (j <? i + Z.of_nat m) then i32 (ld32 d (4 + 4 * j)) else blk j.
Proof.
  induction m as [|m IH]; intros i d blk j; cbn [get_blocks].
  - zbool; simpl; try done; lia.
  - rewrite IH. unfold fupd. zbool; simpl; subst; try done; lia.
Qed.

Lemma i32_u32 z : - 2 ^ 31 <= z < 2 ^ 31 -> i32 (u32 z) = z.
Proof. intros. unwrap. dlia. Qed.
End header.

Definition hdr_n (st : Z) (d : Z -> bytes) : Z := i32 (ld32 (d st) 0).
Definition hdr_list (st : Z) (d : Z -> bytes) : list Z :=
  (fun i => i32 (ld32 (d st) (4 + 4 * i))) <$> seqZ 0 (hdr_n st d).

(** Blocks are compared on their BSIZE bytes. *)
Definition same_block (x y : bytes) : Prop := forall o, 0 <= o < BSIZE -> x o = y o.

#[global] Instance same_block_equiv : Equivalence same_block.
Proof.
  split.
  - intros x o _. done.
  - intros x y E o Ho. by rewrite E.
  - intros x y z E F o Ho. by rewrite E, F.
Qed.

Lemma same_block_blit x y : same_block (blit x 0 y 0 BSIZE) y.
Proof. intros o Ho. rewrite blit_in by lia. f_equal. lia. Qed.

(** What recovery would leave in block [b] of a disk with contents [d]. *)
Definition recovered (st : Z) (d : Z -> bytes) (b : Z) : bytes :=
  match list_find (b =.) (hdr_list st d) with
  | Some (i, _) => d (st + Z.of_nat i + 1)
  | None => d b
  end.

(** Block numbers outside the log area. *)
Definition home (st b : Z) : Prop := 0 <= b < 2 ^ 31 /\ (b < st \/ st + LOGBLOCKS < b).

Record geom (st : Z) (bl : list Z) : Prop := {
  g_start : 0 <= st /\ st + LOGBLOCKS < 2 ^ 31;
  g_home : Forall (home st) bl;
  g_nodup : NoDup bl;
  g_len : Z.of_nat (length bl) <= LOGBLOCKS;
}.

Definition hdr_ok (st : Z) (d : Z -> bytes) : Prop := 0 <= hdr_n st d /\ geom st (hdr_list st d).

Definition apply_writes (d : Z -> bytes) (W : list (Z * bytes)) : Z -> bytes :=
  fold_left (fun d w => fupd d (fst w) (snd w)) W d.

(** The writes of write_log and install_trans, from the cache contents [v]. *)
Fixpoint log_writes (st i : Z) (bl : list Z) (v : Z -> bytes) : list (Z * bytes) :=
  match bl with
  | [] => []
  | b :: bl' => (st + i + 1, blit (v (st + i + 1)) 0 (v b) 0 BSIZE) :: log_writes st (i + 1) bl' v
  end.
Fixpoint home_writes (st i : Z) (bl : list Z) (v : Z -> bytes) : list (Z * bytes) :=
  match bl with
  | [] => []
  | b :: bl' => (b, blit (v b) 0 (v (st + i + 1)) 0 BSIZE) :: home_writes st (i + 1) bl' v
  end.

Section writes.

Lemma apply_writes_app d W1 W2 : apply_writes d (W1 ++ W2) = apply_writes (apply_writes d W1) W2.
Proof. apply fold_left_app. Qed.

Lemma apply_writes_cons d b x W : apply_writes d ((b, x) :: W) = apply_writes (fupd d b x) W.
Proof. done. Qed.

Lemma apply_writes_other W : forall d b, (forall w, w ∈ W -> fst w <> b) -> apply_writes d W b = d b.
Proof.
  induction W as [|w W IH]; intros d b Hw; [done|]. cbn [apply_writes fold_left].
  change (apply_writes (fupd d (fst w) (snd w)) W b = d b).
  rewrite IH by (intros; apply Hw; by right). apply fupd_ne. intros ->. by apply (Hw w); [left|].
Qed.

Lemma apply_writes_agree W : forall d d' b, d b = d' b -> apply_writes d W b = apply_writes d' W b.
Proof.
  induction W as [|w W IH]; intros d d' b E; [done|]. cbn [apply_writes fold_left].
  apply IH. unfold fupd. by destruct (b =? fst w).
Qed.

Lemma take_subset {A} k (l : list A) x : x ∈ take k l -> x ∈ l.
Proof. intros Hx. rewrite <- (take_drop k l). apply elem_of_app. by left. Qed.

Lemma log_writes_ext st bl : forall i v v',
  (forall j, i <= j < i + Z.of_nat (length bl) -> v (st + j + 1) = v' (st + j + 1)) ->
  (forall b, b ∈ bl -> v b = v' b) -> log_writes st i bl v = log_writes st i bl v'.
Proof.
  induction bl as [|b bl IH]; intros i v v' H1 H2; [done|]. simpl in *.
  rewrite (H1 i), (H2 b) by (lia || constructor). f_equal.
  apply IH; [intros; apply H1; lia|]. intros; apply H2; by right.
Qed.

Lemma home_writes_ext st bl : forall i v v',
  (forall j, i <= j < i + Z.of_nat (length bl) -> v (st + j + 1) = v' (st + j + 1)) ->
  (forall b, b ∈ bl -> v b = v' b) -> home_writes st i bl v = home_writes st i bl v'.
Proof.
  induction bl as [|b bl IH]; intros i v v' H1 H2; [done|]. simpl in *.
  rewrite (H1 i), (H2 b) by (lia || constructor). f_equal.
  apply IH; [intros; apply H1; lia|]. intros; apply H2; by right.
Qed.

Lemma log_writes_range st bl : forall i v w, w ∈ log_writes st i bl v ->
  st + i + 1 <= fst w < st + i + 1 + Z.of_nat (length bl).
Proof.
  induction bl as [|b bl IH]; intros i v w Hw; simpl in *; [by apply not_elem_of_nil in Hw|].
  apply elem_of_cons in Hw as [->|Hw]; [simpl; lia|]. apply IH in Hw. lia.
Qed.

Lemma home_writes_in st bl : forall i v w, w ∈ home_writes st i bl v -> fst w ∈ bl.
Proof.
  induction bl as [|b bl IH]; intros i v w Hw; simpl in *; [by apply not_elem_of_nil in Hw|].
  apply elem_of_cons in Hw as [->|Hw]; [left|right; by eapply IH].
Qed.

Lemma length_log_writes st bl : forall i v, length (log_writes st i bl v) = length bl.
Proof. induction bl; intros; simpl; auto. Qed.

Lemma length_home_writes st bl : forall i v, length (home_writes st i bl v) = length bl.
Proof. induction bl; intros; simpl; auto. Qed.

(** After write_log, log block [j] holds a copy of the [j]-th block. *)
Lemma apply_log_writes st bl : forall i v d j b, bl !! j = Some b ->
  same_block (apply_writes d (log_writes st i bl v) (st + i + Z.of_nat j + 1)) (v b).
Proof.
  induction bl as [|c bl IH]; intros i v d j b Hj; [done|]. cbn [log_writes].
  cbn [apply_writes fold_left]. change (fold_left _ ?W ?x) with (apply_writes x W). cbn [fst snd].
  destruct j as [|j]; cbn in Hj.
  - injection Hj as ->. rewrite apply_writes_other.
    + replace (st + i + Z.of_nat 0 + 1) with (st + i + 1) by lia. rewrite fupd_eq. apply same_block_blit.
    + intros w Hw%log_writes_range. lia.
  - replace (st + i + Z.of_nat (S j) + 1) with (st + (i + 1) + Z.of_nat j + 1) by lia.
    by apply IH.
Qed.

(** After the first [k] writes of install_trans, the blocks written hold the
    copies from the log. *)
Lemma apply_home_writes st bl : forall i v d j b, NoDup bl -> bl !! j = Some b -> forall k, (j < k)%nat ->
  same_block (apply_writes d (take k (home_writes st i bl v)) b) (v (st + i + Z.of_nat j + 1)).
Proof.
  induction bl as [|c bl IH]; intros i v d j b Hnd Hj k Hk; [done|].
  apply NoDup_cons in Hnd as [Hc Hnd]. destruct k as [|k]; [lia|]. cbn [home_writes take].
  cbn [apply_writes fold_left]. change (fold_left _ ?W ?x) with (apply_writes x W). cbn [fst snd].
  destruct j as [|j]; cbn in Hj.
  - injection Hj as ->. rewrite apply_writes_other.
    + replace (st + i + Z.of_nat 0 + 1) with (st + i + 1) by lia. rewrite fupd_eq. apply same_block_blit.
    + intros w Hw%take_subset%home_writes_in. congruence.
  - replace (st + i + Z.of_nat (S j) + 1) with (st + (i + 1) + Z.of_nat j + 1) by lia.
    apply IH; [done|done|lia].
Qed.
End writes.

(** ** The loops over the log *)

Section loops.
Context {S : Type} `{BL : BufCacheLaws S}.
Implicit Types t : lstate S.

(** The log structure of [t] lists [bl] from position [i] on. *)
Definition lists (l : log) (i : Z) (bl : list Z) : Prop :=
  forall j b, bl !! j = Some b -> lh_block l (i + Z.of_nat j) = b.

Lemma lists_cons l i b bl : lists l i (b :: bl) -> lh_block l i = b /\ lists l (i + 1) bl.
Proof.
  intros Hl. split.
  - specialize (Hl 0%nat b eq_refl). by rewrite Z.add_0_r in Hl.
  - intros j c Hj. rewrite <- (Hl (Datatypes.S j) c Hj). f_equal. lia.
Qed.

Definition quiet (a : babs) : Prop := forall b, holder a b = None.
Definition log_unpinned (st : Z) (a : babs) : Prop :=
  forall b, st <= b <= st + LOGBLOCKS -> pins a b = 0.

Definition after_writes (a : babs) (W : list (Z * bytes)) : babs :=
  BAbs (apply_writes (view a) W) (apply_writes (disk a) W) (writes a ++ W)
    (pins a) (holder a) (nfree a).

Lemma after_put b d a W :
  after_writes (put_disk b d a) W = after_writes a ((b, d) :: W).
Proof. unfold after_writes, put_disk. cbn. by rewrite <- app_assoc. Qed.

Lemma u32_home st b : home st b -> u32 b = b.
Proof. intros [Hb _]. apply wrap_small. lia. Qed.

Lemma write_log_loop bl : forall i t, let a := absc (bc t) in let st := start (lg t) in
  binv (bc t) -> ldev (lg t) = bdev -> lists (lg t) i bl ->
  0 <= st -> st + LOGBLOCKS < 2 ^ 31 -> 0 <= i -> i + Z.of_nat (length bl) <= LOGBLOCKS ->
  Forall (home st) bl -> quiet a -> log_unpinned st a -> (forall b, b ∈ bl -> pins a b = 1) ->
  0 < nfree a ->
  exists s', for_loop (length bl) i write_log_one t = Ret tt (LS (lg t) s') /\ binv s' /\
    absc s' = after_writes a (log_writes st i bl (view a)).
Proof.
  induction bl as [|b bl IH]; intros i t a st Hinv Hdev Hl Hs1 Hs2 Hi Hlen Hhome Hq Hlu Hpin Hfree.
  { exists (bc t). split; [by destruct t|]. split; [done|].
    unfold after_writes. cbn. rewrite app_nil_r. by destruct (absc (bc t)). }
  apply lists_cons in Hl as [Hb Hl]. apply Forall_cons in Hhome as [Hh Hhome].
  cbn [length] in Hlen.
  assert (u32 (st + i + 1) = st + i + 1) as EL by (apply wrap_small; unfold LOGBLOCKS in *; lia).
  assert (u32 (lh_block (lg t) i) = b) as Eb by (rewrite Hb; by apply (u32_home st)).
  assert (st + i + 1 <> b) as Hne by (destruct Hh as [_ Hh]; lia).
  pose proof (write_log_one_ok t i) as H1. cbv zeta in H1. fold a st in H1. rewrite EL, Eb in H1.
  destruct H1 as (s1 & E1 & I1 & A1); try done; try apply Hq; auto.
  { apply Hlu. lia. } { apply Hpin. left. }
  cbn [length for_loop]. rewrite (bind_step _ _ _ _ _ E1).
  destruct (IH (i + 1) (LS (lg t) s1)) as (s2 & E2 & I2 & A2); cbn [lg bc]; fold st; rewrite ?A1;
    try done; try lia.
  { intros c Hc. apply Hpin. by right. }
  exists s2. split; [done|]. split; [done|]. rewrite A2. cbn [lg bc]. fold st. rewrite A1, after_put.
  cbn [log_writes put_disk view]. do 2 f_equal. apply log_writes_ext.
  - intros j Hj. apply fupd_ne. lia.
  - intros c Hc. apply fupd_ne. rewrite Forall_forall in Hhome. destruct (Hhome c Hc) as [_ ?]. lia.
Qed.

(** The log's references to [bl] dropped. *)
Definition unpin_all (bl : list Z) (p : Z -> Z) : Z -> Z :=
  fold_left (fun p b => fupd p b 0) bl p.

Definition after_install (recovering : bool) (a : babs) (bl : list Z) (W : list (Z * bytes)) : babs :=
  BAbs (apply_writes (view a) W) (apply_writes (disk a) W) (writes a ++ W)
    (if recovering then pins a else unpin_all bl (pins a)) (holder a)
    (if recovering then nfree a else nfree a + Z.of_nat (length bl)).

Lemma install_loop (recovering : bool) bl : forall i t,
  let a := absc (bc t) in let st := start (lg t) in
  binv (bc t) -> ldev (lg t) = bdev -> lists (lg t) i bl ->
  0 <= st -> st + LOGBLOCKS < 2 ^ 31 -> 0 <= i -> i + Z.of_nat (length bl) <= LOGBLOCKS ->
  Forall (home st) bl -> NoDup bl -> quiet a -> log_unpinned st a ->
  (forall b, b ∈ bl -> pins a b = if recovering then 0 else 1) ->
  (if recovering then 1 else 0) < nfree a ->
  exists s', for_loop (length bl) i (install_one recovering) t = Ret tt (LS (lg t) s') /\ binv s' /\
    absc s' = after_install recovering a bl (home_writes st i bl (view a)).
Proof.
  induction bl as [|b bl IH];
    intros i t a st Hinv Hdev Hl Hs1 Hs2 Hi Hlen Hhome Hnd Hq Hlu Hpin Hfree.
  { exists (bc t). split; [by destruct t|]. split; [done|].
    unfold after_install. cbn. rewrite app_nil_r, Z.add_0_r. destruct recovering; by destruct (absc (bc t)). }
  apply lists_cons in Hl as [Hb Hl]. apply Forall_cons in Hhome as [Hh Hhome].
  apply NoDup_cons in Hnd as [Hnb Hnd]. cbn [length] in Hlen.
  assert (u32 (st + i + 1) = st + i + 1) as EL by (apply wrap_small; unfold LOGBLOCKS in *; lia).
  assert (u32 (lh_block (lg t) i) = b) as Eb by (rewrite Hb; by apply (u32_home st)).
  assert (st + i + 1 <> b) as Hne by (destruct Hh as [_ Hh]; lia).
  pose proof (Hpin b ltac:(left)) as Pb.
  pose proof (install_one_ok recovering t i) as H1. cbv zeta in H1. fold a st in H1. rewrite EL, Eb in H1.
  destruct H1 as (s1 & E1 & I1 & A1); try done; try apply Hq; auto.
  { apply Hlu. lia. } { destruct recovering; lia. }
  cbn [length for_loop]. rewrite (bind_step _ _ _ _ _ E1).
  set (d := blit (view a b) 0 (view a (st + i + 1)) 0 BSIZE) in *.
  assert (view (absc s1) = fupd (view a) b d /\ disk (absc s1) = fupd (disk a) b d /\
    writes (absc s1) = writes a ++ [(b, d)] /\ holder (absc s1) = holder a /\
    pins (absc s1) = (if recovering then pins a else fupd (pins a) b 0) /\
    nfree (absc s1) = (if recovering then nfree a else nfree a + 1)) as (V1 & D1 & W1 & H1 & P1 & N1)
    by (rewrite A1; by destruct recovering).
  destruct (IH (i + 1) (LS (lg t) s1)) as (s2 & E2 & I2 & A2); cbn [lg bc]; fold st; try done; try lia.
  { intros c. rewrite H1. apply Hq. }
  { intros c Hc. rewrite P1. destruct recovering; [by apply Hlu|].
    rewrite fupd_ne; [by apply Hlu|]. destruct Hh as [_ Hh]. lia. }
  { intros c Hc. rewrite P1. destruct recovering; [apply Hpin; by right|].
    rewrite fupd_ne by congruence. apply Hpin; by right. }
  { rewrite N1. destruct recovering; lia. }
  exists s2. split; [done|]. split; [done|]. rewrite A2. cbn [lg bc]. fold st.
  assert (home_writes st (i + 1) bl (view (absc s1)) = home_writes st (i + 1) bl (view a)) as ->.
  { rewrite V1. apply home_writes_ext.
    - intros j Hj. apply fupd_ne. destruct Hh as [_ Hh]. lia.
    - intros c Hc. apply fupd_ne. congruence. }
  unfold after_install. rewrite V1, D1, W1, H1, P1, N1, <- app_assoc. cbn [home_writes]. fold d.
  destruct recovering; [done|]. f_equal. cbn [length]. lia.
Qed.
End loops.

(** ** Disks *)

Section disks.
Context (st : Z).
Implicit Types d : Z -> bytes.

Lemma hdr_ext d d' : d st = d' st -> hdr_n st d = hdr_n st d' /\ hdr_list st d = hdr_list st d'.
Proof.
  intros E. assert (hdr_n st d = hdr_n st d') as En by (unfold hdr_n; by rewrite E).
  split; [done|]. unfold hdr_list. rewrite En, E. done.
Qed.

Lemma hdr_ok_ext d d' : d st = d' st -> hdr_ok st d' -> hdr_ok st d.
Proof. intros E. unfold hdr_ok. destruct (hdr_ext d d' E) as [-> ->]. done. Qed.

(** An empty header: recovery changes nothing. *)
Lemma recovered_empty d b : hdr_n st d = 0 -> recovered st d b = d b.
Proof. intros E. unfold recovered, hdr_list. by rewrite E. Qed.

Lemma recovered_in d i b : NoDup (hdr_list st d) -> hdr_list st d !! i = Some b ->
  recovered st d b = d (st + Z.of_nat i + 1).
Proof.
  intros Hnd Hi. unfold recovered.
  destruct (list_find (b =.) (hdr_list st d)) as [[j x]|] eqn:E.
  - apply list_find_Some in E as (Hj & -> & _). by rewrite (NoDup_lookup _ i j x Hnd Hi Hj).
  - apply list_find_None in E. rewrite Forall_forall in E. exfalso.
    apply (E b); [by eapply list_elem_of_lookup_2|done].
Qed.

Lemma recovered_out d b : b ∉ hdr_list st d -> recovered st d b = d b.
Proof.
  intros Hb. unfold recovered. destruct (list_find _ _) as [[j x]|] eqn:E; [|done].
  apply list_find_Some in E as (Hj & -> & _). exfalso. by apply Hb, list_elem_of_lookup_2 with j.
Qed.

(** Installing a prefix of the log leaves the recovered contents alone; [v]
    is where the copies are taken from. *)
Lemma install_prefix d v k : hdr_ok st d ->
  (forall j, 0 <= j < Z.of_nat (length (hdr_list st d)) -> v (st + j + 1) = d (st + j + 1)) ->
  let d' := apply_writes d (take k (home_writes st 0 (hdr_list st d) v)) in
  d' st = d st /\ forall b, home st b -> same_block (recovered st d' b) (recovered st d b) /\
  ((length (hdr_list st d) <= k)%nat -> same_block (d' b) (recovered st d b)).
Proof.
  intros [Hn [Hst Hhome Hnd Hlen]] Hv d'. rewrite Forall_forall in Hhome.
  assert (forall c, st <= c <= st + LOGBLOCKS -> d' c = d c) as Hlog.
  { intros c Hc. apply apply_writes_other. intros w Hw%take_subset%home_writes_in E. rewrite E in Hw.
    apply Hhome in Hw as [_ Hw]. lia. }
  assert (d' st = d st) as Est by (apply Hlog; unfold LOGBLOCKS, MAXOPBLOCKS; lia).
  destruct (hdr_ext d' d Est) as [_ El]. split; [done|]. intros b Hb.
  destruct (decide (b ∈ hdr_list st d)) as [Hin|Hout].
  - apply list_elem_of_lookup in Hin as [i Hi]. pose proof Hi as Hi'. rewrite <- El in Hi'.
    apply lookup_lt_Some in Hi as Hlt.
    rewrite (recovered_in d i b Hnd Hi), (recovered_in d' i b ltac:(by rewrite El) Hi').
    rewrite Hlog by (unfold LOGBLOCKS, MAXOPBLOCKS in *; lia). split; [done|]. intros Hk.
    rewrite <- Hv by lia.
    replace (st + Z.of_nat i + 1) with (st + 0 + Z.of_nat i + 1) by lia.
    apply apply_home_writes; [done|done|lia].
  - rewrite (recovered_out d b Hout), (recovered_out d' b) by by rewrite El.
    assert (d' b = d b) as ->; [|done].
    apply apply_writes_other. intros w Hw%take_subset%home_writes_in E. by rewrite E in Hw.
Qed.
End disks.

Lemma take_app_le {A} k (l1 l2 : list A) : (k <= length l1)%nat -> take k (l1 ++ l2) = take k l1.
Proof. intros. rewrite take_app. replace (k - length l1)%nat with 0%nat by lia. by rewrite app_nil_r. Qed.

Lemma take_app_snoc {A} k (l : list A) x :
  take k (l ++ [x]) = take k l \/ take k (l ++ [x]) = l ++ [x].
Proof.
  destruct (decide (k <= length l)%nat); [left; by apply take_app_le|right].
  apply take_ge. rewrite length_app. simpl. lia.
Qed.

(** The header block that ends a recovery or a commit. *)
Lemma clear_header x : i32 (ld32 (put_blocks 0 0 (fun _ => 0) (st32 x 0 0)) 0) = 0.
Proof. cbn [put_blocks]. rewrite ld_st_same. reflexivity. Qed.

Section recovery.
Context {S : Type} `{BL : BufCacheLaws S}.
Implicit Types t : lstate S.

(** The cache just after boot: no buffer is referenced. *)
Definition fresh (s : S) : Prop :=
  binv s /\ (forall b, holder (absc s) b = None) /\ (forall b, pins (absc s) b = 0) /\
  1 < nfree (absc s).

(** The writes of recovery on a disk [d]. *)
Definition recovery_writes (st : Z) (d : Z -> bytes) : list (Z * bytes) :=
  home_writes st 0 (hdr_list st d) d ++ [(st, st32 (d st) 0 0)].

Lemma fresh_view s : fresh s -> view (absc s) = disk (absc s).
Proof. intros (Hi & _ & Hp & _). extensionality b. by apply unpinned_clean. Qed.

Lemma initlog_run t st : fresh (bc t) -> hdr_ok st (disk (absc (bc t))) ->
  exists t', initlog bdev st t = Ret tt t' /\ fresh (bc t') /\ lh_n (lg t') = 0 /\
    start (lg t') = st /\ ldev (lg t') = bdev /\
    let W := recovery_writes st (disk (absc (bc t))) in
    writes (absc (bc t')) = writes (absc (bc t)) ++ W /\
    disk (absc (bc t')) = apply_writes (disk (absc (bc t))) W.
Proof.
  intros Hf [Hn [Hst Hhome Hnd Hlen]]. pose proof (fresh_view _ Hf) as Hv.
  destruct Hf as (Hinv & Hq & Hp & Hfree). set (d := disk (absc (bc t))) in *.
  assert (u32 st = st) as Est by (apply wrap_small; unfold LOGBLOCKS, MAXOPBLOCKS in *; lia).
  unfold initlog. change (BSIZE <=? 4 + 4 * LOGBLOCKS) with false. cbv iota.
  unfold on_log at 1. unfold bind at 1, modify at 1.
  set (t1 := LS (Log st _ _ bdev _ _ _) (bc t)).
  unfold recover_from_log.
  destruct (read_head_ok t1) as (s2 & E2 & I2 & A2); try done; cbn [t1 lg bc start]; rewrite ?Est; auto; try lia.
  rewrite (bind_step _ _ _ _ _ E2). clear E2. cbn [t1 lg bc start lh_block] in A2 |- *.
  rewrite Est, Hv. fold (hdr_n st d). set (l2 := set_lh_block _ _).
  assert (lists l2 0 (hdr_list st d)) as Hl.
  { intros j b Hj. unfold l2. cbn [set_lh_block lh_block]. rewrite get_blocks_spec, Z.add_0_l.
    unfold hdr_list in Hj. rewrite list_lookup_fmap in Hj.
    destruct (seqZ 0 (hdr_n st d) !! j) as [x|] eqn:Ex; [|done]. apply lookup_seqZ in Ex as [-> Hx].
    injection Hj as <-. zbool; try lia. simpl. done. }
  assert (length (hdr_list st d) = Z.to_nat (hdr_n st d)) as Hlen'.
  { unfold hdr_list. by rewrite length_fmap, length_seqZ. }
  unfold install_trans. rewrite bind_assoc. rewrite (bind_step (gets lg) _ _ l2 (LS l2 s2)) by done.
  replace (lh_n l2) with (hdr_n st d) by done. rewrite <- Hlen'.
  destruct (install_loop true (hdr_list st d) 0 (LS l2 s2)) as (s3 & E3 & I3 & A3);
    cbn [lg bc]; rewrite ?A2; try done; try apply Hst; try lia; try (intros ? ?; apply Hp).
  rewrite (bind_step _ _ _ _ _ E3). clear E3. unfold on_log at 1. unfold bind at 1, modify at 1. cbn [lg bc].
  set (l4 := set_lh_n 0 l2). cbn [lg bc] in A3. rewrite A2 in A3.
  destruct (write_head_ok (LS l4 s3)) as (s5 & E5 & I5 & A5); cbn [lg bc] in *;
    change (start l4) with st in *; change (start l2) with st in *; rewrite ?Est, ?A3; cbn; auto; try lia.
  rewrite Est, A3 in A5.
  exists (LS l4 s5). split; [exact E5|]. cbn [lg bc]. rewrite A5. cbn [put_disk after_install holder pins nfree writes disk view].
  split; [|split; [done|split; [done|split; [done|]]]].
  - split; [done|]. rewrite A5. cbn. auto.
  - rewrite Hv. fold d.
    assert (apply_writes d (home_writes st 0 (hdr_list st d) d) st = d st) as Eh.
    { apply apply_writes_other. intros w Hw%home_writes_in E. rewrite E in Hw. rewrite Forall_forall in Hhome.
      apply Hhome in Hw as [_ Hw]. unfold LOGBLOCKS, MAXOPBLOCKS in *. lia. }
    unfold recovery_writes. rewrite apply_writes_app, Eh, <- app_assoc. done.
Qed.
End recovery.

(** ** Commit *)

Section commit_disks.
Context (st : Z) (bl : list Z) (l : log) (v0 d0 : Z -> bytes).
Hypothesis Hgeom : geom st bl.
Hypothesis Hn : lh_n l = Z.of_nat (length bl).
Hypothesis Hl : lists l 0 bl.
Hypothesis Hclean : forall b, b ∉ bl -> v0 b = d0 b.
Hypothesis Hempty : hdr_n st d0 = 0.

Definition commit_header : bytes := header l (v0 st).
Definition log_part : list (Z * bytes) := log_writes st 0 bl v0.
Definition logged_view : Z -> bytes := fupd (apply_writes v0 log_part) st commit_header.
Definition home_part : list (Z * bytes) := home_writes st 0 bl logged_view.
Definition commit_writes : list (Z * bytes) :=
  log_part ++ (st, commit_header) :: home_part ++ [(st, st32 commit_header 0 0)].

Lemma commit_header_n d : d st = commit_header -> hdr_n st d = Z.of_nat (length bl).
Proof.
  intros E. destruct Hgeom as [Hst _ _ Hlen]. unfold LOGBLOCKS, MAXOPBLOCKS in *.
  unfold hdr_n. rewrite E. unfold commit_header, header.
  rewrite put_blocks_other, ld_st_same, Hn by lia. change (256 ^ Z.of_nat 4) with (2 ^ 32).
  apply (i32_u32 (Z.of_nat (length bl))). lia.
Qed.

Lemma commit_header_list d : d st = commit_header -> hdr_list st d = bl.
Proof.
  intros E. pose proof (commit_header_n d E) as En. unfold hdr_list. rewrite En.
  destruct Hgeom as [Hst Hhome _ _]. apply list_eq. intros j. rewrite list_lookup_fmap.
  destruct (bl !! j) as [b|] eqn:Ej.
  - apply lookup_lt_Some in Ej as Hj. rewrite lookup_seqZ_lt by lia. cbn. f_equal.
    rewrite E. unfold commit_header, header. rewrite put_blocks_in by lia.
    pose proof (Hl j b Ej) as Hlj. rewrite Z.add_0_l in Hlj. rewrite ?Z.add_0_l, Hlj.
    rewrite Forall_forall in Hhome.
    destruct (Hhome b) as [Hb _]; [by eapply list_elem_of_lookup_2|]. apply i32_u32. lia.
  - apply lookup_ge_None in Ej. by rewrite lookup_seqZ_ge by lia.
Qed.

Lemma home_not_log b w k : home st b -> w ∈ take k log_part -> fst w <> b.
Proof.
  intros [_ Hb] Hw%take_subset%log_writes_range. destruct Hgeom as [_ _ _ Hlen]. lia.
Qed.

Lemma start_not_log w k : w ∈ take k log_part -> fst w <> st.
Proof. intros Hw%take_subset%log_writes_range. lia. Qed.

(** A disk whose on-disk log is empty. *)
Lemma empty_hdr_ok d : hdr_n st d = 0 -> hdr_ok st d.
Proof.
  intros En. split; [lia|]. unfold hdr_list. rewrite En. destruct Hgeom as [Hst _ _ _].
  split; [done|constructor|constructor|simpl; unfold LOGBLOCKS, MAXOPBLOCKS; lia].
Qed.

(** Before the header is written: the old disk. *)
Lemma crash_before k : let d := apply_writes d0 (take k log_part) in
  hdr_ok st d /\ forall b, home st b -> recovered st d b = d0 b.
Proof.
  intros d. assert (d st = d0 st) as Est.
  { apply apply_writes_other. intros w. apply start_not_log. }
  destruct (hdr_ext st d d0 Est) as [En El]. split; [apply empty_hdr_ok; congruence|]. intros b Hb.
  rewrite recovered_empty by by rewrite En. apply apply_writes_other. intros w. by apply home_not_log.
Qed.

(** The disk at the moment the header is written. *)
Definition committed_disk : Z -> bytes := fupd (apply_writes d0 log_part) st commit_header.

Lemma committed_start : committed_disk st = commit_header.
Proof. apply fupd_eq. Qed.

Lemma committed_hdr_ok : hdr_ok st committed_disk.
Proof.
  split; [rewrite (commit_header_n _ committed_start); lia|].
  by rewrite (commit_header_list _ committed_start).
Qed.

Lemma committed_recovered b : home st b -> same_block (recovered st committed_disk b) (v0 b).
Proof.
  intros Hb. destruct Hgeom as [Hst Hhome Hnd Hlen].
  pose proof (commit_header_list _ committed_start) as El.
  assert (b <> st) as Hbs by (destruct Hb as [_ Hb]; unfold LOGBLOCKS, MAXOPBLOCKS in *; lia).
  destruct (decide (b ∈ bl)) as [Hin|Hout].
  - apply list_elem_of_lookup in Hin as [i Hi].
    rewrite (recovered_in st committed_disk i b) by (rewrite El; done).
    unfold committed_disk. rewrite fupd_ne by lia.
    replace (st + Z.of_nat i + 1) with (st + 0 + Z.of_nat i + 1) by lia. by apply apply_log_writes.
  - rewrite (recovered_out st) by by rewrite El. unfold committed_disk. rewrite fupd_ne by done.
    rewrite apply_writes_other; [by rewrite Hclean|]. intros w Hw.
    apply (home_not_log b w (length log_part) Hb). by rewrite firstn_all.
Qed.

(** The cache's view of the log area agrees with the disk. *)
Lemma logged_view_log j : 0 <= j < Z.of_nat (length bl) ->
  logged_view (st + j + 1) = committed_disk (st + j + 1).
Proof.
  intros Hj. unfold logged_view, committed_disk. rewrite !fupd_ne by lia.
  apply apply_writes_agree, Hclean. destruct Hgeom as [_ Hhome _ Hlen]. rewrite Forall_forall in Hhome.
  intros Hin%Hhome. destruct Hin as [_ Hin]. lia.
Qed.

(** Between the two header writes and after them: the new disk. *)
Lemma crash_installing k : let d := apply_writes committed_disk (take k home_part) in
  hdr_ok st d /\ forall b, home st b -> same_block (recovered st d b) (v0 b) /\
  ((length bl <= k)%nat -> same_block (d b) (v0 b)).
Proof.
  intros d. pose proof (commit_header_list _ committed_start) as El.
  destruct (install_prefix st committed_disk logged_view k committed_hdr_ok) as (E1 & E2).
  { rewrite El. apply logged_view_log. }
  rewrite El in E1, E2. fold home_part d in E1, E2.
  split; [apply (hdr_ok_ext st d committed_disk E1), committed_hdr_ok|]. intros b Hb.
  pose proof (committed_recovered b Hb) as Hc. destruct (E2 b Hb) as [E3 E4].
  split; [by rewrite E3|intros Hk; by rewrite E4].
Qed.

Lemma cleared_disk d : let d' := fupd d st (st32 commit_header 0 0) in
  hdr_ok st d' /\ hdr_n st d' = 0 /\ forall b, home st b -> recovered st d' b = d b.
Proof.
  intros d'. assert (hdr_n st d' = 0) as E.
  { unfold hdr_n, d'. rewrite fupd_eq, ld_st_same. reflexivity. }
  split; [by apply empty_hdr_ok|]. split; [done|]. intros b [_ Hb].
  rewrite recovered_empty by done. apply fupd_ne. unfold LOGBLOCKS, MAXOPBLOCKS in *. lia.
Qed.

(** Every crash point of a commit. *)
Lemma crash_anywhere k : let d := apply_writes d0 (take k commit_writes) in
  hdr_ok st d /\ forall b, home st b ->
    same_block (recovered st d b) (if decide (k <= length bl)%nat then d0 b else v0 b).
Proof.
  intros d. assert (length log_part = length bl) as Hll by apply length_log_writes.
  assert (length home_part = length bl) as Hhl by apply length_home_writes.
  unfold d, commit_writes. destruct (decide (k <= length bl)%nat) as [Hk|Hk].
  - rewrite take_app_le by lia. destruct (crash_before k) as [H1 H2]. split; [done|].
    intros b Hb. by rewrite H2.
  - rewrite take_app, (take_ge log_part) by lia.
    destruct (k - length log_part)%nat as [|k'] eqn:Ek; [lia|]. cbn [take].
    rewrite apply_writes_app, apply_writes_cons. fold committed_disk.
    destruct (take_app_snoc k' home_part (st, st32 commit_header 0 0)) as [E|E]; rewrite E.
    + destruct (crash_installing k') as [H1 H2]. split; [done|]. apply H2.
    + rewrite apply_writes_app, apply_writes_cons. destruct (crash_installing (length home_part)) as [_ H3].
      rewrite firstn_all in H3.
      destruct (cleared_disk (apply_writes committed_disk home_part)) as (H4 & _ & H5).
      split; [done|]. intros b Hb. cbn [apply_writes fold_left fst snd]. rewrite H5 by done. apply H3; [done|lia].
Qed.

(** The disk a completed commit leaves. *)
Lemma commit_complete b : home st b ->
  same_block (apply_writes d0 commit_writes b) (v0 b) /\ hdr_n st (apply_writes d0 commit_writes) = 0.
Proof.
  intros Hb. unfold commit_writes.
  rewrite apply_writes_app, apply_writes_cons, apply_writes_app, apply_writes_cons. fold committed_disk.
  cbn [apply_writes fold_left fst snd].
  destruct (crash_installing (length home_part)) as [_ H3]. rewrite firstn_all in H3.
  destruct (cleared_disk (apply_writes committed_disk home_part)) as (_ & H4 & H5).
  split; [|done]. rewrite <- (recovered_empty st) by done. rewrite H5 by done. apply H3; [done|].
  unfold home_part. rewrite length_home_writes. lia.
Qed.
End commit_disks.

Lemma unpin_all_spec bl : forall p b, unpin_all bl p b = if decide (b ∈ bl) then 0 else p b.
Proof.
  induction bl as [|c bl IH]; intros p b; cbn [unpin_all fold_left].
  - by rewrite decide_False by apply not_elem_of_nil.
  - change (fold_left _ ?l ?x) with (unpin_all l x). rewrite IH. unfold fupd.
    destruct (decide (b ∈ bl)) as [Hb|Hb].
    + by rewrite decide_True by (by right).
    + destruct (Z.eqb_spec b c) as [->|Hc].
      * by rewrite decide_True by left.
      * rewrite decide_False; [done|]. rewrite elem_of_cons. tauto.
Qed.

Section commit_run.
Context {S : Type} `{BL : BufCacheLaws S}.
Implicit Types t : lstate S.

(** No file-system call is running and the in-memory log lists the blocks
    [bl], each pinned once; the on-disk log is empty. *)
Record ready t (bl : list Z) : Prop := {
  r_inv : binv (bc t);
  r_dev : ldev (lg t) = bdev;
  r_geom : geom (start (lg t)) bl;
  r_n : lh_n (lg t) = Z.of_nat (length bl);
  r_lists : lists (lg t) 0 bl;
  r_quiet b : holder (absc (bc t)) b = None;
  r_pins b : pins (absc (bc t)) b = if decide (b ∈ bl) then 1 else 0;
  r_free : 0 < nfree (absc (bc t));
  r_empty : hdr_n (start (lg t)) (disk (absc (bc t))) = 0;
}.

Lemma ready_clean t bl b : ready t bl -> b ∉ bl -> view (absc (bc t)) b = disk (absc (bc t)) b.
Proof.
  intros [Hi _ _ _ _ _ Hp _ _] Hb. apply unpinned_clean; [done|]. by rewrite Hp, decide_False.
Qed.

Lemma ready_log_unpinned t bl : ready t bl -> log_unpinned (start (lg t)) (absc (bc t)).
Proof.
  intros [_ _ [_ Hh _ _] _ _ _ Hp _ _] b Hb. rewrite Hp, decide_False; [done|].
  rewrite Forall_forall in Hh. intros Hin%Hh. destruct Hin as [_ Hin]. lia.
Qed.

Lemma commit_run t bl : ready t bl -> bl <> [] ->
  let a := absc (bc t) in
  let W := commit_writes (start (lg t)) bl (lg t) (view a) in
  exists s', commit t = Ret tt (LS (set_lh_n 0 (lg t)) s') /\ binv s' /\
    (forall b, holder (absc s') b = None) /\ (forall b, pins (absc s') b = 0) /\
    nfree (absc s') = nfree a + Z.of_nat (length bl) /\
    writes (absc s') = writes a ++ W /\ disk (absc s') = apply_writes (disk a) W.
Proof.
  intros Hr Hne a W. pose proof (ready_log_unpinned t bl Hr) as Hlu.
  destruct Hr as [Hinv Hdev [Hst Hhome Hnd Hlen] Hn Hl Hq Hp Hfree Hemp].
  set (st := start (lg t)) in *. fold a in Hq, Hp, Hfree, Hlu.
  assert (u32 st = st) as Est by (apply wrap_small; unfold LOGBLOCKS, MAXOPBLOCKS in *; lia).
  assert (Z.to_nat (lh_n (lg t)) = length bl) as Hn' by lia.
  unfold commit. rewrite (bind_step (gets lg) _ t (lg t) t) by done.
  rewrite (proj2 (Z.ltb_lt 0 (lh_n (lg t)))) by (destruct bl; simpl in *; [done|lia]). cbn [when].
  (* write_log *)
  destruct (write_log_loop bl 0 t) as (s1 & E1 & I1 & A1); fold a st; try done; try lia.
  { intros b Hb. by rewrite Hp, decide_True. }
  unfold write_log at 1. rewrite bind_assoc, (bind_step (gets lg) _ t (lg t) t), Hn' by done.
  rewrite (bind_step _ _ _ _ _ E1). clear E1. fold a st in A1.
  (* write_head *)
  pose proof (write_head_ok (LS (lg t) s1)) as Hw. cbv zeta in Hw. cbn [lg bc] in Hw. fold st in Hw.
  rewrite Est, A1 in Hw. cbn [after_writes view holder pins nfree] in Hw.
  destruct Hw as (s2 & E2 & I2 & A2); auto. { apply Hlu. unfold LOGBLOCKS, MAXOPBLOCKS. lia. }
  rewrite (bind_step _ _ _ _ _ E2). clear E2.
  assert (apply_writes (view a) (log_writes st 0 bl (view a)) st = view a st) as Ev.
  { apply apply_writes_other. intros w Hw%log_writes_range. lia. }
  rewrite Ev in A2. change (header (lg t) (view a st)) with (commit_header st (lg t) (view a)) in A2.
  (* install_trans *)
  unfold install_trans at 1. rewrite bind_assoc, (bind_step (gets lg) _ _ (lg t) (LS (lg t) s2)), Hn' by done.
  destruct (install_loop false bl 0 (LS (lg t) s2)) as (s3 & E3 & I3 & A3); cbn [lg bc]; fold st;
    rewrite ?A2; try done; try lia.
  { intros b Hb. cbn. by rewrite Hp, decide_True. }
  rewrite (bind_step _ _ _ _ _ E3). clear E3. unfold on_log at 1. unfold bind at 1, modify at 1.
  cbn [lg bc] in A3 |- *. fold st in A3. rewrite A2 in A3.
  change (view (put_disk st (commit_header st (lg t) (view a)) (after_writes a (log_writes st 0 bl (view a)))))
    with (logged_view st bl (lg t) (view a)) in A3.
  fold (home_part st bl (lg t) (view a)) in A3.
  (* the final write_head *)
  pose proof (write_head_ok (LS (set_lh_n 0 (lg t)) s3)) as Hw. cbv zeta in Hw. cbn [lg bc] in Hw.
  change (start (set_lh_n 0 (lg t))) with st in Hw. rewrite Est, A3 in Hw.
  cbn [after_install put_disk after_writes view holder pins nfree] in Hw.
  destruct Hw as (s4 & E4 & I4 & A4); auto; try lia.
  { rewrite unpin_all_spec, Hp. by destruct (decide (st ∈ bl)). }
  exists s4. split; [exact E4|]. split; [done|]. rewrite A4.
  cbn [after_install put_disk after_writes view disk writes holder pins nfree].
  split; [done|]. split; [|split; [done|]].
  { intros b. rewrite unpin_all_spec, Hp. by destruct (decide (b ∈ bl)). }
  assert (apply_writes (logged_view st bl (lg t) (view a)) (home_part st bl (lg t) (view a)) st =
    commit_header st (lg t) (view a)) as Ec.
  { rewrite apply_writes_other; [apply fupd_eq|]. intros w Hw%home_writes_in E. rewrite E in Hw.
    rewrite Forall_forall in Hhome. apply Hhome in Hw as [_ Hw]. unfold LOGBLOCKS, MAXOPBLOCKS in *. lia. }
  fold (log_part st bl (view a)). fold (logged_view st bl (lg t) (view a)). rewrite Ec.
  unfold W, commit_writes. rewrite !apply_writes_app. cbn [apply_writes fold_left fst snd].
  change (fold_left _ ?W ?x) with (apply_writes x W).
  rewrite apply_writes_app, <- !app_assoc. done.
Qed.
End commit_run.
