(* ===== verification/LogCrash.v ===== *)
(** * Crash safety and space reservation of the log

    The theorems about log.c: a commit is atomic with respect to crashes (of
    the commit itself and of the recoveries that follow), log_write absorbs
    repeated writes and pins each block once, begin_op's reservation keeps
    every transaction within the log, and, over the buffer cache of bio.c,
    the one case in which a commit cannot run. *)
From stdpp Require Import base list numbers strings relations.
From Stdlib Require Import ZArith Lia FunctionalExtensionality.
From S2P Require Import Prelude Memlayout BufCache Bio Log.

Section crash.
Context {S : Type} `{BL : BufCacheLaws S}.
Implicit Types t : lstate S.

(** The disk writes performed between two states of the cache. *)
Definition new_writes (t t' : lstate S) : list (Z * bytes) :=
  drop (length (writes (absc (bc t)))) (writes (absc (bc t'))).

(** The machine boots on disk [d], recovery starts, and the machine stops
    after some of its writes, leaving disk [d']. *)
Definition crashed_recovery (st : Z) (d d' : Z -> bytes) : Prop :=
  exists t t' j, fresh (bc t) /\ disk (absc (bc t)) = d /\ initlog bdev st t = Ret tt t' /\
    d' = apply_writes d (take j (new_writes t t')).

Lemma new_writes_app t t' W :
  writes (absc (bc t')) = writes (absc (bc t)) ++ W -> new_writes t t' = W.
Proof. intros E. unfold new_writes. by rewrite E, drop_app_length. Qed.

(** The disk after some prefix of the writes of a recovery. *)
Lemma recovery_prefix st d j : hdr_ok st d ->
  let d' := apply_writes d (take j (recovery_writes st d)) in
  hdr_ok st d' /\ forall b, home st b -> same_block (recovered st d' b) (recovered st d b).
Proof.
  intros Hok d'. unfold d', recovery_writes.
  destruct (take_app_snoc j (home_writes st 0 (hdr_list st d) d) (st, st32 (d st) 0 0)) as [E|E];
    rewrite E.
  - destruct (install_prefix st d d j Hok) as (E1 & E2); [done|].
    split; [by apply (hdr_ok_ext st _ d)|]. intros b Hb. by apply E2.
  - rewrite apply_writes_app, apply_writes_cons. cbn [apply_writes fold_left].
    destruct (install_prefix st d d (length (hdr_list st d)) Hok) as (E1 & E3); [done|].
    rewrite take_ge in E1, E3 by (rewrite length_home_writes; lia).
    destruct Hok as [_ Hgeom].
    change (fold_left _ ?W ?x) with (apply_writes x W).
    set (d1 := apply_writes d (home_writes st 0 (hdr_list st d) d)) in *.
    assert (hdr_n st (fupd d1 st (st32 (d st) 0 0)) = 0) as En.
    { unfold hdr_n. rewrite fupd_eq, ld_st_same. reflexivity. }
    split; [by eapply empty_hdr_ok|]. intros b Hb.
    rewrite recovered_empty by done. rewrite fupd_ne; [by apply E3|].
    destruct Hb as [_ Hb]. unfold LOGBLOCKS, MAXOPBLOCKS in *. lia.
Qed.

Lemma crashed_recovery_ok st d d' : hdr_ok st d -> crashed_recovery st d d' ->
  hdr_ok st d' /\ forall b, home st b -> same_block (recovered st d' b) (recovered st d b).
Proof.
  intros Hok (t & t' & j & Hf & <- & E & ->).
  destruct (initlog_run t st Hf Hok) as (t2 & E2 & _ & _ & _ & _ & HW & _).
  rewrite E2 in E. injection E as <-. rewrite (new_writes_app _ _ _ HW). by apply recovery_prefix.
Qed.

Lemma crashed_recoveries_ok st d d' : hdr_ok st d -> rtc (crashed_recovery st) d d' ->
  hdr_ok st d' /\ forall b, home st b -> same_block (recovered st d' b) (recovered st d b).
Proof.
  intros Hok Hr. induction Hr as [|d1 d2 d3 Hc _ IH]; [done|].
  destruct (crashed_recovery_ok _ _ _ Hok Hc) as [Hok2 E2]. destruct (IH Hok2) as [Hok3 E3].
  split; [done|]. intros b Hb. by rewrite E3, E2.
Qed.

(** A recovery that completes leaves the recovered contents. *)
Lemma recovery_complete t st : fresh (bc t) -> hdr_ok st (disk (absc (bc t))) ->
  exists t', initlog bdev st t = Ret tt t' /\
    hdr_n st (disk (absc (bc t'))) = 0 /\
    forall b, home st b ->
      same_block (disk (absc (bc t')) b) (recovered st (disk (absc (bc t))) b).
Proof.
  intros Hf Hok. destruct (initlog_run t st Hf Hok) as (t' & E & _ & _ & _ & _ & _ & HD).
  set (d := disk (absc (bc t))) in *.
  exists t'. split; [done|]. rewrite HD. unfold recovery_writes.
  rewrite apply_writes_app, apply_writes_cons. cbn [apply_writes fold_left].
  change (fold_left _ ?W ?x) with (apply_writes x W). split.
  - unfold hdr_n. rewrite fupd_eq, ld_st_same. reflexivity.
  - intros b Hb. destruct (install_prefix st d d (length (hdr_list st d)) Hok) as (_ & E3); [done|].
    rewrite take_ge in E3 by (rewrite length_home_writes; lia).
    rewrite fupd_ne; [by apply E3|]. destruct Hb as [_ Hb]. unfold LOGBLOCKS, MAXOPBLOCKS in *. lia.
Qed.

(** C1. Commits are atomic and durable. From a state in which the
    transaction's blocks are in the log, commit runs to completion and leaves
    the transaction's contents in their home blocks on disk. If the machine
    stops after any number k of the commit's disk writes, and then any number
    of times during recovery, the recovery that completes leaves every block
    outside the log area exactly as before the transaction when k is at most
    the number of logged blocks (the header was not yet written), and exactly
    as the transaction left it otherwise; never a mixture. *)
Theorem commit_crash_safe t bl :
  ready t bl -> bl <> [] ->
  let st := start (lg t) in let old := disk (absc (bc t)) in let new := view (absc (bc t)) in
  exists t', commit t = Ret tt t' /\
    (forall b, home st b -> same_block (disk (absc (bc t')) b) (new b)) /\
    forall k d t2,
      rtc (crashed_recovery st) (apply_writes old (take k (new_writes t t'))) d ->
      fresh (bc t2) -> disk (absc (bc t2)) = d ->
      exists t3, initlog bdev st t2 = Ret tt t3 /\ forall b, home st b ->
        same_block (disk (absc (bc t3)) b) (if decide (k <= length bl)%nat then old b else new b).
Proof.
  intros Hr Hne st old new.
  destruct (commit_run t bl Hr Hne) as (s' & E & _ & _ & _ & _ & HW & HD).
  fold st old new in HW, HD.
  assert (forall b, b ∉ bl -> new b = old b) as Hcl by (intros b Hb; by apply (ready_clean t bl)).
  exists (LS (set_lh_n 0 (lg t)) s'). split; [done|]. split.
  - intros b Hb. cbn [bc]. rewrite HD.
    by eapply (commit_complete st bl (lg t) new old); try apply Hr.
  - intros k d t2 Hrec Hf Hd. rewrite (new_writes_app _ (LS _ s') _ HW) in Hrec.
    destruct (crash_anywhere st bl (lg t) new old ltac:(apply Hr) ltac:(apply Hr) ltac:(apply Hr)
      Hcl ltac:(apply Hr) k) as [Hok Hk].
    destruct (crashed_recoveries_ok st _ d Hok Hrec) as [Hokd Hrd]. rewrite <- Hd in Hokd.
    destruct (recovery_complete t2 st Hf Hokd) as (t3 & E3 & _ & H3).
    exists t3. split; [done|]. intros b Hb. rewrite (H3 b Hb), Hd, (Hrd b Hb). by apply Hk.
Qed.
End crash.

(** ** log_write *)

Lemma find_block_spec bl : forall i blk b,
  (forall j c, bl !! j = Some c -> blk (i + Z.of_nat j) = c /\ 0 <= c < 2 ^ 31) ->
  match list_find (b =.) bl with
  | Some (j, _) => find_block (length bl) i blk b = i + Z.of_nat j
  | None => find_block (length bl) i blk b = i + Z.of_nat (length bl)
  end.
Proof.
  induction bl as [|c bl IH]; intros i blk b Hl; [cbn; lia|].
  cbn [list_find find_block length].
  destruct (Hl 0%nat c eq_refl) as [E0 Hc]. rewrite Z.add_0_r in E0. rewrite E0, (wrap_small 32) by lia.
  destruct (decide (b = c)) as [->|Hne].
  - rewrite Z.eqb_refl. lia.
  - rewrite (proj2 (Z.eqb_neq c b)) by congruence.
    assert (forall k d, bl !! k = Some d -> blk (i + 1 + Z.of_nat k) = d /\ 0 <= d < 2 ^ 31) as Hl'.
    { intros k d Hk. destruct (Hl (S k) d Hk) as [E Hd]. split; [|done]. rewrite <- E. f_equal. lia. }
    specialize (IH (i + 1) blk b Hl'). destruct (list_find (b =.) bl) as [[j x]|]; cbn; rewrite IH; lia.
Qed.

Section log_write.
Context {S : Type} `{BL : BufCacheLaws S}.
Implicit Types t : lstate S.

(** The in-memory log lists [bl]. *)
Record logs t (bl : list Z) : Prop := {
  ls_n : lh_n (lg t) = Z.of_nat (length bl);
  ls_lists : lists (lg t) 0 bl;
  ls_range : Forall (fun b => 0 <= b < 2 ^ 31) bl;
}.

(** What log_write of the held block [b] in buffer [i] does. *)
Definition log_write_spec t (bl : list Z) (b i : Z) : Prop :=
  if LOGBLOCKS <=? Z.of_nat (length bl) then log_write i t = Panic "too big a transaction"
  else if outstanding (lg t) <? 1 then log_write i t = Panic "log_write outside of trans"
  else exists t', log_write i t = Ret tt t' /\ binv (bc t') /\
    outstanding (lg t') = outstanding (lg t) /\ start (lg t') = start (lg t) /\
    ldev (lg t') = ldev (lg t) /\
    (if decide (b ∈ bl) then logs t' bl /\ absc (bc t') = absc (bc t)
     else logs t' (bl ++ [b]) /\ absc (bc t') = a_pin b 1 (absc (bc t))).

Lemma log_write_run t bl b i :
  logs t bl -> binv (bc t) -> holder (absc (bc t)) b = Some i ->
  pins (absc (bc t)) b < 2 ^ 32 - 1 -> 0 <= b < 2 ^ 31 -> log_write_spec t bl b i.
Proof.
  intros [Hn Hl Hrange] Hinv Hh Hp Hb.
  unfold log_write_spec, log_write. rewrite (bind_step (gets lg) _ t (lg t) t) by done. rewrite Hn.
  destruct (LOGBLOCKS <=? Z.of_nat (length bl)); [done|].
  destruct (outstanding (lg t) <? 1); [done|].
  destruct (bdata_ok (bc t) b i Hinv Hh) as [_ Hno].
  rewrite (cache_step (gets (bblockno i)) _ t b (bc t)) by (unfold gets; by rewrite Hno).
  rewrite Nat2Z.id.
  assert (i32 b = b) as Eb by (apply (swrap_small 32); lia). rewrite Eb.
  assert (forall j c, bl !! j = Some c -> lh_block (lg t) (0 + Z.of_nat j) = c /\ 0 <= c < 2 ^ 31) as Hlk.
  { intros j c Hj. split; [by apply Hl|]. rewrite Forall_lookup in Hrange. by apply (Hrange j). }
  pose proof (find_block_spec bl 0 (lh_block (lg t)) b Hlk) as Hf.
  destruct (list_find (b =.) bl) as [[j x]|] eqn:Ef; rewrite Hf, Z.add_0_l.
  - apply list_find_Some in Ef as (Hj & -> & _). apply lookup_lt_Some in Hj as Hlt.
    destruct (decide (x ∈ bl)) as [_|Hout]; [|by destruct Hout; eapply list_elem_of_lookup_2].
    destruct (Hlk j x Hj) as [Ej _]. rewrite Z.add_0_l in Ej.
    assert (fupd (lh_block (lg t)) (Z.of_nat j) x = lh_block (lg t)) as Eid.
    { rewrite <- Ej. apply fupd_id. }
    cbv zeta. rewrite Eid.
    rewrite (proj2 (Z.eqb_neq _ _)) by lia. eexists. split; [reflexivity|]. cbn.
    split; [done|]. split; [done|]. split; [done|]. split; [done|]. split; [|done]. by split.
  - destruct (decide (b ∈ bl)) as [Hin|_].
    { apply list_find_None in Ef. rewrite Forall_forall in Ef. by destruct (Ef b). }
    rewrite Z.eqb_refl. destruct (bpin_ok (bc t) b i Hinv Hh Hp) as (s1 & E1 & I1 & A1).
    unfold on_log at 1. unfold bind at 1, modify at 1. cbn [when lg bc].
    rewrite (cache_step _ _ (LS _ (bc t)) _ _ E1). eexists. split; [reflexivity|]. cbn.
    split; [done|]. split; [done|]. split; [done|]. split; [done|]. split; [|done].
    split; cbn.
    + rewrite length_app. cbn. lia.
    + intros j c Hj. rewrite Z.add_0_l. destruct (decide (j < length bl)%nat) as [Hlt|Hge].
      * rewrite lookup_app_l in Hj by done. cbn. rewrite fupd_ne by lia. by apply Hl.
      * rewrite lookup_app_r in Hj by lia. destruct (j - length bl)%nat as [|k] eqn:Ek; [|done].
        cbn in Hj. injection Hj as ->. cbn. replace j with (length bl) by lia. apply fupd_eq.
    + apply Forall_app. split; [done|]. by constructor.
Qed.

(** log_write on a block the caller holds: with the log full it panics,
    outside a transaction it panics; otherwise a block already in the log is
    absorbed (neither the log nor the cache changes), and a new block is
    appended to the log and pinned once more. The contents the readers see and
    the disk are untouched. *)
Theorem log_write_correct t bl b i :
  logs t bl -> binv (bc t) -> holder (absc (bc t)) b = Some i ->
  pins (absc (bc t)) b < 2 ^ 32 - 1 -> 0 <= b < 2 ^ 31 -> log_write_spec t bl b i.
Proof. apply log_write_run. Qed.
End log_write.

(** ** Reservation of log space *)

Section reservation.
Context {S : Type} `{BufCache S}.
Implicit Types t : lstate S.

Lemma cache_lg {A} (m : M S A) t a t' : cache m t = Ret a t' -> lg t' = lg t.
Proof. intros (s & _ & ->)%lift_Ret_inv. done. Qed.













Lemma logs_ext t t' bl : logs t bl -> lh_n (lg t') = lh_n (lg t) -> lh_block (lg t') = lh_block (lg t) -> logs t' bl.
Proof. intros [A B C] E1 E2. split; [congruence| |done]. intros j b Hj. rewrite E2. by apply B. Qed.

(** log_write lists the block once. *)
Lemma log_write_logs i t t' bl : logs t bl -> 0 <= bblockno i (bc t) < 2 ^ 31 -> log_write i t = Ret tt t' ->
  logs t' (if decide (bblockno i (bc t) ∈ bl) then bl else bl ++ [bblockno i (bc t)]) /\
  outstanding (lg t') = outstanding (lg t) /\ committing (lg t') = committing (lg t).
Proof.
  intros [Hn Hl Hr] Hb E. unfold log_write in E. minv E. injection E0 as <- <-. rewrite Hn in E.
  destruct (LOGBLOCKS <=? _); [done|]. destruct (outstanding (lg t) <? 1); [done|].
  minv E. pose proof (cache_lg _ _ _ _ E0) as L0. apply lift_Ret_inv in E0 as (s0 & [= <- <-] & ->). injection E1 as <- <-. cbn [lg bc] in *.
  set (b := bblockno i (bc t)) in *. rewrite Nat2Z.id in E. assert (i32 b = b) as Eb by (apply (swrap_small 32); lia).
  assert (forall j c, bl !! j = Some c -> lh_block (lg t) (0 + Z.of_nat j) = c /\ 0 <= c < 2 ^ 31) as Hlk.
  { intros j c Hj. split; [by apply Hl|]. rewrite Forall_lookup in Hr. by apply (Hr j). }
  pose proof (find_block_spec bl 0 (lh_block (lg t)) b Hlk) as Hf.
  destruct (list_find (b =.) bl) as [[j x]|] eqn:Ef; rewrite Hf, Z.add_0_l in E.
  - apply list_find_Some in Ef as (Hj & -> & _). apply lookup_lt_Some in Hj as Hlt. rewrite decide_True by by eapply list_elem_of_lookup_2.
    destruct (Hlk j x Hj) as [Ej _]. rewrite Z.add_0_l in Ej. 
    rewrite (proj2 (Z.eqb_neq _ _)) in E by lia. injection E as <-. cbn [lg]. split; [|done]. eapply logs_ext; [by split|done|]. cbn. rewrite Eb, <- Ej. apply fupd_id.
  - rewrite decide_False by (intros Hin; apply list_find_None in Ef; rewrite Forall_forall in Ef; by destruct (Ef b)).
    rewrite Z.eqb_refl in E. cbn [when] in E. minv E. apply cache_lg in E0. injection E as <-. cbn [lg bc] in *. rewrite E0. split; [|done].
    split; cbn; rewrite ?E0; cbn.
    + rewrite length_app. cbn. lia.
    + intros j c Hj. rewrite Z.add_0_l. destruct (decide (j < length bl)%nat) as [Hlt|Hge].
      * rewrite lookup_app_l in Hj by done. cbn. rewrite fupd_ne by lia. by apply Hl.
      * rewrite lookup_app_r in Hj by lia. destruct (j - length bl)%nat as [|k] eqn:Ek; [|done].
        cbn in Hj. injection Hj as ->. cbn. replace j with (length bl) by lia. by rewrite fupd_eq.
    + apply Forall_app. split; [done|]. by constructor.
Qed.




End reservation.

(** ** A transaction of one block *)

(** bp = bread(dev, b); bp->data[0] = x; log_write(bp); brelse(bp) *)
Definition write_block {S} `{BufCache S} (dev b x : Z) : M (lstate S) unit :=
  i <- cache (bread dev b) ;;
  cache (modify (fun s => set_bdata i (fupd (bdata i s) 0 x) s)) ;;;
  log_write i ;;;
  cache (brelse i).

Section one_block.
Context {S : Type} `{BL : BufCacheLaws S}.

(** An empty log at block 2, in one file-system call. *)
Definition log0 (dev : Z) : log := Log 2 1 0 dev 0 (fun _ => 0) 0.

(** Nobody holds a buffer and exactly the blocks [bl], which the log lists,
    are pinned, once each. *)
Record pinned (t : lstate S) (bl : list Z) : Prop := Pinned {
  pn_inv : binv (bc t);
  pn_logs : logs t bl;
  pn_quiet b : holder (absc (bc t)) b = None;
  pn_pins b : pins (absc (bc t)) b = if decide (b ∈ bl) then 1 else 0;
}.

Lemma write_block_run t bl b x : pinned t bl -> b ∉ bl -> 0 <= b < 2 ^ 31 -> Z.of_nat (length bl) < LOGBLOCKS ->
  1 <= outstanding (lg t) -> 0 < nfree (absc (bc t)) ->
  exists t', write_block bdev b x t = Ret tt t' /\ pinned t' (bl ++ [b]) /\ nfree (absc (bc t')) = nfree (absc (bc t)) - 1 /\
    disk (absc (bc t')) = disk (absc (bc t)) /\ start (lg t') = start (lg t) /\ ldev (lg t') = ldev (lg t) /\
    outstanding (lg t') = outstanding (lg t) /\ committing (lg t') = committing (lg t).
Proof.
  intros [I0 L0 H0 P0] Hb Hr Hlen Hout N0. unfold write_block. destruct t as [l s0]. cbn [lg bc] in *.
  assert (pins (absc s0) b = 0) as Pb by by rewrite P0, decide_False.
  destruct (bread_ok s0 b I0 (H0 b)) as (i & s1 & E1 & I1 & A1); [lia|by right|].
  rewrite (cache_step _ _ (LS l s0) _ _ E1). cbn [lg].
  assert (holder (absc s1) b = Some i) as H1 by (rewrite A1; apply fupd_eq).
  destruct (set_ok s1 b i (fupd (bdata i s1) 0 x) I1 H1) as [I2 A2].
  match goal with |- context [cache (modify ?f) ;;; _] =>
    rewrite (cache_step (modify f) _ (LS _ s1) tt (f s1)) by done end.
  cbv beta. set (s2 := set_bdata i (fupd (bdata i s1) 0 x) s1) in *. cbn [lg].
  assert (pins (absc s2) b = 1) as P2 by (rewrite A2, A1; unfold a_set, a_bread; bproj; by rewrite fupd_eq, Pb).
  assert (holder (absc s2) b = Some i) as H2 by by rewrite A2.
  assert (logs (LS l s2) bl) as L2 by by eapply logs_ext.
  pose proof (log_write_run (LS l s2) bl b i L2 I2 H2 ltac:(cbn [bc]; lia) Hr) as Hw. unfold log_write_spec in Hw.
  rewrite (proj2 (Z.leb_gt LOGBLOCKS _)), (proj2 (Z.ltb_ge _ 1)) in Hw by done.
  destruct Hw as (t3 & E3 & I3 & O3 & St3 & Dv3 & Hd3). rewrite decide_False in Hd3 by done. destruct Hd3 as [L3 A3]. cbn [bc lg] in A3, O3, St3, Dv3.
  assert (committing (lg t3) = committing l) as C3.
  { destruct (bdata_ok s2 b i I2 H2) as [_ Hno]. by destruct (log_write_logs i (LS l s2) t3 bl L2 ltac:(cbn [bc]; by rewrite Hno) E3) as (_ & _ & ?). }
  rewrite (bind_step _ _ _ _ _ E3).
  destruct (brelse_ok (bc t3) b i I3) as (s4 & E4 & I4 & A4).
  { by rewrite A3. } { rewrite A3. unfold a_pin. bproj. rewrite fupd_eq, P2. lia. }
  exists (LS (lg t3) s4). split; [by apply cache_Ret|].
  rewrite A3, A2, A1 in A4. unfold a_brelse, a_pin, a_set, a_bread in A4.
  bproj in A4. rewrite !fupd_eq, Pb in A4. cbn [Z.eqb Z.add Pos.add] in A4.
  split; [split; cbn [bc lg]; rewrite ?A4; bproj|cbn [bc lg]; rewrite A4; bproj].
  - done.
  - by eapply logs_ext.
  - intros c. unfold fupd. destruct (c =? b); [done|apply H0].
  - intros c. unfold fupd. destruct (Z.eqb_spec c b) as [->|Hc].
    + rewrite decide_True by (apply elem_of_app; right; by left). done.
    + rewrite P0. destruct (decide (c ∈ bl)) as [Hin|Hin]; [by rewrite decide_True by (apply elem_of_app; by left)|].
      rewrite decide_False; [done|]. rewrite elem_of_app, list_elem_of_singleton. tauto.
  - split; [zbool; lia|done].
Qed.

Lemma one_block_ready (s0 : S) : fresh s0 -> hdr_n 2 (disk (absc s0)) = 0 ->
  exists t, write_block bdev 100 7 (LS (log0 bdev) s0) = Ret tt t /\ ready t [100] /\ start (lg t) = 2.
Proof.
  intros (I0 & H0 & P0 & N0) Hd.
  destruct (write_block_run (LS (log0 bdev) s0) [] 100 7) as (t & E & [I1 [Ln Ll _] H1 P1] & N1 & D1 & St1 & Dv1 & _);
    [|apply not_elem_of_nil|lia|cbn; unfold LOGBLOCKS, MAXOPBLOCKS; lia|cbn; lia|cbn [bc]; lia|].
  { split; [done|split; [done|intros j c Hj; done|constructor]|done|done]. }
  exists t. split; [done|]. split; [|done]. cbn [bc] in N1. split; rewrite ?St1, ?Dv1; try done.
  - split; [cbn; unfold LOGBLOCKS, MAXOPBLOCKS; lia| |apply NoDup_singleton|cbn; unfold LOGBLOCKS, MAXOPBLOCKS; lia].
    constructor; [|constructor].
    split; [lia|]. right. cbn. unfold LOGBLOCKS, MAXOPBLOCKS. lia.
  - lia.
  - cbn [lg log0 start]. by rewrite D1.
Qed.

(** Any number of blocks *)
Lemma write_blocks_run n : forall t bl b, pinned t bl -> NoDup bl -> (forall c, c ∈ bl -> c < b) -> 0 <= b -> b + Z.of_nat n < 2 ^ 31 ->
  Z.of_nat (length bl + n) <= LOGBLOCKS -> 1 <= outstanding (lg t) -> Z.of_nat n <= nfree (absc (bc t)) ->
  exists t' bl', for_loop n b (fun b => write_block bdev b 7) t = Ret tt t' /\ pinned t' bl' /\ NoDup bl' /\ length bl' = (length bl + n)%nat /\
    (forall c, c ∈ bl' -> c ∈ bl \/ b <= c) /\ start (lg t') = start (lg t) /\ ldev (lg t') = ldev (lg t) /\
    outstanding (lg t') = outstanding (lg t) /\ committing (lg t') = committing (lg t).
Proof.
  induction n as [|n IH]; intros t bl b Hp Hnd Hlt Hb Hr Hl Ho Hf; cbn [for_loop].
  { exists t, bl. split; [done|]. split; [done|]. split; [done|]. split; [lia|]. split; [auto|done]. }
  assert (b ∉ bl) as Hout by (intros Hin; specialize (Hlt b Hin); lia).
  destruct (write_block_run t bl b 7 Hp Hout ltac:(lia) ltac:(lia) Ho ltac:(lia)) as (t1 & E1 & Hp1 & N1 & _ & S1 & D1 & O1 & C1).
  rewrite (bind_step _ _ _ _ _ E1). destruct (IH t1 (bl ++ [b]) (b + 1) Hp1) as (t' & bl' & E' & Hp' & Hnd' & Hl' & Hc' & S' & D' & O' & C'); try lia.
  - apply NoDup_app. split; [done|]. split; [|apply NoDup_singleton]. intros c Hc Hc2. apply list_elem_of_singleton in Hc2 as ->. done.
  - intros c Hc. apply elem_of_app in Hc as [Hc|Hc]; [specialize (Hlt c Hc); lia|]. apply list_elem_of_singleton in Hc as ->. lia.
  - rewrite length_app. cbn [length]. lia.
  - exists t', bl'. split; [done|]. split; [done|]. split; [done|]. split; [rewrite Hl', length_app; cbn [length]; lia|].
    split; [|split_and!; congruence]. intros c Hc. destruct (Hc' c Hc) as [Hin|?]; [|right; lia].
    apply elem_of_app in Hin as [?|Hin]; [by left|]. apply list_elem_of_singleton in Hin as ->. by right.
Qed.
End one_block.

(** ** Over the buffer cache of bio.c *)

(** Blocks pinned in as many buffers as there are leave none free. *)
Lemma all_pinned s l bl : bwf s l -> NoDup bl -> Z.of_nat (length bl) = NBUF -> (forall b, b ∈ bl -> 0 < pins (bio_abs s) b) ->
  nfree (bio_abs s) = 0 /\ forall b, b ∉ bl -> idx s b = None.
Proof.
  intros Hwf Hnd Hlen Hp.
  set (js := (fun b => default 0 (idx s b)) <$> bl).
  assert (forall b, b ∈ bl -> exists i, idx s b = Some i /\ 0 <= i < NBUF /\ b_blockno (bufs s i) = b /\ b_refcnt (bufs s i) <> 0) as Hidx.
  { intros b Hb. specialize (Hp b Hb). cbn [bio_abs pins] in Hp. destruct (idx s b) as [i|] eqn:E; [|lia].
    destruct (proj1 (idx_some s l b i Hwf) E) as (H1 & _ & H3). exists i. split; [done|]. split; [done|]. split; [done|]. lia. }
  assert (js ≡ₚ ids) as Hperm.
  { apply submseteq_length_Permutation; [|unfold js; rewrite length_fmap; unfold ids; rewrite length_seqZ; lia]. apply NoDup_submseteq.
    - apply NoDup_fmap_2_strong; [|done]. intros b b' Hb Hb' E. destruct (Hidx b Hb) as (i & E1 & _ & B1 & _), (Hidx b' Hb') as (i' & E2 & _ & B2 & _).
      rewrite E1, E2 in E. cbn in E. congruence.
    - intros i Hi. apply list_elem_of_fmap in Hi as (b & -> & Hb). destruct (Hidx b Hb) as (i & -> & Hr & _). by apply elem_of_ids. }
  assert (forall i, 0 <= i < NBUF -> exists b, b ∈ bl /\ b_blockno (bufs s i) = b /\ b_refcnt (bufs s i) <> 0) as Hall.
  { intros i Hi. apply elem_of_ids in Hi. rewrite <- Hperm in Hi. apply list_elem_of_fmap in Hi as (b & Ei & Hb).
    destruct (Hidx b Hb) as (i' & E & _ & B & R). rewrite E in Ei. cbn in Ei. subst i'. by exists b. }
  split.
  - cbn [bio_abs nfree]. unfold cnt. replace (List.filter _ ids) with (@nil Z); [done|]. symmetry. rewrite (filter_ext_in _ (fun _ => false)); [by vm_compute|].
    intros i Hi%elem_of_ids. destruct (Hall i Hi) as (_ & _ & _ & R). by apply Z.eqb_neq.
  - intros b Hb. apply idx_none. intros i Hi _ E. destruct (Hall i Hi) as (b' & Hb' & E' & _). congruence.
Qed.

(** C31. NBUF equals LOGBLOCKS, so a full log cannot be committed. In any state
    of the buffer cache in which the log lists LOGBLOCKS different blocks, each
    pinned by log_write, when the last call ends, the kernel panics: every
    buffer is taken, and write_log's first bread, of the log's own block, finds
    none. begin_op admits such transactions (three calls of MAXOPBLOCKS
    blocks). *)
Theorem full_log_commit_panics (t : lstate bcache) bl :
  bio_inv (bc t) -> logs t bl -> NoDup bl -> Z.of_nat (length bl) = LOGBLOCKS ->
  (forall b, b ∈ bl -> 0 < pins (bio_abs (bc t)) b) -> u32 (start (lg t) + 1) ∉ bl ->
  ldev (lg t) = ROOTDEV -> outstanding (lg t) = 1 -> committing (lg t) = 0 ->
  end_op t = Panic "bget: no buffers".
Proof.
  intros [l Hwf] [Hn _ _] Hnd Hlen Hp Hst Hdev Ho Hc.
  destruct (all_pinned (bc t) l bl Hwf Hnd Hlen Hp) as [Hfree Hidx].
  unfold end_op, end_op_locked. unfold bind at 1 2, on_log at 1, modify at 1. unfold bind at 1, gets at 1. cbn [lg set_outstanding committing outstanding].
  rewrite Hc, Ho. change (1 - 1 =? 0) with true. cbn [Z.eqb negb]. unfold on_log at 1, modify at 1, bind at 1 2, ret at 1. cbn [when lg bc].
  unfold commit. unfold bind at 1 2, gets at 1. cbn [lg set_committing set_outstanding lh_n]. rewrite Hn, Hlen. cbn [Z.ltb Z.compare LOGBLOCKS].
  change (0 <? LOGBLOCKS) with true. cbn [when]. unfold write_log. unfold bind at 1 2, gets at 1. cbn [lg set_committing set_outstanding lh_n].
  rewrite Hn, Hlen. change (Z.to_nat LOGBLOCKS) with 30%nat. cbn [for_loop]. unfold write_log_one at 1. unfold bind at 1 2, gets at 1, cache at 1, lift at 1.
  unfold bind at 1. cbn [lg bc set_committing set_outstanding ldev start bread bio_cache]. rewrite Hdev, Z.add_0_r.
  by rewrite (b_read_no_buffers _ l _ Hwf (Hidx _ Hst) Hfree).
Qed.

Lemma boot_abs d pid : let a := bio_abs (bcache_boot d pid) in
  (forall b, pins a b = 0) /\ (forall b, holder a b = None) /\ nfree a = NBUF.
Proof.
  intros a.
  assert (forall b, idx (bcache_boot d pid) b = None) as Hi.
  { intros b. apply idx_none. intros i _ Hd.
    destruct (zero_buf_ok (bcache_boot d pid) _ (boot_strip d pid i)) as [_ E]. rewrite E in Hd. done. }
  split; [intros b; unfold a; cbn [bio_abs pins]; by rewrite Hi|].
  split; [intros b; unfold a; cbn [bio_abs holder]; by rewrite Hi|]. vm_compute. reflexivity.
Qed.

Lemma boot_fresh d pid : fresh (bcache_boot d pid).
Proof.
  destruct (boot_abs d pid) as (H1 & H2 & H3). split; [exists (rev ids); apply boot_wf|].
  split; [exact H2|]. split; [exact H1|]. change (1 < nfree (bio_abs (bcache_boot d pid))).
  rewrite H3. reflexivity.
Qed.

Lemma commit_crash_safe_witness :
  exists t t', write_block ROOTDEV 100 7 (LS (log0 ROOTDEV) (bcache_boot (fun _ _ => 0) 1)) = Ret tt t /\
    commit t = Ret tt t' /\
    forall b, home 2 b -> same_block (disk (absc (bc t')) b) (view (absc (bc t)) b).
Proof.
  destruct (one_block_ready (bcache_boot (fun _ _ => 0) 1) (boot_fresh _ _) eq_refl) as (t & E & Hr & Hst).
  destruct (commit_crash_safe t [100] Hr ltac:(discriminate)) as (t' & E' & Hd & _).
  exists t, t'. split; [exact E|]. split; [exact E'|]. rewrite Hst in Hd. exact Hd.
Defined.

Lemma log_write_correct_witness :
  exists i s t', bread bdev 100 (bcache_boot (fun _ _ => 0) 1) = Ret i s /\
    log_write i (LS (log0 ROOTDEV) s) = Ret tt t' /\ logs t' [100].
Proof.
  destruct (boot_fresh (fun _ _ => 0) 1) as (I0 & H0 & P0 & N0).
  destruct (bread_ok (bcache_boot (fun _ _ => 0) 1) 100 I0 (H0 100)) as (i & s & E & I1 & A1);
    [rewrite P0; lia|right; lia|].
  assert (holder (absc s) 100 = Some i) as H1 by (rewrite A1; apply fupd_eq).
  assert (pins (absc s) 100 = 1) as P1 by (rewrite A1; unfold a_bread; bproj; by rewrite fupd_eq, P0).
  assert (logs (LS (log0 ROOTDEV) s) []) as Hl by (split; [done|intros j c Hj; done|constructor]).
  pose proof (log_write_correct (LS (log0 ROOTDEV) s) [] 100 i Hl I1 H1 ltac:(cbn [bc]; rewrite P1; lia)
    ltac:(lia)) as (t' & E' & _ & _ & _ & _ & Hd).
  rewrite decide_False in Hd by apply not_elem_of_nil.
  exists i, s, t'. split; [exact E|]. split; [exact E'|]. apply Hd.
Defined.


Lemma full_log_commit_panics_witness :
  match for_loop 30 100 (fun b => write_block ROOTDEV b 7) (LS (log0 ROOTDEV) (bcache_boot (fun _ _ => 0) 1)) with
  | Ret _ t => lh_n (lg t) = LOGBLOCKS /\ end_op t = Panic "bget: no buffers"
  | _ => False
  end.
Proof.
  destruct (boot_fresh (fun _ _ => 0) 1) as (I0 & H0 & P0 & _). pose proof (boot_abs (fun _ _ => 0) 1) as (_ & _ & N0).
  destruct (write_blocks_run 30 (LS (log0 ROOTDEV) (bcache_boot (fun _ _ => 0) 1)) [] 100)
    as (t & bl & E & [I1 L1 H1 P1] & Hnd & Hlen & Hc & S1 & D1 & O1 & C1).
  - split; [exact I0|split; [reflexivity|intros j c Hj; discriminate Hj|constructor]|exact H0|exact P0].
  - constructor.
  - intros c Hc. apply not_elem_of_nil in Hc. contradiction.
  - lia.
  - lia.
  - vm_compute. congruence.
  - vm_compute. congruence.
  - change (Z.of_nat 30 <= nfree (bio_abs (bcache_boot (fun _ _ => 0) 1))). rewrite N0. vm_compute. congruence.
  - change bdev with ROOTDEV in E. rewrite E. split; [rewrite (ls_n _ _ L1), Hlen; reflexivity|].
    apply (full_log_commit_panics t bl I1 L1 Hnd); [rewrite Hlen; reflexivity| | |rewrite D1; reflexivity|rewrite O1; reflexivity|rewrite C1; reflexivity].
    + intros b Hb. change (0 < pins (absc (bc t)) b). rewrite P1, decide_True by exact Hb. lia.
    + rewrite S1. change (u32 (start (lg (LS (log0 ROOTDEV) (bcache_boot (fun _ _ => 0) 1))) + 1)) with 3. intros Hin.
      destruct (Hc 3 Hin) as [H|H]; [apply not_elem_of_nil in H; exact H|lia].
Defined.
