(* ===== verification/Fs.v ===== *)
(** * kernel/fs.c: the file system above the log

    Blocks are read and written inside transactions: [blocks] is what bread
    gives for each block (the view of file BufCache), and a change of a
    buffer followed by log_write and brelse is [log_update], which also
    records the block in [logged], the blocks the current transaction has
    logged. In-memory inodes live in the inode table [itable], indexed by
    slot ([NULL] is the null pointer); their sleep locks are modelled, and
    blocking on one is [Sleep]. Kernel memory holds path names, the name
    buffers and the dirent locals of the directory functions. *)
From stdpp Require Import base list numbers strings.
From Stdlib Require Import ZArith Lia FunctionalExtensionality.
From S2P Require Import Prelude Memlayout CString BufCache UserMem.

Definition ROOTINO : Z := 1.
Definition FSMAGIC : Z := 0x10203040.
Definition NDIRECT : Z := 12.
Definition NINDIRECT : Z := BSIZE / 4.
Definition MAXFILE : Z := NDIRECT + NINDIRECT.
Definition DINODE_SIZE : Z := 64.
Definition IPB : Z := BSIZE / DINODE_SIZE.
Definition BPB : Z := BSIZE * 8.
Definition DIRSIZ : Z := 14.
Definition DIRENT_SIZE : Z := 2 + DIRSIZ.
Definition T_DIR : Z := 1.
Definition T_FILE : Z := 2.
Definition T_DEVICE : Z := 3.
Definition NULL : Z := -1.

Record superblock := Superblock {
  sb_magic : Z; sb_size : Z; sb_nblocks : Z; sb_ninodes : Z;
  sb_nlog : Z; sb_logstart : Z; sb_inodestart : Z; sb_bmapstart : Z;
}.

Definition IBLOCK (i : Z) (sb : superblock) : Z := u32 (i / IPB + sb_inodestart sb).
Definition BBLOCK (b : Z) (sb : superblock) : Z := u32 (b / BPB + sb_bmapstart sb).

(** struct inode: ref and lock, and the copy of the disk inode. *)
Record inode := Inode {
  i_dev : Z; i_inum : Z; i_ref : Z;
  i_locked : Z; i_pid : Z;
  i_valid : Z;
  i_type : Z; i_major : Z; i_minor : Z; i_nlink : Z; i_size : Z;
  i_addrs : Z -> Z;
}.

(** The part of an inode that is stored on disk. *)
Record dinode := Dinode {
  d_type : Z; d_major : Z; d_minor : Z; d_nlink : Z; d_size : Z; d_addrs : Z -> Z;
}.

(** struct dinode at offset [o] of a block. *)
Definition read_dinode (d : bytes) (o : Z) : dinode :=
  Dinode (i16 (ld16 d o)) (i16 (ld16 d (o + 2))) (i16 (ld16 d (o + 4))) (i16 (ld16 d (o + 6)))
    (ld32 d (o + 8)) (fun i => ld32 d (o + 12 + 4 * i)).

Fixpoint put_addrs (n : nat) (i : Z) (a : Z -> Z) (o : Z) (d : bytes) : bytes :=
  match n with
  | O => d
  | S n' => put_addrs n' (i + 1) a o (st32 d (o + 12 + 4 * i) (a i))
  end.

Definition write_dinode (v : dinode) (o : Z) (d : bytes) : bytes :=
  let d := st16 d o (d_type v) in
  let d := st16 d (o + 2) (d_major v) in
  let d := st16 d (o + 4) (d_minor v) in
  let d := st16 d (o + 6) (d_nlink v) in
  let d := st32 d (o + 8) (d_size v) in
  put_addrs (Z.to_nat (NDIRECT + 1)) 0 (d_addrs v) o d.

Definition disk_part (ip : inode) : dinode :=
  Dinode (i_type ip) (i_major ip) (i_minor ip) (i_nlink ip) (i_size ip) (i_addrs ip).

Definition with_disk_part (v : dinode) (ip : inode) : inode :=
  Inode (i_dev ip) (i_inum ip) (i_ref ip) (i_locked ip) (i_pid ip) (i_valid ip)
    (d_type v) (d_major v) (d_minor v) (d_nlink v) (d_size v) (d_addrs v).
Definition with_ref (r : Z) (ip : inode) : inode :=
  Inode (i_dev ip) (i_inum ip) r (i_locked ip) (i_pid ip) (i_valid ip)
    (i_type ip) (i_major ip) (i_minor ip) (i_nlink ip) (i_size ip) (i_addrs ip).
Definition with_lock (l p : Z) (ip : inode) : inode :=
  Inode (i_dev ip) (i_inum ip) (i_ref ip) l p (i_valid ip)
    (i_type ip) (i_major ip) (i_minor ip) (i_nlink ip) (i_size ip) (i_addrs ip).
Definition with_valid (v : Z) (ip : inode) : inode :=
  Inode (i_dev ip) (i_inum ip) (i_ref ip) (i_locked ip) (i_pid ip) v
    (i_type ip) (i_major ip) (i_minor ip) (i_nlink ip) (i_size ip) (i_addrs ip).
Definition with_type (t : Z) (ip : inode) : inode :=
  Inode (i_dev ip) (i_inum ip) (i_ref ip) (i_locked ip) (i_pid ip) (i_valid ip)
    t (i_major ip) (i_minor ip) (i_nlink ip) (i_size ip) (i_addrs ip).
Definition with_size (z : Z) (ip : inode) : inode :=
  Inode (i_dev ip) (i_inum ip) (i_ref ip) (i_locked ip) (i_pid ip) (i_valid ip)
    (i_type ip) (i_major ip) (i_minor ip) (i_nlink ip) z (i_addrs ip).
Definition with_addr (i a : Z) (ip : inode) : inode :=
  Inode (i_dev ip) (i_inum ip) (i_ref ip) (i_locked ip) (i_pid ip) (i_valid ip)
    (i_type ip) (i_major ip) (i_minor ip) (i_nlink ip) (i_size ip) (fupd (i_addrs ip) i a).
(** ip->dev = dev; ip->inum = inum; ip->ref = 1; ip->valid = 0; *)
Definition recycle_inode (dev inum : Z) (ip : inode) : inode :=
  Inode dev inum 1 (i_locked ip) (i_pid ip) 0
    (i_type ip) (i_major ip) (i_minor ip) (i_nlink ip) (i_size ip) (i_addrs ip).

Record fstate (U : Type) := FState {
  blocks : Z -> bytes;
  logged : list Z;
  sb : superblock;
  itable : Z -> inode;
  kmem : bytes;
  usr : U;
  mypid : Z;
  mycwd : Z;             (* myproc()->cwd *)
}.
Arguments FState {U}.
Arguments blocks {U}. Arguments logged {U}. Arguments sb {U}. Arguments itable {U}.
Arguments kmem {U}. Arguments usr {U}. Arguments mypid {U}. Arguments mycwd {U}.

Section state.
Context {U : Type}.
Implicit Types s : fstate U.

Definition set_blocks (b : Z -> bytes) s : fstate U :=
  FState b (logged s) (sb s) (itable s) (kmem s) (usr s) (mypid s) (mycwd s).
Definition set_logged (l : list Z) s : fstate U :=
  FState (blocks s) l (sb s) (itable s) (kmem s) (usr s) (mypid s) (mycwd s).
Definition set_sb (x : superblock) s : fstate U :=
  FState (blocks s) (logged s) x (itable s) (kmem s) (usr s) (mypid s) (mycwd s).
Definition on_inode (i : Z) (f : inode -> inode) s : fstate U :=
  FState (blocks s) (logged s) (sb s) (fupd (itable s) i (f (itable s i))) (kmem s) (usr s)
    (mypid s) (mycwd s).
Definition set_kmem (m : bytes) s : fstate U :=
  FState (blocks s) (logged s) (sb s) (itable s) m (usr s) (mypid s) (mycwd s).
Definition set_usr (u : U) s : fstate U :=
  FState (blocks s) (logged s) (sb s) (itable s) (kmem s) u (mypid s) (mycwd s).

(** A buffer's data changed in place, without log_write. *)
Definition update_block (b : Z) (d : bytes) s : fstate U := set_blocks (fupd (blocks s) b d) s.
(** bp = bread(b); bp->data changed; log_write(bp); brelse(bp) *)
Definition log_update (b : Z) (d : bytes) s : fstate U :=
  set_logged (if existsb (Z.eqb b) (logged s) then logged s else logged s ++ [b]) (update_block b d s).
End state.

Section fs_ops.
Context {U : Type} `{UserMem U}.
Abbreviation F := (M (fstate U)).

(** bp->data of bp = bread(dev, b) *)
Definition bdata_of (b : Z) : F bytes := gets (fun s => blocks s b).
Definition inode_of (i : Z) : F inode := gets (fun s => itable s i).

Definition readsb : F superblock :=
  d <- bdata_of 1 ;;
  ret (Superblock (ld32 d 0) (ld32 d 4) (ld32 d 8) (ld32 d 12) (ld32 d 16) (ld32 d 20)
         (ld32 d 24) (ld32 d 28)).

Definition bzero (bno : Z) : F unit :=
  d <- bdata_of bno ;;
  modify (log_update bno (fill d 0 0 BSIZE)).

Definition bit_mask (bi : Z) : Z := Z.shiftl 1 (bi mod 8).

(** for (bi = 0; bi < BPB && b + bi < sb.size; bi++) if bit bi is clear: *)
Fixpoint find_free (d : bytes) (n : nat) (bi : Z) : option Z :=
  match n with
  | O => None
  | S n' => if Z.land (d (bi / 8)) (bit_mask bi) =? 0 then Some bi else find_free d n' (bi + 1)
  end.

(** balloc's loop over the bitmap blocks; [n] of them remain. *)
Fixpoint balloc_from (n : nat) (b : Z) : F Z :=
  match n with
  | O => ret 0
  | S n' =>
      x <- gets sb ;;
      d <- bdata_of (BBLOCK b x) ;;
      match find_free d (Z.to_nat (Z.min BPB (sb_size x - b))) 0 with
      | Some bi =>
          modify (log_update (BBLOCK b x)
            (fupd d (bi / 8) (u8 (Z.lor (d (bi / 8)) (bit_mask bi))))) ;;;
          bzero (b + bi) ;;;
          ret (b + bi)
      | None => balloc_from n' (b + BPB)
      end
  end.

Definition nbitmaps (x : superblock) : nat := Z.to_nat ((sb_size x + BPB - 1) / BPB).

Definition balloc : F Z := x <- gets sb ;; balloc_from (nbitmaps x) 0.

Definition bfree (b : Z) : F unit :=
  x <- gets sb ;;
  d <- bdata_of (BBLOCK b x) ;;
  let bi := b mod BPB in
  if Z.land (d (bi / 8)) (bit_mask bi) =? 0 then panic "freeing free block"
  else modify (log_update (BBLOCK b x)
         (fupd d (bi / 8) (u8 (Z.land (d (bi / 8)) (Z.lnot (bit_mask bi)))))).

(** The scan of iget: the slot of (dev, inum), or the first empty slot. *)
Fixpoint iget_scan (n : nat) (i : Z) (tbl : Z -> inode) (dev inum empty : Z) : Z + Z :=
  match n with
  | O => inr empty
  | S n' =>
      let ip := tbl i in
      if (0 <? i_ref ip) && (i_dev ip =? dev) && (i_inum ip =? inum) then inl i
      else iget_scan n' (i + 1) tbl dev inum
             (if (empty =? NULL) && (i_ref ip =? 0) then i else empty)
  end.

Definition iget (dev inum : Z) : F Z :=
  tbl <- gets itable ;;
  match iget_scan (Z.to_nat NINODE) 0 tbl dev inum NULL with
  | inl i => modify (on_inode i (fun ip => with_ref (i_ref ip + 1) ip)) ;;; ret i
  | inr empty =>
      if empty =? NULL then panic "iget: no inodes"
      else modify (on_inode empty (recycle_inode dev inum)) ;;; ret empty
  end.

Definition ino_off (inum : Z) : Z := (inum mod IPB) * DINODE_SIZE.

Fixpoint ialloc_from (n : nat) (inum dev type : Z) : F Z :=
  match n with
  | O => ret NULL
  | S n' =>
      x <- gets sb ;;
      d <- bdata_of (IBLOCK inum x) ;;
      if d_type (read_dinode d (ino_off inum)) =? 0 then
        modify (log_update (IBLOCK inum x)
          (st16 (fill d (ino_off inum) 0 DINODE_SIZE) (ino_off inum) type)) ;;;
        iget dev inum
      else ialloc_from n' (inum + 1) dev type
  end.
Definition ialloc (dev type : Z) : F Z :=
  x <- gets sb ;; ialloc_from (Z.to_nat (sb_ninodes x - 1)) 1 dev type.

Definition iupdate (i : Z) : F unit :=
  x <- gets sb ;;
  ip <- inode_of i ;;
  d <- bdata_of (IBLOCK (i_inum ip) x) ;;
  modify (log_update (IBLOCK (i_inum ip) x) (write_dinode (disk_part ip) (ino_off (i_inum ip)) d)).

Definition idup (i : Z) : F Z :=
  modify (on_inode i (fun ip => with_ref (i_ref ip + 1) ip)) ;;; ret i.

Definition acquiresleep_i (i : Z) : F unit :=
  s <- get ;;
  if i_locked (itable s i) =? 0 then modify (on_inode i (with_lock 1 (mypid s))) else sleep_on i.
Definition releasesleep_i (i : Z) : F unit := modify (on_inode i (with_lock 0 0)).
Definition holdingsleep_i (i : Z) (s : fstate U) : bool :=
  negb (i_locked (itable s i) =? 0) && (i_pid (itable s i) =? mypid s).

Definition ilock (i : Z) : F unit :=
  ip <- inode_of i ;;
  if (i =? NULL) || (i_ref ip <? 1) then panic "ilock"
  else
    acquiresleep_i i ;;;
    when (i_valid ip =? 0)
      (x <- gets sb ;;
       d <- bdata_of (IBLOCK (i_inum ip) x) ;;
       let v := read_dinode d (ino_off (i_inum ip)) in
       modify (on_inode i (fun ip => with_valid 1 (with_disk_part v ip))) ;;;
       if d_type v =? 0 then panic "ilock: no type" else ret tt).

Definition iunlock (i : Z) : F unit :=
  s <- get ;;
  if (i =? NULL) || negb (holdingsleep_i i s) || (i_ref (itable s i) <? 1) then panic "iunlock"
  else releasesleep_i i.

Definition itrunc (i : Z) : F unit :=
  for_loop (Z.to_nat NDIRECT) 0 (fun k =>
    ip <- inode_of i ;;
    when (negb (i_addrs ip k =? 0))
      (bfree (i_addrs ip k) ;;; modify (on_inode i (with_addr k 0)))) ;;;
  ip <- inode_of i ;;
  when (negb (i_addrs ip NDIRECT =? 0))
    (d <- bdata_of (i_addrs ip NDIRECT) ;;
     for_loop (Z.to_nat NINDIRECT) 0 (fun j =>
       when (negb (ld32 d (4 * j) =? 0)) (bfree (ld32 d (4 * j)))) ;;;
     bfree (i_addrs ip NDIRECT) ;;;
     modify (on_inode i (with_addr NDIRECT 0))) ;;;
  modify (on_inode i (with_size 0)) ;;;
  iupdate i.

Definition iput (i : Z) : F unit :=
  ip <- inode_of i ;;
  when ((i_ref ip =? 1) && negb (i_valid ip =? 0) && (i_nlink ip =? 0))
    (acquiresleep_i i ;;;
     itrunc i ;;;
     modify (on_inode i (with_type 0)) ;;;
     iupdate i ;;;
     modify (on_inode i (with_valid 0)) ;;;
     releasesleep_i i) ;;;
  modify (on_inode i (fun ip => with_ref (i_ref ip - 1) ip)).

Definition iunlockput (i : Z) : F unit := iunlock i ;;; iput i.

(** begin_op and end_op around the calls of ireclaim: the transaction's
    blocks are committed. *)
Definition begin_op_f : F unit := ret tt.
Definition end_op_f : F unit := modify (set_logged []).

Definition ireclaim (dev : Z) : F unit :=
  x <- gets sb ;;
  for_loop (Z.to_nat (sb_ninodes x - 1)) 1 (fun inum =>
    d <- bdata_of (IBLOCK inum x) ;;
    let v := read_dinode d (ino_off inum) in
    when (negb (d_type v =? 0) && (d_nlink v =? 0))
      (i <- iget dev inum ;;
       begin_op_f ;;; ilock i ;;; iunlock i ;;; iput i ;;; end_op_f)).

Definition fsinit (initlog : Z -> superblock -> F unit) (dev : Z) : F unit :=
  x <- readsb ;;
  modify (set_sb x) ;;;
  if negb (sb_magic x =? FSMAGIC) then panic "invalid file system"
  else initlog dev x ;;; ireclaim dev.

Definition bmap (i : Z) (bn : Z) : F Z :=
  ip <- inode_of i ;;
  if bn <? NDIRECT then
    let addr := i_addrs ip bn in
    if addr =? 0 then
      addr <- balloc ;;
      if addr =? 0 then ret 0
      else modify (on_inode i (with_addr bn addr)) ;;; ret addr
    else ret addr
  else
    let bn := bn - NDIRECT in
    if bn <? NINDIRECT then
      ind <- (if i_addrs ip NDIRECT =? 0 then
                a <- balloc ;;
                when (negb (a =? 0)) (modify (on_inode i (with_addr NDIRECT a))) ;;; ret a
              else ret (i_addrs ip NDIRECT)) ;;
      if ind =? 0 then ret 0
      else
        d <- bdata_of ind ;;
        let addr := ld32 d (4 * bn) in
        if addr =? 0 then
          addr <- balloc ;;
          when (negb (addr =? 0))
            (d <- bdata_of ind ;; modify (log_update ind (st32 d (4 * bn) addr))) ;;;
          ret addr
        else ret addr
    else panic "bmap: out of range".

Record stat := Stat { st_dev : Z; st_ino : Z; st_type : Z; st_nlink : Z; st_size : Z }.

Definition stati (i : Z) : F stat :=
  ip <- inode_of i ;;
  ret (Stat (i_dev ip) (i_inum ip) (i_type ip) (i_nlink ip) (i_size ip)).

(** either_copyout and either_copyin; true is the result 0. *)
Definition either_copyout (user : bool) (dst : Z) (src : bytes) (o len : Z) : F bool :=
  s <- get ;;
  if user then
    let '(ok, u) := copyout dst src o len (usr s) in
    modify (set_usr u) ;;; ret ok
  else modify (set_kmem (blit (kmem s) dst src o len)) ;;; ret true.
Definition either_copyin (dst : bytes) (o : Z) (user : bool) (src len : Z) : F (bool * bytes) :=
  s <- get ;;
  if user then
    let '(ok, d, u) := copyin dst o src len (usr s) in
    modify (set_usr u) ;;; ret (ok, d)
  else ret (true, blit dst o (kmem s) src len).

(** The loop of readi; -1 is the failed copyout. *)
Fixpoint readi_loop (fuel : nat) (i : Z) (user : bool) (n tot off dst : Z) : F Z :=
  match fuel with
  | O => fun _ => Diverge
  | S f =>
      if tot <? n then
        addr <- bmap i (off / BSIZE) ;;
        if addr =? 0 then ret tot
        else
          d <- bdata_of addr ;;
          let m := Z.min (n - tot) (BSIZE - off mod BSIZE) in
          ok <- either_copyout user (u64 dst) d (off mod BSIZE) m ;;
          if ok then readi_loop f i user n (tot + m) (off + m) (dst + m)
          else ret (-1)
      else ret tot
  end.

(** Iterations of the loops of readi and writei: each but the first starts
    at a block boundary. *)
Definition rw_fuel (n : Z) : nat := Z.to_nat (n / BSIZE + 3).

Definition readi (i : Z) (user : bool) (dst off n : Z) : F Z :=
  ip <- inode_of i ;;
  if (i_size ip <? off) || (u32 (off + n) <? off) then ret 0
  else
    let n := if i_size ip <? off + n then i_size ip - off else n in
    readi_loop (rw_fuel n) i user n 0 off dst.

(** The loop of writei returns tot and off. *)
Fixpoint writei_loop (fuel : nat) (i : Z) (user : bool) (n tot off src : Z) : F (Z * Z) :=
  match fuel with
  | O => fun _ => Diverge
  | S f =>
      if tot <? n then
        addr <- bmap i (off / BSIZE) ;;
        if addr =? 0 then ret (tot, off)
        else
          d <- bdata_of addr ;;
          let m := Z.min (n - tot) (BSIZE - off mod BSIZE) in
          r <- either_copyin d (off mod BSIZE) user (u64 src) m ;;
          if fst r then
            modify (log_update addr (snd r)) ;;;
            writei_loop f i user n (tot + m) (off + m) (src + m)
          else modify (update_block addr (snd r)) ;;; ret (tot, off)
      else ret (tot, off)
  end.

Definition writei (i : Z) (user : bool) (src off n : Z) : F Z :=
  ip <- inode_of i ;;
  if (i_size ip <? off) || (u32 (off + n) <? off) then ret (-1)
  else if MAXFILE * BSIZE <? off + n then ret (-1)
  else
    r <- writei_loop (rw_fuel n) i user n 0 off src ;;
    ip <- inode_of i ;;
    when (i_size ip <? snd r) (modify (on_inode i (with_size (snd r)))) ;;;
    iupdate i ;;;
    ret (fst r).

(** namecmp on two strings in kernel memory *)
Definition namecmp (m : bytes) (s t : Z) : Z := strncmp m s t DIRSIZ.

(** [de] is the kernel address of the caller's local struct dirent. *)
Fixpoint dirlookup_from (fuel : nat) (de : Z) (dp name off : Z) : F (Z * Z) :=
  match fuel with
  | O => fun _ => Diverge
  | S f =>
      ip <- inode_of dp ;;
      if off <? i_size ip then
        r <- readi dp false de off DIRENT_SIZE ;;
        if negb (r =? DIRENT_SIZE) then panic "dirlookup read"
        else
          m <- gets kmem ;;
          let inum := ld16 m de in
          if inum =? 0 then dirlookup_from f de dp name (off + DIRENT_SIZE)
          else if namecmp m name (de + 2) =? 0 then
            ip <- inode_of dp ;;
            i <- iget (i_dev ip) inum ;;
            ret (i, off)
          else dirlookup_from f de dp name (off + DIRENT_SIZE)
      else ret (NULL, 0)
  end.

Definition dir_fuel (ip : inode) : nat := Z.to_nat (i_size ip / DIRENT_SIZE + 2).

(** The result is the inode found and the offset stored through poff. *)
Definition dirlookup (de dp name : Z) : F (Z * Z) :=
  ip <- inode_of dp ;;
  if negb (i_type ip =? T_DIR) then panic "dirlookup not DIR"
  else dirlookup_from (dir_fuel ip) de dp name 0.

Fixpoint dirlink_slot (fuel : nat) (de dp off : Z) : F Z :=
  match fuel with
  | O => fun _ => Diverge
  | S f =>
      ip <- inode_of dp ;;
      if off <? i_size ip then
        r <- readi dp false de off DIRENT_SIZE ;;
        if negb (r =? DIRENT_SIZE) then panic "dirlink read"
        else
          m <- gets kmem ;;
          if ld16 m de =? 0 then ret off else dirlink_slot f de dp (off + DIRENT_SIZE)
      else ret off
  end.

Definition dirlink (de dp name inum : Z) : F Z :=
  r <- dirlookup de dp name ;;
  if negb (fst r =? NULL) then iput (fst r) ;;; ret (-1)
  else
    ip <- inode_of dp ;;
    off <- dirlink_slot (dir_fuel ip) de dp 0 ;;
    modify (fun s => set_kmem (strncpy (kmem s) (de + 2) name DIRSIZ) s) ;;;
    modify (fun s => set_kmem (st16 (kmem s) de inum) s) ;;;
    r <- writei dp false de off DIRENT_SIZE ;;
    if negb (r =? DIRENT_SIZE) then ret (-1) else ret 0.

(** Advances path over slashes. *)
Fixpoint skip_slashes (fuel : nat) (m : bytes) (path : Z) : Z :=
  match fuel with
  | O => path
  | S f => if m path =? 47 then skip_slashes f m (path + 1) else path
  end.
(** Advances path to the next slash or the end. *)
Fixpoint skip_name (fuel : nat) (m : bytes) (path : Z) : Z :=
  match fuel with
  | O => path
  | S f => if negb (m path =? 47) && negb (m path =? 0) then skip_name f m (path + 1) else path
  end.

(** The result is the new path pointer, or None for 0, and the memory with
    the element copied to name; [fuel] bounds the length of the path. *)
Definition skipelem (fuel : nat) (m : bytes) (path name : Z) : option Z * bytes :=
  let path := skip_slashes fuel m path in
  if m path =? 0 then (None, m)
  else
    let s := path in
    let path := skip_name fuel m path in
    let len := path - s in
    let m := if DIRSIZ <=? len then memmove m name s DIRSIZ
             else fupd (memmove m name s len) (name + len) 0 in
    (Some (skip_slashes fuel m path), m).

(** The loop of namex from inode [i]. *)
Fixpoint namex_from (fuel : nat) (de : Z) (i path : Z) (parent : bool) (name : Z) : F Z :=
  match fuel with
  | O => fun _ => Diverge
  | S f =>
      m <- gets kmem ;;
      let '(p, m) := skipelem (Z.to_nat MAXPATH) m path name in
      modify (set_kmem m) ;;;
      match p with
      | None => if parent then iput i ;;; ret NULL else ret i
      | Some path =>
          ilock i ;;;
          ip <- inode_of i ;;
          if negb (i_type ip =? T_DIR) then iunlockput i ;;; ret NULL
          else if parent && (m path =? 0) then iunlock i ;;; ret i
          else
            r <- dirlookup de i name ;;
            if fst r =? NULL then iunlockput i ;;; ret NULL
            else iunlockput i ;;; namex_from f de (fst r) path parent name
      end
  end.

Definition namex (de path : Z) (parent : bool) (name : Z) : F Z :=
  m <- gets kmem ;;
  i <- (if m path =? 47 then iget ROOTDEV ROOTINO
        else cwd <- gets mycwd ;; idup cwd) ;;
  namex_from (Z.to_nat MAXPATH) de i path parent name.

Definition namei (de name path : Z) : F Z := namex de path false name.
Definition nameiparent (de path name : Z) : F Z := namex de path true name.

(** Bits clear among the first [n] of a bitmap block. *)
Fixpoint count_clear (d : bytes) (n : nat) (bi : Z) : Z :=
  match n with
  | O => 0
  | S n' => (if Z.land (d (bi / 8)) (bit_mask bi) =? 0 then 1 else 0) + count_clear d n' (bi + 1)
  end.
Fixpoint count_free_from (n : nat) (b : Z) (s : fstate U) : Z :=
  match n with
  | O => 0
  | S n' => count_clear (blocks s (BBLOCK b (sb s))) (Z.to_nat (Z.min BPB (sb_size (sb s) - b))) 0 +
            count_free_from n' (b + BPB) s
  end.
Definition count_free_disk (s : fstate U) : Z :=
  u64 (i32 (count_free_from (nbitmaps (sb s)) 0 s * BSIZE)).
End fs_ops.
