(* ===== verification/FsBlocks.v ===== *)
(** * The block allocator of fs.c

    The free map as a predicate on block numbers, and what balloc, bfree and
    count_free_disk do to it. *)
From stdpp Require Import base list numbers strings.
From Stdlib Require Import ZArith Lia FunctionalExtensionality.
From S2P Require Import Prelude Memlayout CString BufCache UserMem Fs.

(** Bit [bi] of a bitmap block. *)
Definition dbit (d : bytes) (bi : Z) : bool := Z.testbit (d (bi / 8)) (bi mod 8).

Lemma mask_test v bi : (Z.land v (bit_mask bi) =? 0) = negb (Z.testbit v (bi mod 8)).
Proof.
  unfold bit_mask. pose proof (Z.mod_pos_bound bi 8 ltac:(lia)) as Hk.
  apply land_shiftl1. lia.
Qed.

(** The byte updates of balloc and bfree, on the bits of a byte. *)
Lemma set_mask_bit v bi k : 0 <= k < 8 ->
  Z.testbit (u8 (Z.lor v (bit_mask bi))) k = Z.testbit v k || (k =? bi mod 8).
Proof.
  intros Hk. unfold wrap, bit_mask. pose proof (Z.mod_pos_bound bi 8 ltac:(lia)).
  rewrite Z.mod_pow2_bits_low, Z.lor_spec by lia. f_equal.
  rewrite Z.shiftl_1_l, Z.pow2_bits_eqb by lia. apply Z.eqb_sym.
Qed.

Lemma clear_mask_bit v bi k : 0 <= k < 8 ->
  Z.testbit (u8 (Z.land v (Z.lnot (bit_mask bi)))) k = Z.testbit v k && negb (k =? bi mod 8).
Proof.
  intros Hk. unfold wrap, bit_mask. pose proof (Z.mod_pos_bound bi 8 ltac:(lia)).
  rewrite Z.mod_pow2_bits_low, Z.land_spec by lia. f_equal.
  rewrite Z.lnot_spec by lia. f_equal. rewrite Z.shiftl_1_l, Z.pow2_bits_eqb by lia. apply Z.eqb_sym.
Qed.

(** Setting and clearing bit [bi] of a block changes that bit only. *)
Lemma dbit_set d bi j : 0 <= bi -> 0 <= j ->
  dbit (fupd d (bi / 8) (u8 (Z.lor (d (bi / 8)) (bit_mask bi)))) j = dbit d j || (j =? bi).
Proof.
  intros Hbi Hj. unfold dbit. pose proof (Z.mod_pos_bound j 8 ltac:(lia)).
  destruct (Z.eqb_spec (j / 8) (bi / 8)) as [E|E].
  - rewrite E, fupd_eq, set_mask_bit by lia. f_equal.
    zbool; try done; exfalso; (Z.div_mod_to_equations; lia).
  - rewrite fupd_ne by done. destruct (Z.eqb_spec j bi) as [->|]; [done|]. by rewrite orb_false_r.
Qed.

Lemma dbit_clear d bi j : 0 <= bi -> 0 <= j ->
  dbit (fupd d (bi / 8) (u8 (Z.land (d (bi / 8)) (Z.lnot (bit_mask bi))))) j = dbit d j && negb (j =? bi).
Proof.
  intros Hbi Hj. unfold dbit. pose proof (Z.mod_pos_bound j 8 ltac:(lia)).
  destruct (Z.eqb_spec (j / 8) (bi / 8)) as [E|E].
  - rewrite E, fupd_eq, clear_mask_bit by lia. f_equal. f_equal.
    zbool; try done; exfalso; (Z.div_mod_to_equations; lia).
  - rewrite fupd_ne by done. destruct (Z.eqb_spec j bi) as [->|]; [done|]. by rewrite andb_true_r.
Qed.

Lemma find_free_spec d n : forall bi,
  match find_free d n bi with
  | Some j => bi <= j < bi + Z.of_nat n /\ dbit d j = false /\ forall k, bi <= k < j -> dbit d k = true
  | None => forall k, bi <= k < bi + Z.of_nat n -> dbit d k = true
  end.
Proof.
  induction n as [|n IH]; intros bi; cbn [find_free]; [intros; lia|].
  rewrite mask_test. fold (dbit d bi). destruct (dbit d bi) eqn:E; cbn [negb].
  - specialize (IH (bi + 1)). destruct (find_free d n (bi + 1)) as [j|].
    + destruct IH as (H1 & H2 & H3). split; [lia|]. split; [done|]. intros k Hk.
      destruct (decide (k = bi)) as [->|]; [done|]. apply H3. lia.
    + intros k Hk. destruct (decide (k = bi)) as [->|]; [done|]. apply IH. lia.
  - split; [lia|]. split; [done|]. intros; lia.
Qed.

(** ** The disk layout *)

Definition dstart (x : superblock) : Z := sb_bmapstart x + Z.of_nat (nbitmaps x).

Record layout (x : superblock) : Prop := {
  ly_size : 0 < sb_size x < 2 ^ 31;
  ly_ino : 2 <= sb_inodestart x;
  ly_bmap : sb_inodestart x + (sb_ninodes x - 1) / IPB + 1 <= sb_bmapstart x;
  ly_nino : 1 < sb_ninodes x < 2 ^ 16;
  ly_data : dstart x <= sb_size x;
}.

Section blocks.
Context {U : Type}.
Implicit Types s : fstate U.

(** Is block [b] marked in the free map? *)
Definition used s (b : Z) : bool := dbit (blocks s (BBLOCK b (sb s))) (b mod BPB).

Record alloc_inv s : Prop := {
  ai_layout : layout (sb s);
  ai_meta b : 0 <= b < dstart (sb s) -> used s b = true;
}.

Lemma bblock_eq s b : layout (sb s) -> 0 <= b < sb_size (sb s) ->
  BBLOCK b (sb s) = b / BPB + sb_bmapstart (sb s) /\
  sb_bmapstart (sb s) <= BBLOCK b (sb s) < dstart (sb s).
Proof.
  intros [Hsz Hi Hb Hn Hd] Hr.
  assert (0 <= (sb_ninodes (sb s) - 1) / IPB) by (apply Z.div_pos; [lia|done]).
  assert (2 < sb_bmapstart (sb s)) as Hbs by lia. clear Hi Hb Hn H.
  unfold BBLOCK, dstart, nbitmaps, BPB, BSIZE in *. change (1024 * 8) with 8192 in *.
  generalize dependent (sb_bmapstart (sb s)). generalize dependent (sb_size (sb s)). intros sz Hsz Hr bm Hd Hbs.
  rewrite (wrap_small 32) by (Z.div_mod_to_equations; lia).
  split; [done|]. Z.div_mod_to_equations; lia.
Qed.

(** The state after marking block [b] used. *)
Lemma mark_used s b : layout (sb s) -> 0 <= b < sb_size (sb s) ->
  let d := blocks s (BBLOCK b (sb s)) in let bi := b mod BPB in
  let s' := log_update (BBLOCK b (sb s)) (fupd d (bi / 8) (u8 (Z.lor (d (bi / 8)) (bit_mask bi)))) s in
  forall c, 0 <= c < sb_size (sb s) -> used s' c = used s c || (c =? b).
Proof.
  intros Hl Hb d bi s' c Hc. unfold used, s', log_update, update_block. cbn [blocks sb set_blocks set_logged].
  destruct (bblock_eq s b Hl Hb) as [Eb _]. destruct (bblock_eq s c Hl Hc) as [Ec _].
  assert (0 < BPB) by (unfold BPB, BSIZE; lia).
  destruct (Z.eqb_spec (BBLOCK c (sb s)) (BBLOCK b (sb s))) as [E|E].
  - rewrite E, fupd_eq. unfold bi. rewrite dbit_set by (apply Z.mod_pos_bound; lia). fold d. f_equal.
    rewrite Eb, Ec in E. clear - E H Hb Hc. unfold BPB, BSIZE in *. zbool; try done; exfalso;
      (Z.div_mod_to_equations; lia).
  - rewrite fupd_ne by done. destruct (Z.eqb_spec c b) as [->|]; [done|]. by rewrite orb_false_r.
Qed.

Lemma mark_free s b : layout (sb s) -> 0 <= b < sb_size (sb s) ->
  let d := blocks s (BBLOCK b (sb s)) in let bi := b mod BPB in
  let s' := log_update (BBLOCK b (sb s))
              (fupd d (bi / 8) (u8 (Z.land (d (bi / 8)) (Z.lnot (bit_mask bi))))) s in
  forall c, 0 <= c < sb_size (sb s) -> used s' c = used s c && negb (c =? b).
Proof.
  intros Hl Hb d bi s' c Hc. unfold used, s', log_update, update_block. cbn [blocks sb set_blocks set_logged].
  destruct (bblock_eq s b Hl Hb) as [Eb _]. destruct (bblock_eq s c Hl Hc) as [Ec _].
  assert (0 < BPB) by (unfold BPB, BSIZE; lia).
  destruct (Z.eqb_spec (BBLOCK c (sb s)) (BBLOCK b (sb s))) as [E|E].
  - rewrite E, fupd_eq. unfold bi. rewrite dbit_clear by (apply Z.mod_pos_bound; lia). fold d. f_equal. f_equal.
    rewrite Eb, Ec in E. clear - E H Hb Hc. unfold BPB, BSIZE in *. zbool; try done; exfalso;
      (Z.div_mod_to_equations; lia).
  - rewrite fupd_ne by done. destruct (Z.eqb_spec c b) as [->|]; [done|]. by rewrite andb_true_r.
Qed.

(** Writing a block outside the bitmap leaves the free map alone. *)
Lemma used_update s b d c : layout (sb s) -> 0 <= c < sb_size (sb s) ->
  b < sb_bmapstart (sb s) \/ dstart (sb s) <= b -> used (log_update b d s) c = used s c.
Proof.
  intros Hl Hc Hb. unfold used, log_update, update_block. cbn [blocks sb set_blocks set_logged].
  destruct (bblock_eq s c Hl Hc) as [_ Hr]. rewrite fupd_ne; [done|lia].
Qed.

(** The state balloc leaves when it hands out block [c]. *)
Definition marked s (c : Z) : fstate U :=
  let d := blocks s (BBLOCK c (sb s)) in let bi := c mod BPB in
  log_update (BBLOCK c (sb s)) (fupd d (bi / 8) (u8 (Z.lor (d (bi / 8)) (bit_mask bi)))) s.
Definition balloced s (c : Z) : fstate U :=
  log_update c (fill (blocks (marked s c) c) 0 0 BSIZE) (marked s c).

(** The blocks whose bits are in the bitmap block of [b]. *)
Lemma bitmap_index s b k : b mod BPB = 0 -> 0 <= k < BPB ->
  BBLOCK (b + k) (sb s) = BBLOCK b (sb s) /\ (b + k) mod BPB = k.
Proof.
  intros Hm Hk. assert (0 < BPB) as HB by (unfold BPB, BSIZE; lia).
  unfold BBLOCK. replace ((b + k) / BPB) with (b / BPB).
  - split; [done|]. rewrite Z.add_mod, Hm, Z.add_0_l, Z.mod_mod by lia. apply Z.mod_small. lia.
  - rewrite (Z.div_mod b BPB) at 2 by lia. rewrite Hm, Z.add_0_r, Z.mul_comm, Z.div_add_l by lia.
    rewrite (Z.div_small k BPB) by lia. lia.
Qed.

Lemma used_in_bitmap s b k : b mod BPB = 0 -> 0 <= k < BPB ->
  used s (b + k) = dbit (blocks s (BBLOCK b (sb s))) k.
Proof. intros Hm Hk. unfold used. by destruct (bitmap_index s b k Hm Hk) as [-> ->]. Qed.

Lemma balloc_from_spec n : forall b s, layout (sb s) -> 0 <= b -> b mod BPB = 0 ->
  sb_size (sb s) <= b + Z.of_nat n * BPB ->
  (exists c, b <= c < sb_size (sb s) /\ used s c = false /\
     (forall k, b <= k < c -> used s k = true) /\ balloc_from n b s = Ret c (balloced s c)) \/
  ((forall k, b <= k < sb_size (sb s) -> used s k = true) /\ balloc_from n b s = Ret 0 s).
Proof.
  assert (0 < BPB) as HB by (unfold BPB, BSIZE; lia).
  induction n as [|n IH]; intros b s Hl Hb Hm Hsz.
  { right. split; [intros; lia|done]. }
  set (d := blocks s (BBLOCK b (sb s))). set (m := Z.min BPB (sb_size (sb s) - b)).
  assert (balloc_from (S n) b s = match find_free d (Z.to_nat m) 0 with
    | Some bi => (modify (log_update (BBLOCK b (sb s))
          (fupd d (bi / 8) (u8 (Z.lor (d (bi / 8)) (bit_mask bi))))) ;;; bzero (b + bi) ;;; ret (b + bi)) s
    | None => balloc_from n (b + BPB) s end) as E0.
  { cbn [balloc_from]. unfold bind at 1, gets at 1. unfold bind at 1, bdata_of at 1, gets at 1.
    fold d m. by destruct (find_free d (Z.to_nat m) 0). }
  rewrite E0. clear E0.
  assert (forall k, 0 <= k < m -> used s (b + k) = dbit d k) as Hu
    by (intros k Hkm; apply used_in_bitmap; [done|lia]).
  pose proof (find_free_spec d (Z.to_nat m) 0) as Hf. assert (Z.of_nat (Z.to_nat m) = Z.max 0 m) as Em by lia. rewrite Em in Hf.
  destruct (find_free d (Z.to_nat m) 0) as [bi|].
  - destruct Hf as (H1 & H2 & H3). left. exists (b + bi). split; [lia|].
    split; [by rewrite Hu by lia|]. split.
    { intros k Hkr. replace k with (b + (k - b)) by lia. rewrite Hu by lia. apply H3. lia. }
    destruct (bitmap_index s b bi Hm ltac:(lia)) as [E1 E2]. unfold balloced, marked. rewrite E1, E2. reflexivity.
  - assert (forall k, b <= k < b + m -> used s k = true) as Hall.
    { intros k Hkr. replace k with (b + (k - b)) by lia. rewrite Hu by lia. apply Hf. lia. }
    destruct (IH (b + BPB) s Hl ltac:(lia)) as [(c & Hc & H1 & H2 & E)|[H1 E]].
    + rewrite Z.add_mod, Hm, Z.mod_same by lia. apply Z.mod_0_l. lia.
    + lia.
    + left. exists c. split; [lia|]. split; [done|]. split; [|done]. intros k Hkr.
      destruct (decide (k < b + m)); [apply Hall; lia|apply H2; lia].
    + right. split; [|done]. intros k Hkr. destruct (decide (k < b + m)); [apply Hall; lia|apply H1; lia].
Qed.

Lemma marked_sb s c : sb (marked s c) = sb s /\ sb (balloced s c) = sb s.
Proof. done. Qed.

Lemma free_in_data s c : alloc_inv s -> 0 <= c < sb_size (sb s) -> used s c = false ->
  dstart (sb s) <= c.
Proof.
  intros Hi Hc Hu. destruct (Z.le_gt_cases (dstart (sb s)) c) as [|Hlt]; [done|].
  rewrite (ai_meta _ Hi) in Hu by lia. done.
Qed.

(** What changes when free block [c] is handed out. *)
Lemma balloced_spec s c : alloc_inv s -> 0 <= c < sb_size (sb s) -> used s c = false ->
  dstart (sb s) <= c /\
  (forall b, 0 <= b < sb_size (sb s) -> used (balloced s c) b = used s b || (b =? c)) /\
  (forall o, 0 <= o < BSIZE -> blocks (balloced s c) c o = 0) /\
  (forall b, b <> c -> b <> BBLOCK c (sb s) -> blocks (balloced s c) b = blocks s b) /\
  alloc_inv (balloced s c).
Proof.
  intros Hi Hc Hu. pose proof (free_in_data s c Hi Hc Hu) as Hd.
  pose proof (ai_layout _ Hi) as Hl.
  assert (forall b, 0 <= b < sb_size (sb s) -> used (balloced s c) b = used s b || (b =? c)) as HU.
  { intros b Hb. unfold balloced. rewrite used_update by (auto; right; apply Hd).
    by apply (mark_used s c Hl Hc). }
  split; [done|]. split; [done|]. split; [|split].
  - intros o Ho. unfold balloced, log_update, update_block. cbn [blocks set_blocks set_logged].
    rewrite fupd_eq, fill_in by lia. done.
  - intros b Hb Hbb. unfold balloced, marked, log_update, update_block. cbn [blocks set_blocks set_logged].
    by rewrite !fupd_ne.
  - split; [done|]. intros b Hb. cbn [balloced log_update update_block sb set_blocks set_logged marked] in Hb.
    pose proof (ly_data _ Hl). change (sb (balloced s c)) with (sb s) in Hb.
    rewrite HU by lia. by rewrite (ai_meta _ Hi).
Qed.

(** What balloc and bfree do. *)
Definition balloc_spec s : Prop :=
  (exists c, used s c = false /\ (forall b, 0 <= b < c -> used s b = true) /\
     dstart (sb s) <= c < sb_size (sb s) /\ balloc s = Ret c (balloced s c) /\
     alloc_inv (balloced s c) /\
     (forall b, 0 <= b < sb_size (sb s) -> used (balloced s c) b = used s b || (b =? c)) /\
     (forall o, 0 <= o < BSIZE -> blocks (balloced s c) c o = 0) /\
     (forall b, b <> c -> b <> BBLOCK c (sb s) -> blocks (balloced s c) b = blocks s b)) \/
  ((forall b, 0 <= b < sb_size (sb s) -> used s b = true) /\ balloc s = Ret 0 s).

Definition bfree_spec s (c : Z) : Prop :=
  if used s c then exists s', bfree c s = Ret tt s' /\ alloc_inv s' /\
      (forall b, 0 <= b < sb_size (sb s) -> used s' b = used s b && negb (b =? c)) /\
      (forall b, b <> BBLOCK c (sb s) -> blocks s' b = blocks s b) /\
      sb s' = sb s /\ itable s' = itable s /\ kmem s' = kmem s /\ usr s' = usr s
  else bfree c s = Panic "freeing free block".

Lemma balloc_run s : alloc_inv s -> balloc_spec s.
Proof.
  intros Hi. pose proof (ai_layout _ Hi) as Hl.
  unfold balloc_spec. assert (balloc s = balloc_from (nbitmaps (sb s)) 0 s) as -> by done.
  destruct (balloc_from_spec (nbitmaps (sb s)) 0 s Hl) as [(c & Hc & Hu & Hb & E)|[Hb E]].
  - lia.
  - by vm_compute.
  - unfold nbitmaps, BPB, BSIZE. pose proof (ly_size _ Hl). Z.div_mod_to_equations; lia.
  - left. exists c. destruct (balloced_spec s c Hi Hc Hu) as (H1 & H2 & H3 & H4 & H5).
    split; [done|]. split; [done|]. split; [lia|]. done.
  - right. done.
Qed.

Lemma bfree_run s c : alloc_inv s -> dstart (sb s) <= c < sb_size (sb s) -> bfree_spec s c.
Proof.
  intros Hi Hc. pose proof (ai_layout _ Hi) as Hl.
  assert (0 <= c < sb_size (sb s)) as Hr.
  { destruct Hl as [? ? ? ? ?]. unfold dstart in Hc.
    assert (0 <= (sb_ninodes (sb s) - 1) / IPB) by (apply Z.div_pos; [lia|done]). lia. }
  unfold bfree_spec, bfree, bind, gets, bdata_of, gets. rewrite mask_test.
  fold (dbit (blocks s (BBLOCK c (sb s))) (c mod BPB)). fold (used s c).
  destruct (used s c) eqn:Hu; cbn [negb]; [|done].
  eexists. split; [reflexivity|].
  pose proof (mark_free s c Hl Hr) as HU. cbv zeta in HU.
  split; [|split; [exact HU|split; [|done]]].
  - split; [done|]. intros b Hb. pose proof (ly_data _ Hl).
    change (dstart (sb (log_update _ _ s))) with (dstart (sb s)) in Hb.
    rewrite HU, (ai_meta _ Hi) by lia. zbool; [lia|done].
  - intros b Hb. unfold log_update, update_block. cbn [blocks set_blocks set_logged]. by apply fupd_ne.
Qed.

(** balloc hands out the lowest free block, marks it and zeroes it; no
    other block of the disk changes but the bitmap block, and no other bit of
    the free map; the block is a data block. It returns 0 and changes nothing
    exactly when no block is free. *)
Theorem balloc_correct s : alloc_inv s -> balloc_spec s.
Proof. apply balloc_run. Qed.

(** bfree of an allocated data block clears its bit and nothing else, so
    that balloc can hand it out again; of a free block it panics. *)
Theorem bfree_correct s c : alloc_inv s -> dstart (sb s) <= c < sb_size (sb s) -> bfree_spec s c.
Proof. apply bfree_run. Qed.

(** Number of free blocks among [b, b+n). *)
Definition free_in s (b : Z) (n : nat) : Z :=
  Z.of_nat (length (List.filter (fun k => negb (used s k)) (seqZ b (Z.of_nat n)))).

Lemma count_clear_spec d n : forall bi, 0 <= count_clear d n bi <= Z.of_nat n.
Proof.
  induction n as [|n IH]; intros bi; cbn [count_clear]; [lia|].
  specialize (IH (bi + 1)). destruct (_ =? 0); lia.
Qed.

Lemma count_clear_free s b d n : forall bi,
  (forall k, bi <= k < bi + Z.of_nat n -> used s (b + k) = dbit d k) ->
  count_clear d n bi = free_in s (b + bi) n.
Proof.
  induction n as [|n IH]; intros bi Hu; cbn [count_clear]; [done|].
  rewrite mask_test. fold (dbit d bi). rewrite <- Hu, IH by (intros; try apply Hu; lia).
  unfold free_in. rewrite (seqZ_cons (b + bi)) by lia. cbn [List.filter].
  replace (Z.pred (Z.of_nat (S n))) with (Z.of_nat n) by lia.
  replace (Z.succ (b + bi)) with (b + (bi + 1)) by lia.
  destruct (used s (b + bi)); cbn [negb length]; lia.
Qed.

Lemma free_in_app s b n m : free_in s b (n + m) = free_in s b n + free_in s (b + Z.of_nat n) m.
Proof.
  unfold free_in. rewrite Nat2Z.inj_add, seqZ_app by lia.
  rewrite List.filter_app, length_app. lia.
Qed.

Lemma count_free_from_spec n : forall b s, 0 <= b -> b mod BPB = 0 ->
  sb_size (sb s) <= b + Z.of_nat n * BPB ->
  count_free_from n b s = free_in s b (Z.to_nat (sb_size (sb s) - b)).
Proof.
  assert (0 < BPB) as HB by (unfold BPB, BSIZE; lia).
  induction n as [|n IH]; intros b s Hb Hm Hsz; cbn [count_free_from].
  { by replace (Z.to_nat (sb_size (sb s) - b)) with 0%nat by lia. }
  rewrite (count_clear_free s b), Z.add_0_r.
  2: { intros k Hk. apply used_in_bitmap; [done|lia]. }
  rewrite IH; [|lia|rewrite Z.add_mod, Hm, Z.mod_same by lia; apply Z.mod_0_l; lia|lia].
  destruct (Z.le_gt_cases (sb_size (sb s)) (b + BPB)).
  - replace (Z.to_nat (sb_size (sb s) - (b + BPB))) with 0%nat by lia.
    replace (Z.min BPB (sb_size (sb s) - b)) with (sb_size (sb s) - b) by lia.
    change (free_in s (b + BPB) 0) with 0. apply Z.add_0_r.
  - replace (Z.to_nat (sb_size (sb s) - b)) with
      (Z.to_nat (Z.min BPB (sb_size (sb s) - b)) + Z.to_nat (sb_size (sb s) - (b + BPB)))%nat by lia.
    rewrite free_in_app. do 2 f_equal. lia.
Qed.

(** count_free_disk reports BSIZE times the number of blocks whose bit in
    the free map is clear, for every disk of less than 2^31 bytes (the
    product is computed in int). *)
Theorem count_free_disk_exact s : layout (sb s) -> sb_size (sb s) * BSIZE < 2 ^ 31 ->
  count_free_disk s = free_in s 0 (Z.to_nat (sb_size (sb s))) * BSIZE.
Proof.
  intros Hl Hsz. unfold count_free_disk. rewrite count_free_from_spec, Z.sub_0_r.
  - assert (0 <= free_in s 0 (Z.to_nat (sb_size (sb s))) <= sb_size (sb s)) as Hr.
    { unfold free_in. split; [lia|]. pose proof (ly_size _ Hl).
      pose proof (List.filter_length_le (fun k => negb (used s k))
        (seqZ 0 (Z.of_nat (Z.to_nat (sb_size (sb s)))))) as Hf.
      rewrite length_seqZ in Hf. lia. }
    assert (0 < BSIZE) by (unfold BSIZE; lia).
    rewrite (swrap_small 32) by (split; nia). apply (wrap_small 64). split; nia.
  - lia.
  - by vm_compute.
  - unfold nbitmaps, BPB, BSIZE. pose proof (ly_size _ Hl). Z.div_mod_to_equations; lia.
Qed.
End blocks.

(** ** A small disk *)

(** A freshly formatted disk of 100 blocks: log at 2, inodes at 33, bitmap at
    46, data from 47 on. *)
Definition sb100 : superblock := Superblock FSMAGIC 100 53 200 31 2 33 46.
Definition blocks100 (b : Z) : bytes := fun o =>
  if (b =? 46) && (o <? 5) then 255 else if (b =? 46) && (o =? 5) then 127 else 0.
Definition inode0 : inode := Inode 0 0 0 0 0 0 0 0 0 0 0 (fun _ => 0).
Definition fs100 : fstate flat :=
  FState blocks100 [] sb100 (fun _ => inode0) (fun _ => 0) (Flat (fun a => a) 4096) 1 0.

Lemma layout100 : layout sb100.
Proof. split; vm_compute; try split; congruence. Qed.

Lemma alloc_inv100 : alloc_inv fs100.
Proof.
  split; [exact layout100|]. intros b Hb. change (dstart (sb fs100)) with 47 in Hb.
  assert (forallb (fun k => used fs100 k) (seqZ 0 47) = true) as H by (vm_compute; reflexivity).
  rewrite forallb_forall in H. apply H. apply list_elem_of_In, elem_of_seqZ. lia.
Qed.

Lemma balloc_correct_witness : exists s', balloc fs100 = Ret 47 s' /\ alloc_inv s'.
Proof.
  destruct (balloc_correct fs100 alloc_inv100) as [(c & Hc & Hlt & Hr & E & Hi & _)|[Hall _]].
  - assert (c = 47) as ->.
    { destruct (Z.lt_trichotomy c 47) as [H|[H|H]]; [|done|].
      - rewrite (ai_meta _ alloc_inv100) in Hc by (change (dstart (sb fs100)) with 47 in *; lia). done.
      - specialize (Hlt 47 ltac:(lia)). vm_compute in Hlt. done. }
    exists (balloced fs100 47). split; [exact E|exact Hi].
  - specialize (Hall 47 ltac:(vm_compute; split; congruence)). vm_compute in Hall. done.
Defined.

Lemma bfree_correct_witness : bfree 50 fs100 = Panic "freeing free block".
Proof.
  pose proof (bfree_correct fs100 50 alloc_inv100 ltac:(vm_compute; split; congruence)) as H.
  unfold bfree_spec in H. change (used fs100 50) with false in H. exact H.
Defined.

Lemma count_free_disk_exact_witness : count_free_disk fs100 = 53 * BSIZE.
Proof. rewrite (count_free_disk_exact fs100 layout100); [reflexivity|reflexivity]. Defined.
