(* ===== verification/FsFiles.v ===== *)
(** * Files of fs.c: block maps, reads and writes

    The contents of a file as a function of the offset, through the direct
    and indirect block numbers of its inode; bmap as an operation that may
    allocate but never changes contents; readi and writei against the
    contents; the on-disk inode. *)
From stdpp Require Import base list numbers strings.
From Stdlib Require Import ZArith Lia FunctionalExtensionality.
From S2P Require Import Prelude Memlayout CString BufCache UserMem Fs FsBlocks.

Section files.
Context {U : Type}.
Implicit Types s : fstate U.
Implicit Types ip : inode.

Definition ind ip : Z := i_addrs ip NDIRECT.

(** The number of the block holding block [bn] of the file, 0 if none. *)
Definition fblk s ip (bn : Z) : Z :=
  if bn <? NDIRECT then i_addrs ip bn
  else if ind ip =? 0 then 0 else ld32 (blocks s (ind ip)) (4 * (bn - NDIRECT)).

(** The byte at offset [o]. *)
Definition fbyte s ip (o : Z) : Z :=
  let b := fblk s ip (o / BSIZE) in if b =? 0 then 0 else blocks s b (o mod BSIZE).

(** [b] is an allocated data block. *)
Definition data_block s (b : Z) : Prop := dstart (sb s) <= b < sb_size (sb s) /\ used s b = true.

Record file_wf s ip : Prop := {
  fw_blk bn : 0 <= bn < MAXFILE -> fblk s ip bn = 0 \/ data_block s (fblk s ip bn);
  fw_ind : ind ip = 0 \/ data_block s (ind ip);
  fw_inj bn bn' : 0 <= bn < MAXFILE -> 0 <= bn' < MAXFILE -> fblk s ip bn <> 0 ->
    fblk s ip bn = fblk s ip bn' -> bn = bn';
  fw_ne bn : 0 <= bn < MAXFILE -> fblk s ip bn <> 0 -> fblk s ip bn <> ind ip;
}.

Definition same_env s s' : Prop :=
  sb s' = sb s /\ kmem s' = kmem s /\ usr s' = usr s /\ mypid s' = mypid s /\ mycwd s' = mycwd s.

(** [ip'] is [ip] up to its block numbers. *)
Definition same_but_addrs ip ip' : Prop :=
  exists a, ip' = Inode (i_dev ip) (i_inum ip) (i_ref ip) (i_locked ip) (i_pid ip) (i_valid ip)
    (i_type ip) (i_major ip) (i_minor ip) (i_nlink ip) (i_size ip) a.

Definition all_bytes s : Prop := forall b, bytes_ok (blocks s b).

(** The file may have gained blocks, and nothing else has changed. *)
Record grows s ip s' ip' : Prop := {
  g_inv : alloc_inv s';
  g_env : same_env s s';
  g_wf : file_wf s' ip';
  g_ip : same_but_addrs ip ip';
  g_byte o : 0 <= o < MAXFILE * BSIZE -> fbyte s' ip' o = fbyte s ip o;
  g_keep bn : 0 <= bn < MAXFILE -> fblk s ip bn <> 0 -> fblk s' ip' bn = fblk s ip bn;
  g_ind : ind ip <> 0 -> ind ip' = ind ip;
  g_new : ind ip = 0 -> ind ip' = 0 \/ used s (ind ip') = false;
  g_newblk bn : 0 <= bn < MAXFILE ->
    fblk s' ip' bn = fblk s ip bn \/ ~ data_block s (fblk s' ip' bn);
  g_used b : data_block s b -> data_block s' b;
  g_other b : data_block s b -> b <> ind ip -> blocks s' b = blocks s b;
  g_meta b : b < sb_bmapstart (sb s) -> blocks s' b = blocks s b;
  g_bytes : all_bytes s -> all_bytes s';
}.

Lemma same_env_refl s : same_env s s.
Proof. by repeat split. Qed.

Lemma same_env_trans s1 s2 s3 : same_env s1 s2 -> same_env s2 s3 -> same_env s1 s3.
Proof. unfold same_env. intuition congruence. Qed.

Lemma same_but_addrs_refl ip : same_but_addrs ip ip.
Proof. exists (i_addrs ip). by destruct ip. Qed.

Lemma same_but_addrs_trans ip1 ip2 ip3 :
  same_but_addrs ip1 ip2 -> same_but_addrs ip2 ip3 -> same_but_addrs ip1 ip3.
Proof. intros [a ->] [b ->]. by exists b. Qed.

Lemma grows_refl s ip : alloc_inv s -> file_wf s ip -> grows s ip s ip.
Proof.
  intros Hi Hw. split; auto using same_env_refl, same_but_addrs_refl.
Qed.

Lemma grows_trans s1 ip1 s2 ip2 s3 ip3 :
  grows s1 ip1 s2 ip2 -> grows s2 ip2 s3 ip3 -> grows s1 ip1 s3 ip3.
Proof.
  intros H1 H2. pose proof (proj1 (g_env _ _ _ _ H1)) as Esb.
  split.
  - apply H2.
  - eapply same_env_trans; [apply H1|apply H2].
  - apply H2.
  - eapply same_but_addrs_trans; [apply H1|apply H2].
  - intros o Ho. by rewrite (g_byte _ _ _ _ H2), (g_byte _ _ _ _ H1).
  - intros bn Hb Hn. rewrite (g_keep _ _ _ _ H2), (g_keep _ _ _ _ H1); auto.
    by rewrite (g_keep _ _ _ _ H1).
  - intros Hn. rewrite (g_ind _ _ _ _ H2), (g_ind _ _ _ _ H1); auto. by rewrite (g_ind _ _ _ _ H1).
  - intros Hz. destruct (decide (ind ip3 = 0)) as [|Hn3]; [by left|right].
    destruct (used s1 (ind ip3)) eqn:E; [|done]. exfalso.
    destruct (fw_ind _ _ (g_wf _ _ _ _ H2)) as [|[Hr _]]; [done|].
    rewrite (proj1 (g_env _ _ _ _ H2)), Esb in Hr.
    destruct (g_used _ _ _ _ H1 (ind ip3) (conj Hr E)) as [_ E2].
    destruct (decide (ind ip2 = 0)) as [Hz2|Hn2].
    + destruct (g_new _ _ _ _ H2 Hz2) as [?|Hu2]; congruence.
    + rewrite (g_ind _ _ _ _ H2 Hn2) in E. destruct (g_new _ _ _ _ H1 Hz) as [?|?]; congruence.
  - intros bn Hb. destruct (g_newblk _ _ _ _ H2 bn Hb) as [->|Hn]; [by apply (g_newblk _ _ _ _ H1)|].
    right. intros Hd. by apply Hn, (g_used _ _ _ _ H1).
  - intros b Hb. by apply (g_used _ _ _ _ H2), (g_used _ _ _ _ H1).
  - intros b Hb Hne. rewrite (g_other _ _ _ _ H2), (g_other _ _ _ _ H1); auto.
    + by apply (g_used _ _ _ _ H1).
    + destruct (decide (ind ip1 = 0)) as [Hz|Hn]; [|by rewrite (g_ind _ _ _ _ H1)].
      intros ->. destruct (g_new _ _ _ _ H1 Hz) as [E|E]; [congruence|]. destruct Hb as [_ Hb]. congruence.
  - intros b Hb. rewrite (g_meta _ _ _ _ H2), (g_meta _ _ _ _ H1); auto. by rewrite Esb.
  - intros Hb. by apply (g_bytes _ _ _ _ H2), (g_bytes _ _ _ _ H1).
Qed.

Lemma log_update_bytes s b d : all_bytes s -> bytes_ok d -> all_bytes (log_update b d s).
Proof.
  intros Hs Hd c. unfold log_update, update_block. cbn [blocks set_blocks set_logged]. unfold fupd.
  by destruct (c =? b).
Qed.

Lemma balloced_bytes s c : all_bytes s -> all_bytes (balloced s c).
Proof.
  intros Hs. assert (all_bytes (marked s c)) as Hm.
  { apply log_update_bytes; [done|]. apply fupd_bytes_ok; [apply Hs|]. by apply wrap_range. }
  apply log_update_bytes; [done|]. apply fill_bytes_ok, Hm.
Qed.

(** ** Allocating a block *)

Section fresh_block.
Context (s : fstate U) (ip : inode) (c : Z).
Hypothesis Hi : alloc_inv s.
Hypothesis Hw : file_wf s ip.
Hypothesis Hc : dstart (sb s) <= c < sb_size (sb s).
Hypothesis Hu : used s c = false.

Lemma layout_pos : 2 < sb_bmapstart (sb s) <= dstart (sb s).
Proof.
  destruct (ai_layout _ Hi) as [? ? ? ? ?].
  assert (0 <= (sb_ninodes (sb s) - 1) / IPB) by (apply Z.div_pos; [lia|done]). unfold dstart. lia.
Qed.

Lemma balloced_data b : dstart (sb s) <= b -> b <> c -> blocks (balloced s c) b = blocks s b.
Proof.
  pose proof layout_pos. intros Hb Hne.
  destruct (balloced_spec s c Hi ltac:(lia) Hu) as (_ & _ & _ & H4 & _). apply H4; [done|].
  destruct (bblock_eq s c (ai_layout _ Hi) ltac:(lia)) as [_ Hr]. lia.
Qed.

Lemma balloced_meta b : b < sb_bmapstart (sb s) -> blocks (balloced s c) b = blocks s b.
Proof.
  pose proof layout_pos. intros Hb.
  destruct (balloced_spec s c Hi ltac:(lia) Hu) as (_ & _ & _ & H4 & _). apply H4; [lia|].
  destruct (bblock_eq s c (ai_layout _ Hi) ltac:(lia)) as [_ Hr]. lia.
Qed.

Lemma balloced_zero : forall o, 0 <= o < BSIZE -> blocks (balloced s c) c o = 0.
Proof. pose proof layout_pos. by destruct (balloced_spec s c Hi ltac:(lia) Hu) as (_ & _ & H3 & _). Qed.

Lemma balloced_data_block b : data_block s b -> data_block (balloced s c) b.
Proof.
  pose proof layout_pos. intros [Hr Hb]. split; [done|].
  destruct (balloced_spec s c Hi ltac:(lia) Hu) as (_ & H2 & _). rewrite H2 by lia. by rewrite Hb.
Qed.

Lemma balloced_new : data_block (balloced s c) c.
Proof.
  pose proof layout_pos. split; [done|].
  destruct (balloced_spec s c Hi ltac:(lia) Hu) as (_ & H2 & _). rewrite H2 by lia.
  by rewrite Z.eqb_refl, orb_true_r.
Qed.

Lemma fresh_ne b : data_block s b -> b <> c.
Proof. intros [_ Hb] ->. congruence. Qed.

Lemma fblk_balloced bn : fblk (balloced s c) ip bn = fblk s ip bn.
Proof.
  unfold fblk. destruct (bn <? NDIRECT); [done|]. destruct (Z.eqb_spec (ind ip) 0) as [|Hn]; [done|].
  destruct (fw_ind _ _ Hw) as [|Hd]; [done|].
  rewrite balloced_data; [done|apply Hd|by apply fresh_ne].
Qed.

Lemma c_pos : c <> 0.
Proof. pose proof layout_pos. lia. Qed.

(** The file gains block [c] at position [bn]. *)
Lemma grows_one s' ip' bn :
  alloc_inv s' -> same_env s s' -> same_but_addrs ip ip' -> 0 <= bn < MAXFILE ->
  fblk s ip bn = 0 -> ind ip' = ind ip ->
  (forall k, 0 <= k < MAXFILE -> fblk s' ip' k = if k =? bn then c else fblk s ip k) ->
  (forall b, data_block s b -> data_block s' b) -> data_block s' c ->
  (forall b, data_block s b -> b <> ind ip -> blocks s' b = blocks s b) ->
  (forall o, 0 <= o < BSIZE -> blocks s' c o = 0) ->
  (forall b, b < sb_bmapstart (sb s) -> blocks s' b = blocks s b) ->
  (all_bytes s -> all_bytes s') ->
  grows s ip s' ip' /\ fblk s' ip' bn = c.
Proof.
  intros Hi' He Hs Hbn Hz Eind Hf Hd Hdc Ho Hzero Hm Hby. pose proof c_pos as Hc0.
  split; [|rewrite Hf by done; by rewrite Z.eqb_refl].
  split; try done.
  - split.
    + intros k Hk. rewrite Hf by done. destruct (k =? bn); [by right|].
      destruct (fw_blk _ _ Hw k Hk); auto.
    + rewrite Eind. destruct (fw_ind _ _ Hw); auto.
    + intros k k' Hk Hk'. rewrite !Hf by done.
      destruct (Z.eqb_spec k bn) as [->|], (Z.eqb_spec k' bn) as [->|]; try done.
      * intros _ E. destruct (fw_blk _ _ Hw k' Hk') as [?|Hb]; [congruence|].
        by destruct (fresh_ne _ Hb).
      * intros _ E. destruct (fw_blk _ _ Hw k Hk) as [?|Hb]; [congruence|]. by destruct (fresh_ne _ Hb).
      * by apply (fw_inj _ _ Hw).
    + intros k Hk. rewrite Hf, Eind by done. destruct (k =? bn); [|by apply (fw_ne _ _ Hw)].
      intros _ E. destruct (fw_ind _ _ Hw) as [?|Hb]; [congruence|]. by destruct (fresh_ne _ Hb).
  - intros o Hor. unfold fbyte.
    assert (0 <= o / BSIZE < MAXFILE) as Hk by (unfold BSIZE in *; Z.div_mod_to_equations; lia).
    assert (0 <= o mod BSIZE < BSIZE) as Hm' by (apply Z.mod_pos_bound; unfold BSIZE; lia).
    rewrite Hf by done. destruct (Z.eqb_spec (o / BSIZE) bn) as [->|Hne].
    + rewrite (proj2 (Z.eqb_neq c 0)), Hz by done. cbn. by apply Hzero.
    + destruct (Z.eqb_spec (fblk s ip (o / BSIZE)) 0) as [|Hn]; [done|].
      destruct (fw_blk _ _ Hw _ Hk) as [|Hb]; [done|].
      by rewrite Ho by (try done; apply (fw_ne _ _ Hw _ Hk Hn)).
  - intros k Hk Hn. rewrite Hf by done. destruct (Z.eqb_spec k bn); [congruence|done].
  - intros Hn. left. congruence.
  - intros k Hk. rewrite Hf by done. destruct (k =? bn); [right|by left]. intros [_ Hb]. congruence.
Qed.

(** A block number stored in the inode. *)
Lemma fresh_direct bn : 0 <= bn < NDIRECT -> i_addrs ip bn = 0 ->
  let ip' := with_addr bn c ip in
  grows s ip (balloced s c) ip' /\ fblk (balloced s c) ip' bn = c.
Proof.
  intros Hbn Hz ip'. pose proof layout_pos as Hp.
  destruct (balloced_spec s c Hi ltac:(lia) Hu) as (_ & _ & _ & _ & Hi').
  assert (ind ip' = ind ip) as Eind by (unfold ind, ip'; cbn [with_addr i_addrs]; by rewrite fupd_ne by lia).
  apply grows_one; try done.
  - by exists (fupd (i_addrs ip) bn c).
  - unfold MAXFILE. change NINDIRECT with 256. lia.
  - unfold fblk. by rewrite (proj2 (Z.ltb_lt bn NDIRECT)) by lia.
  - intros k Hk. rewrite <- (fblk_balloced k). unfold fblk. rewrite Eind. cbn [ip' with_addr i_addrs].
    destruct (Z.eqb_spec k bn) as [->|Hne].
    + rewrite (proj2 (Z.ltb_lt bn NDIRECT)) by lia. apply fupd_eq.
    + by rewrite fupd_ne.
  - apply balloced_data_block.
  - apply balloced_new.
  - intros b Hb _. apply balloced_data; [apply Hb|by apply fresh_ne].
  - apply balloced_zero.
  - apply balloced_meta.
  - apply balloced_bytes.
Qed.

(** A block number stored in the indirect block. *)
Lemma fresh_entry bn : NDIRECT <= bn < MAXFILE -> ind ip <> 0 -> fblk s ip bn = 0 ->
  let s1 := balloced s c in
  let s' := log_update (ind ip) (st32 (blocks s1 (ind ip)) (4 * (bn - NDIRECT)) c) s1 in
  grows s ip s' ip /\ fblk s' ip bn = c.
Proof.
  intros Hbn Hn Hz s1 s'. pose proof layout_pos as Hp.
  destruct (balloced_spec s c Hi ltac:(lia) Hu) as (_ & _ & _ & _ & Hi').
  destruct (fw_ind _ _ Hw) as [|Hd]; [done|]. pose proof (fresh_ne _ Hd) as Hne.
  assert (forall b, b <> ind ip -> blocks s' b = blocks s1 b) as Hb1.
  { intros b Hb. unfold s', log_update, update_block. cbn [blocks set_blocks set_logged]. by apply fupd_ne. }
  assert (blocks s' (ind ip) = st32 (blocks s (ind ip)) (4 * (bn - NDIRECT)) c) as Hbi.
  { unfold s', log_update, update_block. cbn [blocks set_blocks set_logged]. rewrite fupd_eq.
    unfold s1. rewrite balloced_data; [done|apply Hd|done]. }
  assert (forall b, 0 <= b < sb_size (sb s) -> used s' b = used s1 b) as Hus.
  { intros b Hb. apply used_update; [apply Hi|done|]. right. apply Hd. }
  apply grows_one; try done.
  - split; [apply Hi|]. intros b Hb. change (sb s') with (sb s) in Hb.
    pose proof (ly_data _ (ai_layout _ Hi)). rewrite Hus by lia. by apply (ai_meta _ Hi').
  - apply same_but_addrs_refl.
  - unfold NDIRECT in *. lia.
  - intros k Hk. unfold fblk. destruct (Z.ltb_spec k NDIRECT) as [Hlt|Hge].
    + destruct (Z.eqb_spec k bn); [lia|done].
    + rewrite (proj2 (Z.eqb_neq _ _) Hn), Hbi. destruct (Z.eqb_spec k bn) as [->|Hkb].
      * rewrite ld_st_same. change (256 ^ Z.of_nat 4) with (2 ^ 32). apply Z.mod_small.
        pose proof (ly_size _ (ai_layout _ Hi)). lia.
      * apply ld_st_other. lia.
  - intros b Hb. pose proof (balloced_data_block b Hb) as [H1 H2]. split; [done|].
    rewrite Hus by (destruct Hb as [? _]; lia). done.
  - destruct balloced_new as [H1 H2]. split; [done|]. rewrite Hus by lia. done.
  - intros b Hb Hbn'. rewrite Hb1 by done. apply balloced_data; [apply Hb|by apply fresh_ne].
  - intros o Ho. rewrite Hb1 by congruence. by apply balloced_zero.
  - intros b Hb. rewrite Hb1 by (destruct Hd as [? _]; lia). by apply balloced_meta.
  - intros Hb. apply log_update_bytes; [by apply balloced_bytes|]. apply st_bytes_ok. by apply balloced_bytes.
Qed.

(** A new indirect block. *)
Lemma fresh_indirect : ind ip = 0 ->
  let ip' := with_addr NDIRECT c ip in
  grows s ip (balloced s c) ip' /\ ind ip' = c.
Proof.
  intros Hz ip'. pose proof layout_pos as Hp. pose proof c_pos as Hc0.
  destruct (balloced_spec s c Hi ltac:(lia) Hu) as (_ & _ & _ & _ & Hi').
  assert (ind ip' = c) as Eind by (unfold ind, ip'; cbn [with_addr i_addrs]; apply fupd_eq).
  split; [|done].
  assert (forall k, 0 <= k < MAXFILE -> fblk (balloced s c) ip' k = fblk s ip k) as Hf.
  { intros k Hk. unfold fblk. rewrite Eind, Hz. cbn [Z.eqb ip' with_addr i_addrs].
    destruct (Z.ltb_spec k NDIRECT); [rewrite fupd_ne by lia; done|].
    rewrite (proj2 (Z.eqb_neq c 0)) by done.
    rewrite (ld_ext 4 _ (fill (fun _ => 0) 0 0 BSIZE)).
    - apply ld_fill_zero; [lia|]. unfold MAXFILE, NINDIRECT, BSIZE in *. Z.div_mod_to_equations; lia.
    - intros x Hx. assert (0 <= x < BSIZE) as Hxr.
      { unfold MAXFILE, NINDIRECT, BSIZE in *. Z.div_mod_to_equations; lia. }
      rewrite balloced_zero, fill_in by lia. done. }
  split; try done.
  - split.
    + intros k Hk. rewrite Hf by done. destruct (fw_blk _ _ Hw k Hk); [by left|right].
      by apply balloced_data_block.
    + rewrite Eind. right. apply balloced_new.
    + intros k k' Hk Hk'. rewrite !Hf by done. by apply (fw_inj _ _ Hw).
    + intros k Hk. rewrite Hf, Eind by done. intros Hn E.
      destruct (fw_blk _ _ Hw k Hk) as [|Hb]; [done|]. by apply (fresh_ne _ Hb).
  - by exists (fupd (i_addrs ip) NDIRECT c).
  - intros o Ho. unfold fbyte.
    assert (0 <= o / BSIZE < MAXFILE) as Hk by (unfold BSIZE in *; Z.div_mod_to_equations; lia).
    rewrite Hf by done. destruct (Z.eqb_spec (fblk s ip (o / BSIZE)) 0) as [|Hn]; [done|].
    destruct (fw_blk _ _ Hw _ Hk) as [|Hb]; [done|].
    rewrite balloced_data; [done|apply Hb|by apply fresh_ne].
  - intros k Hk _. by apply Hf.
  - rewrite Eind. by right.
  - intros k Hk. left. by apply Hf.
  - apply balloced_data_block.
  - intros b Hb _. apply balloced_data; [apply Hb|by apply fresh_ne].
  - apply balloced_meta.
  - apply balloced_bytes.
Qed.
End fresh_block.

Lemma alloc_inv_on_inode s i f : alloc_inv s -> alloc_inv (on_inode i f s).
Proof. intros [H1 H2]. by split. Qed.

Lemma file_wf_on_inode s ip i f : file_wf s ip -> file_wf (on_inode i f s) ip.
Proof. intros [H1 H2 H3 H4]. by split. Qed.

Lemma grows_on_inode s ip s' ip' i f : grows s ip s' ip' -> grows s ip (on_inode i f s') ip'.
Proof.
  intros [H1 H2 H3 H4 H5 H6 H7 H8 H9 H10 H11 H12 H13].
  split; auto using alloc_inv_on_inode, file_wf_on_inode.
Qed.

Lemma grows_from_on_inode s ip s' ip' i f : grows (on_inode i f s) ip s' ip' -> grows s ip s' ip'.
Proof. intros [H1 H2 H3 H4 H5 H6 H7 H8 H9 H10 H11 H12 H13]. by split. Qed.

(** No block is free. *)
Definition disk_full s : Prop := forall b, 0 <= b < sb_size (sb s) -> used s b = true.

(** What bmap of block [bn] of the inode in slot [i] does. *)
Definition bmap_spec (i bn : Z) s : Prop :=
  exists a s', bmap i bn s = Ret a s' /\ grows s (itable s i) s' (itable s' i) /\
    (forall j, j <> i -> itable s' j = itable s j) /\
    (a <> 0 -> fblk s' (itable s' i) bn = a) /\
    (a = 0 -> forall b, 0 <= b < sb_size (sb s) -> used s' b = true) /\
    (fblk s (itable s i) bn <> 0 -> a = fblk s (itable s i) bn /\ s' = s).

Lemma bmap_direct i bn s : alloc_inv s -> file_wf s (itable s i) -> 0 <= bn < NDIRECT ->
  bmap_spec i bn s.
Proof.
  intros Hi Hw Hbn. pose proof (layout_pos s Hi) as Hp. unfold bmap_spec, bmap.
  unfold bind at 1, inode_of, gets. rewrite (proj2 (Z.ltb_lt bn NDIRECT)) by lia.
  assert (fblk s (itable s i) bn = i_addrs (itable s i) bn) as Ef
    by (unfold fblk; by rewrite (proj2 (Z.ltb_lt bn NDIRECT)) by lia).
  rewrite Ef. destruct (Z.eqb_spec (i_addrs (itable s i) bn) 0) as [Ez|En].
  - destruct (balloc_run s Hi) as [(c & Hu & _ & Hc & E & _)|[Hfull E]].
    + rewrite (bind_step _ _ _ _ _ E). rewrite (proj2 (Z.eqb_neq c 0)) by lia.
      eexists _, _. split; [reflexivity|]. cbn [itable on_inode].
      destruct (fresh_direct s (itable s i) c Hi Hw Hc Hu bn Hbn Ez) as [Hg Hf].
      rewrite fupd_eq. split; [by apply grows_on_inode|]. split; [intros j Hj; by rewrite fupd_ne|].
      split; [intros _; exact Hf|]. split; [lia|congruence].
    + rewrite (bind_step _ _ _ _ _ E). eexists 0, s. split; [done|].
      split; [by apply grows_refl|]. split; [done|]. split; [done|]. split; [auto|congruence].
  - eexists _, s. split; [done|]. split; [by apply grows_refl|]. split; [done|]. split; [done|].
    split; [congruence|done].
Qed.

(** The second half of the indirect case: the indirect block is there. *)
Lemma bmap_entry i bn s : alloc_inv s -> file_wf s (itable s i) -> NDIRECT <= bn < MAXFILE ->
  ind (itable s i) <> 0 ->
  exists a s',
    (d <- bdata_of (ind (itable s i)) ;;
     let addr := ld32 d (4 * (bn - NDIRECT)) in
     if addr =? 0 then
       addr <- balloc ;;
       when (negb (addr =? 0))
         (d <- bdata_of (ind (itable s i)) ;;
          modify (log_update (ind (itable s i)) (st32 d (4 * (bn - NDIRECT)) addr))) ;;;
       ret addr
     else ret addr) s = Ret a s' /\
    grows s (itable s i) s' (itable s' i) /\ itable s' = itable s /\
    (a <> 0 -> fblk s' (itable s' i) bn = a) /\
    (a = 0 -> forall b, 0 <= b < sb_size (sb s) -> used s' b = true) /\
    (fblk s (itable s i) bn <> 0 -> a = fblk s (itable s i) bn /\ s' = s).
Proof.
  intros Hi Hw Hbn Hn. pose proof (layout_pos s Hi) as Hp. unfold bind at 1, bdata_of at 1, gets.
  assert (fblk s (itable s i) bn = ld32 (blocks s (ind (itable s i))) (4 * (bn - NDIRECT))) as Ef.
  { unfold fblk. rewrite (proj2 (Z.ltb_ge bn NDIRECT)) by lia. by rewrite (proj2 (Z.eqb_neq _ _)). }
  cbv zeta. rewrite <- Ef. destruct (Z.eqb_spec (fblk s (itable s i) bn) 0) as [Ez|En].
  - destruct (balloc_run s Hi) as [(c & Hu & _ & Hc & E & _)|[Hfull E]].
    + rewrite (bind_step _ _ _ _ _ E). rewrite (proj2 (Z.eqb_neq c 0)) by lia. cbn [negb when].
      destruct (fresh_entry s (itable s i) c Hi Hw Hc Hu bn Hbn Hn Ez) as [Hg Hf].
      eexists c, _. split; [reflexivity|]. split; [exact Hg|]. split; [done|].
      split; [intros _; exact Hf|]. split; [lia|congruence].
    + rewrite (bind_step _ _ _ _ _ E). cbn [Z.eqb negb when]. eexists 0, s. split; [done|].
      split; [by apply grows_refl|]. split; [done|]. split; [done|]. split; [auto|congruence].
  - eexists _, s. split; [done|]. split; [by apply grows_refl|]. split; [done|]. split; [done|].
    split; [congruence|done].
Qed.

Lemma bmap_run i bn s : alloc_inv s -> file_wf s (itable s i) -> 0 <= bn < MAXFILE -> bmap_spec i bn s.
Proof.
  intros Hi Hw Hbn. destruct (Z.lt_ge_cases bn NDIRECT) as [|Hge]; [apply bmap_direct; [done|done|lia]|].
  pose proof (layout_pos s Hi) as Hp. unfold bmap_spec, bmap.
  unfold bind at 1, inode_of, gets. rewrite (proj2 (Z.ltb_ge bn NDIRECT)) by lia. cbv zeta.
  rewrite (proj2 (Z.ltb_lt (bn - NDIRECT) NINDIRECT)) by (unfold MAXFILE in *; lia).
  fold (ind (itable s i)). destruct (Z.eqb_spec (ind (itable s i)) 0) as [Ez|En].
  - rewrite bind_assoc.
    assert (fblk s (itable s i) bn = 0) as Efz.
    { unfold fblk. rewrite (proj2 (Z.ltb_ge bn NDIRECT)), Ez by lia. done. }
    destruct (balloc_run s Hi) as [(c & Hu & _ & Hc & E & _)|[Hfull E]].
    + rewrite (bind_step _ _ _ _ _ E). rewrite (proj2 (Z.eqb_neq c 0)) by lia. cbn [negb when].
      destruct (fresh_indirect s (itable s i) c Hi Hw Hc Hu Ez) as [Hg Hind].
      set (s1 := on_inode i (with_addr NDIRECT c) (balloced s c)).
      assert (itable s1 i = with_addr NDIRECT c (itable s i)) as E1 by apply fupd_eq.
      assert (grows s (itable s i) s1 (itable s1 i)) as Hg1 by (rewrite E1; by apply grows_on_inode).
      rewrite bind_assoc. rewrite (bind_step (modify _) _ _ tt s1) by done.
      rewrite (bind_step (ret c) _ _ c s1) by done. cbv beta. rewrite (proj2 (Z.eqb_neq c 0)) by lia.
      assert (ind (itable s1 i) <> 0) as Hn1 by (rewrite E1, Hind; lia).
      destruct (bmap_entry i bn s1 (g_inv _ _ _ _ Hg1) (g_wf _ _ _ _ Hg1) ltac:(lia) Hn1)
        as (a & s' & E' & Hg2 & Ht & Ha & Hz & _).
      rewrite E1, Hind in E'. exists a, s'. split; [exact E'|].
      split; [by eapply grows_trans|]. split; [|split; [done|split; [|congruence]]].
      * intros j Hj. rewrite Ht. unfold s1. cbn [itable on_inode]. by apply fupd_ne.
      * intros H0 b Hb. by apply Hz.
    + rewrite (bind_step _ _ _ _ _ E). cbn [Z.eqb negb when]. exists 0, s. split; [done|].
      split; [by apply grows_refl|]. split; [done|]. split; [done|]. split; [auto|congruence].
  - rewrite (bind_step (ret _) _ _ (ind (itable s i)) s) by done. rewrite (proj2 (Z.eqb_neq _ _)) by done.
    destruct (bmap_entry i bn s Hi Hw ltac:(lia) En) as (a & s' & E' & Hg2 & Ht & Ha & Hz & Hf).
    exists a, s'. split; [exact E'|]. split; [done|]. split; [by rewrite Ht|]. done.
Qed.

(** bmap finds or makes the block of a file: the result is the disk block
    now mapped at position bn, or 0 exactly when the disk is full; an existing
    block is returned with nothing changed; and whatever it allocates (the
    block, the indirect block, the entry in it), the file stays well formed
    and no byte of it changes, no block of another file changes, and no
    in-memory inode but this one's block numbers. *)
Theorem bmap_correct i bn s :
  alloc_inv s -> file_wf s (itable s i) -> 0 <= bn < MAXFILE -> bmap_spec i bn s.
Proof. apply bmap_run. Qed.
End files.

(** ** Writing and reading file contents *)

Section contents.
Context {U : Type} `{UL : UserMemLaws U}.
Implicit Types s : fstate U.
Implicit Types ip : inode.

Lemma bsize_pos : 0 < BSIZE.
Proof. unfold BSIZE. lia. Qed.

(** A block of the file replaced by [d]. *)
Lemma block_written s ip bn d s2 :
  alloc_inv s -> file_wf s ip -> 0 <= bn < MAXFILE -> fblk s ip bn <> 0 ->
  blocks s2 = fupd (blocks s) (fblk s ip bn) d -> sb s2 = sb s ->
  alloc_inv s2 /\ file_wf s2 ip /\ (forall k, fblk s2 ip k = fblk s ip k) /\
  (forall b, data_block s b <-> data_block s2 b) /\
  (forall o, 0 <= o < MAXFILE * BSIZE ->
     fbyte s2 ip o = if o / BSIZE =? bn then d (o mod BSIZE) else fbyte s ip o).
Proof.
  intros Hi Hw Hbn Hn Hb Hs.
  destruct (fw_blk _ _ Hw bn Hbn) as [|Hd]; [done|].
  assert (forall b, 0 <= b < sb_size (sb s) -> used s2 b = used s b) as Hu.
  { intros b Hr. unfold used. rewrite Hs, Hb. rewrite fupd_ne; [done|].
    destruct (bblock_eq s b (ai_layout _ Hi) Hr) as [_ Hbb]. destruct Hd as [Hd _]. lia. }
  pose proof (layout_pos s Hi) as Hp.
  assert (forall b, data_block s b <-> data_block s2 b) as HD.
  { intros b. unfold data_block. rewrite Hs. split; intros [H1 H2]; (split; [done|]).
    - by rewrite Hu by lia.
    - by rewrite <- Hu by lia. }
  assert (forall k, fblk s2 ip k = fblk s ip k) as Hf.
  { intros k. unfold fblk. destruct (k <? NDIRECT); [done|]. destruct (ind ip =? 0); [done|].
    rewrite Hb, fupd_ne; [done|]. intros E. by apply (fw_ne _ _ Hw bn Hbn Hn). }
  split; [|split; [|split; [done|split; [done|]]]].
  - split; [rewrite Hs; apply Hi|]. intros b Hr. rewrite Hs in Hr.
    pose proof (ly_data _ (ai_layout _ Hi)). rewrite Hu by lia. by apply Hi.
  - split.
    + intros k Hk. rewrite Hf, <- HD. by apply (fw_blk _ _ Hw).
    + rewrite <- HD. apply (fw_ind _ _ Hw).
    + intros k k' Hk Hk'. rewrite !Hf. by apply (fw_inj _ _ Hw).
    + intros k Hk. rewrite Hf. by apply (fw_ne _ _ Hw).
  - intros o Ho. unfold fbyte. rewrite Hf.
    assert (0 <= o / BSIZE < MAXFILE) as Hk by (unfold BSIZE in *; Z.div_mod_to_equations; lia).
    destruct (Z.eqb_spec (o / BSIZE) bn) as [->|Hne].
    + rewrite (proj2 (Z.eqb_neq _ _)) by done. by rewrite Hb, fupd_eq.
    + destruct (Z.eqb_spec (fblk s ip (o / BSIZE)) 0) as [|Hn']; [done|].
      rewrite Hb, fupd_ne; [done|]. intros E. apply Hne. by apply (fw_inj _ _ Hw).
Qed.

(** The bytes a write takes from the caller. *)
Definition src_byte (user : bool) s (a : Z) : Z := if user then uread (usr s) a else kmem s a.

Lemma either_copyin_ok d o user src m s : 0 <= m ->
  exists r s', either_copyin d o user src m s = Ret r s' /\
    blocks s' = blocks s /\ sb s' = sb s /\ itable s' = itable s /\ kmem s' = kmem s /\ logged s' = logged s /\
    (forall x, x < o \/ o + m <= x -> snd r x = d x) /\
    (user = false -> fst r = true /\ s' = s) /\
    (fst r = true -> (forall k, 0 <= k < m -> snd r (o + k) = src_byte user s (src + k)) /\
       (forall a, src_byte user s' a = src_byte user s a)).
Proof.
  intros Hm. unfold either_copyin, bind, get. destruct user.
  - destruct (copyin d o src m (usr s)) as [[ok d'] u'] eqn:E.
    exists (ok, d'), (set_usr u' s). split; [done|]. repeat (split; [done|]). split; [|split; [done|]].
    + by apply (copyin_frame _ _ _ _ _ _ _ _ Hm E).
    + cbn [fst snd]. intros ->. destruct (copyin_ok _ _ _ _ _ _ _ Hm E) as [H1 H2]. split; [|done].
      intros k Hk. by apply H1.
  - exists (true, blit d o (kmem s) src m), s. split; [done|]. repeat (split; [done|]).
    split; [intros x Hx; by apply blit_out|]. split; [done|]. intros _. split; [|done].
    intros k Hk. cbn [snd]. rewrite blit_in by lia. cbn [src_byte]. f_equal. lia.
Qed.

(** Everything a write keeps. *)
Record wkeep (i : Z) s s' : Prop := {
  wk_inv : alloc_inv s';
  wk_wf : file_wf s' (itable s' i);
  wk_ip : same_but_addrs (itable s i) (itable s' i);
  wk_tbl j : j <> i -> itable s' j = itable s j;
  wk_sb : sb s' = sb s;
  wk_kmem : kmem s' = kmem s;
  wk_other b : data_block s b -> b <> ind (itable s i) ->
    (forall bn, 0 <= bn < MAXFILE -> fblk s (itable s i) bn <> b) -> blocks s' b = blocks s b;
  wk_data b : data_block s b -> data_block s' b;
  wk_ind : ind (itable s' i) = ind (itable s i) \/ ~ data_block s (ind (itable s' i));
  wk_blk bn : 0 <= bn < MAXFILE ->
    fblk s' (itable s' i) bn = fblk s (itable s i) bn \/ ~ data_block s (fblk s' (itable s' i) bn);
  wk_keep bn : 0 <= bn < MAXFILE -> fblk s (itable s i) bn <> 0 -> fblk s' (itable s' i) bn = fblk s (itable s i) bn;
}.

Lemma wkeep_trans i s1 s2 s3 : wkeep i s1 s2 -> wkeep i s2 s3 -> wkeep i s1 s3.
Proof.
  intros H1 H2. split.
  - apply H2.
  - apply H2.
  - eapply same_but_addrs_trans; [apply H1|apply H2].
  - intros j Hj. by rewrite (wk_tbl _ _ _ H2), (wk_tbl _ _ _ H1).
  - by rewrite (wk_sb _ _ _ H2), (wk_sb _ _ _ H1).
  - by rewrite (wk_kmem _ _ _ H2), (wk_kmem _ _ _ H1).
  - intros b Hb Hi Hf. rewrite (wk_other _ _ _ H2), (wk_other _ _ _ H1); auto.
    + by apply (wk_data _ _ _ H1).
    + destruct (wk_ind _ _ _ H1) as [E|E]; congruence.
    + intros bn Hbn. destruct (wk_blk _ _ _ H1 bn Hbn) as [E|E]; [rewrite E; by apply Hf|congruence].
  - intros b Hb. by apply (wk_data _ _ _ H2), (wk_data _ _ _ H1).
  - destruct (wk_ind _ _ _ H2) as [->|E]; [by apply (wk_ind _ _ _ H1)|].
    right. intros Hd. by apply E, (wk_data _ _ _ H1).
  - intros bn Hbn. destruct (wk_blk _ _ _ H2 bn Hbn) as [->|E]; [by apply (wk_blk _ _ _ H1)|].
    right. intros Hd. by apply E, (wk_data _ _ _ H1).
  - intros bn Hbn Hne. pose proof (wk_keep _ _ _ H1 bn Hbn Hne) as E1. rewrite (wk_keep _ _ _ H2) by congruence. done.
Qed.

Lemma grows_wkeep i s s' : grows s (itable s i) s' (itable s' i) ->
  (forall j, j <> i -> itable s' j = itable s j) -> wkeep i s s'.
Proof.
  intros Hg Ht. destruct (g_env _ _ _ _ Hg) as (Esb & Ek & _).
  split; try done; try apply Hg.
  - intros b Hb Hn _. by apply (g_other _ _ _ _ Hg).
  - destruct (decide (ind (itable s i) = 0)) as [Hz|Hn].
    + destruct (g_new _ _ _ _ Hg Hz) as [E|E]; [left; congruence|right]. intros [_ ?]. congruence.
    + left. by apply (g_ind _ _ _ _ Hg).
Qed.

(** Blocks touched by the rest of a write. *)
Definition rw_need (n tot off : Z) : Z :=
  if tot <? n then (off + (n - tot) - 1) / BSIZE - off / BSIZE + 1 else 0.

(** One step of either loop advances to a block boundary or to the end. *)
Lemma rw_step n tot off : 0 <= off -> tot < n ->
  let m := Z.min (n - tot) (BSIZE - off mod BSIZE) in
  0 < m <= n - tot /\ off mod BSIZE + m <= BSIZE /\ rw_need n (tot + m) (off + m) < rw_need n tot off /\
  0 <= rw_need n (tot + m) (off + m).
Proof.
  intros Ho Ht m. unfold rw_need, m, BSIZE in *. rewrite (proj2 (Z.ltb_lt tot n)) by done.
  destruct (Z.ltb_spec (tot + Z.min (n - tot) (1024 - off mod 1024)) n);
    (Z.div_mod_to_equations; lia).
Qed.

(** The caller's block of bytes stored in the file by one iteration. *)
Lemma write_step i s addr s1 off m (r : bool * bytes) s2 s3 :
  alloc_inv s -> file_wf s (itable s i) -> 0 <= off -> 0 < m -> off mod BSIZE + m <= BSIZE ->
  off + m <= MAXFILE * BSIZE ->
  addr <> 0 ->
  grows s (itable s i) s1 (itable s1 i) -> (forall j, j <> i -> itable s1 j = itable s j) ->
  fblk s1 (itable s1 i) (off / BSIZE) = addr ->
  blocks s2 = blocks s1 -> sb s2 = sb s1 -> itable s2 = itable s1 -> kmem s2 = kmem s1 ->
  (forall x, x < off mod BSIZE \/ off mod BSIZE + m <= x -> snd r x = blocks s1 addr x) ->
  s3 = log_update addr (snd r) s2 \/ s3 = update_block addr (snd r) s2 ->
  wkeep i s s3 /\
  (forall o, 0 <= o < MAXFILE * BSIZE -> fbyte s3 (itable s3 i) o =
     if (off <=? o) && (o <? off + m) then snd r (off mod BSIZE + (o - off)) else fbyte s (itable s i) o).
Proof.
  intros Hi Hw Ho Hm1 Hm2 Hmax Hn Hg Ht Hf B2 S2 T2 K2 Hfr Hs3. pose proof bsize_pos as HB.
  assert (0 <= off / BSIZE < MAXFILE) as Hbn by (unfold BSIZE in *; Z.div_mod_to_equations; lia).
  assert (blocks s3 = fupd (blocks s1) (fblk s1 (itable s1 i) (off / BSIZE)) (snd r)) as B3
    by (rewrite Hf, <- B2; destruct Hs3 as [->| ->]; done).
  assert (sb s3 = sb s1 /\ itable s3 = itable s1 /\ kmem s3 = kmem s1) as (S3 & T3 & K3)
    by (rewrite <- S2, <- T2, <- K2; destruct Hs3 as [->| ->]; done).
  destruct (block_written s1 (itable s1 i) (off / BSIZE) (snd r) s3 (g_inv _ _ _ _ Hg)
    (g_wf _ _ _ _ Hg) Hbn ltac:(congruence) B3 S3) as (I3 & W3 & F3 & D3 & Y3).
  destruct (g_env _ _ _ _ Hg) as (Esb & Ek & _ & _ & _).
  split.
  - apply (wkeep_trans i s s1); [by apply grows_wkeep|].
    split; rewrite ?T3; try done; try congruence.
    + apply same_but_addrs_refl.
    + intros b Hb Hne Hnb. rewrite B3. apply fupd_ne. intros ->. by apply (Hnb (off / BSIZE) Hbn).
    + intros b. apply D3.
    + by left.
    + intros bn _. left. apply F3.
  - intros o Hor. rewrite T3, Y3, <- (g_byte _ _ _ _ Hg) by done.
    destruct (Z.eqb_spec (o / BSIZE) (off / BSIZE)) as [Eo|Eo].
    + destruct (Z.leb_spec off o), (Z.ltb_spec o (off + m)); cbn [andb].
      * f_equal. unfold BSIZE in *. Z.div_mod_to_equations; lia.
      * rewrite Hfr by (unfold BSIZE in *; Z.div_mod_to_equations; lia).
        unfold fbyte. rewrite Eo, Hf. by rewrite (proj2 (Z.eqb_neq _ _)).
      * rewrite Hfr by (unfold BSIZE in *; Z.div_mod_to_equations; lia).
        unfold fbyte. rewrite Eo, Hf. by rewrite (proj2 (Z.eqb_neq _ _)).
      * rewrite Hfr by (unfold BSIZE in *; Z.div_mod_to_equations; lia).
        unfold fbyte. rewrite Eo, Hf. by rewrite (proj2 (Z.eqb_neq _ _)).
    + destruct (Z.leb_spec off o), (Z.ltb_spec o (off + m)); cbn [andb]; try done.
      exfalso. apply Eo. unfold BSIZE in *. Z.div_mod_to_equations; lia.
Qed.

(** The blocks of the file after [m] of [n] bytes at [off] were stored: those
    it had stay, the bytes stored have theirs, and a write from kernel memory
    stops short only at the end of a block, for want of a block the file does
    not have, when the disk is full. *)
Definition stored (i : Z) (user : bool) (off n m : Z) s s' : Prop :=
  (forall bn, 0 <= bn < MAXFILE -> fblk s (itable s i) bn <> 0 -> fblk s' (itable s' i) bn = fblk s (itable s i) bn) /\
  (forall o, off <= o < off + m -> fblk s' (itable s' i) (o / BSIZE) <> 0) /\
  (user = false -> m < n -> (m = 0 \/ (off + m) mod BSIZE = 0) /\
    (exists bn, off / BSIZE <= bn <= (off + n - 1) / BSIZE /\ fblk s (itable s i) bn = 0) /\ disk_full s').

(** Writing [n - tot] bytes at [off]: [tot'] of them arrive. *)
Lemma writei_loop_run i user n fuel : forall tot off src s,
  alloc_inv s -> file_wf s (itable s i) -> 0 <= tot <= n -> 0 <= off ->
  off + (n - tot) <= MAXFILE * BSIZE -> rw_need n tot off < Z.of_nat fuel ->
  0 <= src -> src + (n - tot) <= 2 ^ 64 ->
  exists tot' s', writei_loop fuel i user n tot off src s = Ret (tot', off + (tot' - tot)) s' /\
    tot <= tot' <= n /\ wkeep i s s' /\ stored i user off (n - tot) (tot' - tot) s s' /\
    forall o, 0 <= o < MAXFILE * BSIZE ->
      (o < off \/ off + (n - tot) <= o -> fbyte s' (itable s' i) o = fbyte s (itable s i) o) /\
      (off <= o < off + (tot' - tot) ->
         fbyte s' (itable s' i) o = src_byte user s (src + (o - off))).
Proof.
  pose proof bsize_pos as HB.
  assert (forall s, alloc_inv s -> file_wf s (itable s i) -> wkeep i s s) as Hrefl.
  { intros s Hi Hw. apply grows_wkeep; [by apply grows_refl|done]. }
  induction fuel as [|fuel IH]; intros tot off src s Hi Hw Ht Ho Hmax Hfuel Hs1 Hs2.
  { unfold rw_need in Hfuel. destruct (Z.ltb_spec tot n); [|lia]. exfalso. cbn in Hfuel.
    unfold BSIZE in *. Z.div_mod_to_equations; lia. }
  cbn [writei_loop]. destruct (Z.ltb_spec tot n) as [Hlt|Hge].
  2: { exists tot, s. replace (off + (tot - tot)) with off by lia. split; [done|]. split; [lia|].
       split; [by apply Hrefl|]. split; [split; [done|]; split; [lia|]; lia|]. intros o Hor. split; [done|lia]. }
  assert (0 <= off / BSIZE < MAXFILE) as Hbn by (unfold BSIZE in *; Z.div_mod_to_equations; lia).
  destruct (bmap_run i (off / BSIZE) s Hi Hw Hbn) as (addr & s1 & E1 & Hg & Ht1 & Ha & Hfull & Hhad).
  rewrite (bind_step _ _ _ _ _ E1). destruct (Z.eqb_spec addr 0) as [Ez|En].
  { exists tot, s1. replace (off + (tot - tot)) with off by lia. split; [done|]. split; [lia|].
    pose proof (grows_wkeep i s s1 Hg Ht1) as Hk1. split; [done|]. split; [|intros o Hor; split; [|lia]; intros _; by apply (g_byte _ _ _ _ Hg)].
    split; [apply Hk1|]. split; [lia|]. intros _ _. split; [by left; lia|].
    split; [|intros b; rewrite (proj1 (g_env _ _ _ _ Hg)); by apply Hfull]. exists (off / BSIZE).
    split; [split; [lia|apply Z.div_le_mono; lia]|]. destruct (decide (fblk s (itable s i) (off / BSIZE) = 0)) as [|Hne]; [done|].
    destruct (Hhad Hne) as [E _]. congruence. }
  specialize (Ha En). destruct (rw_step n tot off Ho Hlt) as (Hm1 & Hm2 & Hm3 & Hm4).
  set (m := Z.min (n - tot) (BSIZE - off mod BSIZE)) in *.
  unfold bdata_of. rewrite (bind_step (gets _) _ s1 (blocks s1 addr) s1) by done.
  destruct (either_copyin_ok (blocks s1 addr) (off mod BSIZE) user (u64 src) m s1 ltac:(lia))
    as (r & s2 & E2 & B2 & S2 & T2 & K2 & _ & Hfr & Hkern & Hok).
  cbv zeta. rewrite (bind_step _ _ _ _ _ E2). rewrite (wrap_small 64) in Hok by lia.
  destruct (g_env _ _ _ _ Hg) as (_ & Ek1 & Eu1 & _ & _).
  assert (forall a, src_byte user s1 a = src_byte user s a) as Hsrc1
    by (intros a; unfold src_byte; by rewrite Ek1, Eu1).
  destruct (fst r) eqn:Er.
  - destruct (Hok eq_refl) as [Hin Hsrc].
    destruct (write_step i s addr s1 off m r s2 (log_update addr (snd r) s2) Hi Hw Ho ltac:(lia) ltac:(lia)
      ltac:(lia) En Hg Ht1 Ha B2 S2 T2 K2 Hfr ltac:(by left)) as [Hk3 Hy3].
    unfold bind at 1, modify. set (s3 := log_update addr (snd r) s2) in *.
    destruct (IH (tot + m) (off + m) (src + m) s3 (wk_inv _ _ _ Hk3) (wk_wf _ _ _ Hk3)
      ltac:(lia) ltac:(lia) ltac:(lia) ltac:(lia) ltac:(lia) ltac:(lia)) as (tot' & s' & E & Htot & Hk & Hst & Hy).
    exists tot', s'. replace (off + (tot' - tot)) with (off + m + (tot' - (tot + m))) by lia.
    split; [done|]. split; [lia|]. destruct Hst as (_ & Hst2 & Hst3). pose proof (wkeep_trans _ _ _ _ Hk3 Hk) as Hk'. split; [done|]. split.
    { split; [apply Hk'|]. split.
      - intros o Hor. destruct (Z.lt_ge_cases o (off + m)) as [Hl|Hr]; [|apply Hst2; lia].
        assert (o / BSIZE = off / BSIZE) as -> by (unfold BSIZE in *; Z.div_mod_to_equations; lia).
        assert (fblk s3 (itable s3 i) (off / BSIZE) <> 0) as Hn3.
        { destruct (block_written s1 (itable s1 i) (off / BSIZE) (snd r) s3 (g_inv _ _ _ _ Hg) (g_wf _ _ _ _ Hg) Hbn ltac:(congruence)) as (_ & _ & F3 & _).
          - unfold s3. cbn. by rewrite B2, Ha.
          - unfold s3. by cbn.
          - assert (itable s3 = itable s1) as -> by (unfold s3; by cbn). rewrite F3. congruence. }
        rewrite (wk_keep _ _ _ Hk) by done. done.
      - intros Eu Hm. destruct (Hst3 Eu ltac:(lia)) as (Hz & (bn & Hbr & Hb0) & Hdf).
        assert ((off + m) mod BSIZE = 0) as Hal by (unfold m, BSIZE in *; Z.div_mod_to_equations; lia). split.
        + right. destruct Hz as [Hz|Hz]; [replace (off + (tot' - tot)) with (off + m) by lia; done|].
          replace (off + (tot' - tot)) with (off + m + (tot' - (tot + m))) by lia. done.
        + split; [|exact Hdf]. exists bn. split; [unfold BSIZE in *; Z.div_mod_to_equations; lia|].
          destruct (decide (fblk s (itable s i) bn = 0)) as [|Hne]; [done|]. rewrite (wk_keep _ _ _ Hk3) in Hb0; [done| |done].
          unfold BSIZE in *. Z.div_mod_to_equations; lia. }
    intros o Hor. destruct (Hy o Hor) as [Hy1 Hy2]. split.
    + intros Hout. rewrite Hy1, Hy3 by lia.
      destruct (Z.leb_spec off o), (Z.ltb_spec o (off + m)); cbn [andb]; done || lia.
    + intros Hin'. destruct (Z.lt_ge_cases o (off + m)) as [Hl|Hr].
      * rewrite Hy1, Hy3 by lia. rewrite (proj2 (Z.leb_le off o)), (proj2 (Z.ltb_lt o (off + m))) by lia.
        cbn [andb]. rewrite Hin by lia. apply Hsrc1.
      * rewrite Hy2 by lia. change (src_byte user s3) with (src_byte user s2). rewrite Hsrc, Hsrc1. f_equal. lia.
  - destruct (write_step i s addr s1 off m r s2 (update_block addr (snd r) s2) Hi Hw Ho ltac:(lia) ltac:(lia)
      ltac:(lia) En Hg Ht1 Ha B2 S2 T2 K2 Hfr ltac:(by right)) as [Hk3 Hy3].
    exists tot, (update_block addr (snd r) s2). replace (off + (tot - tot)) with off by lia.
    split; [done|]. split; [lia|]. split; [done|].
    split; [split; [apply Hk3|]; split; [lia|]; intros Eu; destruct (Hkern Eu); congruence|].
    intros o Hor. split; [|lia]. intros Hout. rewrite Hy3 by done. destruct (Z.leb_spec off o), (Z.ltb_spec o (off + m)); cbn [andb]; done || lia.
Qed.

(** ** The on-disk inode *)

Definition dinode_eq (v w : dinode) : Prop :=
  d_type v = d_type w /\ d_major v = d_major w /\ d_minor v = d_minor w /\
  d_nlink v = d_nlink w /\ d_size v = d_size w /\
  forall k, 0 <= k <= NDIRECT -> d_addrs v k = d_addrs w k.

(** The fields fit their widths. *)
Definition short_ok (z : Z) : Prop := - 2 ^ 15 <= z < 2 ^ 15.
Record dinode_ok (v : dinode) : Prop := {
  dk_type : short_ok (d_type v); dk_major : short_ok (d_major v);
  dk_minor : short_ok (d_minor v); dk_nlink : short_ok (d_nlink v);
  dk_size : 0 <= d_size v < 2 ^ 32;
  dk_addrs k : 0 <= k <= NDIRECT -> 0 <= d_addrs v k < 2 ^ 32;
}.

Lemma put_addrs_other n : forall i a o d x len,
  0 <= i -> x + Z.of_nat len <= o + 12 + 4 * i \/ o + 12 + 4 * (i + Z.of_nat n) <= x ->
  ld len (put_addrs n i a o d) x = ld len d x.
Proof.
  induction n as [|n IH]; intros i a o d x len Hi Hx; cbn [put_addrs]; [done|].
  rewrite IH by lia. apply ld_st_other. lia.
Qed.

Lemma put_addrs_in n : forall i a o d k, 0 <= i -> i <= k < i + Z.of_nat n ->
  ld32 (put_addrs n i a o d) (o + 12 + 4 * k) = u32 (a k).
Proof.
  induction n as [|n IH]; intros i a o d k Hi Hk; [lia|]. cbn [put_addrs].
  destruct (decide (k = i)) as [->|]; [|apply IH; lia].
  rewrite put_addrs_other by lia. apply ld_st_same.
Qed.

Lemma i16_st z : short_ok z -> i16 (z mod 2 ^ 16) = z.
Proof. unfold short_ok. change (2 ^ 15) with 32768. change (2 ^ 16) with 65536. intros. unwrap. dlia. Qed.

(** Storing an inode and reading it back, and what the store leaves alone. *)
Lemma dinode_roundtrip v o d : dinode_ok v -> dinode_eq (read_dinode (write_dinode v o d) o) v.
Proof.
  intros [H1 H2 H3 H4 H5 H6].
  unfold write_dinode. change (Z.to_nat (NDIRECT + 1)) with 13%nat.
  repeat split; cbn [read_dinode d_type d_major d_minor d_nlink d_size d_addrs].
  1-5: rewrite put_addrs_other by lia; repeat rewrite ld_st_other by lia; rewrite ld_st_same;
    try (by apply i16_st); by apply Z.mod_small.
  intros k Hk. rewrite put_addrs_in by (unfold NDIRECT in *; lia). apply wrap_small. by apply H6.
Qed.

Lemma write_dinode_other v o d x len :
  x + Z.of_nat len <= o \/ o + DINODE_SIZE <= x -> ld len (write_dinode v o d) x = ld len d x.
Proof.
  intros Hx. unfold DINODE_SIZE in Hx. unfold write_dinode. change (Z.to_nat (NDIRECT + 1)) with 13%nat.
  rewrite put_addrs_other by lia. repeat rewrite ld_st_other by lia. done.
Qed.

(** iupdate's inode codec: what is stored is what ilock reads back, for
    every inode whose fields fit their widths, and the other inodes of the
    block keep every field. *)
Theorem dinode_store_load v o d : dinode_ok v ->
  dinode_eq (read_dinode (write_dinode v o d) o) v /\
  forall o', o' + DINODE_SIZE <= o \/ o + DINODE_SIZE <= o' ->
    dinode_eq (read_dinode (write_dinode v o d) o') (read_dinode d o').
Proof.
  intros Hv. split; [by apply dinode_roundtrip|]. intros o' Ho'.
  unfold DINODE_SIZE in *.
  repeat split; cbn [read_dinode d_type d_major d_minor d_nlink d_size d_addrs];
    intros; unfold NDIRECT in *; rewrite write_dinode_other by (unfold DINODE_SIZE; lia); done.
Qed.

(** A block below the bitmap replaced. *)
Lemma meta_written s b d s2 i : alloc_inv s -> file_wf s (itable s i) -> b < sb_bmapstart (sb s) ->
  blocks s2 = fupd (blocks s) b d -> sb s2 = sb s -> kmem s2 = kmem s -> itable s2 = itable s ->
  wkeep i s s2 /\ forall o, 0 <= o < MAXFILE * BSIZE -> fbyte s2 (itable s2 i) o = fbyte s (itable s i) o.
Proof.
  intros Hi Hw Hb B2 S2 K2 T2. pose proof (layout_pos s Hi) as Hp.
  assert (forall c, dstart (sb s) <= c -> blocks s2 c = blocks s c) as Hdata.
  { intros c Hc. rewrite B2. apply fupd_ne. lia. }
  assert (forall c, 0 <= c < sb_size (sb s) -> used s2 c = used s c) as Hu.
  { intros c Hc. unfold used. rewrite S2, B2, fupd_ne; [done|].
    destruct (bblock_eq s c (ai_layout _ Hi) Hc) as [_ ?]. lia. }
  assert (forall c, data_block s c <-> data_block s2 c) as HD.
  { intros c. unfold data_block. rewrite S2. split; intros [H1 H2]; (split; [done|]).
    - by rewrite Hu by lia.
    - by rewrite <- Hu by lia. }
  assert (forall k, fblk s2 (itable s i) k = fblk s (itable s i) k) as Hf.
  { intros k. unfold fblk. destruct (k <? NDIRECT); [done|].
    destruct (Z.eqb_spec (ind (itable s i)) 0) as [|Hn]; [done|].
    destruct (fw_ind _ _ Hw) as [|[Hd _]]; [done|]. rewrite Hdata by lia. done. }
  split; [split; rewrite ?T2; try done|].
  - split; [rewrite S2; apply Hi|]. intros c Hc. rewrite S2 in Hc.
    pose proof (ly_data _ (ai_layout _ Hi)). rewrite Hu by lia. by apply Hi.
  - split.
    + intros k Hk. rewrite Hf, <- HD. by apply (fw_blk _ _ Hw).
    + rewrite <- HD. apply (fw_ind _ _ Hw).
    + intros k k' Hk Hk'. rewrite !Hf. by apply (fw_inj _ _ Hw).
    + intros k Hk. rewrite Hf. by apply (fw_ne _ _ Hw).
  - apply same_but_addrs_refl.
  - intros c [Hc _] _ _. apply Hdata. lia.
  - intros c. apply HD.
  - by left.
  - intros k _. left. apply Hf.
  - intros o Ho. rewrite T2. unfold fbyte. rewrite Hf.
    assert (0 <= o / BSIZE < MAXFILE) as Hk by (unfold BSIZE in *; Z.div_mod_to_equations; lia).
    destruct (Z.eqb_spec (fblk s (itable s i) (o / BSIZE)) 0) as [|Hn]; [done|].
    destruct (fw_blk _ _ Hw _ Hk) as [|[Hd _]]; [done|]. by rewrite Hdata by lia.
Qed.

(** The inode block of a valid inode number lies below the bitmap. *)
Lemma iblock_meta s inum : layout (sb s) -> 0 <= inum < sb_ninodes (sb s) ->
  2 <= IBLOCK inum (sb s) < sb_bmapstart (sb s).
Proof.
  intros [Hsz Hi Hb Hn Hd] Hr.
  assert (sb_bmapstart (sb s) < 2 ^ 31) as Hbm by (unfold dstart in Hd; lia).
  unfold IBLOCK, IPB, DINODE_SIZE, BSIZE in *. change (1024 / 64) with 16 in *.
  assert (0 <= inum / 16 <= (sb_ninodes (sb s) - 1) / 16).
  { split; [apply Z.div_pos; lia|apply Z.div_le_mono; lia]. }
  rewrite (wrap_small 32) by lia. lia.
Qed.

(** ** writei and readi *)

(** A valid in-memory inode of a file, in slot [i]. *)
Record file_at (i : Z) s : Prop := {
  fa_inv : alloc_inv s;
  fa_wf : file_wf s (itable s i);
  fa_inum : 0 <= i_inum (itable s i) < sb_ninodes (sb s);
  fa_size : 0 <= i_size (itable s i) <= MAXFILE * BSIZE;
  fa_short : short_ok (i_type (itable s i)) /\ short_ok (i_major (itable s i)) /\
    short_ok (i_minor (itable s i)) /\ short_ok (i_nlink (itable s i));
}.

Lemma file_addrs_ok s ip k : alloc_inv s -> file_wf s ip -> 0 <= k <= NDIRECT -> 0 <= i_addrs ip k < 2 ^ 32.
Proof.
  intros Hi Hw Hk. pose proof (layout_pos s Hi). pose proof (ly_size _ (ai_layout _ Hi)).
  destruct (decide (k = NDIRECT)) as [->|].
  - destruct (fw_ind _ _ Hw) as [E|[Hd _]]; unfold ind in *; lia.
  - assert (0 <= k < MAXFILE) as Hk' by (unfold MAXFILE; change NINDIRECT with 256; lia).
    destruct (fw_blk _ _ Hw k Hk') as [E|[E _]]; unfold fblk in E;
      rewrite (proj2 (Z.ltb_lt k NDIRECT)) in E by lia; lia.
Qed.

Lemma max_file_bytes : MAXFILE * BSIZE = 274432.
Proof. reflexivity. Qed.

(** What writei of [n] bytes at [off] does, within the size limits. *)
Definition writei_spec (i : Z) (user : bool) (src off n : Z) s : Prop :=
  exists tot s', writei i user src off n s = Ret tot s' /\ 0 <= tot <= n /\ file_at i s' /\
    i_size (itable s' i) = Z.max (i_size (itable s i)) (off + tot) /\
    i_inum (itable s' i) = i_inum (itable s i) /\ sb s' = sb s /\
    (forall o, 0 <= o < MAXFILE * BSIZE ->
       (o < off \/ off + n <= o -> fbyte s' (itable s' i) o = fbyte s (itable s i) o) /\
       (off <= o < off + tot -> fbyte s' (itable s' i) o = src_byte user s (src + (o - off)))) /\
    stored i user off n tot s s' /\ i_type (itable s' i) = i_type (itable s i) /\
    (forall j, j <> i -> itable s' j = itable s j) /\
    (forall b, data_block s b -> b <> ind (itable s i) ->
       (forall bn, 0 <= bn < MAXFILE -> fblk s (itable s i) bn <> b) -> blocks s' b = blocks s b) /\
    dinode_eq (read_dinode (blocks s' (IBLOCK (i_inum (itable s' i)) (sb s)))
                 (ino_off (i_inum (itable s' i)))) (disk_part (itable s' i)).

Lemma with_size_wkeep i z s s1 : wkeep i s s1 ->
  let s2 := on_inode i (with_size z) s1 in
  alloc_inv s2 /\ file_wf s2 (itable s2 i) /\ (forall o, fbyte s2 (itable s2 i) o = fbyte s1 (itable s1 i) o).
Proof.
  intros Hk s2. assert (itable s2 i = with_size z (itable s1 i)) as E by apply fupd_eq. rewrite E.
  split; [by apply alloc_inv_on_inode, Hk|]. split; [|done].
  destruct (wk_wf _ _ _ Hk) as [F1 F2 F3 F4]. by split.
Qed.

Lemma iupdate_run i s : file_at i s ->
  exists s', iupdate i s = Ret tt s' /\ wkeep i s s' /\ itable s' = itable s /\ sb s' = sb s /\
    (forall o, 0 <= o < MAXFILE * BSIZE -> fbyte s' (itable s' i) o = fbyte s (itable s i) o) /\
    (forall b, b <> IBLOCK (i_inum (itable s i)) (sb s) -> blocks s' b = blocks s b) /\
    dinode_eq (read_dinode (blocks s' (IBLOCK (i_inum (itable s i)) (sb s)))
                 (ino_off (i_inum (itable s i)))) (disk_part (itable s i)).
Proof.
  intros [Hi Hw Hn Hsz (T1 & T2 & T3 & T4)]. pose proof (iblock_meta s _ (ai_layout _ Hi) Hn) as Hb.
  rewrite max_file_bytes in Hsz.
  unfold iupdate, bind, gets, inode_of, bdata_of, gets, modify.
  set (b := IBLOCK (i_inum (itable s i)) (sb s)) in *. set (d := write_dinode _ _ _).
  eexists. split; [reflexivity|].
  destruct (meta_written s b d (log_update b d s) i Hi Hw ltac:(lia)) as [Hk Hy]; try done.
  split; [done|]. split; [done|]. split; [done|]. split; [done|].
  split; [intros c Hc; by apply fupd_ne|].
  assert (blocks (log_update b d s) b = d) as -> by apply fupd_eq. apply dinode_roundtrip.
  split; try done; [cbn; lia|]. intros k Hkr. by eapply file_addrs_ok.
Qed.

Lemma full_kept s s' : alloc_inv s' -> sb s' = sb s -> (forall b, data_block s b -> data_block s' b) -> disk_full s -> disk_full s'.
Proof.
  intros Hi Es Hd Hf b Hb. destruct (Z.lt_ge_cases b (dstart (sb s'))) as [Hlt|Hge]; [apply (ai_meta _ Hi); lia|].
  apply (Hd b). split; [rewrite <- Es; lia|]. apply Hf. by rewrite <- Es.
Qed.

Lemma rw_fuel_enough n off : 0 <= n -> 0 <= off -> rw_need n 0 off < Z.of_nat (rw_fuel n).
Proof.
  intros Hn Ho. unfold rw_need, rw_fuel, BSIZE. destruct (Z.ltb_spec 0 n);
    (Z.div_mod_to_equations; lia).
Qed.

Lemma writei_run i user src off n s : file_at i s -> 0 <= off <= i_size (itable s i) -> 0 <= n ->
  off + n <= MAXFILE * BSIZE -> 0 <= src -> src + n <= 2 ^ 64 -> writei_spec i user src off n s.
Proof.
  intros Hfa Ho Hn Hmax Hs1 Hs2. destruct Hfa as [Hi Hw Hnum Hsz Hsh]. pose proof max_file_bytes as Hmf.
  unfold writei_spec, writei, inode_of. rewrite (bind_step (gets _) _ s (itable s i) s) by done.
  rewrite (wrap_small 32 (off + n)) by lia.
  rewrite (proj2 (Z.ltb_ge (i_size (itable s i)) off)), (proj2 (Z.ltb_ge (off + n) off)) by lia. cbn [orb].
  rewrite (proj2 (Z.ltb_ge (MAXFILE * BSIZE) (off + n))) by lia.
  destruct (writei_loop_run i user n (rw_fuel n) 0 off src s Hi Hw ltac:(lia) ltac:(lia) ltac:(lia)
    (rw_fuel_enough n off Hn ltac:(lia)) Hs1 ltac:(lia)) as (tot & s1 & E1 & Htot & Hk1 & Hst1 & Hy1).
  rewrite !Z.sub_0_r in E1. rewrite !Z.sub_0_r in Hst1. setoid_rewrite Z.sub_0_r in Hy1. rewrite (bind_step _ _ _ _ _ E1).
  rewrite (bind_step (gets _) _ s1 (itable s1 i) s1) by done. cbn [fst snd].
  destruct (wk_ip _ _ _ Hk1) as [a1 Eip]. pose proof (wk_sb _ _ _ Hk1) as Esb.
  set (s2 := if i_size (itable s1 i) <? off + tot then on_inode i (with_size (off + tot)) s1 else s1).
  assert (when (i_size (itable s1 i) <? off + tot) (modify (on_inode i (with_size (off + tot)))) s1 = Ret tt s2)
    as E2 by (unfold s2; by destruct (_ <? _)).
  rewrite (bind_step _ _ _ _ _ E2).
  assert (alloc_inv s2 /\ file_wf s2 (itable s2 i) /\
    (forall o, fbyte s2 (itable s2 i) o = fbyte s1 (itable s1 i) o) /\
    blocks s2 = blocks s1 /\ sb s2 = sb s1 /\ (forall j, j <> i -> itable s2 j = itable s1 j) /\
    itable s2 i = with_size (Z.max (i_size (itable s i)) (off + tot)) (itable s1 i)) as
    (I2 & W2 & Y2 & B2 & S2 & T2 & P2).
  { assert (i_size (itable s1 i) = i_size (itable s i)) as Esz by (rewrite Eip; done).
    unfold s2. rewrite Esz.
    destruct (Z.ltb_spec (i_size (itable s i)) (off + tot)) as [Hlt|Hge].
    - destruct (with_size_wkeep i (off + tot) s s1 Hk1) as (A1 & A2 & A3).
      split; [done|]. split; [done|]. split; [done|]. split; [done|]. split; [done|].
      split; [intros j Hj; by apply fupd_ne|]. rewrite Z.max_r by lia. apply fupd_eq.
    - split; [apply Hk1|]. split; [apply Hk1|]. split; [done|]. split; [done|]. split; [done|].
      split; [done|]. rewrite Z.max_l by lia. rewrite Eip. done. }
  assert (file_at i s2) as Hfa2.
  { split; [done|done|rewrite P2, S2, Esb, Eip; exact Hnum|
      rewrite P2; cbn [with_size i_size]; lia|rewrite P2, Eip; exact Hsh]. }
  destruct (iupdate_run i s2 Hfa2) as (s3 & E3 & Hk3 & T3 & S3 & Y3 & B3 & D3).
  rewrite (bind_step _ _ _ _ _ E3). exists tot, s3. split; [done|]. split; [lia|].
  pose proof (iblock_meta s2 _ (ai_layout _ I2) (fa_inum _ _ Hfa2)) as Hib.
  split; [|rewrite T3, P2; split; [done|split; [by rewrite Eip|split; [congruence|]]]].
  - destruct Hfa2 as [_ _ N2 Z2 Sh2]. split; rewrite ?T3, ?S3; try done; [apply Hk3|].
    rewrite <- T3. apply Hk3.
  - split; [|split; [|split; [|split; [|split]]]].
    + intros o Hor. rewrite <- P2, <- T3, Y3, Y2 by done. by apply Hy1.
    + assert (forall bn, 0 <= bn < MAXFILE -> fblk s1 (itable s1 i) bn <> 0 -> fblk s3 (itable s2 i) bn = fblk s1 (itable s1 i) bn) as Hkeep.
      { intros bn Hbn Hne. rewrite <- T3. assert (fblk s2 (itable s2 i) bn = fblk s1 (itable s1 i) bn) as E by (rewrite P2; unfold fblk, ind; by rewrite B2).
        rewrite (wk_keep _ _ _ Hk3) by congruence. done. }
      destruct Hst1 as (K1 & K2 & K3). unfold stored. rewrite T3. split; [|split].
      * intros bn Hbn Hne. rewrite Hkeep; [by apply K1|done|]. by rewrite K1.
      * intros o Hor. rewrite Hkeep; [by apply K2| |by apply K2]. unfold BSIZE in *. Z.div_mod_to_equations; lia.
      * intros Eu Hm. destruct (K3 Eu Hm) as (Z1 & Z2 & Z3). split; [done|]. split; [done|]. apply (full_kept s2 s3); [apply Hk3|by rewrite S3|apply Hk3|].
        intros b. unfold used. rewrite S2, B2. exact (Z3 b).
    + rewrite Eip. done.
    + intros j Hj. rewrite T2 by done. by apply (wk_tbl _ _ _ Hk1).
    + intros b Hb Hne Hnb. rewrite B3, B2 by (destruct Hb as [? _]; rewrite S2, Esb in Hib;
        pose proof (layout_pos s Hi); rewrite S2, Esb; lia). by apply (wk_other _ _ _ Hk1).
    + rewrite <- P2. rewrite S2, Esb in D3. exact D3.
Qed.

(** C4. writei stores the caller's bytes. Within the file size limit and
    starting inside the file, writei of n bytes at off runs to completion and
    returns the number tot of bytes stored; the file then holds the caller's
    bytes at off .. off + tot - 1 and its old bytes before off and from
    off + n on (a write from kernel memory is short only at the end of a block,
    when the disk has no block for the next one), its size is the maximum of the old size and off + tot, the
    inode on disk is the one in memory, and no other file's block changes.
    Starting beyond the end of the file, or ending beyond the largest file, it
    returns -1 and changes nothing. *)
Theorem writei_correct i user src off n s :
  file_at i s -> 0 <= off < 2 ^ 32 -> 0 <= n < 2 ^ 32 -> 0 <= src -> src + n <= 2 ^ 64 ->
  if (off <=? i_size (itable s i)) && (off + n <=? MAXFILE * BSIZE)
  then writei_spec i user src off n s
  else writei i user src off n s = Ret (-1) s.
Proof.
  intros Hfa Ho Hn Hs1 Hs2. pose proof max_file_bytes as Hmf.
  destruct (Z.leb_spec off (i_size (itable s i))) as [H1|H1];
    destruct (Z.leb_spec (off + n) (MAXFILE * BSIZE)) as [H2|H2]; cbn [andb].
  - apply writei_run; try done; lia.
  - unfold writei, inode_of. rewrite (bind_step (gets _) _ s (itable s i) s) by done.
    destruct (_ || _); [done|]. by rewrite (proj2 (Z.ltb_lt (MAXFILE * BSIZE) (off + n))) by lia.
  - unfold writei, inode_of. rewrite (bind_step (gets _) _ s (itable s i) s) by done.
    by rewrite (proj2 (Z.ltb_lt (i_size (itable s i)) off)) by lia.
  - unfold writei, inode_of. rewrite (bind_step (gets _) _ s (itable s i) s) by done.
    by rewrite (proj2 (Z.ltb_lt (i_size (itable s i)) off)) by lia.
Qed.

(** Reading. *)
(** The kernel's buffers and the process after a copy *)
Definition kernel_side (user : bool) s s' : Prop :=
  (user = true -> kmem s' = kmem s) /\ mypid s' = mypid s /\ (bytes_ok (kmem s) -> bytes_ok (kmem s')).

Lemma either_copyout_ok user dst d o m s : 0 <= m -> bytes_ok d ->
  exists ok s', either_copyout user dst d o m s = Ret ok s' /\
    blocks s' = blocks s /\ sb s' = sb s /\ itable s' = itable s /\
    (user = false -> ok = true /\ usr s' = usr s) /\ kernel_side user s s' /\
    (ok = false -> copyout dst d o m (usr s) = (false, usr s')) /\
    (ok = true -> forall k, 0 <= k < m -> src_byte user s' (dst + k) = d (o + k)) /\
    (forall a, a < dst \/ dst + m <= a -> src_byte user s' a = src_byte user s a).
Proof.
  intros Hm Hd. unfold either_copyout, bind, get. destruct user.
  - destruct (copyout dst d o m (usr s)) as [ok u'] eqn:E.
    exists ok, (set_usr u' s). split; [done|]. split; [done|]. split; [done|]. split; [done|].
    split; [done|]. split; [by split_and!|]. split; [by intros ->|]. split.
    + intros -> k Hk. by apply (copyout_ok _ _ _ _ _ _ Hd Hm E).
    + intros a Ha. by apply (copyout_frame _ _ _ _ _ _ _ Hm E).
  - exists true, (set_kmem (blit (kmem s) dst d o m) s). split; [done|]. split; [done|]. split; [done|].
    split; [done|]. split; [done|]. split; [split_and!; try done; intros Hk; by apply blit_bytes_ok|]. split; [done|]. split.
    + intros _ k Hk. cbn [src_byte set_kmem kmem]. rewrite blit_in by lia. f_equal. lia.
    + intros a Ha. cbn [src_byte set_kmem kmem]. by apply blit_out.
Qed.

Lemma kernel_side_trans user s1 s2 s3 : kernel_side user s1 s2 -> kernel_side user s2 s3 -> kernel_side user s1 s3.
Proof. intros (A1 & A2 & A3) (B1 & B2 & B3). split_and!; [intros Eu; by rewrite B1, A1|congruence|auto]. Qed.

(** A copyout has failed: with [k] bytes of the file delivered and all other
    user memory as it was, it refused the next [m] bytes. *)
Definition refused (i dst off n : Z) s s' : Prop := exists k m d o u, 0 <= k /\ 0 < m /\ k + m <= n /\
  (forall j, 0 <= j < k -> uread u (dst + j) = fbyte s (itable s i) (off + j)) /\
  (forall a, a < dst \/ dst + k <= a -> uread u a = uread (usr s) a) /\
  (forall j, 0 <= j < m -> d (o + j) = fbyte s (itable s i) (off + k + j)) /\
  copyout (dst + k) d o m u = (false, usr s').

(** What reading [n] bytes at [off] to [dst] leaves: the file unchanged, and
    [r] bytes of it at [dst], fewer than asked for only when the disk is full
    and the file lacks a block; -1 is a failed copyout. *)
Definition read_result (i : Z) (user : bool) (dst off n r : Z) s s' : Prop :=
  file_wf s' (itable s' i) /\ alloc_inv s' /\ all_bytes s' /\ sb s' = sb s /\
  same_but_addrs (itable s i) (itable s' i) /\ (forall j, j <> i -> itable s' j = itable s j) /\
  (forall o, 0 <= o < MAXFILE * BSIZE -> fbyte s' (itable s' i) o = fbyte s (itable s i) o) /\
  (forall a, a < dst \/ dst + n <= a -> src_byte user s' a = src_byte user s a) /\
  (user = false -> usr s' = usr s) /\ kernel_side user s s' /\
  ((r = -1 /\ user = true /\ refused i dst off n s s') \/
   (0 <= r <= n /\ (forall k, 0 <= k < r -> src_byte user s' (dst + k) = fbyte s (itable s i) (off + k)) /\
    (r < n -> disk_full s' /\ exists bn, 0 <= bn < MAXFILE /\ off / BSIZE <= bn /\ fblk s (itable s i) bn = 0))).

Lemma readi_loop_run i user n fuel : forall tot off dst s,
  alloc_inv s -> file_wf s (itable s i) -> all_bytes s -> 0 <= tot <= n -> 0 <= off ->
  off + (n - tot) <= MAXFILE * BSIZE -> rw_need n tot off < Z.of_nat fuel ->
  0 <= dst -> dst + (n - tot) <= 2 ^ 64 ->
  exists r s', readi_loop fuel i user n tot off dst s = Ret (if r =? -1 then -1 else tot + r) s' /\
    read_result i user dst off (n - tot) r s s'.
Proof.
  pose proof bsize_pos as HB.
  induction fuel as [|fuel IH]; intros tot off dst s Hi Hw Hby Ht Ho Hmax Hfuel Hs1 Hs2.
  { unfold rw_need in Hfuel. destruct (Z.ltb_spec tot n); [|lia]. exfalso. cbn in Hfuel.
    unfold BSIZE in *. Z.div_mod_to_equations; lia. }
  cbn [readi_loop]. destruct (Z.ltb_spec tot n) as [Hlt|Hge].
  2: { exists 0, s. rewrite Z.add_0_r. split; [done|]. unfold read_result.
       repeat (split; [done|]). split; [apply same_but_addrs_refl|]. repeat (split; [done|]).
       right. split; [lia|]. split; [intros; lia|lia]. }
  assert (0 <= off / BSIZE < MAXFILE) as Hbn by (unfold BSIZE in *; Z.div_mod_to_equations; lia).
  destruct (bmap_run i (off / BSIZE) s Hi Hw Hbn) as (addr & s1 & E1 & Hg & Ht1 & Ha & Hfull & Hfb).
  rewrite (bind_step _ _ _ _ _ E1). destruct (g_env _ _ _ _ Hg) as (Esb & Ek1 & Eu1 & Ep1 & _).
  assert (kernel_side user s s1) as Hks1 by (split; [done|]; split; [done|]; by rewrite Ek1).
  assert (forall a, src_byte user s1 a = src_byte user s a) as Hsrc1
    by (intros a; unfold src_byte; by rewrite Ek1, Eu1).
  destruct (Z.eqb_spec addr 0) as [Ez|En].
  { exists 0, s1. rewrite Z.add_0_r. split; [done|]. unfold read_result.
    split; [apply Hg|]. split; [apply Hg|]. split; [by apply Hg|]. split; [done|]. split; [apply Hg|].
    split; [done|]. split; [by apply (g_byte _ _ _ _ Hg)|]. split; [intros; apply Hsrc1|].
    split; [done|]. split; [done|]. right. split; [lia|]. split; [intros; lia|]. intros _.
    split; [intros b; rewrite Esb; by apply Hfull|]. exists (off / BSIZE). split; [done|]. split; [lia|].
    destruct (decide (fblk s (itable s i) (off / BSIZE) = 0)) as [|Hn]; [done|].
    destruct (Hfb Hn) as [E _]. congruence. }
  specialize (Ha En). destruct (rw_step n tot off Ho Hlt) as (Hm1 & Hm2 & Hm3 & Hm4).
  set (m := Z.min (n - tot) (BSIZE - off mod BSIZE)) in *.
  unfold bdata_of. rewrite (bind_step (gets _) _ s1 (blocks s1 addr) s1) by done. cbv zeta.
  pose proof (g_bytes _ _ _ _ Hg Hby) as Hby1.
  destruct (either_copyout_ok user (u64 dst) (blocks s1 addr) (off mod BSIZE) m s1 ltac:(lia) (Hby1 addr))
    as (ok & s2 & E2 & B2 & S2 & T2 & Hk2 & Hks2 & Hno & Hok & Hfr).
  rewrite (bind_step _ _ _ _ _ E2). rewrite (wrap_small 64) in Hno, Hok, Hfr by lia.
  assert (forall k, 0 <= k < m -> blocks s1 addr (off mod BSIZE + k) = fbyte s (itable s i) (off + k)) as Hpiece.
  { intros k Hk. rewrite <- (g_byte _ _ _ _ Hg) by lia. unfold fbyte.
    assert ((off + k) / BSIZE = off / BSIZE /\ (off + k) mod BSIZE = off mod BSIZE + k) as [-> ->].
    { unfold BSIZE in *. Z.div_mod_to_equations; lia. }
    rewrite Ha. by rewrite (proj2 (Z.eqb_neq addr 0)). }
  assert (kernel_side user s s2) as Hks by by eapply kernel_side_trans.
  assert (alloc_inv s2 /\ file_wf s2 (itable s2 i) /\ all_bytes s2 /\
    forall o, fbyte s2 (itable s2 i) o = fbyte s1 (itable s1 i) o) as (I2 & W2 & Y2 & F2).
  { rewrite T2. destruct (g_inv _ _ _ _ Hg) as [A1 A2]. destruct (g_wf _ _ _ _ Hg) as [F1 F2 F3 F4].
    assert (forall ip k, fblk s2 ip k = fblk s1 ip k) as Ef by (intros; unfold fblk; by rewrite B2).
    assert (forall b, data_block s2 b <-> data_block s1 b) as Ed
      by (intros b; unfold data_block, used; by rewrite S2, B2).
    split; [split; [by rewrite S2|intros b; unfold used; rewrite S2, B2; apply A2]|].
    split; [|split; [intros b; rewrite B2; apply Hby1|intros o; unfold fbyte; by rewrite Ef, B2]].
    split; intros; rewrite ?Ef, ?Ed in *; auto. }
  destruct ok.
  - destruct (IH (tot + m) (off + m) (dst + m) s2 I2 W2 Y2 ltac:(lia) ltac:(lia) ltac:(lia) ltac:(lia)
      ltac:(lia) ltac:(lia)) as (r & s' & E & Hr).
    exists (if r =? -1 then -1 else m + r), s'.
    destruct Hr as (R1 & R2 & R3 & R4 & R5 & R6 & R7 & R8 & R9 & R10 & R11).
    split.
    { rewrite E. f_equal. destruct (Z.eqb_spec r (-1)); [done|].
      rewrite (proj2 (Z.eqb_neq (m + r) (-1))) by (destruct R11 as [[? _]|[? _]]; lia). lia. }
    split; [done|]. split; [done|]. split; [done|]. split; [congruence|].
    split; [eapply same_but_addrs_trans; [apply Hg|by rewrite <- T2]|].
    split; [intros j Hj; rewrite R6, T2 by done; by apply Ht1|].
    split; [intros o Hor; rewrite R7, F2 by done; by apply (g_byte _ _ _ _ Hg)|].
    split; [intros a Haa; rewrite R8, Hfr by lia; apply Hsrc1|].
    split; [intros Eu; rewrite R9 by done; destruct (Hk2 Eu) as [_ ->]; done|].
    split; [by eapply kernel_side_trans|].
    destruct R11 as [(-> & -> & k & m' & d & o & u & A1 & A2 & A3 & A4 & A5 & A6 & A7)|(Hr0 & Hrk & Hrs)]; [left|right].
    { split; [done|]. split; [done|]. exists (m + k), m', d, o, u. split; [lia|]. split; [done|]. split; [lia|]. split; [|split; [|split]].
      - intros j Hj. destruct (Z.lt_ge_cases j m) as [Hjm|Hjm]; [rewrite A5, <- Hpiece by lia; exact (Hok eq_refl j ltac:(lia))|].
        replace (dst + j) with (dst + m + (j - m)) by lia. rewrite A4, F2, (g_byte _ _ _ _ Hg) by lia. f_equal. lia.
      - intros a Haa. rewrite A5 by lia. rewrite <- Eu1. apply Hfr. lia.
      - intros j Hj. rewrite A6, F2, (g_byte _ _ _ _ Hg) by lia. f_equal. lia.
      - by replace (dst + (m + k)) with (dst + m + k) by lia. }
    rewrite (proj2 (Z.eqb_neq r (-1))) by lia. split; [lia|]. split.
    + intros k Hk. destruct (Z.lt_ge_cases k m) as [Hkm|Hkm].
      * rewrite R8, Hok by lia. apply Hpiece. lia.
      * replace (dst + k) with (dst + m + (k - m)) by lia. rewrite Hrk, F2 by lia.
        rewrite (g_byte _ _ _ _ Hg) by lia. f_equal. lia.
    + intros Hlt'. destruct (Hrs ltac:(lia)) as (Hdf & bn & Hbn' & Hle & Hz). split; [done|]. exists bn. split; [done|]. split.
      * unfold BSIZE in *. Z.div_mod_to_equations; lia.
      * destruct (decide (fblk s (itable s i) bn = 0)) as [|Hn]; [done|].
        rewrite T2 in Hz. unfold fblk in Hz. rewrite B2 in Hz. fold (fblk s1 (itable s1 i) bn) in Hz.
        rewrite (g_keep _ _ _ _ Hg) in Hz; done.
  - exists (-1), s2. split; [done|]. unfold read_result. rewrite T2.
    split; [by rewrite <- T2|]. split; [done|]. split; [done|]. split; [congruence|]. split; [apply Hg|].
    split; [done|]. split; [intros o Hor; rewrite <- T2, F2; by apply (g_byte _ _ _ _ Hg)|].
    split; [intros a Haa; rewrite Hfr by lia; apply Hsrc1|].
    split; [intros Eu; by destruct (Hk2 Eu)|]. split; [done|]. left.
    destruct user; [|by destruct (Hk2 eq_refl)]. split; [done|]. split; [done|]. exists 0, m, (blocks s1 addr), (off mod BSIZE), (usr s1).
    rewrite Z.add_0_r. split; [lia|]. split; [lia|]. split; [lia|]. split; [lia|]. split; [by rewrite Eu1|]. split; [|by apply Hno].
    intros j Hj. rewrite Z.add_0_r. by apply Hpiece.
Qed.

Lemma readi_run i user dst off n s :
  file_at i s -> all_bytes s -> 0 <= off < 2 ^ 32 -> 0 <= n < 2 ^ 32 -> 0 <= dst -> dst + n <= 2 ^ 64 ->
  if (off <=? i_size (itable s i)) && (off + n <? 2 ^ 32)
  then exists r s', readi i user dst off n s = Ret r s' /\
         read_result i user dst off (Z.min n (i_size (itable s i) - off)) r s s'
  else readi i user dst off n s = Ret 0 s.
Proof.
  intros [Hi Hw _ Hsz _] Hby Ho Hn Hd1 Hd2. unfold readi, inode_of.
  rewrite (bind_step (gets _) _ s (itable s i) s) by done.
  set (sz := i_size (itable s i)) in *.
  destruct (Z.leb_spec off sz) as [H1|H1]; [|by rewrite (proj2 (Z.ltb_lt sz off)) by lia].
  rewrite (proj2 (Z.ltb_ge sz off)) by lia. cbn [andb orb].
  destruct (Z.ltb_spec (off + n) (2 ^ 32)) as [H2|H2].
  2: { assert (u32 (off + n) = off + n - 2 ^ 32) as ->.
       { unwrap. symmetry. apply (Z.mod_unique_pos _ _ 1); lia. }
       by rewrite (proj2 (Z.ltb_lt (off + n - 2 ^ 32) off)) by lia. }
  rewrite (wrap_small 32) by lia. rewrite (proj2 (Z.ltb_ge (off + n) off)) by lia. cbv zeta.
  assert ((if sz <? off + n then sz - off else n) = Z.min n (sz - off)) as ->
    by (destruct (Z.ltb_spec sz (off + n)); lia).
  set (k := Z.min n (sz - off)).
  destruct (readi_loop_run i user k (rw_fuel k) 0 off dst s Hi Hw Hby ltac:(lia) ltac:(lia) ltac:(lia)
    (rw_fuel_enough k off ltac:(lia) ltac:(lia)) Hd1 ltac:(lia)) as (r & s' & E & Hr).
  rewrite Z.sub_0_r in Hr. exists r, s'. split; [|done]. rewrite E. f_equal.
  destruct (Z.eqb_spec r (-1)); lia.
Qed.

(** C32. readi gives the file's bytes. Starting inside the file, readi of n
    bytes at off runs to completion with the number r of bytes it delivered,
    the first r bytes of the file from off on, or -1, and this only when a
    copyout failed: the file's bytes before some point were delivered, and the
    copyout of those that follow it returned -1. It asks for no more than lie
    before the end of the file, and a short count means that the disk is full
    and a block of the file missing; the contents of the file and all memory outside the destination stay as
    they were. Starting beyond the end, or wrapping around, it returns 0 and
    changes nothing. *)
Theorem readi_correct i user dst off n s :
  file_at i s -> all_bytes s -> 0 <= off < 2 ^ 32 -> 0 <= n < 2 ^ 32 -> 0 <= dst -> dst + n <= 2 ^ 64 ->
  if (off <=? i_size (itable s i)) && (off + n <? 2 ^ 32)
  then exists r s', readi i user dst off n s = Ret r s' /\
         read_result i user dst off (Z.min n (i_size (itable s i) - off)) r s s'
  else readi i user dst off n s = Ret 0 s.
Proof. apply readi_run. Qed.
End contents.

(** An empty file in slot 0 of the small disk of file FsBlocks. *)
Definition file100 : inode := Inode 1 1 1 0 0 1 T_FILE 0 0 1 0 (fun _ => 0).
Definition fs_file : fstate flat := on_inode 0 (fun _ => file100) fs100.

Lemma file_at100 : file_at 0 fs_file.
Proof.
  assert (itable fs_file 0 = file100) as E by reflexivity.
  assert (forall bn, fblk fs_file file100 bn = 0) as E0.
  { intros bn. unfold fblk. by destruct (bn <? NDIRECT). }
  split; rewrite ?E.
  - apply alloc_inv_on_inode, alloc_inv100.
  - split; [by intros; left; rewrite E0|by left|intros; by rewrite E0 in *|intros; by rewrite E0 in *].
  - vm_compute. by split.
  - vm_compute. by split.
  - repeat split; vm_compute; congruence.
Qed.

Lemma all_bytes100 : all_bytes fs_file.
Proof.
  intros b o. change (blocks fs_file b o) with (blocks100 b o). unfold blocks100. repeat case_match; lia.
Qed.

Lemma bmap_correct_witness : exists s', bmap 0 0 fs_file = Ret 47 s' /\ alloc_inv s'.
Proof.
  destruct file_at100 as [Hi Hw _ _ _].
  destruct (bmap_correct 0 0 fs_file Hi Hw ltac:(vm_compute; split; congruence)) as (a & s' & E & Hg & _).
  exists s'. split; [|apply Hg]. rewrite E. f_equal.
  assert (match bmap 0 0 fs_file with Ret a _ => a = 47 | _ => False end) as H by (vm_compute; reflexivity).
  by rewrite E in H.
Defined.

Lemma dinode_store_load_witness :
  d_size (read_dinode (write_dinode (Dinode T_FILE 0 0 1 777 (fun k => k)) 64 (fun _ => 0)) 64) = 777.
Proof.
  destruct (dinode_store_load (Dinode T_FILE 0 0 1 777 (fun k => k)) 64 (fun _ => 0)) as [H _].
  - split; unfold short_ok, T_FILE, NDIRECT; cbn [d_type d_major d_minor d_nlink d_size d_addrs]; lia.
  - destruct H as (_ & _ & _ & _ & H & _). exact H.
Defined.

Lemma writei_correct_witness : exists s', writei 0 true 10 0 3 fs_file = Ret 3 s' /\
  i_size (itable s' 0) = 3 /\ fbyte s' (itable s' 0) 1 = 11.
Proof.
  pose proof (writei_correct 0 true 10 0 3 fs_file file_at100 ltac:(lia) ltac:(lia) ltac:(lia) ltac:(lia)) as H.
  change ((0 <=? i_size (itable fs_file 0)) && (0 + 3 <=? MAXFILE * BSIZE)) with true in H. cbv iota in H.
  destruct H as (tot & s' & E & Ht & _ & Hsz & _ & _ & Hb & _).
  assert (match writei 0 true 10 0 3 fs_file with Ret a _ => a = 3 | _ => False end) as Er
    by (vm_compute; reflexivity).
  rewrite E in Er. subst tot. exists s'. split; [exact E|]. split; [exact Hsz|].
  destruct (Hb 1 ltac:(vm_compute; split; congruence)) as [_ H]. apply H. lia.
Defined.

(** A file of the bytes 10, 11, 12 in block 47 *)
Definition blocks_hello (b : Z) : bytes := fun o =>
  if b =? 47 then (if (0 <=? o) && (o <? 3) then 10 + o else 0) else if (b =? 46) && (o =? 5) then 255 else blocks100 b o.
Definition file_hello : inode := Inode 1 1 1 0 0 1 T_FILE 0 0 1 3 (fun k => if k =? 0 then 47 else 0).
Definition fs_hello : fstate flat := on_inode 0 (fun _ => file_hello) (set_blocks blocks_hello fs100).

Lemma hello_blk bn : fblk fs_hello file_hello bn = if bn =? 0 then 47 else 0.
Proof. unfold fblk. destruct (Z.ltb_spec bn NDIRECT); [done|]. destruct (Z.eqb_spec bn 0); [unfold NDIRECT in *; lia|done]. Qed.

Lemma hello_file : file_at 0 fs_hello /\ all_bytes fs_hello.
Proof.
  assert (itable fs_hello 0 = file_hello) as E by reflexivity.
  assert (data_block fs_hello 47) as Hd by (split; [vm_compute; split; congruence|vm_compute; reflexivity]). split; [split; rewrite ?E|].
  - split; [exact layout100|]. intros b Hb. change (dstart (sb fs_hello)) with 47 in Hb.
    assert (forallb (fun k => used fs_hello k) (seqZ 0 47) = true) as H by (vm_compute; reflexivity).
    rewrite forallb_forall in H. apply H. apply list_elem_of_In, elem_of_seqZ. lia.
  - split.
    + intros bn _. rewrite hello_blk. destruct (bn =? 0); [by right|by left].
    + by left.
    + intros bn bn' _ _. rewrite !hello_blk. destruct (Z.eqb_spec bn 0), (Z.eqb_spec bn' 0); congruence.
    + intros bn _. rewrite hello_blk. by destruct (bn =? 0).
  - vm_compute. by split.
  - vm_compute. by split.
  - repeat split; vm_compute; congruence.
  - intros b o. change (blocks fs_hello b o) with (blocks_hello b o). unfold blocks_hello, blocks100.
    destruct (Z.leb_spec 0 o), (Z.ltb_spec o 3); cbn [andb]; repeat case_match; lia.
Qed.

Lemma readi_correct_witness : exists s', readi 0 true 100 0 5 fs_hello = Ret 3 s' /\ uread (usr s') 101 = 11 /\
  (exists s'', readi 0 true 5000 0 5 fs_hello = Ret (-1) s'' /\ refused 0 5000 0 3 fs_hello s'') /\
  readi 0 true 100 4 3 fs_hello = Ret 0 fs_hello.
Proof.
  destruct hello_file as [Hf Hb].
  pose proof (readi_correct 0 true 100 0 5 fs_hello Hf Hb ltac:(lia) ltac:(lia) ltac:(lia) ltac:(lia)) as H.
  pose proof (readi_correct 0 true 5000 0 5 fs_hello Hf Hb ltac:(lia) ltac:(lia) ltac:(lia) ltac:(lia)) as H1.
  pose proof (readi_correct 0 true 100 4 3 fs_hello Hf Hb ltac:(lia) ltac:(lia) ltac:(lia) ltac:(lia)) as H2.
  change (i_size (itable fs_hello 0)) with 3 in H, H1, H2. cbv iota beta in H, H1, H2.
  change ((0 <=? 3) && (0 + 5 <? 2 ^ 32)) with true in H, H1. change ((4 <=? 3) && (4 + 3 <? 2 ^ 32)) with false in H2. cbv iota in H, H1, H2.
  change (Z.min 5 (3 - 0)) with 3 in H, H1.
  destruct H as (r & s' & E & _ & _ & _ & _ & _ & _ & _ & _ & _ & _ & Hr).
  destruct H1 as (r1 & s1 & E1 & _ & _ & _ & _ & _ & _ & _ & _ & _ & _ & Hr1).
  assert (match readi 0 true 100 0 5 fs_hello with Ret a _ => a = 3 | _ => False end) as Er by (vm_compute; reflexivity).
  assert (match readi 0 true 5000 0 5 fs_hello with Ret a _ => a = -1 | _ => False end) as Er1 by (vm_compute; reflexivity).
  rewrite E in Er. rewrite E1 in Er1. subst r r1. exists s'. split; [exact E|]. split; [|split; [|exact H2]].
  - destruct Hr as [[? _]|(_ & Hr & _)]; [discriminate|]. exact (Hr 1 ltac:(lia)).
  - exists s1. split; [exact E1|]. destruct Hr1 as [(_ & _ & Hr1)|[? _]]; [exact Hr1|lia].
Defined.
