(* ===== verification/FsDirs.v ===== *)
(** * Directories of fs.c: dirlookup and dirlink

    A directory is a file of fixed-size entries. [entries] is the list of
    them; dirlookup finds the first entry in use with the name asked for, and
    dirlink adds a name, so that the directory implements a finite map from
    names to inode numbers. *)
From stdpp Require Import base list numbers strings.
From Stdlib Require Import ZArith Lia.
From S2P Require Import Prelude Memlayout CString BufCache UserMem Fs FsBlocks FsFiles.

(** An entry: the inode number, 0 when free, and the name *)
Abbreviation dent := (Z * list Z)%type.
Definition get_dent (c : bytes) (k : Z) : dent := (ld16 c (DIRENT_SIZE * k), cprefix (Z.to_nat DIRSIZ) c (DIRENT_SIZE * k + 2)).
Definition named (t : list Z) (e : dent) : Prop := fst e <> 0 /\ snd e = t.
Definition free_dent (e : dent) : Prop := fst e = 0.
#[export] Instance named_dec t e : Decision (named t e) := ltac:(unfold named; apply _).
#[export] Instance free_dent_dec e : Decision (free_dent e) := ltac:(unfold free_dent; apply _).

(** The map a list of entries stands for *)
Definition dir_names (es : list dent) (t : list Z) : option Z := (fun '(_, e) => fst e) <$> list_find (named t) es.

(** ** Lists *)

Lemma cprefix_shift n : forall m m' a b, (forall i, 0 <= i < Z.of_nat n -> m (a + i) = m' (b + i)) -> cprefix n m a = cprefix n m' b.
Proof.
  induction n as [|n IH]; intros m m' a b Hx; [done|]. cbn [cprefix]. pose proof (Hx 0 ltac:(lia)) as H0. rewrite !Z.add_0_r in H0. rewrite H0.
  destruct (m' b =? 0); [done|]. f_equal. apply IH. intros i Hi. specialize (Hx (1 + i) ltac:(lia)). by rewrite !Z.add_assoc in Hx.
Qed.

(** strncpy copies the part of the name that counts. *)
Lemma cprefix_strncpy n : forall m s t, s + Z.of_nat n <= t \/ t + Z.of_nat n <= s -> cprefix n (strncpy_loop m s t n) s = cprefix n m t.
Proof.
  induction n as [|n IH]; intros m s t Hd; [done|]. cbn [strncpy_loop cprefix]. destruct (Z.eqb_spec (m t) 0) as [E|E].
  - rewrite pad_zero_fill, fill_out, fupd_eq by lia. by rewrite (proj2 (Z.eqb_eq _ _) E).
  - rewrite strncpy_loop_out, fupd_eq by lia. rewrite (proj2 (Z.eqb_neq _ _) E). f_equal. rewrite IH by lia.
    apply cprefix_ext. intros x Hx. apply fupd_ne. lia.
Qed.

Lemma find_drop {A} (P : A -> Prop) `{forall x, Decision (P x)} (l : list A) k x : l !! k = Some x ->
  list_find P (drop k l) = if decide (P x) then Some (O, x) else prod_map S id <$> list_find P (drop (S k) l).
Proof. intros E. by rewrite (drop_S l x k E). Qed.

Lemma dir_names_insert es k x t v : es !! k = Some x -> free_dent x -> list_find (named t) es = None -> v <> 0 ->
  forall u, dir_names (<[k := (v, t)]> es) u = if decide (u = t) then Some v else dir_names es u.
Proof.
  intros E Hf Hn Hv u. unfold dir_names. revert k E Hn. induction es as [|e es IH]; intros k E Hn; [done|].
  cbn [list_find] in Hn. destruct (decide (named t e)) as [|Hne]; [done|]. destruct k as [|k]; cbn in E |- *.
  - injection E as ->. destruct (decide (named u x)) as [[? _]|_]; [done|].
    destruct (decide (named u (v, t))) as [[_ Eu]|Hnu], (decide (u = t)) as [->|Hut]; cbn in *; try done; first [congruence|by destruct Hnu].
  - specialize (IH k E). destruct (list_find (named t) es) as [[j y]|] eqn:Ej; [done|]. specialize (IH eq_refl).
    destruct (decide (named u e)) as [Hu|_].
    + cbn. destruct (decide (u = t)) as [->|]; done.
    + destruct (list_find (named u) (<[k:=(v, t)]> es)) as [[? ?]|]; destruct (list_find (named u) es) as [[? ?]|]; cbn in *; destruct (decide (u = t)); done.
Qed.

Lemma dir_names_app es t v : list_find (named t) es = None -> v <> 0 ->
  forall u, dir_names (es ++ [(v, t)]) u = if decide (u = t) then Some v else dir_names es u.
Proof.
  intros Hn Hv u. unfold dir_names. induction es as [|e es IH]; cbn in Hn |- *.
  - destruct (decide (named u (v, t))) as [[_ Eu]|Hnu], (decide (u = t)) as [->|Hut]; cbn in *; try done; first [congruence|by destruct Hnu].
  - destruct (decide (named t e)) as [|Hne]; [done|]. destruct (list_find (named t) es) as [[j y]|]; [done|]. specialize (IH eq_refl).
    destruct (decide (named u e)) as [Hu|_]; [cbn; by destruct (decide (u = t)) as [->|]|].
    destruct (list_find (named u) (es ++ _)) as [[? ?]|]; destruct (list_find (named u) es) as [[? ?]|]; cbn in *; destruct (decide (u = t)); done.
Qed.

(** ** Directories *)

Section dirs.
Context {U : Type} `{UL : UserMemLaws U}.
Implicit Types s : fstate U.

Definition ndents s (dp : Z) : Z := i_size (itable s dp) / DIRENT_SIZE.
Definition entries s (dp : Z) : list dent := get_dent (fbyte s (itable s dp)) <$> seqZ 0 (ndents s dp).

(** A directory inode: whole entries, and a block for each of them *)
Record dir_ok s (dp : Z) : Prop := DirOk {
  do_file : file_at dp s;
  do_type : i_type (itable s dp) = T_DIR;
  do_size : i_size (itable s dp) mod DIRENT_SIZE = 0;
  do_full : forall bn, 0 <= bn -> bn * BSIZE < i_size (itable s dp) -> fblk s (itable s dp) bn <> 0;
}.

Lemma dir_ok_kmem s dp m : dir_ok s dp -> dir_ok (set_kmem m s) dp.
Proof. intros [[Hi Hw ? ? ?] ? ? ?]. split; [split|..]; try done; [by destruct Hi; split|by destruct Hw; split]. Qed.

Lemma dir_size s dp : dir_ok s dp -> i_size (itable s dp) = DIRENT_SIZE * ndents s dp /\ 0 <= ndents s dp /\ DIRENT_SIZE * ndents s dp <= MAXFILE * BSIZE.
Proof. intros [[_ _ _ Hs _] _ Hm _]. unfold ndents. change DIRENT_SIZE with 16 in *. rewrite max_file_bytes in *. Z.div_mod_to_equations. lia. Qed.

Lemma length_entries s dp : dir_ok s dp -> Z.of_nat (length (entries s dp)) = ndents s dp.
Proof. intros Hd. destruct (dir_size s dp Hd) as (_ & Hn & _). unfold entries. rewrite length_fmap, length_seqZ. lia. Qed.

Lemma entries_lookup s dp k : dir_ok s dp -> 0 <= k < ndents s dp -> entries s dp !! Z.to_nat k = Some (get_dent (fbyte s (itable s dp)) k).
Proof. intros Hd Hk. unfold entries. rewrite list_lookup_fmap, lookup_seqZ_lt by lia. cbn. do 2 f_equal. lia. Qed.

(** The copy of an entry in kernel memory *)
Definition with_dent s (dp de k : Z) : bytes :=
  blit (kmem s) de (blocks s (fblk s (itable s dp) (DIRENT_SIZE * k / BSIZE))) (DIRENT_SIZE * k mod BSIZE) DIRENT_SIZE.

Lemma dent_pos k : 0 <= k -> DIRENT_SIZE * k mod BSIZE + DIRENT_SIZE <= BSIZE.
Proof. intros Hk. change DIRENT_SIZE with 16. unfold BSIZE. dlia. Qed.

Lemma dent_byte s dp k i : dir_ok s dp -> 0 <= k < ndents s dp -> 0 <= i < DIRENT_SIZE ->
  blocks s (fblk s (itable s dp) (DIRENT_SIZE * k / BSIZE)) (DIRENT_SIZE * k mod BSIZE + i) = fbyte s (itable s dp) (DIRENT_SIZE * k + i).
Proof.
  intros Hd Hk Hi. destruct (dir_size s dp Hd) as (Hs & _ & _). pose proof (dent_pos k ltac:(lia)) as Hp. unfold fbyte.
  assert ((DIRENT_SIZE * k + i) / BSIZE = DIRENT_SIZE * k / BSIZE /\ (DIRENT_SIZE * k + i) mod BSIZE = DIRENT_SIZE * k mod BSIZE + i) as [-> ->].
  { change DIRENT_SIZE with 16 in *. unfold BSIZE in *. dlia. }
  rewrite (proj2 (Z.eqb_neq _ 0)); [done|]. apply (do_full _ _ Hd); change DIRENT_SIZE with 16 in *; unfold BSIZE in *; dlia.
Qed.

(** readi of one entry reads it in one piece and changes only [de]. *)
Lemma read_dent s dp de k : dir_ok s dp -> 0 <= k < ndents s dp -> 0 <= de < 2 ^ 64 ->
  readi dp false de (DIRENT_SIZE * k) DIRENT_SIZE s = Ret DIRENT_SIZE (set_kmem (with_dent s dp de k) s).
Proof.
  intros Hd Hk Hde. destruct (dir_size s dp Hd) as (Hs & Hn & Hmax). rewrite max_file_bytes in Hmax. pose proof (dent_pos k ltac:(lia)) as Hp.
  pose proof (do_file _ _ Hd) as [Hi Hw _ _ _]. set (off := DIRENT_SIZE * k) in *. assert (0 <= off /\ off + 16 <= i_size (itable s dp)) as [H0 Hoff].
  { unfold off. change DIRENT_SIZE with 16 in *. lia. }
  assert (fblk s (itable s dp) (off / BSIZE) <> 0) as Hb by (apply (do_full _ _ Hd); unfold BSIZE; dlia).
  destruct (bmap_run dp (off / BSIZE) s Hi Hw) as (a & s' & E & _ & _ & _ & _ & Hhad).
  { change MAXFILE with 268. unfold BSIZE. change DIRENT_SIZE with 16 in *. dlia. }
  destruct (Hhad Hb) as [-> ->]. unfold readi, inode_of. rewrite (bind_step (gets _) _ s (itable s dp) s) by done.
  change DIRENT_SIZE with 16 in *. rewrite (wrap_small 32) by lia.
  rewrite (proj2 (Z.ltb_ge _ off)), (proj2 (Z.ltb_ge _ off)), (proj2 (Z.ltb_ge _ (off + 16))) by lia. cbn [orb]. cbv zeta.
  change (rw_fuel 16) with 3%nat. cbn [readi_loop]. change (0 <? 16) with true. cbv iota. rewrite (bind_step _ _ _ _ _ E).
  rewrite (proj2 (Z.eqb_neq _ 0)) by done. unfold bdata_of. rewrite (bind_step (gets _) _ s (blocks s (fblk s (itable s dp) (off / BSIZE))) s) by done.
  cbv zeta. change (16 - 0) with 16. rewrite Z.min_l by lia. rewrite wrap_small by lia. reflexivity.
Qed.

Section lookup.
Context (de dp name : Z).
Hypothesis de_range : 0 <= de < 2 ^ 64.
Hypothesis name_apart : name + DIRSIZ <= de \/ de + DIRENT_SIZE <= name.

Definition the_name s : list Z := cprefix (Z.to_nat DIRSIZ) (kmem s) name.
(** Only the caller's dirent has changed in kernel memory. *)
Definition only_de s (m : bytes) : Prop := forall a, a < de \/ de + DIRENT_SIZE <= a -> m a = kmem s a.

Lemma only_de_trans s m m' : only_de s m -> only_de (set_kmem m s) m' -> only_de s m'.
Proof. intros H1 H2 a Ha. rewrite H2 by done. by apply H1. Qed.

Lemma only_de_name s m : only_de s m -> cprefix (Z.to_nat DIRSIZ) m name = the_name s.
Proof. intros Hm. apply cprefix_ext. intros x Hx. apply Hm. change (Z.of_nat (Z.to_nat DIRSIZ)) with DIRSIZ in Hx. lia. Qed.

Lemma with_dent_run s k : dir_ok s dp -> 0 <= k < ndents s dp ->
  only_de s (with_dent s dp de k) /\ ld16 (with_dent s dp de k) de = fst (get_dent (fbyte s (itable s dp)) k) /\
  (namecmp (with_dent s dp de k) name (de + 2) =? 0) = bool_decide (the_name s = snd (get_dent (fbyte s (itable s dp)) k)).
Proof.
  intros Hd Hk. assert (only_de s (with_dent s dp de k)) as Ho by (intros a Ha; by apply blit_out).
  assert (forall i, 0 <= i < DIRENT_SIZE -> with_dent s dp de k (de + i) = fbyte s (itable s dp) (DIRENT_SIZE * k + i)) as Hb.
  { intros i Hi. rewrite <- (dent_byte s dp k i Hd Hk Hi). unfold with_dent. rewrite blit_in by lia. f_equal. lia. }
  split; [done|]. split; [apply ld_shift; intros x Hx; apply Hb; change DIRENT_SIZE with 16; lia|].
  assert (cprefix (Z.to_nat DIRSIZ) (with_dent s dp de k) (de + 2) = snd (get_dent (fbyte s (itable s dp)) k)) as <-.
  { apply cprefix_shift. change (Z.of_nat (Z.to_nat DIRSIZ)) with 14. intros i Hi. rewrite <- !Z.add_assoc. apply Hb. change DIRENT_SIZE with 16. lia. }
  rewrite <- (only_de_name s _ Ho). unfold namecmp. destruct (Z.eqb_spec (strncmp (with_dent s dp de k) name (de + 2) DIRSIZ) 0) as [E|E].
  - symmetry. apply bool_decide_eq_true_2. by apply strncmp_zero_iff.
  - symmetry. apply bool_decide_eq_false_2. intros En. by apply E, strncmp_zero_iff.
Qed.

(** The entries from [k] on *)
Lemma dirlookup_from_run fuel : forall k s, dir_ok s dp -> 0 <= k <= ndents s dp -> ndents s dp - k < Z.of_nat fuel ->
  exists m, only_de s m /\ dirlookup_from fuel de dp name (DIRENT_SIZE * k) s =
    match list_find (named (the_name s)) (drop (Z.to_nat k) (entries s dp)) with
    | Some (j, e) => (i <- iget (i_dev (itable s dp)) (fst e) ;; ret (i, DIRENT_SIZE * (k + Z.of_nat j))) (set_kmem m s)
    | None => Ret (NULL, 0) (set_kmem m s)
    end.
Proof.
  induction fuel as [|fuel IH]; intros k s Hd Hk Hf; [lia|]. cbn [dirlookup_from]. destruct (dir_size s dp Hd) as (Hs & Hn & Hmax).
  unfold inode_of. rewrite (bind_step (gets _) _ s (itable s dp) s) by done. change DIRENT_SIZE with 16 in *.
  destruct (Z.ltb_spec (16 * k) (i_size (itable s dp))) as [Hlt|Hge].
  2: { exists (kmem s). split; [done|]. rewrite drop_ge by (pose proof (length_entries s dp Hd); lia). cbn. by destruct s. }
  assert (0 <= k < ndents s dp) as Hk' by lia. pose proof (read_dent s dp de k Hd Hk' de_range) as Er. change DIRENT_SIZE with 16 in Er.
  rewrite (bind_step _ _ _ _ _ Er). change (16 =? 16) with true. cbn [negb]. set (m := with_dent s dp de k) in *.
  rewrite (bind_step (gets _) _ (set_kmem m s) m (set_kmem m s)) by done. cbv zeta.
  destruct (with_dent_run s k Hd Hk') as (Ho & Hi & Hc). fold m in Ho, Hi, Hc. rewrite Hi, Hc.
  pose proof (find_drop (named (the_name s)) _ _ _ (entries_lookup s dp k Hd Hk')) as Efind. rewrite Efind. set (e := get_dent (fbyte s (itable s dp)) k) in *.
  destruct (IH (k + 1) (set_kmem m s)) as (m' & Hm' & E'); [by apply dir_ok_kmem|change (0 <= k + 1 <= ndents s dp); lia|change (ndents s dp - (k + 1) < Z.of_nat fuel); lia|].
  assert (exists m', only_de s m' /\ dirlookup_from fuel de dp name (16 * k + 16) (set_kmem m s) =
    match prod_map S id <$> list_find (named (the_name s)) (drop (S (Z.to_nat k)) (entries s dp)) with
    | Some (j, e) => (i <- iget (i_dev (itable s dp)) (fst e) ;; ret (i, 16 * (k + Z.of_nat j))) (set_kmem m' s)
    | None => Ret (NULL, 0) (set_kmem m' s)
    end) as Hnext.
  { exists m'. split; [by eapply only_de_trans|]. replace (16 * k + 16) with (16 * (k + 1)) by lia. rewrite E'.
    rewrite (only_de_name s m Ho : the_name (set_kmem m s) = the_name s). replace (Z.to_nat (k + 1)) with (S (Z.to_nat k)) by lia.
    change (entries (set_kmem m s) dp) with (entries s dp). destruct (list_find (named (the_name s)) (drop (S (Z.to_nat k)) (entries s dp))) as [[j e']|]; [|done]. cbn [fmap option_fmap option_map prod_map].
    by replace (k + 1 + Z.of_nat j) with (k + Z.of_nat (S j)) by lia. }
  destruct (decide (named (the_name s) e)) as [[Hne Hnm]|Hnn].
  - exists m. split; [done|]. rewrite (proj2 (Z.eqb_neq _ 0)) by done. rewrite bool_decide_eq_true_2 by done.
    rewrite (bind_step (gets _) _ (set_kmem m s) (itable s dp) (set_kmem m s)) by done. by rewrite Z.add_0_r.
  - destruct (Z.eqb_spec (fst e) 0) as [|Hz]; [exact Hnext|]. rewrite bool_decide_eq_false_2; [exact Hnext|]. intros En. by apply Hnn.
Qed.

(** dirlookup: the first entry in use with the name, or NULL *)
Lemma dirlookup_run s : dir_ok s dp ->
  exists m, only_de s m /\ dirlookup de dp name s =
    match list_find (named (the_name s)) (entries s dp) with
    | Some (k, e) => (i <- iget (i_dev (itable s dp)) (fst e) ;; ret (i, DIRENT_SIZE * Z.of_nat k)) (set_kmem m s)
    | None => Ret (NULL, 0) (set_kmem m s)
    end.
Proof.
  intros Hd. unfold dirlookup, inode_of. rewrite (bind_step (gets _) _ s (itable s dp) s) by done. rewrite (do_type _ _ Hd). cbn [negb Z.eqb T_DIR Pos.eqb].
  destruct (dir_size s dp Hd) as (Hs & Hn & _). destruct (dirlookup_from_run (dir_fuel (itable s dp)) 0 s Hd) as (m & Hm & E); [lia|unfold dir_fuel, ndents in *; lia|].
  exists m. split; [done|]. change (DIRENT_SIZE * 0) with 0 in E. rewrite E. cbn [drop Z.to_nat]. done.
Qed.

(** The first free entry from [k] on, or the end *)
Lemma dirlink_slot_run fuel : forall k s, dir_ok s dp -> 0 <= k <= ndents s dp -> ndents s dp - k < Z.of_nat fuel ->
  exists m j, only_de s m /\ dirlink_slot fuel de dp (DIRENT_SIZE * k) s = Ret (DIRENT_SIZE * j) (set_kmem m s) /\ k <= j <= ndents s dp /\
    (forall e, entries s dp !! Z.to_nat j = Some e -> free_dent e) /\ (j = ndents s dp -> forall i e, k <= Z.of_nat i -> entries s dp !! i = Some e -> ~ free_dent e).
Proof.
  induction fuel as [|fuel IH]; intros k s Hd Hk Hf; [lia|]. cbn [dirlink_slot]. destruct (dir_size s dp Hd) as (Hs & Hn & Hmax).
  pose proof (length_entries s dp Hd) as Hlen. unfold inode_of. rewrite (bind_step (gets _) _ s (itable s dp) s) by done. change DIRENT_SIZE with 16 in *.
  destruct (Z.ltb_spec (16 * k) (i_size (itable s dp))) as [Hlt|Hge].
  2: { exists (kmem s), k. split; [done|]. split; [by destruct s|]. split; [lia|].
       split; intros; exfalso; match goal with E : _ !! _ = Some _ |- _ => apply lookup_lt_Some in E end; lia. }
  assert (0 <= k < ndents s dp) as Hk' by lia. pose proof (read_dent s dp de k Hd Hk' de_range) as Er. change DIRENT_SIZE with 16 in Er.
  rewrite (bind_step _ _ _ _ _ Er). change (16 =? 16) with true. cbn [negb]. set (m := with_dent s dp de k) in *.
  rewrite (bind_step (gets _) _ (set_kmem m s) m (set_kmem m s)) by done. destruct (with_dent_run s k Hd Hk') as (Ho & Hi & _). fold m in Ho, Hi. rewrite Hi.
  pose proof (entries_lookup s dp k Hd Hk') as El. destruct (Z.eqb_spec (fst (get_dent (fbyte s (itable s dp)) k)) 0) as [Ez|Enz].
  - exists m, k. split; [done|]. split; [done|]. split; [lia|]. split; [|lia]. intros e Ee. rewrite El in Ee. by injection Ee as <-.
  - destruct (IH (k + 1) (set_kmem m s)) as (m' & j & Hm' & E' & Hj & Hfree & Hlast);
      [by apply dir_ok_kmem|change (0 <= k + 1 <= ndents s dp); lia|change (ndents s dp - (k + 1) < Z.of_nat fuel); lia|].
    exists m', j. split; [by eapply only_de_trans|]. replace (16 * k + 16) with (16 * (k + 1)) by lia. split; [done|].
    change (ndents (set_kmem m s) dp) with (ndents s dp) in *. split; [lia|]. split; [done|]. intros Ej i e Hi' Ee.
    destruct (Z.eq_dec (Z.of_nat i) k) as [Eik|Hne]; [|apply (Hlast Ej i e ltac:(lia) Ee)]. replace i with (Z.to_nat k) in Ee by lia. rewrite El in Ee. by injection Ee as <-.
Qed.
End lookup.

(** ** The inode table *)

Lemma iget_scan_run tbl dev inum n : forall i empty,
  match iget_scan n i tbl dev inum empty with
  | inl j => i <= j < i + Z.of_nat n /\ 0 < i_ref (tbl j) /\ i_dev (tbl j) = dev /\ i_inum (tbl j) = inum
  | inr e => (e = empty /\ (empty = NULL -> forall j, i <= j < i + Z.of_nat n -> i_ref (tbl j) <> 0)) \/ (empty = NULL /\ i <= e < i + Z.of_nat n /\ i_ref (tbl e) = 0)
  end.
Proof.
  induction n as [|n IH]; intros i empty; cbn [iget_scan]; [left; split; [done|lia]|].
  destruct (_ && _) eqn:Ec.
  - apply andb_prop in Ec as [Ec E3]. apply andb_prop in Ec as [E1 E2]. lia.
  - clear Ec. specialize (IH (i + 1) (if (empty =? NULL) && (i_ref (tbl i) =? 0) then i else empty)).
    destruct (iget_scan n (i + 1) tbl dev inum _) as [j|e]; [split; [lia|apply IH]|].
    destruct (Z.eqb_spec empty NULL) as [He|He], (Z.eqb_spec (i_ref (tbl i)) 0) as [Hr|Hr]; cbn [andb] in IH.
    + destruct IH as [[-> _]|(Hi & H1 & H2)]; right; [split; [done|]; split; [lia|done]|split; [done|]; split; [lia|done]].
    + destruct IH as [[-> Hall]|(_ & H1 & H2)]; [left|right; split; [done|]; split; [lia|done]]. split; [done|]. intros _ j Hj.
      destruct (Z.eq_dec j i) as [->|]; [done|]. apply Hall; [done|lia].
    + destruct IH as [[-> Hall]|(? & _)]; [left; done|done].
    + destruct IH as [[-> Hall]|(? & _)]; [left; done|done].
Qed.

(** iget: a reference to the slot of the inode, which may be new, or a panic
    when no slot is free *)
Lemma iget_run dev inum s :
  (exists j f, iget dev inum s = Ret j (on_inode j f s) /\ 0 <= j < NINODE /\ f (itable s j) = (if 0 <? i_ref (itable s j) then with_ref (i_ref (itable s j) + 1) (itable s j)
     else recycle_inode dev inum (itable s j)) /\ 0 <= i_ref (itable s j) /\ i_dev (f (itable s j)) = dev /\ i_inum (f (itable s j)) = inum) \/
  (iget dev inum s = Panic "iget: no inodes" /\ forall j, 0 <= j < NINODE -> i_ref (itable s j) <> 0).
Proof.
  unfold iget. rewrite (bind_step (gets _) _ s (itable s) s) by done. pose proof (iget_scan_run (itable s) dev inum (Z.to_nat NINODE) 0 NULL) as Hs.
  change (0 + Z.of_nat (Z.to_nat NINODE)) with NINODE in Hs. destruct (iget_scan _ _ _ _ _ _) as [j|e].
  - left. destruct Hs as (Hj & Hr & <- & <-). eexists j, _. split; [done|]. split; [done|]. cbv beta. rewrite (proj2 (Z.ltb_lt 0 _)) by done. split; [done|]. split; [lia|done].
  - destruct Hs as [[-> Hall]|(_ & He & Hr)]; [right; split; [done|by apply Hall]|left]. eexists e, _. rewrite (proj2 (Z.eqb_neq e NULL)) by (unfold NULL; lia).
    split; [done|]. split; [done|]. cbv beta. rewrite Hr. split; [done|]. split; [lia|done].
Qed.

(** iput right after iget drops the reference again. *)
Lemma iget_iput dev inum s : (exists s', (i <- iget dev inum ;; iput i ;;; ret (-1)) s = Ret (-1) s' /\ blocks s' = blocks s /\ sb s' = sb s /\ kmem s' = kmem s /\
    forall i, 0 < i_ref (itable s i) -> itable s' i = itable s i) \/
  ((i <- iget dev inum ;; iput i ;;; ret (-1)) s = Panic "iget: no inodes" /\ forall j, 0 <= j < NINODE -> i_ref (itable s j) <> 0).
Proof.
  destruct (iget_run dev inum s) as [(j & f & E & Hj & Hf & Hr & _)|[E Hall]]; [left|right].
  2: { split; [|done]. unfold bind at 1. by rewrite E. }
  rewrite (bind_step _ _ _ _ _ E). set (s1 := on_inode j f s). unfold iput, inode_of. rewrite bind_assoc. rewrite (bind_step (gets _) _ s1 (itable s1 j) s1) by done.
  assert (itable s1 j = f (itable s j)) as E1 by apply fupd_eq. rewrite E1, Hf.
  assert (forall v, (i_ref (if 0 <? i_ref (itable s j) then with_ref (i_ref (itable s j) + 1) (itable s j) else recycle_inode dev inum (itable s j)) =? 1) &&
    negb (i_valid (if 0 <? i_ref (itable s j) then with_ref (i_ref (itable s j) + 1) (itable s j) else recycle_inode dev inum (itable s j)) =? 0) && v = false) as Hc.
  { intros v. destruct (Z.ltb_spec 0 (i_ref (itable s j))); cbn; [|done]. by rewrite (proj2 (Z.eqb_neq _ 1)) by lia. }
  rewrite Hc. cbn [when]. eexists. split; [reflexivity|]. split; [done|]. split; [done|]. split; [done|]. intros i Hi.
  change (fupd (itable s1) j (with_ref (i_ref (itable s1 j) - 1) (itable s1 j)) i = itable s i).
  destruct (Z.eq_dec i j) as [->|Hne]; [|rewrite fupd_ne by done; by apply fupd_ne]. rewrite fupd_eq, E1, Hf, (proj2 (Z.ltb_lt 0 _)) by done. destruct (itable s j). unfold with_ref. cbn. f_equal. lia.
Qed.

(** One entry of the directory replaced, or added at the end *)
Lemma entries_written s s' dp k v : dir_ok s dp -> dir_ok s' dp -> 0 <= k <= ndents s dp -> DIRENT_SIZE * (k + 1) <= MAXFILE * BSIZE ->
  ndents s' dp = Z.max (ndents s dp) (k + 1) -> get_dent (fbyte s' (itable s' dp)) k = v ->
  (forall o, 0 <= o < MAXFILE * BSIZE -> o < DIRENT_SIZE * k \/ DIRENT_SIZE * k + DIRENT_SIZE <= o -> fbyte s' (itable s' dp) o = fbyte s (itable s dp) o) ->
  entries s' dp = if k <? ndents s dp then <[Z.to_nat k := v]> (entries s dp) else entries s dp ++ [v].
Proof.
  intros Hd Hd' Hk Hmax Hn <- Hout. pose proof (length_entries s dp Hd) as L1. pose proof (length_entries s' dp Hd') as L2. destruct (dir_size s' dp Hd') as (_ & _ & Hm').
  assert (forall j, 0 <= j < ndents s' dp -> j <> k -> get_dent (fbyte s' (itable s' dp)) j = get_dent (fbyte s (itable s dp)) j) as Hsame.
  { intros j Hj Hne. change DIRENT_SIZE with 16 in *. rewrite max_file_bytes in *. unfold get_dent. change DIRENT_SIZE with 16.
    rewrite (ld_ext 2 _ (fbyte s (itable s dp))) by (intros x Hx; apply Hout; lia).
    by rewrite (cprefix_ext _ _ (fbyte s (itable s dp))) by (change (Z.of_nat (Z.to_nat DIRSIZ)) with 14; intros x Hx; apply Hout; lia). }
  apply list_eq_same_length with (n := length (entries s' dp)); [|done|].
  - destruct (Z.ltb_spec k (ndents s dp)); [rewrite length_insert; lia|rewrite length_app; cbn; lia].
  - intros i x y Hi Ex Ey. replace i with (Z.to_nat (Z.of_nat i)) in Ex by lia. rewrite entries_lookup in Ex by (done || lia). injection Ex as <-.
    destruct (Z.ltb_spec k (ndents s dp)) as [Hlt|Hge].
    + destruct (Z.eq_dec (Z.of_nat i) k) as [Ei|Hne].
      * replace i with (Z.to_nat k) in Ey by lia. rewrite list_lookup_insert_eq in Ey by lia. injection Ey as <-. by rewrite Ei.
      * rewrite list_lookup_insert_ne in Ey by lia. replace i with (Z.to_nat (Z.of_nat i)) in Ey by lia. rewrite entries_lookup in Ey by (done || lia).
        injection Ey as <-. apply Hsame; lia.
    + destruct (Z.eq_dec (Z.of_nat i) k) as [Ei|Hne].
      * rewrite lookup_app_r in Ey by lia. replace (i - length (entries s dp))%nat with O in Ey by lia. injection Ey as <-. by rewrite Ei.
      * rewrite lookup_app_l in Ey by lia. replace i with (Z.to_nat (Z.of_nat i)) in Ey by lia. rewrite entries_lookup in Ey by (done || lia).
        injection Ey as <-. apply Hsame; lia.
Qed.

Lemma dir_same s s' dp : dir_ok s dp -> blocks s' = blocks s -> sb s' = sb s -> itable s' dp = itable s dp ->
  dir_ok s' dp /\ entries s' dp = entries s dp.
Proof.
  intros [[[Hl Hm] [F1 F2 F3 F4] H3 H4 H5] H6 H7 H8] Eb Es Et.
  assert (forall ip bn, fblk s' ip bn = fblk s ip bn) as Ef by (intros; unfold fblk; by rewrite Eb).
  assert (forall b, used s' b = used s b) as Eu by (intros; unfold used; by rewrite Eb, Es).
  assert (forall b, data_block s' b <-> data_block s b) as Ed by (intros; unfold data_block; by rewrite Es, Eu). split.
  - split; [split|..]; rewrite ?Et, ?Es; try done.
    + split; rewrite ?Es; [done|]. intros b Hb. rewrite Eu. by apply Hm.
    + split; intros *; rewrite ?Ef, ?Ed; auto.
    + intros bn. rewrite Ef. apply H8.
  - unfold entries, ndents. rewrite Et. apply list_fmap_ext. intros k x _. unfold fbyte, fblk. by rewrite Eb.
Qed.

Lemma names_find es t : dir_names es t = None <-> list_find (named t) es = None.
Proof. unfold dir_names. by rewrite fmap_None. Qed.

Section directory.
Context (de dp name : Z).
Hypothesis de_range : 0 <= de /\ de + DIRENT_SIZE <= 2 ^ 64.
Hypothesis name_apart : name + DIRSIZ <= de \/ de + DIRENT_SIZE <= name.

Lemma de_bounds : 0 <= de < 2 ^ 64.
Proof. change DIRENT_SIZE with 16 in *. lia. Qed.

(** The entry that dirlink builds in its local variable *)
Definition new_dent (inum : Z) (m : bytes) : bytes := st16 (strncpy m (de + 2) name DIRSIZ) de inum.

Lemma new_dent_run inum m s c k : only_de de s m -> 0 < inum < 2 ^ 16 -> (forall i, 0 <= i < DIRENT_SIZE -> c (DIRENT_SIZE * k + i) = new_dent inum m (de + i)) ->
  get_dent c k = (inum, the_name name s).
Proof.
  intros Hm Hin Hc. change DIRENT_SIZE with 16 in *. unfold get_dent. change DIRENT_SIZE with 16. f_equal.
  - rewrite (ld_shift 2 c (new_dent inum m) (16 * k) de) by (intros x Hx; apply Hc; lia). unfold new_dent. rewrite ld_st_same. apply Z.mod_small. lia.
  - rewrite (cprefix_shift _ c (new_dent inum m) (16 * k + 2) (de + 2)) by (change (Z.of_nat (Z.to_nat DIRSIZ)) with 14; intros i Hi; rewrite <- !Z.add_assoc; apply Hc; lia).
    rewrite (cprefix_ext _ _ (strncpy m (de + 2) name DIRSIZ)) by (intros x Hx; apply st_other; lia).
    unfold strncpy. rewrite cprefix_strncpy by (change (Z.of_nat (Z.to_nat DIRSIZ)) with 14; unfold DIRSIZ in *; lia). by apply (only_de_name de name name_apart).
Qed.

(** The directory cannot grow: it has the largest size, or no block is free. *)
Definition no_room s s' : Prop := MAXFILE * BSIZE < i_size (itable s dp) + DIRENT_SIZE \/ disk_full s'.

(** Storing the entry in place [k], which may be one past the last *)
Lemma write_dent s k m inum : dir_ok s dp -> only_de de s m -> 0 < inum < 2 ^ 16 -> 0 <= k <= ndents s dp -> list_find (named (the_name name s)) (entries s dp) = None ->
  (forall e, entries s dp !! Z.to_nat k = Some e -> free_dent e) ->
  exists r s', writei dp false de (DIRENT_SIZE * k) DIRENT_SIZE (set_kmem (new_dent inum m) s) = Ret r s' /\ dir_ok s' dp /\
    ((r = DIRENT_SIZE /\ forall u, dir_names (entries s' dp) u = if decide (u = the_name name s) then Some inum else dir_names (entries s dp) u) \/
     (r <> DIRENT_SIZE /\ entries s' dp = entries s dp /\ k = ndents s dp /\ no_room s s')).
Proof.
  intros Hd Hm Hin Hk Hnone Hfree. destruct (dir_size s dp Hd) as (Hs & Hn & Hmax). set (s1 := set_kmem (new_dent inum m) s).
  assert (dir_ok s1 dp) as Hd1 by by apply dir_ok_kmem. change (entries s dp) with (entries s1 dp) in *. change (ndents s dp) with (ndents s1 dp) in *.
  change (itable s dp) with (itable s1 dp) in *. rewrite max_file_bytes in Hmax. destruct (Z.le_gt_cases (DIRENT_SIZE * (k + 1)) (MAXFILE * BSIZE)) as [Hfit|Hbig].
  2: { exists (-1), s1. split; [|split; [done|]; right; split; [done|]; split; [done|]; assert (k = ndents s1 dp) as Ek by (change DIRENT_SIZE with 16 in *; rewrite max_file_bytes in Hbig; lia); split; [done|]; left; change (itable s dp) with (itable s1 dp); rewrite Hs; lia].
       unfold writei, inode_of. rewrite (bind_step (gets _) _ s1 (itable s1 dp) s1) by done. change DIRENT_SIZE with 16 in *. rewrite max_file_bytes in *.
       rewrite (wrap_small 32) by lia. rewrite (proj2 (Z.ltb_ge _ (16 * k))), (proj2 (Z.ltb_ge _ (16 * k))), (proj2 (Z.ltb_lt _ (16 * k + 16))) by lia. done. }
  destruct (writei_run dp false de (DIRENT_SIZE * k) DIRENT_SIZE s1 (do_file _ _ Hd1)) as (tot & s' & E & Ht & Hfa & Hsz & Hino & Hsb & Hbytes & (K1 & K2 & K3) & Hty & _);
    [change DIRENT_SIZE with 16 in *; lia|done|change DIRENT_SIZE with 16 in *; lia|apply de_range|apply de_range|].
  change DIRENT_SIZE with 16 in *. rewrite max_file_bytes in *. assert (tot = 16 \/ tot = 0 /\ k = ndents s1 dp /\ disk_full s') as Htot.
  { destruct (Z.eq_dec tot 16) as [|Hne]; [by left|right]. destruct (K3 eq_refl ltac:(lia)) as (Hz & (bn & Hbn & Hb0) & Hdf).
    split; [destruct Hz as [?|Hz]; [done|unfold BSIZE in Hz; dlia]|]. split; [|done]. destruct (Z.eq_dec k (ndents s1 dp)) as [|Hlt]; [done|exfalso].
    apply (do_full _ _ Hd1 bn); [|unfold BSIZE in *|done]; unfold BSIZE in *; dlia. }
  assert (dir_ok s' dp) as Hd'.
  { split; [done|rewrite Hty; exact (do_type _ _ Hd1)|rewrite Hsz; change DIRENT_SIZE with 16; dlia|]. intros bn Hb0 Hbn. rewrite Hsz in Hbn.
    destruct (decide (bn * BSIZE < i_size (itable s1 dp))) as [Hold|Hnew].
    - rewrite K1; [by apply (do_full _ _ Hd1)|change MAXFILE with 268; unfold BSIZE in *; lia|by apply (do_full _ _ Hd1)].
    - replace bn with (16 * k / BSIZE) by (unfold BSIZE in *; dlia). apply K2. lia. }
  exists tot, s'. split; [done|]. split; [done|]. assert (ndents s' dp = Z.max (ndents s1 dp) (if tot =? 16 then k + 1 else k)) as Hnd.
  { unfold ndents at 1. rewrite Hsz, Hs. change DIRENT_SIZE with 16. set (n := ndents s1 dp) in *.
    replace (Z.max (16 * n) (16 * k + tot)) with (Z.max n (if tot =? 16 then k + 1 else k) * 16) by (destruct (Z.eqb_spec tot 16); lia).
    by apply Z.div_mul. }
  destruct Htot as [-> |(-> & Ek & Hdf)].
  - left. split; [done|]. change (16 =? 16) with true in Hnd. cbv iota in Hnd.
    rewrite (entries_written s1 s' dp k (inum, the_name name s) Hd1 Hd' Hk); [|change DIRENT_SIZE with 16; rewrite max_file_bytes; lia|done| |].
    + assert (inum <> 0) as Hin0 by lia. destruct (Z.ltb_spec k (ndents s1 dp)) as [Hlt|Hge]; [|by apply dir_names_app].
      pose proof (entries_lookup s1 dp k Hd1 ltac:(lia)) as Ee. by apply (dir_names_insert _ _ _ _ _ Ee); [apply Hfree|..].
    + apply (new_dent_run inum m s _ k Hm Hin). intros i Hi. change DIRENT_SIZE with 16 in *. rewrite (proj2 (Hbytes (16 * k + i) ltac:(lia))) by lia.
      cbn [src_byte]. unfold s1. cbn [Fs.kmem set_kmem]. f_equal. lia.
    + intros o Ho Hor. change DIRENT_SIZE with 16 in *. by apply Hbytes.
  - right. split; [lia|]. split; [|split; [done|by right]]. change (0 =? 16) with false in Hnd. cbv iota in Hnd. unfold entries. rewrite Hnd, Z.max_l by lia.
    apply list_fmap_ext. intros j x Ex. apply lookup_seqZ in Ex as [-> Hj]. unfold get_dent. change DIRENT_SIZE with 16.
    rewrite (ld_ext 2 _ (fbyte s1 (itable s1 dp))) by (intros x Hx; apply Hbytes; lia).
    by rewrite (cprefix_ext _ _ (fbyte s1 (itable s1 dp))) by (change (Z.of_nat (Z.to_nat DIRSIZ)) with 14; intros x Hx; apply Hbytes; lia).
Qed.

(** C17. dirlookup is the lookup of the map. For a directory whose entries all have
    their blocks, dirlookup finds a name exactly when the map of the directory
    has it, compared on the first DIRSIZ characters. It then returns a new
    reference to the slot of that inode, or panics when the inode table is full,
    with the offset of an entry that bears the name; the disk is not written, and
    only the caller's struct dirent changes in memory. *)
Theorem dirlookup_correct s : dir_ok s dp ->
  match dir_names (entries s dp) (the_name name s) with
  | None => exists m, only_de de s m /\ dirlookup de dp name s = Ret (NULL, 0) (set_kmem m s)
  | Some inum =>
      (exists j off s', dirlookup de dp name s = Ret (j, off) s' /\ 0 <= j < NINODE /\
        i_dev (itable s' j) = i_dev (itable s dp) /\ i_inum (itable s' j) = inum /\ i_ref (itable s' j) = i_ref (itable s j) + 1 /\
        (forall i, i <> j -> itable s' i = itable s i) /\ blocks s' = blocks s /\ only_de de s (kmem s') /\
        entries s dp !! Z.to_nat (off / DIRENT_SIZE) = Some (inum, the_name name s)) \/
      (dirlookup de dp name s = Panic "iget: no inodes" /\ forall j, 0 <= j < NINODE -> i_ref (itable s j) <> 0)
  end.
Proof.
  intros Hd. destruct (dirlookup_run de dp name de_bounds name_apart s Hd) as (m & Hm & E). unfold dir_names. rewrite E.
  destruct (list_find (named (the_name name s)) (entries s dp)) as [[k e]|] eqn:Ef; cbn [fmap option_fmap option_map]; [|by exists m].
  apply list_find_Some in Ef as (Ee & [He1 He2] & _).
  destruct (iget_run (i_dev (itable s dp)) (fst e) (set_kmem m s)) as [(j & f & Ei & Hj & Hf & Hr & Hdev & Hino)|[Ei Hall]].
  - left. exists j, (DIRENT_SIZE * Z.of_nat k), (on_inode j f (set_kmem m s)). rewrite (bind_step _ _ _ _ _ Ei). split; [done|]. split; [done|].
    assert (itable (on_inode j f (set_kmem m s)) j = f (itable s j)) as Ej by apply fupd_eq. rewrite Ej. split; [done|]. split; [done|]. split.
    + cbn in Hf, Hr. rewrite Hf. destruct (Z.ltb_spec 0 (i_ref (itable s j))); cbn; lia.
    + split; [intros i Hi; by apply fupd_ne|]. split; [done|]. split; [done|]. rewrite Z.mul_comm, Z.div_mul, Nat2Z.id by done. rewrite Ee. by destruct e as [v u]; cbn in *; subst.
  - right. split; [|done]. unfold bind. by rewrite Ei.
Qed.

Lemma dirlink_run inum s : dir_ok s dp -> 0 < inum < 2 ^ 16 -> 0 < i_ref (itable s dp) ->
  match dir_names (entries s dp) (the_name name s) with
  | Some _ =>
      (exists s', dirlink de dp name inum s = Ret (-1) s' /\ blocks s' = blocks s /\ dir_ok s' dp /\ entries s' dp = entries s dp) \/
      (dirlink de dp name inum s = Panic "iget: no inodes" /\ forall j, 0 <= j < NINODE -> i_ref (itable s j) <> 0)
  | None => exists r s', dirlink de dp name inum s = Ret r s' /\ dir_ok s' dp /\
      ((r = 0 /\ forall u, dir_names (entries s' dp) u = if decide (u = the_name name s) then Some inum else dir_names (entries s dp) u) \/
       (r = -1 /\ entries s' dp = entries s dp /\ Forall (fun e => ~ free_dent e) (entries s dp) /\ no_room s s'))
  end.
Proof.
  intros Hd Hin Href. destruct (dirlookup_run de dp name de_bounds name_apart s Hd) as (m & Hm & E). unfold dirlink.
  destruct (dir_names (entries s dp) (the_name name s)) as [v|] eqn:En.
  - unfold dir_names in En. destruct (list_find (named (the_name name s)) (entries s dp)) as [[k e]|]; [|done].
    assert (forall o, o = (i <- iget (i_dev (itable s dp)) (fst e) ;; iput i ;;; ret (-1)) (set_kmem m s) -> dirlink de dp name inum s = o) as Hl.
    { intros o ->. unfold dirlink. unfold bind at 1. rewrite E.
      destruct (iget_run (i_dev (itable s dp)) (fst e) (set_kmem m s)) as [(j & f & Ei & Hj & _)|[Ei _]]; [|unfold bind; by rewrite Ei].
      rewrite !(bind_step _ _ _ _ _ Ei). cbn [ret fst]. by rewrite (proj2 (Z.eqb_neq j NULL)) by (unfold NULL; lia). }
    destruct (iget_iput (i_dev (itable s dp)) (fst e) (set_kmem m s)) as [(s' & E' & Eb & Es & _ & Et)|[E' Hall]].
    + left. exists s'. split; [by apply Hl|]. split; [done|]. apply dir_same; [done|done|done|by apply Et].
    + right. split; [by apply Hl|done].
  - apply names_find in En. rewrite En in E. rewrite (bind_step _ _ _ _ _ E). cbn [fst]. change (NULL =? NULL) with true. cbn [negb].
    set (s1 := set_kmem m s). assert (dir_ok s1 dp) as Hd1 by by apply dir_ok_kmem. unfold inode_of. rewrite (bind_step (gets _) _ s1 (itable s1 dp) s1) by done.
    destruct (dir_size s1 dp Hd1) as (Hs & Hn & _). destruct (dirlink_slot_run de dp name de_bounds name_apart (dir_fuel (itable s1 dp)) 0 s1 Hd1) as (m' & k & Hm' & E' & Hk & Hfree & Hlast);
      [lia|unfold dir_fuel, ndents in *; lia|]. change (DIRENT_SIZE * 0) with 0 in E'. rewrite (bind_step _ _ _ _ _ E').
    destruct (write_dent s k m' inum Hd (only_de_trans de s m m' Hm Hm') Hin Hk En Hfree) as (r & s' & Ew & Hd' & Hcase).
    unfold bind at 1 2, modify at 1 2. cbn [Fs.kmem set_kmem].
    rewrite (bind_step _ _ _ _ _ Ew). destruct Hcase as [[-> Hnames]|(Hr & Hsame & Ek & Hroom)].
    + rewrite Z.eqb_refl. cbn [negb]. exists 0, s'. split; [done|]. split; [done|]. by left.
    + rewrite (proj2 (Z.eqb_neq r DIRENT_SIZE)) by done. cbn [negb]. exists (-1), s'. split; [done|]. split; [done|]. right. split; [done|]. split; [done|].
      split; [|exact Hroom]. apply Forall_lookup. intros i e Ee. apply (Hlast Ek i e ltac:(lia) Ee).
Qed.

(** C16. dirlink is insertion into the map. A name that the directory has is
    refused with -1 and nothing changes, on disk or in the directory; looking it
    up takes a slot of the inode table, and the kernel panics instead when every
    slot is in use. A new name
    is entered for the inode (result 0), and every other name keeps its meaning;
    or the result is -1, and this only without space: the directory has the same
    entries, none of them was free, and it cannot grow, being as large as a file
    can be or the disk having no free block left ([no_room]). In every case the
    directory stays well formed. *)
Theorem dirlink_correct inum s : dir_ok s dp -> 0 < inum < 2 ^ 16 -> 0 < i_ref (itable s dp) ->
  match dir_names (entries s dp) (the_name name s) with
  | Some _ =>
      (exists s', dirlink de dp name inum s = Ret (-1) s' /\ blocks s' = blocks s /\ dir_ok s' dp /\ entries s' dp = entries s dp) \/
      (dirlink de dp name inum s = Panic "iget: no inodes" /\ forall j, 0 <= j < NINODE -> i_ref (itable s j) <> 0)
  | None => exists r s', dirlink de dp name inum s = Ret r s' /\ dir_ok s' dp /\
      ((r = 0 /\ forall u, dir_names (entries s' dp) u = if decide (u = the_name name s) then Some inum else dir_names (entries s dp) u) \/
       (r = -1 /\ entries s' dp = entries s dp /\ Forall (fun e => ~ free_dent e) (entries s dp) /\ no_room s s'))
  end.
Proof. exact (dirlink_run inum s). Qed.
End directory.
End dirs.

(** An empty directory on the small disk of file FsBlocks, and a name in memory *)
Definition dir100 : inode := Inode 1 1 1 0 0 1 T_DIR 0 0 1 0 (fun _ => 0).
Definition fs_dir : fstate flat := set_kmem (store_list (fun _ => 0) 200 [99; 97; 116; 0]) (on_inode 0 (fun _ => dir100) fs100).

Lemma dir_ok100 : dir_ok fs_dir 0.
Proof.
  pose proof file_at100 as [Hi _ _ _ _]. assert (itable fs_dir 0 = dir100) as E by reflexivity.
  assert (forall bn, fblk fs_dir dir100 bn = 0) as E0 by (intros bn; unfold fblk; by destruct (bn <? NDIRECT)).
  split; [split|..]; rewrite ?E; try done.
  - split; [apply Hi|exact (ai_meta _ Hi)].
  - split; [by intros; left; rewrite E0|by left|intros; by rewrite E0 in *|intros; by rewrite E0 in *].
  - intros bn H0 H1. cbn in H1. unfold BSIZE in H1. lia.
Qed.

(** The new entry: what dirlink of "cat" gives *)
Lemma dir_cat : exists s', dirlink 0 0 200 5 fs_dir = Ret 0 s' /\ dir_ok s' 0 /\ dir_names (entries s' 0) [99; 97; 116] = Some 5.
Proof.
  destruct (dirlink_run 0 0 200 ltac:(vm_compute; split; congruence) ltac:(right; vm_compute; congruence) 5 fs_dir dir_ok100 ltac:(lia) ltac:(vm_compute; congruence)) as (r & s' & E & Hd & H).
  assert (match dirlink 0 0 200 5 fs_dir with Ret r _ => r = 0 | _ => False end) as Hr by (vm_compute; reflexivity).
  rewrite E in Hr. subst r. exists s'. split; [done|]. split; [done|]. destruct H as [[_ H]|[H _]]; [|discriminate H]. exact (H [99; 97; 116]).
Qed.

Lemma dirlink_correct_witness : exists s', dirlink 0 0 200 5 fs_dir = Ret 0 s' /\ dir_names (entries s' 0) [99; 97; 116] = Some 5 /\ dir_names (entries s' 0) [108; 115] = None.
Proof.
  destruct (dirlink_correct 0 0 200 ltac:(vm_compute; split; congruence) ltac:(right; vm_compute; congruence) 5 fs_dir dir_ok100 ltac:(lia) ltac:(vm_compute; congruence)) as (r & s' & E & Hd & H).
  assert (match dirlink 0 0 200 5 fs_dir with Ret r _ => r = 0 | _ => False end) as Hr by (vm_compute; reflexivity).
  rewrite E in Hr. subst r. exists s'. split; [exact E|]. destruct H as [[_ H]|[H _]]; [|discriminate H]. split; [exact (H [99; 97; 116])|exact (H [108; 115])].
Defined.

Lemma dirlookup_correct_witness : exists s', dirlink 0 0 200 5 fs_dir = Ret 0 s' /\
  exists j s'', dirlookup 0 0 200 s' = Ret (j, 0) s'' /\ i_inum (itable s'' j) = 5.
Proof.
  destruct dir_cat as (s' & E & Hd & Hn). exists s'. split; [exact E|].
  assert (match dirlink 0 0 200 5 fs_dir with Ret _ s => the_name 200 s = [99; 97; 116] /\
    match dirlookup 0 0 200 s with Ret (j, off) _ => off = 0 | _ => False end | _ => False end) as Hr by (vm_compute; split; reflexivity).
  rewrite E in Hr. destruct Hr as [Ht Hr].
  pose proof (dirlookup_correct 0 0 200 ltac:(vm_compute; split; congruence) ltac:(right; vm_compute; congruence) s' Hd) as H. rewrite Ht, Hn in H.
  destruct H as [(j & off & s'' & E' & _ & _ & Hi & _)|[E' _]]; rewrite E' in Hr; [|contradiction]. subst off. exists j, s''. split; [exact E'|exact Hi].
Defined.
