(* ===== verification/Vm.v ===== *)
(** * kernel/vm.c: page tables

    Page tables live in the pages of the allocator (file Kalloc), so every
    operation works on physical memory and the free list. A pointer to a PTE
    is its physical address, 0 the null pointer. The current process enters
    through its size and page table ([p_sz], [p_pagetable]); kernel buffers
    that copyin and copyout move bytes to and from are separate byte arrays. *)
From stdpp Require Import base list numbers strings relations.
From Stdlib Require Import ZArith Lia FunctionalExtensionality.
From S2P Require Import Prelude Memlayout Kalloc.

Section vm.
Context `{KernelEnd}.
Abbreviation K := (M kmem).

Definition load64 (a : Z) : K Z := gets (fun k => ld64 (mem k) a).
Definition store64 (a v : Z) : K unit := modify (fun k => set_mem (st64 (mem k) a v) k).
(** memset(page, 0, PGSIZE) *)
Definition zero_page (pa : Z) : K unit := modify (fun k => set_mem (fill (mem k) pa 0 PGSIZE) k).
(** pte & flag *)
Definition has (pte flag : Z) : bool := negb (Z.land pte flag =? 0).

(** The loop of walk with [level] levels to go. *)
Fixpoint walk_from (level : nat) (pagetable va : Z) (alloc : bool) : K Z :=
  match level with
  | O => ret (pagetable + 8 * PX 0 va)
  | S l =>
      let pte := pagetable + 8 * PX (Z.of_nat level) va in
      v <- load64 pte ;;
      if has v PTE_V then walk_from l (PTE2PA v) va alloc
      else if negb alloc then ret 0
      else
        page <- kalloc ;;
        if page =? 0 then ret 0
        else
          zero_page page ;;;
          store64 pte (Z.lor (PA2PTE page) PTE_V) ;;;
          walk_from l page va alloc
  end.

Definition walk (pagetable va : Z) (alloc : bool) : K Z :=
  if MAXVA <=? va then panic "walk" else walk_from 2 pagetable va alloc.

Definition walkaddr (pagetable va : Z) : K Z :=
  if MAXVA <=? va then ret 0
  else
    pte <- walk pagetable va false ;;
    if pte =? 0 then ret 0
    else
      v <- load64 pte ;;
      if negb (has v PTE_V) then ret 0
      else if negb (has v PTE_U) then ret 0
      else ret (PTE2PA v).

(** for(;;) over the pages a .. last *)
Definition mappages_body (pagetable last perm : Z) : Z * Z -> K ((Z * Z) + Z) := fun '(a, pa) =>
  pte <- walk pagetable a true ;;
  if pte =? 0 then ret (inr (-1))
  else
    v <- load64 pte ;;
    if has v PTE_V then panic "mappages: remap"
    else
      store64 pte (Z.lor (Z.lor (PA2PTE pa) perm) PTE_V) ;;;
      if a =? last then ret (inr 0) else ret (inl (u64 (a + PGSIZE), u64 (pa + PGSIZE))).

Definition mappages (pagetable va size pa perm : Z) : K Z :=
  if negb (va mod PGSIZE =? 0) then panic "mappages: va not aligned"
  else if negb (size mod PGSIZE =? 0) then panic "mappages: size not aligned"
  else if size =? 0 then panic "mappages: size"
  else loop (Z.to_nat (size / PGSIZE)) (mappages_body pagetable (u64 (va + size - PGSIZE)) perm) (va, pa).

Definition kvmmap (kpgtbl va pa sz perm : Z) : K unit :=
  r <- mappages kpgtbl va sz pa perm ;;
  if negb (r =? 0) then panic "kvmmap" else ret tt.

Definition uvmcreate : K Z :=
  pagetable <- kalloc ;;
  if pagetable =? 0 then ret 0 else zero_page pagetable ;;; ret pagetable.

Definition uvmunmap_body (pagetable stop : Z) (do_free : bool) : Z -> K (Z + unit) := fun a =>
  if a <? stop then
    pte <- walk pagetable a false ;;
    if pte =? 0 then ret (inl (u64 (a + PGSIZE)))
    else
      v <- load64 pte ;;
      if negb (has v PTE_V) then ret (inl (u64 (a + PGSIZE)))
      else
        when do_free (kfree (PTE2PA v)) ;;;
        store64 pte 0 ;;;
        ret (inl (u64 (a + PGSIZE)))
  else ret (inr tt).

Definition uvmunmap (pagetable va npages : Z) (do_free : bool) : K unit :=
  if negb (va mod PGSIZE =? 0) then panic "uvmunmap: not aligned"
  else loop (Z.to_nat npages + 1) (uvmunmap_body pagetable (u64 (va + npages * PGSIZE)) do_free) va.

Definition uvmdealloc (pagetable oldsz newsz : Z) : K Z :=
  if oldsz <=? newsz then ret oldsz
  else
    when (PGROUNDUP newsz <? PGROUNDUP oldsz)
      (let npages := i32 ((PGROUNDUP oldsz - PGROUNDUP newsz) / PGSIZE) in
       uvmunmap pagetable (PGROUNDUP newsz) (u64 npages) true) ;;;
    ret newsz.

Definition uvmalloc_body (pagetable oldsz newsz xperm : Z) : Z -> K (Z + Z) := fun a =>
  if a <? newsz then
    page <- kalloc ;;
    if page =? 0 then uvmdealloc pagetable a oldsz ;;; ret (inr 0)
    else
      zero_page page ;;;
      r <- mappages pagetable a PGSIZE page (Z.lor (Z.lor PTE_R PTE_U) xperm) ;;
      if negb (r =? 0) then kfree page ;;; uvmdealloc pagetable a oldsz ;;; ret (inr 0)
      else ret (inl (u64 (a + PGSIZE)))
  else ret (inr newsz).

Definition uvmalloc (pagetable oldsz newsz xperm : Z) : K Z :=
  if newsz <? oldsz then ret oldsz
  else
    let oldsz := PGROUNDUP oldsz in
    loop (Z.to_nat ((newsz - oldsz) / PGSIZE + 2)) (uvmalloc_body pagetable oldsz newsz xperm) oldsz.

(** The recursion follows the levels of the tree, three for a page table. *)
Fixpoint freewalk (levels : nat) (pagetable : Z) : K unit :=
  match levels with
  | O => fun _ => Diverge
  | S l =>
      for_loop 512 0 (fun i =>
        pte <- load64 (pagetable + 8 * i) ;;
        if has pte PTE_V && (Z.land pte (Z.lor (Z.lor PTE_R PTE_W) PTE_X) =? 0) then
          freewalk l (PTE2PA pte) ;;;
          store64 (pagetable + 8 * i) 0
        else if has pte PTE_V then panic "freewalk: leaf"
        else ret tt) ;;;
      kfree pagetable
  end.

Definition uvmfree (pagetable sz : Z) : K unit :=
  when (0 <? sz) (uvmunmap pagetable 0 (PGROUNDUP sz / PGSIZE) true) ;;;
  freewalk 3 pagetable.

(** goto err: *)
Definition uvmcopy_err (new i : Z) : K (Z + Z) :=
  uvmunmap new 0 (i / PGSIZE) true ;;; ret (inr (-1)).

Definition uvmcopy_body (old new sz : Z) : Z -> K (Z + Z) := fun i =>
  if i <? sz then
    pte <- walk old i false ;;
    if pte =? 0 then ret (inl (u64 (i + PGSIZE)))
    else
      v <- load64 pte ;;
      if negb (has v PTE_V) then ret (inl (u64 (i + PGSIZE)))
      else
        let pa := PTE2PA v in
        let flags := PTE_FLAGS v in
        page <- kalloc ;;
        if page =? 0 then uvmcopy_err new i
        else
          modify (fun k => set_mem (blit (mem k) page (mem k) pa PGSIZE) k) ;;;
          r <- mappages new i PGSIZE page flags ;;
          if negb (r =? 0) then kfree page ;;; uvmcopy_err new i
          else ret (inl (u64 (i + PGSIZE)))
  else ret (inr 0).

Definition uvmcopy (old new sz : Z) : K Z :=
  loop (Z.to_nat (sz / PGSIZE + 2)) (uvmcopy_body old new sz) 0.

Definition uvmclear (pagetable va : Z) : K unit :=
  pte <- walk pagetable va false ;;
  if pte =? 0 then panic "uvmclear"
  else v <- load64 pte ;; store64 pte (Z.land v (Z.lnot PTE_U)).

Definition ismapped (pagetable va : Z) : K bool :=
  pte <- walk pagetable va false ;;
  if pte =? 0 then ret false
  else v <- load64 pte ;; ret (has v PTE_V).

(** Fields of myproc(). *)
Context (p_sz p_pagetable : Z).

Definition vmfault (pagetable va : Z) : K Z :=
  if p_sz <=? va then ret 0
  else
    let va := PGROUNDDOWN va in
    mapped <- ismapped pagetable va ;;
    if (mapped : bool) then ret 0
    else
      page <- kalloc ;;
      if page =? 0 then ret 0
      else
        zero_page page ;;;
        r <- mappages p_pagetable va PGSIZE page (Z.lor (Z.lor PTE_W PTE_U) PTE_R) ;;
        if negb (r =? 0) then kfree page ;;; ret 0 else ret page.

(** pa0 = walkaddr(...); if (pa0 == 0) pa0 = vmfault(...); *)
Definition user_page (pagetable va0 : Z) : K Z :=
  pa0 <- walkaddr pagetable va0 ;;
  if pa0 =? 0 then vmfault pagetable va0 else ret pa0.

Definition copyout_body (pagetable : Z) (src : bytes) :
    Z * Z * Z -> K ((Z * Z * Z) + Z) := fun '(dstva, s, len) =>
  if 0 <? len then
    let va0 := PGROUNDDOWN dstva in
    if MAXVA <=? va0 then ret (inr (-1))
    else
      pa0 <- user_page pagetable va0 ;;
      if pa0 =? 0 then ret (inr (-1))
      else
        pte <- walk pagetable va0 false ;;
        v <- load64 pte ;;
        if negb (has v PTE_W) then ret (inr (-1))
        else
          let n := Z.min (PGSIZE - (dstva - va0)) len in
          modify (fun k => set_mem (blit (mem k) (pa0 + (dstva - va0)) src s n) k) ;;;
          ret (inl (u64 (va0 + PGSIZE), s + n, len - n))
  else ret (inr 0).

Definition copyout (pagetable dstva : Z) (src : bytes) (s len : Z) : K Z :=
  loop (Z.to_nat (len / PGSIZE + 3)) (copyout_body pagetable src) (dstva, s, len).

Definition copyin_body (pagetable : Z) :
    bytes * Z * Z * Z -> K ((bytes * Z * Z * Z) + (bytes * Z)) := fun '(dst, d, srcva, len) =>
  if 0 <? len then
    let va0 := PGROUNDDOWN srcva in
    pa0 <- user_page pagetable va0 ;;
    if pa0 =? 0 then ret (inr (dst, -1))
    else
      let n := Z.min (PGSIZE - (srcva - va0)) len in
      m <- gets mem ;;
      ret (inl (blit dst d m (pa0 + (srcva - va0)) n, d + n, u64 (va0 + PGSIZE), len - n))
  else ret (inr (dst, 0)).

(** The destination buffer is returned with the result. *)
Definition copyin (pagetable : Z) (dst : bytes) (d srcva len : Z) : K (bytes * Z) :=
  loop (Z.to_nat (len / PGSIZE + 3)) (copyin_body pagetable) (dst, d, srcva, len).

(** The inner loop of copyinstr over the [n] bytes at [p]: the buffer, the
    number of bytes copied before the loop ended, and got_null. *)
Fixpoint copy_str (n : nat) (m : bytes) (p : Z) (dst : bytes) (d : Z) : bytes * Z * bool :=
  match n with
  | O => (dst, 0, false)
  | S n' =>
      if m p =? 0 then (fupd dst d 0, 0, true)
      else
        let '(dst, c, got) := copy_str n' m (p + 1) (fupd dst d (m p)) (d + 1) in
        (dst, c + 1, got)
  end.

Definition copyinstr_body (pagetable : Z) :
    bytes * Z * Z * Z -> K ((bytes * Z * Z * Z) + (bytes * Z)) := fun '(dst, d, srcva, max) =>
  if 0 <? max then
    let va0 := PGROUNDDOWN srcva in
    pa0 <- walkaddr pagetable va0 ;;
    if pa0 =? 0 then ret (inr (dst, -1))
    else
      let n := Z.min (PGSIZE - (srcva - va0)) max in
      m <- gets mem ;;
      let '(dst, c, got_null) := copy_str (Z.to_nat n) m (pa0 + (srcva - va0)) dst d in
      if (got_null : bool) then ret (inr (dst, 0))
      else ret (inl (dst, d + c, u64 (va0 + PGSIZE), max - c))
  else ret (inr (dst, -1)).

Definition copyinstr (pagetable : Z) (dst : bytes) (d srcva max : Z) : K (bytes * Z) :=
  loop (Z.to_nat (max / PGSIZE + 3)) (copyinstr_body pagetable) (dst, d, srcva, max).
End vm.

(** ** The kernel's own page table *)
Section kvm.
Context `{KernelEnd}.

(** proc.c: one stack per process, above a guard page. *)
Definition proc_mapstacks (kpgtbl : Z) : M kmem unit :=
  for_loop (Z.to_nat NPROC) 0 (fun i =>
    pa <- kalloc ;;
    if pa =? 0 then panic "kalloc"
    else kvmmap kpgtbl (KSTACK i) pa PGSIZE (Z.lor PTE_R PTE_W)).

(** etext and trampoline are set by the linker script. *)
Definition kvmmake (etext trampoline : Z) : M kmem Z :=
  kpgtbl <- kalloc ;;
  zero_page kpgtbl ;;;
  kvmmap kpgtbl QEMU_POWER QEMU_POWER PGSIZE (Z.lor PTE_R PTE_W) ;;;
  kvmmap kpgtbl UART0 UART0 PGSIZE (Z.lor PTE_R PTE_W) ;;;
  kvmmap kpgtbl VIRTIO0 VIRTIO0 PGSIZE (Z.lor PTE_R PTE_W) ;;;
  kvmmap kpgtbl PLIC PLIC 0x4000000 (Z.lor PTE_R PTE_W) ;;;
  kvmmap kpgtbl KERNBASE KERNBASE (etext - KERNBASE) (Z.lor PTE_R PTE_X) ;;;
  kvmmap kpgtbl etext etext (PHYSTOP - etext) (Z.lor PTE_R PTE_W) ;;;
  kvmmap kpgtbl TRAMPOLINE trampoline PGSIZE (Z.lor PTE_R PTE_X) ;;;
  proc_mapstacks kpgtbl ;;;
  ret kpgtbl.
End kvm.
