(* ===== verification/VmTables.v ===== *)
(** * Page tables as maps: the theory of walk and mappages

    A page table is a tree of pages in physical memory; [node m root p] is
    the page reached from [root] along the indices [p], and [pte_of] the leaf
    entry of a virtual address, 0 where a table is missing. [pt_wf] says that
    the tables are distinct allocated pages; under it walk may add tables but
    never changes a leaf entry, and mappages changes exactly the entries of
    its range. *)
From stdpp Require Import base list numbers strings relations.
From Stdlib Require Import ZArith Lia FunctionalExtensionality.
From S2P Require Import Prelude Memlayout Kalloc Vm.

Definition idx_ok (i : Z) : Prop := 0 <= i < 512.
Definition in_page (p x : Z) : Prop := p <= x < p + PGSIZE.
#[global] Instance in_page_dec p x : Decision (in_page p x).
Proof. unfold in_page. apply _. Defined.
(** A path to a table: at most two indices. *)
Definition tpath (p : list Z) : Prop := (length p <= 2)%nat /\ Forall idx_ok p.

Fixpoint node (m : bytes) (root : Z) (p : list Z) : option Z :=
  match p with
  | [] => Some root
  | i :: p' =>
      let v := ld64 m (root + 8 * i) in
      if has v PTE_V then node m (PTE2PA v) p' else None
  end.

(** Indices of [va] below the level [l], the leaf index excluded. *)
Fixpoint vidx (l : nat) (va : Z) : list Z :=
  match l with
  | O => []
  | S l' => PX (Z.of_nat l) va :: vidx l' va
  end.

Definition table_of (m : bytes) (root va : Z) : option Z := node m root (vidx 2 va).
Definition pte_of (m : bytes) (root va : Z) : Z :=
  match table_of m root va with Some t => ld64 m (t + 8 * PX 0 va) | None => 0 end.

Section tables.
Context `{KernelEnd}.
Implicit Types m : bytes.

Record pt_wf (m : bytes) (root : Z) (l : list Z) : Prop := {
  pw_page p x : tpath p -> node m root p = Some x -> page_ok x /\ x ∉ l;
  pw_inj p q x : tpath p -> tpath q -> node m root p = Some x -> node m root q = Some x -> p = q;
  pw_inner p i t : tpath (p ++ [i]) -> node m root p = Some t -> has (ld64 m (t + 8 * i)) PTE_V = true ->
    Z.land (ld64 m (t + 8 * i)) (Z.lor (Z.lor PTE_R PTE_W) PTE_X) = 0;
  pw_low i t : idx_ok i -> node m root [i] = Some t -> i < 256;
}.

Lemma node_app m p : forall root q,
  node m root (p ++ q) = match node m root p with Some t => node m t q | None => None end.
Proof. induction p as [|i p IH]; intros root q; [done|]. cbn. case_match; [apply IH|done]. Qed.

Lemma node_snoc m root p i :
  node m root (p ++ [i]) = match node m root p with
    | Some t => if has (ld64 m (t + 8 * i)) PTE_V then Some (PTE2PA (ld64 m (t + 8 * i))) else None
    | None => None
    end.
Proof. rewrite node_app. done. Qed.

Lemma tpath_app p q : tpath (p ++ q) -> tpath p.
Proof.
  unfold tpath. rewrite length_app, Forall_app. intros [? []]. split; [lia|done].
Qed.

Lemma tpath_app_r p q : tpath (p ++ q) -> tpath q.
Proof. unfold tpath. rewrite length_app, Forall_app. intros [? []]. split; [lia|done]. Qed.

Lemma tpath_nil : tpath [].
Proof. split; [cbn; lia|constructor]. Qed.

Lemma vidx_path l va : (l <= 2)%nat -> tpath (vidx l va).
Proof.
  intros Hl. split.
  - assert (length (vidx l va) = l) as ->; [|done]. clear Hl. induction l; cbn; [done|by f_equal].
  - clear Hl. induction l; constructor; [apply PX_range; lia|done].
Qed.

(** Word accesses at an index of a table stay inside it. *)
Lemma slot_in t i x : page_ok t -> idx_ok i -> t + 8 * i <= x < t + 8 * i + 8 -> in_page t x.
Proof. unfold idx_ok, in_page, PGSIZE. lia. Qed.

Lemma page_apart t u x : page_ok t -> page_ok u -> t <> u -> in_page t x -> x < u \/ u + PGSIZE <= x.
Proof. intros [Ha _] [Hb _]. by apply page_disjoint. Qed.

Lemma slot_apart t u i j v m : page_ok t -> page_ok u -> t <> u -> idx_ok i -> idx_ok j ->
  ld64 (st64 m (t + 8 * i) v) (u + 8 * j) = ld64 m (u + 8 * j).
Proof.
  intros Ht Hu Hne Hi Hj. apply ld_st_other. unfold idx_ok in *.
  destruct Ht as [Ht _], Hu as [Hu _]. unfold PGSIZE in *. dlia.
Qed.

Lemma node_frame m m' root n :
  (forall p t x, (length p < n)%nat -> Forall idx_ok p -> node m root p = Some t ->
     page_ok t /\ (in_page t x -> m' x = m x)) ->
  forall p, (length p <= n)%nat -> Forall idx_ok p -> node m' root p = node m root p.
Proof.
  intros Hf p. induction p as [|i p IH] using rev_ind; intros Hl Hp; [done|].
  rewrite length_app in Hl. cbn in Hl. apply Forall_app in Hp as [Hp Hi].
  rewrite Forall_singleton in Hi. rewrite !node_snoc. rewrite IH; [|lia|exact Hp].
  destruct (node m root p) as [t|] eqn:E; [|done].
  assert (ld64 m' (t + 8 * i) = ld64 m (t + 8 * i)) as ->; [|done].
  apply ld_ext. intros x Hx. destruct (Hf p t x ltac:(lia) Hp E) as [Hpg Hs].
  apply Hs, (slot_in t i x Hpg Hi). lia.
Qed.

(** *** A change outside the tables *)
Lemma pt_wf_frame m m' root l : pt_wf m root l ->
  (forall p t x, tpath p -> node m root p = Some t -> in_page t x -> m' x = m x) ->
  (forall p, (length p <= 3)%nat -> Forall idx_ok p -> node m' root p = node m root p) /\
  (forall va, pte_of m' root va = pte_of m root va) /\ pt_wf m' root l.
Proof.
  intros [W1 W2 W3 W4] Hf.
  assert (forall p, (length p <= 3)%nat -> Forall idx_ok p -> node m' root p = node m root p) as Hn.
  { intros p Hl Hp. apply (node_frame _ _ _ 3); [|lia|done]. intros q t x Hq Hi E.
    assert (tpath q) by (split; [lia|done]). split; [by apply (W1 q)|by apply (Hf q)]. }
  split; [done|]. split.
  - intros va. destruct (vidx_path 2 va ltac:(lia)) as [P1 P2].
    unfold pte_of, table_of. rewrite Hn by (done || lia).
    destruct (node m root (vidx 2 va)) as [t|] eqn:E; [|done]. apply ld_ext. intros x Hx.
    assert (tpath (vidx 2 va)) as Hp by (by apply vidx_path).
    apply (Hf (vidx 2 va) t x Hp E). apply (slot_in t (PX 0 va)); [by apply (W1 _ _ Hp E)|by apply PX_range|lia].
  - split; intros *; [intros [Hp1 Hp2]..|].
    + rewrite Hn by (done || lia). intros E. by apply (W1 p).
    + intros [Hq1 Hq2]. rewrite !Hn by (done || lia). by apply W2.
    + rewrite Forall_app in Hp2. destruct Hp2 as [Hp2 Hi]. rewrite Forall_singleton in Hi. rewrite length_app in Hp1. cbn in Hp1.
      rewrite Hn by (done || lia). intros E.
      assert (tpath p) as Hp by (split; [lia|done]).
      rewrite (ld_ext 8 m' m (t + 8 * i)).
      2: { intros x Hx. apply (Hf p t x Hp E). apply (slot_in t i); [by apply (W1 p)|done|lia]. }
      apply (W3 p); [|done]. split; [rewrite length_app; cbn; lia|]. apply Forall_app. by rewrite Forall_singleton.
    + intros Hi. rewrite Hn; [by apply W4|cbn; lia|by apply Forall_singleton].
Qed.

Lemma pt_wf_sub m root l l' : pt_wf m root l -> (forall x, x ∈ l' -> x ∈ l) -> pt_wf m root l'.
Proof.
  intros [W1 W2 W3 W4] Hs. split; [|done..]. intros p x Hp E. destruct (W1 p x Hp E). split; [done|]. auto.
Qed.

(** *** A page of zeroes is an empty page table. *)
Lemma zero_slot m t i : (forall x, in_page t x -> m x = 0) -> idx_ok i -> ld64 m (t + 8 * i) = 0.
Proof.
  intros Hz Hi. rewrite (ld_ext 8 m (fill m t 0 PGSIZE)), ld_fill_zero; try done; unfold idx_ok, PGSIZE in *; try lia.
  intros y Hy. rewrite Hz, fill_in; [done| |]; unfold in_page, PGSIZE; lia.
Qed.
Lemma empty_root m root l : page_ok root -> root ∉ l -> (forall x, in_page root x -> m x = 0) -> pt_wf m root l.
Proof.
  intros Hr Hl Hz.
  assert (forall p x, tpath p -> node m root p = Some x -> p = [] /\ x = root) as Hn.
  { intros [|i p] x [_ Hp] E; [by injection E as <-|]. apply Forall_cons in Hp as [Hi _]. cbn in E. by rewrite zero_slot in E. }
  split.
  - intros p x Hp E. by destruct (Hn p x Hp E) as [_ ->].
  - intros p q x Hp Hq E1 E2. by destruct (Hn p x Hp E1) as [-> _], (Hn q x Hq E2) as [-> _].
  - intros p i t Hp E Hv. destruct (Hn p t (tpath_app _ _ Hp) E) as [-> ->]. rewrite zero_slot in Hv; [done|done|].
    destruct Hp as [_ Hp]. cbn in Hp. by inversion Hp.
  - intros i t Hi E. destruct (Hn [i] t) as [? _]; [|done|done]. split; [cbn; lia|by apply Forall_singleton].
Qed.
Lemma empty_root_pte m root va : (forall x, in_page root x -> m x = 0) -> pte_of m root va = 0.
Proof.
  intros Hz. unfold pte_of, table_of. cbn [vidx node]. rewrite zero_slot; [done|done|]. apply PX_range. lia.
Qed.

(** *** A fresh table linked into a free slot *)
Section link.
Context (m : bytes) (root : Z) (l : list Z) (Hw : pt_wf m root l).
Context (p : list Z) (i t x : Z) (Hp : tpath (p ++ [i])) (Et : node m root p = Some t)
  (Hv : has (ld64 m (t + 8 * i)) PTE_V = false) (Hx : page_ok x) (Hxl : x ∉ l)
  (Hfresh : forall q, tpath q -> node m root q <> Some x)
  (Hzero : forall j, idx_ok j -> ld64 m (x + 8 * j) = 0).

Let m' := st64 m (t + 8 * i) (Z.lor (PA2PTE x) PTE_V).

Lemma link_pre : tpath p /\ idx_ok i /\ page_ok t /\ t <> x.
Proof.
  assert (tpath p) as Hp' by by apply tpath_app in Hp.
  split; [done|]. split; [by apply tpath_app_r in Hp as [_ Hi]; rewrite Forall_singleton in Hi|].
  split; [by apply (pw_page _ _ _ Hw p t)|]. intros ->. by apply (Hfresh p).
Qed.

Lemma link_range : 0 <= Z.lor (PA2PTE x) PTE_V < 2 ^ 64.
Proof.
  pose proof (page_ok_range x Hx) as Hr. unfold PGSIZE in *. rewrite PA2PTE_div by lia.
  rewrite (lor_disjoint_add _ _ 10) by (try apply Z.mod_mul; vm_compute; try split; congruence).
  change PTE_V with 1. change (2 ^ 64) with 18446744073709551616. dlia.
Qed.

Lemma link_entry : has (ld64 m' (t + 8 * i)) PTE_V = true /\ PTE2PA (ld64 m' (t + 8 * i)) = x.
Proof.
  pose proof (page_ok_range x Hx) as Hr. pose proof link_range as Hb. destruct Hx as [Ha Hxr]. unfold PGSIZE in *.
  unfold m'. rewrite ld_st_same. change (256 ^ Z.of_nat 8) with (2 ^ 64). rewrite Z.mod_small by done.
  split.
  - unfold has. change PTE_V with (Z.shiftl 1 0). rewrite land_shiftl1 by lia.
    rewrite PTE_flag_bits; [done|lia|vm_compute; split; congruence|lia].
  - apply PTE2PA_PA2PTE; [lia|done|vm_compute; split; congruence].
Qed.

Lemma link_perm : Z.land (ld64 m' (t + 8 * i)) (Z.lor (Z.lor PTE_R PTE_W) PTE_X) = 0.
Proof.
  pose proof (page_ok_range x Hx) as Hr. assert (0 <= Z.lor (PA2PTE x) PTE_V < 2 ^ 64) as Hb by apply link_range.
  unfold m'. rewrite ld_st_same. change (256 ^ Z.of_nat 8) with (2 ^ 64). rewrite Z.mod_small by done.
  rewrite Z.land_lor_distr_l. change (Z.lor (Z.lor PTE_R PTE_W) PTE_X) with 14. change (Z.land PTE_V 14) with 0.
  rewrite Z.lor_0_r. unfold PGSIZE in *. rewrite PA2PTE_div by lia. apply Z.bits_inj'. intros n Hn.
  rewrite Z.land_spec, Z.bits_0. destruct (decide (n < 10)) as [Hlt|Hge].
  - change 1024 with (2 ^ 10). by rewrite Z.mul_pow2_bits_low.
  - rewrite (Z.bits_above_log2 14 n) by (cbn; lia). by rewrite andb_false_r.
Qed.

Lemma link_other q : (length q <= 3)%nat -> Forall idx_ok q -> ~ (p ++ [i]) `prefix_of` q ->
  node m' root q = node m root q.
Proof.
  destruct link_pre as (Hp' & Hi & Ht & Htx).
  induction q as [|j q IH] using rev_ind; intros Hl Hq Hn; [done|].
  rewrite length_app in Hl. cbn in Hl. apply Forall_app in Hq as [Hq Hj]. rewrite Forall_singleton in Hj.
  rewrite !node_snoc, IH; [|lia|done|].
  2: { intros [r E]. apply Hn. rewrite E. exists (r ++ [j]). by rewrite app_assoc. }
  destruct (node m root q) as [u|] eqn:E; [|done].
  assert (tpath q) as Hq2 by (split; [lia|done]). destruct (pw_page _ _ _ Hw q u Hq2 E) as [Hu _].
  assert (ld64 m' (u + 8 * j) = ld64 m (u + 8 * j)) as ->; [|done].
  destruct (decide (t = u)) as [<-|Hne].
  - assert (q = p) as -> by by eapply (pw_inj _ _ _ Hw).
    apply ld_st_other. assert (i <> j) by (intros ->; by apply Hn). lia.
  - by apply slot_apart.
Qed.

Lemma link_new : node m' root (p ++ [i]) = Some x.
Proof.
  destruct link_pre as ([Hp1 Hp2] & Hi & Ht & Htx). destruct link_entry as [E1 E2].
  rewrite node_snoc, link_other by (try done; try lia; intros [r E]; apply (f_equal length) in E;
    rewrite !length_app in E; cbn in E; lia).
  by rewrite Et, E1, E2.
Qed.

Lemma link_below j r : idx_ok j -> node m' root (p ++ [i] ++ j :: r) = None.
Proof.
  intros Hj. destruct link_pre as (_ & Hi & Ht & Htx).
  rewrite app_assoc, node_app, link_new. cbn. unfold m'. rewrite slot_apart by done. by rewrite Hzero.
Qed.

Lemma link_old_none r : node m root (p ++ [i] ++ r) = None.
Proof. rewrite app_assoc, node_app, node_snoc, Et, Hv. done. Qed.

Lemma link_nodes q y : tpath q -> node m' root q = Some y -> (q = p ++ [i] /\ y = x) \/ node m root q = Some y.
Proof.
  intros [Hq1 Hq2] E.
  destruct (decide ((p ++ [i]) `prefix_of` q)) as [[r ->]|Hn].
  - destruct r as [|j r]; [rewrite app_nil_r, link_new in E; simplify_eq; left; by rewrite app_nil_r|].
    rewrite <- app_assoc, link_below in E; [done|].
    rewrite !Forall_app in Hq2. destruct Hq2 as [_ Hq2]. by inversion Hq2.
  - right. by rewrite link_other in E by (done || lia).
Qed.

Lemma link_mono q y : tpath q -> node m root q = Some y -> node m' root q = Some y.
Proof.
  intros [Hq1 Hq2] E. rewrite link_other; [done|lia|done|]. intros [r ->].
  by rewrite <- app_assoc, link_old_none in E.
Qed.

Lemma link_pte va : pte_of m' root va = pte_of m root va.
Proof.
  destruct link_pre as (Hp' & Hi & Ht & Htx).
  assert (tpath (vidx 2 va)) as Hq by (by apply vidx_path). pose proof Hq as [Hq1 Hq2].
  assert (idx_ok (PX 0 va)) as H0 by (by apply PX_range).
  unfold pte_of, table_of.
  destruct (node m' root (vidx 2 va)) as [u|] eqn:E.
  - destruct (link_nodes _ _ Hq E) as [[Ep ->]|Eo].
    + rewrite Ep. pose proof (link_old_none []) as En. rewrite app_nil_r in En. rewrite En.
      unfold m'. rewrite slot_apart by done. by apply Hzero.
    + rewrite Eo. destruct (pw_page _ _ _ Hw _ _ Hq Eo) as [Hu _]. apply slot_apart; try done.
      intros ->. assert (p = vidx 2 va) as -> by by eapply (pw_inj _ _ _ Hw).
      destruct Hp as [Hl _]. rewrite length_app in Hl. cbn in Hl. lia.
  - destruct (node m root (vidx 2 va)) as [u|] eqn:Eo; [|done].
    by rewrite (link_mono _ _ Hq Eo) in E.
Qed.

Lemma link_wf : (p = [] -> i < 256) -> pt_wf m' root l.
Proof.
  intros Hlow. split.
  - intros q y Hq E. destruct (link_nodes q y Hq E) as [[-> ->]|Eo]; [done|by apply (pw_page _ _ _ Hw q)].
  - intros q r y Hq Hr E1 E2.
    destruct (link_nodes q y Hq E1) as [[-> ->]|Eo1], (link_nodes r _ Hr E2) as [[-> Ey]|Eo2]; try done.
    + by apply Hfresh in Eo2.
    + subst. by apply Hfresh in Eo1.
    + by eapply (pw_inj _ _ _ Hw).
  - intros q j u Hq E Hj. destruct link_pre as (Hp' & Hi & Ht & Htx). pose proof (tpath_app _ _ Hq) as Hq'.
    assert (idx_ok j) as Hjo by (by apply tpath_app_r in Hq as [_ Hi']; rewrite Forall_singleton in Hi').
    destruct (link_nodes q u Hq' E) as [[-> ->]|Eo].
    + exfalso. unfold m' in Hj. by rewrite slot_apart, Hzero in Hj.
    + destruct (pw_page _ _ _ Hw q u Hq' Eo) as [Hu _]. destruct (decide (t = u)) as [<-|Hne].
      * assert (q = p) as -> by by eapply (pw_inj _ _ _ Hw). destruct (decide (i = j)) as [<-|Hij].
        -- apply link_perm.
        -- unfold m' in *. rewrite ld_st_other in Hj |- * by lia. by apply (pw_inner _ _ _ Hw p).
      * unfold m' in *. rewrite slot_apart in Hj |- * by done. by apply (pw_inner _ _ _ Hw q).
  - intros j u Hj E. assert (tpath [j]) as Hq by (split; [cbn; lia|by apply Forall_singleton]).
    destruct (link_nodes [j] u Hq E) as [[Ej ->]|Eo]; [|by apply (pw_low _ _ _ Hw j u)].
    destruct p as [|a [|b p']]; [|done|done]. injection Ej as ->. by apply Hlow.
Qed.
End link.

(** ** The allocator under the tables *)

Lemma kmem_inv_write k l t m' : kmem_inv k l -> page_ok t -> t ∉ l -> same_outside t (mem k) m' ->
  kmem_inv (set_mem m' k) l.
Proof.
  intros [Hc Hn HF] [Ha Hr] Ht Hs. split; [|done|done]. cbn. by apply (chain_outside l (mem k) _ _ t).
Qed.

Lemma same_outside_trans t m1 m2 m3 : same_outside t m1 m2 -> same_outside t m2 m3 -> same_outside t m1 m3.
Proof. intros H1 H2 x Hx. rewrite H2 by done. by apply H1. Qed.

Lemma slot_outside t i v m : page_ok t -> idx_ok i -> same_outside t m (st64 m (t + 8 * i) v).
Proof. intros Ht Hi x Hx. apply st_other. unfold idx_ok, PGSIZE in *. lia. Qed.

(** page = kalloc(); memset(page, 0, PGSIZE); *)
Lemma kalloc_zero k x l : kmem_inv k (x :: l) ->
  page_ok x /\ x <> 0 /\ (x ∉ l) /\
  exists k1 k', kalloc k = Ret x k1 /\ zero_page x k1 = Ret tt k' /\ kmem_inv k' l /\
    same_outside x (mem k) (mem k') /\ (forall y, in_page x y -> mem k' y = 0) /\
    (bytes_ok (mem k) -> bytes_ok (mem k')).
Proof.
  intros Hi. pose proof Hi as [_ Hn HF]. apply Forall_cons in HF as [Hx HF].
  apply NoDup_cons in Hn as [Hxl Hn]. destruct (kalloc_cons k x l Hi) as (k1 & E1 & Hi1 & H5 & Hs1).
  split; [done|]. split; [apply page_ok_range in Hx; lia|]. split; [done|].
  exists k1, (set_mem (fill (mem k1) x 0 PGSIZE) k1). split; [done|]. split; [done|].
  assert (same_outside x (mem k1) (fill (mem k1) x 0 PGSIZE)) as Hs2
    by (intros y Hy; by apply fill_out).
  split; [by apply (kmem_inv_write k1 l x)|].
  split; [by eapply same_outside_trans|]. split; [intros y Hy; by apply fill_in|].
  intros Hb y. cbn [mem set_mem]. destruct (decide (in_page x y)) as [Hy|Hy].
  - by rewrite fill_in.
  - unfold in_page in Hy. rewrite fill_out, Hs1 by lia. apply Hb.
Qed.

(** An address in no free page and no table. *)
Definition untouched (m : bytes) (root : Z) (l : list Z) (x : Z) : Prop :=
  (forall y, y ∈ l -> ~ in_page y x) /\ (forall q y, tpath q -> node m root q = Some y -> ~ in_page y x).

(** The tables may have grown, with pages from the free list. *)
Record ext (root : Z) (k : kmem) (l : list Z) (k' : kmem) (l' : list Z) : Prop := {
  ex_inv : kmem_inv k' l';
  ex_wf : pt_wf (mem k') root l';
  ex_taken : exists tk, l = tk ++ l' /\ forall q y, tpath q -> node (mem k') root q = Some y ->
    node (mem k) root q = Some y \/ y ∈ tk;
  ex_mono q y : tpath q -> node (mem k) root q = Some y -> node (mem k') root q = Some y;
  ex_frame x : untouched (mem k) root l x -> mem k' x = mem k x;
  ex_bytes : bytes_ok (mem k) -> bytes_ok (mem k');
  ex_used y : y ∈ l -> y ∈ l' \/ exists q, tpath q /\ node (mem k') root q = Some y;
}.

Lemma ext_refl root k l : kmem_inv k l -> pt_wf (mem k) root l -> ext root k l k l.
Proof. intros Hi Hw. split; try done; [exists []; split; [done|]; auto|by left]. Qed.

Lemma ext_trans root k1 l1 k2 l2 k3 l3 : ext root k1 l1 k2 l2 -> ext root k2 l2 k3 l3 -> ext root k1 l1 k3 l3.
Proof.
  intros [I1 W1 (t1 & -> & T1) M1 F1 B1 D1] [I2 W2 (t2 & -> & T2) M2 F2 B2 D2]. split; try done.
  - exists (t1 ++ t2). split; [by rewrite app_assoc|]. intros q y Hq E.
    destruct (T2 q y Hq E) as [E2|Hy]; [|right; apply elem_of_app; by right].
    destruct (T1 q y Hq E2) as [E1|Hy]; [by left|right; apply elem_of_app; by left].
  - auto.
  - intros x [U1 U2]. rewrite F2, F1; [done|done|]. split; [intros y Hy; apply U1; set_solver|].
    intros q y Hq E. destruct (T1 q y Hq E) as [E1|Hy]; [by apply (U2 q)|apply U1; set_solver].
  - auto.
  - intros y Hy. destruct (D1 y Hy) as [Hin|(q & Hq & E)]; [by apply D2|]. right. exists q. auto.
Qed.

(** One step of walk: a table allocated, zeroed and linked. *)
Lemma link_step root k x l p i t : kmem_inv k (x :: l) -> pt_wf (mem k) root (x :: l) ->
  tpath (p ++ [i]) -> node (mem k) root p = Some t -> has (ld64 (mem k) (t + 8 * i)) PTE_V = false -> (p = [] -> i < 256) ->
  exists k1 k2 k3, kalloc k = Ret x k1 /\ zero_page x k1 = Ret tt k2 /\
    store64 (t + 8 * i) (Z.lor (PA2PTE x) PTE_V) k2 = Ret tt k3 /\ x <> 0 /\
    ext root k (x :: l) k3 l /\ node (mem k3) root (p ++ [i]) = Some x /\
    (forall va, pte_of (mem k3) root va = pte_of (mem k) root va).
Proof.
  intros Hi Hw Hp Et Hv Hlow.
  destruct (kalloc_zero k x l Hi) as (Hx & Hx0 & Hxl & k1 & k2 & E1 & E2 & Hi2 & Hs & Hz & Hb).
  assert (forall q, tpath q -> node (mem k) root q <> Some x) as Hfr0.
  { intros q Hq E. destruct (pw_page _ _ _ Hw q x Hq E) as [_ Hn]. apply Hn. by left. }
  destruct (pt_wf_frame (mem k) (mem k2) root (x :: l) Hw) as (Hn & Hpte & Hw2).
  { intros q u y Hq E Hy. apply Hs. apply (page_apart u x y); [by apply (pw_page _ _ _ Hw q)|done| |done].
    intros ->. by apply (Hfr0 q). }
  assert (pt_wf (mem k2) root l) as Hw2' by (eapply pt_wf_sub; [exact Hw2|set_solver]).
  assert (tpath p) as [Hp1 Hp2] by (by eapply tpath_app).
  assert (node (mem k2) root p = Some t) as Et2 by (rewrite Hn by (done || lia); done).
  assert (idx_ok i) as Hidx by (apply tpath_app_r in Hp as [_ Hf]; by rewrite Forall_singleton in Hf).
  destruct (pw_page _ _ _ Hw p t ltac:(by split) Et) as [Ht Htl].
  assert (t <> x) as Htx by (intros ->; apply Htl; by left).
  assert (has (ld64 (mem k2) (t + 8 * i)) PTE_V = false) as Hv2.
  { rewrite (ld_ext 8 (mem k2) (mem k)); [done|]. intros y Hy. apply Hs.
    apply (page_apart t x y Ht Hx Htx), (slot_in t i y Ht Hidx). lia. }
  assert (forall q, tpath q -> node (mem k2) root q <> Some x) as Hfr.
  { intros q Hq. pose proof Hq as [Hq1 Hq2]. rewrite Hn by (done || lia). by apply Hfr0. }
  assert (forall j, idx_ok j -> ld64 (mem k2) (x + 8 * j) = 0) as Hzero.
  { intros j Hj. rewrite (ld_ext 8 (mem k2) (fill (mem k2) x 0 PGSIZE)).
    - apply ld_fill_zero; unfold idx_ok, PGSIZE in *; lia.
    - intros y Hy. assert (in_page x y) by (unfold in_page, idx_ok, PGSIZE in *; lia).
      rewrite Hz by done. by rewrite fill_in. }
  set (v := Z.lor (PA2PTE x) PTE_V).
  exists k1, k2, (set_mem (st64 (mem k2) (t + 8 * i) v) k2).
  split; [done|]. split; [done|]. split; [done|]. split; [done|].
  assert (t ∉ l) as Htl' by set_solver.
  split; [split|].
  - apply (kmem_inv_write k2 l t); try done. by apply slot_outside.
  - by apply (link_wf (mem k2) root l Hw2' p i t x).
  - exists [x]. split; [done|]. intros q y Hq E. pose proof Hq as [Hq1 Hq2].
    destruct (link_nodes (mem k2) root l Hw2' p i t x Hp Et2 Hv2 Hx Hxl Hfr Hzero q y Hq E) as [[_ ->]|E'].
    + right. by left.
    + left. by rewrite Hn in E' by (done || lia).
  - intros q y Hq E. pose proof Hq as [Hq1 Hq2]. apply (link_mono (mem k2) root l Hw2' p i t x); try done.
    rewrite Hn by (done || lia). done.
  - intros y [U1 U2]. cbn. rewrite (slot_outside t i v (mem k2) Ht Hidx), Hs; [done| |].
    + specialize (U1 x ltac:(by left)). unfold in_page in U1. lia.
    + specialize (U2 p t ltac:(by split) Et). unfold in_page in U2. lia.
  - intros Hby. apply st_bytes_ok. auto.
  - intros y [->|Hy]%elem_of_cons; [|by left]. right. exists (p ++ [i]). split; [done|]. by apply (link_new (mem k2) root l Hw2' p i t x).
  - split; [by apply (link_new (mem k2) root l Hw2' p i t x)|].
    intros va. rewrite <- Hpte. by apply (link_pte (mem k2) root l Hw2' p i t x).
Qed.

Lemma PX_low va n : 0 <= va < MAXVA -> n = 1%nat -> PX (Z.of_nat (S n)) va < 256.
Proof.
  intros Hva ->. rewrite PX_div by lia. change (2 ^ (12 + 9 * Z.of_nat 2)) with 1073741824. change MAXVA with 274877906944 in Hva. dlia.
Qed.

Lemma walk_from_alloc root va lvl : forall k l p t, kmem_inv k l -> pt_wf (mem k) root l ->
  tpath (p ++ vidx lvl va) -> node (mem k) root p = Some t -> 0 <= va < MAXVA -> (p = [] -> lvl = 2%nat) ->
  exists r k' l', walk_from lvl t va true k = Ret r k' /\ ext root k l k' l' /\ (length l <= length l' + lvl)%nat /\
    (forall va', pte_of (mem k') root va' = pte_of (mem k) root va') /\
    ((r = 0 /\ l' = []) \/
     exists u, node (mem k') root (p ++ vidx lvl va) = Some u /\ r = u + 8 * PX 0 va).
Proof.
  induction lvl as [|lvl IH]; intros k l p t Hi Hw Hp Et Hva Hl.
  - exists (t + 8 * PX 0 va), k, l. split; [done|]. split; [by apply ext_refl|]. split; [lia|]. split; [done|]. right. exists t.
    cbn. by rewrite app_nil_r.
  - cbn [walk_from vidx] in *. set (i := PX (Z.of_nat (S lvl)) va) in *.
    rewrite (cons_middle i p) in Hp. rewrite app_assoc in Hp.
    assert (tpath (p ++ [i])) as Hpi by (by eapply tpath_app).
    unfold load64. rewrite (bind_step (gets _) _ k (ld64 (mem k) (t + 8 * i)) k) by done.
    assert (p ++ i :: vidx lvl va = (p ++ [i]) ++ vidx lvl va) as -> by (by rewrite <- app_assoc).
    destruct (has (ld64 (mem k) (t + 8 * i)) PTE_V) eqn:Hv.
    + destruct (IH k l (p ++ [i]) (PTE2PA (ld64 (mem k) (t + 8 * i)))) as (r & k' & l' & E & X & Ln & Hr); try done; [by rewrite node_snoc, Et, Hv|by destruct p|].
      exists r, k', l'. split; [done|]. split; [done|]. split; [lia|done].
    + cbn [negb]. destruct l as [|x l].
      * rewrite (bind_step _ _ _ _ _ (kalloc_empty k Hi)). cbn. exists 0, k, [].
        split; [done|]. split; [by apply ext_refl|]. split; [cbn; lia|]. split; [done|by left].
      * destruct (link_step root k x l p i t Hi Hw Hpi Et Hv ltac:(intros Ep; apply PX_low; [done|specialize (Hl Ep); lia])) as (k1 & k2 & k3 & E1 & E2 & E3 & Hx0 & Hext & En & Hpte).
        rewrite (bind_step _ _ _ _ _ E1). rewrite (proj2 (Z.eqb_neq x 0)) by done.
        rewrite (bind_step _ _ _ _ _ E2), (bind_step _ _ _ _ _ E3).
        destruct (IH k3 l (p ++ [i]) x (ex_inv _ _ _ _ _ Hext) (ex_wf _ _ _ _ _ Hext) Hp En Hva ltac:(by destruct p))
          as (r & k' & l' & E & Hext' & Ln & Hpte' & Hr).
        exists r, k', l'. split; [done|]. split; [by eapply ext_trans|]. split; [cbn [length]; lia|].
        split; [intros va'; by rewrite Hpte'|done].
Qed.

Lemma walk_alloc root va k l : kmem_inv k l -> pt_wf (mem k) root l -> 0 <= va < MAXVA ->
  exists r k' l', walk root va true k = Ret r k' /\ ext root k l k' l' /\ (length l <= length l' + 2)%nat /\
    (forall va', pte_of (mem k') root va' = pte_of (mem k) root va') /\
    ((r = 0 /\ l' = []) \/ exists u, table_of (mem k') root va = Some u /\ r = u + 8 * PX 0 va).
Proof.
  intros Hi Hw Hva. unfold walk. rewrite (proj2 (Z.leb_gt MAXVA va)) by lia.
  by apply (walk_from_alloc root va 2 k l []); [..|apply vidx_path| | |].
Qed.

Lemma walk_from_pure va lvl : forall k t,
  walk_from lvl t va false k =
    Ret (match node (mem k) t (vidx lvl va) with Some u => u + 8 * PX 0 va | None => 0 end) k.
Proof.
  induction lvl as [|lvl IH]; intros k t; [done|].
  cbn [walk_from vidx node negb]. unfold load64.
  rewrite (bind_step (gets _) _ k (ld64 (mem k) (t + 8 * PX (Z.of_nat (S lvl)) va)) k) by done.
  case_match; [apply IH|done].
Qed.

Lemma walk_pure root va k : va < MAXVA ->
  walk root va false k =
    Ret (match table_of (mem k) root va with Some u => u + 8 * PX 0 va | None => 0 end) k.
Proof.
  intros Hva. unfold walk. rewrite (proj2 (Z.leb_gt MAXVA va)) by done. apply walk_from_pure.
Qed.

Lemma walk_from_existing va lvl : forall k t u, node (mem k) t (vidx lvl va) = Some u ->
  walk_from lvl t va true k = Ret (u + 8 * PX 0 va) k.
Proof.
  induction lvl as [|lvl IH]; intros k t u E; [by injection E as <-|].
  cbn [walk_from vidx node negb] in *. unfold load64.
  rewrite (bind_step (gets _) _ k (ld64 (mem k) (t + 8 * PX (Z.of_nat (S lvl)) va)) k) by done.
  case_match; [by apply IH|done].
Qed.

Lemma walk_existing root va k u : va < MAXVA -> table_of (mem k) root va = Some u ->
  walk root va true k = Ret (u + 8 * PX 0 va) k.
Proof.
  intros Hva E. unfold walk. rewrite (proj2 (Z.leb_gt MAXVA va)) by done. by apply walk_from_existing.
Qed.

(** ** Writing a leaf entry *)

Lemma px_vpn va : 0 <= va < MAXVA ->
  va / 4096 = (PX 2 va * 512 + PX 1 va) * 512 + PX 0 va.
Proof.
  intros Hva. rewrite !PX_div by lia.
  change (12 + 9 * 2) with (12 + 18). change (12 + 9 * 1) with (12 + 9). change (12 + 9 * 0) with 12.
  rewrite !Z.pow_add_r, <- !Z.div_div by lia. change MAXVA with 274877906944 in Hva.
  change (2 ^ 12) with 4096. change (2 ^ 18) with 262144. change (2 ^ 9) with 512.
  set (a := va / 4096). assert (0 <= a < 134217728) by (unfold a; dlia). clearbody a. dlia.
Qed.

Lemma same_vpn va va' : va / 4096 = va' / 4096 -> vidx 2 va = vidx 2 va' /\ PX 0 va = PX 0 va'.
Proof.
  intros E. assert (forall lv, 0 <= lv -> PX lv va = PX lv va') as Hp.
  { intros lv Hlv. rewrite !PX_div by done. rewrite Z.pow_add_r, <- !Z.div_div by lia.
    change (2 ^ 12) with 4096. by rewrite E. }
  split; [cbn; f_equal; [|f_equal]|]; by apply Hp.
Qed.

Lemma vpn_same va va' : 0 <= va < MAXVA -> 0 <= va' < MAXVA ->
  vidx 2 va = vidx 2 va' -> PX 0 va = PX 0 va' -> va / 4096 = va' / 4096.
Proof.
  intros H1 H2 E E0. rewrite (px_vpn va H1), (px_vpn va' H2).
  change (vidx 2 va) with [PX 2 va; PX 1 va] in E. change (vidx 2 va') with [PX 2 va'; PX 1 va'] in E.
  injection E as E2 E1. by rewrite E2, E1, E0.
Qed.

Lemma pte_of_vpn m root va va' : va / 4096 = va' / 4096 -> pte_of m root va = pte_of m root va'.
Proof. intros E. destruct (same_vpn _ _ E) as [E1 E2]. unfold pte_of, table_of. by rewrite E1, E2. Qed.

Section set_pte.
Context (m : bytes) (root : Z) (l : list Z) (Hw : pt_wf m root l) (va u v : Z)
  (Hva : 0 <= va < MAXVA) (Eu : table_of m root va = Some u) (Hv : 0 <= v < 2 ^ 64).
Let m' := st64 m (u + 8 * PX 0 va) v.

Lemma leaf_table : page_ok u /\ (u ∉ l) /\ idx_ok (PX 0 va).
Proof.
  assert (tpath (vidx 2 va)) as Hp by (by apply vidx_path).
  destruct (pw_page _ _ _ Hw _ _ Hp Eu). split; [done|]. split; [done|]. by apply PX_range.
Qed.

Lemma set_pte_node q : tpath q -> node m' root q = node m root q.
Proof.
  destruct leaf_table as (Hu & _ & Hi). intros [Hq1 Hq2].
  apply (node_frame m m' root 2); [|done|done]. intros p t x Hl Hp E.
  assert (tpath p) as Htp by (split; [lia|done]). destruct (pw_page _ _ _ Hw p t Htp E) as [Ht _].
  split; [done|]. intros Hx. apply (slot_outside u (PX 0 va) v m Hu Hi x).
  apply (page_apart t u x Ht Hu); [|done]. intros ->.
  assert (p = vidx 2 va) as -> by (eapply (pw_inj _ _ _ Hw); [done|by apply vidx_path|done|done]).
  cbn in Hl. lia.
Qed.

Lemma set_pte_wf : pt_wf m' root l.
Proof.
  split; intros *.
  - intros Hp. rewrite set_pte_node by done. by apply (pw_page _ _ _ Hw).
  - intros Hp Hq. rewrite !set_pte_node by done. by apply (pw_inj _ _ _ Hw).
  - intros Hp. pose proof (tpath_app _ _ Hp) as Hp'. rewrite set_pte_node by done. intros E.
    destruct leaf_table as (Hu & _ & Hi). destruct (pw_page _ _ _ Hw p t Hp' E) as [Ht _].
    assert (idx_ok i) as Hio by (by apply tpath_app_r in Hp as [_ Hi']; rewrite Forall_singleton in Hi').
    unfold m'. rewrite slot_apart; try done; [by apply (pw_inner _ _ _ Hw p)|]. intros ->.
    assert (p = vidx 2 va) as -> by (eapply (pw_inj _ _ _ Hw); [done|by apply vidx_path|done|done]).
    destruct Hp as [Hl _]. rewrite length_app in Hl. cbn in Hl. lia.
  - intros Hi. rewrite set_pte_node by (split; [cbn; lia|by apply Forall_singleton]). by apply (pw_low _ _ _ Hw).
Qed.

Lemma set_pte_pte va' : 0 <= va' < MAXVA ->
  pte_of m' root va' = if va' / 4096 =? va / 4096 then v else pte_of m root va'.
Proof.
  intros Hva'. destruct leaf_table as (Hu & _ & Hi).
  assert (tpath (vidx 2 va')) as Hp by (by apply vidx_path).
  destruct (Z.eqb_spec (va' / 4096) (va / 4096)) as [E|Hne].
  - rewrite (pte_of_vpn m' root va' va E). unfold pte_of, table_of.
    rewrite set_pte_node by (by apply vidx_path). fold (table_of m root va). rewrite Eu.
    unfold m'. rewrite ld_st_same. by apply Z.mod_small.
  - unfold pte_of, table_of. rewrite set_pte_node by done.
    destruct (node m root (vidx 2 va')) as [u'|] eqn:E'; [|done].
    destruct (pw_page _ _ _ Hw _ _ Hp E') as [Hu' _].
    destruct (decide (u = u')) as [<-|Hn].
    + assert (vidx 2 va = vidx 2 va') as E2
        by (eapply (pw_inj _ _ _ Hw); [by apply vidx_path|done|done|done]).
      apply ld_st_other. assert (PX 0 va <> PX 0 va'); [|lia].
      intros E0. apply Hne. symmetry. by apply vpn_same.
    + apply slot_apart; try done. by apply PX_range.
Qed.
End set_pte.

Lemma store_pte root k l va u v : kmem_inv k l -> pt_wf (mem k) root l -> 0 <= va < MAXVA ->
  table_of (mem k) root va = Some u -> 0 <= v < 2 ^ 64 ->
  exists k', store64 (u + 8 * PX 0 va) v k = Ret tt k' /\ ext root k l k' l /\
    (forall va', 0 <= va' < MAXVA ->
       pte_of (mem k') root va' = if va' / 4096 =? va / 4096 then v else pte_of (mem k) root va').
Proof.
  intros Hi Hw Hva Eu Hv. destruct (leaf_table (mem k) root l Hw va u Eu) as (Hu & Hul & Hix).
  exists (set_mem (st64 (mem k) (u + 8 * PX 0 va) v) k). split; [done|]. split.
  - split.
    + apply (kmem_inv_write k l u); try done. by apply slot_outside.
    + by apply (set_pte_wf (mem k) root l Hw va u).
    + exists []. split; [done|]. intros q y Hq E. left.
      cbn [mem set_mem] in E. by rewrite (set_pte_node (mem k) root l Hw) in E.
    + intros q y Hq E. cbn [mem set_mem]. by rewrite (set_pte_node (mem k) root l Hw).
    + intros x [_ U2]. apply (slot_outside u (PX 0 va) v (mem k) Hu Hix).
      specialize (U2 (vidx 2 va) u ltac:(by apply vidx_path) Eu). unfold in_page in U2. lia.
    + intros Hb. by apply st_bytes_ok.
    + by left.
  - intros va' Hva'. by apply (set_pte_pte (mem k) root l Hw).
Qed.

(** ** mappages *)

(** The entry mappages stores. *)
Definition leaf_entry (pa perm : Z) : Z := Z.lor (Z.lor (PA2PTE pa) perm) PTE_V.

Lemma leaf_entry_lor pa perm : leaf_entry pa perm = Z.lor (PA2PTE pa) (Z.lor perm PTE_V).
Proof. unfold leaf_entry. by rewrite Z.lor_assoc. Qed.

Lemma perm_range perm : 0 <= perm < 1024 -> 0 <= Z.lor perm PTE_V < 1024.
Proof.
  intros Hp. split; [apply Z.lor_nonneg; split; [lia|done]|].
  destruct (decide (Z.lor perm PTE_V = 0)) as [->|Hn]; [lia|].
  apply (Z.log2_lt_cancel _ (2 ^ 10)). change (Z.log2 (2 ^ 10)) with 10.
  rewrite Z.log2_lor by (done || lia). change (Z.log2 PTE_V) with 0.
  destruct (decide (perm = 0)) as [->|]; [cbn; lia|].
  apply Z.max_lub_lt; [|lia]. apply Z.log2_lt_pow2; [lia|]. change (2 ^ 10) with 1024. lia.
Qed.

Lemma leaf_entry_range pa perm : 0 <= pa < 2 ^ 56 -> 0 <= perm < 1024 -> 0 <= leaf_entry pa perm < 2 ^ 54.
Proof.
  intros Hpa Hp. rewrite leaf_entry_lor, PA2PTE_div by done. pose proof (perm_range perm Hp).
  rewrite (lor_disjoint_add _ _ 10); [|lia|done|by apply Z.mod_mul].
  change (2 ^ 56) with 72057594037927936 in *. change (2 ^ 54) with 18014398509481984. dlia.
Qed.

Lemma leaf_entry_pa pa perm : 0 <= pa < 2 ^ 56 -> pa mod 4096 = 0 -> 0 <= perm < 1024 ->
  PTE2PA (leaf_entry pa perm) = pa.
Proof. intros. rewrite leaf_entry_lor. apply PTE2PA_PA2PTE; [done|done|by apply perm_range]. Qed.

Lemma leaf_entry_flag pa perm i : 0 <= pa < 2 ^ 56 -> 0 <= perm < 1024 -> 0 <= i < 10 ->
  has (leaf_entry pa perm) (Z.shiftl 1 i) = Z.testbit (Z.lor perm PTE_V) i.
Proof.
  intros. unfold has. rewrite land_shiftl1, leaf_entry_lor by lia.
  rewrite PTE_flag_bits; [by destruct (Z.testbit _ i)|done|by apply perm_range|done].
Qed.

Lemma leaf_entry_valid pa perm : 0 <= pa < 2 ^ 56 -> 0 <= perm < 1024 ->
  has (leaf_entry pa perm) PTE_V = true.
Proof.
  intros. change (has (leaf_entry pa perm) (Z.shiftl 1 0) = true). rewrite leaf_entry_flag by (done || lia).
  rewrite Z.lor_spec. change (Z.testbit PTE_V 0) with true. by rewrite orb_true_r.
Qed.

(** [n] pages from [a] on mapped to the frames from [pa] on. *)
Definition mapped (root : Z) (m m' : bytes) (a pa n perm : Z) : Prop :=
  forall va, 0 <= va < MAXVA -> pte_of m' root va =
    if (a <=? va) && (va <? a + n * PGSIZE) then leaf_entry (pa + (va / PGSIZE * PGSIZE - a)) perm
    else pte_of m root va.

Definition mappages_result (root : Z) (a n pa perm : Z) (k : kmem) (l : list Z) (r : Z)
    (k' : kmem) (l' : list Z) : Prop :=
  ext root k l k' l' /\ Z.of_nat (length l) <= Z.of_nat (length l') + 2 * n /\
  ((r = 0 /\ mapped root (mem k) (mem k') a pa n perm) \/
   (r = -1 /\ l' = [] /\ exists j, 0 <= j < n /\ mapped root (mem k) (mem k') a pa j perm)).

Lemma mapped_none root m m' a pa perm :
  (forall va, pte_of m' root va = pte_of m root va) -> mapped root m m' a pa 0 perm.
Proof. intros E va Hva. rewrite E. unfold PGSIZE. zbool; cbn; done || lia. Qed.

Lemma mapped_cons root m m1 m' a pa n perm : a mod PGSIZE = 0 -> 0 <= n ->
  (forall va, 0 <= va < MAXVA -> pte_of m1 root va =
     if va / 4096 =? a / 4096 then leaf_entry pa perm else pte_of m root va) ->
  mapped root m1 m' (a + PGSIZE) (pa + PGSIZE) n perm -> mapped root m m' a pa (n + 1) perm.
Proof.
  intros Ha Hn H1 H2 va Hva. rewrite H2, H1 by done. unfold PGSIZE in *.
  destruct (Z.leb_spec (a + 4096) va), (Z.ltb_spec va (a + 4096 + n * 4096)); cbn [andb];
    destruct (Z.leb_spec a va), (Z.ltb_spec va (a + (n + 1) * 4096)); cbn [andb]; try lia;
    destruct (Z.eqb_spec (va / 4096) (a / 4096)); try (exfalso; dlia); try done; f_equal; dlia.
Qed.

Lemma mappages_loop root perm n : forall k l a pa, kmem_inv k l -> pt_wf (mem k) root l ->
  (0 < n)%nat -> a mod PGSIZE = 0 -> 0 <= a -> a + Z.of_nat n * PGSIZE <= MAXVA ->
  0 <= pa -> pa + Z.of_nat n * PGSIZE <= 2 ^ 56 -> 0 <= perm < 1024 ->
  (forall va, a <= va < a + Z.of_nat n * PGSIZE -> has (pte_of (mem k) root va) PTE_V = false) ->
  exists r k' l', loop n (mappages_body root (a + (Z.of_nat n - 1) * PGSIZE) perm) (a, pa) k = Ret r k' /\
    mappages_result root a (Z.of_nat n) pa perm k l r k' l'.
Proof.
  induction n as [|n IH]; intros k l a pa Hi Hw Hn Ha Ha0 Hmax Hp0 Hpm Hperm Hfree; [lia|]. clear Hn.
  assert (MAXVA < 2 ^ 56) as HM by (vm_compute; congruence).
  assert (0 <= pa < 2 ^ 56) as Hpr by (unfold PGSIZE in *; lia).
  cbn [loop]. unfold mappages_body at 1.
  destruct (walk_alloc root a k l Hi Hw ltac:(unfold PGSIZE in *; lia)) as (r & k1 & l1 & E1 & X1 & Ln1 & P1 & Hr).
  unfold bind at 1. rewrite (bind_step _ _ _ _ _ E1).
  destruct Hr as [[-> ->]|(u & Eu & ->)].
  { cbn. exists (-1), k1, []. split; [done|]. split; [done|]. split; [lia|]. right. split; [done|]. split; [done|].
    exists 0. split; [lia|]. by apply mapped_none. }
  destruct (leaf_table (mem k1) root l1 (ex_wf _ _ _ _ _ X1) a u Eu) as (Hu & _ & Hix).
  assert (u + 8 * PX 0 a <> 0) as Hnz by (apply page_ok_range in Hu; unfold idx_ok in Hix; lia).
  rewrite (proj2 (Z.eqb_neq _ _) Hnz). unfold load64.
  rewrite (bind_step (gets _) _ k1 (ld64 (mem k1) (u + 8 * PX 0 a)) k1) by done.
  assert (ld64 (mem k1) (u + 8 * PX 0 a) = pte_of (mem k) root a) as ->.
  { rewrite <- P1. unfold pte_of. by rewrite Eu. }
  rewrite Hfree by (unfold PGSIZE; lia).
  destruct (store_pte root k1 l1 a u (leaf_entry pa perm) (ex_inv _ _ _ _ _ X1) (ex_wf _ _ _ _ _ X1)
    ltac:(unfold PGSIZE in *; lia) Eu) as (k2 & E2 & X2 & P2).
  { pose proof (leaf_entry_range pa perm Hpr Hperm). split; [lia|].
    eapply Z.lt_trans; [apply H0|]. by apply Z.pow_lt_mono_r. }
  rewrite (bind_step _ _ _ _ _ E2).
  assert (ext root k l k2 l1) as X by (by eapply ext_trans).
  assert (forall va, 0 <= va < MAXVA -> pte_of (mem k2) root va =
    if va / 4096 =? a / 4096 then leaf_entry pa perm else pte_of (mem k) root va) as P
    by (intros va Hva; rewrite P2 by done; by rewrite P1).
  destruct n as [|n].
  { replace (a + (Z.of_nat 1 - 1) * PGSIZE) with a by lia. rewrite Z.eqb_refl. cbn.
    exists 0, k2, l1. split; [done|]. split; [done|]. split; [lia|]. left. split; [done|].
    apply (mapped_cons root (mem k) (mem k2) (mem k2) a pa 0); try done. by apply mapped_none. }
  rewrite (proj2 (Z.eqb_neq a _)) by (unfold PGSIZE; lia). cbn [ret].
  rewrite !wrap_small by (change (2 ^ 64) with 18446744073709551616 in *;
    change (2 ^ 56) with 72057594037927936 in *; unfold PGSIZE in *; lia).
  destruct (IH k2 l1 (a + PGSIZE) (pa + PGSIZE) (ex_inv _ _ _ _ _ X) (ex_wf _ _ _ _ _ X) ltac:(lia))
    as (r & k' & l' & E & X' & Ln' & Hres); try (unfold PGSIZE in *; dlia).
  { intros va Hva. rewrite P by (unfold PGSIZE in *; lia).
    rewrite (proj2 (Z.eqb_neq (va / 4096) (a / 4096))) by (unfold PGSIZE in *; dlia).
    apply Hfree. unfold PGSIZE in *. lia. }
  replace (a + PGSIZE + (Z.of_nat (S n) - 1) * PGSIZE) with (a + (Z.of_nat (S (S n)) - 1) * PGSIZE) in E by lia.
  exists r, k', l'. split; [exact E|]. split; [by eapply ext_trans|]. split; [lia|].
  destruct Hres as [[-> Hm]|(-> & -> & j & Hj & Hm)].
  - left. split; [done|]. replace (Z.of_nat (S (S n))) with (Z.of_nat (S n) + 1) by lia.
    eapply mapped_cons; [done|lia|exact P|exact Hm].
  - right. split; [done|]. split; [done|]. exists (j + 1). split; [lia|].
    eapply mapped_cons; [done|lia|exact P|exact Hm].
Qed.

Lemma mappages_run root va size pa perm k l : kmem_inv k l -> pt_wf (mem k) root l ->
  va mod PGSIZE = 0 -> size mod PGSIZE = 0 -> 0 < size -> 0 <= va -> va + size <= MAXVA ->
  0 <= pa -> pa + size <= 2 ^ 56 -> 0 <= perm < 1024 ->
  (forall a, va <= a < va + size -> has (pte_of (mem k) root a) PTE_V = false) ->
  exists r k' l', mappages root va size pa perm k = Ret r k' /\
    mappages_result root va (size / PGSIZE) pa perm k l r k' l'.
Proof.
  intros Hi Hw Ha Hs Hs0 Hv0 Hmax Hp0 Hpm Hperm Hfree.
  assert (MAXVA < 2 ^ 64) as HM by (vm_compute; congruence).
  set (n := Z.to_nat (size / PGSIZE)).
  assert (Z.of_nat n = size / PGSIZE /\ size = Z.of_nat n * PGSIZE) as [En Es].
  { assert (0 <= size / PGSIZE) by (apply Z.div_pos; unfold PGSIZE; lia).
    unfold n. rewrite Z2Nat.id by done. split; [done|]. unfold PGSIZE in *. dlia. }
  unfold mappages. rewrite Ha, Hs. cbn [negb Z.eqb]. rewrite (proj2 (Z.eqb_neq size 0)) by lia.
  rewrite wrap_small by (unfold PGSIZE in *; lia).
  replace (va + size - PGSIZE) with (va + (Z.of_nat n - 1) * PGSIZE) by lia.
  rewrite <- En, Nat2Z.id. apply mappages_loop; try done; try lia.
  intros a Haa. apply Hfree. lia.
Qed.

Definition walk_spec (root va : Z) (k : kmem) (l : list Z) : Prop :=
  walk root va false k =
    Ret (match table_of (mem k) root va with Some u => u + 8 * PX 0 va | None => 0 end) k /\
  exists r k' l', walk root va true k = Ret r k' /\ ext root k l k' l' /\
    (forall va', pte_of (mem k') root va' = pte_of (mem k) root va') /\
    ((r = 0 /\ l' = []) \/
     (exists u, table_of (mem k') root va = Some u /\ r = u + 8 * PX 0 va /\
        ld64 (mem k') r = pte_of (mem k) root va)).

(** walk finds the entry of a virtual address. Without alloc it reads the
    tables only and returns the entry's address, 0 if a table is missing.
    With alloc it returns the address of the entry, which holds the value the
    page table gave to va (0 if its table is new), or 0 when the free pages
    ran out; in both cases the tables stay distinct allocated pages, only
    pages from the free list were added to them, no translation of the page
    table changed, and no byte outside the tables and the free pages. From
    MAXVA on it panics. *)
Theorem walk_correct root va k l : kmem_inv k l -> pt_wf (mem k) root l -> 0 <= va ->
  if va <? MAXVA then walk_spec root va k l
  else forall alloc, walk root va alloc k = Panic "walk".
Proof.
  intros Hi Hw. destruct (Z.ltb_spec va MAXVA) as [Hva|Hva].
  - split; [by apply walk_pure|].
    destruct (walk_alloc root va k l Hi Hw ltac:(lia)) as (r & k' & l' & E & X & _ & P & Hr).
    exists r, k', l'. split; [done|]. split; [done|]. split; [done|].
    destruct Hr as [?|(u & Eu & ->)]; [by left|]. right. exists u. split; [done|]. split; [done|].
    rewrite <- P. unfold pte_of. by rewrite Eu.
  - intros alloc. unfold walk. by rewrite (proj2 (Z.leb_le MAXVA va)).
Qed.

(** mappages maps exactly its range. On aligned arguments and a range
    below MAXVA with no entry in use it returns 0 with every page of the range
    mapped to its frame with the permissions given, or -1 when the free pages
    ran out, with a prefix of the range mapped; every other translation is as
    before. If the first page is already mapped it panics, as it does on
    misaligned or empty ranges. *)
Theorem mappages_correct root va size pa perm k l : kmem_inv k l -> pt_wf (mem k) root l ->
  0 <= va -> 0 <= size -> va + size <= MAXVA -> 0 <= pa -> pa + size <= 2 ^ 56 -> 0 <= perm < 1024 ->
  if negb (va mod PGSIZE =? 0) then mappages root va size pa perm k = Panic "mappages: va not aligned"
  else if negb (size mod PGSIZE =? 0) then mappages root va size pa perm k = Panic "mappages: size not aligned"
  else if size =? 0 then mappages root va size pa perm k = Panic "mappages: size"
  else
    (has (pte_of (mem k) root va) PTE_V = true -> mappages root va size pa perm k = Panic "mappages: remap") /\
    ((forall a, va <= a < va + size -> has (pte_of (mem k) root a) PTE_V = false) ->
     exists r k' l', mappages root va size pa perm k = Ret r k' /\
       mappages_result root va (size / PGSIZE) pa perm k l r k' l').
Proof.
  intros Hi Hw Hv0 Hs0 Hmax Hp0 Hpm Hperm.
  destruct (Z.eqb_spec (va mod PGSIZE) 0) as [Ha|Ha]; cbn [negb].
  2: { unfold mappages. by rewrite (proj2 (Z.eqb_neq (va mod PGSIZE) 0)). }
  destruct (Z.eqb_spec (size mod PGSIZE) 0) as [Hs|Hs]; cbn [negb].
  2: { unfold mappages. rewrite Ha. cbn. by rewrite (proj2 (Z.eqb_neq (size mod PGSIZE) 0)). }
  destruct (Z.eqb_spec size 0) as [->|Hsz].
  { unfold mappages. by rewrite Ha. }
  split; [|intros Hf; apply mappages_run; try done; lia].
  intros Hv. unfold mappages. rewrite Ha, Hs. cbn [negb Z.eqb].
  rewrite (proj2 (Z.eqb_neq size 0)) by lia.
  assert (0 < size / PGSIZE) as Hn by (unfold PGSIZE in *; dlia).
  destruct (Z.to_nat (size / PGSIZE)) as [|n] eqn:En; [lia|].
  cbn [loop]. unfold mappages_body at 1.
  destruct (table_of (mem k) root va) as [u|] eqn:Eu.
  2: { unfold pte_of in Hv. by rewrite Eu in Hv. }
  assert (va < MAXVA) as Hva by (unfold PGSIZE in *; dlia).
  unfold bind at 1. rewrite (bind_step _ _ _ _ _ (walk_existing root va k u Hva Eu)).
  destruct (leaf_table (mem k) root l Hw va u Eu) as (Hu & _ & Hix).
  assert (u + 8 * PX 0 va <> 0) as Hnz by (apply page_ok_range in Hu; unfold idx_ok in Hix; lia).
  rewrite (proj2 (Z.eqb_neq _ _) Hnz). unfold load64.
  rewrite (bind_step (gets _) _ k (ld64 (mem k) (u + 8 * PX 0 va)) k) by done.
  unfold pte_of in Hv. rewrite Eu in Hv. by rewrite Hv.
Qed.
End tables.

(** A machine with ten allocatable pages: the first is an empty page table,
    the others are free. *)
#[global] Instance ten_pages : KernelEnd.
Proof. refine {| kend := PHYSTOP - 10 * PGSIZE |}; vm_compute; congruence. Defined.

Definition pages9 : list Z := (fun i => PHYSTOP - i * PGSIZE) <$> [1; 2; 3; 4; 5; 6; 7; 8; 9].
Definition root10 : Z := PHYSTOP - 10 * PGSIZE.
Definition link_pages (l : list (Z * Z)) : bytes := foldr (fun '(p, nx) m => st64 m p nx) (fun _ => 0) l.
Definition vm10 : kmem := Kmem (link_pages (zip pages9 (tail pages9 ++ [0]))) (PHYSTOP - PGSIZE).

Lemma vm10_inv : kmem_inv vm10 pages9.
Proof.
  split.
  - vm_compute. repeat split.
  - apply (bool_decide_unpack _). vm_compute. exact I.
  - apply (bool_decide_unpack _). vm_compute. exact I.
Qed.

Lemma link_pages_other l x : Forall (fun e => x < e.1 \/ e.1 + 8 <= x) l -> link_pages l x = 0.
Proof.
  induction l as [|[p nx] l IH]; intros Hf; [done|]. apply Forall_cons in Hf as [Hx Hf].
  cbn. rewrite st_other; [by apply IH|]. cbn in *. lia.
Qed.

Lemma root10_zero x : in_page root10 x -> mem vm10 x = 0.
Proof.
  intros Hx. apply link_pages_other. unfold in_page, root10, PGSIZE in Hx.
  repeat constructor; cbn [fst]; unfold PGSIZE; lia.
Qed.

Lemma vm10_wf : pt_wf (mem vm10) root10 pages9.
Proof.
  apply empty_root; [| |by apply root10_zero]; apply (bool_decide_unpack _); vm_compute; exact I.
Qed.

Lemma vm10_empty va : pte_of (mem vm10) root10 va = 0.
Proof. apply empty_root_pte, root10_zero. Qed.

Lemma walk_correct_witness : walk root10 4096 false vm10 = Ret 0 vm10 /\
  walk root10 MAXVA true vm10 = Panic "walk".
Proof.
  split.
  - destruct (walk_correct root10 4096 vm10 pages9 vm10_inv vm10_wf ltac:(lia)) as [H _]. rewrite H.
    unfold table_of. cbn [vidx node]. pose proof (vm10_empty 4096) as E0.
    assert (table_of (mem vm10) root10 4096 = None) as Et by (vm_compute; reflexivity).
    unfold table_of in Et. cbn [vidx node] in Et. by rewrite Et.
  - exact (walk_correct root10 MAXVA vm10 pages9 vm10_inv vm10_wf ltac:(vm_compute; congruence) true).
Defined.

Lemma mappages_correct_witness : exists r k' l',
  mappages root10 4096 8192 (PHYSTOP - PGSIZE) 6 vm10 = Ret r k' /\
  mappages_result root10 4096 2 (PHYSTOP - PGSIZE) 6 vm10 pages9 r k' l'.
Proof.
  pose proof (mappages_correct root10 4096 8192 (PHYSTOP - PGSIZE) 6 vm10 pages9 vm10_inv vm10_wf
    ltac:(lia) ltac:(lia) ltac:(vm_compute; congruence) ltac:(vm_compute; congruence)
    ltac:(vm_compute; congruence) ltac:(lia)) as H.
  change (4096 mod PGSIZE) with 0 in H. change (8192 mod PGSIZE) with 0 in H. cbn [Z.eqb negb] in H.
  destruct H as [_ H]. apply H. intros a Ha. by rewrite vm10_empty.
Defined.
