(* ===== verification/VmUser.v ===== *)
(** * User address spaces: page faults, copyin, copyout

    [uvm] is the invariant of a process's address space: its page tables and
    the frames of its user pages are distinct allocated pages. [ubyte] is the
    byte the process would load; a page below the process's size that is not
    yet allocated reads as zero, which vmfault makes true. copyin and copyout
    are proved against [ubyte], and the kernel's copy routines become an
    implementation of the interface of file UserMem. *)
From stdpp Require Import base list numbers strings relations.
From Stdlib Require Import ZArith Lia FunctionalExtensionality.
From S2P Require Import Prelude Memlayout Kalloc UserMem Vm VmTables.

Section uvm.
Context `{KernelEnd}.
Context (root sz : Z).

(** [va] has a valid entry; [frame m va] is the page it points to. *)
Definition valid (m : bytes) (va : Z) : bool := has (pte_of m root va) PTE_V.
Definition frame (m : bytes) (va : Z) : Z := PTE2PA (pte_of m root va).

Record uvm (k : kmem) (l : list Z) : Prop := {
  uv_inv : kmem_inv k l;
  uv_pt : pt_wf (mem k) root l;
  uv_bytes : bytes_ok (mem k);
  uv_sz : 0 <= sz <= TRAPFRAME;
  uv_page va : 0 <= va < TRAPFRAME -> valid (mem k) va = true ->
    page_ok (frame (mem k) va) /\ (frame (mem k) va ∉ l) /\
    forall q, tpath q -> node (mem k) root q <> Some (frame (mem k) va);
  uv_inj va va' : 0 <= va < TRAPFRAME -> 0 <= va' < TRAPFRAME ->
    valid (mem k) va = true -> valid (mem k) va' = true ->
    frame (mem k) va = frame (mem k) va' -> va / 4096 = va' / 4096;
  uv_high va : TRAPFRAME <= va < MAXVA -> has (pte_of (mem k) root va) PTE_U = false;
}.

(** The process may load from [va]. *)
Definition readable (m : bytes) (va : Z) : bool :=
  (0 <=? va) && (va <? MAXVA) && valid m va && has (pte_of m root va) PTE_U.
Definition ubyte (m : bytes) (va : Z) : Z :=
  if readable m va then m (frame m va + va mod 4096) else 0.

(** [x] is not one of the process's frames. *)
Definition no_frame (m : bytes) (x : Z) : Prop :=
  forall va, 0 <= va < TRAPFRAME -> valid m va = true -> frame m va <> x.
Definition no_table (m : bytes) (x : Z) : Prop := forall q, tpath q -> node m root q <> Some x.

(** Memory that belongs to neither the allocator nor this address space. *)
Definition foreign (m : bytes) (l : list Z) (x : Z) : Prop :=
  untouched m root l x /\
  forall va, 0 <= va < TRAPFRAME -> valid m va = true -> ~ in_page (frame m va) x.

(** The invariant holds and what belongs to others stays theirs, unchanged. *)
Definition uinc (k : kmem) (l : list Z) (k' : kmem) (l' : list Z) : Prop :=
  uvm k' l' /\ forall x, foreign (mem k) l x -> mem k' x = mem k x /\ foreign (mem k') l' x.

(** Besides, no page is lost: memory that belongs neither to the allocator nor
    to the address space afterwards belonged to neither before. *)
Definition uext (k : kmem) (l : list Z) (k' : kmem) (l' : list Z) : Prop :=
  uvm k' l' /\ (forall x, foreign (mem k) l x -> mem k' x = mem k x /\ foreign (mem k') l' x) /\
  (forall x, foreign (mem k') l' x -> foreign (mem k) l x).

Lemma uext_trans k1 l1 k2 l2 k3 l3 : uext k1 l1 k2 l2 -> uext k2 l2 k3 l3 -> uext k1 l1 k3 l3.
Proof.
  intros (_ & H1 & C1) (U3 & H2 & C2). split; [done|]. split; [|auto]. intros x Hx. destruct (H1 x Hx) as [E1 F1].
  destruct (H2 x F1) as [E2 F2]. split; [congruence|done].
Qed.

Lemma uext_refl k l : uvm k l -> uext k l k l.
Proof. intros Hu. split; [done|]. split; [|done]. auto. Qed.

Lemma trapframe_max : TRAPFRAME = 274877898752 /\ MAXVA = 274877906944.
Proof. split; reflexivity. Qed.

Lemma readable_low k l va : uvm k l -> readable (mem k) va = true ->
  0 <= va < TRAPFRAME /\ valid (mem k) va = true /\ has (pte_of (mem k) root va) PTE_U = true.
Proof.
  intros Hu Hr. unfold readable in Hr. apply andb_prop in Hr as [Hr H4]. apply andb_prop in Hr as [Hr H3].
  apply andb_prop in Hr as [H1 H2]. split; [|done].
  destruct (Z.lt_ge_cases va TRAPFRAME) as [?|Hge]; [lia|].
  rewrite (uv_high _ _ Hu) in H4 by lia. done.
Qed.

(** A step that keeps the tables' entries moves nothing in the address space. *)
Lemma same_pte_views m m' : (forall va, pte_of m' root va = pte_of m root va) ->
  (forall va, valid m' va = valid m va) /\ (forall va, frame m' va = frame m va) /\
  (forall va, readable m' va = readable m va).
Proof. intros E. unfold readable, valid, frame. repeat split; intros va; by rewrite E. Qed.

(** Changes confined to a page [x] that is not a table, and to the free list
    by that page: kalloc, kfree and stores into pages. *)
Lemma uvm_page_step k l k' l' x : uvm k l -> kmem_inv k' l' -> page_ok x -> no_table (mem k) x ->
  same_outside x (mem k) (mem k') -> bytes_ok (mem k') ->
  (forall y, y ∈ l' -> y ∈ l \/ (y = x /\ no_frame (mem k) x)) ->
  uvm k' l' /\ (forall va, pte_of (mem k') root va = pte_of (mem k) root va) /\
  (forall q, tpath q -> node (mem k') root q = node (mem k) root q) /\
  (forall va, (readable (mem k) va = true -> frame (mem k) va <> x) ->
     ubyte (mem k') va = ubyte (mem k) va).
Proof.
  intros Hu Hi' Hx Hnt Hs Hb Hl. destruct (pt_wf_frame (mem k) (mem k') root l (uv_pt _ _ Hu))
    as (Hn & Hp & Hw).
  { intros q t y Hq E Hy. apply Hs. apply (page_apart t x y); [|done| |done].
    - by apply (pw_page _ _ _ (uv_pt _ _ Hu) q).
    - intros ->. by apply (Hnt q). }
  destruct (same_pte_views _ _ Hp) as (Ev & Ef & Er).
  assert (forall q, tpath q -> node (mem k') root q = node (mem k) root q) as Hn2
    by (intros q [Hq1 Hq2]; apply Hn; [lia|done]).
  split; [|split; [done|split; [done|]]].
  - split; try done.
    + split; [|by apply Hw..]. intros q y Hq E. destruct (pw_page _ _ _ Hw q y Hq E) as [Hy Hyl].
      split; [done|]. intros Hin. destruct (Hl y Hin) as [?|[-> _]]; [done|].
      rewrite Hn2 in E by done. by apply (Hnt q).
    + apply Hu.
    + intros va Hva. rewrite Ev, Ef. intros Hv. destruct (uv_page _ _ Hu va Hva Hv) as (Hf & Hfl & Hfn).
      split; [done|]. split; [|intros q Hq; rewrite Hn2 by done; by apply Hfn].
      intros Hin. destruct (Hl _ Hin) as [?|[E Hnf]]; [done|]. by apply (Hnf va).
    + intros va va' Hva Hva'. rewrite !Ev, !Ef. by apply (uv_inj _ _ Hu).
    + intros va Hva. rewrite Hp. by apply (uv_high _ _ Hu).
  - intros va Hne. unfold ubyte. rewrite Er, Ef. destruct (readable (mem k) va) eqn:Hr; [|done].
    destruct (readable_low _ _ _ Hu Hr) as (Hva & Hv & _). apply Hs.
    destruct (uv_page _ _ Hu va Hva Hv) as [Hf _].
    apply (page_apart (frame (mem k) va) x); [done|done|by apply Hne|].
    unfold in_page, PGSIZE. dlia.
Qed.

Lemma foreign_outside k l x y : foreign (mem k) l y ->
  (x ∈ l \/ ~ no_frame (mem k) x) -> y < x \/ x + PGSIZE <= y.
Proof.
  intros [[U1 U2] U3] Hx. assert (~ in_page x y) as Hn; [|unfold in_page in Hn; lia].
  destruct Hx as [Hx|Hx]; [by apply U1|]. intros Hy. apply Hx. intros va Hva Hv E. subst x.
  by apply (U3 va).
Qed.

(** The same address space seen after such a change, as an extension. *)
Lemma uinc_page_step k l k' l' x : uvm k l -> uvm k' l' -> same_outside x (mem k) (mem k') ->
  (forall va, pte_of (mem k') root va = pte_of (mem k) root va) ->
  (forall q, tpath q -> node (mem k') root q = node (mem k) root q) ->
  (x ∈ l \/ ~ no_frame (mem k) x) -> (forall y, y ∈ l' -> y ∈ l) -> uinc k l k' l'.
Proof.
  intros Hu Hu' Hs Hp Hn Hx Hl. split; [done|]. intros y Hy.
  pose proof (foreign_outside k l x y Hy Hx) as Hout. split; [by apply Hs|].
  destruct (same_pte_views _ _ Hp) as (Ev & Ef & _). destruct Hy as [[U1 U2] U3]. split; [split|].
  - intros z Hz. apply U1. auto.
  - intros q z Hq. rewrite Hn by done. by apply U2.
  - intros va Hva. rewrite Ev, Ef. by apply U3.
Qed.

Lemma uext_page_step k l k' x : uvm k l -> uvm k' l -> same_outside x (mem k) (mem k') ->
  (forall va, pte_of (mem k') root va = pte_of (mem k) root va) ->
  (forall q, tpath q -> node (mem k') root q = node (mem k) root q) -> ~ no_frame (mem k) x -> uext k l k' l.
Proof.
  intros Hu Hu' Hs Hp Hn Hx. destruct (uinc_page_step k l k' l x Hu Hu' Hs Hp Hn) as [_ F]; [by right|done|].
  split; [done|]. split; [done|]. intros y [[U1 U2] U3]. destruct (same_pte_views _ _ Hp) as (Ev & Ef & _). split; [split|].
  - done.
  - intros q z Hq E. apply (U2 q); [done|]. by rewrite Hn.
  - intros va Hva Hv. rewrite <- Ef. apply U3; [done|]. by rewrite Ev.
Qed.

(** A page taken from the allocator and zeroed. *)
Lemma uvm_alloc k x l : uvm k (x :: l) -> exists k1 k2, kalloc k = Ret x k1 /\ zero_page x k1 = Ret tt k2 /\
  x <> 0 /\ page_ok x /\ (x ∉ l) /\ no_table (mem k2) x /\ no_frame (mem k2) x /\
  (forall y, in_page x y -> mem k2 y = 0) /\ uinc k (x :: l) k2 l /\
  (forall va, pte_of (mem k2) root va = pte_of (mem k) root va) /\
  (forall va, ubyte (mem k2) va = ubyte (mem k) va) /\
  (forall q, tpath q -> node (mem k2) root q = node (mem k) root q).
Proof.
  intros Hu. destruct (kalloc_zero k x l (uv_inv _ _ Hu))
    as (Hx & Hx0 & Hxl & k1 & k2 & E1 & E2 & Hi2 & Hs & Hz & Hb).
  assert (no_table (mem k) x) as Hnt.
  { intros q Hq E. destruct (pw_page _ _ _ (uv_pt _ _ Hu) q x Hq E) as [_ Hn]. apply Hn. by left. }
  assert (no_frame (mem k) x) as Hnf.
  { intros va Hva Hv E. destruct (uv_page _ _ Hu va Hva Hv) as (_ & Hn & _). apply Hn. rewrite E. by left. }
  destruct (uvm_page_step k (x :: l) k2 l x Hu Hi2 Hx Hnt Hs) as (U2 & Hp & Hn & Hub).
  { apply Hb, Hu. }
  { intros y Hy. left. by right. }
  exists k1, k2. split; [done|]. split; [done|]. split; [done|]. split; [done|]. split; [done|].
  destruct (same_pte_views _ _ Hp) as (Ev & Ef & Er).
  split; [intros q Hq; rewrite Hn by done; by apply Hnt|].
  split; [intros va Hva; rewrite Ev, Ef; by apply Hnf|].
  split; [done|]. split.
  - apply (uinc_page_step k (x :: l) k2 l x); try done; [left; by left|]. intros y Hy. by right.
  - split; [done|]. split; [|done]. intros va. apply Hub. intros Hr.
    destruct (readable_low _ _ _ Hu Hr) as (Hva & Hv & _). by apply Hnf.
Qed.

(** A private page given back. *)
Lemma uvm_free k l x : uvm k l -> page_ok x -> x ∉ l -> no_table (mem k) x -> no_frame (mem k) x ->
  exists k', kfree x k = Ret tt k' /\ uvm k' (x :: l) /\
    (forall va, pte_of (mem k') root va = pte_of (mem k) root va) /\
    (forall va, ubyte (mem k') va = ubyte (mem k) va) /\ same_outside x (mem k) (mem k') /\
    (forall q, tpath q -> node (mem k') root q = node (mem k) root q).
Proof.
  intros Hu Hx Hxl Hnt Hnf.
  assert (exists k', kfree x k = Ret tt k' /\ bytes_ok (mem k')) as (k' & E & Hb).
  { destruct Hx as [Ha Hr]. eexists. split.
    - unfold kfree. rewrite Ha. destruct (Z.ltb_spec x kend); [lia|].
      destruct (Z.leb_spec PHYSTOP x); [lia|]. reflexivity.
    - apply st_bytes_ok, fill_bytes_ok, Hu. }
  destruct (kfree_ok k l x (uv_inv _ _ Hu) Hx Hxl) as (k2 & E2 & Hi2 & Hs). rewrite E in E2. simplify_eq.
  destruct (uvm_page_step k l k2 (x :: l) x Hu Hi2 Hx Hnt Hs Hb) as (U2 & Hp & Hn & Hub).
  { intros y Hy. apply elem_of_cons in Hy as [->|Hy]; [by right|by left]. }
  exists k2. split; [done|]. split; [done|]. split; [done|]. split; [|done].
  intros va. apply Hub. intros Hr. destruct (readable_low _ _ _ Hu Hr) as (Hva & Hv & _). by apply Hnf.
Qed.
End uvm.

(** ** Growing the tables and mapping a page *)
Section space.
Context `{KernelEnd}.
Context (root sz : Z).

Lemma ext_page k l k' l' f : ext root k l k' l' -> page_ok f -> f ∉ l -> no_table root (mem k) f ->
  (f ∉ l') /\ no_table root (mem k') f /\ forall y, in_page f y -> kmem_inv k l -> pt_wf (mem k) root l ->
    mem k' y = mem k y.
Proof.
  intros [I W (tk & -> & T) M F B _] Hf Hfl Hnt.
  split; [intros Hin; apply Hfl, elem_of_app; by right|]. split.
  - intros q Hq E. destruct (T q f Hq E) as [E'|Hin]; [by apply (Hnt q)|].
    apply Hfl, elem_of_app. by left.
  - intros y Hy Hi Hw. apply F. split.
    + intros z Hz Hzy. assert (page_ok z) as Hpz by (destruct Hi as [_ _ HF]; by eapply Forall_forall in HF).
      destruct (decide (z = f)) as [->|Hne]; [done|].
      destruct (page_apart z f y Hpz Hf Hne Hzy); unfold in_page in Hy; lia.
    + intros q z Hq E Hzy. destruct (pw_page _ _ _ Hw q z Hq E) as [Hpz _].
      destruct (decide (z = f)) as [->|Hne]; [by apply (Hnt q)|].
      destruct (page_apart z f y Hpz Hf Hne Hzy); unfold in_page in Hy; lia.
Qed.

(** The entries of the page at [va] after mapping it to [x], or (None) no
    change. *)
Definition pte_after (o : option (Z * Z * Z)) (m m' : bytes) : Prop :=
  forall a, 0 <= a < MAXVA -> pte_of m' root a =
    match o with
    | Some (va, x, perm) => if a / 4096 =? va / 4096 then leaf_entry x perm else pte_of m root a
    | None => pte_of m root a
    end.

Definition may_map (o : option (Z * Z * Z)) (k : kmem) (l : list Z) : Prop :=
  match o with
  | Some (va, x, perm) => va mod 4096 = 0 /\ 0 <= va < TRAPFRAME /\ valid root (mem k) va = false /\
      page_ok x /\ (x ∉ l) /\ no_table root (mem k) x /\ no_frame root (mem k) x /\ 0 <= perm < 1024
  | None => True
  end.

Section grow.
Context (k : kmem) (l : list Z) (k' : kmem) (l' : list Z) (o : option (Z * Z * Z)).
Context (Hu : uvm root sz k l) (Hx : ext root k l k' l') (Ho : may_map o k l)
  (Hp : pte_after o (mem k) (mem k')).

(** The page just mapped. *)
Definition is_new (a : Z) : bool :=
  match o with Some (va, _, _) => a / 4096 =? va / 4096 | None => false end.

Lemma is_new_some a : is_new a = true -> exists va x perm, o = Some (va, x, perm).
Proof. unfold is_new. clear. destruct o as [[[va x] perm]|]; [|done]. intros _. by exists va, x, perm. Qed.

Lemma grow_old a : 0 <= a < MAXVA -> is_new a = false -> pte_of (mem k') root a = pte_of (mem k) root a.
Proof.
  intros Ha Hn. rewrite Hp by done. unfold is_new in Hn. destruct o as [[[va x] perm]|]; [|done].
  by rewrite Hn.
Qed.

Lemma grow_new a va x perm : o = Some (va, x, perm) -> is_new a = true -> 0 <= a < MAXVA ->
  0 <= a < TRAPFRAME /\ pte_of (mem k') root a = leaf_entry x perm /\ valid root (mem k') a = true /\
  frame root (mem k') a = x /\ valid root (mem k) a = false.
Proof.
  intros E Hn Ha. rewrite E in *. unfold is_new in Hn. rewrite E in Hn.
  destruct Ho as (Hal & Hva & Hv & Hpx & Hxl & _ & _ & Hperm).
  pose proof (page_ok_range x Hpx) as Hr. unfold PGSIZE in Hr.
  assert (pte_of (mem k') root a = leaf_entry x perm) as Ep by (rewrite Hp by done; by rewrite Hn).
  apply Z.eqb_eq in Hn. destruct trapframe_max as [E1 E2].
  split; [dlia|]. split; [done|]. unfold valid, frame. rewrite Ep.
  split; [apply leaf_entry_valid; [lia|done]|].
  split; [apply leaf_entry_pa; [lia|apply Hpx|done]|]. unfold valid in Hv.
  by rewrite (pte_of_vpn _ _ a va Hn).
Qed.

Lemma grow_frame_old a : 0 <= a < TRAPFRAME -> valid root (mem k) a = true ->
  (frame root (mem k) a ∉ l') /\ no_table root (mem k') (frame root (mem k) a) /\
  forall y, in_page (frame root (mem k) a) y -> mem k' y = mem k y.
Proof.
  intros Ha Hv. destruct (uv_page _ _ _ _ Hu a Ha Hv) as (Hf & Hfl & Hnt).
  destruct (ext_page k l k' l' _ Hx Hf Hfl Hnt) as (H1 & H2 & H3). split; [done|]. split; [done|].
  intros y Hy. apply H3; [done|apply Hu|apply Hu].
Qed.

Lemma grow_new_page va x perm : o = Some (va, x, perm) ->
  page_ok x /\ (x ∉ l') /\ no_table root (mem k') x /\ no_frame root (mem k) x /\
  forall y, in_page x y -> mem k' y = mem k y.
Proof.
  intros E. rewrite E in Ho. destruct Ho as (_ & _ & _ & Hpx & Hxl & Hnt & Hnf & _).
  destruct (ext_page k l k' l' x Hx Hpx Hxl Hnt) as (H1 & H2 & H3).
  split; [done|]. split; [done|]. split; [done|]. split; [done|].
  intros y Hy. apply H3; [done|apply Hu|apply Hu].
Qed.

(** Every valid user page after the step is an old one or the new one. *)
Lemma grow_cases a : 0 <= a < TRAPFRAME -> valid root (mem k') a = true ->
  (is_new a = false /\ valid root (mem k) a = true /\ frame root (mem k') a = frame root (mem k) a) \/
  (is_new a = true /\ exists va x perm, o = Some (va, x, perm) /\ frame root (mem k') a = x).
Proof.
  intros Ha Hv. destruct trapframe_max as [E1 E2].
  destruct (is_new a) eqn:En.
  - right. split; [done|]. destruct (is_new_some a En) as (va & x & perm & Eo).
    exists va, x, perm. split; [done|]. apply (grow_new a va x perm Eo); [done|lia].
  - left. split; [done|]. unfold valid, frame in *. rewrite grow_old in * by (done || lia). done.
Qed.

Lemma grow_uvm : uvm root sz k' l'.
Proof.
  destruct trapframe_max as [E1 E2]. split.
  - apply Hx.
  - apply Hx.
  - apply Hx, Hu.
  - apply Hu.
  - intros a Ha Hv. destruct (grow_cases a Ha Hv) as [(_ & Hv0 & ->)|(_ & va & x & perm & Eo & ->)].
    + destruct (uv_page _ _ _ _ Hu a Ha Hv0) as (Hf & _ & _).
      destruct (grow_frame_old a Ha Hv0) as (H1 & H2 & _). done.
    + destruct (grow_new_page va x perm Eo) as (H1 & H2 & H3 & _). done.
  - intros a b Ha Hb Hva Hvb.
    destruct (grow_cases a Ha Hva) as [(_ & Ha0 & ->)|(Na & va & x & perm & Eo & ->)],
             (grow_cases b Hb Hvb) as [(_ & Hb0 & ->)|(Nb & va' & x' & perm' & Eo' & ->)].
    + by apply (uv_inj _ _ _ _ Hu).
    + intros E. destruct (grow_new_page va' x' perm' Eo') as (_ & _ & _ & Hnf & _).
      by destruct (Hnf a Ha Ha0).
    + intros E. destruct (grow_new_page va x perm Eo) as (_ & _ & _ & Hnf & _).
      by destruct (Hnf b Hb Hb0).
    + intros _. rewrite Eo in Eo'. simplify_eq. unfold is_new in Na, Nb. rewrite Eo in Na, Nb.
      apply Z.eqb_eq in Na, Nb. congruence.
  - intros a Ha. destruct (is_new a) eqn:En.
    + destruct (is_new_some a En) as (va & x & perm & Eo).
      destruct (grow_new a va x perm Eo En) as (? & _); lia.
    + rewrite grow_old by (done || lia). apply (uv_high _ _ _ _ Hu a Ha).
Qed.

Lemma grow_foreign y : foreign root (mem k) l y ->
  (match o with Some (_, x, _) => ~ in_page x y | None => True end) ->
  mem k' y = mem k y /\ foreign root (mem k') l' y.
Proof.
  intros [[U1 U2] U3] Hny. split; [by apply Hx|].
  destruct Hx as [_ _ (tk & El & T) _ _ _ _]. split; [split|].
  - intros z Hz. apply U1. rewrite El. apply elem_of_app. by right.
  - intros q z Hq E. destruct (T q z Hq E) as [E'|Hin]; [by apply (U2 q)|].
    apply U1. rewrite El. apply elem_of_app. by left.
  - intros a Ha Hv. destruct (grow_cases a Ha Hv) as [(_ & Hv0 & ->)|(_ & va & x & perm & Eo & ->)].
    + by apply U3.
    + by rewrite Eo in Hny.
Qed.

Lemma grow_back y : foreign root (mem k') l' y ->
  foreign root (mem k) l y /\ match o with Some (_, x, _) => ~ in_page x y | None => True end.
Proof.
  intros [[U1 U2] U3]. destruct trapframe_max as [E1 E2].
  assert (forall va x perm, o = Some (va, x, perm) -> ~ in_page x y) as Hnew.
  { intros va x perm Eo. pose proof Ho as Ho'. rewrite Eo in Ho'. destruct Ho' as (Hal & Hva & _).
    destruct (grow_new va va x perm Eo) as (_ & _ & Hv & <- & _); [|lia|by apply U3].
    unfold is_new. rewrite Eo. apply Z.eqb_refl. }
  split; [split; [split|]|].
  - intros z Hz. destruct (ex_used _ _ _ _ _ Hx z Hz) as [Hin|(q & Hq & E)]; [by apply U1|by apply (U2 q)].
  - intros q z Hq E. apply (U2 q); [done|]. by apply (ex_mono _ _ _ _ _ Hx).
  - intros a Ha Hv. assert (is_new a = false) as Hn.
    { destruct (is_new a) eqn:En; [|done]. destruct (is_new_some a En) as (va & x & perm & Eo).
      destruct (grow_new a va x perm Eo En) as (_ & _ & _ & _ & Hv'); [lia|congruence]. }
    assert (pte_of (mem k') root a = pte_of (mem k) root a) as Ep by (apply grow_old; [lia|done]).
    assert (frame root (mem k) a = frame root (mem k') a) as -> by (unfold frame; by rewrite Ep).
    apply U3; [done|]. unfold valid in *. by rewrite Ep.
  - clear - Hnew. destruct o as [[[va x] perm]|]; [by eapply Hnew|done].
Qed.

Lemma grow_ubyte a : is_new a = false -> ubyte root (mem k') a = ubyte root (mem k) a.
Proof.
  intros Hn. unfold ubyte.
  destruct (readable root (mem k) a) eqn:Hr.
  - destruct (readable_low root sz _ _ _ Hu Hr) as (Ha & Hv & HU). destruct trapframe_max as [E1 E2].
    assert (pte_of (mem k') root a = pte_of (mem k) root a) as Ep by (apply grow_old; [lia|done]).
    assert (readable root (mem k') a = true) as -> by (unfold readable, valid in *; by rewrite Ep).
    assert (frame root (mem k') a = frame root (mem k) a) as -> by (unfold frame; by rewrite Ep).
    apply (grow_frame_old a Ha Hv). unfold in_page, PGSIZE. dlia.
  - assert (readable root (mem k') a = false) as ->; [|done].
    destruct (Z.leb_spec 0 a), (Z.ltb_spec a MAXVA); unfold readable in *; zbool; try done; try lia; cbn in *.
    unfold valid in *. by rewrite grow_old.
Qed.
End grow.
End space.

(** ** Page faults *)
Section faults.
Context `{KernelEnd}.
Context (root sz : Z).

Lemma mapped_one k k' va x perm : va mod PGSIZE = 0 -> 
  mapped root (mem k) (mem k') va x 1 perm -> pte_after root (Some (va, x, perm)) (mem k) (mem k').
Proof.
  intros Ha Hm a Har. rewrite (Hm a Har). unfold PGSIZE in *.
  destruct (Z.eqb_spec (a / 4096) (va / 4096)), (Z.leb_spec va a), (Z.ltb_spec a (va + 1 * 4096)); cbn [andb];
    try done; try (exfalso; dlia). f_equal. dlia.
Qed.

Lemma mapped_zero k k' va x perm :
  mapped root (mem k) (mem k') va x 0 perm -> pte_after root None (mem k) (mem k').
Proof.
  intros Hm a Har. rewrite (Hm a Har). destruct (Z.leb_spec va a), (Z.ltb_spec a (va + 0 * PGSIZE)); cbn; done || lia.
Qed.

(** mappages of one unmapped user page with a page just allocated, which is
    given back on failure *)
Definition map_page (page va perm : Z) : M kmem Z :=
  r <- mappages root va PGSIZE page perm ;;
  if negb (r =? 0) then kfree page ;;; ret 0 else ret page.

Lemma map_page_run k2 l x va perm : uvm root sz k2 l -> page_ok x -> x ∉ l -> no_table root (mem k2) x -> no_frame root (mem k2) x ->
  va mod PGSIZE = 0 -> 0 <= va < TRAPFRAME -> valid root (mem k2) va = false -> 0 <= perm < 1024 ->
  exists r k' l', map_page x va perm k2 = Ret r k' /\ uvm root sz k' l' /\ (length l <= length l' + 2)%nat /\
    (forall y, foreign root (mem k') l' y -> foreign root (mem k2) l y /\ ~ in_page x y) /\
    (forall y, foreign root (mem k2) l y -> ~ in_page x y -> mem k' y = mem k2 y /\ foreign root (mem k') l' y) /\
    (forall a, a / 4096 <> va / 4096 -> ubyte root (mem k') a = ubyte root (mem k2) a) /\
    (forall a y, 0 <= a < TRAPFRAME -> valid root (mem k2) a = true -> in_page (frame root (mem k2) a) y -> mem k' y = mem k2 y) /\
    ((r = 0 /\ pte_after root None (mem k2) (mem k') /\ (forall a, ubyte root (mem k') a = ubyte root (mem k2) a) /\ (length l' <= 1)%nat) \/
     (r = x /\ pte_after root (Some (va, x, perm)) (mem k2) (mem k') /\ forall y, in_page x y -> mem k' y = mem k2 y)).
Proof.
  intros U2 Hx Hxl Hnt Hnf Ha Hva Hv Hperm. destruct trapframe_max as [T1 T2]. unfold map_page. pose proof (page_ok_range x Hx) as Hxr.
  destruct (mappages_run root va PGSIZE x perm k2 l (uv_inv _ _ _ _ U2) (uv_pt _ _ _ _ U2) Ha)
    as (r & k3 & l3 & E3 & X3 & Ln3 & Hr); try (unfold PGSIZE in *; lia || done).
  { intros a Haa. unfold valid in Hv. rewrite (pte_of_vpn _ _ a va); [done|]. unfold PGSIZE in *. dlia. }
  rewrite (bind_step _ _ _ _ _ E3). change (PGSIZE / PGSIZE) with 1 in Hr, Ln3.
  destruct Hr as [[-> Hm]|(-> & -> & j & Hj & Hm)].
  - apply mapped_one in Hm; [|done]. cbn [negb Z.eqb]. assert (may_map root (Some (va, x, perm)) k2 l) as Ho by (unfold PGSIZE in Ha; done).
    exists x, k3, l3. split; [done|]. split; [by eapply grow_uvm|]. split; [lia|].
    split; [intros y Hy; by apply (grow_back root k2 l k3 l3 _ X3 Ho Hm) in Hy|]. split; [|split; [|split]].
    + intros y Hy Hxy. by apply (grow_foreign root k2 l k3 l3 _ X3 Ho Hm).
    + intros a Hne. apply (grow_ubyte root sz k2 l k3 l3 _ U2 X3 Ho Hm). by apply Z.eqb_neq.
    + intros a y Haa Hva' Hy. by apply (grow_frame_old root sz k2 l k3 l3 U2 X3 a).
    + right. split; [done|]. split; [done|]. by apply (grow_new_page root sz k2 l k3 l3 _ U2 X3 Ho va x perm eq_refl).
  - assert (j = 0) as -> by lia. apply mapped_zero in Hm. cbn [negb Z.eqb].
    assert (uvm root sz k3 []) as U3 by (by apply (grow_uvm root sz k2 l k3 [] None)).
    destruct (ext_page root k2 l k3 [] x X3 Hx Hxl Hnt) as (_ & Hnt3 & _).
    assert (no_frame root (mem k3) x) as Hnf3.
    { intros a Haa. unfold valid, frame. rewrite Hm by lia. by apply Hnf. }
    destruct (uvm_free root sz k3 [] x U3 Hx (not_elem_of_nil x) Hnt3 Hnf3) as (k4 & E4 & U4 & P4 & B4 & S4 & N4).
    rewrite (bind_step _ _ _ _ _ E4). exists 0, k4, [x].
    assert (forall a, ubyte root (mem k4) a = ubyte root (mem k2) a) as Hub by (intros a; rewrite B4; by apply (grow_ubyte root sz k2 l k3 [] None U2 X3 I Hm)).
    split; [done|]. split; [done|]. split; [cbn in *; lia|]. split; [|split; [|split; [done|split]]].
    + intros y [[V1 V2] V3]. destruct (same_pte_views root _ _ P4) as (Ev & Ef & _). split; [|apply V1; by left].
      apply (grow_back root k2 l k3 [] None X3 I Hm). split; [split|].
      * intros z Hz. by apply elem_of_nil in Hz.
      * intros q z Hq. rewrite <- N4 by done. by apply V2.
      * intros a Haa. rewrite <- Ev, <- Ef. by apply V3.
    + intros y Hy Hxy. destruct (grow_foreign root k2 l k3 [] None X3 I Hm y Hy I) as [E [[V1 V2] V3]].
      destruct (same_pte_views root _ _ P4) as (Ev & Ef & _). split; [rewrite S4; [done|unfold in_page in Hxy; lia]|]. split; [split|].
      * intros z Hz. by apply list_elem_of_singleton in Hz as ->.
      * intros q z Hq. rewrite N4 by done. by apply V2.
      * intros a Haa. rewrite Ev, Ef. by apply V3.
    + intros a y Haa Hva' Hy. destruct (grow_frame_old root sz k2 l k3 [] U2 X3 a Haa Hva') as (_ & _ & Hs). rewrite S4; [by apply Hs|].
      destruct (uv_page _ _ _ _ U2 a Haa Hva') as (Hpf & _). assert (frame root (mem k2) a <> x) as Hne by by apply Hnf.
      destruct (page_apart (frame root (mem k2) a) x y Hpf Hx Hne Hy); lia.
    + left. split; [done|]. split; [|done]. intros a Haa. rewrite P4. by apply Hm.
Qed.

(** Undoing the view of uvm_alloc *)
Lemma taken_back k x l k2 y : (forall va, pte_of (mem k2) root va = pte_of (mem k) root va) ->
  (forall q, tpath q -> node (mem k2) root q = node (mem k) root q) ->
  foreign root (mem k2) l y -> ~ in_page x y -> foreign root (mem k) (x :: l) y.
Proof.
  intros P2 N2 [[U1 U2] U3] Hxy. destruct (same_pte_views root _ _ P2) as (Ev & Ef & _). split; [split|].
  - intros z Hz. apply elem_of_cons in Hz as [->|Hz]; [done|by apply U1].
  - intros q z Hq. rewrite <- N2 by done. by apply U2.
  - intros va Hva. rewrite <- Ev, <- Ef. by apply U3.
Qed.

(** kalloc, memset, mappages of one unmapped user page; on failure the page
    is given back. *)
Definition map_new_page (va perm : Z) : M kmem Z :=
  page <- kalloc ;;
  if page =? 0 then ret 0
  else
    zero_page page ;;;
    r <- mappages root va PGSIZE page perm ;;
    if negb (r =? 0) then kfree page ;;; ret 0 else ret page.

Lemma map_new_page_run k l va perm : uvm root sz k l -> va mod PGSIZE = 0 -> 0 <= va < TRAPFRAME ->
  valid root (mem k) va = false -> 0 <= perm < 1024 ->
  exists r k' l', map_new_page va perm k = Ret r k' /\ uext root sz k l k' l' /\
    (forall x, ubyte root (mem k') x = ubyte root (mem k) x) /\
    ((r = 0 /\ pte_after root None (mem k) (mem k') /\ (length l' <= 1)%nat) \/
     (page_ok r /\ pte_after root (Some (va, r, perm)) (mem k) (mem k'))).
Proof.
  intros Hu Ha Hva Hv Hperm. destruct trapframe_max as [T1 T2]. unfold map_new_page.
  destruct l as [|x l].
  { rewrite (bind_step _ _ _ _ _ (kalloc_empty k (uv_inv _ _ _ _ Hu))). cbn. exists 0, k, [].
    split; [done|]. split; [by apply uext_refl|]. split; [done|]. left. split; [done|]. split; [by intros a _|cbn; lia]. }
  destruct (uvm_alloc root sz k x l Hu)
    as (k1 & k2 & E1 & E2 & Hx0 & Hx & Hxl & Hnt & Hnf & Hz & X2 & P2 & B2 & N2).
  rewrite (bind_step _ _ _ _ _ E1), (proj2 (Z.eqb_neq x 0) Hx0), (bind_step _ _ _ _ _ E2).
  pose proof X2 as [U2 F2]. destruct (same_pte_views root _ _ P2) as (Ev & Ef & Er). rewrite <- Ev in Hv.
  destruct (map_page_run k2 l x va perm U2 Hx Hxl Hnt Hnf Ha Hva Hv Hperm) as (r & k' & l' & E & U & _ & Bk & Fo & Bo & _ & Hr).
  exists r, k', l'. split; [exact E|]. split; [split; [done|split]|].
  { intros y Hy. destruct (F2 y Hy) as [E2' F]. assert (~ in_page x y) as Hxy by (apply Hy; by left).
    destruct (Fo y F Hxy) as [E' F']. split; [congruence|done]. }
  { intros y Hy. destruct (Bk y Hy) as [F Hxy]. by apply (taken_back k x l k2). }
  destruct Hr as [(-> & Hp & B & Ln)|(-> & Hp & Hs)].
  - split; [intros a; by rewrite B|]. left. split; [done|]. split; [|done]. intros a Haa. by rewrite (Hp a Haa), P2.
  - split; [|right; split; [done|]; intros a Haa; by rewrite (Hp a Haa), P2].
    intros a. rewrite <- B2. destruct (decide (a / 4096 = va / 4096)) as [En|En]; [|by apply Bo].
    assert (ubyte root (mem k2) a = 0) as ->.
    { unfold ubyte, readable, valid in *. rewrite (pte_of_vpn _ _ a va En), Hv. by rewrite andb_false_r. }
    unfold ubyte. destruct (readable root (mem k') a) eqn:Hr; [|done]. unfold frame. rewrite Hp by (unfold PGSIZE in *; dlia).
    rewrite (proj2 (Z.eqb_eq _ _) En). pose proof (page_ok_range x Hx). rewrite leaf_entry_pa; [|unfold PGSIZE in *; lia|apply Hx|done].
    rewrite Hs, Hz; [done| |]; unfold in_page, PGSIZE; dlia.
Qed.

Lemma pgrounddown_page va : PGROUNDDOWN va mod PGSIZE = 0 /\ PGROUNDDOWN va / 4096 = va / 4096 /\
  PGROUNDDOWN va <= va < PGROUNDDOWN va + PGSIZE /\ va - PGROUNDDOWN va = va mod 4096.
Proof. rewrite PGROUNDDOWN_div. unfold PGSIZE. repeat split; dlia. Qed.

(** Reading the entry of a mapped address through walk. *)
Lemma table_slot k l va u : pt_wf (mem k) root l -> table_of (mem k) root va = Some u ->
  (u + 8 * PX 0 va =? 0) = false /\ ld64 (mem k) (u + 8 * PX 0 va) = pte_of (mem k) root va.
Proof.
  intros Hw Eu. split; [|unfold pte_of; by rewrite Eu].
  destruct (leaf_table (mem k) root l Hw va u Eu) as (Hp & _ & Hix).
  apply Z.eqb_neq. apply page_ok_range in Hp. unfold idx_ok in Hix. lia.
Qed.

Lemma ismapped_run k l va : uvm root sz k l -> va < MAXVA ->
  ismapped root va k = Ret (valid root (mem k) va) k.
Proof.
  intros Hu Hva. unfold ismapped. rewrite (bind_step _ _ _ _ _ (walk_pure root va k Hva)).
  destruct (table_of (mem k) root va) as [u|] eqn:Eu.
  - destruct (table_slot k l va u (uv_pt _ _ _ _ Hu) Eu) as [-> E].
    unfold load64, bind, gets. rewrite E. done.
  - unfold valid, pte_of. by rewrite Eu.
Qed.

Lemma walkaddr_run k l va : uvm root sz k l -> 0 <= va ->
  walkaddr root va k = Ret (if readable root (mem k) va then frame root (mem k) va else 0) k.
Proof.
  intros Hu Hva. unfold walkaddr, readable. rewrite (proj2 (Z.leb_le 0 va)) by done.
  destruct (Z.leb_spec MAXVA va) as [Hm|Hm].
  { by rewrite (proj2 (Z.ltb_ge va MAXVA)). }
  rewrite (proj2 (Z.ltb_lt va MAXVA)) by done. cbn [andb].
  rewrite (bind_step _ _ _ _ _ (walk_pure root va k Hm)).
  destruct (table_of (mem k) root va) as [u|] eqn:Eu.
  - destruct (table_slot k l va u (uv_pt _ _ _ _ Hu) Eu) as [-> E].
    unfold load64. rewrite (bind_step (gets _) _ k (ld64 (mem k) (u + 8 * PX 0 va)) k), E by done.
    unfold valid, frame. by destruct (has _ PTE_V), (has _ PTE_U).
  - unfold valid, pte_of. by rewrite Eu.
Qed.

Definition fault_perm : Z := Z.lor (Z.lor PTE_W PTE_U) PTE_R.

Lemma vmfault_run k l va : uvm root sz k l -> 0 <= va ->
  exists r k' l', vmfault sz root root va k = Ret r k' /\ uext root sz k l k' l' /\
    (forall x, ubyte root (mem k') x = ubyte root (mem k) x) /\
    ((r = 0 /\ pte_after root None (mem k) (mem k') /\ (sz <= va \/ valid root (mem k) va = true \/ (length l' <= 1)%nat)) \/
     (va < sz /\ valid root (mem k) va = false /\ page_ok r /\
      pte_after root (Some (PGROUNDDOWN va, r, fault_perm)) (mem k) (mem k'))).
Proof.
  intros Hu Hva. unfold vmfault. pose proof (uv_sz _ _ _ _ Hu) as Hsz. destruct trapframe_max as [T1 T2].
  destruct (Z.leb_spec sz va) as [Hge|Hlt].
  { exists 0, k, l. split; [done|]. split; [by apply uext_refl|]. split; [done|]. left. split; [done|]. split; [done|by left]. }
  destruct (pgrounddown_page va) as (Hp1 & Hp2 & Hp3 & _).
  assert (0 <= PGROUNDDOWN va) by (rewrite PGROUNDDOWN_div; dlia).
  cbv zeta. rewrite (bind_step _ _ _ _ _ (ismapped_run k l (PGROUNDDOWN va) Hu ltac:(lia))).
  assert (valid root (mem k) (PGROUNDDOWN va) = valid root (mem k) va) as Ev
    by (unfold valid; by rewrite (pte_of_vpn _ _ _ va Hp2)).
  destruct (valid root (mem k) (PGROUNDDOWN va)) eqn:Hv.
  { exists 0, k, l. split; [done|]. split; [by apply uext_refl|]. split; [done|]. left. split; [done|]. split; [done|]. right. by left. }
  destruct (map_new_page_run k l (PGROUNDDOWN va) fault_perm Hu Hp1 ltac:(lia) Hv)
    as (r & k' & l' & E & X & B & Hr).
  { vm_compute. split; congruence. }
  exists r, k', l'. split; [exact E|]. split; [done|]. split; [done|].
  destruct Hr as [(? & ? & ?)|[? ?]]; [left; auto|]. right. by rewrite <- Ev.
Qed.

Lemma fault_mapped m m' r va : 0 <= va < MAXVA -> page_ok r -> pte_after root (Some (PGROUNDDOWN va, r, fault_perm)) m m' ->
  readable root m' va = true /\ r = frame root m' va.
Proof.
  intros Hva Hp Hpte. destruct (pgrounddown_page va) as (_ & Hp2 & _).
  assert (pte_of m' root va = leaf_entry r fault_perm) as Ep by (rewrite Hpte by lia; by rewrite Hp2, Z.eqb_refl).
  pose proof (page_ok_range r Hp) as Hrr.
  assert (0 <= r < 2 ^ 56 /\ 0 <= fault_perm < 1024) as [Hr1 Hr2]
    by (split; [unfold PGSIZE in *; lia|vm_compute; split; congruence]).
  split.
  - unfold readable, valid. rewrite Ep, leaf_entry_valid by done.
    rewrite (proj2 (Z.leb_le 0 va)), (proj2 (Z.ltb_lt va MAXVA)) by lia. cbn [andb].
    change PTE_U with (Z.shiftl 1 4). rewrite leaf_entry_flag by (done || lia). done.
  - unfold frame. rewrite Ep. symmetry. apply leaf_entry_pa; [done|apply Hp|done].
Qed.

(** *** What a process may load and store

    A page below its size that has no valid entry yet counts as its own: the
    page fault handler will map it. *)
Definition lazy (m : bytes) (va : Z) : bool :=
  (0 <=? va) && (va / 4096 * 4096 <? sz) && negb (valid root m va).
Definition may_read (m : bytes) (va : Z) : bool := readable root m va || lazy m va.
Definition may_write (m : bytes) (va : Z) : bool :=
  (readable root m va && has (pte_of m root va) PTE_W) || lazy m va.

Lemma access_page m a b : 0 <= a -> 0 <= b -> a / 4096 = b / 4096 -> may_read m a = may_read m b /\ may_write m a = may_write m b.
Proof.
  intros Ha Hb E. destruct trapframe_max as [T1 T2].
  unfold may_read, may_write, readable, lazy, valid. rewrite (pte_of_vpn m root a b E), E.
  rewrite !(proj2 (Z.leb_le 0 _)) by lia. assert ((a <? MAXVA) = (b <? MAXVA)) as ->; [|done].
  apply Bool.eq_true_iff_eq. rewrite !Z.ltb_lt. rewrite T2. dlia.
Qed.

(** The rights depend on the entries only. *)
Lemma access_same m m' : 0 <= sz <= TRAPFRAME -> (forall a, 0 <= a < MAXVA -> pte_of m' root a = pte_of m root a) ->
  forall a, may_read m' a = may_read m a /\ may_write m' a = may_write m a.
Proof.
  intros Hsz Hp a. destruct trapframe_max as [T1 T2]. unfold may_read, may_write, readable, lazy, valid.
  destruct (Z.leb_spec 0 a), (Z.ltb_spec a MAXVA); cbn [andb orb]; try done; [by rewrite Hp by lia|].
  rewrite (proj2 (Z.ltb_ge _ sz)) by dlia. done.
Qed.

(** A page fault changes nobody's rights. *)
Lemma access_fault m m' va r : 0 <= sz <= TRAPFRAME -> 0 <= va -> va mod PGSIZE = 0 -> va < sz -> valid root m va = false -> page_ok r ->
  pte_after root (Some (PGROUNDDOWN va, r, fault_perm)) m m' ->
  forall a, may_read m' a = may_read m a /\ may_write m' a = may_write m a.
Proof.
  intros Hsz Hva Hal Hlt Hv Hr Hp a. destruct trapframe_max as [T1 T2]. destruct (pgrounddown_page va) as (_ & Hp2 & _).
  destruct (decide (0 <= a /\ a / 4096 = va / 4096)) as [[Ha E]|Hne].
  - destruct (access_page m a va Ha Hva E) as [-> ->]. destruct (access_page m' a va Ha Hva E) as [-> ->].
    destruct (fault_mapped m m' r va ltac:(lia) Hr Hp) as [Hrd _]. unfold may_read, may_write. rewrite Hrd.
    assert (lazy m va = true) as ->.
    { unfold lazy. rewrite Hv, (proj2 (Z.leb_le 0 va)), (proj2 (Z.ltb_lt _ sz)) by (unfold PGSIZE in *; dlia). done. }
    assert (has (pte_of m' root va) PTE_W = true) as ->; [|by rewrite !orb_true_r].
    rewrite Hp by lia. rewrite Hp2, Z.eqb_refl. change PTE_W with (Z.shiftl 1 2). pose proof (page_ok_range r Hr).
    unfold PGSIZE in *. rewrite leaf_entry_flag; [done|lia|vm_compute; split; congruence|lia].
  - assert (0 <= a < MAXVA -> pte_of m' root a = pte_of m root a) as Ep.
    { intros Ha. rewrite Hp by done. rewrite Hp2, (proj2 (Z.eqb_neq _ _)); [done|]. intros E. apply Hne. split; [lia|done]. }
    unfold may_read, may_write, readable, lazy, valid. destruct (Z.leb_spec 0 a), (Z.ltb_spec a MAXVA); cbn [andb orb]; try done; [by rewrite Ep by lia|].
    rewrite (proj2 (Z.ltb_ge _ sz)) by dlia. done.
Qed.

Lemma high_no_access m va : 0 <= sz <= TRAPFRAME -> MAXVA <= va -> may_read m va = false /\ may_write m va = false.
Proof.
  intros Hsz Hva. destruct trapframe_max as [T1 T2]. unfold may_read, may_write, readable, lazy.
  rewrite (proj2 (Z.ltb_ge va MAXVA)), (proj2 (Z.ltb_ge _ sz)) by dlia. by rewrite !andb_false_r.
Qed.

(** Entries of mapped pages are kept and nobody's rights change. *)
Definition same_rights (m m' : bytes) : Prop :=
  (forall a, may_read m' a = may_read m a /\ may_write m' a = may_write m a) /\
  (forall a, 0 <= a < MAXVA -> valid root m a = true -> pte_of m' root a = pte_of m root a).

Lemma same_rights_trans m1 m2 m3 : same_rights m1 m2 -> same_rights m2 m3 -> same_rights m1 m3.
Proof.
  intros [A1 P1] [A2 P2]. split.
  - intros a. destruct (A1 a) as [<- <-]. apply A2.
  - intros a Ha Hv. rewrite P2; [by apply P1|done|]. unfold valid in *. by rewrite P1.
Qed.

(** pa0 of copyin and copyout: the frame of a readable page, after a page
    fault if need be. *)
Lemma user_page_run k l va0 : uvm root sz k l -> 0 <= va0 -> va0 mod PGSIZE = 0 ->
  exists r k' l', user_page sz root root va0 k = Ret r k' /\ uext root sz k l k' l' /\
    (forall x, ubyte root (mem k') x = ubyte root (mem k) x) /\
    (r <> 0 -> readable root (mem k') va0 = true /\ r = frame root (mem k') va0) /\
    same_rights (mem k) (mem k') /\ (r = 0 -> may_read (mem k) va0 = false \/ (length l' <= 1)%nat).
Proof.
  intros Hu Hva Ha. unfold user_page. pose proof (uv_sz _ _ _ _ Hu) as Hsz. destruct trapframe_max as [T1 T2]. rewrite (bind_step _ _ _ _ _ (walkaddr_run k l va0 Hu Hva)).
  destruct (readable root (mem k) va0) eqn:Hr.
  { destruct (readable_low root sz _ _ _ Hu Hr) as (Hva0 & Hv & _).
    destruct (uv_page _ _ _ _ Hu va0 Hva0 Hv) as (Hp & _ & _). apply page_ok_range in Hp.
    rewrite (proj2 (Z.eqb_neq (frame root (mem k) va0) 0)) by lia.
    exists (frame root (mem k) va0), k, l. split; [done|]. split; [by apply uext_refl|]. split; [done|]. split; [done|]. split; [done|lia]. }
  cbn [Z.eqb]. destruct (vmfault_run k l va0 Hu Hva) as (r & k' & l' & E & X & B & Hres).
  exists r, k', l'. split; [done|]. split; [done|]. split; [done|].
  destruct Hres as [(-> & Hpte & Hz)|(Hlt & Hv & Hp & Hpte)].
  - split; [done|]. split; [split; [by apply access_same|]|]; [intros a Har _; by rewrite (Hpte a Har)|].
    intros _. destruct Hz as [Hz|[Hz|Hz]]; [left|left|by right]; unfold may_read, lazy; rewrite Hr.
    + rewrite (proj2 (Z.ltb_ge _ sz)) by (unfold PGSIZE in *; dlia). by rewrite andb_false_r.
    + rewrite Hz. by rewrite andb_false_r.
  - split; [intros _; by apply (fault_mapped (mem k)); [lia| |]|]. split; [split; [by apply (access_fault (mem k) _ va0 r)|]|].
    + intros a Har Hva'. rewrite (Hpte a Har). destruct (pgrounddown_page va0) as (_ & -> & _).
      destruct (Z.eqb_spec (a / 4096) (va0 / 4096)) as [E'|]; [|done]. unfold valid in *. rewrite (pte_of_vpn _ _ a va0 E') in Hva'. congruence.
    + pose proof (page_ok_range r Hp). lia.
Qed.
End faults.

(** ** Copying *)
Section copying.
Context `{KernelEnd}.
Context (root sz : Z).

(** memmove into the frame of a readable page. *)
Lemma frame_write k l va0 off src s n : uvm root sz k l -> readable root (mem k) va0 = true ->
  va0 mod PGSIZE = 0 -> 0 <= off -> 0 <= n -> off + n <= PGSIZE -> bytes_ok src ->
  let k' := set_mem (blit (mem k) (frame root (mem k) va0 + off) src s n) k in
  uext root sz k l k' l /\
  (forall a, ubyte root (mem k') a =
     if (va0 + off <=? a) && (a <? va0 + off + n) then src (s + (a - (va0 + off))) else ubyte root (mem k) a) /\
  (forall a, pte_of (mem k') root a = pte_of (mem k) root a).
Proof.
  intros Hu Hr Ha Ho Hn Hon Hsrc k'. destruct (readable_low root sz _ _ _ Hu Hr) as (Hva & Hv & HU).
  set (f := frame root (mem k) va0) in *.
  destruct (uv_page _ _ _ _ Hu va0 Hva Hv) as (Hf & Hfl & Hft). fold f in Hf, Hfl, Hft.
  assert (same_outside f (mem k) (mem k')) as Hs by (intros x Hx; apply blit_out; lia).
  assert (kmem_inv k' l) as Hi' by (by apply (kmem_inv_write k l f); [apply Hu|..]).
  assert (bytes_ok (mem k')) as Hb by (apply blit_bytes_ok; [apply Hu|done]).
  destruct (uvm_page_step root sz k l k' l f Hu Hi' Hf Hft Hs Hb) as (U' & Hp & Hnode & Hub).
  { intros y Hy. by left. }
  destruct (same_pte_views root _ _ Hp) as (Ev & Ef & Er).
  split.
  { apply (uext_page_step root sz k l k' f); try done. intros Hnf. by apply (Hnf va0). }
  split; [|exact Hp]. intros a. destruct (decide (a / 4096 = va0 / 4096)) as [E|Hne].
  - assert (pte_of (mem k) root a = pte_of (mem k) root va0) as Ep by (by apply pte_of_vpn).
    assert (readable root (mem k) a = true) as Ra.
    { destruct trapframe_max as [T1 T2]. unfold readable, valid in *. rewrite Ep, HU, Hv.
      unfold PGSIZE in *. rewrite (proj2 (Z.leb_le 0 a)), (proj2 (Z.ltb_lt a MAXVA)) by dlia. done. }
    assert (frame root (mem k) a = f) as Efa by (unfold f, frame; by rewrite Ep).
    unfold ubyte. rewrite Er, Ra, Ef, Efa. cbn [k' mem set_mem].
    unfold PGSIZE in *. assert (a mod 4096 = a - va0) as -> by dlia.
    destruct (Z.leb_spec (va0 + off) a), (Z.ltb_spec a (va0 + off + n)); cbn [andb].
    + rewrite blit_in by lia. f_equal. lia.
    + by rewrite blit_out by lia.
    + by rewrite blit_out by lia.
    + by rewrite blit_out by lia.
  - assert ((va0 + off <=? a) && (a <? va0 + off + n) = false) as ->.
    { unfold PGSIZE in *. destruct (Z.leb_spec (va0 + off) a), (Z.ltb_spec a (va0 + off + n)); cbn [andb];
        try done. exfalso. dlia. }
    apply Hub. intros Ra E. destruct (readable_low root sz _ _ _ Hu Ra) as (Haa & Hva' & _).
    apply Hne. by apply (uv_inj _ _ _ _ Hu).
Qed.

(** Iterations the copy loops need. *)
Definition copy_need (va len : Z) : Z := if 0 <? len then (va mod 4096 + len + 4095) / 4096 else 0.

Lemma copy_need_step va len : 0 < len ->
  let n := Z.min (PGSIZE - va mod 4096) len in
  0 < n /\ n <= len /\ copy_need (va / 4096 * 4096 + 4096) (len - n) < copy_need va len.
Proof.
  intros Hl n. unfold copy_need, PGSIZE in *. rewrite (proj2 (Z.ltb_lt 0 len)) by done.
  destruct (Z.ltb_spec 0 (len - n)); dlia.
Qed.

Definition copyout_result (dstva : Z) (src : bytes) (s len r : Z) (k : kmem) (l : list Z)
    (k' : kmem) (l' : list Z) : Prop :=
  uext root sz k l k' l' /\ (r = 0 \/ r = -1) /\
  (r = 0 -> forall i, 0 <= i < len -> ubyte root (mem k') (dstva + i) = src (s + i)) /\
  (forall a, a < dstva \/ dstva + len <= a -> ubyte root (mem k') a = ubyte root (mem k) a) /\
  same_rights root sz (mem k) (mem k') /\
  (forall a, may_write root sz (mem k) a = false -> ubyte root (mem k') a = ubyte root (mem k) a) /\
  (r = 0 -> forall i, 0 <= i < len -> may_write root sz (mem k) (dstva + i) = true) /\
  (r = -1 -> (exists i, 0 <= i < len /\ may_write root sz (mem k) (dstva + i) = false) \/ (length l' <= 1)%nat).

Lemma same_rights_refl m : same_rights root sz m m.
Proof. done. Qed.

(** A call that fails before it stores anything *)
Lemma copyout_fails dstva src s len k l k1 l1 : 0 < len -> uext root sz k l k1 l1 ->
  (forall a, ubyte root (mem k1) a = ubyte root (mem k) a) -> same_rights root sz (mem k) (mem k1) ->
  (may_write root sz (mem k) dstva = false \/ (length l1 <= 1)%nat) -> copyout_result dstva src s len (-1) k l k1 l1.
Proof.
  intros Hl X B R Hw. split; [done|]. split; [by right|]. split; [done|]. split; [done|]. split; [done|]. split; [done|].
  split; [done|]. intros _. destruct Hw as [Hw|Hw]; [left; exists 0; rewrite Z.add_0_r; split; [lia|done]|by right].
Qed.

(** A call that stores one piece and goes on *)
Lemma copyout_goes_on dstva va' src s n len r k l k2 l2 k' l' : 0 <= n <= len -> (n < len -> va' = dstva + n) ->
  uext root sz k l k2 l2 -> same_rights root sz (mem k) (mem k2) ->
  (forall a, ubyte root (mem k2) a = if (dstva <=? a) && (a <? dstva + n) then src (s + (a - dstva)) else ubyte root (mem k) a) ->
  (forall i, 0 <= i < n -> may_write root sz (mem k) (dstva + i) = true) -> dstva + n <= va' ->
  copyout_result va' src (s + n) (len - n) r k2 l2 k' l' -> copyout_result dstva src s len r k l k' l'.
Proof.
  intros Hn Hva X R B Hw Hge (X' & Hr & Hok & Hfr & R' & Hro & Hall & Hfail). destruct R as [A P].
  assert (forall a, may_write root sz (mem k2) a = may_write root sz (mem k) a) as Aw by (intros a; apply A).
  split; [by eapply uext_trans|]. split; [done|]. split; [|split; [|split; [by eapply same_rights_trans|split; [|split]]]].
  - intros -> i Hi. destruct (Z.lt_ge_cases i n) as [Hin|Hin].
    + rewrite Hfr by lia. rewrite B. rewrite (proj2 (Z.leb_le _ (dstva + i))), (proj2 (Z.ltb_lt (dstva + i) _)) by lia. cbn [andb]. f_equal. lia.
    + replace (dstva + i) with (va' + (i - n)) by lia. rewrite (Hok eq_refl) by lia. f_equal. lia.
  - intros a Ha. assert (n = len \/ n < len) as [->|Hlt] by lia.
    + destruct (Z.lt_ge_cases a va'); rewrite Hfr, B by lia; destruct (Z.leb_spec dstva a), (Z.ltb_spec a (dstva + len)); cbn [andb]; done || lia.
    + specialize (Hva Hlt). rewrite Hfr, B by lia. destruct (Z.leb_spec dstva a), (Z.ltb_spec a (dstva + n)); cbn [andb]; done || lia.
  - intros a Ha. rewrite Hro by (by rewrite Aw). rewrite B.
    destruct (Z.leb_spec dstva a), (Z.ltb_spec a (dstva + n)); cbn [andb]; try done.
    specialize (Hw (a - dstva) ltac:(lia)). replace (dstva + (a - dstva)) with a in Hw by lia. congruence.
  - intros -> i Hi. destruct (Z.lt_ge_cases i n) as [Hin|Hin]; [apply Hw; lia|].
    replace (dstva + i) with (va' + (i - n)) by lia. rewrite <- Aw. apply Hall; [done|lia].
  - intros ->. destruct (Hfail eq_refl) as [(i & Hi & Hf)|?]; [left|by right]. exists (i + n). split; [lia|].
    rewrite <- Aw. replace (dstva + (i + n)) with (va' + i) by lia. done.
Qed.

Lemma copyout_loop fuel : forall dstva src s len k l, uvm root sz k l -> bytes_ok src -> 0 <= dstva ->
  copy_need dstva len < Z.of_nat fuel ->
  exists r k' l', loop fuel (copyout_body sz root root src) (dstva, s, len) k = Ret r k' /\
    copyout_result dstva src s len r k l k' l'.
Proof.
  induction fuel as [|fuel IH]; intros dstva src s len k l Hu Hsrc Hd Hfuel.
  { exfalso. unfold copy_need in Hfuel. destruct (Z.ltb_spec 0 len); [dlia|lia]. }
  destruct trapframe_max as [T1 T2].
  cbn [loop]. unfold copyout_body at 1. unfold bind at 1.
  destruct (Z.ltb_spec 0 len) as [Hl|Hl].
  2: { exists 0, k, l. split; [done|]. split; [by apply uext_refl|]. split; [by left|]. split; [intros; lia|]. split; [done|].
       split; [done|]. split; [done|]. split; [intros; lia|done]. }
  cbv zeta. destruct (pgrounddown_page dstva) as (Hp1 & Hp2 & Hp3 & Hp4).
  assert (0 <= PGROUNDDOWN dstva) as Hp0 by (rewrite PGROUNDDOWN_div; dlia).
  assert (PGROUNDDOWN dstva = dstva / 4096 * 4096) as Hp5 by apply PGROUNDDOWN_div.
  set (va0 := PGROUNDDOWN dstva) in *. pose proof (uv_sz _ _ _ _ Hu) as Hsz.
  destruct (Z.leb_spec MAXVA va0) as [Hm|Hm].
  { exists (-1), k, l. split; [done|]. apply copyout_fails; [done|by apply uext_refl|done|done|]. left. apply high_no_access; [done|lia]. }
  destruct (user_page_run root sz k l va0 Hu Hp0 Hp1) as (pa0 & k1 & l1 & E1 & X1 & B1 & Hr1 & R1 & Hz1).
  destruct (access_page root sz (mem k) dstva va0 Hd Hp0 ltac:(done)) as [Ar Aw].
  rewrite (bind_step _ _ _ _ _ E1). destruct (Z.eqb_spec pa0 0) as [->|Hne].
  { exists (-1), k1, l1. split; [done|]. apply copyout_fails; [done|done|done|done|]. rewrite Aw. destruct (Hz1 eq_refl) as [Hz|?]; [left|by right].
    unfold may_read, may_write in *. apply orb_false_elim in Hz as [-> ->]. done. }
  destruct (Hr1 Hne) as [Rd Epa]. pose proof X1 as [U1 _].
  destruct (readable_low root sz _ _ _ U1 Rd) as (Hva & Hv & _).
  rewrite (bind_step _ _ _ _ _ (walk_pure root va0 k1 Hm)).
  destruct (table_of (mem k1) root va0) as [u|] eqn:Eu.
  2: { unfold valid, pte_of in Hv. by rewrite Eu in Hv. }
  destruct (table_slot root k1 l1 va0 u (uv_pt _ _ _ _ U1) Eu) as [_ Eld].
  unfold load64. rewrite (bind_step (gets _) _ k1 (pte_of (mem k1) root va0) k1) by (unfold gets; by rewrite Eld).
  assert (may_write root sz (mem k1) va0 = has (pte_of (mem k1) root va0) PTE_W) as Ew.
  { unfold may_write, lazy. rewrite Rd, Hv. cbn [andb negb]. by rewrite andb_false_r, orb_false_r. }
  assert (may_write root sz (mem k) dstva = has (pte_of (mem k1) root va0) PTE_W) as Ewk by (rewrite Aw, <- Ew; symmetry; apply R1).
  destruct (has (pte_of (mem k1) root va0) PTE_W); cbn [negb].
  2: { exists (-1), k1, l1. split; [done|]. apply copyout_fails; [done|done|done|done|]. by left. }
  rewrite Hp4, Epa.
  destruct (copy_need_step dstva len Hl) as (Hn1 & Hn2 & Hn3). rewrite <- Hp5 in Hn3.
  set (n := Z.min (PGSIZE - dstva mod 4096) len) in *.
  destruct (frame_write k1 l1 va0 (dstva mod 4096) src s n U1 Rd Hp1) as (X2 & B2 & P2); try done;
    try (unfold PGSIZE in *; dlia).
  set (k2 := set_mem _ k1) in *. cbn [modify bind ret]. unfold bind, modify, ret.
  rewrite wrap_small by (unfold PGSIZE in *; lia).
  destruct (IH (va0 + PGSIZE) src (s + n) (len - n) k2 l1 (proj1 X2) Hsrc) as (r & k' & l' & E & Hres).
  { unfold PGSIZE in *. lia. }
  { unfold PGSIZE. lia. }
  exists r, k', l'. split; [exact E|]. apply (copyout_goes_on dstva (va0 + PGSIZE) src s n len r k l k2 l1); try done; try (unfold PGSIZE in *; lia).
  - by eapply uext_trans.
  - eapply same_rights_trans; [exact R1|]. split; [apply access_same; [done|]|]; intros; apply P2.
  - intros a. rewrite B2, B1. replace (va0 + dstva mod 4096) with dstva by lia. done.
  - intros i Hi. destruct (access_page root sz (mem k) (dstva + i) dstva) as [_ ->]; [lia|lia|unfold PGSIZE in *; dlia|done].
Qed.

Definition copyin_result (dst : bytes) (d srcva len r : Z) (dst' : bytes) (k : kmem) (l : list Z)
    (k' : kmem) (l' : list Z) : Prop :=
  uext root sz k l k' l' /\ (r = 0 \/ r = -1) /\
  (forall a, ubyte root (mem k') a = ubyte root (mem k) a) /\
  (r = 0 -> forall i, 0 <= i < len -> dst' (d + i) = ubyte root (mem k) (srcva + i)) /\
  (forall x, x < d \/ d + len <= x -> dst' x = dst x) /\ (bytes_ok dst -> bytes_ok dst') /\
  same_rights root sz (mem k) (mem k') /\
  (r = 0 -> forall i, 0 <= i < len -> may_read root sz (mem k) (srcva + i) = true) /\
  (r = -1 -> (exists i, 0 <= i < len /\ may_read root sz (mem k) (srcva + i) = false) \/ (length l' <= 1)%nat).

Lemma copyin_loop fuel : forall dst d srcva len k l, uvm root sz k l -> 0 <= srcva < 2 ^ 64 ->
  copy_need srcva len < Z.of_nat fuel ->
  exists dst' r k' l', loop fuel (copyin_body sz root root) (dst, d, srcva, len) k = Ret (dst', r) k' /\
    copyin_result dst d srcva len r dst' k l k' l'.
Proof.
  induction fuel as [|fuel IH]; intros dst d srcva len k l Hu Hs Hfuel.
  { exfalso. unfold copy_need in Hfuel. destruct (Z.ltb_spec 0 len); [dlia|lia]. }
  destruct trapframe_max as [T1 T2].
  cbn [loop]. unfold copyin_body at 1. unfold bind at 1.
  destruct (Z.ltb_spec 0 len) as [Hl|Hl].
  2: { exists dst, 0, k, l. split; [done|]. split; [by apply uext_refl|]. split; [by left|].
       split; [done|]. split; [intros; lia|]. split; [done|]. split; [done|]. split; [done|]. split; [intros; lia|done]. }
  cbv zeta. destruct (pgrounddown_page srcva) as (Hp1 & Hp2 & Hp3 & Hp4).
  assert (0 <= PGROUNDDOWN srcva) as Hp0 by (rewrite PGROUNDDOWN_div; dlia).
  assert (PGROUNDDOWN srcva = srcva / 4096 * 4096) as Hp5 by apply PGROUNDDOWN_div.
  set (va0 := PGROUNDDOWN srcva) in *.
  destruct (user_page_run root sz k l va0 Hu Hp0 Hp1) as (pa0 & k1 & l1 & E1 & X1 & B1 & Hr1 & R1 & Hz1).
  destruct (access_page root sz (mem k) srcva va0 ltac:(lia) Hp0 ltac:(done)) as [Ar _].
  rewrite (bind_step _ _ _ _ _ E1). destruct (Z.eqb_spec pa0 0) as [->|Hne].
  { exists dst, (-1), k1, l1. split; [done|]. split; [done|]. split; [by right|]. split; [done|]. split; [done|]. split; [done|].
    split; [done|]. split; [done|]. split; [done|]. intros _. destruct (Hz1 eq_refl) as [Hz|?]; [left|by right].
    exists 0. rewrite Z.add_0_r, Ar. split; [lia|done]. }
  destruct (Hr1 Hne) as [Rd Epa]. pose proof X1 as [U1 _].
  destruct (readable_low root sz _ _ _ U1 Rd) as (Hva & Hv & HU).
  rewrite Hp4, Epa. destruct (copy_need_step srcva len Hl) as (Hn1 & Hn2 & Hn3). rewrite <- Hp5 in Hn3.
  set (n := Z.min (PGSIZE - srcva mod 4096) len) in *.
  unfold bind, gets, ret. rewrite wrap_small by (unfold PGSIZE in *; lia).
  set (dst1 := blit dst d (mem k1) (frame root (mem k1) va0 + srcva mod 4096) n).
  destruct (IH dst1 (d + n) (va0 + PGSIZE) (len - n) k1 l1 U1) as (dst' & r & k' & l' & E & X' & Hr & Hb & Hok & Hfr & Hby & R' & Hall & Hfail).
  { unfold PGSIZE in *. lia. }
  { unfold PGSIZE. lia. }
  assert (forall a, may_read root sz (mem k1) a = may_read root sz (mem k) a) as A1 by (intros a; apply R1).
  assert (may_read root sz (mem k) srcva = true) as Hm0 by (rewrite Ar, <- A1; unfold may_read; by rewrite Rd).
  assert (forall i, 0 <= i < n -> dst1 (d + i) = ubyte root (mem k) (srcva + i)) as Hd1.
  { intros i Hi. unfold dst1. rewrite blit_in by lia. rewrite <- B1. unfold ubyte.
    assert ((srcva + i) / 4096 = va0 / 4096) as Ev by (unfold PGSIZE in *; dlia).
    assert (pte_of (mem k1) root (srcva + i) = pte_of (mem k1) root va0) as Ep by (by apply pte_of_vpn).
    assert (readable root (mem k1) (srcva + i) = true) as ->.
    { unfold readable, valid in *. rewrite Ep, HU, Hv. unfold PGSIZE in *.
      rewrite (proj2 (Z.leb_le 0 (srcva + i))), (proj2 (Z.ltb_lt (srcva + i) MAXVA)) by dlia. done. }
    unfold frame at 2. rewrite Ep. fold (frame root (mem k1) va0). f_equal. unfold PGSIZE in *. dlia. }
  exists dst', r, k', l'. split; [exact E|]. split; [by eapply uext_trans|]. split; [done|].
  split; [intros a; by rewrite Hb|]. split; [|split; [|split; [|split; [by eapply same_rights_trans|split]]]].
  - intros -> i Hi. destruct (Z.lt_ge_cases i n) as [Hin|Hin].
    + rewrite Hfr by lia. apply Hd1. lia.
    + replace (d + i) with (d + n + (i - n)) by lia. rewrite (Hok eq_refl) by lia. rewrite B1.
      f_equal. unfold PGSIZE in *. lia.
  - intros x Hx. rewrite Hfr by lia. unfold dst1. by rewrite blit_out by lia.
  - intros Hd. apply Hby, blit_bytes_ok; [done|apply U1].
  - intros -> i Hi. destruct (Z.lt_ge_cases i n) as [Hin|Hin].
    + destruct (access_page root sz (mem k) (srcva + i) srcva) as [-> _]; [lia|lia|unfold PGSIZE in *; dlia|done].
    + replace (srcva + i) with (va0 + PGSIZE + (i - n)) by (unfold PGSIZE in *; lia). rewrite <- A1. apply Hall; [done|lia].
  - intros ->. destruct (Hfail eq_refl) as [(i & Hi & Hf)|?]; [left|by right]. exists (i + n). split; [lia|].
    rewrite <- A1. replace (srcva + (i + n)) with (va0 + PGSIZE + i) by (unfold PGSIZE in *; lia). done.
Qed.

Lemma copy_fuel va len : 0 <= len -> copy_need va len < Z.of_nat (Z.to_nat (len / PGSIZE + 3)).
Proof.
  intros Hl. unfold copy_need, PGSIZE. rewrite Z2Nat.id by dlia.
  destruct (Z.ltb_spec 0 len); dlia.
Qed.

Lemma copyout_run dstva src s len k l : uvm root sz k l -> bytes_ok src -> 0 <= dstva -> 0 <= len ->
  exists r k' l', copyout sz root root dstva src s len k = Ret r k' /\
    copyout_result dstva src s len r k l k' l'.
Proof. intros Hu Hb Hd Hl. apply copyout_loop; [done|done|done|by apply copy_fuel]. Qed.

Lemma copyin_run dst d srcva len k l : uvm root sz k l -> 0 <= srcva < 2 ^ 64 -> 0 <= len ->
  exists dst' r k' l', copyin sz root root dst d srcva len k = Ret (dst', r) k' /\
    copyin_result dst d srcva len r dst' k l k' l'.
Proof. intros Hu Hs Hl. apply copyin_loop; [done|done|by apply copy_fuel]. Qed.
End copying.

(** C3. copyout and copyin move bytes between a kernel buffer and the
    process's memory, page by page, allocating lazily allocated pages on the
    way. On every address space that satisfies the invariant they return 0 or
    -1 and keep the invariant. They return 0 only when the process itself may
    store to, or load from, every byte of the range (a page below its size that
    is not mapped yet counts as readable and writable), and -1 only when it may
    not, or when the allocator has at most one page left; so copyout never
    writes a page without PTE_W. On 0 the destination holds the source's bytes,
    in process memory as the process would load them. In every case no
    other byte of the process's view or of the kernel buffer changes, nor any
    byte of memory that belongs to another address space or to the kernel;
    entries of mapped pages and access rights stay as they are, and no page is
    lost. *)
Theorem usercopy_correct `{KernelEnd} (root sz va len : Z) (buf : bytes) (o : Z) (k : kmem) (l : list Z) :
  uvm root sz k l -> bytes_ok buf -> 0 <= va < 2 ^ 64 -> 0 <= len ->
  (exists r k' l', copyout sz root root va buf o len k = Ret r k' /\
     copyout_result root sz va buf o len r k l k' l') /\
  (exists buf' r k' l', copyin sz root root buf o va len k = Ret (buf', r) k' /\
     copyin_result root sz buf o va len r buf' k l k' l').
Proof.
  intros Hu Hb Hva Hl. split; [by apply copyout_run; [..|lia|]|by apply copyin_run].
Qed.

(** vmfault serves exactly the lazily allocated pages: it returns a page
    only for an address below the process's size whose page has no valid
    entry, and then maps a zeroed page of the allocator there, readable and
    writable for the user; every other translation and every byte the process
    can read stay as they were. Otherwise it returns 0 and changes no
    translation. *)
Theorem vmfault_correct `{KernelEnd} (root sz va : Z) (k : kmem) (l : list Z) :
  uvm root sz k l -> 0 <= va ->
  exists r k' l', vmfault sz root root va k = Ret r k' /\ uext root sz k l k' l' /\
    (forall x, ubyte root (mem k') x = ubyte root (mem k) x) /\
    ((r = 0 /\ pte_after root None (mem k) (mem k') /\ (sz <= va \/ valid root (mem k) va = true \/ (length l' <= 1)%nat)) \/
     (va < sz /\ valid root (mem k) va = false /\ page_ok r /\
      pte_after root (Some (PGROUNDDOWN va, r, fault_perm)) (mem k) (mem k'))).
Proof. apply vmfault_run. Qed.

(** ** The implementation of the user memory interface *)
Section space.
Context `{KernelEnd}.

(** The current process's address space, with its invariant. *)
Record space := Space {
  sp_mem : kmem; sp_root : Z; sp_sz : Z;
  sp_ok : exists l, uvm sp_root sp_sz sp_mem l;
}.

(** Addresses are 64-bit values and lengths are not negative. *)
Definition in_domain (va len : Z) : bool := (0 <=? va) && (va <? 2 ^ 64) && (0 <=? len).

Lemma in_domain_spec va len : in_domain va len = true <-> 0 <= va < 2 ^ 64 /\ 0 <= len.
Proof. unfold in_domain. rewrite !andb_true_iff, !Z.leb_le, Z.ltb_lt. lia. Qed.

Lemma copyin_keeps u dst d va len dst' r k' : in_domain va len = true ->
  copyin (sp_sz u) (sp_root u) (sp_root u) dst d va len (sp_mem u) = Ret (dst', r) k' ->
  exists l, uvm (sp_root u) (sp_sz u) k' l.
Proof.
  intros Hd E. apply in_domain_spec in Hd as [Hv Hl]. destruct (sp_ok u) as [l Hu].
  destruct (copyin_run (sp_root u) (sp_sz u) dst d va len _ l Hu Hv Hl) as (? & ? & ? & l' & E' & X & _).
  rewrite E in E'. simplify_eq. exists l'. apply X.
Qed.

Lemma copyout_keeps u va src s len r k' : bytes_ok src -> in_domain va len = true ->
  copyout (sp_sz u) (sp_root u) (sp_root u) va src s len (sp_mem u) = Ret r k' ->
  exists l, uvm (sp_root u) (sp_sz u) k' l.
Proof.
  intros Hb Hd E. apply in_domain_spec in Hd as [Hv Hl]. destruct (sp_ok u) as [l Hu].
  destruct (copyout_run (sp_root u) (sp_sz u) va src s len _ l Hu Hb (proj1 Hv) Hl) as (? & ? & l' & E' & X & _).
  rewrite E in E'. simplify_eq. exists l'. apply X.
Qed.

Lemma byte_view_ok (src : bytes) : bytes_ok (fun a => u8 (src a)).
Proof. intros a. apply wrap_range. lia. Qed.

Definition space_copyin (dst : bytes) (d va len : Z) (u : space) : bool * bytes * space :=
  match in_domain va len as b return in_domain va len = b -> bool * bytes * space with
  | false => fun _ => (false, dst, u)
  | true => fun Hd =>
      match copyin (sp_sz u) (sp_root u) (sp_root u) dst d va len (sp_mem u) as o
        return copyin (sp_sz u) (sp_root u) (sp_root u) dst d va len (sp_mem u) = o -> bool * bytes * space
      with
      | Ret (dst', r) k' => fun E =>
          (r =? 0, dst', Space k' (sp_root u) (sp_sz u) (copyin_keeps u dst d va len dst' r k' Hd E))
      | _ => fun _ => (false, dst, u)
      end eq_refl
  end eq_refl.

Definition space_copyout (va : Z) (src : bytes) (s len : Z) (u : space) : bool * space :=
  let src := fun a => u8 (src a) in
  match in_domain va len as b return in_domain va len = b -> bool * space with
  | false => fun _ => (false, u)
  | true => fun Hd =>
      match copyout (sp_sz u) (sp_root u) (sp_root u) va src s len (sp_mem u) as o
        return copyout (sp_sz u) (sp_root u) (sp_root u) va src s len (sp_mem u) = o -> bool * space
      with
      | Ret r k' => fun E =>
          (r =? 0, Space k' (sp_root u) (sp_sz u) (copyout_keeps u va src s len r k' (byte_view_ok _) Hd E))
      | _ => fun _ => (false, u)
      end eq_refl
  end eq_refl.

#[global] Instance space_usermem : UserMem space := {|
  UserMem.copyin := space_copyin;
  UserMem.copyout := space_copyout;
  uread u a := ubyte (sp_root u) (mem (sp_mem u)) a;
|}.

(** What a copyin through the interface did. *)
Lemma space_copyin_inv dst d va len u b dst' u' : space_copyin dst d va len u = (b, dst', u') ->
  (b = false /\ dst' = dst /\ u' = u) \/
  (0 <= len /\ exists r l l', b = (r =? 0) /\ sp_root u' = sp_root u /\
    copyin_result (sp_root u) (sp_sz u) dst d va len r dst' (sp_mem u) l (sp_mem u') l').
Proof.
  unfold space_copyin. intros E. destruct (sp_ok u) as [l Hu].
  generalize (copyin_keeps u dst d va len). intros Hk.
  revert E. generalize (eq_refl (in_domain va len)). generalize (in_domain va len) at 2 3.
  intros [|] Hd; [|intros; simplify_eq; by left].
  apply in_domain_spec in Hd as Hd'. destruct Hd' as [Hv Hl].
  destruct (copyin_run (sp_root u) (sp_sz u) dst d va len _ l Hu Hv Hl) as (d1 & r & k1 & l1 & E1 & Hres).
  generalize (eq_refl (copyin (sp_sz u) (sp_root u) (sp_root u) dst d va len (sp_mem u))).
  generalize (copyin (sp_sz u) (sp_root u) (sp_root u) dst d va len (sp_mem u)) at 2 3.
  intros [[d2 r2] k2| | |] Eo E; pose proof Eo as Eo'; rewrite E1 in Eo'; try discriminate Eo'.
  simplify_eq. right. split; [done|]. exists r2, l, l1. done.
Qed.

Lemma space_copyout_inv va src s len u b u' : space_copyout va src s len u = (b, u') ->
  (b = false /\ u' = u) \/
  (0 <= len /\ exists r l l', b = (r =? 0) /\ sp_root u' = sp_root u /\
    copyout_result (sp_root u) (sp_sz u) va (fun a => u8 (src a)) s len r (sp_mem u) l (sp_mem u') l').
Proof.
  unfold space_copyout. intros E. destruct (sp_ok u) as [l Hu].
  generalize dependent E. pose proof (byte_view_ok src) as Hsrc. generalize (byte_view_ok src).
  set (src' := fun a => u8 (src a)) in *. clearbody src'.
  intros Hb. generalize (eq_refl (in_domain va len)). generalize (in_domain va len) at 2 3.
  intros [|] Hd; [|intros; simplify_eq; by left].
  apply in_domain_spec in Hd as Hd'. destruct Hd' as [Hv Hl].
  destruct (copyout_run (sp_root u) (sp_sz u) va src' s len _ l Hu Hsrc (proj1 Hv) Hl) as (r & k1 & l1 & E1 & Hres).
  generalize (eq_refl (copyout (sp_sz u) (sp_root u) (sp_root u) va src' s len (sp_mem u))).
  generalize (copyout (sp_sz u) (sp_root u) (sp_root u) va src' s len (sp_mem u)) at 2 3.
  intros [r2 k2| | |] Eo E; pose proof Eo as Eo'; rewrite E1 in Eo'; try discriminate Eo'.
  simplify_eq. right. split; [done|]. exists r2, l, l1. done.
Qed.

#[global] Instance space_usermem_laws : UserMemLaws space.
Proof.
  split.
  - intros dst d va len u dst' u' Hl E.
    destruct (space_copyin_inv _ _ _ _ _ _ _ _ E) as [(? & _)|(_ & r & l & l' & Er & Eroot & _ & _ & Hb & Hok & _)];
      [done|].
    symmetry in Er. apply Z.eqb_eq in Er as ->. split; [by apply Hok|].
    intros x. cbn. rewrite Eroot. apply Hb.
  - intros dst d va len u b dst' u' Hl E x Hx.
    destruct (space_copyin_inv _ _ _ _ _ _ _ _ E) as [(_ & -> & _)|(_ & r & l & l' & _ & _ & _ & _ & _ & _ & Hf & _)];
      [done|by apply Hf].
  - intros dst d va len u b dst' u' Hd E.
    destruct (space_copyin_inv _ _ _ _ _ _ _ _ E) as [(_ & -> & _)|(_ & r & l & l' & _ & _ & _ & _ & _ & _ & _ & Hby & _)];
      [done|by apply Hby].
  - intros va src s len u u' Hsrc Hl E i Hi.
    destruct (space_copyout_inv _ _ _ _ _ _ _ E) as [(? & _)|(_ & r & l & l' & Er & Eroot & _ & _ & Hok & _)];
      [done|].
    symmetry in Er. apply Z.eqb_eq in Er as ->. cbn. rewrite Eroot, Hok by done.
    apply wrap_small. apply Hsrc.
  - intros va src s len u b u' Hl E x Hx.
    destruct (space_copyout_inv _ _ _ _ _ _ _ E) as [(_ & ->)|(_ & r & l & l' & Er & Eroot & _ & _ & _ & Hf & _)];
      [done|]. cbn. rewrite Eroot. by apply Hf.
Qed.
End space.

(** The small machine of file VmTables: an empty address space of three
    pages, none of them allocated yet. *)
Lemma uvm10 : uvm root10 12288 vm10 pages9.
Proof.
  assert (forall va, valid root10 (mem vm10) va = false) as Hv
    by (intros va; unfold valid; by rewrite vm10_empty).
  split.
  - exact vm10_inv.
  - exact vm10_wf.
  - unfold vm10, link_pages. cbn [mem]. generalize (zip pages9 (tail pages9 ++ [0])) as z.
    induction z as [|[p n] z IH]; [intros a; cbn; lia|]. cbn [foldr]. by apply st_bytes_ok.
  - vm_compute. split; congruence.
  - intros va _ H. by rewrite Hv in H.
  - intros va va' _ _ H. by rewrite Hv in H.
  - intros va _. by rewrite vm10_empty.
Qed.

Lemma usercopy_correct_witness :
  exists k' l', copyout 12288 root10 root10 4090 (fun a => a mod 256) 7 10 vm10 = Ret 0 k' /\
    uvm root10 12288 k' l' /\ ubyte root10 (mem k') 4097 = 14 /\ may_write root10 12288 (mem vm10) 4097 = true.
Proof.
  destruct (usercopy_correct root10 12288 4090 10 (fun a => a mod 256) 7 vm10 pages9 uvm10)
    as [(r & k' & l' & E & [U _] & _ & Hok & _ & _ & _ & Hall & _) _]; [intros a; dlia|lia|lia|].
  assert (match copyout 12288 root10 root10 4090 (fun a => a mod 256) 7 10 vm10 with Ret r _ => r = 0 | _ => False end)
    as Er by (vm_compute; reflexivity).
  rewrite E in Er. subst r. exists k', l'. split; [exact E|]. split; [exact U|].
  split; [apply (Hok eq_refl 7); lia|apply (Hall eq_refl 7); lia].
Defined.

Lemma vmfault_correct_witness : exists r k' l',
  vmfault 12288 root10 root10 5000 vm10 = Ret r k' /\ uext root10 12288 vm10 pages9 k' l'.
Proof.
  destruct (vmfault_correct root10 12288 5000 vm10 pages9 uvm10 ltac:(lia)) as (r & k' & l' & E & X & _).
  exists r, k', l'. split; [exact E|exact X].
Defined.
