(* ===== verification/VmAlloc.v ===== *)
(** * Growing and shrinking an address space

    uvmunmap, uvmdealloc and uvmalloc on an address space that satisfies the
    invariant of file VmUser. *)
From stdpp Require Import base list numbers strings relations.
From Stdlib Require Import ZArith Lia FunctionalExtensionality.
From S2P Require Import Prelude Memlayout Kalloc Vm VmTables VmUser.

Section unmap.
Context `{KernelEnd}.
Context (root sz : Z).

(** kfree of a frame and clearing of its entry. *)
Lemma unmap_page k l a u : uvm root sz k l -> a mod PGSIZE = 0 -> 0 <= a < TRAPFRAME ->
  valid root (mem k) a = true -> table_of (mem k) root a = Some u ->
  exists k1 k2, kfree (frame root (mem k) a) k = Ret tt k1 /\ store64 (u + 8 * PX 0 a) 0 k1 = Ret tt k2 /\
    uext root sz k l k2 (frame root (mem k) a :: l) /\
    (forall va, 0 <= va < MAXVA ->
       pte_of (mem k2) root va = if va / 4096 =? a / 4096 then 0 else pte_of (mem k) root va) /\
    (forall va, va / 4096 <> a / 4096 -> ubyte root (mem k2) va = ubyte root (mem k) va).
Proof.
  intros Hu Ha Hr Hv Et. set (f := frame root (mem k) a). destruct trapframe_max as [T1 T2].
  destruct (uv_page _ _ _ _ Hu a Hr Hv) as (Hf & Hfl & Hft). fold f in Hf, Hfl, Hft.
  assert (exists k1, kfree f k = Ret tt k1 /\ bytes_ok (mem k1)) as (k1 & E1 & Hb1).
  { destruct Hf as [Hfa Hfr]. eexists. split.
    - unfold kfree. rewrite Hfa. destruct (Z.ltb_spec f kend); [lia|].
      destruct (Z.leb_spec PHYSTOP f); [lia|]. reflexivity.
    - apply st_bytes_ok, fill_bytes_ok, Hu. }
  destruct (kfree_ok k l f (uv_inv _ _ _ _ Hu) Hf Hfl) as (k1' & E1' & Hi1 & Hs1).
  rewrite E1 in E1'. simplify_eq. rename k1' into k1.
  destruct (pt_wf_frame (mem k) (mem k1) root l (uv_pt _ _ _ _ Hu)) as (Hn1 & Hp1 & Hw1).
  { intros q t y Hq E Hy. apply Hs1. apply (page_apart t f y); [|done| |done].
    - by apply (pw_page _ _ _ (uv_pt _ _ _ _ Hu) q).
    - intros ->. by apply (Hft q). }
  assert (forall q, tpath q -> node (mem k1) root q = node (mem k) root q) as Hn
    by (intros q [Hq1 Hq2]; apply Hn1; [lia|done]).
  assert (pt_wf (mem k1) root (f :: l)) as Hw1'.
  { split; [|apply Hw1..]. intros q y Hq E. destruct (pw_page _ _ _ Hw1 q y Hq E) as [Hy Hyl].
    split; [done|]. rewrite not_elem_of_cons. split; [|done]. intros ->. rewrite Hn in E by done. by apply (Hft q). }
  assert (table_of (mem k1) root a = Some u) as Et1 by (unfold table_of; rewrite Hn by (by apply vidx_path); done).
  destruct (store_pte root k1 (f :: l) a u 0 Hi1 Hw1' ltac:(lia) Et1 ltac:(lia)) as (k2 & E2 & X2 & P2).
  exists k1, k2. split; [done|]. split; [done|].
  assert (forall va, 0 <= va < MAXVA ->
    pte_of (mem k2) root va = if va / 4096 =? a / 4096 then 0 else pte_of (mem k) root va) as P
    by (intros va Hva; rewrite P2 by done; by rewrite Hp1).
  (* a valid page after the step is another page, with its old frame *)
  assert (forall va, 0 <= va < MAXVA -> valid root (mem k2) va = true ->
    va / 4096 <> a / 4096 /\ valid root (mem k) va = true /\ frame root (mem k2) va = frame root (mem k) va) as Hold.
  { intros va Hva Hv2. unfold valid, frame in *. rewrite P in * by done.
    destruct (Z.eqb_spec (va / 4096) (a / 4096)); done. }
  assert (forall va, 0 <= va < TRAPFRAME -> valid root (mem k) va = true -> va / 4096 <> a / 4096 ->
    frame root (mem k) va <> f) as Hother.
  { intros va Hva Hvv Hne E. apply Hne. by apply (uv_inj _ _ _ _ Hu). }
  assert (forall va, 0 <= va < TRAPFRAME -> valid root (mem k) va = true -> va / 4096 <> a / 4096 ->
    (frame root (mem k) va ∉ f :: l) /\ no_table root (mem k2) (frame root (mem k) va) /\
    forall y, in_page (frame root (mem k) va) y -> mem k2 y = mem k y) as Hkeep.
  { intros va Hva Hvv Hne. destruct (uv_page _ _ _ _ Hu va Hva Hvv) as (Hg & Hgl & Hgt).
    assert (frame root (mem k) va ∉ f :: l) as Hgf by (apply not_elem_of_cons; split; [by apply Hother|done]).
    destruct (ext_page root k1 (f :: l) k2 (f :: l) _ X2 Hg Hgf) as (_ & G2 & G3).
    { intros q Hq. rewrite Hn by done. by apply Hgt. }
    split; [done|]. split; [done|]. intros y Hy. rewrite G3 by done. apply Hs1.
    apply (page_apart _ f y Hg Hf); [by apply Hother|done]. }
  split; [split; [split|split]|split; [done|]].
  - apply X2.
  - apply X2.
  - apply X2, Hb1.
  - apply Hu.
  - intros va Hva Hv2. destruct (Hold va ltac:(lia) Hv2) as (Hne & Hvv & ->).
    destruct (Hkeep va Hva Hvv Hne) as (K1 & K2 & _). split; [|done]. by apply (uv_page _ _ _ _ Hu).
  - intros va va' Hva Hva' Hv2 Hv2'. destruct (Hold va ltac:(lia) Hv2) as (_ & Hvv & ->).
    destruct (Hold va' ltac:(lia) Hv2') as (_ & Hvv' & ->). by apply (uv_inj _ _ _ _ Hu).
  - intros va Hva. rewrite P by lia. destruct (_ =? _); [done|]. by apply (uv_high _ _ _ _ Hu).
  - intros y [[U1 U2] U3]. assert (~ in_page f y) as Hny by (by apply U3).
    assert (mem k2 y = mem k y) as Ey.
    { assert (mem k1 y = mem k y) as <- by (apply Hs1; unfold in_page in Hny; lia). apply X2. split.
      - intros z Hz. apply elem_of_cons in Hz as [->|Hz]; [done|by apply U1].
      - intros q z Hq. rewrite Hn by done. by apply U2. }
    split; [done|]. split; [split|].
    + intros z Hz. apply elem_of_cons in Hz as [->|Hz]; [done|by apply U1].
    + intros q z Hq E. destruct (ex_taken _ _ _ _ _ X2) as (tk & El & Hq2).
      assert (tk = []) as -> by (apply (f_equal length) in El; rewrite length_app in El; destruct tk; [done|cbn in El; lia]).
      destruct (Hq2 q z Hq E) as [E'|Hin]; [|by apply elem_of_nil in Hin].
      rewrite Hn in E' by done. by apply (U2 q).
    + intros va Hva Hv2. destruct (Hold va ltac:(lia) Hv2) as (_ & Hvv & ->). by apply U3.
  - intros y [[U1 U2] U3]. split; [split|].
    + intros z Hz. apply U1. by right.
    + intros q z Hq E. apply (U2 q); [done|]. apply (ex_mono _ _ _ _ _ X2); [done|]. by rewrite Hn.
    + intros va Hva Hvv. destruct (decide (va / 4096 = a / 4096)) as [E|Hne].
      * apply U1. unfold f, frame. rewrite (pte_of_vpn _ _ va a E). by left.
      * assert (pte_of (mem k2) root va = pte_of (mem k) root va) as Ep by (rewrite P by lia; by rewrite (proj2 (Z.eqb_neq _ _) Hne)).
        assert (frame root (mem k) va = frame root (mem k2) va) as -> by (unfold frame; by rewrite Ep).
        apply U3; [done|]. unfold valid in *. by rewrite Ep.
  - intros va Hne. unfold ubyte.
    destruct (readable root (mem k) va) eqn:Hrd.
    + destruct (readable_low root sz _ _ _ Hu Hrd) as (Hva & Hvv & HU).
      assert (pte_of (mem k2) root va = pte_of (mem k) root va) as Ep
        by (rewrite P by lia; by rewrite (proj2 (Z.eqb_neq _ _) Hne)).
      assert (readable root (mem k2) va = true) as -> by (unfold readable, valid in *; by rewrite Ep).
      assert (frame root (mem k2) va = frame root (mem k) va) as -> by (unfold frame; by rewrite Ep).
      apply (Hkeep va Hva Hvv Hne). unfold in_page, PGSIZE. dlia.
    + assert (readable root (mem k2) va = false) as ->; [|done].
      unfold readable in *. destruct (Z.leb_spec 0 va), (Z.ltb_spec va MAXVA); cbn [andb] in *; try done.
      unfold valid in *. rewrite P by lia. by rewrite (proj2 (Z.eqb_neq _ _) Hne).
Qed.

(** The pages of [a, b) unmapped and their frames, and nothing else, given back. *)
Definition unmapped (a b : Z) (k : kmem) (l : list Z) (k' : kmem) (l' : list Z) : Prop :=
  uext root sz k l k' l' /\
  (forall y, y ∈ l' <-> y ∈ l \/ exists va, a <= va < b /\ valid root (mem k) va = true /\ y = frame root (mem k) va) /\
  (forall va, 0 <= va < MAXVA -> pte_of (mem k') root va =
     if (a <=? va) && (va <? b) && valid root (mem k) va then 0 else pte_of (mem k) root va) /\
  (forall va, va < a \/ b <= va -> ubyte root (mem k') va = ubyte root (mem k) va).

Lemma unmapped_none a k l : uvm root sz k l -> unmapped a a k l k l.
Proof.
  intros Hu. split; [by apply uext_refl|]. split; [|split; [|done]].
  { intros y. split; [by left|]. intros [?|(va & ? & _)]; [done|lia]. }
  intros va _. destruct (Z.leb_spec a va), (Z.ltb_spec va a); cbn; done || lia.
Qed.

(** One page, then the rest. *)
Lemma unmapped_cons a b k l k1 l1 k' l' : a mod PGSIZE = 0 -> b mod PGSIZE = 0 -> a < b ->
  0 <= a -> b <= TRAPFRAME ->
  unmapped a (a + PGSIZE) k l k1 l1 -> unmapped (a + PGSIZE) b k1 l1 k' l' -> unmapped a b k l k' l'.
Proof.
  intros Ha Hb Hab Ha0 Hb0 (X1 & L1 & P1 & B1) (X2 & L2 & P2 & B2).
  destruct trapframe_max as [T1 T2]. split; [by eapply uext_trans|]. unfold PGSIZE in *. assert (a + 4096 <= b) by dlia. split; [|split].
  - assert (forall va, a + 4096 <= va < b -> 0 <= va < MAXVA -> pte_of (mem k1) root va = pte_of (mem k) root va) as Hsame.
    { intros va Hva Hr. rewrite P1 by done. rewrite (proj2 (Z.ltb_ge va (a + 4096))) by lia. by rewrite andb_false_r. }
    intros y. rewrite L2, L1. split.
    + intros [[?|(va & Hva & Hv & ->)]|(va & Hva & Hv & ->)]; [by left|right; exists va; split; [lia|done]|].
      right. exists va. unfold valid, frame in *. rewrite Hsame in * by lia. split; [lia|done].
    + intros [?|(va & Hva & Hv & ->)]; [by left; left|]. destruct (Z.lt_ge_cases va (a + 4096)).
      * left. right. exists va. split; [lia|done].
      * right. exists va. unfold valid, frame in *. rewrite Hsame by lia. split; [lia|done].
  - intros va Hva. rewrite P2 by done. unfold valid. rewrite P1 by done. fold (valid root (mem k) va).
    destruct (Z.leb_spec a va), (Z.ltb_spec va (a + 4096)), (Z.leb_spec (a + 4096) va), (Z.ltb_spec va b);
      cbn [andb]; try lia; try done; by destruct (valid root (mem k) va).
  - intros va Hva. rewrite B2, B1 by lia. done.
Qed.

(** At most one frame a page *)
Lemma unmapped_length a b k l k' l' : a mod PGSIZE = 0 -> b mod PGSIZE = 0 -> a <= b -> unmapped a b k l k' l' ->
  Z.of_nat (length l') <= Z.of_nat (length l) + (b - a) / PGSIZE.
Proof.
  intros Ha Hb Hab ([U _] & L & _). unfold PGSIZE in *.
  set (fs := (fun i => frame root (mem k) (a + i * 4096)) <$> seqZ 0 ((b - a) / 4096)).
  assert (length l' <= length (l ++ fs))%nat as Hl.
  { apply submseteq_length, NoDup_submseteq; [apply (inv_nodup _ _ (uv_inv _ _ _ _ U))|].
    intros y. rewrite L, elem_of_app. intros [?|(va & Hva & _ & ->)]; [by left|right].
    apply list_elem_of_fmap. exists ((va - a) / 4096). split; [|apply elem_of_seqZ; dlia].
    unfold frame. rewrite (pte_of_vpn _ _ va (a + (va - a) / 4096 * 4096)); [done|dlia]. }
  unfold fs in Hl. rewrite length_app, length_fmap, length_seqZ in Hl. dlia.
Qed.

Lemma uvmunmap_page a stop k l : uvm root sz k l -> a mod PGSIZE = 0 -> 0 <= a < TRAPFRAME -> a < stop ->
  exists k' l', uvmunmap_body root stop true a k = Ret (inl (a + PGSIZE)) k' /\ unmapped a (a + PGSIZE) k l k' l'.
Proof.
  intros Hu Ha Hr Hs. destruct trapframe_max as [T1 T2].
  unfold uvmunmap_body. rewrite (proj2 (Z.ltb_lt a stop)) by done.
  rewrite (bind_step _ _ _ _ _ (walk_pure root a k ltac:(lia))).
  rewrite !(wrap_small 64 (a + PGSIZE)) by (unfold PGSIZE; lia).
  assert (valid root (mem k) a = false -> unmapped a (a + PGSIZE) k l k l) as Hskip.
  { intros Hv. assert (forall va, a <= va < a + PGSIZE -> valid root (mem k) va = false) as Hpg.
    { intros va Hva. unfold valid in *. rewrite (pte_of_vpn _ _ va a); [done|]. unfold PGSIZE in *. dlia. }
    split; [by apply uext_refl|]. split; [|split; [|done]].
    - intros y. split; [by left|]. intros [?|(va & Hva & Hvv & _)]; [done|]. by rewrite Hpg in Hvv.
    - intros va Hva. destruct (Z.leb_spec a va), (Z.ltb_spec va (a + PGSIZE)); cbn [andb]; try done. by rewrite Hpg by lia. }
  destruct (table_of (mem k) root a) as [u|] eqn:Et.
  2: { exists k, l. split; [done|]. apply Hskip. unfold valid, pte_of. by rewrite Et. }
  destruct (table_slot root k l a u (uv_pt _ _ _ _ Hu) Et) as [-> Ep].
  unfold load64. rewrite (bind_step (gets _) _ k (ld64 (mem k) (u + 8 * PX 0 a)) k), Ep by done.
  fold (valid root (mem k) a). destruct (valid root (mem k) a) eqn:Hv; cbn [negb].
  2: { exists k, l. split; [done|]. by apply Hskip. }
  destruct (unmap_page k l a u Hu Ha Hr Hv Et) as (k1 & k2 & E1 & E2 & X & P & B).
  cbn [when]. unfold frame in E1. rewrite (bind_step _ _ _ _ _ E1), (bind_step _ _ _ _ _ E2).
  exists k2, (frame root (mem k) a :: l). split; [done|]. split; [done|].
  unfold PGSIZE in *. split; [|split].
  - intros y. rewrite elem_of_cons. split.
    + intros [->|?]; [right; exists a; split; [lia|done]|by left].
    + intros [?|(va & Hva & Hvv & ->)]; [by right|]. left. unfold frame. rewrite (pte_of_vpn _ _ va a); [done|dlia].
  - intros va Hva. rewrite P by done.
    destruct (Z.eqb_spec (va / 4096) (a / 4096)) as [E|Hne], (Z.leb_spec a va), (Z.ltb_spec va (a + 4096));
      cbn [andb]; try done; try (exfalso; dlia).
    assert (valid root (mem k) va = true) as ->; [|done]. unfold valid. by rewrite (pte_of_vpn _ _ va a E).
  - intros va Hva. apply B. dlia.
Qed.

Lemma uvmunmap_loop n : forall a k l, uvm root sz k l -> a mod PGSIZE = 0 -> 0 <= a ->
  a + Z.of_nat n * PGSIZE <= TRAPFRAME ->
  exists k' l', loop (n + 1) (uvmunmap_body root (a + Z.of_nat n * PGSIZE) true) a k = Ret tt k' /\
    unmapped a (a + Z.of_nat n * PGSIZE) k l k' l'.
Proof.
  induction n as [|n IH]; intros a k l Hu Ha Ha0 Hmax.
  - cbn [Nat.add loop]. unfold uvmunmap_body, bind.
    replace (a + Z.of_nat 0 * PGSIZE) with a by lia. rewrite Z.ltb_irrefl. exists k, l. split; [done|].
    by apply unmapped_none.
  - cbn [Nat.add loop].
    destruct (uvmunmap_page a (a + Z.of_nat (S n) * PGSIZE) k l Hu Ha) as (k1 & l1 & E1 & U1);
      try (unfold PGSIZE in *; lia).
    rewrite (bind_step _ _ _ _ _ E1).
    destruct (IH (a + PGSIZE) k1 l1) as (k' & l' & E & U'); try (unfold PGSIZE in *; dlia).
    { apply U1. }
    replace (a + PGSIZE + Z.of_nat n * PGSIZE) with (a + Z.of_nat (S n) * PGSIZE) in * by lia.
    exists k', l'. split; [exact E|].
    eapply unmapped_cons; [done| | | | |exact U1|exact U']; unfold PGSIZE in *; dlia.
Qed.

Lemma uvmunmap_run a n k l : uvm root sz k l -> a mod PGSIZE = 0 -> 0 <= a -> 0 <= n ->
  a + n * PGSIZE <= TRAPFRAME ->
  exists k' l', uvmunmap root a n true k = Ret tt k' /\ unmapped a (a + n * PGSIZE) k l k' l'.
Proof.
  intros Hu Ha Ha0 Hn Hmax. destruct trapframe_max as [T1 T2]. unfold uvmunmap. rewrite Ha. cbn [negb Z.eqb].
  rewrite wrap_small by (unfold PGSIZE in *; lia).
  destruct (uvmunmap_loop (Z.to_nat n) a k l Hu Ha Ha0) as (k' & l' & E & U); [rewrite Z2Nat.id by done; done|].
  rewrite Z2Nat.id in * by done. by exists k', l'.
Qed.

Lemma pgroundup_page z : 0 <= z <= TRAPFRAME ->
  PGROUNDUP z mod PGSIZE = 0 /\ z <= PGROUNDUP z < z + PGSIZE /\ PGROUNDUP z <= TRAPFRAME.
Proof.
  intros Hz. destruct trapframe_max as [T1 T2]. rewrite PGROUNDUP_div by lia. unfold PGSIZE.
  rewrite T1 in *. repeat split; dlia.
Qed.

Lemma uvmdealloc_run oldsz newsz k l : uvm root sz k l -> 0 <= newsz -> 0 <= oldsz <= TRAPFRAME ->
  exists k' l', uvmdealloc root oldsz newsz k = Ret (Z.min oldsz newsz) k' /\
    unmapped (PGROUNDUP newsz) (Z.max (PGROUNDUP newsz) (PGROUNDUP oldsz)) k l k' l' \/
    (oldsz <= newsz /\ uvmdealloc root oldsz newsz k = Ret oldsz k).
Proof.
  intros Hu Hn Ho. destruct trapframe_max as [T1 T2]. unfold uvmdealloc.
  destruct (Z.leb_spec oldsz newsz) as [Hle|Hlt]; [exists k, l; by right|].
  destruct (pgroundup_page newsz ltac:(lia)) as (N1 & N2 & N3).
  destruct (pgroundup_page oldsz ltac:(lia)) as (O1 & O2 & O3).
  rewrite Z.min_r by lia. set (a := PGROUNDUP newsz) in *. set (b := PGROUNDUP oldsz) in *.
  destruct (Z.ltb_spec a b) as [Hab|Hab]; cbn [when].
  2: { exists k, l. left. rewrite Z.max_l by lia. split; [done|]. by apply unmapped_none. }
  assert (b - a = (b - a) / PGSIZE * PGSIZE) as Eab by (unfold PGSIZE in *; dlia).
  assert (0 <= (b - a) / PGSIZE < 2 ^ 31) as Hr by (unfold PGSIZE in *; dlia).
  rewrite (swrap_small 32) by lia. rewrite wrap_small by lia.
  destruct (uvmunmap_run a ((b - a) / PGSIZE) k l Hu N1 ltac:(lia) ltac:(lia) ltac:(lia)) as (k' & l' & E & U).
  rewrite (bind_step _ _ _ _ _ E). exists k', l'. left. split; [done|]. rewrite Z.max_r by lia.
  replace (a + (b - a) / PGSIZE * PGSIZE) with b in U by lia. exact U.
Qed.
End unmap.

Section alloc.
Context `{KernelEnd}.
Context (root sz : Z).

Definition alloc_perm (xperm : Z) : Z := Z.lor (Z.lor PTE_R PTE_U) xperm.

Lemma uvmalloc_body_eq oldsz newsz xperm a k :
  uvmalloc_body root oldsz newsz xperm a k =
  (if a <? newsz then
     r <- map_new_page root a (alloc_perm xperm) ;;
     if r =? 0 then uvmdealloc root a oldsz ;;; ret (inr 0) else ret (inl (u64 (a + PGSIZE)))
   else ret (inr newsz)) k.
Proof.
  unfold uvmalloc_body, map_new_page, alloc_perm, bind, ret. destruct (a <? newsz); [|done].
  destruct (kalloc k) as [page k1| | |]; try done. destruct (page =? 0) eqn:E0; [done|].
  destruct (zero_page page k1) as [[] k2| | |]; try done.
  destruct (mappages root a PGSIZE page _ k2) as [r k3| | |]; try done.
  destruct (r =? 0); cbn [negb]; [by rewrite E0|]. by destruct (kfree page k3).
Qed.

(** Pages of [o, a) freshly mapped with [perm], all else as before. *)
Definition grown (o a perm : Z) (k k' : kmem) : Prop :=
  forall va, 0 <= va < MAXVA ->
    (o <= va < a -> exists x, page_ok x /\ pte_of (mem k') root va = leaf_entry x perm) /\
    (va < o \/ a <= va -> pte_of (mem k') root va = pte_of (mem k) root va).

Definition uvmalloc_result (o newsz perm r : Z) (k : kmem) (l : list Z) (k' : kmem) (l' : list Z) : Prop :=
  uext root sz k l k' l' /\ (forall va, ubyte root (mem k') va = ubyte root (mem k) va) /\
  ((r = newsz /\ grown o (PGROUNDUP newsz) perm k k') \/
   (r = 0 /\ (forall va, 0 <= va < MAXVA ->
      valid root (mem k') va = valid root (mem k) va /\
      (va < o \/ PGROUNDUP newsz <= va -> pte_of (mem k') root va = pte_of (mem k) root va)) /\
    Z.of_nat (length l') <= 1 + (PGROUNDUP newsz - o) / PGSIZE)).

(** The error path of uvmalloc: the pages mapped so far are given back. *)
Lemma uvmalloc_undo o a newsz perm k0 l0 k l : 0 <= o -> o <= a -> o mod PGSIZE = 0 -> a mod PGSIZE = 0 ->
  a < newsz -> newsz <= TRAPFRAME ->
  uext root sz k0 l0 k l -> grown o a perm k0 k -> (forall va, ubyte root (mem k) va = ubyte root (mem k0) va) ->
  (forall va, o <= va < PGROUNDUP newsz -> valid root (mem k0) va = false) -> 0 <= perm < 1024 -> (length l <= 1)%nat ->
  exists k' l', (uvmdealloc root a o ;;; ret (inr 0 : Z + Z)) k = Ret (inr 0) k' /\
    uvmalloc_result o newsz perm 0 k0 l0 k' l'.
Proof.
  intros Ho Hoa Hom Ham Han Hmax X G B Hfree Hperm Hln. destruct trapframe_max as [T1 T2].
  destruct (pgroundup_page newsz ltac:(lia)) as (_ & N2 & N3).
  destruct (uvmdealloc_run root sz a o k l (proj1 X) Ho ltac:(lia)) as (k' & l' & [[E U]|[Hle E]]).
  - rewrite (bind_step _ _ _ _ _ E). exists k', l'. split; [done|].
    pose proof U as (X' & _ & P & B').
    assert (PGROUNDUP o = o) as Eo by (rewrite PGROUNDUP_div by lia; unfold PGSIZE in *; dlia).
    assert (PGROUNDUP a = a) as Ea by (rewrite PGROUNDUP_div by lia; unfold PGSIZE in *; dlia).
    rewrite Eo, Ea, Z.max_r in P, B', U by lia. apply unmapped_length in U; [|done|done|lia].
    assert (forall va, 0 <= va < MAXVA -> o <= va < a -> valid root (mem k') va = false) as Hgone.
    { intros va Hva Hin. unfold valid at 1. rewrite P by done.
      rewrite (proj2 (Z.leb_le o va)), (proj2 (Z.ltb_lt va a)) by lia. cbn [andb].
      destruct (valid root (mem k) va) eqn:Ev; [done|exact Ev]. }
    assert (forall va, 0 <= va < MAXVA -> va < o \/ a <= va ->
      pte_of (mem k') root va = pte_of (mem k0) root va) as Hrest.
    { intros va Hva Hout. rewrite P by done. destruct (G va Hva) as [_ G2]. rewrite <- G2 by done.
      destruct (Z.leb_spec o va), (Z.ltb_spec va a); cbn [andb]; try done; lia. }
    split; [by eapply uext_trans|]. split.
    + intros va. destruct (Z.lt_ge_cases va o) as [H1|H1]; [by rewrite B', B by lia|].
      destruct (Z.lt_ge_cases va a) as [H2|H2]; [|by rewrite B', B by lia].
      unfold ubyte, readable. rewrite Hgone, Hfree by lia. by rewrite !andb_false_r.
    + right. split; [done|]. split; [|unfold PGSIZE in *; assert ((a - o) / 4096 <= (PGROUNDUP newsz - o) / 4096) by (apply Z.div_le_mono; lia); lia].
      intros va Hva. split; [|intros Hout; apply Hrest; lia].
      destruct (Z.lt_ge_cases va o) as [H1|H1]; [unfold valid; by rewrite Hrest by lia|].
      destruct (Z.lt_ge_cases va a) as [H2|H2]; [|unfold valid; by rewrite Hrest by lia].
      rewrite Hgone by lia. symmetry. apply Hfree. lia.
  - assert (a = o) as -> by lia. rewrite (bind_step _ _ _ _ _ E). exists k, l. split; [done|].
    split; [done|]. split; [done|]. right. split; [done|].
    split; [|unfold PGSIZE in *; assert (0 <= (PGROUNDUP newsz - o) / 4096) by (apply Z.div_pos; lia); lia]. intros va Hva.
    destruct (G va Hva) as [_ G2]. unfold valid. rewrite G2 by lia. done.
Qed.

Lemma uvmalloc_loop newsz xperm o k0 l0 n : forall a k l, 0 <= o <= a -> o mod PGSIZE = 0 -> a mod PGSIZE = 0 ->
  newsz <= TRAPFRAME -> a <= PGROUNDUP newsz -> 0 <= alloc_perm xperm < 1024 -> 0 <= newsz ->
  uext root sz k0 l0 k l -> grown o a (alloc_perm xperm) k0 k ->
  (forall va, ubyte root (mem k) va = ubyte root (mem k0) va) ->
  (forall va, o <= va < PGROUNDUP newsz -> valid root (mem k0) va = false) ->
  (PGROUNDUP newsz - a) / PGSIZE < Z.of_nat n ->
  exists r k' l', loop n (uvmalloc_body root o newsz xperm) a k = Ret r k' /\
    uvmalloc_result o newsz (alloc_perm xperm) r k0 l0 k' l'.
Proof.
  induction n as [|n IH]; intros a k l Hoa Hom Ham Hmax Hap Hperm Hn0 X G B Hfree Hfuel.
  { exfalso. unfold PGSIZE in *. dlia. }
  destruct trapframe_max as [T1 T2]. destruct (pgroundup_page newsz ltac:(lia)) as (N1 & N2 & N3).
  cbn [loop]. unfold bind at 1. rewrite uvmalloc_body_eq.
  destruct (Z.ltb_spec a newsz) as [Hlt|Hge].
  2: { assert (a = PGROUNDUP newsz) as -> by (unfold PGSIZE in *; dlia).
       exists newsz, k, l. split; [done|]. split; [done|]. split; [done|]. left. by split. }
  assert (valid root (mem k) a = false) as Hv.
  { unfold valid. destruct (G a ltac:(lia)) as [_ G2]. rewrite G2 by lia. apply Hfree. lia. }
  destruct (map_new_page_run root sz k l a (alloc_perm xperm) (proj1 X) Ham ltac:(lia) Hv Hperm)
    as (r & k1 & l1 & E1 & X1 & B1 & Hr).
  rewrite (bind_step _ _ _ _ _ E1).
  assert (forall va, ubyte root (mem k1) va = ubyte root (mem k0) va) as B01 by (intros va; by rewrite B1).
  assert (uext root sz k0 l0 k1 l1) as X01 by (by eapply uext_trans).
  destruct Hr as [(-> & Hp & Ln)|[Hpg Hp]].
  - cbn [Z.eqb].
    assert (grown o a (alloc_perm xperm) k0 k1) as G1.
    { intros va Hva. rewrite (Hp va Hva). by apply G. }
    destruct (uvmalloc_undo o a newsz (alloc_perm xperm) k0 l0 k1 l1) as (k' & l' & E & R); try done; try lia.
    rewrite E. exists 0, k', l'. by split.
  - pose proof (page_ok_range r Hpg) as Hrr. rewrite (proj2 (Z.eqb_neq r 0)) by lia.
    rewrite wrap_small by (unfold PGSIZE in *; lia). cbn [ret].
    apply (IH (a + PGSIZE) k1 l1); try done; try (unfold PGSIZE in *; dlia).
    intros va Hva. rewrite (Hp va Hva). destruct (G va Hva) as [G1 G2]. unfold PGSIZE in *. split.
    + intros Hin. destruct (Z.eqb_spec (va / 4096) (a / 4096)) as [E|Hne]; [by exists r|]. apply G1. dlia.
    + intros Hout. rewrite (proj2 (Z.eqb_neq (va / 4096) (a / 4096))) by dlia. apply G2. lia.
Qed.

Lemma uvmalloc_run oldsz newsz xperm k l : uvm root sz k l -> 0 <= oldsz -> newsz <= TRAPFRAME ->
  oldsz <= newsz -> 0 <= alloc_perm xperm < 1024 ->
  (forall va, PGROUNDUP oldsz <= va < PGROUNDUP newsz -> valid root (mem k) va = false) ->
  exists r k' l', uvmalloc root oldsz newsz xperm k = Ret r k' /\
    uvmalloc_result (PGROUNDUP oldsz) newsz (alloc_perm xperm) r k l k' l'.
Proof.
  intros Hu Ho Hmax Hle Hperm Hfree. destruct trapframe_max as [T1 T2].
  destruct (pgroundup_page oldsz ltac:(lia)) as (O1 & O2 & O3).
  destruct (pgroundup_page newsz ltac:(lia)) as (N1 & N2 & N3).
  unfold uvmalloc. rewrite (proj2 (Z.ltb_ge newsz oldsz)) by done. cbv zeta.
  apply (uvmalloc_loop newsz xperm (PGROUNDUP oldsz) k l _ (PGROUNDUP oldsz) k l); try done; try lia.
  - assert (PGROUNDUP oldsz <= PGROUNDUP newsz); [|done].
    rewrite !PGROUNDUP_div by lia. apply Z.mul_le_mono_nonneg_r; [lia|]. apply Z.div_le_mono; lia.
  - intros va Hva. split; [lia|done].
  - unfold PGSIZE in *. rewrite Z2Nat.id by dlia. dlia.
Qed.
End alloc.

(** C33. Growing and shrinking a process. uvmalloc from oldsz to newsz, on an
    address space whose pages from oldsz on are free, either returns newsz with
    every new page mapped to a page of the allocator, which reads as zero, or
    returns 0 with the valid mappings exactly as before, and then no more than
    one page besides the requested ones is free; with newsz below oldsz
    it returns oldsz. uvmdealloc unmaps exactly the pages between the rounded
    sizes, gives the frames of those that were mapped, and no other page, back
    to the allocator and returns the smaller size. In every case
    the invariant of the address space holds, no page is lost (every page is
    free, a page table or mapped if it was one of these before), and no byte
    the process can still read, or that belongs to another space, changes. *)
Theorem grow_shrink_correct `{KernelEnd} (root sz oldsz newsz xperm : Z) (k : kmem) (l : list Z) :
  uvm root sz k l -> 0 <= oldsz <= TRAPFRAME -> 0 <= newsz <= TRAPFRAME -> 0 <= alloc_perm xperm < 1024 ->
  (newsz < oldsz -> uvmalloc root oldsz newsz xperm k = Ret oldsz k /\
     exists k' l', uvmdealloc root oldsz newsz k = Ret newsz k' /\
       unmapped root sz (PGROUNDUP newsz) (Z.max (PGROUNDUP newsz) (PGROUNDUP oldsz)) k l k' l') /\
  (oldsz <= newsz -> uvmdealloc root oldsz newsz k = Ret oldsz k /\
     ((forall va, PGROUNDUP oldsz <= va < PGROUNDUP newsz -> valid root (mem k) va = false) ->
      exists r k' l', uvmalloc root oldsz newsz xperm k = Ret r k' /\
        uvmalloc_result root sz (PGROUNDUP oldsz) newsz (alloc_perm xperm) r k l k' l')).
Proof.
  intros Hu Ho Hn Hperm. split; intros Hlt; split.
  - unfold uvmalloc. by rewrite (proj2 (Z.ltb_lt newsz oldsz)).
  - destruct (uvmdealloc_run root sz oldsz newsz k l Hu (proj1 Hn) Ho) as (k' & l' & [[E U]|[Hle _]]); [|lia].
    rewrite Z.min_r in E by lia. by exists k', l'.
  - unfold uvmdealloc. by rewrite (proj2 (Z.leb_le oldsz newsz)).
  - intros Hfree. apply uvmalloc_run; try done; lia.
Qed.

Lemma grow_shrink_correct_witness : exists r k' l',
  uvmalloc root10 0 8000 PTE_W vm10 = Ret r k' /\ r = 8000 /\ uvm root10 12288 k' l'.
Proof.
  destruct (grow_shrink_correct root10 12288 0 8000 PTE_W vm10 pages9 uvm10) as [_ H];
    [vm_compute; split; congruence..|].
  destruct (H ltac:(lia)) as [_ H2]. destruct H2 as (r & k' & l' & E & [U _] & _).
  { intros va _. unfold valid. by rewrite vm10_empty. }
  exists r, k', l'. split; [exact E|]. split; [|exact U].
  assert (match uvmalloc root10 0 8000 PTE_W vm10 with Ret r _ => r = 8000 | _ => False end) as Er
    by (vm_compute; reflexivity).
  by rewrite E in Er.
Defined.
