(* ===== verification/Ulib.v ===== *)
(** * user/ulib.c: strings and numbers of the user library

    User programs are modelled on C strings as lists of character codes
    without the terminating NUL; a char is an unsigned byte (as on RISC-V).
    Buffers indexed by the code ([itoa], [reverse]) are lists updated in
    place. *)
From stdpp Require Import base list numbers strings.
From Stdlib Require Import ZArith Lia.
From S2P Require Import Prelude.

Abbreviation chars := (list Z).

(** The character codes of a string literal. *)
Definition lit (s : string) : chars := (fun a => Z.of_nat (Ascii.nat_of_ascii a)) <$> String.list_ascii_of_string s.

Definition strcpy (t : chars) : chars := t.

Fixpoint strcmp (p q : chars) : Z :=
  match p, q with
  | [], [] => 0
  | [], b :: _ => 0 - b
  | a :: _, [] => a
  | a :: p', b :: q' => if a =? b then strcmp p' q' else a - b
  end.

Definition strlen (s : chars) : Z := Z.of_nat (length s).

(** The suffix starting at the first [c], None for the null pointer. *)
Fixpoint strchr (s : chars) (c : Z) : option chars :=
  match s with
  | [] => None
  | a :: s' => if a =? c then Some s else strchr s' c
  end.

(** gets: [input] is what read(0, &c, 1) delivers, one character each. *)
Fixpoint gets_loop (n : nat) (input : chars) : chars * chars :=
  match n, input with
  | O, _ => ([], input)
  | S _, [] => ([], [])
  | S n', c :: rest =>
      if (c =? 10) || (c =? 13) then ([c], rest)
      else let '(s, r) := gets_loop n' rest in (c :: s, r)
  end.
Definition gets (max : Z) (input : chars) : chars * chars := gets_loop (Z.to_nat (max - 1)) input.

Fixpoint atoi_loop (n : Z) (s : chars) : Z :=
  match s with
  | c :: s' => if (48 <=? c) && (c <=? 57) then atoi_loop (i32 (n * 10 + c - 48)) s' else n
  | [] => n
  end.
Definition atoi (s : chars) : Z := atoi_loop 0 s.

(** while (i < j) swap str[i] and str[j] *)
Fixpoint reverse_loop (fuel : nat) (str : chars) (i j : Z) : chars :=
  match fuel with
  | O => str
  | S f =>
      if i <? j then
        match str !! Z.to_nat i, str !! Z.to_nat j with
        | Some a, Some b => reverse_loop f (<[Z.to_nat j := a]> (<[Z.to_nat i := b]> str)) (i + 1) (j - 1)
        | _, _ => str
        end
      else str
  end.
Definition reverse (str : chars) (len : Z) : chars := reverse_loop (Z.to_nat len) str 0 (len - 1).

(** The digits pushed by itoa, least significant first. *)
Definition digit_char (rem : Z) : Z := u8 (if 9 <? rem then rem - 10 + 97 else rem + 48).
Fixpoint itoa_loop (fuel : nat) (value base : Z) (str : chars) : chars :=
  match fuel with
  | O => str
  | S f =>
      if negb (value =? 0)
      then itoa_loop f (Z.quot value base) base (str ++ [digit_char (Z.rem value base)])
      else str
  end.

(** None is the null pointer returned for an unsupported base; a value of 32
    bits has at most 32 digits. *)
Definition itoa (value base : Z) : option chars :=
  if negb (base =? 10) && negb (base =? 16) then None
  else if value =? 0 then Some [48]
  else
    let neg := (value <? 0) && (base =? 10) in
    let value := if neg then i32 (- value) else value in
    let str := itoa_loop 32 value base [] in
    let str := if neg then str ++ [45] else str in
    Some (reverse str (strlen str)).

(** ** reverse *)

Lemma reverse_loop_ok fuel : forall (a m b : chars) i j,
  i = Z.of_nat (length a) -> j = Z.of_nat (length a + length m) - 1 -> (length m <= fuel)%nat ->
  reverse_loop fuel (a ++ m ++ b) i j = a ++ rev m ++ b.
Proof.
  induction fuel as [|fuel IH]; intros a m b i j Ei Ej Hf.
  { destruct m; [done|cbn in Hf; lia]. }
  cbn [reverse_loop]. destruct (Z.ltb_spec i j) as [Hij|Hij].
  2: { destruct m as [|x [|y m]]; [done|done|]. cbn in Ej. lia. }
  destruct m as [|x m]; [cbn in Ej; lia|]. destruct m as [|y m _] using rev_ind; [cbn in Ej; lia|].
  assert (Z.to_nat i = length a + 0)%nat as Hi by lia.
  assert (Z.to_nat j = length (a ++ [x] ++ m) + 0)%nat as Hj.
  { rewrite !length_app in *. cbn in *. rewrite length_app in Ej. cbn in Ej. lia. }
  assert (a ++ (x :: m ++ [y]) ++ b = (a ++ [x] ++ m) ++ y :: b) as E2.
  { cbn. by rewrite <- !app_assoc. }
  assert ((a ++ (x :: m ++ [y]) ++ b) !! Z.to_nat i = Some x) as ->.
  { rewrite Hi, lookup_app_r by lia. by rewrite Nat.add_comm, Nat.add_sub. }
  assert ((a ++ (x :: m ++ [y]) ++ b) !! Z.to_nat j = Some y) as ->.
  { rewrite E2, Hj, lookup_app_r by lia. by rewrite Nat.add_comm, Nat.add_sub. }
  assert (<[Z.to_nat j := x]> (<[Z.to_nat i := y]> (a ++ (x :: m ++ [y]) ++ b)) =
          (a ++ [y]) ++ m ++ (x :: b)) as ->.
  { rewrite Hi. rewrite insert_app_r. cbn [app insert list_insert].
    assert (a ++ y :: (m ++ [y]) ++ b = (a ++ [y] ++ m) ++ y :: b) as ->.
    { rewrite <- !app_assoc. done. }
    assert (Z.to_nat j = length (a ++ [y] ++ m) + 0)%nat as ->
      by (rewrite Hj, !length_app; done).
    rewrite insert_app_r. cbn. by rewrite <- !app_assoc. }
  rewrite IH.
  - cbn [rev]. rewrite rev_app_distr. cbn. by rewrite <- !app_assoc.
  - rewrite length_app. cbn. lia.
  - rewrite !length_app in *. cbn in *. rewrite length_app in Ej. cbn in Ej. lia.
  - cbn [length] in Hf. rewrite length_app in Hf. cbn [length] in Hf. lia.
Qed.

Lemma reverse_rev s : reverse s (strlen s) = rev s.
Proof.
  unfold reverse, strlen. rewrite Nat2Z.id.
  pose proof (reverse_loop_ok (length s) [] s [] 0 (Z.of_nat (length s) - 1)) as H.
  rewrite !app_nil_r in H. cbn [app] in H. apply H; [done|cbn; lia|lia].
Qed.

Lemma strcmp_zero p : forall q, Forall (fun c => 0 < c) p -> Forall (fun c => 0 < c) q ->
  strcmp p q = 0 <-> p = q.
Proof.
  induction p as [|a p IH]; intros [|b q] Hp Hq; cbn; try done.
  - inversion Hq; subst. split; [lia|done].
  - inversion Hp; subst. split; [lia|done].
  - inversion Hp; inversion Hq; subst. destruct (Z.eqb_spec a b) as [->|Hne].
    + rewrite IH by done. split; [by intros ->|by intros [= ->]].
    + split; [lia|]. intros [= ? _]. done.
Qed.

(** ** Decimal and hexadecimal numbers *)

(** The value of a numeral, most significant digit first. *)
Definition digit_val (c : Z) : Z := if c <? 58 then c - 48 else c - 87.
Definition num (base : Z) (s : chars) : Z := fold_left (fun n c => n * base + digit_val c) s 0.

Definition is_digit (base c : Z) : bool :=
  (48 <=? c) && (c <? 48 + Z.min base 10) || (97 <=? c) && (c <? 97 + (base - 10)).

(** A numeral without leading zeros. *)
Definition numeral (base : Z) (s : chars) : Prop :=
  s <> [] /\ Forall (fun c => is_digit base c = true) s /\ (head s = Some 48 -> s = [48]).

Lemma digit_char_ok base r : base = 10 \/ base = 16 -> 0 <= r < base ->
  is_digit base (digit_char r) = true /\ digit_val (digit_char r) = r.
Proof.
  intros Hb Hr. unfold digit_char, is_digit, digit_val.
  destruct (Z.ltb_spec 9 r); rewrite wrap_small by (rewrite pow2_8; lia).
  - destruct Hb as [-> | ->]; [lia|]. split; zbool; cbn in *; try done; lia.
  - destruct Hb as [-> | ->]; split; zbool; cbn in *; try done; lia.
Qed.

Lemma num_app base s t : num base (s ++ t) = num base s * base ^ Z.of_nat (length t) + num base t.
Proof.
  unfold num. rewrite fold_left_app. generalize (fold_left (fun n c => n * base + digit_val c) s 0). intros z.
  revert z. induction t as [|c t IH] using rev_ind; intros z; [cbn; lia|].
  rewrite !fold_left_app, length_app. cbn [fold_left length]. rewrite IH.
  rewrite Nat2Z.inj_add. cbn [Z.of_nat Pos.of_succ_nat]. rewrite Z.pow_add_r by lia. lia.
Qed.

(** The loop pushes the digits of a positive value. *)
Lemma itoa_loop_ok fuel : forall v base str, base = 10 \/ base = 16 -> 0 < v < 2 ^ Z.of_nat fuel ->
  exists ds, itoa_loop fuel v base str = str ++ ds /\ ds <> [] /\
    Forall (fun c => is_digit base c = true) ds /\ num base (rev ds) = v /\ last ds <> Some 48.
Proof.
  induction fuel as [|fuel IH]; intros v base str Hb Hv; [cbn in Hv; lia|].
  cbn [itoa_loop]. rewrite (proj2 (Z.eqb_neq v 0)) by lia. cbn [negb].
  assert (2 <= base) as Hb2 by (destruct Hb; lia).
  rewrite Z.quot_div_nonneg, Z.rem_mod_nonneg by lia.
  pose proof (Z.mod_pos_bound v base ltac:(lia)) as Hm.
  destruct (digit_char_ok base (v mod base) Hb Hm) as [Hd1 Hd2].
  assert (0 <= v / base) as Hq by (apply Z.div_pos; lia).
  pose proof (Z.div_mod v base ltac:(lia)) as Hdm.
  destruct (decide (v / base = 0)) as [E|E].
  - exists [digit_char (v mod base)]. rewrite E.
    split; [destruct fuel; done|]. split; [done|]. split; [by constructor|].
    split; [unfold num; cbn; rewrite Hd2; rewrite E in Hdm; lia|].
    cbn. intros [= E2]. rewrite E2 in Hd2. unfold digit_val in Hd2. cbn in Hd2. rewrite E in Hdm. lia.
  - destruct (IH (v / base) base (str ++ [digit_char (v mod base)]) Hb) as (ds & -> & Hne & Hf & Hn & Hl).
    { split; [lia|]. apply Z.div_lt_upper_bound; [lia|].
      rewrite Nat2Z.inj_succ, Z.pow_succ_r in Hv by lia.
      assert (2 * 2 ^ Z.of_nat fuel <= base * 2 ^ Z.of_nat fuel) by (apply Z.mul_le_mono_nonneg_r; lia). lia. }
    exists (digit_char (v mod base) :: ds). split; [by rewrite <- app_assoc|]. split; [done|].
    split; [by constructor|]. split.
    + cbn [rev]. rewrite num_app, Hn. unfold num at 1. cbn. rewrite Hd2. lia.
    + by destruct ds.
Qed.

Lemma last_rev_head (s : chars) : head (rev s) = last s.
Proof. induction s as [|x s IH] using rev_ind; [done|]. by rewrite rev_app_distr, last_snoc. Qed.

Lemma itoa_pos v base : base = 10 \/ base = 16 -> 0 <= v < 2 ^ 31 ->
  exists s, itoa v base = Some s /\ numeral base s /\ num base s = v.
Proof.
  intros Hb Hv. unfold itoa.
  assert (negb (base =? 10) && negb (base =? 16) = false) as -> by (destruct Hb; subst; done).
  destruct (Z.eqb_spec v 0) as [->|Hnz].
  { exists [48]. split; [done|]. split; [|done]. split; [done|]. split; [|done].
    repeat constructor. by destruct Hb; subst. }
  rewrite (proj2 (Z.ltb_ge v 0)) by lia. cbn [andb].
  destruct (itoa_loop_ok 32 v base [] Hb) as (ds & E & Hne & Hf & Hn & Hl).
  { change (Z.of_nat 32) with 32. rewrite pow2_32. rewrite pow2_31 in Hv. lia. }
  rewrite E. cbn [app]. rewrite reverse_rev. exists (rev ds). split; [done|]. split; [|done]. split.
  - intros E0. apply Hne. apply (f_equal (@rev Z)) in E0. by rewrite rev_involutive in E0.
  - split; [apply Forall_rev, Hf|]. rewrite last_rev_head. done.
Qed.

Lemma atoi_loop_num s : forall n, Forall (fun c => is_digit 10 c = true) s -> 0 <= n ->
  n * 10 ^ Z.of_nat (length s) + num 10 s < 2 ^ 31 ->
  atoi_loop n s = n * 10 ^ Z.of_nat (length s) + num 10 s.
Proof.
  induction s as [|c s IH]; intros n Hf Hn Hmax; [cbn; lia|].
  apply Forall_cons in Hf as [Hc Hf]. cbn [atoi_loop].
  assert (48 <= c <= 57 /\ digit_val c = c - 48) as [Hr Hd].
  { unfold is_digit, digit_val in *. destruct (Z.leb_spec 48 c), (Z.ltb_spec c (48 + Z.min 10 10)),
      (Z.leb_spec 97 c), (Z.ltb_spec c (97 + (10 - 10))); cbn in *; try done; try lia.
    rewrite (proj2 (Z.ltb_lt c 58)) by lia. lia. }
  rewrite (proj2 (Z.leb_le 48 c)), (proj2 (Z.leb_le c 57)) by lia. cbn [andb].
  pose proof (num_app 10 [c] s) as Ena. change ([c] ++ s) with (c :: s) in Ena.
  assert (num 10 [c] = c - 48) as Ec by (unfold num; cbn; lia). rewrite Ec in Ena.
  cbn [length] in *. rewrite Nat2Z.inj_succ, Z.pow_succ_r in * by lia.
  assert (0 < 10 ^ Z.of_nat (length s)) as Hp by (apply Z.pow_pos_nonneg; lia).
  assert (0 <= num 10 s) as Hns.
  { clear -Hf. induction s as [|d s IH] using rev_ind; [cbn; lia|]. apply Forall_app in Hf as [Hf Hd].
    rewrite num_app. specialize (IH Hf). rewrite Forall_singleton in Hd. unfold num at 2. cbn.
    unfold is_digit, digit_val in *. zbool; cbn in *; try done; lia. }
  rewrite Ena in Hmax |- *.
  assert (0 <= n * 10 + c - 48 < 2 ^ 31) as Hb by nia.
  rewrite swrap_small by (change (32 - 1) with 31; lia).
  rewrite IH; [lia|done|lia|]. lia.
Qed.

Definition itoa_spec (v base : Z) : Prop :=
  match itoa v base with
  | None => base <> 10 /\ base <> 16
  | Some s =>
      if 0 <=? v then numeral base s /\ num base s = v /\ (base = 10 -> atoi s = v)
      else base = 10 -> exists t, s = 45 :: t /\ numeral 10 t /\ num 10 t = - v
  end.

(** itoa writes the number and atoi reads it back. For every int above
    the smallest one, and every non-negative one in base 16, itoa terminates
    with the numeral of the value, without leading zeros and with a minus sign
    for a negative one; atoi of a non-negative decimal result is the value.
    Other bases give the null pointer. *)
Theorem itoa_atoi_roundtrip v base : - 2 ^ 31 < v < 2 ^ 31 -> itoa_spec v base.
Proof.
  intros Hv. unfold itoa_spec. destruct (decide (base = 10 \/ base = 16)) as [Hb|Hb].
  2: { assert (itoa v base = None) as ->; [|lia]. unfold itoa.
       rewrite (proj2 (Z.eqb_neq base 10)), (proj2 (Z.eqb_neq base 16)) by lia. done. }
  destruct (Z.leb_spec 0 v) as [Hp|Hn].
  - destruct (itoa_pos v base Hb ltac:(lia)) as (s & -> & Hnum & Hval). split; [done|]. split; [done|].
    intros ->. destruct Hnum as (_ & Hf & _). unfold atoi.
    rewrite (atoi_loop_num s 0) by (done || lia). lia.
  - destruct (itoa v base) as [s|] eqn:E.
    2: { unfold itoa in E. destruct Hb as [-> | ->]; cbn in E; destruct (v =? 0); discriminate E. }
    intros ->. unfold itoa in E. cbn [Z.eqb Pos.eqb negb andb] in E.
    rewrite (proj2 (Z.eqb_neq v 0)), (proj2 (Z.ltb_lt v 0)) in E by lia. cbn [andb] in E.
    rewrite swrap_small in E by (change (32 - 1) with 31; lia).
    destruct (itoa_loop_ok 32 (- v) 10 [] ltac:(by left)) as (ds & E2 & Hne & Hf & Hnum & Hl).
    { change (Z.of_nat 32) with 32. rewrite pow2_32. rewrite pow2_31 in Hv. lia. }
    rewrite E2 in E. cbn [app] in E. rewrite reverse_rev, rev_app_distr in E. injection E as <-.
    exists (rev ds). split; [done|]. split; [|done]. split; [|split].
    + intros E0. apply Hne. apply (f_equal (@rev Z)) in E0. by rewrite rev_involutive in E0.
    + by apply Forall_rev.
    + by rewrite last_rev_head.
Qed.

Lemma itoa_atoi_roundtrip_witness : itoa (-305) 10 = Some (lit "-305") /\ atoi (lit "305") = 305.
Proof.
  assert (itoa_spec (-305) 10) as _ by (apply (itoa_atoi_roundtrip (-305) 10); lia).
  pose proof (itoa_atoi_roundtrip 305 10 ltac:(lia)) as H. unfold itoa_spec in H.
  assert (itoa 305 10 = Some (lit "305")) as E by (vm_compute; reflexivity). rewrite E in H.
  split; [vm_compute; reflexivity|]. by apply H.
Defined.

(** The smallest int is its own negation, and its remainders are negative:
    the characters stored are not digits. *)
Lemma itoa_int_min : itoa (- 2 ^ 31) 10 = Some (lit "-./,),(-*,(").
Proof. vm_compute. reflexivity. Qed.

(** A negative number in base 16 has negative remainders too. *)
Lemma itoa_hex_negative : itoa (-1) 16 = Some (lit "/").
Proof. vm_compute. reflexivity. Qed.
