(* ===== verification/Uprintf.v ===== *)
(** * user/printf.c: formatted output

    The characters a call writes to its file descriptor, as a list. The
    arguments are integers (as passed, before the conversion of va_arg) or
    strings, None for the null pointer. *)
From stdpp Require Import base list numbers strings.
From Stdlib Require Import ZArith Lia.
From S2P Require Import Prelude Ulib.

Inductive arg := AInt (z : Z) | AStr (s : option chars).

Definition digits : chars := lit "0123456789ABCDEF".
Definition digit (k : Z) : Z := default 0 (digits !! Z.to_nat k).

(** do { buf[i++] = digits[x % base]; } while ((x /= base) != 0); a 64-bit
    value has at most 64 digits. *)
Fixpoint printint_loop (fuel : nat) (x base : Z) : chars :=
  match fuel with
  | O => []
  | S f => digit (x mod base) :: (if negb (x / base =? 0) then printint_loop f (x / base) base else [])
  end.

(** The characters stored in buf, in the order they are stored. *)
Definition printint_buf (xx base : Z) (sgn : bool) : chars :=
  let neg := sgn && (xx <? 0) in
  let x := if neg then u64 (- xx) else u64 xx in
  let buf := printint_loop 64 x base in
  if neg then buf ++ [45] else buf.

(** while (--i >= 0) putc(fd, buf[i]); *)
Definition printint (xx base : Z) (sgn : bool) : chars := rev (printint_buf xx base sgn).

Fixpoint printptr_loop (n : nat) (x : Z) : chars :=
  match n with
  | O => []
  | S n' => digit (Z.shiftr x 60) :: printptr_loop n' (u64 (Z.shiftl x 4))
  end.
Definition printptr (x : Z) : chars := [48; 120] ++ printptr_loop 16 x.

(** va_arg *)
Definition next_int (ap : list arg) : Z := match ap with AInt z :: _ => z | _ => 0 end.
Definition next_str (ap : list arg) : chars :=
  match ap with AStr (Some s) :: _ => s | AStr None :: _ => lit "(null)" | _ => [] end.

Definition chr (s : string) : Z := default 0 (head (lit s)).

(** [state] is the state variable of the loop, [skip] the characters that
    i += 1 and i += 2 jump over. *)
Fixpoint vprintf (fmt : chars) (state : bool) (skip : nat) (ap : list arg) : chars :=
  match fmt with
  | [] => []
  | c0 :: rest =>
      match skip with
      | S k => vprintf rest state k ap
      | O =>
          if negb state then
            if c0 =? chr "%" then vprintf rest true 0 ap else c0 :: vprintf rest false 0 ap
          else
            let c1 := default 0 (head rest) in
            let c2 := if c1 =? 0 then 0 else default 0 (head (tail rest)) in
            let int_with f k := f (next_int ap) ++ vprintf rest false k (tail ap) in
            if c0 =? chr "d" then int_with (fun z => printint (i32 z) 10 true) 0%nat
            else if (c0 =? chr "l") && (c1 =? chr "d") then int_with (fun z => printint (i64 z) 10 true) 1%nat
            else if (c0 =? chr "l") && (c1 =? chr "l") && (c2 =? chr "d") then
              int_with (fun z => printint (i64 z) 10 true) 2%nat
            else if c0 =? chr "u" then int_with (fun z => printint (u32 z) 10 false) 0%nat
            else if (c0 =? chr "l") && (c1 =? chr "u") then int_with (fun z => printint (u64 z) 10 false) 1%nat
            else if (c0 =? chr "l") && (c1 =? chr "l") && (c2 =? chr "u") then
              int_with (fun z => printint (u64 z) 10 false) 2%nat
            else if c0 =? chr "x" then int_with (fun z => printint (u32 z) 16 false) 0%nat
            else if (c0 =? chr "l") && (c1 =? chr "x") then int_with (fun z => printint (u64 z) 16 false) 1%nat
            else if (c0 =? chr "l") && (c1 =? chr "l") && (c2 =? chr "x") then
              int_with (fun z => printint (u64 z) 16 false) 2%nat
            else if c0 =? chr "p" then int_with (fun z => printptr (u64 z)) 0%nat
            else if c0 =? chr "c" then int_with (fun z => [u8 z]) 0%nat
            else if c0 =? chr "s" then next_str ap ++ vprintf rest false 0 (tail ap)
            else if c0 =? chr "%" then chr "%" :: vprintf rest false 0 ap
            else chr "%" :: c0 :: vprintf rest false 0 ap
      end
  end.

Definition printf (fmt : string) (ap : list arg) : chars := vprintf (lit fmt) false 0 ap.

(** ** Numbers *)

(** The value of an upper-case numeral, most significant digit first. *)
Definition upper_val (c : Z) : Z := if c <? 58 then c - 48 else c - 55.
Definition unum (base : Z) (s : chars) : Z := fold_left (fun n c => n * base + upper_val c) s 0.

Lemma digit_val_ok k : 0 <= k < 16 -> upper_val (digit k) = k /\ 48 <= digit k <= 70.
Proof.
  intros Hk. assert (Forall (fun k => upper_val (digit k) = k /\ 48 <= digit k <= 70) (seqZ 0 16)) as H
    by (repeat constructor; vm_compute; congruence).
  rewrite Forall_forall in H. apply H. apply elem_of_seqZ. lia.
Qed.

Lemma unum_snoc base s c : unum base (s ++ [c]) = unum base s * base + upper_val c.
Proof. unfold unum. by rewrite fold_left_app. Qed.

Lemma printint_loop_ok fuel : forall x base, 2 <= base <= 16 -> 0 <= x < 2 ^ Z.of_nat (S fuel) ->
  unum base (rev (printint_loop (S fuel) x base)) = x /\
  Forall (fun c => 48 <= c <= 70) (printint_loop (S fuel) x base) /\
  (0 < x -> base ^ (Z.of_nat (length (printint_loop (S fuel) x base)) - 1) <= x) /\
  (x = 0 -> printint_loop (S fuel) x base = [48]).
Proof.
  induction fuel as [|fuel IH]; intros x base Hb Hx.
  - pose proof (Z.mod_pos_bound x base ltac:(lia)) as Hm.
    destruct (digit_val_ok (x mod base) ltac:(lia)) as [E1 E2].
    assert (x < base) by (change (2 ^ Z.of_nat 1) with 2 in Hx; lia).
    cbn [printint_loop]. rewrite (Z.div_small x base) by lia. cbn [negb Z.eqb rev app length].
    rewrite Z.mod_small in * by lia. split; [unfold unum; cbn; lia|]. split; [by constructor|].
    split; [intros; change (base ^ (Z.of_nat 1 - 1)) with 1; lia|]. by intros ->.
  - pose proof (Z.mod_pos_bound x base ltac:(lia)) as Hm.
    destruct (digit_val_ok (x mod base) ltac:(lia)) as [E1 E2].
    pose proof (Z.div_mod x base ltac:(lia)) as Hdm.
    remember (S fuel) as f1 eqn:Ef. cbn [printint_loop].
    destruct (Z.eqb_spec (x / base) 0) as [E|E]; cbn [negb].
    + cbn [rev app length]. split; [unfold unum; cbn; rewrite E in Hdm; lia|]. split; [by constructor|].
      split; [intros; change (base ^ (Z.of_nat 1 - 1)) with 1; lia|].
      intros ->. by rewrite Z.mod_0_l by lia.
    + assert (0 < x / base) as Hq by (pose proof (Z.div_pos x base); lia).
      destruct (IH (x / base) base Hb) as (I1 & I2 & I3 & _).
      { split; [lia|]. apply Z.div_lt_upper_bound; [lia|].
        rewrite Nat2Z.inj_succ, Z.pow_succ_r in Hx by lia.
        assert (2 * 2 ^ Z.of_nat f1 <= base * 2 ^ Z.of_nat f1) by (apply Z.mul_le_mono_nonneg_r; lia).
        lia. }
      cbn [rev]. split; [rewrite unum_snoc, I1; lia|].
      split; [by constructor|]. split; [|intros ->; by rewrite Z.div_0_l in Hq by lia].
      intros _. specialize (I3 Hq). cbn [length]. rewrite Nat2Z.inj_succ.
      assert (0 < length (printint_loop f1 (x / base) base))%nat as Hl by (subst f1; cbn; lia).
      replace (Z.succ (Z.of_nat (length (printint_loop f1 (x / base) base))) - 1)
        with (Z.succ (Z.of_nat (length (printint_loop f1 (x / base) base)) - 1)) by lia.
      rewrite Z.pow_succ_r by lia. nia.
Qed.

Definition printint_spec (xx base : Z) (sgn : bool) : Prop :=
  let buf := printint_buf xx base sgn in
  Z.of_nat (length buf) <= 20 /\
  (if sgn && (xx <? 0) then exists t, printint xx base sgn = 45 :: t /\ unum base t = - xx
   else unum base (printint xx base sgn) = u64 xx).

(** printint writes the number in base 10 or 16, a minus sign in front of
    a negative signed one, and the local array of 20 characters it builds the
    digits in is never overrun, for any 64-bit argument. *)
Theorem printint_correct xx base sgn : base = 10 \/ base = 16 -> - 2 ^ 63 <= xx < 2 ^ 64 ->
  (sgn = true -> xx < 2 ^ 63 /\ base = 10) -> printint_spec xx base sgn.
Proof.
  intros Hb Hx Hs. unfold printint_spec, printint, printint_buf. cbv zeta.
  set (neg := sgn && (xx <? 0)). set (x := if neg then u64 (- xx) else u64 xx).
  assert (0 <= x < 2 ^ 64 /\ (neg = true -> x = - xx /\ x <= 2 ^ 63 /\ base = 10)) as [Hx64 Hneg].
  { unfold x, neg. destruct sgn, (Z.ltb_spec xx 0); cbn [andb]; (split; [apply wrap_range; lia|]); try done.
    intros _. rewrite wrap_small by (rewrite pow2_64; rewrite pow2_63 in Hx; lia).
    split; [done|]. split; [lia|]. by apply Hs. }
  destruct (printint_loop_ok 63 x base ltac:(lia)) as (E & _ & Hlen & H0).
  { change (Z.of_nat 64) with 64. done. }
  set (ds := printint_loop 64 x base) in *.
  assert (Z.of_nat (length ds) <= if neg then 19 else 20) as Hl.
  { destruct (decide (x = 0)) as [Ez|Ez]; [rewrite (H0 Ez); destruct neg; cbn; lia|].
    specialize (Hlen ltac:(lia)).
    assert (forall k, 0 <= k -> 10 ^ k <= base ^ k) as Hpow by (intros k Hk; apply Z.pow_le_mono_l; lia).
    destruct (Z.le_gt_cases (Z.of_nat (length ds)) (if neg then 19 else 20)) as [|Hgt]; [done|]. exfalso.
    set (k := Z.of_nat (length ds) - 1) in *. assert (k = Z.of_nat (length ds) - 1) as Ek by done. clearbody k.
    destruct neg.
    - destruct (Hneg eq_refl) as (_ & Hm & _). assert (10 ^ 19 <= 10 ^ k) by (apply Z.pow_le_mono_r; lia).
      specialize (Hpow k ltac:(lia)). change (10 ^ 19) with 10000000000000000000 in *. rewrite pow2_63 in Hm. lia.
    - assert (10 ^ 20 <= 10 ^ k) by (apply Z.pow_le_mono_r; lia). specialize (Hpow k ltac:(lia)).
      change (10 ^ 20) with 100000000000000000000 in *. rewrite pow2_64 in Hx64. lia. }
  destruct neg.
  - destruct (Hneg eq_refl) as (Ex & _ & _). split; [rewrite length_app; cbn [length]; lia|].
    exists (rev ds). rewrite rev_app_distr. split; [done|]. by rewrite E.
  - split; [done|]. by rewrite E.
Qed.

Lemma printint_correct_witness : printint (-42) 10 true = lit "-42" /\
  unum 16 (printint 255 16 false) = 255.
Proof.
  destruct (printint_correct 255 16 false ltac:(by right) ltac:(lia) ltac:(done)) as [_ H].
  split; [vm_compute; reflexivity|exact H].
Defined.

(** Plain text goes out as it is. *)
Lemma vprintf_text s : forall ap, Forall (fun c => c <> chr "%") s -> vprintf s false 0 ap = s.
Proof.
  induction s as [|c s IH]; intros ap Hf; [done|]. apply Forall_cons in Hf as [Hc Hf].
  cbn [vprintf negb]. by rewrite (proj2 (Z.eqb_neq c (chr "%")) Hc), IH.
Qed.
