(* ===== verification/Dto.v ===== *)
(** * dto/u_proc.h: the records the kernel passes to topfree

    The structures shared by the kernel (kernel_getallprocs, sys_getmemstats)
    and the user program, and their layout in memory. *)
From stdpp Require Import base list numbers strings.
From Stdlib Require Import ZArith Lia.
From S2P Require Import Prelude Ulib.

Definition U_UNUSED : Z := 0.
Definition U_USED : Z := 1.
Definition U_SLEEPING : Z := 2.
Definition U_RUNNABLE : Z := 3.
Definition U_RUNNING : Z := 4.
Definition U_ZOMBIE : Z := 5.

Record u_proc_info := UInfo {
  pid : Z; state : Z; name : chars; is_killed : Z; memory : Z; cpu_ticks : Z;
}.
Record u_proc := UProc { me : u_proc_info; parent : u_proc_info }.

Record u_memmory := UMem {
  read_disk_counter : Z; write_disk_counter : Z; read_cache_counter : Z; write_cache_counter : Z;
  read_cache_hit_counter : Z; free_cache : Z; free_ram : Z; free_disk : Z;
}.

(** The result of memset(up, 0, sizeof(struct u_proc)). *)
Definition zero_info : u_proc_info := UInfo 0 0 [] 0 0 0.

(** struct u_proc_info in memory: int pid, enum state, char name[16],
    int is_killed, four bytes of padding, long memory, long cpu_ticks. *)
Definition INFO_SIZE : Z := 48.
Definition put_info (v : u_proc_info) (o : Z) (m : bytes) : bytes :=
  let m := st32 m o (pid v) in
  let m := st32 m (o + 4) (state v) in
  let m := store_list (fill m (o + 8) 0 16) (o + 8) (name v) in
  let m := st32 m (o + 24) (is_killed v) in
  let m := st64 m (o + 32) (memory v) in
  st64 m (o + 40) (cpu_ticks v).

Definition UPROC_SIZE : Z := 2 * INFO_SIZE.
Definition put_uproc (v : u_proc) : bytes := put_info (parent v) INFO_SIZE (put_info (me v) 0 (fun _ => 0)).

(** The nul-terminated string of at most [n] characters at [a]. *)
Fixpoint get_name (n : nat) (m : bytes) (a : Z) : chars :=
  match n with
  | O => []
  | S n' => if m a =? 0 then [] else m a :: get_name n' m (a + 1)
  end.

(** What the user program reads. *)
Definition get_info (m : bytes) (o : Z) : u_proc_info :=
  UInfo (i32 (ld32 m o)) (ld32 m (o + 4)) (get_name 16 m (o + 8)) (i32 (ld32 m (o + 24)))
    (i64 (ld64 m (o + 32))) (i64 (ld64 m (o + 40))).
Definition get_uproc (m : bytes) (o : Z) : u_proc := UProc (get_info m o) (get_info m (o + INFO_SIZE)).

(** Fields that fit their types. *)
Record info_ok (v : u_proc_info) : Prop := {
  io_pid : - 2 ^ 31 <= pid v < 2 ^ 31;
  io_state : 0 <= state v < 2 ^ 32;
  io_name : (length (name v) <= 15)%nat /\ Forall (fun c => 0 < c < 256) (name v);
  io_killed : - 2 ^ 31 <= is_killed v < 2 ^ 31;
  io_memory : - 2 ^ 63 <= memory v < 2 ^ 63;
  io_ticks : - 2 ^ 63 <= cpu_ticks v < 2 ^ 63;
}.

Lemma i32_mod z : - 2 ^ 31 <= z < 2 ^ 31 -> i32 (z mod 2 ^ 32) = z.
Proof. intros. unwrap. change (2 ^ 31) with 2147483648 in *. dlia. Qed.

Lemma i64_mod z : - 2 ^ 63 <= z < 2 ^ 63 -> i64 (z mod 2 ^ 64) = z.
Proof. intros. unwrap. change (2 ^ 63) with 9223372036854775808 in *. dlia. Qed.

Lemma get_name_stored l : forall n m a, (length l < n)%nat -> Forall (fun c => 0 < c < 256) l ->
  m (a + Z.of_nat (length l)) = 0 -> get_name n (store_list m a l) a = l.
Proof.
  induction l as [|c l IH]; intros n m a Hn Hf H0; (destruct n as [|n]; [lia|]); cbn [get_name store_list].
  - cbn in H0. rewrite Z.add_0_r in H0. by rewrite H0.
  - apply Forall_cons in Hf as [Hc Hf]. cbn [length] in *.
    rewrite store_list_other by lia. rewrite fupd_eq.
    rewrite (proj2 (Z.eqb_neq c 0)) by lia. f_equal. apply IH; [lia|done|].
    rewrite fupd_ne by lia. rewrite <- H0. f_equal. lia.
Qed.

Lemma get_name_ext n : forall m m' a, (forall x, a <= x < a + Z.of_nat n -> m x = m' x) ->
  get_name n m a = get_name n m' a.
Proof.
  induction n as [|n IH]; intros m m' a H; [done|]. cbn. rewrite (H a) by lia.
  rewrite (IH m m') by (intros; apply H; lia). done.
Qed.

Lemma put_info_other v o m x : info_ok v -> x < o \/ o + INFO_SIZE <= x -> put_info v o m x = m x.
Proof.
  intros [_ _ [Hl _] _ _ _] Hx. unfold put_info, INFO_SIZE in *.
  rewrite !st_other by lia. rewrite store_list_other by lia. rewrite fill_out by lia.
  by rewrite !st_other by lia.
Qed.

Lemma get_put_info v o m : info_ok v -> get_info (put_info v o m) o = v.
Proof.
  intros [H1 H2 [H3 H3'] H4 H5 H6]. unfold get_info, put_info.
  set (m1 := st32 m o (pid v)). set (m2 := st32 m1 (o + 4) (state v)).
  set (m3 := store_list (fill m2 (o + 8) 0 16) (o + 8) (name v)).
  set (m4 := st32 m3 (o + 24) (is_killed v)). set (m5 := st64 m4 (o + 32) (memory v)).
  assert (forall k b, b + Z.of_nat k <= o + 8 -> ld k m3 b = ld k m2 b) as E3.
  { intros k b Hb. apply ld_ext. intros x Hx. unfold m3. rewrite store_list_other by lia.
    apply fill_out. lia. }
  assert (ld32 (st64 m5 (o + 40) (cpu_ticks v)) o = pid v mod 2 ^ 32) as ->.
  { unfold m5, m4. rewrite !ld_st_other by lia. rewrite E3 by lia. unfold m2. rewrite ld_st_other by lia.
    unfold m1. by rewrite ld_st_same. }
  assert (ld32 (st64 m5 (o + 40) (cpu_ticks v)) (o + 4) = state v) as ->.
  { unfold m5, m4. rewrite !ld_st_other by lia. rewrite E3 by lia. unfold m2. rewrite ld_st_same.
    by apply Z.mod_small. }
  assert (ld32 (st64 m5 (o + 40) (cpu_ticks v)) (o + 24) = is_killed v mod 2 ^ 32) as ->.
  { unfold m5. rewrite !ld_st_other by lia. unfold m4. by rewrite ld_st_same. }
  assert (ld64 (st64 m5 (o + 40) (cpu_ticks v)) (o + 32) = memory v mod 2 ^ 64) as ->.
  { rewrite ld_st_other by lia. unfold m5. by rewrite ld_st_same. }
  rewrite ld_st_same. change (256 ^ Z.of_nat 8) with (2 ^ 64).
  rewrite !i32_mod, !i64_mod by done.
  rewrite (get_name_ext 16 _ m3).
  2: { intros x Hx. unfold m5, m4. rewrite !st_other by lia. done. }
  unfold m3. rewrite get_name_stored; [by destruct v|lia|done|]. rewrite fill_in by lia. done.
Qed.

Lemma get_put_uproc v : info_ok (me v) -> info_ok (parent v) -> get_uproc (put_uproc v) 0 = v.
Proof.
  intros Hm Hp. unfold get_uproc, put_uproc. rewrite Z.add_0_l, get_put_info by done.
  assert (get_info (put_info (parent v) INFO_SIZE (put_info (me v) 0 (fun _ => 0))) 0 = me v) as ->.
  { rewrite <- (get_put_info (me v) 0 (fun _ => 0) Hm) at 2. unfold get_info.
    rewrite (get_name_ext 16 _ (put_info (me v) 0 (fun _ => 0)))
      by (intros; apply put_info_other; [done|unfold INFO_SIZE; lia]).
    assert (forall k b, b + Z.of_nat k <= 48 -> ld k (put_info (parent v) INFO_SIZE (put_info (me v) 0 (fun _ => 0))) b =
      ld k (put_info (me v) 0 (fun _ => 0)) b) as E.
    { intros k b Hb. apply ld_ext. intros x Hx. apply put_info_other; [done|unfold INFO_SIZE; lia]. }
    by rewrite !E by lia. }
  by destruct v.
Qed.
