(* ===== verification/Topfree.v ===== *)
(** * user/topfree.c and user/topfree_utils.c: the process monitor

    The text the program prints is a list of characters; the system calls it
    makes (getallprocs, getmemstats, uptime, getc_nb) are inputs of the model,
    one value per call. Longs are 64-bit and ints 32-bit, with the conversions
    the code makes written out. *)
From stdpp Require Import base list numbers strings.
From Stdlib Require Import ZArith Lia.
From S2P Require Import Prelude Ulib Uprintf Dto.

(** ** topfree.h *)
Definition PID_WIDTH : Z := 6.
Definition STATE_WIDTH : Z := 10.
Definition KILLED_WIDTH : Z := 8.
Definition NAME_WIDTH : Z := 16.
Definition CPU_WIDTH : Z := 10.
Definition MEMORY_WIDTH : Z := 10.
Definition TIME_WIDTH : Z := 10.
Definition PARENT_WIDTH : Z := 30.
Definition TOTAL_MEM_BYTES : Z := 134217728.

Record topfree_config := Config {
  max_iterations : Z; cpu_opt : Z; mem_opt : Z; sort_opt : Z; time_opt : Z;
  pause_duration : Z; pause_unit : Z;
}.

(** ** Formatting *)

Definition str_append (dest src : chars) : chars := dest ++ src.

Definition state_to_string (s : Z) : chars :=
  if s =? U_UNUSED then lit "UNUSED" else if s =? U_USED then lit "USED"
  else if s =? U_SLEEPING then lit "SLEEPING" else if s =? U_RUNNABLE then lit "RUNNABLE"
  else if s =? U_RUNNING then lit "RUNNING" else if s =? U_ZOMBIE then lit "ZOMBIE"
  else lit "UNKNOWN".

Definition print_padded (s : chars) (width : Z) : chars :=
  printf "%s" [AStr (Some s)] ++ replicate (Z.to_nat (width - strlen s)) 32.

(** itoa(v, buf, 10) for a long v, converted to int by the call *)
Definition itoa10 (v : Z) : chars := default [] (itoa (i32 v) 10).

(** whole "." fraction suffix, where scaled = value * scale *)
Definition fixed_point (scaled scale : Z) (suffix : string) : chars :=
  let buf := itoa10 (Z.quot scaled scale) in
  let buf := str_append buf (lit ".") in
  let tmp := itoa10 (Z.rem scaled scale) in
  let buf := str_append buf tmp in
  str_append buf (lit suffix).

Definition format_cpu (ticks up_ticks opt : Z) : chars :=
  if opt =? chr "p" then
    let up_ticks := if up_ticks <=? 0 then 1 else up_ticks in
    fixed_point (Z.quot (i64 (ticks * 100 * 100)) up_ticks) 100 "%"
  else if opt =? chr "s" then fixed_point ticks 10 "s"
  else itoa10 ticks.

Definition format_mem (mem_bytes opt : Z) : chars :=
  if opt =? chr "p" then fixed_point (Z.quot (i64 (mem_bytes * 100 * 100)) TOTAL_MEM_BYTES) 100 "%"
  else if opt =? chr "K" then fixed_point (Z.quot (i64 (mem_bytes * 100)) 1024) 100 "K"
  else if opt =? chr "M" then fixed_point (Z.quot (i64 (mem_bytes * 1000)) (1024 * 1024)) 1000 "M"
  else if opt =? chr "G" then
    fixed_point (Z.quot (i64 (mem_bytes * 10000)) (1024 * 1024 * 1024)) 10000 "G"
  else itoa10 mem_bytes.

Definition format_time (ticks opt : Z) : chars :=
  if opt =? chr "m" then str_append (itoa10 (i64 (ticks * 100))) (lit "ms")
  else if opt =? chr "M" then fixed_point (Z.quot (i64 (ticks * 10)) 600) 10 "m"
  else fixed_point ticks 10 "s".

Definition print_percentage (part total : Z) : chars :=
  if total =? 0 then printf "0.00%%" []
  else
    let ratio := Z.quot (i64 (part * 10000)) total in
    let whole := i32 (Z.quot ratio 100) in
    let frac := i32 (Z.rem ratio 100) in
    if frac <? 10 then printf "%d.0%d%%" [AInt whole; AInt frac]
    else printf "%d.%d%%" [AInt whole; AInt frac].

(** whole and frac of print_size in units of [unit] bytes *)
Definition size_in (bytes unit : Z) (fmt0 fmt : string) : chars :=
  let whole := i32 (Z.quot bytes unit) in
  let frac := i32 (Z.quot (i64 (Z.rem bytes unit * 100)) unit) in
  if frac <? 10 then printf fmt0 [AInt whole; AInt frac] else printf fmt [AInt whole; AInt frac].

Definition print_size (bytes : Z) : chars :=
  if bytes <? 1024 then printf "%d B" [AInt (i32 bytes)]
  else if bytes <? 1024 * 1024 then size_in bytes 1024 "%d.0%d KB" "%d.%d KB"
  else if bytes <? 1024 * 1024 * 1024 then size_in bytes (1024 * 1024) "%d.0%d MB" "%d.%d MB"
  else size_in bytes (1024 * 1024 * 1024) "%d.0%d GB" "%d.%d GB".

(** ** Sorting *)

(** The condition under which two neighbours are swapped. *)
Definition swaps (opt : Z) (a b : u_proc) : bool :=
  if opt =? chr "c" then cpu_ticks (me a) <? cpu_ticks (me b)
  else if opt =? chr "m" then memory (me a) <? memory (me b)
  else if opt =? chr "t" then cpu_ticks (me a) <? cpu_ticks (me b)
  else if opt =? chr "p" then pid (me a) <? pid (me b)
  else if opt =? chr "i" then pid (parent a) <? pid (parent b)
  else false.

(** The body of the inner loop on p[j] and p[j + 1]. *)
Definition sort_step (opt : Z) (p : list u_proc) (j : nat) : list u_proc :=
  match p !! j, p !! (j + 1)%nat with
  | Some a, Some b => if swaps opt a b then <[(j + 1)%nat := a]> (<[j := b]> p) else p
  | _, _ => p
  end.

Fixpoint sort_inner (opt : Z) (k j : nat) (p : list u_proc) : list u_proc :=
  match k with
  | O => p
  | S k' => sort_inner opt k' (j + 1) (sort_step opt p j)
  end.

(** [k] iterations of the outer loop remain, from [i]. *)
Fixpoint sort_outer (opt : Z) (n : Z) (k : nat) (i : Z) (p : list u_proc) : list u_proc :=
  match k with
  | O => p
  | S k' => sort_outer opt n k' (i + 1) (sort_inner opt (Z.to_nat (n - i - 1)) 0 p)
  end.

Definition sort_processes (p : list u_proc) (n opt : Z) : list u_proc :=
  if opt =? chr "n" then p else sort_outer opt n (Z.to_nat (n - 1)) 0 p.

(** ** Arguments *)

Definition nl : chars := [10].
Definition line (s : string) : chars := lit s ++ nl.

Definition print_help : chars :=
  line "xv6 TopFree Process Monitor" ++
  line "Usage: topfree [options]" ++ nl ++
  line "Options:" ++
  line "  --help, -h               Show help and exit" ++
  line "  --iter [number]          Number of iterations (default: 5 ; zero means +inf)" ++
  line "  --cpu [p|t|s]  CPU output: percent, raw ticks, or seconds" ++
  line "  --mem [p|K|M|G]          Memory unit: percent, KB, MB, GB" ++
  line "  --sort [pid|cpu|mem|time|ppid]    Sort processes" ++
  line "  --time [min|sec|m]       Time format: minutes, seconds, ms" ++
  line "  --pause [number]         Pause amount between updates" ++
  line "  --unit_pause [m|s|min]   Pause unit".

Definition arg_is (a : chars) (s : string) : bool := strcmp a (lit s) =? 0.

Definition with_iter (z : Z) (c : topfree_config) : topfree_config :=
  Config z (cpu_opt c) (mem_opt c) (sort_opt c) (time_opt c) (pause_duration c) (pause_unit c).
Definition with_cpu (z : Z) (c : topfree_config) : topfree_config :=
  Config (max_iterations c) z (mem_opt c) (sort_opt c) (time_opt c) (pause_duration c) (pause_unit c).
Definition with_mem (z : Z) (c : topfree_config) : topfree_config :=
  Config (max_iterations c) (cpu_opt c) z (sort_opt c) (time_opt c) (pause_duration c) (pause_unit c).
Definition with_sort (z : Z) (c : topfree_config) : topfree_config :=
  Config (max_iterations c) (cpu_opt c) (mem_opt c) z (time_opt c) (pause_duration c) (pause_unit c).
Definition with_time (z : Z) (c : topfree_config) : topfree_config :=
  Config (max_iterations c) (cpu_opt c) (mem_opt c) (sort_opt c) z (pause_duration c) (pause_unit c).
Definition with_pause (z : Z) (c : topfree_config) : topfree_config :=
  Config (max_iterations c) (cpu_opt c) (mem_opt c) (sort_opt c) (time_opt c) z (pause_unit c).
Definition with_unit (z : Z) (c : topfree_config) : topfree_config :=
  Config (max_iterations c) (cpu_opt c) (mem_opt c) (sort_opt c) (time_opt c) (pause_duration c) z.

(** The letters a flag accepts: the first (value, letter) pair that matches. *)
Fixpoint pick (v : chars) (opts : list (string * string)) : option Z :=
  match opts with
  | [] => None
  | (s, l) :: opts' => if arg_is v s then Some (chr l) else pick v opts'
  end.

Inductive parsed := PExit (code : Z) (out : chars) | PConfig (c : topfree_config).

(** The tail of parse_args. *)
Definition parse_end (cfg : topfree_config) (flag : Z) (out : chars) : parsed :=
  if flag <? 0 then PExit (-1) (out ++ line "Use '--help' or '-h' to see the usage dictionary...")
  else PConfig cfg.

Definition cpu_values := [("t", "t"); ("s", "s"); ("p", "p")]%string.
Definition mem_values := [("K", "K"); ("M", "M"); ("G", "G"); ("p", "p")]%string.
Definition sort_values := [("cpu", "c"); ("mem", "m"); ("time", "t"); ("pid", "p"); ("ppid", "i")]%string.
Definition time_values := [("min", "M"); ("m", "m"); ("s", "s")]%string.
Definition unit_values := [("min", "M"); ("s", "s"); ("m", "m")]%string.

(** The loop over argv[i], ... *)
Fixpoint parse_loop (args : list chars) (cfg : topfree_config) (flag : Z) (out : chars) : parsed :=
  match args with
  | [] => parse_end cfg flag out
  | a :: rest =>
      if arg_is a "--help" || arg_is a "-h" then PExit 0 (out ++ print_help)
      else
        match rest with
        | v :: rest' =>
            let letters opts set msg1 msg2 :=
              match pick v opts with
              | Some l => parse_loop rest' (set l cfg) flag out
              | None => parse_loop rest' cfg (-97) (out ++ lit msg1 ++ v ++ line msg2)
              end in
            if arg_is a "--iter" then parse_loop rest' (with_iter (atoi v) cfg) flag out
            else if arg_is a "--cpu" then
              letters cpu_values with_cpu "[INVALID VALUE FOR --cpu]: '" "' (Valid: t, s, p)"
            else if arg_is a "--mem" then
              letters mem_values with_mem "[INVALID VALUE FOR --mem]: '" "' (Valid: K, M, G, p)"
            else if arg_is a "--sort" then
              letters sort_values with_sort "[INVALID VALUE FOR --sort]: '" "' (Valid: cpu, mem, time, pid, ppid)"
            else if arg_is a "--time" then
              letters time_values with_time "[INVALID VALUE FOR --time]: '" "' (Valid: min, m, s)"
            else if arg_is a "--pause" then parse_loop rest' (with_pause (atoi v) cfg) flag out
            else if arg_is a "--unit_pause" then
              letters unit_values with_unit "[INVALID VALUE FOR --unit_pause]: '" "' (Valid: min, s, m)"
            else parse_loop rest cfg (-97) (out ++ lit "[INVALID FLAG]: '" ++ a ++ line "'")
        | [] => parse_loop rest cfg (-97) (out ++ lit "[INVALID FLAG]: '" ++ a ++ line "'")
        end
  end.

Definition parse_args (args : list chars) (cfg : topfree_config) : parsed := parse_loop args cfg 97 [].

(** ** main *)

Definition default_config : topfree_config :=
  Config 5 (chr "p") (chr "p") (chr "n") (chr "s") 20 (chr "t").

Definition target_pause_ticks (c : topfree_config) : Z :=
  let t :=
    if pause_unit c =? chr "m" then Z.quot (pause_duration c) 100
    else if pause_unit c =? chr "s" then i32 (pause_duration c * 10)
    else if pause_unit c =? chr "M" then i32 (pause_duration c * 600)
    else pause_duration c in
  if t <=? 0 then 1 else t.

Definition running_count (procs : list u_proc) : Z :=
  Z.of_nat (length (filter (fun p => state (me p) = U_RUNNING) procs)).

Definition bar : chars := replicate 104 61.
Definition rule : chars := replicate 104 45.

Definition header (m : option u_memmory) (n up_ticks running : Z) : chars :=
  bar ++ nl ++
  printf " System Uptime: %d.%ds | Total Processes: %d | Running Processes: %d"
    [AInt (Z.quot up_ticks 10); AInt (Z.rem up_ticks 10); AInt n; AInt running] ++ nl ++
  match m with
  | Some s =>
      let total_disk := i64 (read_disk_counter s + write_disk_counter s) in
      let total_cache := i64 (read_cache_counter s + write_cache_counter s) in
      lit " RAM Free: " ++ print_size (free_ram s) ++
      lit " | Cache Free: " ++ print_size (free_cache s) ++
      lit " | Disk Free: " ++ print_size (free_disk s) ++ nl ++
      printf " Disk Reads: %d (" [AInt (i32 (read_disk_counter s))] ++
      print_percentage (read_disk_counter s) total_disk ++
      printf ") | Writes: %d (" [AInt (i32 (write_disk_counter s))] ++
      print_percentage (write_disk_counter s) total_disk ++ lit ")" ++ nl ++
      printf " Cache Reads: %d (" [AInt (i32 (read_cache_counter s))] ++
      print_percentage (read_cache_counter s) total_cache ++
      printf ") | Writes: %d (" [AInt (i32 (write_cache_counter s))] ++
      print_percentage (write_cache_counter s) total_cache ++ lit ")" ++ nl ++
      lit " Cache Hit Rate: " ++ print_percentage (read_cache_hit_counter s) (read_cache_counter s) ++
      printf " (Hits: %d)" [AInt (i32 (read_cache_hit_counter s))] ++ nl
  | None => line " [MEMSTAT ERROR]: Could not fetch memory, cache, and disk stats from kernel!"
  end ++
  bar ++ nl ++ nl.

Definition titles (c : topfree_config) : chars :=
  print_padded (lit "PID") PID_WIDTH ++ print_padded (lit "STATE") STATE_WIDTH ++
  print_padded (lit "KILLED") KILLED_WIDTH ++ print_padded (lit "NAME") NAME_WIDTH ++
  print_padded (if cpu_opt c =? chr "p" then lit "CPU(%)"
                else if cpu_opt c =? chr "s" then lit "CPU(s)" else lit "CPU(tick)") CPU_WIDTH ++
  print_padded (if mem_opt c =? chr "p" then lit "MEM(%)" else lit "MEM(Sz)") MEMORY_WIDTH ++
  print_padded (lit "TIME") TIME_WIDTH ++
  print_padded (lit "PARENT" ++ [9] ++ lit "PID" ++ [9] ++ lit "NAME") PARENT_WIDTH ++ nl ++ rule ++ nl.

Definition row (c : topfree_config) (up_ticks : Z) (p : u_proc) : chars :=
  print_padded (itoa10 (pid (me p))) PID_WIDTH ++
  print_padded (state_to_string (state (me p))) STATE_WIDTH ++
  print_padded (itoa10 (is_killed (me p))) KILLED_WIDTH ++
  print_padded (name (me p)) NAME_WIDTH ++
  print_padded (format_cpu (cpu_ticks (me p)) up_ticks (cpu_opt c)) CPU_WIDTH ++
  print_padded (format_mem (memory (me p)) (mem_opt c)) MEMORY_WIDTH ++
  print_padded (format_time (cpu_ticks (me p)) (time_opt c)) TIME_WIDTH ++
  [9; 9] ++
  (if pid (parent p) <? 0 then print_padded (lit "-") PID_WIDTH
   else print_padded (itoa10 (pid (parent p))) PID_WIDTH) ++
  [9] ++ print_padded (name (parent p)) NAME_WIDTH ++ nl.

(** What the system calls of one iteration return: getmemstats (None for a
    failure), getallprocs (None for -1) and uptime; and the keys getc_nb
    gives while waiting. *)
Record snapshot := Snapshot {
  mems : option u_memmory; procs : option (list u_proc); uptime : Z; keys : list Z;
}.

(** wait_and_check_quit: true if 'q' came within [ticks] calls of getc_nb. *)
Definition wait_and_check_quit (ticks : Z) (keys : list Z) : bool :=
  existsb (Z.eqb (chr "q")) (take (Z.to_nat ticks) keys).

Inductive run_result := Exited (code : Z) | Running.

(** The rendering loop over the snapshots [env], from iteration [iter]. *)
Fixpoint topfree_loop (c : topfree_config) (iter : Z) (env : list snapshot) : chars * run_result :=
  match env with
  | [] => ([], Running)
  | e :: env' =>
      if (iter <? max_iterations c) || (max_iterations c =? 0) then
        let clear := [27] ++ lit "[2J" ++ [27] ++ lit "[H" in
        match procs e with
        | None => (clear ++ line "getallprocs failed", Exited 1)
        | Some ps =>
            let n := Z.of_nat (length ps) in
            let sorted := sort_processes ps n (sort_opt c) in
            let out := clear ++ header (mems e) n (uptime e) (running_count ps) ++ titles c ++
                       concat (row c (uptime e) <$> sorted) in
            if wait_and_check_quit (target_pause_ticks c) (keys e)
            then (out ++ nl ++ nl ++ line "Exiting topfree program :)", Exited 0)
            else let '(rest, r) := topfree_loop c (iter + 1) env' in (out ++ rest, r)
        end
      else ([], Exited 0)
  end.

Definition topfree_main (args : list chars) (env : list snapshot) : chars * run_result :=
  match parse_args args default_config with
  | PExit code out => (out, Exited code)
  | PConfig c => topfree_loop c 0 env
  end.
