(* ===== verification/TopfreeProps.v ===== *)
(** * Properties of topfree: sorting, arguments, number formats *)
From stdpp Require Import base list sorting numbers strings.
From Stdlib Require Import ZArith Lia.
From S2P Require Import Prelude Ulib Uprintf Dto Topfree.

(** ** sort_processes *)

(** The key each sort option orders by, largest first. *)
Definition sort_key (opt : Z) (u : u_proc) : Z :=
  if opt =? chr "m" then memory (me u)
  else if opt =? chr "p" then pid (me u)
  else if opt =? chr "i" then pid (parent u)
  else cpu_ticks (me u).

Definition sorts (opt : Z) : bool := existsb (Z.eqb opt) (chr <$> ["c"; "m"; "t"; "p"; "i"]%string).

Lemma swaps_key opt a b : sorts opt = true -> swaps opt a b = (sort_key opt a <? sort_key opt b).
Proof.
  unfold sorts, swaps, sort_key. cbn [fmap list_fmap existsb].
  rewrite !orb_true_iff, !Z.eqb_eq. intros [->|[->|[->|[->|[->|?]]]]]; done.
Qed.

Lemma swaps_none opt a b : sorts opt = false -> swaps opt a b = false.
Proof.
  unfold sorts, swaps. cbn [fmap list_fmap existsb].
  rewrite !orb_false_iff. intros (-> & -> & -> & -> & -> & _). done.
Qed.

(** The inner loop as a pass along the list. *)
Fixpoint bubble (opt : Z) (k : nat) (x : u_proc) (l : list u_proc) : list u_proc :=
  match k, l with
  | S k', y :: l' => if swaps opt x y then y :: bubble opt k' x l' else x :: bubble opt k' y l'
  | _, _ => x :: l
  end.

Lemma sort_step_app opt a x y l :
  sort_step opt (a ++ x :: y :: l) (length a) =
  a ++ (if swaps opt x y then y :: x :: l else x :: y :: l).
Proof.
  unfold sort_step.
  rewrite lookup_app_r, Nat.sub_diag by lia. rewrite lookup_app_r by lia.
  replace (length a + 1 - length a)%nat with 1%nat by lia. cbn.
  destruct (swaps opt x y); [|done].
  rewrite <- (Nat.add_0_r (length a)) at 2. by rewrite !insert_app_r.
Qed.

Lemma sort_inner_bubble opt k : forall a x l, (k <= length l)%nat ->
  sort_inner opt k (length a) (a ++ x :: l) = a ++ bubble opt k x l.
Proof.
  induction k as [|k IH]; intros a x l Hk; [done|]. destruct l as [|y l]; [cbn in Hk; lia|].
  cbn [sort_inner bubble]. rewrite sort_step_app. cbn in Hk.
  destruct (swaps opt x y).
  - replace (length a + 1)%nat with (length (a ++ [y])) by (rewrite length_app; done).
    rewrite (cons_middle y a (x :: l)), (app_assoc a [y] (x :: l)), IH by lia. by rewrite <- app_assoc.
  - replace (length a + 1)%nat with (length (a ++ [x])) by (rewrite length_app; done).
    rewrite (cons_middle x a (y :: l)), (app_assoc a [x] (y :: l)), IH by lia. by rewrite <- app_assoc.
Qed.

Section sorting.
Context (opt : Z) (Hopt : sorts opt = true).
Abbreviation key := (sort_key opt).

(** A pass moves a minimum of the front part behind it. *)
Lemma bubble_spec l : forall x back,
  exists l' mn, bubble opt (length l) x (l ++ back) = l' ++ mn :: back /\ x :: l ≡ₚ l' ++ [mn] /\
    Forall (fun y => key mn <= key y) (x :: l).
Proof.
  induction l as [|y l IH]; intros x back.
  - exists [], x. split; [by destruct back|]. split; [done|]. repeat constructor. lia.
  - cbn [length bubble app]. rewrite swaps_key by done. destruct (Z.ltb_spec (key x) (key y)) as [Hlt|Hge].
    + destruct (IH x back) as (l' & mn & -> & HP & HF). exists (y :: l'), mn. split; [done|].
      split; [rewrite (Permutation_swap y x l); by apply perm_skip|].
      apply Forall_cons in HF as [Hx HF]. repeat constructor; [done|lia|done].
    + destruct (IH y back) as (l' & mn & -> & HP & HF). exists (x :: l'), mn. split; [done|].
      split; [by apply perm_skip|]. apply Forall_cons in HF as [Hy HF]. repeat constructor; [lia|done|done].
Qed.

Abbreviation desc := (StronglySorted (fun a b => key b <= key a)).

Lemma sort_outer_ok k : forall front back n i, length front = S k -> n = Z.of_nat (length (front ++ back)) ->
  i = Z.of_nat (length back) -> desc back -> (forall f b, f ∈ front -> b ∈ back -> key b <= key f) ->
  let r := sort_outer opt n k i (front ++ back) in r ≡ₚ front ++ back /\ desc r.
Proof.
  induction k as [|k IH]; intros front back n i Hl En Ei Hs Hle; cbn [sort_outer].
  - split; [done|]. destruct front as [|x [|y front]]; try done. cbn. constructor; [done|].
    apply Forall_forall. intros b Hb. apply Hle; [by left|done].
  - destruct front as [|x l]; [done|]. cbn [app] in *.
    assert (Z.to_nat (n - i - 1) = length l) as ->.
    { rewrite En, Ei. cbn [length]. rewrite length_app. lia. }
    pose proof (sort_inner_bubble opt (length l) [] x (l ++ back)) as Eb. cbn [length app] in Eb.
    rewrite Eb by (rewrite length_app; lia).
    destruct (bubble_spec l x back) as (l' & mn & -> & HP & HF). cbv zeta.
    assert (length l' = S k) as Hl'.
    { apply Permutation_length in HP. rewrite length_app in HP. cbn in *. lia. }
    assert (forall y, y ∈ l' -> y ∈ x :: l) as Hin.
    { intros y Hy. rewrite HP. apply elem_of_app. by left. }
    assert (mn ∈ x :: l) as Hmn by (rewrite HP; apply elem_of_app; right; by left).
    destruct (IH l' (mn :: back) n (i + 1) Hl') as [R1 R2].
    + rewrite En. cbn [length]. rewrite !length_app. cbn in *. lia.
    + cbn. lia.
    + constructor; [done|]. apply Forall_forall. intros b Hb. by apply Hle.
    + intros f b Hf Hb. apply elem_of_cons in Hb as [->|Hb]; [|by apply Hle; auto].
      rewrite Forall_forall in HF. apply HF. auto.
    + split; [|done]. rewrite R1. change (x :: l ++ back) with ((x :: l) ++ back). rewrite HP.
      by rewrite <- app_assoc.
Qed.
End sorting.

Lemma sort_inner_id opt k : forall j p, sorts opt = false -> sort_inner opt k j p = p.
Proof.
  induction k as [|k IH]; intros j p Ho; [done|]. cbn [sort_inner]. rewrite IH by done.
  unfold sort_step. destruct (p !! j), (p !! (j + 1)%nat); try done. by rewrite swaps_none.
Qed.

Lemma sort_outer_id opt n k : forall i p, sorts opt = false -> sort_outer opt n k i p = p.
Proof.
  induction k as [|k IH]; intros i p Ho; [done|]. cbn [sort_outer]. by rewrite sort_inner_id, IH.
Qed.

(** C34. sort_processes sorts. For the options cpu, mem, time, pid and ppid the
    table becomes a permutation of itself in which the key of the option (cpu
    ticks, memory, cpu ticks, pid, parent's pid) does not increase; every
    other option, 'n' included, leaves the table as it is. *)
Theorem sort_processes_correct p opt :
  let r := sort_processes p (Z.of_nat (length p)) opt in
  if sorts opt then r ≡ₚ p /\ StronglySorted (fun a b => sort_key opt b <= sort_key opt a) r
  else r = p.
Proof.
  cbv zeta. unfold sort_processes. destruct (sorts opt) eqn:Ho.
  - assert ((opt =? chr "n") = false) as ->.
    { apply Z.eqb_neq. intros ->. done. }
    destruct p as [|x p]; [split; [done|constructor]|].
    pose proof (sort_outer_ok opt Ho (length p) (x :: p) [] (Z.of_nat (length (x :: p))) 0) as H.
    rewrite app_nil_r in H. replace (Z.to_nat (Z.of_nat (length (x :: p)) - 1)) with (length p) by (cbn; lia).
    apply H; try done; [constructor|]. intros f b _ Hb. by apply elem_of_nil in Hb.
  - destruct (opt =? chr "n"); [done|]. by apply sort_outer_id.
Qed.

(** ** parse_args *)

(** One option with its value: the change it makes to the configuration. *)
Definition opt_effect (flag v : chars) : option (topfree_config -> topfree_config) :=
  if arg_is flag "--iter" then Some (with_iter (atoi v))
  else if arg_is flag "--cpu" then with_cpu <$> pick v cpu_values
  else if arg_is flag "--mem" then with_mem <$> pick v mem_values
  else if arg_is flag "--sort" then with_sort <$> pick v sort_values
  else if arg_is flag "--time" then with_time <$> pick v time_values
  else if arg_is flag "--pause" then Some (with_pause (atoi v))
  else if arg_is flag "--unit_pause" then with_unit <$> pick v unit_values
  else None.

Definition is_help (a : chars) : bool := arg_is a "--help" || arg_is a "-h".

(** The arguments of a list of options. *)
Definition opt_args (opts : list (chars * chars)) : list chars := concat ((fun o => [o.1; o.2]) <$> opts).

(** All options are accepted: their effects, in order. *)
Fixpoint effects (opts : list (chars * chars)) (c : topfree_config) : option topfree_config :=
  match opts with
  | [] => Some c
  | (f, v) :: opts' => match opt_effect f v with Some e => effects opts' (e c) | None => None end
  end.

Definition known_flag (flag : chars) : bool :=
  existsb (arg_is flag) ["--iter"; "--cpu"; "--mem"; "--sort"; "--time"; "--pause"; "--unit_pause"]%string.

(** One option processed by the loop, valid or not. *)
Lemma parse_loop_opt f v rest c flag out : is_help f = false -> known_flag f = true ->
  match opt_effect f v with
  | Some e => parse_loop (f :: v :: rest) c flag out = parse_loop rest (e c) flag out
  | None => exists out', parse_loop (f :: v :: rest) c flag out = parse_loop rest c (-97) out'
  end.
Proof.
  intros Hh Hk. unfold is_help in Hh. cbn [parse_loop]. rewrite Hh. unfold opt_effect, known_flag in *.
  cbn [existsb] in Hk.
  destruct (arg_is f "--iter"); [done|].
  destruct (arg_is f "--cpu"); [destruct (pick v cpu_values); cbn; eauto|].
  destruct (arg_is f "--mem"); [destruct (pick v mem_values); cbn; eauto|].
  destruct (arg_is f "--sort"); [destruct (pick v sort_values); cbn; eauto|].
  destruct (arg_is f "--time"); [destruct (pick v time_values); cbn; eauto|].
  destruct (arg_is f "--pause"); [done|].
  destruct (arg_is f "--unit_pause"); [destruct (pick v unit_values); cbn; eauto|done].
Qed.

Definition well_formed (opts : list (chars * chars)) : Prop :=
  Forall (fun o => is_help o.1 = false /\ known_flag o.1 = true) opts.

Lemma parse_loop_bad opts : forall c out, well_formed opts ->
  exists out', parse_loop (opt_args opts) c (-97) out = PExit (-1) out'.
Proof.
  induction opts as [|[f v] opts IH]; intros c out Hw; [by eexists|].
  apply Forall_cons in Hw as [[Hh Hk] Hw]. change (opt_args ((f, v) :: opts)) with (f :: v :: opt_args opts).
  pose proof (parse_loop_opt f v (opt_args opts) c (-97) out Hh Hk) as H.
  destruct (opt_effect f v); [rewrite H; by apply IH|]. destruct H as [o ->]. by apply IH.
Qed.

Lemma parse_loop_good opts : forall c out, well_formed opts ->
  match effects opts c with
  | Some c' => parse_loop (opt_args opts) c 97 out = PConfig c'
  | None => exists out', parse_loop (opt_args opts) c 97 out = PExit (-1) out'
  end.
Proof.
  induction opts as [|[f v] opts IH]; intros c out Hw; [done|].
  apply Forall_cons in Hw as [[Hh Hk] Hw]. change (opt_args ((f, v) :: opts)) with (f :: v :: opt_args opts). cbn [effects].
  pose proof (parse_loop_opt f v (opt_args opts) c 97 out Hh Hk) as H.
  destruct (opt_effect f v) as [e|]; [rewrite H; by apply IH|].
  destruct H as [o ->]. by apply parse_loop_bad.
Qed.

(** parse_args on any list of documented options, each with a value:
    if every value is accepted, the configuration is the given one changed by
    each option in turn (the last one of a kind wins); if some value is not,
    the program exits with code -1. A help flag in front of the rest exits
    with code 0 and the help text, and an unknown flag leads to exit code -1
    whatever precedes it. *)
Theorem parse_args_correct opts rest c : well_formed opts ->
  match effects opts c with
  | Some c' => parse_args (opt_args opts) c = PConfig c'
  | None => exists out, parse_args (opt_args opts) c = PExit (-1) out
  end /\
  (forall h, is_help h = true -> parse_args (h :: rest) c = PExit 0 print_help) /\
  (forall f, is_help f = false -> known_flag f = false ->
     exists out, parse_args (f :: opt_args opts) c = PExit (-1) out).
Proof.
  intros Hw. split; [by apply parse_loop_good|]. split.
  - intros h Hh. unfold is_help in Hh. unfold parse_args. cbn [parse_loop]. by rewrite Hh.
  - intros f Hh Hk. unfold parse_args. cbn [parse_loop]. unfold is_help in Hh. rewrite Hh.
    unfold known_flag in Hk. cbn [existsb] in Hk. rewrite !orb_false_iff in Hk.
    destruct Hk as (-> & -> & -> & -> & -> & -> & -> & _).
    destruct (opt_args opts) as [|a r] eqn:E.
    + destruct opts as [|[]]; [|done]. by eexists.
    + rewrite <- E. by apply parse_loop_bad.
Qed.

Lemma parse_args_correct_witness :
  parse_args [lit "--cpu"; lit "s"; lit "--iter"; lit "0"] default_config =
    PConfig (with_iter 0 (with_cpu (chr "s") default_config)) /\
  exists out, parse_args [lit "--time"; lit "sec"] default_config = PExit (-1) out.
Proof.
  split.
  - apply (parse_args_correct [(lit "--cpu", lit "s"); (lit "--iter", lit "0")] [] default_config).
    repeat constructor.
  - apply (parse_args_correct [(lit "--time", lit "sec")] [] default_config).
    repeat constructor.
Defined.

(** ** Number formats *)

Lemma itoa10_small v : 0 <= v < 2 ^ 31 -> numeral 10 (itoa10 v) /\ num 10 (itoa10 v) = v.
Proof.
  intros Hv. unfold itoa10. rewrite swrap_small by (change (32 - 1) with 31; lia).
  destruct (itoa_pos v 10 ltac:(by left) Hv) as (s & -> & H). done.
Qed.

(** The text a fixed-point number should have: both parts as numerals, the
    fraction padded to the number of digits of the scale. *)
Definition padded_fraction (digits : nat) (frac : Z) : chars :=
  let s := itoa10 frac in replicate (digits - length s) 48 ++ s.

Lemma fixed_point_text scaled scale suffix : 0 < scale <= 10000 -> 0 <= scaled < 2 ^ 31 ->
  exists w f, fixed_point scaled scale suffix = w ++ lit "." ++ f ++ lit suffix /\
    numeral 10 w /\ num 10 w = scaled / scale /\ numeral 10 f /\ num 10 f = scaled mod scale.
Proof.
  intros Hs Hv. exists (itoa10 (scaled / scale)), (itoa10 (scaled mod scale)).
  assert (0 <= scaled / scale <= scaled) as Hq.
  { split; [apply Z.div_pos; lia|]. apply Z.div_le_upper_bound; [lia|]. nia. }
  pose proof (Z.mod_pos_bound scaled scale ltac:(lia)) as Hm.
  destruct (itoa10_small (scaled / scale) ltac:(lia)) as [A1 A2].
  destruct (itoa10_small (scaled mod scale) ltac:(lia)) as [B1 B2].
  split; [|done]. unfold fixed_point, str_append. rewrite Z.quot_div_nonneg, Z.rem_mod_nonneg by lia.
  by rewrite <- !app_assoc.
Qed.

(** What the percent, unit and time formats print: a whole part and a
    fraction, each a numeral without leading zeros, whose values are the
    quotient and the remainder of the scaled amount. *)
Lemma format_fixed_point ticks up bytes : 0 <= ticks < 10000 -> 1 <= up -> 0 <= bytes < 2 ^ 27 ->
  exists w f w' f', format_cpu ticks up (chr "p") = w ++ lit "." ++ f ++ lit "%" /\
    num 10 w = ticks * 10000 / up / 100 /\ num 10 f = ticks * 10000 / up mod 100 /\ numeral 10 f /\
    format_mem bytes (chr "K") = w' ++ lit "." ++ f' ++ lit "K" /\
    num 10 w' = bytes * 100 / 1024 / 100 /\ num 10 f' = bytes * 100 / 1024 mod 100 /\ numeral 10 f'.
Proof.
  intros Ht Hu Hb.
  assert (0 <= ticks * 10000 / up < 2 ^ 31) as H1.
  { rewrite pow2_31. split; [apply Z.div_pos; lia|]. apply Z.div_lt_upper_bound; nia. }
  assert (0 <= bytes * 100 / 1024 < 2 ^ 31) as H2.
  { change (2 ^ 27) with 134217728 in Hb. rewrite pow2_31. dlia. }
  destruct (fixed_point_text (ticks * 10000 / up) 100 "%" ltac:(lia) H1) as (w & f & E1 & _ & Ew & Nf & Ef).
  destruct (fixed_point_text (bytes * 100 / 1024) 100 "K" ltac:(lia) H2) as (w' & f' & E2 & _ & Ew' & Nf' & Ef').
  exists w, f, w', f'. split; [|split; [done|split; [done|split; [done|split; [|done]]]]].
  - rewrite <- E1. unfold format_cpu. rewrite Z.eqb_refl, (proj2 (Z.leb_gt up 0)) by lia.
    f_equal. rewrite swrap_small by (change (2 ^ (64 - 1)) with 9223372036854775808; lia).
    rewrite Z.quot_div_nonneg by lia. f_equal. lia.
  - rewrite <- E2. unfold format_mem. change (chr "K" =? chr "p") with false. rewrite Z.eqb_refl.
    f_equal. change (2 ^ 27) with 134217728 in Hb.
    rewrite swrap_small by (change (2 ^ (64 - 1)) with 9223372036854775808; lia).
    by rewrite Z.quot_div_nonneg by lia.
Qed.

Lemma format_fixed_point_witness : format_cpu 1256 10000 (chr "p") = lit "12.56%".
Proof.
  destruct (format_fixed_point 1256 10000 0 ltac:(lia) ltac:(lia) ltac:(lia)) as (w & f & _ & _ & E & _).
  vm_compute. reflexivity.
Defined.

(** The fraction is not padded: 5.05 percent of CPU time is printed as
    5.5%, the text of 5.5 percent, and likewise 1.05K of memory as 1.5K, while
    print_percentage pads. *)
Theorem fraction_not_padded :
  format_cpu 505 10000 (chr "p") = lit "5.5%" /\ format_cpu 550 10000 (chr "p") = lit "5.50%" /\
  format_mem 1076 (chr "K") = lit "1.5K" /\ print_percentage 505 10000 = lit "5.05%".
Proof. vm_compute. repeat split. Qed.
