(* ===== verification/Grep.v ===== *)
(** * user/grep.c: the regular expression matcher and the line loop

    Patterns and texts are C strings as lists of characters. [here] is the
    meaning of a pattern at the start of a text, [matches] anywhere in it. The
    line loop works on the 1024-byte buffer of the program and on a file whose
    reads may be split in any way. *)
From stdpp Require Import base list numbers strings.
From Stdlib Require Import ZArith Lia.
From S2P Require Import Prelude Ulib Uprintf.

Definition STAR : Z := chr "*".
Definition DOT : Z := chr ".".
Definition DOLLAR : Z := chr "$".
Definition CARET : Z := chr "^".

(** matchstar(c, re, text), with matchhere(re, .) as [m]. *)
Fixpoint matchstar (m : chars -> bool) (c : Z) (text : chars) : bool :=
  if m text then true
  else match text with
       | [] => false
       | t :: text' => if (t =? c) || (c =? DOT) then matchstar m c text' else false
       end.

Fixpoint matchhere (re text : chars) : bool :=
  match re with
  | [] => true
  | c :: re1 =>
      match re1 with
      | r1 :: re2 =>
          if r1 =? STAR then matchstar (matchhere re2) c text
          else
            match text with
            | t :: text' => if (c =? DOT) || (c =? t) then matchhere re1 text' else false
            | [] => false
            end
      | [] =>
          if c =? DOLLAR then match text with [] => true | _ => false end
          else
            match text with
            | t :: text' => if (c =? DOT) || (c =? t) then matchhere re1 text' else false
            | [] => false
            end
      end
  end.

(** The do loop of match: matchhere at every suffix, the empty one included. *)
Fixpoint match_any (re text : chars) : bool :=
  if matchhere re text then true
  else match text with [] => false | _ :: text' => match_any re text' end.

Definition match_re (re text : chars) : bool :=
  match re with
  | c :: re' => if c =? CARET then matchhere re' text else match_any re text
  | [] => match_any re text
  end.

(** ** The line loop *)

Definition BUFSIZE : Z := 1024.

(** strchr(p, '\n'): the line before it and the text after it. *)
Fixpoint split_line (p : chars) : option (chars * chars) :=
  match p with
  | [] => None
  | c :: p' =>
      if c =? 0 then None
      else if c =? 10 then Some ([], p')
      else match split_line p' with
           | Some (l, rest) => Some (c :: l, rest)
           | None => None
           end
  end.

(** The inner while loop: the output written and the text left at p. *)
Fixpoint grep_lines (fuel : nat) (pattern p : chars) : chars * chars :=
  match fuel with
  | O => ([], p)
  | S f =>
      match split_line p with
      | Some (l, rest) =>
          let '(out, kept) := grep_lines f pattern rest in
          ((if match_re pattern l then l ++ [10] else []) ++ out, kept)
      | None => ([], p)
      end
  end.

(** The read loop. [buf] holds the m characters kept from the last round;
    the k-th read asks for sizeof(buf) - m - 1 bytes and gets at most [sz k]
    of those left in the file [input]. *)
Fixpoint grep (fuel : nat) (pattern : chars) (sz : nat -> Z) (k : nat) (buf input : chars) : option chars :=
  match fuel with
  | O => None
  | S f =>
      let want := BUFSIZE - strlen buf - 1 in
      let n := Z.to_nat (Z.min want (sz k)) in
      let got := take n input in
      match got with
      | [] => Some []
      | _ =>
          let '(out, kept) := grep_lines (S (length (buf ++ got))) pattern (buf ++ got) in
          match grep f pattern sz (S k) kept (drop n input) with
          | Some rest => Some (out ++ rest)
          | None => None
          end
      end
  end.

(** ** The meaning of patterns *)

Definition sat (c t : Z) : Prop := c = DOT \/ c = t.

Inductive here : chars -> chars -> Prop :=
| here_end t : here [] t
| here_star c re ts t : Forall (sat c) ts -> here re t -> here (c :: STAR :: re) (ts ++ t)
| here_eol : here [DOLLAR] []
| here_one c re t text : head re <> Some STAR -> (c = DOLLAR -> re <> []) -> sat c t -> here re text ->
    here (c :: re) (t :: text).

Definition matches (re text : chars) : Prop :=
  match re with
  | c :: re' => if c =? CARET then here re' text else exists pre suf, text = pre ++ suf /\ here re suf
  | [] => True
  end.

Lemma sat_bool c t : ((c =? DOT) || (c =? t) = true) <-> sat c t.
Proof. unfold sat. rewrite orb_true_iff, !Z.eqb_eq. done. Qed.

Lemma sat_bool' c t : ((t =? c) || (c =? DOT) = true) <-> sat c t.
Proof. unfold sat. rewrite orb_true_iff, !Z.eqb_eq. intuition congruence. Qed.

Lemma matchstar_spec m c text : matchstar m c text = true <->
  exists ts t, text = ts ++ t /\ Forall (sat c) ts /\ m t = true.
Proof.
  induction text as [|x text IH]; cbn [matchstar].
  - destruct (m []) eqn:E; split; try done.
    + intros _. exists [], []. done.
    + intros (ts & t & Et & _ & H). symmetry in Et. apply app_eq_nil in Et as [-> ->]. congruence.
  - destruct (m (x :: text)) eqn:E.
    { split; [|done]. intros _. exists [], (x :: text). done. }
    destruct ((x =? c) || (c =? DOT)) eqn:Es.
    + rewrite IH. apply sat_bool' in Es. split.
      * intros (ts & t & -> & Hf & H). exists (x :: ts), t. split; [done|]. split; [by constructor|done].
      * intros ([|y ts] & t & Et & Hf & H); cbn in Et; [subst; congruence|]. injection Et as -> ->.
        exists ts, t. split; [done|]. split; [by inversion Hf|done].
    + split; [done|]. intros ([|y ts] & t & Et & Hf & H); cbn in Et; [subst; congruence|].
      injection Et as -> ->. inversion Hf as [|? ? Hy]; subst. apply sat_bool' in Hy. congruence.
Qed.

Lemma here_star_inv c re text : here (c :: STAR :: re) text ->
  exists ts t, text = ts ++ t /\ Forall (sat c) ts /\ here re t.
Proof. inversion 1; subst; [by eexists _, _|]. cbn in *. congruence. Qed.

Lemma matchhere_spec re text : matchhere re text = true <-> here re text.
Proof.
  remember (length re) as n eqn:En. assert (length re <= n)%nat as Hn by lia. clear En.
  revert re text Hn. induction n as [|n IH]; intros re text Hn.
  { destruct re; [|cbn in Hn; lia]. split; [constructor|done]. }
  destruct re as [|c re1]; [split; [constructor|done]|]. cbn [length] in Hn.
  assert (forall re2, (length re2 <= n)%nat -> head re2 <> Some STAR -> (c = DOLLAR -> re2 <> []) ->
    (match text with t :: text' => if (c =? DOT) || (c =? t) then matchhere re2 text' else false | [] => false end) = true
    <-> here (c :: re2) text) as Hone.
  { intros re2 Hl Hh Hd. split.
    - destruct text as [|t text']; [done|]. destruct (_ || _) eqn:Es; [|done]. intros Hm.
      apply here_one; [done|done|by apply sat_bool|by apply IH].
    - intros Hh'. inversion Hh'; subst; [by cbn in Hh|by destruct (Hd eq_refl)|].
      match goal with H : sat _ _ |- _ => apply sat_bool in H as -> end. by apply IH. }
  cbn [matchhere]. destruct re1 as [|r1 re2].
  - destruct (Z.eqb_spec c DOLLAR) as [->|Hne].
    + destruct text; [split; [constructor|done]|]. split; [done|].
      inversion 1; subst. match goal with H : DOLLAR = DOLLAR -> _ |- _ => by destruct (H eq_refl) end.
    + apply (Hone []); [cbn; lia|done|done].
  - destruct (Z.eqb_spec r1 STAR) as [->|Hne].
    + rewrite matchstar_spec. cbn [length] in Hn. split.
      * intros (ts & t & -> & Hf & Hm). apply here_star; [done|]. apply IH; [lia|done].
      * intros Hh. apply here_star_inv in Hh as (ts & t & -> & Hf & Hm). exists ts, t.
        split; [done|]. split; [done|]. apply IH; [lia|done].
    + apply (Hone (r1 :: re2)); [lia|by intros [= ?]|done].
Qed.

Lemma match_any_spec re text : match_any re text = true <-> exists pre suf, text = pre ++ suf /\ here re suf.
Proof.
  induction text as [|x text IH]; cbn [match_any].
  - destruct (matchhere re []) eqn:E; split; try done.
    + intros _. exists [], []. split; [done|]. by apply matchhere_spec.
    + intros (pre & suf & Et & H). symmetry in Et. apply app_eq_nil in Et as [-> ->].
      apply matchhere_spec in H. congruence.
  - destruct (matchhere re (x :: text)) eqn:E.
    { split; [|done]. intros _. exists [], (x :: text). split; [done|]. by apply matchhere_spec. }
    rewrite IH. split.
    + intros (pre & suf & -> & H). exists (x :: pre), suf. done.
    + intros ([|y pre] & suf & Et & H); cbn in Et.
      * subst. apply matchhere_spec in H. congruence.
      * injection Et as -> ->. exists pre, suf. done.
Qed.

(** C35. The matcher decides its language: match returns true exactly when the
    pattern, read with ^ at the front as the start of the text, $ at the end
    as its end, . as any character and x* as any number of x, matches a part
    of the text. *)
Theorem match_correct re text : match_re re text = true <-> matches re text.
Proof.
  unfold match_re, matches. destruct re as [|c re].
  - split; [done|]. intros _. apply match_any_spec. exists [], text. split; [done|constructor].
  - destruct (c =? CARET); [apply matchhere_spec|apply match_any_spec].
Qed.

(** ** Lines *)

Definition clean (l : chars) : Prop := Forall (fun c => c <> 0 /\ c <> 10) l.
Definition text_of (ls : list chars) : chars := concat ((fun l => l ++ [10]) <$> ls).
(** The lines the pattern matches. *)
Definition selected (pattern : chars) (ls : list chars) : list chars :=
  filter (fun l => match_re pattern l = true) ls.

Lemma split_line_found l r : clean l -> split_line (l ++ 10 :: r) = Some (l, r).
Proof.
  induction l as [|c l IH]; intros Hc; [done|]. apply Forall_cons in Hc as [[H0 H10] Hc].
  cbn. rewrite (proj2 (Z.eqb_neq c 0)), (proj2 (Z.eqb_neq c 10)) by done. by rewrite IH.
Qed.

Lemma split_line_none l : clean l -> split_line l = None.
Proof.
  induction l as [|c l IH]; intros Hc; [done|]. apply Forall_cons in Hc as [[H0 H10] Hc].
  cbn. rewrite (proj2 (Z.eqb_neq c 0)), (proj2 (Z.eqb_neq c 10)) by done. by rewrite IH.
Qed.

Lemma text_of_cons l ls b : text_of (l :: ls) ++ b = l ++ 10 :: (text_of ls ++ b).
Proof. unfold text_of. cbn. by rewrite <- !app_assoc. Qed.

Lemma text_of_app ls ks : text_of (ls ++ ks) = text_of ls ++ text_of ks.
Proof. unfold text_of. by rewrite fmap_app, concat_app. Qed.

Lemma grep_lines_ok pattern ls : forall b fuel, Forall clean ls -> clean b -> (length ls < fuel)%nat ->
  grep_lines fuel pattern (text_of ls ++ b) = (text_of (selected pattern ls), b).
Proof.
  induction ls as [|l ls IH]; intros b fuel Hls Hb Hf; (destruct fuel as [|fuel]; [lia|]).
  - cbn [text_of fmap list_fmap concat app grep_lines]. by rewrite split_line_none.
  - apply Forall_cons in Hls as [Hl Hls]. rewrite text_of_cons. cbn [grep_lines].
    rewrite split_line_found by done. cbn in Hf. rewrite IH by (done || lia).
    unfold selected. rewrite filter_cons. destruct (decide _) as [E|E].
    + rewrite E. unfold text_of. cbn. done.
    + destruct (match_re pattern l); done.
Qed.

(** A prefix of the text is some complete lines and the start of the next. *)
Lemma split_text ls : forall tl t rest, Forall clean ls -> clean tl -> t ++ rest = text_of ls ++ tl ->
  exists ls1 ls2 b, ls = ls1 ++ ls2 /\ t = text_of ls1 ++ b /\ clean b /\ b ++ rest = text_of ls2 ++ tl.
Proof.
  induction ls as [|l ls IH]; intros tl t rest Hls Htl E.
  - exists [], [], t. cbn in E. split; [done|]. split; [done|]. split; [|done].
    unfold clean in *. rewrite <- E, Forall_app in Htl. by destruct Htl.
  - apply Forall_cons in Hls as [Hl Hls]. rewrite text_of_cons in E.
    apply app_eq_inv in E as [(k & Et & Er)|(k & Et & Er)].
    + destruct k as [|c k].
      * rewrite app_nil_r in Et. subst t. exists [], (l :: ls), l. split; [done|]. split; [done|].
        split; [done|]. rewrite text_of_cons. cbn in Er. by rewrite Er.
      * injection Er as <- Er. destruct (IH tl k rest Hls Htl (eq_sym Er)) as (ls1 & ls2 & b & -> & -> & Hb & E2).
        exists (l :: ls1), ls2, b. split; [done|]. split; [|done]. rewrite text_of_cons. done.
    + exists [], (l :: ls), t. split; [done|]. split; [done|]. split.
      * unfold clean in *. subst l. rewrite Forall_app in Hl. by destruct Hl.
      * rewrite text_of_cons, Er, Et. by rewrite <- app_assoc.
Qed.

(** Lines that fit the buffer with their newline. *)
Definition fits (l : chars) : Prop := strlen l < BUFSIZE - 1.

Lemma grep_run pattern sz fuel : forall k buf input ls tl,
  (forall k, 1 <= sz k) -> Forall clean ls -> clean tl -> Forall fits ls -> fits tl -> clean buf ->
  buf ++ input = text_of ls ++ tl -> (length input < fuel)%nat ->
  grep fuel pattern sz k buf input = Some (text_of (selected pattern ls)).
Proof.
  induction fuel as [|fuel IH]; intros k buf input ls tl Hsz Hls Htl Fls Ftl Hbuf E Hf; [lia|].
  cbn [grep].
  assert (strlen buf < BUFSIZE - 1) as Hroom.
  { destruct ls as [|l ls].
    - cbn in E. unfold fits, strlen in *. rewrite <- E, length_app in Ftl. lia.
    - apply Forall_cons in Fls as [Fl _]. rewrite text_of_cons in E.
      apply app_eq_inv in E as [(z & Eb & Er)|(z & El & _)].
      + destruct z as [|c z]; [rewrite app_nil_r in Eb; by subst|]. injection Er as <- _.
        unfold clean in Hbuf. rewrite Eb, Forall_app in Hbuf. destruct Hbuf as [_ Hb].
        apply Forall_cons in Hb as [[_ ?] _]. done.
      + unfold fits, strlen in *. rewrite El, length_app in Fl. lia. }
  set (n := Z.to_nat (Z.min (BUFSIZE - strlen buf - 1) (sz k))).
  assert (0 < n)%nat as Hn by (specialize (Hsz k); unfold n; lia). clearbody n.
  destruct (take n input) as [|c got] eqn:Et.
  { assert (input = []) as -> by (destruct input; [done|]; destruct n; [lia|done]).
    rewrite app_nil_r in E. subst buf. destruct ls as [|l ls]; [done|]. exfalso.
    unfold clean in Hbuf. rewrite text_of_cons, Forall_app in Hbuf. destruct Hbuf as [_ Hb].
    apply Forall_cons in Hb as [[_ ?] _]. done. }
  assert (input <> []) as Hne by (intros ->; by rewrite take_nil in Et).
  rewrite <- Et. clear c got Et.
  assert ((buf ++ take n input) ++ drop n input = text_of ls ++ tl) as E'
    by (rewrite <- app_assoc, take_drop; done).
  destruct (split_text ls tl _ _ Hls Htl E') as (ls1 & ls2 & b & -> & Eb & Hb & Er).
  apply Forall_app in Hls as [Hls1 Hls2]. apply Forall_app in Fls as [Fls1 Fls2].
  assert (length ls1 <= length (buf ++ take n input))%nat as Hl1.
  { rewrite Eb. clear. induction ls1 as [|l ls1 IH]; [cbn; lia|]. rewrite text_of_cons, length_app. cbn. lia. }
  rewrite Eb at 2. rewrite grep_lines_ok by (done || lia).
  assert (length (drop n input) < fuel)%nat as Hd.
  { rewrite length_drop. destruct input; [done|]. cbn [length] in *. lia. }
  rewrite (IH (S k) b (drop n input) ls2 tl) by done.
  f_equal. unfold selected. by rewrite filter_app, text_of_app.
Qed.

(** C36. grep prints exactly the matching lines. For a file of lines that fit
    the buffer, followed by an unterminated rest that fits it, and however the
    reads split it, the program terminates and its output is the lines that
    contain a match, in order, each with its newline; the unterminated rest is
    never printed. *)
Theorem grep_correct pattern sz ls tl : (forall k, 1 <= sz k) ->
  Forall clean ls -> clean tl -> Forall fits ls -> fits tl ->
  grep (S (length (text_of ls ++ tl))) pattern sz 0 [] (text_of ls ++ tl) =
    Some (text_of (selected pattern ls)).
Proof. intros Hsz Hls Htl Fls Ftl. apply (grep_run _ _ _ _ _ _ _ tl); try done; [constructor|lia]. Qed.

Lemma grep_correct_witness :
  grep 12 (lit "a.c") (fun _ => 2) 0 [] (text_of [lit "xabc"; lit "ac"] ++ lit "abc") =
    Some (lit "xabc" ++ [10]).
Proof.
  apply (grep_correct (lit "a.c") (fun _ => 2) [lit "xabc"; lit "ac"] (lit "abc")).
  - intros k. lia.
  - repeat constructor; done.
  - repeat constructor; done.
  - repeat constructor; done.
  - done.
Defined.
