(* ===== verification/Proc.v ===== *)
(** * kernel/proc.c: processes

    The process table, with physical memory (file Kalloc) and, through the
    interface [FileOps], the open files and inodes that processes refer to.
    A process is its index in the table; [NOPROC] is the null pointer.
    Operations run by a process take its index [p] (myproc()). Critical
    sections are atomic; a process that goes to sleep leaves the state in
    which the scheduler finds it ([Sleep]). *)
From stdpp Require Import base list numbers strings relations.
From Stdlib Require Import ZArith Lia FunctionalExtensionality.
From S2P Require Import Ulib Dto Prelude Memlayout Kalloc Vm.

Inductive procstate := UNUSED | USED | SLEEPING | RUNNABLE | RUNNING | ZOMBIE.
#[export] Instance procstate_eq_dec : EqDecision procstate.
Proof. solve_decision. Defined.

Definition is_state (s t : procstate) : bool := bool_decide (s = t).

Definition NOPROC : Z := -1.
Definition NULLF : Z := -1.

(** struct proc; the saved context is its ra and sp (the other registers are
    zeroed by allocproc). *)
Record proc := Proc {
  p_state : procstate; p_chan : Z; p_killed : Z; p_xstate : Z; p_pid : Z; p_parent : Z;
  p_kstack : Z; p_sz : Z; p_pagetable : Z; p_trapframe : Z; p_ra : Z; p_sp : Z;
  p_ofile : Z -> Z; p_cwd : Z; p_name : chars; p_cpu_ticks : Z; p_cpu_ticks_base : Z;
}.

Definition set_state v p : proc :=
  Proc v (p_chan p) (p_killed p) (p_xstate p) (p_pid p) (p_parent p) (p_kstack p) (p_sz p) (p_pagetable p)
    (p_trapframe p) (p_ra p) (p_sp p) (p_ofile p) (p_cwd p) (p_name p) (p_cpu_ticks p) (p_cpu_ticks_base p).
Definition set_chan v p : proc :=
  Proc (p_state p) v (p_killed p) (p_xstate p) (p_pid p) (p_parent p) (p_kstack p) (p_sz p) (p_pagetable p)
    (p_trapframe p) (p_ra p) (p_sp p) (p_ofile p) (p_cwd p) (p_name p) (p_cpu_ticks p) (p_cpu_ticks_base p).
Definition set_killed v p : proc :=
  Proc (p_state p) (p_chan p) v (p_xstate p) (p_pid p) (p_parent p) (p_kstack p) (p_sz p) (p_pagetable p)
    (p_trapframe p) (p_ra p) (p_sp p) (p_ofile p) (p_cwd p) (p_name p) (p_cpu_ticks p) (p_cpu_ticks_base p).
Definition set_xstate v p : proc :=
  Proc (p_state p) (p_chan p) (p_killed p) v (p_pid p) (p_parent p) (p_kstack p) (p_sz p) (p_pagetable p)
    (p_trapframe p) (p_ra p) (p_sp p) (p_ofile p) (p_cwd p) (p_name p) (p_cpu_ticks p) (p_cpu_ticks_base p).
Definition set_pid v p : proc :=
  Proc (p_state p) (p_chan p) (p_killed p) (p_xstate p) v (p_parent p) (p_kstack p) (p_sz p) (p_pagetable p)
    (p_trapframe p) (p_ra p) (p_sp p) (p_ofile p) (p_cwd p) (p_name p) (p_cpu_ticks p) (p_cpu_ticks_base p).
Definition set_parent v p : proc :=
  Proc (p_state p) (p_chan p) (p_killed p) (p_xstate p) (p_pid p) v (p_kstack p) (p_sz p) (p_pagetable p)
    (p_trapframe p) (p_ra p) (p_sp p) (p_ofile p) (p_cwd p) (p_name p) (p_cpu_ticks p) (p_cpu_ticks_base p).
Definition set_kstack v p : proc :=
  Proc (p_state p) (p_chan p) (p_killed p) (p_xstate p) (p_pid p) (p_parent p) v (p_sz p) (p_pagetable p)
    (p_trapframe p) (p_ra p) (p_sp p) (p_ofile p) (p_cwd p) (p_name p) (p_cpu_ticks p) (p_cpu_ticks_base p).
Definition set_sz v p : proc :=
  Proc (p_state p) (p_chan p) (p_killed p) (p_xstate p) (p_pid p) (p_parent p) (p_kstack p) v (p_pagetable
    p) (p_trapframe p) (p_ra p) (p_sp p) (p_ofile p) (p_cwd p) (p_name p) (p_cpu_ticks p) (p_cpu_ticks_base
    p).
Definition set_pagetable v p : proc :=
  Proc (p_state p) (p_chan p) (p_killed p) (p_xstate p) (p_pid p) (p_parent p) (p_kstack p) (p_sz p) v
    (p_trapframe p) (p_ra p) (p_sp p) (p_ofile p) (p_cwd p) (p_name p) (p_cpu_ticks p) (p_cpu_ticks_base p).
Definition set_trapframe v p : proc :=
  Proc (p_state p) (p_chan p) (p_killed p) (p_xstate p) (p_pid p) (p_parent p) (p_kstack p) (p_sz p)
    (p_pagetable p) v (p_ra p) (p_sp p) (p_ofile p) (p_cwd p) (p_name p) (p_cpu_ticks p) (p_cpu_ticks_base
    p).
Definition set_ra v p : proc :=
  Proc (p_state p) (p_chan p) (p_killed p) (p_xstate p) (p_pid p) (p_parent p) (p_kstack p) (p_sz p)
    (p_pagetable p) (p_trapframe p) v (p_sp p) (p_ofile p) (p_cwd p) (p_name p) (p_cpu_ticks p)
    (p_cpu_ticks_base p).
Definition set_sp v p : proc :=
  Proc (p_state p) (p_chan p) (p_killed p) (p_xstate p) (p_pid p) (p_parent p) (p_kstack p) (p_sz p)
    (p_pagetable p) (p_trapframe p) (p_ra p) v (p_ofile p) (p_cwd p) (p_name p) (p_cpu_ticks p)
    (p_cpu_ticks_base p).
Definition set_ofile v p : proc :=
  Proc (p_state p) (p_chan p) (p_killed p) (p_xstate p) (p_pid p) (p_parent p) (p_kstack p) (p_sz p)
    (p_pagetable p) (p_trapframe p) (p_ra p) (p_sp p) v (p_cwd p) (p_name p) (p_cpu_ticks p)
    (p_cpu_ticks_base p).
Definition set_cwd v p : proc :=
  Proc (p_state p) (p_chan p) (p_killed p) (p_xstate p) (p_pid p) (p_parent p) (p_kstack p) (p_sz p)
    (p_pagetable p) (p_trapframe p) (p_ra p) (p_sp p) (p_ofile p) v (p_name p) (p_cpu_ticks p)
    (p_cpu_ticks_base p).
Definition set_name v p : proc :=
  Proc (p_state p) (p_chan p) (p_killed p) (p_xstate p) (p_pid p) (p_parent p) (p_kstack p) (p_sz p)
    (p_pagetable p) (p_trapframe p) (p_ra p) (p_sp p) (p_ofile p) (p_cwd p) v (p_cpu_ticks p)
    (p_cpu_ticks_base p).
Definition set_cpu_ticks v p : proc :=
  Proc (p_state p) (p_chan p) (p_killed p) (p_xstate p) (p_pid p) (p_parent p) (p_kstack p) (p_sz p)
    (p_pagetable p) (p_trapframe p) (p_ra p) (p_sp p) (p_ofile p) (p_cwd p) (p_name p) v (p_cpu_ticks_base
    p).
Definition set_cpu_ticks_base v p : proc :=
  Proc (p_state p) (p_chan p) (p_killed p) (p_xstate p) (p_pid p) (p_parent p) (p_kstack p) (p_sz p)
    (p_pagetable p) (p_trapframe p) (p_ra p) (p_sp p) (p_ofile p) (p_cwd p) (p_name p) (p_cpu_ticks p) v.

(** What the process code asks of the file layer: filedup, fileclose, idup,
    begin_op; iput; end_op, and namei("/"). [frefs] is the reference count of
    each open file. *)
Class FileOps (F : Type) := {
  f_dup : Z -> M F unit;
  f_close : Z -> M F unit;
  i_dup : Z -> M F Z;
  i_put : Z -> M F unit;
  root_inode : M F Z;
}.

Class FileLaws (F : Type) `{FileOps F} := {
  frefs : F -> Z -> Z;
  f_dup_ok f s : 1 <= frefs s f < 2 ^ 31 - 1 ->
    exists s', f_dup f s = Ret tt s' /\ frefs s' = fupd (frefs s) f (frefs s f + 1);
  f_close_ok f s s' : 1 <= frefs s f -> f_close f s = Ret tt s' -> frefs s' = fupd (frefs s) f (frefs s f - 1);
  i_dup_refs i s i' s' : i_dup i s = Ret i' s' -> frefs s' = frefs s;
  i_put_refs i s s' : i_put i s = Ret tt s' -> frefs s' = frefs s;
}.

Record pstate (F : Type) := PSt {
  procs : Z -> proc; nextpid : Z; initproc : Z; ticks : Z; km : kmem; files : F;
}.
Arguments PSt {F}. Arguments procs {F}. Arguments nextpid {F}. Arguments initproc {F}.
Arguments ticks {F}. Arguments km {F}. Arguments files {F}.

Section proc_ops.
Context `{KernelEnd} {F : Type} `{FileOps F}.
(** Addresses set by the linker: forkret and the trampoline page. *)
Context (forkret trampoline : Z).
Abbreviation P := (M (pstate F)).

Definition set_procs v (s : pstate F) : pstate F := PSt v (nextpid s) (initproc s) (ticks s) (km s) (files s).
Definition set_nextpid v (s : pstate F) : pstate F := PSt (procs s) v (initproc s) (ticks s) (km s) (files s).
Definition set_initproc v (s : pstate F) : pstate F := PSt (procs s) (nextpid s) v (ticks s) (km s) (files s).
Definition set_km v (s : pstate F) : pstate F := PSt (procs s) (nextpid s) (initproc s) (ticks s) v (files s).
Definition set_files v (s : pstate F) : pstate F := PSt (procs s) (nextpid s) (initproc s) (ticks s) (km s) v.

Definition on_proc (i : Z) (f : proc -> proc) (s : pstate F) : pstate F :=
  set_procs (fupd (procs s) i (f (procs s i))) s.
Definition upd (i : Z) (f : proc -> proc) : P unit := modify (on_proc i f).
Definition proc_of (i : Z) : P proc := gets (fun s => procs s i).
Definition memory_op {A} (m : M kmem A) : P A := lift km set_km m.
Definition file_op {A} (m : M F A) : P A := lift files set_files m.

Definition procinit : P unit :=
  for_loop (Z.to_nat NPROC) 0 (fun i => upd i (set_state UNUSED) ;;; upd i (set_kstack (KSTACK i))).

Definition allocpid : P Z :=
  pid <- gets nextpid ;;
  modify (set_nextpid (i32 (pid + 1))) ;;;
  ret pid.

Definition proc_freepagetable (pagetable sz : Z) : M kmem unit :=
  uvmunmap pagetable TRAMPOLINE 1 false ;;;
  uvmunmap pagetable TRAPFRAME 1 false ;;;
  uvmfree pagetable sz.

Definition proc_pagetable (i : Z) : P Z :=
  p <- proc_of i ;;
  memory_op
    (pagetable <- uvmcreate ;;
     if pagetable =? 0 then ret 0
     else
       r <- mappages pagetable TRAMPOLINE PGSIZE trampoline (Z.lor PTE_R PTE_X) ;;
       if r <? 0 then uvmfree pagetable 0 ;;; ret 0
       else
         r <- mappages pagetable TRAPFRAME PGSIZE (p_trapframe p) (Z.lor PTE_R PTE_W) ;;
         if r <? 0 then uvmunmap pagetable TRAMPOLINE 1 false ;;; uvmfree pagetable 0 ;;; ret 0
         else ret pagetable).

Definition clear_proc (p : proc) : proc :=
  Proc UNUSED 0 0 0 0 NOPROC (p_kstack p) 0 0 0 (p_ra p) (p_sp p) (p_ofile p) (p_cwd p) []
    (p_cpu_ticks p) (p_cpu_ticks_base p).

Definition freeproc (i : Z) : P unit :=
  p <- proc_of i ;;
  when (negb (p_trapframe p =? 0)) (memory_op (kfree (p_trapframe p))) ;;;
  upd i (set_trapframe 0) ;;;
  when (negb (p_pagetable p =? 0)) (memory_op (proc_freepagetable (p_pagetable p) (p_sz p))) ;;;
  upd i clear_proc.

(** The first UNUSED slot among the [n] slots from [i] on. *)
Fixpoint find_unused (n : nat) (i : Z) (ps : Z -> proc) : Z :=
  match n with
  | O => NOPROC
  | S n' => if is_state (p_state (ps i)) UNUSED then i else find_unused n' (i + 1) ps
  end.

Definition allocproc : P Z :=
  ps <- gets procs ;;
  let i := find_unused (Z.to_nat NPROC) 0 ps in
  if i =? NOPROC then ret NOPROC
  else
    pid <- allocpid ;;
    upd i (set_pid pid) ;;;
    upd i (set_state USED) ;;;
    t <- gets ticks ;;
    upd i (set_cpu_ticks_base t) ;;;
    upd i (set_cpu_ticks 0) ;;;
    tf <- memory_op kalloc ;;
    upd i (set_trapframe tf) ;;;
    if tf =? 0 then freeproc i ;;; ret NOPROC
    else
      pt <- proc_pagetable i ;;
      upd i (set_pagetable pt) ;;;
      if pt =? 0 then freeproc i ;;; ret NOPROC
      else
        upd i (set_ra forkret) ;;;
        upd i (fun p => set_sp (p_kstack p + PGSIZE) p) ;;;
        ret i.

Definition userinit : P unit :=
  i <- allocproc ;;
  modify (set_initproc i) ;;;
  ip <- file_op root_inode ;;
  upd i (set_cwd ip) ;;;
  upd i (set_state RUNNABLE).

Definition growproc (p n : Z) : P Z :=
  pr <- proc_of p ;;
  let sz := p_sz pr in
  if 0 <? n then
    if TRAPFRAME <? u64 (sz + n) then ret (-1)
    else
      sz <- memory_op (uvmalloc (p_pagetable pr) sz (u64 (sz + n)) PTE_W) ;;
      if sz =? 0 then ret (-1) else upd p (set_sz sz) ;;; ret 0
  else if n <? 0 then
    sz <- memory_op (uvmdealloc (p_pagetable pr) sz (u64 (sz + n))) ;;
    upd p (set_sz sz) ;;; ret 0
  else upd p (set_sz sz) ;;; ret 0.

(** offsetof(struct trapframe, a0) and sizeof(struct trapframe) *)
Definition TF_A0 : Z := 112.
Definition TF_SIZE : Z := 288.

(** np->ofile[i] = filedup(p->ofile[i]) for every open i *)
Definition dup_files (p np : Z) : P unit :=
  for_loop (Z.to_nat NOFILE) 0 (fun i =>
    pr <- proc_of p ;;
    let f := p_ofile pr i in
    when (negb (f =? NULLF))
      (file_op (f_dup f) ;;; upd np (fun q => set_ofile (fupd (p_ofile q) i f) q))).

(** safestrcpy(s, t, sizeof(s)) with an array of 16 characters *)
Definition safestr (t : chars) : chars := take 15 t.

(** One step, although the code releases np->lock and takes wait_lock before it
    sets the parent: until then the new process is USED, so the scheduler does
    not run it, and it is no other process's child. *)
Definition kfork (p : Z) : P Z :=
  np <- allocproc ;;
  if np =? NOPROC then ret (-1)
  else
    pr <- proc_of p ;;
    npr <- proc_of np ;;
    r <- memory_op (uvmcopy (p_pagetable pr) (p_pagetable npr) (p_sz pr)) ;;
    if r <? 0 then freeproc np ;;; ret (-1)
    else
      upd np (set_sz (p_sz pr)) ;;;
      memory_op (modify (fun k => set_mem (blit (mem k) (p_trapframe npr) (mem k) (p_trapframe pr) TF_SIZE) k)) ;;;
      memory_op (store64 (p_trapframe npr + TF_A0) 0) ;;;
      dup_files p np ;;;
      cwd <- file_op (i_dup (p_cwd pr)) ;;
      upd np (set_cwd cwd) ;;;
      upd np (set_name (safestr (p_name pr))) ;;;
      npr <- proc_of np ;;
      let pid := p_pid npr in
      upd np (set_parent p) ;;;
      upd np (set_state RUNNABLE) ;;;
      ret pid.

(** Wakes the processes sleeping on [chan], but not the caller [p]. *)
Definition wake (chan : Z) (q : proc) : proc :=
  if is_state (p_state q) SLEEPING && (p_chan q =? chan) then set_state RUNNABLE q else q.
Definition wakeup (p chan : Z) : P unit :=
  for_loop (Z.to_nat NPROC) 0 (fun i => when (negb (i =? p)) (upd i (wake chan))).

(** Processes are wait channels in kwait: their address in the table. *)
Definition chan_of (p : Z) : Z := p.

Definition reparent (p : Z) : P unit :=
  for_loop (Z.to_nat NPROC) 0 (fun i =>
    q <- proc_of i ;;
    when (p_parent q =? p)
      (init <- gets initproc ;;
       upd i (set_parent init) ;;;
       wakeup p (chan_of init))).

(** The guards of sched that concern the process: it must not be RUNNING. *)
Definition sched (p : Z) : P unit :=
  pr <- proc_of p ;;
  if is_state (p_state pr) RUNNING then panic "sched RUNNING" else ret tt.

Definition close_files (p : Z) : P unit :=
  for_loop (Z.to_nat NOFILE) 0 (fun fd =>
    pr <- proc_of p ;;
    let f := p_ofile pr fd in
    when (negb (f =? NULLF))
      (file_op (f_close f) ;;; upd p (fun q => set_ofile (fupd (p_ofile q) fd NULLF) q))).

(** kexit up to the switch to the scheduler, from which it never returns. One
    step, although closing files may sleep: other processes may run there. *)
Definition kexit (p status : Z) : P unit :=
  init <- gets initproc ;;
  if p =? init then panic "init exiting"
  else
    close_files p ;;;
    pr <- proc_of p ;;
    file_op (i_put (p_cwd pr)) ;;;
    upd p (set_cwd NULLF) ;;;
    reparent p ;;;
    pr <- proc_of p ;;
    wakeup p (chan_of (p_parent pr)) ;;;
    upd p (set_xstate status) ;;;
    upd p (set_state ZOMBIE) ;;;
    sched p.

(** sleep: the state in which the process enters the scheduler. *)
Definition psleep {A} (p chan : Z) : P A :=
  upd p (set_chan chan) ;;;
  upd p (set_state SLEEPING) ;;;
  sched p ;;;
  sleep_on chan.
(** The rest of sleep, when the process runs again. *)
Definition sleep_resume (p : Z) : P unit := upd p (set_chan 0).

Definition killed (p : Z) : P Z := pr <- proc_of p ;; ret (p_killed pr).
Definition setkilled (p : Z) : P unit := upd p (set_killed 1).

(** The scan of kwait: the first zombie child, and whether there are any. *)
Fixpoint find_zombie (n : nat) (i : Z) (ps : Z -> proc) (p : Z) : Z * bool :=
  match n with
  | O => (NOPROC, false)
  | S n' =>
      if p_parent (ps i) =? p then
        if is_state (p_state (ps i)) ZOMBIE then (i, true)
        else let '(z, _) := find_zombie n' (i + 1) ps p in (z, true)
      else find_zombie n' (i + 1) ps p
  end.

(** One round of kwait's loop, to its return or its sleep. *)
Definition kwait (p addr : Z) : P Z :=
  ps <- gets procs ;;
  let '(z, havekids) := find_zombie (Z.to_nat NPROC) 0 ps p in
  if negb (z =? NOPROC) then
    pp <- proc_of z ;;
    pr <- proc_of p ;;
    let pid := p_pid pp in
    r <- (if negb (addr =? 0)
          then memory_op (copyout (p_sz pr) (p_pagetable pr) (p_pagetable pr) addr
                            (st32 (fun _ => 0) 0 (p_xstate pp)) 0 4)
          else ret 0) ;;
    if r <? 0 then ret (-1) else freeproc z ;;; ret pid
  else
    k <- killed p ;;
    if negb havekids || negb (k =? 0) then ret (-1) else psleep p (chan_of p).

(** The scheduler gives the CPU to a RUNNABLE process. *)
Definition schedule (i : Z) : P bool :=
  q <- proc_of i ;;
  if is_state (p_state q) RUNNABLE then upd i (set_state RUNNING) ;;; ret true else ret false.

Definition yield (p : Z) : P unit := upd p (set_state RUNNABLE) ;;; sched p.

Fixpoint find_pid (n : nat) (i : Z) (ps : Z -> proc) (pid : Z) : Z :=
  match n with
  | O => NOPROC
  | S n' => if p_pid (ps i) =? pid then i else find_pid n' (i + 1) ps pid
  end.

Definition kkill (pid : Z) : P Z :=
  ps <- gets procs ;;
  let i := find_pid (Z.to_nat NPROC) 0 ps pid in
  if i =? NOPROC then ret (-1)
  else
    upd i (set_killed 1) ;;;
    upd i (fun q => if is_state (p_state q) SLEEPING then set_state RUNNABLE q else q) ;;;
    ret 0.

(** ** The process listing of topfree *)

Definition u_state (s : procstate) : Z :=
  match s with
  | UNUSED => U_UNUSED | USED => U_USED | SLEEPING => U_SLEEPING
  | RUNNABLE => U_RUNNABLE | RUNNING => U_RUNNING | ZOMBIE => U_ZOMBIE
  end.

(** me of fill_u_proc *)
Definition info_of (p : proc) : u_proc_info :=
  UInfo (p_pid p) (u_state (p_state p)) (safestr (p_name p)) (p_killed p) (i64 (p_sz p)) (i64 (p_cpu_ticks p)).

(** parent of fill_u_proc: the case USED assigns to parent->state, so that
    up->parent.state keeps the zero of the memset. *)
Definition parent_info_of (p : proc) : u_proc_info :=
  UInfo (p_pid p) (if is_state (p_state p) USED then 0 else u_state (p_state p))
    (safestr (p_name p)) (p_killed p) (i64 (p_sz p)) (i64 (p_cpu_ticks p)).

Definition fill_u_proc (i : Z) (parent_flag : bool) : P u_proc :=
  p <- proc_of i ;;
  if parent_flag && negb (p_parent p =? NOPROC) then
    q <- proc_of (p_parent p) ;;
    when (is_state (p_state q) USED) (upd (p_parent p) (set_state USED)) ;;;
    ret (UProc (info_of p) (parent_info_of q))
  else ret (UProc (info_of p) (UInfo (-1) 0 [] 0 0 0)).

(** The loop over the table; p is the caller, count the entries written. *)
Fixpoint getallprocs_from (n : nat) (i p user_buf max count : Z) : P Z :=
  match n with
  | O => ret count
  | S n' =>
      if count <? max then
        q <- proc_of i ;;
        if negb (is_state (p_state q) UNUSED) then
          up <- fill_u_proc i true ;;
          pr <- proc_of p ;;
          r <- memory_op (copyout (p_sz pr) (p_pagetable pr) (p_pagetable pr)
                            (u64 (user_buf + count * UPROC_SIZE)) (put_uproc up) 0 UPROC_SIZE) ;;
          if r <? 0 then ret (-1) else getallprocs_from n' (i + 1) p user_buf max (count + 1)
        else getallprocs_from n' (i + 1) p user_buf max count
      else ret count
  end.

Definition kernel_getallprocs (p user_buf max : Z) : P Z :=
  getallprocs_from (Z.to_nat NPROC) 0 p user_buf max 0.
End proc_ops.
