(* ===== verification/ProcTable.v ===== *)
(** * The process table: invariants over every interleaving of operations *)
From stdpp Require Import base list numbers strings relations.
From Stdlib Require Import ZArith Lia FunctionalExtensionality.
From S2P Require Import Ulib Dto Prelude Memlayout Kalloc Vm Proc.

Section table.
Context `{KernelEnd} {F : Type} `{FL : FileLaws F}.
Context (forkret trampoline : Z).
Implicit Types s : pstate F.

(** ** What the operations do to the table *)

(** The part of a process that the table's structure depends on. *)
Definition core_eq (q q' : proc) : Prop :=
  p_pid q' = p_pid q /\ p_parent q' = p_parent q /\
  (p_state q' = UNUSED <-> p_state q = UNUSED) /\ (p_state q' = ZOMBIE <-> p_state q = ZOMBIE).

Definition core s s' : Prop :=
  nextpid s' = nextpid s /\ initproc s' = initproc s /\ forall i, core_eq (procs s i) (procs s' i).

Lemma core_eq_refl q : core_eq q q.
Proof. done. Qed.

Lemma core_refl s : core s s.
Proof. done. Qed.

Lemma core_trans s1 s2 s3 : core s1 s2 -> core s2 s3 -> core s1 s3.
Proof.
  intros (A1 & A2 & A3) (B1 & B2 & B3). split; [congruence|]. split; [congruence|].
  intros i. destruct (A3 i) as (C1 & C2 & C3 & C4), (B3 i) as (D1 & D2 & D3 & D4).
  repeat split; try congruence; tauto.
Qed.

Lemma core_on_proc i f s : core_eq (procs s i) (f (procs s i)) -> core s (on_proc i f s).
Proof.
  intros Hc. split; [done|]. split; [done|]. intros j. cbn. destruct (decide (j = i)) as [->|Hne].
  - by rewrite fupd_eq.
  - by rewrite fupd_ne.
Qed.

(** Operations on memory and files leave the table alone. *)
Lemma memory_op_table {A} (m : M kmem A) s a s' : memory_op m s = Ret a s' ->
  exists k, s' = set_km k s.
Proof. intros E. apply lift_Ret_inv in E as (k & _ & ->). by exists k. Qed.

Lemma proc_pagetable_table i s a s' : proc_pagetable trampoline i s = Ret a s' -> exists k, s' = set_km k s.
Proof.
  unfold proc_pagetable. intros E. apply bind_Ret in E as (p & s0 & E0 & E). injection E0 as <- <-.
  by apply memory_op_table in E.
Qed.

Lemma file_op_table {A} (m : M F A) s a s' : file_op m s = Ret a s' ->
  exists x, m (files s) = Ret a x /\ s' = set_files x s.
Proof. intros E. apply lift_Ret_inv in E as (x & E & ->). by exists x. Qed.

Lemma when_memory b (m : M kmem unit) s s' : when b (memory_op m) s = Ret tt s' -> exists k, s' = set_km k s.
Proof.
  destruct b; cbn; [apply memory_op_table|]. intros E. injection E as <-. exists (km s). by destruct s.
Qed.

Lemma core_memory {A} (m : M kmem A) s a s' : memory_op m s = Ret a s' -> core s s'.
Proof. intros E. by apply memory_op_table in E as [k ->]. Qed.

Lemma core_file {A} (m : M F A) s a s' : file_op m s = Ret a s' -> core s s'.
Proof. intros E. by apply file_op_table in E as (x & _ & ->). Qed.

(** A counted loop whose body keeps a transitive relation keeps it. *)
Lemma for_loop_rel (R : pstate F -> pstate F -> Prop) (body : Z -> M (pstate F) unit) :
  (forall s, R s s) -> (forall s1 s2 s3, R s1 s2 -> R s2 s3 -> R s1 s3) ->
  (forall i s s', body i s = Ret tt s' -> R s s') ->
  forall n i s s', for_loop n i body s = Ret tt s' -> R s s'.
Proof.
  intros Hr Ht Hb n. induction n as [|n IH]; intros i s s' E; cbn in E.
  - injection E as <-. apply Hr.
  - apply bind_Ret in E as ([] & s1 & E1 & E2). eapply Ht; [by eapply Hb|by eapply IH].
Qed.

Lemma wake_core chan q : core_eq q (wake chan q).
Proof.
  unfold wake. destruct (_ && _) eqn:E; [|done]. apply andb_prop in E as [E _].
  apply bool_decide_eq_true in E. repeat split; cbn; rewrite E; done.
Qed.

Lemma wakeup_core p chan s s' : wakeup p chan s = Ret tt s' -> core s s'.
Proof.
  apply for_loop_rel; [apply core_refl|apply core_trans|].
  intros i s1 s2 E. unfold when in E. destruct (negb _); [|by injection E as <-].
  injection E as <-. apply core_on_proc, wake_core.
Qed.

(** freeproc clears the slot and nothing else of the table. *)
Lemma freeproc_table i s s' : freeproc i s = Ret tt s' ->
  nextpid s' = nextpid s /\ initproc s' = initproc s /\ files s' = files s /\
  procs s' = fupd (procs s) i (clear_proc (procs s i)).
Proof.
  intros E. unfold freeproc in E.
  apply bind_Ret in E as (p & s0 & E0 & E). injection E0 as <- <-.
  apply bind_Ret in E as ([] & s1 & E1 & E). apply bind_Ret in E as ([] & s2 & E2 & E).
  apply bind_Ret in E as ([] & s3 & E3 & E).
  apply when_memory in E1 as [k1 ->]. injection E2 as <-. apply when_memory in E3 as [k3 ->].
  injection E as <-. cbn. split; [done|]. split; [done|]. split; [done|].
  rewrite fupd_twice, fupd_eq. done.
Qed.

Lemma find_unused_spec n : forall i ps, 0 <= i -> let j := find_unused n i ps in
  j = NOPROC \/ (i <= j < i + Z.of_nat n /\ p_state (ps j) = UNUSED).
Proof.
  induction n as [|n IH]; intros i ps Hi; cbn; [by left|].
  destruct (is_state (p_state (ps i)) UNUSED) eqn:E.
  - right. apply bool_decide_eq_true in E. split; [lia|done].
  - destruct (IH (i + 1) ps ltac:(lia)) as [->|[Hr Hu]]; [by left|right]. split; [lia|done].
Qed.

(** The slot allocproc hands out. *)
Definition allocated (q q' : proc) (pid : Z) : Prop :=
  p_state q' = USED /\ p_pid q' = pid /\ p_parent q' = p_parent q /\ p_killed q' = p_killed q /\
  p_ofile q' = p_ofile q.

Lemma allocproc_table s i s' : allocproc forkret trampoline s = Ret i s' ->
  initproc s' = initproc s /\ files s' = files s /\
  ((i = NOPROC /\ s' = s) \/
   exists j q', 0 <= j < NPROC /\ p_state (procs s j) = UNUSED /\ nextpid s' = i32 (nextpid s + 1) /\
     procs s' = fupd (procs s) j q' /\ p_ofile q' = p_ofile (procs s j) /\
     ((i = NOPROC /\ p_state q' = UNUSED /\ p_pid q' = 0 /\ p_parent q' = NOPROC) \/
      (i = j /\ allocated (procs s j) q' (nextpid s)))).
Proof.
  intros E. unfold allocproc in E. apply bind_Ret in E as (ps & s0 & E0 & E). injection E0 as <- <-.
  pose proof (find_unused_spec (Z.to_nat NPROC) 0 (procs s) ltac:(lia)) as Hj. cbv zeta in Hj, E.
  set (j := find_unused (Z.to_nat NPROC) 0 (procs s)) in *.
  destruct (Z.eqb_spec j NOPROC) as [Ej|Ej].
  { injection E as <- <-. split; [done|]. split; [done|]. by left. }
  destruct Hj as [?|[Hr Hu]]; [done|]. change (0 + Z.of_nat (Z.to_nat NPROC)) with NPROC in Hr.
  set (s1 := on_proc j (set_cpu_ticks 0) (on_proc j (set_cpu_ticks_base (ticks s))
    (on_proc j (set_state USED) (on_proc j (set_pid (nextpid s)) (set_nextpid (i32 (nextpid s + 1)) s))))).
  assert (exists q1, procs s1 = fupd (procs s) j q1 /\ allocated (procs s j) q1 (nextpid s)) as (q1 & P1 & A1).
  { unfold s1. cbn. rewrite !fupd_twice, !fupd_eq. by eexists. }
  assert (initproc s1 = initproc s /\ files s1 = files s /\ nextpid s1 = i32 (nextpid s + 1)) as (I1 & F1 & N1)
    by done.
  match type of E with _ = Ret _ _ => change (bind (memory_op kalloc) (fun tf =>
    upd j (set_trapframe tf) ;;;
    if tf =? 0 then freeproc j ;;; ret NOPROC
    else
      pt <- proc_pagetable trampoline j ;;
      upd j (set_pagetable pt) ;;;
      if pt =? 0 then freeproc j ;;; ret NOPROC
      else upd j (set_ra forkret) ;;; upd j (fun p => set_sp (p_kstack p + PGSIZE) p) ;;; ret j) s1 = Ret i s') in E end.
  clearbody s1. apply bind_Ret in E as (tf & s2 & E2 & E). apply memory_op_table in E2 as [k2 ->].
  apply bind_Ret in E as ([] & s3 & E3 & E). injection E3 as <-.
  set (s3 := on_proc j (set_trapframe tf) (set_km k2 s1)) in E.
  assert (exists q3, procs s3 = fupd (procs s) j q3 /\ allocated (procs s j) q3 (nextpid s)) as (q3 & P3 & A3).
  { unfold s3. cbn. rewrite P1, fupd_twice, fupd_eq. eexists. split; [done|]. exact A1. }
  assert (initproc s3 = initproc s /\ files s3 = files s /\ nextpid s3 = i32 (nextpid s + 1)) as (I3 & F3 & N3)
    by done.
  clearbody s3.
  assert (forall s4 q4 s5, procs s4 = fupd (procs s) j q4 -> allocated (procs s j) q4 (nextpid s) ->
    initproc s4 = initproc s -> files s4 = files s -> nextpid s4 = i32 (nextpid s + 1) ->
    (freeproc j ;;; ret NOPROC) s4 = Ret i s5 -> s5 = s' ->
    initproc s' = initproc s /\ files s' = files s /\
    ((i = NOPROC /\ s' = s) \/
     exists j q', 0 <= j < NPROC /\ p_state (procs s j) = UNUSED /\ nextpid s' = i32 (nextpid s + 1) /\
       procs s' = fupd (procs s) j q' /\ p_ofile q' = p_ofile (procs s j) /\
       ((i = NOPROC /\ p_state q' = UNUSED /\ p_pid q' = 0 /\ p_parent q' = NOPROC) \/
        (i = j /\ allocated (procs s j) q' (nextpid s))))) as Hfail.
  { intros s4 q4 s5 P4 A4 I4 F4 N4 E4 <-. apply bind_Ret in E4 as ([] & s6 & E6 & E4). injection E4 as <- <-.
    apply freeproc_table in E6 as (N6 & I6 & F6 & P6).
    split; [congruence|]. split; [congruence|]. right. exists j, (clear_proc q4).
    split; [done|]. split; [done|]. split; [congruence|].
    split; [rewrite P6, P4, fupd_twice, fupd_eq; done|]. split; [apply A4|]. by left. }
  destruct (tf =? 0); [by eapply Hfail|].
  apply bind_Ret in E as (pt & s4 & E4 & E). apply proc_pagetable_table in E4 as [k4 ->].
  apply bind_Ret in E as ([] & s5 & E5 & E). injection E5 as <-.
  set (s5 := on_proc j (set_pagetable pt) (set_km k4 s3)) in E.
  assert (exists q5, procs s5 = fupd (procs s) j q5 /\ allocated (procs s j) q5 (nextpid s)) as (q5 & P5 & A5).
  { unfold s5. cbn. rewrite P3, fupd_twice, fupd_eq. eexists. split; [done|]. exact A3. }
  assert (initproc s5 = initproc s /\ files s5 = files s /\ nextpid s5 = i32 (nextpid s + 1)) as (I5 & F5 & N5)
    by done.
  clearbody s5. destruct (pt =? 0); [by eapply Hfail|].
  injection E as <- <-. split; [done|]. split; [done|]. right. cbn. rewrite P5, !fupd_twice, !fupd_eq.
  eexists j, _. split; [done|]. split; [done|]. split; [done|]. split; [done|]. split; [apply A5|].
  right. split; [done|]. exact A5.
Qed.

(** ** The invariant *)

Record table_inv s : Prop := {
  ti_unused i : 0 <= i < NPROC -> p_state (procs s i) = UNUSED ->
    p_pid (procs s i) = 0 /\ p_parent (procs s i) = NOPROC;
  ti_pid i : 0 <= i < NPROC -> p_state (procs s i) <> UNUSED -> 1 <= p_pid (procs s i) < nextpid s;
  ti_inj i j : 0 <= i < NPROC -> 0 <= j < NPROC -> p_state (procs s i) <> UNUSED ->
    p_state (procs s j) <> UNUSED -> p_pid (procs s i) = p_pid (procs s j) -> i = j;
  ti_parent i : 0 <= i < NPROC -> p_parent (procs s i) <> NOPROC ->
    0 <= p_parent (procs s i) < NPROC /\ p_state (procs s (p_parent (procs s i))) <> UNUSED /\
    p_state (procs s (p_parent (procs s i))) <> ZOMBIE;
  ti_init : 0 <= initproc s < NPROC /\ p_state (procs s (initproc s)) <> UNUSED /\
    p_state (procs s (initproc s)) <> ZOMBIE;
  ti_next : 1 <= nextpid s;
}.

Lemma core_inv s s' : core s s' -> table_inv s -> table_inv s'.
Proof.
  intros (En & Ei & Hc) [U I J Pa In Nx]. split.
  - intros i Hi Hu. destruct (Hc i) as (-> & -> & H1 & _). apply U; [done|]. by apply H1.
  - intros i Hi Hu. destruct (Hc i) as (-> & _ & H1 & _). rewrite En. apply I; [done|]. by rewrite <- H1.
  - intros i j Hi Hj Hu Hv. destruct (Hc i) as (-> & _ & H1 & _), (Hc j) as (-> & _ & H2 & _).
    rewrite H1 in Hu. rewrite H2 in Hv. by apply J.
  - intros i Hi. destruct (Hc i) as (_ & -> & _). intros Hp. destruct (Pa i Hi Hp) as (A1 & A2 & A3).
    destruct (Hc (p_parent (procs s i))) as (_ & _ & H1 & H2). rewrite H1, H2. done.
  - rewrite Ei. destruct In as (A1 & A2 & A3). destruct (Hc (initproc s)) as (_ & _ & H1 & H2).
    by rewrite H1, H2.
  - by rewrite En.
Qed.

(** A slot taken by allocproc, or given back by its error path. *)
Lemma allocproc_inv s i s' : table_inv s -> nextpid s < 2 ^ 31 - 1 ->
  allocproc forkret trampoline s = Ret i s' ->
  table_inv s' /\ (i = NOPROC \/ (0 <= i < NPROC /\ p_parent (procs s' i) = NOPROC /\
    p_state (procs s' i) = USED /\ p_state (procs s i) = UNUSED /\ p_killed (procs s' i) = p_killed (procs s i) /\
    forall k, k <> i -> procs s' k = procs s k)).
Proof.
  intros Hi Hn E. apply allocproc_table in E as (Ei & _ & [[-> ->]|(j & q & Hj & Hu & En & Ep & _ & Hq)]).
  { split; [done|by left]. }
  pose proof (ti_next _ Hi) as Hnx. rewrite swrap_small in En by (change (2 ^ (32 - 1)) with (2 ^ 31); lia).
  destruct (ti_unused _ Hi j Hj Hu) as [Hpid0 Hpar0].
  assert (forall k, k <> j -> procs s' k = procs s k) as Hk by (intros k Hne; rewrite Ep; by apply fupd_ne).
  assert (procs s' j = q) as Hjq by (rewrite Ep; apply fupd_eq).
  assert (p_parent q = NOPROC) as Hqp.
  { destruct Hq as [(_ & _ & _ & ?)|(_ & _ & _ & E & _)]; [done|congruence]. }
  assert (p_state q = UNUSED /\ p_pid q = 0 \/ p_state q = USED /\ p_pid q = nextpid s) as Hst.
  { destruct Hq as [(_ & ? & ? & _)|(_ & ? & ? & _)]; [by left|by right]. }
  split.
  - split.
    + intros k Hkr Hku. destruct (decide (k = j)) as [->|Hne].
      * rewrite Hjq in *. destruct Hst as [[_ ?]|[? _]]; [done|congruence].
      * rewrite Hk in * by done. by apply (ti_unused _ Hi).
    + intros k Hkr Hku. destruct (decide (k = j)) as [->|Hne].
      * rewrite Hjq in *. destruct Hst as [[? _]|[_ ->]]; [done|lia].
      * rewrite Hk in * by done. pose proof (ti_pid _ Hi k Hkr Hku). lia.
    + intros k m Hkr Hmr Hku Hmu Epid.
      destruct (decide (k = j)) as [->|Hk1], (decide (m = j)) as [->|Hm1]; try done.
      * rewrite Hjq in *. rewrite Hk in * by done. pose proof (ti_pid _ Hi m Hmr Hmu).
        destruct Hst as [[? _]|[_ ?]]; [done|lia].
      * rewrite Hjq in *. rewrite Hk in * by done. pose proof (ti_pid _ Hi k Hkr Hku).
        destruct Hst as [[? _]|[_ ?]]; [done|lia].
      * rewrite !Hk in * by done. by apply (ti_inj _ Hi).
    + intros k Hkr. destruct (decide (k = j)) as [->|Hne]; [by rewrite Hjq|].
      rewrite (Hk k) by done. intros Hp. destruct (ti_parent _ Hi k Hkr Hp) as (A1 & A2 & A3).
      assert (p_parent (procs s k) <> j) as Hpj by (intros E2; rewrite E2 in A2; done).
      by rewrite Hk.
    + destruct (ti_init _ Hi) as (A1 & A2 & A3). rewrite Ei. rewrite Hk; [done|]. intros E2. by rewrite E2 in A2.
    + lia.
  - destruct Hq as [(-> & _)|(-> & Hs & _ & _ & Hkl & _)]; [by left|right]. rewrite Hjq. done.
Qed.

Definition live (q : proc) : Prop := p_state q <> UNUSED /\ p_state q <> ZOMBIE.

(** No process has [i] as its parent. *)
Definition childless s (i : Z) : Prop := forall k, 0 <= k < NPROC -> p_parent (procs s k) <> i.

(** A change of one slot that no other process points to. *)
Lemma table_inv_leaf s s' i q : table_inv s -> childless s i -> i <> initproc s -> 0 <= i < NPROC ->
  nextpid s' = nextpid s -> initproc s' = initproc s -> procs s' = fupd (procs s) i q ->
  (p_state q = UNUSED -> p_pid q = 0 /\ p_parent q = NOPROC) ->
  (p_state q <> UNUSED -> p_pid q = p_pid (procs s i) /\ p_state (procs s i) <> UNUSED) ->
  (p_parent q = p_parent (procs s i) \/ p_parent q = NOPROC) -> table_inv s'.
Proof.
  intros Hi Hc Hni Hir En Ei Ep Hu Hl Hp.
  assert (forall k, k <> i -> procs s' k = procs s k) as Hk by (intros k Hne; rewrite Ep; by apply fupd_ne).
  assert (procs s' i = q) as Hq by (rewrite Ep; apply fupd_eq). split.
  - intros k Hkr Hku. destruct (decide (k = i)) as [->|Hne]; [rewrite Hq in *; auto|].
    rewrite Hk in * by done. by apply (ti_unused _ Hi).
  - intros k Hkr Hku. rewrite En. destruct (decide (k = i)) as [->|Hne].
    + rewrite Hq in *. destruct (Hl Hku) as [-> Hiu]. by apply (ti_pid _ Hi).
    + rewrite Hk in * by done. by apply (ti_pid _ Hi).
  - intros k m Hkr Hmr Hku Hmu E.
    destruct (decide (k = i)) as [->|Hk1], (decide (m = i)) as [->|Hm1]; try done.
    + rewrite Hq in *. rewrite Hk in * by done. destruct (Hl Hku) as [E2 Hiu].
      apply (ti_inj _ Hi); try done. congruence.
    + rewrite Hq in *. rewrite Hk in * by done. destruct (Hl Hmu) as [E2 Hiu].
      apply (ti_inj _ Hi); try done. congruence.
    + rewrite !Hk in * by done. by apply (ti_inj _ Hi).
  - intros k Hkr Hkp.
    assert (p_parent (procs s' k) = p_parent (procs s k)) as Epk.
    { destruct (decide (k = i)) as [->|Hne]; [|by rewrite Hk]. rewrite Hq in *. destruct Hp; congruence. }
    rewrite Epk in *. destruct (ti_parent _ Hi k Hkr Hkp) as (A1 & A2 & A3).
    rewrite Hk by (by apply Hc). done.
  - destruct (ti_init _ Hi) as (A1 & A2 & A3). rewrite Ei, Hk by done. done.
  - rewrite En. apply Hi.
Qed.

Lemma freeproc_inv s i s' : table_inv s -> childless s i -> i <> initproc s -> 0 <= i < NPROC ->
  freeproc i s = Ret tt s' -> table_inv s'.
Proof.
  intros Hi Hc Hni Hir E. apply freeproc_table in E as (En & Ei & _ & Ep).
  eapply (table_inv_leaf s s' i); try done. by right.
Qed.

(** Zombies have no children: the invariant keeps parents alive. *)
Lemma dead_childless s i : table_inv s -> 0 <= i < NPROC -> ~ live (procs s i) -> childless s i.
Proof.
  intros Hi Hr Hz k Hk E. apply Hz.
  destruct (ti_parent _ Hi k Hk) as (_ & A2 & A3); [unfold NOPROC; lia|]. by rewrite E in A2, A3.
Qed.

Lemma set_parent_inv s i p : table_inv s -> 0 <= p < NPROC -> live (procs s p) ->
  p_state (procs s i) <> UNUSED -> table_inv (on_proc i (set_parent p) s).
Proof.
  intros Hi Hp Hl Hui. assert (forall k, p_state (procs (on_proc i (set_parent p) s) k) = p_state (procs s k) /\
    p_pid (procs (on_proc i (set_parent p) s) k) = p_pid (procs s k)) as Hk.
  { intros k. cbn. destruct (decide (k = i)) as [->|Hne]; [by rewrite fupd_eq|by rewrite fupd_ne]. }
  split.
  - intros k Hkr. destruct (Hk k) as [-> ->]. intros Hku.
    cbn. rewrite fupd_ne by (intros ->; done). by apply (ti_unused _ Hi).
  - intros k Hkr. destruct (Hk k) as [-> ->]. by apply (ti_pid _ Hi).
  - intros k m Hkr Hmr. destruct (Hk k) as [-> ->], (Hk m) as [-> ->]. by apply (ti_inj _ Hi).
  - intros k Hkr Hkp. destruct (Hk (p_parent (procs (on_proc i (set_parent p) s) k))) as [-> _].
    cbn in *. destruct (decide (k = i)) as [->|Hne].
    + rewrite fupd_eq in *. cbn. done.
    + rewrite fupd_ne in * by done. by apply (ti_parent _ Hi).
  - cbn [on_proc set_procs initproc]. destruct (Hk (initproc s)) as [E _].
    destruct (ti_init _ Hi) as (A1 & A2 & A3). split; [done|]. cbn in E. cbn. by rewrite E.
  - apply Hi.
Qed.

Lemma set_state_core s i st : live (procs s i) -> st <> UNUSED -> st <> ZOMBIE -> core s (on_proc i (set_state st) s).
Proof. intros [H1 H2] H3 H4. apply core_on_proc. repeat split; cbn; intros; done. Qed.

Lemma dup_files_core p np s s' : dup_files p np s = Ret tt s' -> core s s'.
Proof.
  apply for_loop_rel; [apply core_refl|apply core_trans|].
  intros i s1 s2 E. apply bind_Ret in E as (pr & s0 & E0 & E). injection E0 as <- <-.
  cbv zeta in E. destruct (negb (p_ofile (procs s1 p) i =? NULLF)); cbn [when] in E;
    [|by injection E as <-].
  apply bind_Ret in E as ([] & s3 & E3 & E). apply core_file in E3. injection E as <-.
  eapply core_trans; [exact E3|]. by apply core_on_proc.
Qed.

Lemma kfork_inv s p r s' : table_inv s -> nextpid s < 2 ^ 31 - 1 -> 0 <= p < NPROC -> live (procs s p) ->
  kfork forkret trampoline p s = Ret r s' -> table_inv s'.
Proof.
  intros Hi Hn Hp Hl E. unfold kfork in E. apply bind_Ret in E as (np & s1 & E1 & E).
  destruct (allocproc_inv s np s1 Hi Hn E1) as (Hi1 & [->|(Hnp & Hpar & Hst & Hun & _ & Hk)]).
  { rewrite Z.eqb_refl in E. injection E as <- <-. done. }
  rewrite (proj2 (Z.eqb_neq np NOPROC)) in E by (unfold NOPROC; lia).
  assert (p <> np) as Hne by (intros ->; by destruct Hl).
  apply bind_Ret in E as (pr & s0 & E0 & E). injection E0 as <- <-.
  apply bind_Ret in E as (npr & s0 & E0 & E). injection E0 as <- <-.
  apply bind_Ret in E as (c & s2 & E2 & E). apply core_memory in E2 as C2.
  assert (childless s1 np) as Hch.
  { intros k Hkr E'. destruct (decide (k = np)) as [->|Hkn]; [unfold NOPROC in *; lia|].
    rewrite Hk in E' by done. destruct (ti_parent _ Hi k Hkr) as (_ & A2 & _); [unfold NOPROC; lia|].
    by rewrite E' in A2. }
  assert (np <> initproc s1) as Hni.
  { apply allocproc_table in E1 as (-> & _). intros E'. destruct (ti_init _ Hi) as (_ & A2 & _).
    by rewrite <- E' in A2. }
  assert (table_inv s2) as Hi2 by (by eapply core_inv).
  pose proof C2 as C12. destruct C2 as (_ & C2i & C2c). destruct (c <? 0).
  { apply bind_Ret in E as ([] & s3 & E3 & E). injection E as <- <-.
    eapply freeproc_inv; [exact Hi2| | |exact Hnp|exact E3].
    - intros k Hkr. destruct (C2c k) as (_ & -> & _). by apply Hch.
    - by rewrite C2i. }
  apply bind_Ret in E as ([] & s3 & E3 & E). injection E3 as <-.
  assert (core s1 (on_proc np (set_sz (p_sz (procs s1 p))) s2)) as C3
    by (eapply core_trans; [exact C12|by apply core_on_proc]).
  apply bind_Ret in E as ([] & s4 & E4 & E). apply core_memory in E4.
  apply bind_Ret in E as ([] & s5 & E5 & E). apply core_memory in E5.
  apply bind_Ret in E as ([] & s6 & E6 & E). apply dup_files_core in E6.
  apply bind_Ret in E as (cwd & s7 & E7 & E). apply core_file in E7.
  assert (core s1 s7) as C7 by (eauto using core_trans). clear C3 E4 E5 E6 E7.
  apply bind_Ret in E as ([] & s8 & E8 & E). injection E8 as <-.
  apply bind_Ret in E as ([] & s9 & E9 & E). injection E9 as <-.
  set (s9 := on_proc np (set_name _) _) in E.
  assert (core s7 s9) as C9 by (unfold s9; eapply core_trans; [|apply core_on_proc; done]; by apply core_on_proc).
  clearbody s9. assert (core s1 s9) as C by (by eapply core_trans).
  assert (table_inv s9) as Hi9 by (by eapply core_inv).
  destruct C as (_ & _ & Cc).
  assert (live (procs s9 p) /\ live (procs s9 np)) as [Lp Lnp].
  { unfold live in *. destruct (Cc p) as (_ & _ & -> & ->), (Cc np) as (_ & _ & -> & ->).
    rewrite (Hk p), Hst by done. done. }
  injection E as _ <-. eapply core_inv; [|apply (set_parent_inv s9 np p Hi9 Hp Lp (proj1 Lnp))].
  apply set_state_core; [|done|done]. cbn. rewrite fupd_eq. exact Lnp.
Qed.

(** Invariants of counted loops up to [hi]. *)
Lemma for_loop_upto (I : Z -> pstate F -> Prop) (body : Z -> M (pstate F) unit) (hi : Z) :
  (forall i s s', i < hi -> I i s -> body i s = Ret tt s' -> I (i + 1) s') ->
  forall n i s s', i + Z.of_nat n <= hi -> I i s -> for_loop n i body s = Ret tt s' -> I (i + Z.of_nat n) s'.
Proof.
  intros Hb n. induction n as [|n IH]; intros i s s' Hn Hi E; cbn in E.
  - injection E as <-. by rewrite Z.add_0_r.
  - apply bind_Ret in E as ([] & s1 & E1 & E2).
    replace (i + Z.of_nat (S n)) with (i + 1 + Z.of_nat n) by lia. eapply IH; [lia| |exact E2].
    eapply Hb; [lia|exact Hi|exact E1].
Qed.

Lemma core_live s s' i : core s s' -> live (procs s i) -> live (procs s' i).
Proof. intros (_ & _ & Hc). unfold live. destruct (Hc i) as (_ & _ & -> & ->). done. Qed.

(** The children of [p] go to init, one slot after the other. *)
Definition reparented (p : Z) s (j : Z) s1 : Prop :=
  0 <= j /\ table_inv s1 /\ initproc s1 = initproc s /\ nextpid s1 = nextpid s /\
  (live (procs s p) -> live (procs s1 p)) /\ forall k, 0 <= k < j -> p_parent (procs s1 k) <> p.

Lemma reparented_step p s j s1 s2 : 0 <= p < NPROC -> p <> initproc s -> j < NPROC -> reparented p s j s1 ->
  (q <- proc_of j ;;
   when (p_parent q =? p)
     (init <- gets initproc ;; upd j (set_parent init) ;;; wakeup p (chan_of init))) s1 = Ret tt s2 ->
  reparented p s (j + 1) s2.
Proof.
  intros Hp Hpi Hj (Hj0 & H1 & H2 & H3 & H4 & H5) E1. apply bind_Ret in E1 as (q & s0 & E0 & E1).
  injection E0 as <- <-. destruct (Z.eqb_spec (p_parent (procs s1 j)) p) as [Ej|Ej]; cbn [when] in E1.
  - apply bind_Ret in E1 as (init & s0 & E0 & E1). injection E0 as <- <-.
    apply bind_Ret in E1 as ([] & s3 & E3 & E1). injection E3 as <-. apply wakeup_core in E1 as C.
    destruct (ti_init _ H1) as (A1 & A2 & A3).
    assert (p_state (procs s1 j) <> UNUSED) as Hju.
    { intros Hu. destruct (ti_unused _ H1 j ltac:(lia) Hu) as [_ E']. unfold NOPROC in E'. lia. }
    assert (table_inv (on_proc j (set_parent (initproc s1)) s1)) as Hi3
      by (apply set_parent_inv; [done|done|by split|done]).
    split; [lia|]. split; [by eapply core_inv|]. pose proof C as (Cn & Ci & Cc).
    split; [rewrite Ci; done|]. split; [rewrite Cn; done|]. split.
    + intros Hl. eapply core_live; [exact C|]. specialize (H4 Hl). cbn.
      destruct (decide (p = j)) as [<-|Hne]; [by rewrite fupd_eq|by rewrite fupd_ne].
    + intros k Hk. destruct (Cc k) as (_ & -> & _). cbn. destruct (decide (k = j)) as [->|Hne].
      * rewrite fupd_eq. cbn. by rewrite H2.
      * rewrite fupd_ne by done. apply H5. lia.
  - injection E1 as <-. split; [lia|]. repeat (split; [done|]). intros k Hk.
    destruct (decide (k = j)) as [->|Hne]; [done|]. apply H5. lia.
Qed.

Lemma reparent_inv p s s' : table_inv s -> 0 <= p < NPROC -> p <> initproc s -> reparent p s = Ret tt s' ->
  reparented p s NPROC s'.
Proof.
  intros Hi Hp Hpi E. change NPROC with (0 + Z.of_nat (Z.to_nat NPROC)).
  eapply (for_loop_upto (reparented p s) _ NPROC); [|reflexivity| |exact E].
  - intros j s1 s2 Hj HI E1. by eapply reparented_step.
  - split; [lia|]. split; [done|]. split; [done|]. split; [done|]. split; [done|]. intros; lia.
Qed.

Lemma close_files_core p s s' : close_files p s = Ret tt s' -> core s s'.
Proof.
  apply for_loop_rel; [apply core_refl|apply core_trans|].
  intros i s1 s2 E. apply bind_Ret in E as (pr & s0 & E0 & E). injection E0 as <- <-.
  cbv zeta in E. destruct (negb (p_ofile (procs s1 p) i =? NULLF)); cbn [when] in E;
    [|by injection E as <-].
  apply bind_Ret in E as ([] & s3 & E3 & E). apply core_file in E3. injection E as <-.
  eapply core_trans; [exact E3|]. by apply core_on_proc.
Qed.

Lemma kexit_inv s p status s' : table_inv s -> 0 <= p < NPROC -> live (procs s p) ->
  kexit p status s = Ret tt s' -> table_inv s' /\ p_state (procs s' p) = ZOMBIE /\ childless s' p.
Proof.
  intros Hi Hp Hl E. unfold kexit in E. apply bind_Ret in E as (init & s0 & E0 & E). injection E0 as <- <-.
  destruct (Z.eqb_spec p (initproc s)) as [|Hpi]; [done|].
  apply bind_Ret in E as ([] & s1 & E1 & E). apply close_files_core in E1 as C1.
  apply bind_Ret in E as (pr & s0 & E0 & E). injection E0 as <- <-.
  apply bind_Ret in E as ([] & s2 & E2 & E). apply core_file in E2 as C2.
  apply bind_Ret in E as ([] & s3 & E3 & E). injection E3 as <-.
  assert (core s (on_proc p (set_cwd NULLF) s2)) as C3
    by (eapply core_trans; [exact C1|]; eapply core_trans; [exact C2|]; by apply core_on_proc).
  set (s3 := on_proc p (set_cwd NULLF) s2) in *. clearbody s3. pose proof C3 as (_ & Ci & _).
  apply bind_Ret in E as ([] & s4 & E4 & E).
  destruct (reparent_inv p s3 s4 (core_inv _ _ C3 Hi) Hp ltac:(congruence) E4) as (_ & H1 & H2 & H3 & H4 & H5).
  specialize (H4 (core_live _ _ _ C3 Hl)).
  apply bind_Ret in E as (pr & s0 & E0 & E). injection E0 as <- <-.
  apply bind_Ret in E as ([] & s5 & E5 & E). apply wakeup_core in E5 as C5.
  apply bind_Ret in E as ([] & s6 & E6 & E). injection E6 as <-.
  set (s6 := on_proc p (set_xstate status) s5) in *.
  assert (core s4 s6) as C6 by (eapply core_trans; [exact C5|]; by apply core_on_proc). clearbody s6.
  apply bind_Ret in E as ([] & s7 & E7 & E). injection E7 as <-.
  unfold sched in E. apply bind_Ret in E as (pr & s0 & E0 & E). injection E0 as <- <-.
  cbn in E. rewrite fupd_eq in E. cbn in E. injection E as <-.
  pose proof (core_inv _ _ C6 H1) as Hi6. pose proof (core_live _ _ _ C6 H4) as Hl6.
  assert (childless s6 p) as Hch.
  { intros k Hk. destruct C6 as (_ & _ & Cc). destruct (Cc k) as (_ & -> & _). by apply H5. }
  assert (p <> initproc s6) as Hni by (destruct C6 as (_ & -> & _); congruence).
  split.
  - eapply (table_inv_leaf s6 _ p); try done; [|by left]. intros _. split; [done|]. apply Hl6.
  - split; [cbn; by rewrite fupd_eq|]. intros k Hk. cbn.
    destruct (decide (k = p)) as [->|Hne]; [rewrite fupd_eq; by apply Hch|rewrite fupd_ne by done; by apply Hch].
Qed.

Lemma find_zombie_spec n : forall i ps p z b, 0 <= i -> find_zombie n i ps p = (z, b) ->
  z = NOPROC \/ (i <= z < i + Z.of_nat n /\ p_state (ps z) = ZOMBIE /\ p_parent (ps z) = p).
Proof.
  induction n as [|n IH]; intros i ps p z b Hi E; cbn in E; [injection E as <- <-; by left|].
  destruct (Z.eqb_spec (p_parent (ps i)) p) as [Ep|Ep].
  - destruct (is_state (p_state (ps i)) ZOMBIE) eqn:Es.
    + injection E as <- <-. right. apply bool_decide_eq_true in Es. split; [lia|done].
    + destruct (find_zombie n (i + 1) ps p) as [z' b'] eqn:Ez. injection E as <- <-.
      destruct (IH (i + 1) ps p z' b' ltac:(lia) Ez) as [?|(? & ?)]; [by left|right; split; [lia|done]].
  - destruct (IH (i + 1) ps p z b ltac:(lia) E) as [?|(? & ?)]; [by left|right; split; [lia|done]].
Qed.

Lemma kwait_inv s p addr r s' : table_inv s -> kwait p addr s = Ret r s' -> table_inv s'.
Proof.
  intros Hi. unfold kwait. pose proof (eq_refl (0 + Z.of_nat (Z.to_nat NPROC)) : _ = NPROC) as Hsz.
  revert Hsz. generalize (Z.to_nat NPROC). intros n Hsz E.
  apply bind_Ret in E as (ps & s0 & E0 & E). injection E0 as <- <-.
  destruct (find_zombie n 0 (procs s) p) as [z havekids] eqn:Ez.
  destruct (Z.eqb_spec z NOPROC) as [->|Hz]; cbn [negb] in E.
  - apply bind_Ret in E as (k & s0 & E0 & E). injection E0 as <- <-.
    destruct (_ || _) in E; [by injection E as <- <-|].
    unfold psleep, sched in E. cbn in E. unfold bind, upd, modify, proc_of, gets, sleep_on in E. cbn in E.
    rewrite fupd_eq in E. done.
  - destruct (find_zombie_spec _ _ _ _ _ _ (Z.le_refl 0) Ez) as [?|(Hzr & Hzs & _)]; [done|].
    rewrite Hsz in Hzr. apply bind_Ret in E as (pp & s0 & E0 & E). injection E0 as <- <-.
    apply bind_Ret in E as (pr & s0 & E0 & E). injection E0 as <- <-. cbv zeta in E.
    apply bind_Ret in E as (c & s1 & E1 & E).
    assert (core s s1) as C1.
    { destruct (negb (addr =? 0)); [by apply core_memory in E1|by injection E1 as <- <-]. }
    pose proof (core_inv _ _ C1 Hi) as Hi1. destruct (c <? 0); [by injection E as <- <-|].
    apply bind_Ret in E as ([] & s2 & E2 & E). injection E as <- <-.
    destruct C1 as (_ & Ci & Cc). assert (p_state (procs s1 z) = ZOMBIE) as Hz1 by (by apply (Cc z)).
    eapply freeproc_inv; [exact Hi1| | |exact Hzr|exact E2].
    + apply dead_childless; [done|done|]. intros [_ Hn]. done.
    + intros E'. destruct (ti_init _ Hi1) as (_ & _ & A3). by rewrite <- E' in A3.
Qed.

Lemma find_pid_spec n : forall i ps pid, 0 <= i -> let z := find_pid n i ps pid in
  (z = NOPROC /\ forall k, i <= k < i + Z.of_nat n -> p_pid (ps k) <> pid) \/
  (i <= z < i + Z.of_nat n /\ p_pid (ps z) = pid).
Proof.
  induction n as [|n IH]; intros i ps pid Hi; cbn; [left; split; [done|lia]|].
  destruct (Z.eqb_spec (p_pid (ps i)) pid) as [E|E].
  - right. split; [lia|done].
  - destruct (IH (i + 1) ps pid ltac:(lia)) as [[-> Hn]|[Hr Hp]]; [left|right; split; [lia|done]].
    split; [done|]. intros k Hk. destruct (decide (k = i)) as [->|]; [done|]. apply Hn. lia.
Qed.

Lemma kkill_core pid s r s' : kkill pid s = Ret r s' -> core s s'.
Proof.
  intros E. unfold kkill in E. apply bind_Ret in E as (ps & s0 & E0 & E). injection E0 as <- <-.
  cbv zeta in E. set (i := find_pid _ _ _ _) in *. clearbody i. destruct (i =? NOPROC); [by injection E as <- <-|].
  injection E as <- <-. eapply core_trans; apply core_on_proc; [done|].
  cbn. rewrite fupd_eq. unfold is_state. cbn. case_bool_decide as Hs; [|done].
  repeat split; cbn; rewrite Hs; done.
Qed.

(** ** Every interleaving *)

(** One atomic step of some process, of the scheduler, or of an interrupt. *)
Inductive pstep : pstate F -> pstate F -> Prop :=
| step_fork p s r s' : 0 <= p < NPROC -> p_state (procs s p) = RUNNING -> nextpid s < 2 ^ 31 - 1 ->
    kfork forkret trampoline p s = Ret r s' -> pstep s s'
| step_exit p status s s' : 0 <= p < NPROC -> p_state (procs s p) = RUNNING -> kexit p status s = Ret tt s' -> pstep s s'
| step_wait p addr s r s' : 0 <= p < NPROC -> p_state (procs s p) = RUNNING -> kwait p addr s = Ret r s' -> pstep s s'
| step_sleep p chan s s' : 0 <= p < NPROC -> p_state (procs s p) = RUNNING ->
    @psleep F unit p chan s = Sleep chan s' -> pstep s s'
| step_resume p s s' : 0 <= p < NPROC -> p_state (procs s p) = RUNNING -> sleep_resume p s = Ret tt s' -> pstep s s'
| step_yield p s s' : 0 <= p < NPROC -> p_state (procs s p) = RUNNING -> yield p s = Ret tt s' -> pstep s s'
| step_schedule i s r s' : 0 <= i < NPROC -> schedule i s = Ret r s' -> pstep s s'
| step_wakeup p chan s s' : wakeup p chan s = Ret tt s' -> pstep s s'
| step_kill pid s r s' : kkill pid s = Ret r s' -> pstep s s'
| step_grow p n s r s' : 0 <= p < NPROC -> growproc p n s = Ret r s' -> pstep s s'.

Lemma growproc_core p n s r s' : growproc p n s = Ret r s' -> core s s'.
Proof.
  unfold growproc. intros E. apply bind_Ret in E as (pr & s0 & E0 & E). injection E0 as <- <-. cbv zeta in E.
  destruct (0 <? n).
  - destruct (TRAPFRAME <? _); [by injection E as <- <-|].
    apply bind_Ret in E as (sz & s1 & E1 & E). apply core_memory in E1.
    destruct (sz =? 0); [by injection E as <- <-|]. injection E as <- <-.
    eapply core_trans; [exact E1|]. by apply core_on_proc.
  - destruct (n <? 0); [|injection E as <- <-; by apply core_on_proc].
    apply bind_Ret in E as (sz & s1 & E1 & E). apply core_memory in E1. injection E as <- <-.
    eapply core_trans; [exact E1|]. by apply core_on_proc.
Qed.

Lemma pstep_inv s s' : table_inv s -> pstep s s' -> table_inv s'.
Proof.
  intros Hi Hs. assert (forall q, p_state q = RUNNING -> live q) as HR by (intros q E; split; congruence).
  destruct Hs as [p s r s' Hp Hst Hn E|p status s s' Hp Hst E|p addr s r s' Hp Hst E|p chan s s' Hp Hst E
    |p s s' Hp Hst E|p s s' Hp Hst E|i s r s' Hp E|p chan s s' E|pid s r s' E|p n s r s' Hp E].
  - eapply kfork_inv; eauto.
  - eapply kexit_inv; eauto.
  - by eapply kwait_inv.
  - unfold psleep, sched in E. cbn in E. unfold bind, upd, modify, proc_of, gets, sleep_on in E. cbn in E.
    rewrite fupd_eq in E. cbn in E. injection E as <-.
    eapply core_inv; [|exact Hi]. eapply core_trans; [by apply (core_on_proc p (set_chan chan))|].
    apply set_state_core; [|done|done]. cbn. rewrite fupd_eq. by apply HR.
  - injection E as <-. eapply core_inv; [|exact Hi]. by apply core_on_proc.
  - unfold yield, sched in E. cbn in E. unfold bind, upd, modify, proc_of, gets in E. cbn in E.
    rewrite fupd_eq in E. cbn in E. injection E as <-.
    eapply core_inv; [|exact Hi]. apply set_state_core; [by apply HR|done|done].
  - unfold schedule in E. apply bind_Ret in E as (q & s0 & E0 & E). injection E0 as <- <-.
    destruct (is_state (p_state (procs s i)) RUNNABLE) eqn:Er; [|by injection E as <- <-].
    apply bool_decide_eq_true in Er. injection E as <- <-. eapply core_inv; [|exact Hi].
    apply set_state_core; [split; congruence|done|done].
  - eapply core_inv; [by eapply wakeup_core|done].
  - eapply core_inv; [by eapply kkill_core|done].
  - eapply core_inv; [by eapply growproc_core|done].
Qed.

(** C6. The process table stays well formed over every interleaving of fork,
    exit, wait, sleep, wakeup, yield, kill, growth and scheduling: the pids of
    processes in use are positive, below nextpid and pairwise different;
    unused slots have pid 0 and no parent; every parent pointer leads to a
    process that is in use and not a zombie, so that wait never frees a
    process someone still calls its parent; and init is alive. *)
Theorem process_table_invariant s s' : table_inv s -> rtc pstep s s' -> table_inv s'.
Proof. intros Hi Hr. induction Hr; eauto using pstep_inv. Qed.
End table.
