(* ===== verification/ProcFiles.v ===== *)
(** * Open-file references: fork, exit and wait keep the counts exact *)
From stdpp Require Import base list numbers strings relations.
From Stdlib Require Import ZArith Lia FunctionalExtensionality.
From S2P Require Import Ulib Dto Prelude Memlayout Kalloc Vm Proc ProcTable.

(** ** Sums over the slots of a table *)

Fixpoint sumz (n : nat) (g : Z -> Z) : Z :=
  match n with O => 0 | S n' => sumz n' g + g (Z.of_nat n') end.

Lemma sumz_ext n g h : (forall i, 0 <= i < Z.of_nat n -> g i = h i) -> sumz n g = sumz n h.
Proof.
  induction n as [|n IH]; intros E; cbn; [done|]. rewrite IH by (intros; apply E; lia). rewrite E; [done|lia].
Qed.

Lemma sumz_change n g h i : 0 <= i < Z.of_nat n -> (forall k, k <> i -> h k = g k) ->
  sumz n h = sumz n g - g i + h i.
Proof.
  induction n as [|n IH]; intros Hi Hk; [lia|]. cbn. destruct (decide (i = Z.of_nat n)) as [->|Hne].
  - rewrite (sumz_ext n h g) by (intros; apply Hk; lia). lia.
  - rewrite IH by (done || lia). rewrite (Hk (Z.of_nat n)) by done. lia.
Qed.

Lemma sumz_bound n g b : (forall i, 0 <= i < Z.of_nat n -> 0 <= g i <= b) -> 0 <= sumz n g <= Z.of_nat n * b.
Proof.
  induction n as [|n IH]; intros Hg; cbn [sumz]; [lia|].
  specialize (IH ltac:(intros; apply Hg; lia)). specialize (Hg (Z.of_nat n) ltac:(lia)). lia.
Qed.

Lemma sumz_ge n g i : 0 <= i < Z.of_nat n -> (forall k, 0 <= g k) -> g i <= sumz n g.
Proof.
  induction n as [|n IH]; intros Hi Hg; [lia|]. cbn. destruct (decide (i = Z.of_nat n)) as [->|Hne].
  - assert (0 <= sumz n g); [|lia]. clear - Hg. induction n as [|n IH]; cbn; [lia|]. specialize (Hg (Z.of_nat n)). lia.
  - specialize (IH ltac:(lia) Hg). specialize (Hg (Z.of_nat n)). lia.
Qed.

Section refs.
Context `{KernelEnd} {F : Type} `{FL : FileLaws F}.
Context (forkret trampoline : Z).
Implicit Types s : pstate F.

(** The number of descriptors of a process, and of all processes, that refer
    to file [f]. *)
Definition opens_in (q : proc) (f : Z) : Z :=
  sumz (Z.to_nat NOFILE) (fun fd => if p_ofile q fd =? f then 1 else 0).
Definition opens s (f : Z) : Z := sumz (Z.to_nat NPROC) (fun i => opens_in (procs s i) f).

Definition dead (q : proc) : Prop := p_state q = UNUSED \/ p_state q = ZOMBIE.

Record refs_inv s : Prop := {
  ri_count f : f <> NULLF -> frefs (files s) f = opens s f;
  ri_dead i fd : 0 <= i < NPROC -> dead (procs s i) -> 0 <= fd < NOFILE -> p_ofile (procs s i) fd = NULLF;
}.

Lemma opens_in_bound q f : 0 <= opens_in q f <= NOFILE.
Proof.
  pose proof (sumz_bound (Z.to_nat NOFILE) (fun fd => if p_ofile q fd =? f then 1 else 0) 1) as Hb.
  change (Z.of_nat (Z.to_nat NOFILE) * 1) with NOFILE in Hb. apply Hb. intros i _. destruct (_ =? _); lia.
Qed.

Lemma opens_bound s f : 0 <= opens s f < 2 ^ 31 - 1.
Proof.
  pose proof (sumz_bound (Z.to_nat NPROC) (fun i => opens_in (procs s i) f) NOFILE) as Hb.
  change (Z.of_nat (Z.to_nat NPROC) * NOFILE) with 1024 in Hb. unfold opens.
  enough (0 <= sumz (Z.to_nat NPROC) (fun i => opens_in (procs s i) f) <= 1024) by lia.
  apply Hb. intros i _. apply opens_in_bound.
Qed.

Lemma opens_in_pos q fd : 0 <= fd < NOFILE -> 1 <= opens_in q (p_ofile q fd).
Proof.
  intros Hfd. unfold opens_in.
  transitivity (if p_ofile q fd =? p_ofile q fd then 1 else 0); [by rewrite Z.eqb_refl|].
  apply (sumz_ge (Z.to_nat NOFILE) (fun k => if p_ofile q k =? p_ofile q fd then 1 else 0) fd); [exact Hfd|].
  intros; destruct (_ =? _); lia.
Qed.

Lemma opens_pos s i fd : 0 <= i < NPROC -> 0 <= fd < NOFILE -> 1 <= opens s (p_ofile (procs s i) fd).
Proof.
  intros Hi Hfd. etransitivity; [by apply (opens_in_pos (procs s i) fd)|]. unfold opens.
  apply (sumz_ge (Z.to_nat NPROC) (fun k => opens_in (procs s k) _) i); [exact Hi|]. intros; apply opens_in_bound.
Qed.

(** Assigning one descriptor of one process. *)
Lemma opens_in_assign q fd v f : 0 <= fd < NOFILE ->
  opens_in (set_ofile (fupd (p_ofile q) fd v) q) f =
  opens_in q f - (if p_ofile q fd =? f then 1 else 0) + (if v =? f then 1 else 0).
Proof.
  intros Hfd. unfold opens_in. cbn [p_ofile set_ofile].
  rewrite (sumz_change (Z.to_nat NOFILE) (fun k => if p_ofile q k =? f then 1 else 0) _ fd Hfd)
    by (intros k Hk; by rewrite fupd_ne).
  by rewrite fupd_eq.
Qed.

Lemma opens_assign i fd v s f : 0 <= i < NPROC -> 0 <= fd < NOFILE ->
  opens (on_proc i (fun q => set_ofile (fupd (p_ofile q) fd v) q) s) f =
  opens s f - (if p_ofile (procs s i) fd =? f then 1 else 0) + (if v =? f then 1 else 0).
Proof.
  intros Hi Hfd. unfold opens. cbn [procs on_proc set_procs].
  rewrite (sumz_change (Z.to_nat NPROC) (fun k => opens_in (procs s k) f) _ i Hi) by (intros k Hk; by rewrite fupd_ne).
  rewrite fupd_eq, opens_in_assign by done. lia.
Qed.

Lemma opens_ext s s' f : (forall i, p_ofile (procs s' i) = p_ofile (procs s i)) -> opens s' f = opens s f.
Proof. intros E. unfold opens, opens_in. apply sumz_ext. intros i _. by rewrite E. Qed.

Lemma opens_files x s f : opens (set_files x s) f = opens s f.
Proof. by apply opens_ext. Qed.

(** Steps that touch neither descriptors nor counts. *)
Definition quiet s s' : Prop :=
  frefs (files s') = frefs (files s) /\
  forall i, p_ofile (procs s' i) = p_ofile (procs s i) /\ (dead (procs s' i) -> dead (procs s i)).

Lemma quiet_refl s : quiet s s.
Proof. done. Qed.

Lemma quiet_trans s1 s2 s3 : quiet s1 s2 -> quiet s2 s3 -> quiet s1 s3.
Proof.
  intros [A1 A2] [B1 B2]. split; [congruence|]. intros i. destruct (A2 i), (B2 i). split; [congruence|auto].
Qed.

Lemma quiet_inv s s' : quiet s s' -> refs_inv s -> refs_inv s'.
Proof.
  intros [Q1 Q2] [R1 R2]. split.
  - intros f Hf. rewrite Q1, R1 by done. symmetry. apply opens_ext. intros i. apply Q2.
  - intros i fd Hi Hd Hfd. destruct (Q2 i) as [-> Hdd]. auto.
Qed.

Lemma quiet_on_proc i g s : p_ofile (g (procs s i)) = p_ofile (procs s i) ->
  (dead (g (procs s i)) -> dead (procs s i)) -> quiet s (on_proc i g s).
Proof.
  intros E1 E2. split; [done|]. intros k. cbn. destruct (decide (k = i)) as [->|Hne].
  - by rewrite fupd_eq.
  - by rewrite fupd_ne.
Qed.

Lemma quiet_memory {A} (m : M kmem A) s a s' : memory_op m s = Ret a s' -> quiet s s'.
Proof. intros E. by apply memory_op_table in E as [k ->]. Qed.

Lemma quiet_wakeup p chan s s' : wakeup p chan s = Ret tt s' -> quiet s s'.
Proof.
  apply for_loop_rel; [apply quiet_refl|apply quiet_trans|].
  intros i s1 s2 E. unfold when in E. destruct (negb _); [|by injection E as <-].
  injection E as <-. unfold wake. apply quiet_on_proc; destruct (_ && _); try done. intros [|]; done.
Qed.

Lemma quiet_reparent p s s' : reparent p s = Ret tt s' -> quiet s s'.
Proof.
  apply for_loop_rel; [apply quiet_refl|apply quiet_trans|].
  intros i s1 s2 E. apply bind_Ret in E as (q & s0 & E0 & E). injection E0 as <- <-.
  destruct (p_parent (procs s1 i) =? p); cbn [when] in E; [|by injection E as <-].
  apply bind_Ret in E as (init & s0 & E0 & E). injection E0 as <- <-.
  apply bind_Ret in E as ([] & s3 & E3 & E). injection E3 as <-. apply quiet_wakeup in E.
  eapply quiet_trans; [|exact E]. by apply quiet_on_proc.
Qed.

Lemma freeproc_refs i s s' : 0 <= i < NPROC -> refs_inv s ->
  (forall fd, 0 <= fd < NOFILE -> p_ofile (procs s i) fd = NULLF) -> freeproc i s = Ret tt s' -> refs_inv s'.
Proof.
  intros Hi [R1 R2] Hn E. apply freeproc_table in E as (_ & _ & Ef & Ep).
  assert (forall k, p_ofile (procs s' k) = p_ofile (procs s k)) as Ho.
  { intros k. rewrite Ep. destruct (decide (k = i)) as [->|Hne]; [by rewrite fupd_eq|by rewrite fupd_ne]. }
  split.
  - intros f Hf. rewrite Ef, R1 by done. symmetry. by apply opens_ext.
  - intros k fd Hk Hd Hfd. rewrite Ho. destruct (decide (k = i)) as [->|Hne]; [by apply Hn|].
    apply R2; try done. by rewrite Ep, fupd_ne in Hd.
Qed.

Lemma allocproc_refs s i s' : refs_inv s -> allocproc forkret trampoline s = Ret i s' ->
  refs_inv s' /\ (i = NOPROC \/ (0 <= i < NPROC /\ p_state (procs s i) = UNUSED /\ p_state (procs s' i) = USED /\
    (forall fd, 0 <= fd < NOFILE -> p_ofile (procs s' i) fd = NULLF) /\
    (forall k, k <> i -> procs s' k = procs s k))).
Proof.
  intros Hr E. apply allocproc_table in E as (_ & Ef & [[-> ->]|(j & q' & Hj & Hu & _ & Ep & Eo & Hc)]); [by split; [|left]|].
  assert (refs_inv s') as Hr'.
  { eapply quiet_inv; [|exact Hr]. split; [by rewrite Ef|]. intros k. rewrite Ep.
    destruct (decide (k = j)) as [->|Hne]; [rewrite fupd_eq|by rewrite fupd_ne].
    split; [done|]. intros _. by left. }
  split; [done|]. destruct Hc as [[-> _]|[-> (A1 & _)]]; [by left|right].
  split; [done|]. split; [done|]. split; [by rewrite Ep, fupd_eq|].
  split; [|intros k Hk; by rewrite Ep, fupd_ne].
  intros fd Hfd. rewrite Ep, fupd_eq, Eo. apply (ri_dead _ Hr); [done|by left|done].
Qed.

(** The loop of kfork: the first [j] descriptors have been duplicated. *)
Definition duplicated (p np : Z) s (j : Z) s1 : Prop :=
  0 <= j /\ refs_inv s1 /\ p_state (procs s1 np) = USED /\
  (forall fd, 0 <= fd < NOFILE -> p_ofile (procs s1 np) fd = if fd <? j then p_ofile (procs s p) fd else NULLF) /\
  (forall k, k <> np -> procs s1 k = procs s k).

Lemma dup_files_step p np s j s1 s2 : 0 <= p < NPROC -> 0 <= np < NPROC -> p <> np -> j < NOFILE ->
  duplicated p np s j s1 ->
  (pr <- proc_of p ;;
   let f := p_ofile pr j in
   when (negb (f =? NULLF))
     (file_op (f_dup f) ;;; upd np (fun q => set_ofile (fupd (p_ofile q) j f) q))) s1 = Ret tt s2 ->
  duplicated p np s (j + 1) s2.
Proof.
  intros Hp Hnp Hne Hj (Hj0 & Hr & Hst & Ho & Hk) E.
  apply bind_Ret in E as (pr & s0 & E0 & E). injection E0 as <- <-. cbv zeta in E.
  assert (procs s1 p = procs s p) as Ep by (by apply Hk). rewrite Ep in E.
  set (f := p_ofile (procs s p) j) in *.
  assert (forall v, f = v -> forall fd, 0 <= fd < NOFILE ->
    fupd (p_ofile (procs s1 np)) j v fd = if fd <? j + 1 then p_ofile (procs s p) fd else NULLF) as Hn.
  { intros v <- fd Hfd. destruct (decide (fd = j)) as [->|Hd].
    - rewrite fupd_eq, (proj2 (Z.ltb_lt j (j + 1))) by lia. done.
    - rewrite fupd_ne, Ho by done. destruct (Z.ltb_spec fd j), (Z.ltb_spec fd (j + 1)); (done || lia). }
  destruct (Z.eqb_spec f NULLF) as [Ef|Ef]; cbn [negb when] in E.
  - injection E as <-. split; [lia|]. split; [done|]. split; [done|]. split; [|done].
    intros fd Hfd. rewrite <- (Hn NULLF Ef fd Hfd). destruct (decide (fd = j)) as [->|Hd].
    + rewrite fupd_eq, Ho, Z.ltb_irrefl by done. done.
    + by rewrite fupd_ne.
  - apply bind_Ret in E as ([] & s3 & E3 & E). apply file_op_table in E3 as (x & E3 & ->). injection E as <-.
    pose proof (opens_pos s1 p j Hp ltac:(lia)) as Hpos. rewrite Ep in Hpos. fold f in Hpos.
    pose proof (opens_bound s1 f) as Hb.
    destruct (f_dup_ok f (files s1)) as (x' & E4 & Ex); [rewrite (ri_count _ Hr) by done; lia|].
    rewrite E3 in E4. injection E4 as <-.
    assert (forall k, k <> np -> procs (on_proc np (fun q => set_ofile (fupd (p_ofile q) j f) q) (set_files x s1)) k =
      procs s k) as Hk' by (intros k Hkn; cbn; by rewrite fupd_ne, Hk).
    split; [lia|]. split.
    + split.
      * intros g Hg. rewrite opens_assign by (done || lia). cbn [files on_proc set_procs set_files procs].
        rewrite Ho, Z.ltb_irrefl by lia. rewrite (proj2 (Z.eqb_neq NULLF g)) by done.
        rewrite opens_files, <- (ri_count _ Hr) by done.
        rewrite Ex. destruct (Z.eqb_spec f g) as [->|Hfg]; [rewrite fupd_eq|rewrite fupd_ne by done]; lia.
      * intros k fd Hkr Hd Hfd. destruct (decide (k = np)) as [->|Hkn].
        { cbn in Hd. rewrite fupd_eq in Hd. unfold dead in Hd. cbn in Hd. rewrite Hst in Hd. by destruct Hd. }
        rewrite Hk' in * by done. rewrite <- (Hk k) in * by done. by apply (ri_dead _ Hr).
    + split; [cbn; by rewrite fupd_eq|]. split; [|done].
      intros fd Hfd. cbn. rewrite fupd_eq. by apply Hn.
Qed.

Lemma dup_files_refs p np s s' : refs_inv s -> 0 <= p < NPROC -> 0 <= np < NPROC -> p <> np ->
  p_state (procs s np) = USED -> (forall fd, 0 <= fd < NOFILE -> p_ofile (procs s np) fd = NULLF) ->
  dup_files p np s = Ret tt s' -> duplicated p np s NOFILE s'.
Proof.
  intros Hr Hp Hnp Hne Hst Hn E. change NOFILE with (0 + Z.of_nat (Z.to_nat NOFILE)).
  eapply (for_loop_upto (duplicated p np s) _ NOFILE); [|reflexivity| |exact E].
  - intros j s1 s2 Hj HI E1. by eapply dup_files_step.
  - split; [lia|]. split; [done|]. split; [done|]. split; [|done].
    intros fd Hfd. rewrite Hn by done. by rewrite (proj2 (Z.ltb_ge fd 0)) by lia.
Qed.

(** Duplicating never fails: every open descriptor holds a reference. *)
Lemma kfork_refs s p r s' : refs_inv s -> 0 <= p < NPROC -> live (procs s p) ->
  kfork forkret trampoline p s = Ret r s' -> refs_inv s'.
Proof.
  intros Hr Hp Hl E. unfold kfork in E. apply bind_Ret in E as (np & s1 & E1 & E).
  destruct (allocproc_refs s np s1 Hr E1) as (Hr1 & [->|(Hnp & Hun & Hst & Hnull & Hk)]).
  { rewrite Z.eqb_refl in E. by injection E as <- <-. }
  rewrite (proj2 (Z.eqb_neq np NOPROC)) in E by (unfold NOPROC; lia).
  assert (p <> np) as Hne by (intros ->; by destruct Hl).
  apply bind_Ret in E as (pr & s0 & E0 & E). injection E0 as <- <-.
  apply bind_Ret in E as (npr & s0 & E0 & E). injection E0 as <- <-.
  apply bind_Ret in E as (c & s2 & E2 & E). apply quiet_memory in E2 as Q2.
  apply memory_op_table in E2 as [k2 ->].
  pose proof (quiet_inv _ _ Q2 Hr1) as Hr2. destruct (c <? 0).
  { apply bind_Ret in E as ([] & s3 & E3 & E). injection E as <- <-.
    by apply (freeproc_refs np _ _ Hnp Hr2 Hnull E3). }
  apply bind_Ret in E as ([] & s3 & E3 & E). injection E3 as <-.
  apply bind_Ret in E as ([] & s4 & E4 & E). apply memory_op_table in E4 as [k4 ->].
  apply bind_Ret in E as ([] & s5 & E5 & E). apply memory_op_table in E5 as [k5 ->].
  set (s5 := set_km k5 _) in E.
  assert (quiet s1 s5) as Q5 by (unfold s5; by apply (quiet_on_proc np (set_sz (p_sz (procs s1 p))) s1)).
  assert (procs s5 np = set_sz (p_sz (procs s1 p)) (procs s1 np)) as E5n by (unfold s5; cbn; by rewrite fupd_eq).
  clearbody s5. apply bind_Ret in E as ([] & s6 & E6 & E).
  apply dup_files_refs in E6 as (_ & Hr6 & Hst6 & Ho6 & Hk6); try done;
    [|by eapply quiet_inv|by rewrite E5n|by rewrite E5n].
  apply bind_Ret in E as (cwd & s7 & E7 & E). apply file_op_table in E7 as (x & E7 & ->).
  assert (quiet s6 (set_files x s6)) as Q7 by (split; [by eapply i_dup_refs|done]).
  injection E as _ <-. eapply quiet_inv; [|exact Hr6].
  eapply quiet_trans; [exact Q7|]. split; [done|]. intros k. cbn. rewrite !fupd_twice, !fupd_eq.
  destruct (decide (k = np)) as [->|Hkn]; [rewrite fupd_eq|by rewrite fupd_ne].
  split; [done|]. intros [|]; done.
Qed.

(** The loop of kexit: the first [j] descriptors are closed. *)
Definition closed (p : Z) s (j : Z) s1 : Prop :=
  0 <= j /\ refs_inv s1 /\ live (procs s1 p) /\
  (forall fd, 0 <= fd < j -> p_ofile (procs s1 p) fd = NULLF).

Lemma close_files_step p s j s1 s2 : 0 <= p < NPROC -> j < NOFILE -> closed p s j s1 ->
  (pr <- proc_of p ;;
   let f := p_ofile pr j in
   when (negb (f =? NULLF))
     (file_op (f_close f) ;;; upd p (fun q => set_ofile (fupd (p_ofile q) j NULLF) q))) s1 = Ret tt s2 ->
  closed p s (j + 1) s2.
Proof.
  intros Hp Hj (Hj0 & Hr & Hl & Ho) E.
  apply bind_Ret in E as (pr & s0 & E0 & E). injection E0 as <- <-. cbv zeta in E.
  set (f := p_ofile (procs s1 p) j) in *.
  destruct (Z.eqb_spec f NULLF) as [Ef|Ef]; cbn [negb when] in E.
  - injection E as <-. split; [lia|]. split; [done|]. split; [done|].
    intros fd Hfd. destruct (decide (fd = j)) as [->|Hd]; [done|]. apply Ho. lia.
  - apply bind_Ret in E as ([] & s3 & E3 & E). apply file_op_table in E3 as (x & E3 & ->). injection E as <-.
    pose proof (opens_pos s1 p j Hp ltac:(lia)) as Hpos. fold f in Hpos.
    apply f_close_ok in E3; [|rewrite (ri_count _ Hr) by done; lia].
    split; [lia|]. split; [|split].
    + split.
      * intros g Hg. rewrite opens_assign by (done || lia). cbn [files on_proc set_procs set_files procs].
        fold f. rewrite (proj2 (Z.eqb_neq NULLF g)) by done.
        rewrite opens_files, <- (ri_count _ Hr) by done.
        rewrite E3. destruct (Z.eqb_spec f g) as [->|Hfg]; [rewrite fupd_eq|rewrite fupd_ne by done]; lia.
      * intros k fd Hkr Hd Hfd. cbn in *. destruct (decide (k = p)) as [->|Hkn].
        { rewrite fupd_eq in Hd. destruct Hl. by destruct Hd. }
        rewrite fupd_ne in * by done. by apply (ri_dead _ Hr).
    + cbn. by rewrite fupd_eq.
    + intros fd Hfd. cbn. rewrite fupd_eq. cbn.
      destruct (decide (fd = j)) as [->|Hd]; [by rewrite fupd_eq|rewrite fupd_ne by done]. apply Ho. lia.
Qed.

Lemma kexit_refs s p status s' : refs_inv s -> 0 <= p < NPROC -> live (procs s p) ->
  kexit p status s = Ret tt s' -> refs_inv s'.
Proof.
  intros Hr Hp Hl E. unfold kexit in E. apply bind_Ret in E as (init & s0 & E0 & E). injection E0 as <- <-.
  destruct (p =? initproc s); [done|]. apply bind_Ret in E as ([] & s1 & E1 & E).
  assert (closed p s NOFILE s1) as (_ & Hr1 & Hl1 & Hn1).
  { change NOFILE with (0 + Z.of_nat (Z.to_nat NOFILE)).
    eapply (for_loop_upto (closed p s) _ NOFILE); [|reflexivity| |exact E1].
    - intros j t1 t2 Hj HI E'. by eapply close_files_step.
    - split; [lia|]. split; [done|]. split; [done|]. intros; lia. }
  apply bind_Ret in E as (pr & s0 & E0 & E). injection E0 as <- <-.
  apply bind_Ret in E as ([] & s2 & E2 & E). apply file_op_table in E2 as (x & E2 & ->).
  apply bind_Ret in E as ([] & s3 & E3 & E). injection E3 as <-.
  apply bind_Ret in E as ([] & s4 & E4 & E). apply quiet_reparent in E4.
  apply bind_Ret in E as (pr & s0 & E0 & E). injection E0 as <- <-.
  apply bind_Ret in E as ([] & s5 & E5 & E). apply quiet_wakeup in E5.
  assert (quiet s1 s5) as Q5.
  { eapply quiet_trans; [|eapply quiet_trans; [exact E4|exact E5]].
    eapply quiet_trans; [|by apply quiet_on_proc]. split; [by eapply i_put_refs|done]. }
  apply bind_Ret in E as ([] & s6 & E6 & E). injection E6 as <-.
  apply bind_Ret in E as ([] & s7 & E7 & E). injection E7 as <-.
  unfold sched in E. apply bind_Ret in E as (pr & s0 & E0 & E). injection E0 as <- <-.
  cbn in E. rewrite fupd_eq in E. cbn in E. injection E as <-.
  pose proof (quiet_inv _ _ Q5 Hr1) as [R1 R2]. split.
  - intros f Hf. cbn [files on_proc set_procs]. rewrite R1 by done. symmetry. apply opens_ext. intros k. cbn.
    rewrite fupd_twice, fupd_eq. destruct (decide (k = p)) as [->|Hkn]; [by rewrite fupd_eq|by rewrite fupd_ne].
  - intros k fd Hk Hd Hfd. cbn in *. rewrite fupd_twice, fupd_eq in *. destruct (decide (k = p)) as [->|Hkn].
    + rewrite fupd_eq. cbn. destruct Q5 as [_ Q5]. destruct (Q5 p) as [-> _]. by apply Hn1.
    + rewrite fupd_ne in * by done. by apply R2.
Qed.

Lemma kwait_refs s p addr r s' : refs_inv s -> kwait p addr s = Ret r s' -> refs_inv s'.
Proof.
  intros Hr. unfold kwait. pose proof (eq_refl (0 + Z.of_nat (Z.to_nat NPROC)) : _ = NPROC) as Hsz.
  revert Hsz. generalize (Z.to_nat NPROC). intros n Hsz E.
  apply bind_Ret in E as (ps & s0 & E0 & E). injection E0 as <- <-.
  destruct (find_zombie n 0 (procs s) p) as [z havekids] eqn:Ez.
  destruct (Z.eqb_spec z NOPROC) as [->|Hz]; cbn [negb] in E.
  - apply bind_Ret in E as (k & s0 & E0 & E). injection E0 as <- <-.
    destruct (_ || _) in E; [by injection E as <- <-|].
    unfold psleep, sched in E. cbn in E. unfold bind, upd, modify, proc_of, gets, sleep_on in E. cbn in E.
    rewrite fupd_eq in E. done.
  - destruct (find_zombie_spec _ _ _ _ _ _ (Z.le_refl 0) Ez) as [?|(Hzr & Hzs & _)]; [done|].
    rewrite Hsz in Hzr. apply bind_Ret in E as (pp & s0 & E0 & E). injection E0 as <- <-.
    apply bind_Ret in E as (pr & s0 & E0 & E). injection E0 as <- <-. cbv zeta in E.
    apply bind_Ret in E as (c & s1 & E1 & E).
    assert (exists k, s1 = set_km k s) as [k1 ->].
    { destruct (negb (addr =? 0)); [by apply memory_op_table in E1|].
      injection E1 as <- <-. exists (km s). by destruct s. }
    assert (refs_inv (set_km k1 s)) as Hr1 by (by apply (quiet_inv s)).
    destruct (c <? 0); [by injection E as <- <-|].
    apply bind_Ret in E as ([] & s2 & E2 & E). injection E as <- <-.
    eapply (freeproc_refs z _ _ Hzr Hr1); [|exact E2].
    intros fd Hfd. apply (ri_dead _ Hr); [done|by right|done].
Qed.

Lemma quiet_kkill pid s r s' : kkill pid s = Ret r s' -> quiet s s'.
Proof.
  intros E. unfold kkill in E. apply bind_Ret in E as (ps & s0 & E0 & E). injection E0 as <- <-.
  cbv zeta in E. set (i := find_pid _ _ _ _) in *. clearbody i. destruct (i =? NOPROC); [by injection E as <- <-|].
  injection E as <- <-. eapply quiet_trans; apply quiet_on_proc; try done;
    cbn; rewrite fupd_eq; destruct (is_state _ _); try done. intros [|]; done.
Qed.

Lemma quiet_growproc p n s r s' : growproc p n s = Ret r s' -> quiet s s'.
Proof.
  unfold growproc. intros E. apply bind_Ret in E as (pr & s0 & E0 & E). injection E0 as <- <-. cbv zeta in E.
  destruct (0 <? n).
  - destruct (TRAPFRAME <? _); [by injection E as <- <-|].
    apply bind_Ret in E as (sz & s1 & E1 & E). apply quiet_memory in E1.
    destruct (sz =? 0); [by injection E as <- <-|]. injection E as <- <-.
    eapply quiet_trans; [exact E1|]. by apply quiet_on_proc.
  - destruct (n <? 0); [|injection E as <- <-; by apply quiet_on_proc].
    apply bind_Ret in E as (sz & s1 & E1 & E). apply quiet_memory in E1. injection E as <- <-.
    eapply quiet_trans; [exact E1|]. by apply quiet_on_proc.
Qed.

Lemma pstep_refs s s' : refs_inv s -> pstep forkret trampoline s s' -> refs_inv s'.
Proof.
  intros Hi Hs. assert (forall q, p_state q = RUNNING -> live q) as HR by (intros q E; split; congruence).
  destruct Hs as [p s r s' Hp Hst Hn E|p status s s' Hp Hst E|p addr s r s' Hp Hst E|p chan s s' Hp Hst E
    |p s s' Hp Hst E|p s s' Hp Hst E|i s r s' Hp E|p chan s s' E|pid s r s' E|p n s r s' Hp E].
  - eapply kfork_refs; eauto.
  - eapply kexit_refs; eauto.
  - by eapply kwait_refs.
  - unfold psleep, sched in E. cbn in E. unfold bind, upd, modify, proc_of, gets, sleep_on in E. cbn in E.
    rewrite fupd_eq in E. cbn in E. injection E as <-.
    eapply quiet_inv; [|exact Hi]. eapply quiet_trans; apply quiet_on_proc; try done. by intros [|].
  - injection E as <-. eapply quiet_inv; [|exact Hi]. by apply quiet_on_proc.
  - unfold yield, sched in E. cbn in E. unfold bind, upd, modify, proc_of, gets in E. cbn in E.
    rewrite fupd_eq in E. cbn in E. injection E as <-.
    eapply quiet_inv; [|exact Hi]. apply quiet_on_proc; [done|]. by intros [|].
  - unfold schedule in E. apply bind_Ret in E as (q & s0 & E0 & E). injection E0 as <- <-.
    destruct (is_state (p_state (procs s i)) RUNNABLE); [|by injection E as <- <-].
    injection E as <- <-. eapply quiet_inv; [|exact Hi]. apply quiet_on_proc; [done|]. by intros [|].
  - eapply quiet_inv; [by eapply quiet_wakeup|done].
  - eapply quiet_inv; [by eapply quiet_kkill|done].
  - eapply quiet_inv; [by eapply quiet_growproc|done].
Qed.

(** C7. File references are exact over every interleaving of fork, exit, wait,
    sleep, wakeup, yield, kill, growth and scheduling: the reference count of
    every open file is the number of descriptors, over all processes, that
    hold it, and processes that are unused or zombies hold none. So fork takes
    one reference per inherited descriptor, exit gives every one back, and no
    file is closed while a descriptor refers to it. *)
Theorem file_references_exact s s' : refs_inv s -> rtc (pstep forkret trampoline) s s' -> refs_inv s'.
Proof. intros Hi Hr. induction Hr; eauto using pstep_refs. Qed.
End refs.
