(* ===== verification/File.v ===== *)
(** * kernel/file.c: the open-file table, and the file side of kernel/pipe.c

    An open file is its index in ftable; [NULLF] is the null pointer. Pipes
    are named by the address of their page. The state joins the file table,
    the file system (file Fs) and the pipes (file Pipe); wakeups of pipe
    channels are recorded. The device switch is a table of functions, an
    argument of the operations that call through it. *)
From stdpp Require Import base list numbers strings.
From Stdlib Require Import ZArith Lia FunctionalExtensionality.
From S2P Require Import Memlayout Kalloc Proc Prelude BufCache UserMem Pipe Fs.

Inductive fdtype := FD_NONE | FD_PIPE | FD_INODE | FD_DEVICE.
#[export] Instance fdtype_eq_dec : EqDecision fdtype.
Proof. solve_decision. Defined.
Definition is_type (t u : fdtype) : bool := bool_decide (t = u).

Record file := File {
  f_type : fdtype; f_ref : Z; f_readable : Z; f_writable : Z;
  f_pipe : Z; f_ip : Z; f_off : Z; f_major : Z;
}.

Definition set_ref r f : file :=
  File (f_type f) r (f_readable f) (f_writable f) (f_pipe f) (f_ip f) (f_off f) (f_major f).
Definition set_type t f : file :=
  File t (f_ref f) (f_readable f) (f_writable f) (f_pipe f) (f_ip f) (f_off f) (f_major f).
Definition set_off o f : file :=
  File (f_type f) (f_ref f) (f_readable f) (f_writable f) (f_pipe f) (f_ip f) o (f_major f).
(** type, readable, writable and pipe of one end of a pipe *)
Definition set_pipe (readable writable pipe : Z) f : file :=
  File FD_PIPE (f_ref f) readable writable pipe (f_ip f) (f_off f) (f_major f).

(** kalloc and kfree of the physical memory behind the user memory. *)
Class PageAlloc (U : Type) := {
  page_alloc : M U Z;
  page_free : Z -> M U unit;
}.

Record fsys (U : Type) := FSys {
  ftable : Z -> file; fs : fstate U; pipes : Z -> pipe; pwoken : list (Z * pchan);
}.
Arguments FSys {U}. Arguments ftable {U}. Arguments fs {U}. Arguments pipes {U}. Arguments pwoken {U}.

(** struct devsw: null pointers are [None]. *)
Record devsw (U : Type) := Devsw {
  d_read : option (Z -> Z -> Z -> M (fsys U) Z);
  d_write : option (Z -> Z -> Z -> M (fsys U) Z);
}.
Arguments d_read {U}. Arguments d_write {U}.

Section file_ops.
Context {U : Type} `{UserMem U} `{PageAlloc U}.
Abbreviation FM := (M (fsys U)).

Definition set_ftable v (s : fsys U) : fsys U := FSys v (fs s) (pipes s) (pwoken s).
Definition set_fs v (s : fsys U) : fsys U := FSys (ftable s) v (pipes s) (pwoken s).
Definition set_pipes v (s : fsys U) : fsys U := FSys (ftable s) (fs s) v (pwoken s).

Definition file_of (f : Z) : FM file := gets (fun s => ftable s f).
Definition updf (f : Z) (g : file -> file) : FM unit :=
  modify (fun s => set_ftable (fupd (ftable s) f (g (ftable s f))) s).
Definition fs_op {A} (m : M (fstate U) A) : FM A := lift fs set_fs m.
Definition usr_op {A} (m : M U A) : FM A := fs_op (lift usr set_usr m).

(** A pipe routine run on the pipe at [a] and the user memory. *)
Definition pipe_op {A} (a : Z) (g : Pipe.pstate U -> A * Pipe.pstate U) : FM A :=
  s <- get ;;
  let '(r, t) := g (PState (pipes s a) (usr (fs s)) []) in
  put (FSys (ftable s) (set_usr (us t) (fs s)) (fupd (pipes s) a (pi t))
         (pwoken s ++ map (fun c => (a, c)) (woken t))) ;;;
  ret r.

(** &pi->nread and &pi->nwrite, after the lock and the data. *)
Definition pchan_addr (a : Z) (c : pchan) : Z :=
  match c with ChanNread => a + 536 | ChanNwrite => a + 540 end.

Definition pipe_result (a : Z) (r : presult) : FM Z :=
  match r with PDone r => ret r | PSleep c _ => sleep_on (pchan_addr a c) end.

Fixpoint find_closed (n : nat) (f : Z) (t : Z -> file) : Z :=
  match n with
  | O => NULLF
  | S n' => if f_ref (t f) =? 0 then f else find_closed n' (f + 1) t
  end.

Definition filealloc : FM Z :=
  t <- gets ftable ;;
  let f := find_closed (Z.to_nat NFILE) 0 t in
  if f =? NULLF then ret NULLF else updf f (set_ref 1) ;;; ret f.

Definition filedup (f : Z) : FM Z :=
  x <- file_of f ;;
  if f_ref x <? 1 then panic "filedup"
  else updf f (set_ref (i32 (f_ref x + 1))) ;;; ret f.

Definition close_pipe (a : Z) (writable : bool) : FM unit :=
  free <- pipe_op a (fun t => let '(t', b) := Pipe.pipeclose writable t in (b, t')) ;;
  when free (usr_op (page_free a)).

(** begin_op(); iput(ip); end_op(); *)
Definition op_iput (ip : Z) : FM unit := fs_op (begin_op_f ;;; iput ip ;;; end_op_f).

Definition fileclose (f : Z) : FM unit :=
  x <- file_of f ;;
  if f_ref x <? 1 then panic "fileclose"
  else
    updf f (set_ref (f_ref x - 1)) ;;;
    if 0 <? f_ref x - 1 then ret tt
    else
      ff <- file_of f ;;
      updf f (fun y => set_type FD_NONE (set_ref 0 y)) ;;;
      if is_type (f_type ff) FD_PIPE then close_pipe (f_pipe ff) (negb (f_writable ff =? 0))
      else if is_type (f_type ff) FD_INODE || is_type (f_type ff) FD_DEVICE then op_iput (f_ip ff)
      else ret tt.

(** struct stat as the compiler lays it out: dev, ino, type, nlink, size. *)
Definition STAT_SIZE : Z := 24.
Definition put_stat (st : stat) : bytes :=
  st64 (st16 (st16 (st32 (st32 (fun _ => 0) 0 (st_dev st)) 4 (st_ino st)) 8 (st_type st)) 10 (st_nlink st))
    16 (st_size st).

Definition filestat (f addr : Z) : FM Z :=
  x <- file_of f ;;
  if is_type (f_type x) FD_INODE || is_type (f_type x) FD_DEVICE then
    st <- fs_op (ilock (f_ip x) ;;; st <- stati (f_ip x) ;; iunlock (f_ip x) ;;; ret st) ;;
    ok <- usr_op (fun u => let '(ok, u') := copyout addr (put_stat st) 0 STAT_SIZE u in Ret ok u') ;;
    ret (if ok : bool then 0 else -1)
  else ret (-1).

(** devsw[f->major], a null entry outside the table. *)
Definition dev_of (sw : Z -> devsw U) (g : devsw U -> option (Z -> Z -> Z -> FM Z)) (major : Z) :
    option (Z -> Z -> Z -> FM Z) :=
  if (major <? 0) || (NDEV <=? major) then None else g (sw major).

Definition fileread (sw : Z -> devsw U) (killed : bool) (f addr n : Z) : FM Z :=
  x <- file_of f ;;
  if f_readable x =? 0 then ret (-1)
  else match f_type x with
  | FD_PIPE => r <- pipe_op (f_pipe x) (piperead killed addr n) ;; pipe_result (f_pipe x) r
  | FD_DEVICE =>
      match dev_of sw d_read (f_major x) with
      | None => ret (-1)
      | Some read => read 1 addr n
      end
  | FD_INODE =>
      fs_op (ilock (f_ip x)) ;;;
      r <- fs_op (readi (f_ip x) true addr (f_off x) (u32 n)) ;;
      when (0 <? i32 r) (updf f (fun y => set_off (u32 (f_off y + r)) y)) ;;;
      fs_op (iunlock (f_ip x)) ;;;
      ret (i32 r)
  | FD_NONE => panic "fileread"
  end.

(** Bytes written by one transaction of filewrite. *)
Definition WRITE_MAX : Z := (MAXOPBLOCKS - 1 - 1 - 2) / 2 * BSIZE.

(** One round of the loop of filewrite, from index [i]. *)
Definition filewrite_body (f addr n i : Z) : FM (Z + Z) :=
  if i <? n then
    let n1 := if WRITE_MAX <? n - i then WRITE_MAX else n - i in
    x <- file_of f ;;
    fs_op (begin_op_f ;;; ilock (f_ip x)) ;;;
    r <- fs_op (writei (f_ip x) true (u64 (addr + i)) (f_off x) n1) ;;
    when (0 <? r) (updf f (fun y => set_off (u32 (f_off y + r)) y)) ;;;
    fs_op (iunlock (f_ip x) ;;; end_op_f) ;;;
    if negb (r =? n1) then ret (inr i) else ret (inl (i + r))
  else ret (inr i).

(** Every round but the last writes WRITE_MAX bytes. *)
Definition filewrite_fuel (n : Z) : nat := Z.to_nat (n / WRITE_MAX + 3).

(** [i] is the index at which a write to a pipe resumes after a sleep. *)
Definition filewrite (sw : Z -> devsw U) (killed : Z -> bool) (f addr n i : Z) : FM Z :=
  x <- file_of f ;;
  if f_writable x =? 0 then ret (-1)
  else match f_type x with
  | FD_PIPE => r <- pipe_op (f_pipe x) (pipewrite killed addr n i) ;; pipe_result (f_pipe x) r
  | FD_DEVICE =>
      match dev_of sw d_write (f_major x) with
      | None => ret (-1)
      | Some write => write 1 addr n
      end
  | FD_INODE =>
      i <- loop (filewrite_fuel n) (filewrite_body f addr n) 0 ;;
      ret (if i =? n then n else -1)
  | FD_NONE => panic "filewrite"
  end.

(** pipealloc: 0 and the two files, or -1 *)
Definition pipealloc : FM (Z * Z * Z) :=
  f0 <- filealloc ;;
  f1 <- (if f0 =? NULLF then ret NULLF else filealloc) ;;
  pi <- (if (f0 =? NULLF) || (f1 =? NULLF) then ret 0 else usr_op page_alloc) ;;
  if pi =? 0 then
    when (negb (f0 =? NULLF)) (fileclose f0) ;;;
    when (negb (f1 =? NULLF)) (fileclose f1) ;;;
    ret (-1, f0, f1)
  else
    modify (fun s => set_pipes (fupd (pipes s) pi (pipe_init (data (pipes s pi)))) s) ;;;
    updf f0 (set_pipe 1 0 pi) ;;;
    updf f1 (set_pipe 0 1 pi) ;;;
    ret (0, f0, f1).
End file_ops.
