(* ===== verification/FileLayer.v ===== *)
(** * The process table above the file layer

    file.c and fs.c provide what the process code asks of open files
    ([FileOps]), and keep the laws it relies on ([FileLaws]): dup adds one to
    a file's reference count, close takes one away, and neither pipeclose nor
    iput touches the table. *)
From stdpp Require Import base list numbers strings relations.
From Stdlib Require Import ZArith Lia FunctionalExtensionality.
From S2P Require Import Memlayout Kalloc VmTables Proc ProcTable ProcFiles Prelude BufCache UserMem Pipe Fs FsBlocks File.

Section layer.
Context {U : Type} `{UserMem U} `{PageAlloc U}.
(** Kernel addresses: a directory entry and a name on the stack, and "/". *)
Context (de name slash : Z).

#[export] Instance file_layer : FileOps (fsys U) := {|
  f_dup f := filedup f ;;; ret tt;
  f_close f := fileclose f;
  i_dup i := fs_op (idup i);
  i_put i := op_iput i;
  root_inode := fs_op (namei de name slash);
|}.

Definition file_refs (s : fsys U) (f : Z) : Z := f_ref (ftable s f).

Lemma file_refs_upd (t : Z -> file) f x :
  (fun g => f_ref (fupd t f x g)) = fupd (fun g => f_ref (t g)) f (f_ref x).
Proof.
  extensionality g. destruct (decide (g = f)) as [->|Hne]; [by rewrite !fupd_eq|by rewrite !fupd_ne].
Qed.

Lemma fs_op_ftable {A} (m : M (fstate U) A) s a s' : fs_op m s = Ret a s' -> ftable s' = ftable s.
Proof. intros E. by apply lift_Ret_inv in E as (x & _ & ->). Qed.

Lemma close_pipe_ftable a w s s' : close_pipe a w s = Ret tt s' -> ftable s' = ftable s.
Proof.
  intros E. unfold close_pipe in E. apply bind_Ret in E as (free & s1 & E1 & E).
  assert (ftable s1 = ftable s) as E2.
  { unfold pipe_op in E1. apply bind_Ret in E1 as (s0 & s2 & E0 & E1). injection E0 as <- <-.
    destruct (pipeclose w (PState (pipes s a) (usr (fs s)) [])) as [t b]. by injection E1 as _ <-. }
  unfold when in E. destruct free; [|by injection E as <-]. apply fs_op_ftable in E. congruence.
Qed.

Lemma fileclose_refs f s s' : 1 <= file_refs s f -> fileclose f s = Ret tt s' ->
  file_refs s' = fupd (file_refs s) f (file_refs s f - 1).
Proof.
  intros Hf E. unfold fileclose in E. apply bind_Ret in E as (x & s0 & E0 & E). injection E0 as <- <-.
  unfold file_refs in Hf. rewrite (proj2 (Z.ltb_ge (f_ref (ftable s f)) 1)) in E by lia.
  apply bind_Ret in E as ([] & s1 & E1 & E). injection E1 as <-.
  destruct (Z.ltb_spec 0 (f_ref (ftable s f) - 1)) as [Hr|Hr].
  { injection E as <-. apply (file_refs_upd (ftable s) f). }
  apply bind_Ret in E as (ff & s0 & E0 & E). injection E0 as <- <-.
  apply bind_Ret in E as ([] & s2 & E2 & E). injection E2 as <-. cbn in E. rewrite fupd_twice, fupd_eq in E.
  set (s2 := set_ftable _ _) in E.
  assert (ftable s' = ftable s2) as Et.
  { destruct (is_type _ FD_PIPE); [by eapply close_pipe_ftable|].
    destruct (_ || _); [by eapply fs_op_ftable|by injection E as <-]. }
  unfold file_refs. rewrite Et. unfold s2. cbn. rewrite file_refs_upd. cbn. f_equal. lia.
Qed.

#[export] Instance file_layer_laws : FileLaws (fsys U).
Proof.
  refine {| frefs := file_refs |}.
  - intros f s Hf. unfold file_refs in Hf. cbn. unfold filedup, bind, file_of, gets.
    rewrite (proj2 (Z.ltb_ge (f_ref (ftable s f)) 1)) by lia. cbn. eexists. split; [done|].
    unfold file_refs. cbn. rewrite file_refs_upd. cbn. by rewrite swrap_small by lia.
  - intros f s s' Hf E. by eapply fileclose_refs.
  - intros i s i' s' E. unfold file_refs. by rewrite (fs_op_ftable _ _ _ _ E).
  - intros i s s' E. unfold file_refs. by rewrite (fs_op_ftable _ _ _ _ E).
Defined.
End layer.

(** ** A machine with two processes that share an open file *)

#[export] Instance no_pages : PageAlloc flat := {| page_alloc := ret 0; page_free _ := ret tt |}.

Definition no_proc : proc :=
  Proc UNUSED 0 0 0 0 NOPROC 0 0 0 0 0 0 (fun _ => NULLF) NULLF [] 0 0.
Definition run_proc (pid parent : Z) : proc :=
  Proc RUNNING 0 0 0 pid parent 0 0 0 0 0 0 (fun fd => if fd =? 0 then 0 else NULLF) 0 [] 0 0.
(** init in slot 0, its child in slot 1 *)
Definition two_procs (i : Z) : proc :=
  if i =? 0 then run_proc 1 NOPROC else if i =? 1 then run_proc 2 0 else no_proc.
Definition shared_file (f : Z) : file :=
  if f =? 0 then File FD_DEVICE 2 1 1 0 0 0 1 else File FD_NONE 0 0 0 0 0 0 0.
Definition two_files : fsys flat :=
  FSys shared_file (on_inode 0 (with_ref 3) fs100) (fun _ => pipe_init (fun _ => 0)) [].
Definition machine : Proc.pstate (fsys flat) := PSt two_procs 3 0 0 (Kmem (fun _ => 0) 0) two_files.

Definition layer0 : FileOps (fsys flat) := file_layer 0 0 0.
Definition layer0_laws : @FileLaws (fsys flat) layer0 := file_layer_laws 0 0 0.

Lemma two_procs_other i : i <> 0 -> i <> 1 -> two_procs i = no_proc.
Proof. intros H0 H1. unfold two_procs. by rewrite !(proj2 (Z.eqb_neq _ _)) by done. Qed.

Lemma machine_table : table_inv machine.
Proof.
  assert (forall i, (i = 0 \/ i = 1) \/ two_procs i = no_proc) as Hc.
  { intros i. destruct (decide (i = 0)), (decide (i = 1)); auto using two_procs_other. }
  split; cbn [machine procs nextpid initproc].
  - intros i _. destruct (Hc i) as [[-> | ->]| ->]; done.
  - intros i _. destruct (Hc i) as [[-> | ->]| ->]; done.
  - intros i j _ _. destruct (Hc i) as [[-> | ->]| ->], (Hc j) as [[-> | ->]| ->]; done.
  - intros i _. destruct (Hc i) as [[-> | ->]| ->]; cbn; done.
  - done.
  - done.
Qed.

Lemma sumz_zero n g : (forall i, 0 <= i < Z.of_nat n -> g i = 0) -> sumz n g = 0.
Proof. intros E. rewrite (sumz_ext n g (fun _ => 0) E). clear E. induction n; cbn; lia. Qed.

Lemma opens_in_run pid parent f : f <> NULLF -> opens_in (run_proc pid parent) f = if f =? 0 then 1 else 0.
Proof.
  intros Hf. unfold opens_in. rewrite (sumz_change (Z.to_nat NOFILE) (fun _ => 0) _ 0); [|done|].
  - rewrite sumz_zero by done. cbn [run_proc p_ofile]. change (if 0 =? 0 then 0 else NULLF) with 0. rewrite (Z.eqb_sym 0 f). lia.
  - intros k Hk. cbn. by rewrite (proj2 (Z.eqb_neq k 0) Hk), (proj2 (Z.eqb_neq NULLF f)).
Qed.

Lemma machine_refs : @refs_inv _ layer0 layer0_laws machine.
Proof.
  split.
  - intros f Hf. unfold opens. cbn [machine procs].
    rewrite (sumz_change (Z.to_nat NPROC) (fun i => if i =? 1 then opens_in (two_procs 1) f else 0) _ 0); [|done|].
    + rewrite (sumz_change (Z.to_nat NPROC) (fun _ => 0) _ 1);
        [|done|intros k Hk; by rewrite (proj2 (Z.eqb_neq _ _))].
      rewrite sumz_zero by done. change (1 =? 1) with true. change (0 =? 1) with false.
      change (two_procs 1) with (run_proc 2 0). change (two_procs 0) with (run_proc 1 NOPROC).
      rewrite !opens_in_run by done. change (frefs (files machine) f) with (f_ref (shared_file f)).
      unfold shared_file. by destruct (f =? 0).
    + intros k Hk. destruct (Z.eqb_spec k 1) as [->|H1]; [done|].
      rewrite two_procs_other by done. apply sumz_zero. intros i _. cbn [no_proc p_ofile].
      by rewrite (proj2 (Z.eqb_neq NULLF f)).
  - intros i fd _ Hd Hfd. cbn in *. unfold two_procs in *.
    destruct (i =? 0), (i =? 1); (done || by destruct Hd).
Qed.

(** The child exits: its descriptor is closed, and the file stays open for
    init. *)
Definition exited : outcome (Proc.pstate (fsys flat)) unit := @kexit _ layer0 1 0 machine.
Definition exited_state : Proc.pstate (fsys flat) := match exited with Ret _ s => s | _ => machine end.

Lemma exited_step : @ProcTable.pstep ten_pages _ layer0 0 0 machine exited_state.
Proof.
  assert (match exited with Ret _ _ => true | _ => false end = true) as Ht by (vm_compute; reflexivity).
  apply (step_exit 0 0 1 0); [done|done|]. unfold exited_state. revert Ht. unfold exited.
  by destruct (@kexit _ layer0 1 0 machine) as [[] s|e|c s|].
Qed.

Lemma process_table_invariant_witness : table_inv exited_state.
Proof.
  apply (@process_table_invariant ten_pages _ layer0 0 0 machine); [exact machine_table|].
  apply rtc_once, exited_step.
Defined.

Lemma file_references_exact_witness : @refs_inv _ layer0 layer0_laws exited_state /\
  f_ref (ftable (files exited_state) 0) = 1.
Proof.
  split; [|vm_compute; reflexivity].
  apply (@file_references_exact ten_pages _ layer0 layer0_laws 0 0 machine); [exact machine_refs|].
  apply rtc_once, exited_step.
Defined.
