(* ===== verification/ProcListing.v ===== *)
(** * The process listing and kill

    kernel_getallprocs (the system call behind topfree) copies one record per
    process in use to the caller; kkill searches the table by pid. *)
From stdpp Require Import base list numbers strings relations.
From Stdlib Require Import ZArith Lia FunctionalExtensionality.
From S2P Require Import UserMem Fs File FileLayer Ulib Dto Prelude Memlayout Kalloc Vm VmTables VmUser Proc ProcTable.

Section listing.
Context `{KernelEnd} {F : Type} `{FileOps F}.
Implicit Types s : pstate F.

(** What a record says of a process, field by field: [st] is the number of
    its state, the name is cut to 15 characters, sizes and ticks are read as
    signed 64-bit numbers. *)
Record describes (st : Z) (q : proc) (v : u_proc_info) : Prop := Describes {
  de_pid : pid v = p_pid q;
  de_state : state v = st;
  de_name : name v = take 15 (p_name q);
  de_killed : is_killed v = p_killed q;
  de_memory : memory v = i64 (p_sz q);
  de_ticks : cpu_ticks v = i64 (p_cpu_ticks q);
}.
Definition state_number (st : procstate) : Z :=
  match st with UNUSED => 0 | USED => 1 | SLEEPING => 2 | RUNNABLE => 3 | RUNNING => 4 | ZOMBIE => 5 end.

(** The record of slot [i]: the process and its parent, or pid -1 and zeroes
    for a process without one. A parent in state USED is shown as UNUSED. *)
Definition listed s (i : Z) (v : u_proc) : Prop :=
  describes (state_number (p_state (procs s i))) (procs s i) (me v) /\
  if p_parent (procs s i) =? NOPROC then parent v = UInfo (-1) 0 [] 0 0 0
  else let q := procs s (p_parent (procs s i)) in
       describes (match p_state q with USED => 0 | st => state_number st end) q (parent v).

(** The record fill_u_proc builds *)
Definition record_of s (i : Z) : u_proc :=
  UProc (info_of (procs s i))
    (if p_parent (procs s i) =? NOPROC then UInfo (-1) 0 [] 0 0 0 else parent_info_of (procs s (p_parent (procs s i)))).

Lemma record_listed s i : listed s i (record_of s i).
Proof.
  split; [split; try done; cbn; by destruct (p_state (procs s i))|]. unfold record_of. cbn [parent].
  destruct (_ =? NOPROC); [done|]. cbv zeta. split; try done. cbn. by destruct (p_state (procs s (p_parent (procs s i)))).
Qed.

(** The slots in use among the [n] slots from [i] on. *)
Fixpoint active s (n : nat) (i : Z) : list Z :=
  match n with
  | O => []
  | S n' => if is_state (p_state (procs s i)) UNUSED then active s n' (i + 1) else i :: active s n' (i + 1)
  end.

(** Fields within the range of their C types. *)
Record proc_ok (q : proc) : Prop := {
  po_pid : - 2 ^ 31 <= p_pid q < 2 ^ 31;
  po_killed : - 2 ^ 31 <= p_killed q < 2 ^ 31;
  po_name : Forall (fun c => 0 < c < 256) (p_name q);
}.
Definition procs_ok s : Prop := forall i, proc_ok (procs s i).

Lemma info_of_ok q : proc_ok q -> info_ok (info_of q).
Proof.
  intros [H1 H2 H3]. split; cbn; try done.
  - by destruct (p_state q).
  - split; [unfold safestr; rewrite length_take; lia|by apply Forall_take].
  - apply (swrap_range 64). lia.
  - apply (swrap_range 64). lia.
Qed.

Lemma record_ok s i : procs_ok s -> info_ok (me (record_of s i)) /\ info_ok (parent (record_of s i)).
Proof.
  intros Hs. split; [by apply info_of_ok|]. cbn. destruct (_ =? NOPROC);
    [split; cbn; repeat split; try lia; apply Forall_nil_2|].
  destruct (info_of_ok _ (Hs (p_parent (procs s i)))) as [A1 A2 A3 A4 A5 A6]. split; try done.
  cbn in *. by destruct (is_state _ _).
Qed.

Lemma fill_u_proc_run i s : fill_u_proc i true s = Ret (record_of s i) s.
Proof.
  unfold fill_u_proc, bind, proc_of, gets, record_of. cbn [andb].
  destruct (p_parent (procs s i) =? NOPROC) eqn:E; cbn [negb]; [done|].
  unfold when. destruct (is_state _ USED) eqn:Eu; [|done]. apply bool_decide_eq_true in Eu.
  unfold upd, modify, on_proc. do 2 f_equal.
  assert (set_state USED (procs s (p_parent (procs s i))) = procs s (p_parent (procs s i))) as ->.
  { unfold set_state. rewrite <- Eu. by destruct (procs s (p_parent (procs s i))). }
  rewrite fupd_id. by destruct s.
Qed.

Lemma store_list_bytes l : forall m a, bytes_ok m -> Forall (fun c => 0 < c < 256) l -> bytes_ok (store_list m a l).
Proof.
  induction l as [|c l IH]; intros m a Hm Hl; cbn; [done|]. apply Forall_cons in Hl as [Hc Hl].
  apply IH; [|done]. apply fupd_bytes_ok; [done|lia].
Qed.

Lemma put_info_bytes v o m : info_ok v -> bytes_ok m -> bytes_ok (put_info v o m).
Proof.
  intros [_ _ [_ Hn] _ _ _] Hm. unfold put_info. cbv zeta.
  do 3 apply st_bytes_ok. apply store_list_bytes; [|done]. by apply fill_bytes_ok, st_bytes_ok, st_bytes_ok.
Qed.

Lemma put_uproc_bytes v : info_ok (me v) -> info_ok (parent v) -> bytes_ok (put_uproc v).
Proof. intros Hm Hp. apply put_info_bytes; [done|]. apply put_info_bytes; [done|]. intros a. lia. Qed.

(** What the user program reads depends on the bytes of the record only. *)
Lemma get_info_ext m m' a b : (forall x, 0 <= x < INFO_SIZE -> m (a + x) = m' (b + x)) -> get_info m a = get_info m' b.
Proof.
  intros E. unfold INFO_SIZE in E.
  assert (forall k o, 0 <= o -> o + Z.of_nat k <= 48 -> ld k m (a + o) = ld k m' (b + o)) as El.
  { intros k o Ho Hk. apply ld_shift. intros x Hx. rewrite <- !Z.add_assoc. apply E. lia. }
  assert (forall k o, 0 <= o -> o + Z.of_nat k <= 48 -> get_name k m (a + o) = get_name k m' (b + o)) as En.
  { intros k. induction k as [|k IH]; intros o Ho Hk; [done|]. cbn. rewrite E by lia.
    rewrite <- !Z.add_assoc, IH by lia. done. }
  unfold get_info. rewrite !El, En by lia. specialize (El 4%nat 0 ltac:(lia) ltac:(lia)).
  rewrite !Z.add_0_r in El. by rewrite El.
Qed.

Lemma get_uproc_ext m m' a b : (forall x, 0 <= x < UPROC_SIZE -> m (a + x) = m' (b + x)) ->
  get_uproc m a = get_uproc m' b.
Proof.
  intros E. unfold UPROC_SIZE, INFO_SIZE in E. unfold get_uproc. f_equal; apply get_info_ext; unfold INFO_SIZE.
  - intros x Hx. apply E. lia.
  - intros x Hx. rewrite <- !Z.add_assoc. apply E. lia.
Qed.

Context (root sz : Z).

(** What the loop has done when it stops with [r]: the records of the slots
    [t] lie in the caller's memory from [base] on, or one of their bytes could
    not be stored. *)
Record listing (base : Z) (t : list Z) (r total : Z) s (l : list Z) (k' : kmem) (l' : list Z) : Prop := Listing {
  li_space : uext root sz (km s) l k' l';
  li_rights : same_rights root sz (mem (km s)) (mem k');
  li_other : forall a, a < base \/ base + Z.of_nat (length t) * UPROC_SIZE <= a \/ may_write root sz (mem (km s)) a = false ->
    ubyte root (mem k') a = ubyte root (mem (km s)) a;
  li_result : (r = total /\ forall j x, t !! j = Some x -> listed s x (get_uproc (ubyte root (mem k')) (base + Z.of_nat j * UPROC_SIZE))) \/
    (r = -1 /\ ((exists a, base <= a < base + Z.of_nat (length t) * UPROC_SIZE /\ may_write root sz (mem (km s)) a = false) \/ (length l' <= 1)%nat));
}.

Lemma listing_nil base total s l : uvm root sz (km s) l -> listing base [] total total s l (km s) l.
Proof. intros Hu. split; [by apply uext_refl|by apply same_rights_refl|done|]. by left. Qed.

Lemma active_set_km s k n : forall i, active (set_km k s) n i = active s n i.
Proof. induction n as [|n IH]; intros i; [done|]. cbn. by rewrite IH. Qed.

(** One record stored, and the rest *)
Lemma listing_cons base t i r total s l k1 l1 k2 l2 : procs_ok s ->
  copyout_result root sz base (put_uproc (record_of s i)) 0 UPROC_SIZE 0 (km s) l k1 l1 ->
  listing (base + UPROC_SIZE) t r total (set_km k1 s) l1 k2 l2 -> listing base (i :: t) r total s l k2 l2.
Proof.
  intros Hok (X1 & _ & Hw & Hf & R1 & Ro & _) [X2 R2 Hb2 Hres]. destruct (record_ok s i Hok) as [L1 L2]. cbn [km set_km] in *.
  assert (forall a, may_write root sz (mem k1) a = may_write root sz (mem (km s)) a) as Aw by (intros a; apply R1).
  assert (forall a, a < base + UPROC_SIZE -> ubyte root (mem k2) a = ubyte root (mem k1) a) as Hlow by (intros a Ha; apply Hb2; by left).
  split; [by eapply uext_trans|by eapply same_rights_trans| |]; cbn [length] in *; unfold UPROC_SIZE, INFO_SIZE in *.
  - intros a Ha. rewrite Hb2; [destruct Ha as [Ha|[Ha|Ha]]; [apply Hf; lia..|by apply Ro]|]. rewrite Aw. destruct Ha as [Ha|[Ha|Ha]]; [left; lia|right; left; lia|by right; right].
  - destruct Hres as [[-> Hrec]|[-> [(a & Ha & Hno)|Hl]]].
    + left. split; [done|]. intros [|j] x Hj; cbn in Hj.
      * injection Hj as <-. replace (get_uproc _ _) with (record_of s i); [apply record_listed|].
        rewrite <- (get_put_uproc (record_of s i) L1 L2) at 1. apply get_uproc_ext. intros x Hx. unfold UPROC_SIZE, INFO_SIZE in Hx.
        rewrite Z.add_0_l, Hlow by lia. replace (base + Z.of_nat 0 * (2 * 48) + x) with (base + x) by lia. by rewrite Hw by lia.
      * specialize (Hrec j x Hj). replace (base + Z.of_nat (S j) * (2 * 48)) with (base + 2 * 48 + Z.of_nat j * (2 * 48)) by lia. exact Hrec.
    + right. split; [done|]. left. exists a. split; [lia|]. by rewrite <- Aw.
    + right. split; [done|]. by right.
Qed.

(** The loop from slot [i] with [count] records written. *)
Lemma getallprocs_from_run p user_buf max n : forall i count s l,
  uvm root sz (km s) l -> p_pagetable (procs s p) = root -> p_sz (procs s p) = sz -> procs_ok s ->
  0 <= user_buf -> 0 <= count -> user_buf + (count + Z.of_nat n) * UPROC_SIZE <= 2 ^ 64 ->
  let t := take (Z.to_nat (max - count)) (active s n i) in
  exists r k' l', getallprocs_from n i p user_buf max count s = Ret r (set_km k' s) /\
    listing (user_buf + count * UPROC_SIZE) t r (count + Z.of_nat (length t)) s l k' l'.
Proof.
  induction n as [|n IH]; intros i count s l Hu Hpt Hsz Hok Hb Hc Hlim; cbn [getallprocs_from active].
  - exists count, (km s), l. split; [by destruct s|]. rewrite take_nil, Z.add_0_r. by apply listing_nil.
  - destruct (Z.ltb_spec count max) as [Hm|Hm].
    2: { exists count, (km s), l. split; [by destruct s|]. replace (Z.to_nat (max - count)) with 0%nat by lia.
      rewrite take_0, Z.add_0_r. by apply listing_nil. }
    unfold bind at 1, proc_of at 1, gets at 1.
    destruct (is_state (p_state (procs s i)) UNUSED); cbn [negb].
    { apply IH; (done || (unfold UPROC_SIZE, INFO_SIZE in *; lia)). }
    rewrite (bind_step _ _ _ _ _ (fill_u_proc_run i s)). unfold bind at 1, proc_of, gets at 1.
    unfold UPROC_SIZE, INFO_SIZE in Hlim. rewrite (wrap_small 64) by (unfold UPROC_SIZE, INFO_SIZE; lia).
    destruct (record_ok s i Hok) as [L1 L2]. rewrite Hpt, Hsz. set (va := user_buf + count * UPROC_SIZE).
    destruct (copyout_run root sz va (put_uproc (record_of s i)) 0 UPROC_SIZE (km s) l Hu
      (put_uproc_bytes _ L1 L2) ltac:(unfold va, UPROC_SIZE, INFO_SIZE; lia) ltac:(unfold UPROC_SIZE, INFO_SIZE; lia))
      as (r & k1 & l1 & E1 & C1). pose proof C1 as (X1 & Hr & _ & Hf & R1 & Ro & _ & Hno).
    unfold bind at 1, memory_op. rewrite (lift_Ret _ _ _ _ _ _ E1).
    replace (Z.to_nat (max - count)) with (S (Z.to_nat (max - (count + 1)))) by lia. cbn [take].
    set (t := take (Z.to_nat (max - (count + 1))) (active s n (i + 1))).
    destruct Hr as [-> | ->].
    + cbn [Z.ltb Z.compare].
      destruct (IH (i + 1) (count + 1) (set_km k1 s) l1) as (r & k2 & l2 & E2 & H2); try done.
      { apply X1. } { lia. } { unfold UPROC_SIZE, INFO_SIZE. lia. }
      exists r, k2, l2. split; [exact E2|]. rewrite active_set_km in H2. fold t in H2. eapply listing_cons; [done|exact C1|].
      replace (va + UPROC_SIZE) with (user_buf + (count + 1) * UPROC_SIZE) by (unfold va, UPROC_SIZE, INFO_SIZE; lia). cbn [length].
      by replace (count + Z.of_nat (S (length t))) with (count + 1 + Z.of_nat (length t)) by lia.
    + exists (-1), k1, l1. split; [done|]. split; [done|done| |]; cbn [length] in *; unfold UPROC_SIZE, INFO_SIZE in *.
      * intros a [Ha|[Ha|Ha]]; [apply Hf; lia..|by apply Ro].
      * right. split; [done|]. destruct (Hno eq_refl) as [(o & Ho & Hw)|Hl]; [left; exists (va + o); split; [lia|done]|by right].
Qed.
End listing.

(** C37. The process listing is exact. For a caller whose address space is well
    formed, let t be the slots in use, capped at max. kernel_getallprocs returns
    the number of slots in t, and record j of the caller's buffer, as the user
    program decodes it, then gives the pid, state, name, killed mark, size and
    ticks of the j-th of them and of its parent ([listed]; a parent in state USED
    is shown as UNUSED, and a process without one shows pid -1); or it returns
    -1, and then some byte of these records lies where the caller may not
    write, or memory had run out. In both cases no byte outside the records
    changes, none the caller may not write does, no page is lost, and the
    process table stays as it is. *)
Theorem kernel_getallprocs_correct `{KernelEnd} {F : Type} (p user_buf max : Z) (s : pstate F) (l : list Z) :
  let root := p_pagetable (procs s p) in let sz := p_sz (procs s p) in
  uvm root sz (km s) l -> procs_ok s -> 0 <= user_buf -> user_buf + NPROC * UPROC_SIZE <= 2 ^ 64 ->
  let t := take (Z.to_nat max) (active s (Z.to_nat NPROC) 0) in
  exists r k' l', kernel_getallprocs p user_buf max s = Ret r (set_km k' s) /\ uext root sz (km s) l k' l' /\
    (forall a, a < user_buf \/ user_buf + Z.of_nat (length t) * UPROC_SIZE <= a \/ may_write root sz (mem (km s)) a = false ->
       ubyte root (mem k') a = ubyte root (mem (km s)) a) /\
    ((r = Z.of_nat (length t) /\
      forall j x, t !! j = Some x -> listed s x (get_uproc (ubyte root (mem k')) (user_buf + Z.of_nat j * UPROC_SIZE))) \/
     (r = -1 /\ ((exists a, user_buf <= a < user_buf + Z.of_nat (length t) * UPROC_SIZE /\ may_write root sz (mem (km s)) a = false) \/
                 (length l' <= 1)%nat))).
Proof.
  intros root sz Hu Hok Hb Hlim t. unfold kernel_getallprocs.
  destruct (getallprocs_from_run root sz p user_buf max (Z.to_nat NPROC) 0 0 s l Hu eq_refl eq_refl Hok Hb
    (Z.le_refl 0) Hlim) as (r & k' & l' & E & [X _ Ho Hr]).
  rewrite Z.mul_0_l, Z.add_0_r, Z.add_0_l, Z.sub_0_r in *. exists r, k', l'. split; [exact E|]. split; [exact X|]. split; [exact Ho|exact Hr].
Qed.

Definition user_proc (q : proc) : proc := set_sz 12288 (set_pagetable root10 q).
Definition listing_machine : pstate (fsys flat) :=
  set_km vm10 (on_proc 0 user_proc machine).

Lemma kernel_getallprocs_correct_witness :
  exists k' l', @kernel_getallprocs ten_pages (fsys flat) 0 4096 64 listing_machine =
      Ret 2 (set_km k' listing_machine) /\
    uvm root10 12288 k' l' /\
    let v := get_uproc (ubyte root10 (mem k')) (4096 + UPROC_SIZE) in pid (me v) = 2 /\ state (me v) = 4 /\ memory (me v) = 0 /\ pid (parent v) = 1.
Proof.
  destruct (@kernel_getallprocs_correct ten_pages (fsys flat) 0 4096 64 listing_machine pages9)
    as (r & k' & l' & E & [U _] & _ & Hres).
  - exact uvm10.
  - intros i. cbn. unfold fupd, two_procs. destruct (i =? 0), (i =? 1); split; cbn; try lia; apply Forall_nil_2.
  - lia.
  - vm_compute. congruence.
  - assert (match @kernel_getallprocs ten_pages (fsys flat) 0 4096 64 listing_machine with
      | Ret r _ => r = 2 | _ => False end) as Er by (vm_compute; reflexivity).
    rewrite E in Er. subst r. destruct Hres as [[_ Hrec]|[? _]]; [|done].
    exists k', l'. split; [exact E|]. split; [exact U|].
    specialize (Hrec 1%nat 1 eq_refl). change (Z.of_nat 1 * UPROC_SIZE) with UPROC_SIZE in Hrec.
    change (p_pagetable (procs listing_machine 0)) with root10 in Hrec. cbv zeta.
    destruct Hrec as [[-> -> _ _ -> _] [-> _ _ _ _ _]]. repeat split; vm_compute; reflexivity.
Defined.

(** ** kill *)
Section kill.
Context `{KernelEnd} {F : Type}.
Context (forkret trampoline : Z).
Implicit Types s : pstate F.

Lemma find_pid_zero n : forall i ps, (forall k, i <= k < i + Z.of_nat n -> p_pid (ps k) = 0 <-> p_state (ps k) = UNUSED) ->
  find_pid n i ps 0 = find_unused n i ps.
Proof.
  induction n as [|n IH]; intros i ps Hk; [done|]. cbn. unfold is_state at 1.
  destruct (Z.eqb_spec (p_pid (ps i)) 0) as [E|E].
  - rewrite bool_decide_true; [done|]. apply Hk; [lia|done].
  - rewrite bool_decide_false; [|intros E'; apply E, Hk; [lia|done]]. apply IH. intros k Hkr. apply Hk. lia.
Qed.

Lemma find_unused_ext n : forall i ps ps', (forall k, p_state (ps k) = p_state (ps' k)) ->
  find_unused n i ps = find_unused n i ps'.
Proof. induction n as [|n IH]; intros i ps ps' E; [done|]. cbn. rewrite E. by rewrite (IH _ ps ps'). Qed.

(** allocproc takes the first unused slot. *)
Lemma allocproc_slot s i s' : allocproc forkret trampoline s = Ret i s' ->
  i = NOPROC \/ i = find_unused (Z.to_nat NPROC) 0 (procs s).
Proof.
  unfold allocproc. intros E. apply bind_Ret in E as (ps & s0 & E0 & E). injection E0 as <- <-. cbv zeta in E.
  set (j := find_unused (Z.to_nat NPROC) 0 (procs s)) in *. clearbody j.
  destruct (j =? NOPROC); [injection E as <- <-; by left|].
  do 6 (apply bind_Ret in E as (? & ? & _ & E)). apply bind_Ret in E as (tf & ? & _ & E).
  apply bind_Ret in E as (? & ? & _ & E).
  destruct (tf =? 0); [apply bind_Ret in E as (? & ? & _ & E); injection E as <- _; by left|].
  apply bind_Ret in E as (pt & ? & _ & E). apply bind_Ret in E as (? & ? & _ & E).
  destruct (pt =? 0); [apply bind_Ret in E as (? & ? & _ & E); injection E as <- _; by left|].
  do 2 (apply bind_Ret in E as (? & ? & _ & E)). injection E as <- _. by right.
Qed.

(** What kkill does, for every pid. *)
Definition kill_spec (pid : Z) s : Prop :=
  (kkill pid s = Ret (-1) s /\ forall k, 0 <= k < NPROC -> p_pid (procs s k) <> pid) \/
  (exists i s', kkill pid s = Ret 0 s' /\ 0 <= i < NPROC /\ p_pid (procs s i) = pid /\
    p_killed (procs s' i) = 1 /\
    p_state (procs s' i) = (if is_state (p_state (procs s i)) SLEEPING then RUNNABLE else p_state (procs s i)) /\
    (forall k, k <> i -> procs s' k = procs s k)).

Lemma kkill_run pid s : let i := find_pid (Z.to_nat NPROC) 0 (procs s) pid in
  if i =? NOPROC then kkill pid s = Ret (-1) s /\ (forall k, 0 <= k < NPROC -> p_pid (procs s k) <> pid)
  else exists s', kkill pid s = Ret 0 s' /\ 0 <= i < NPROC /\ p_pid (procs s i) = pid /\
    p_killed (procs s' i) = 1 /\
    p_state (procs s' i) = (if is_state (p_state (procs s i)) SLEEPING then RUNNABLE else p_state (procs s i)) /\
    (forall k, k <> i -> procs s' k = procs s k).
Proof.
  unfold kkill, bind, gets.
  pose proof (find_pid_spec (Z.to_nat NPROC) 0 (procs s) pid (Z.le_refl 0)) as Hf. cbv zeta in *.
  set (i := find_pid (Z.to_nat NPROC) 0 (procs s) pid) in *. clearbody i.
  change (0 + Z.of_nat (Z.to_nat NPROC)) with NPROC in Hf.
  destruct Hf as [[-> Hn]|[Hr Hp]]; [by split|].
  rewrite (proj2 (Z.eqb_neq i NOPROC)) by (unfold NOPROC; lia).
  eexists. split; [reflexivity|]. split; [done|]. split; [done|]. cbn. rewrite !fupd_twice, !fupd_eq. cbn.
  split; [by destruct (is_state _ _)|]. split; [by destruct (is_state _ _)|].
  intros k Hk. by rewrite fupd_ne.
Qed.
End kill.

(** kill marks exactly one process, one with the given pid, waking it if
    it sleeps; it reports -1, and changes nothing, for a pid no slot has. *)
Theorem kkill_correct {F : Type} (pid : Z) (s : pstate F) : kill_spec pid s.
Proof.
  pose proof (kkill_run pid s) as Hk. cbv zeta in Hk. unfold kill_spec.
  destruct (find_pid (Z.to_nat NPROC) 0 (procs s) pid =? NOPROC); [by left|right].
  destruct Hk as (s' & Hk). by eexists _, s'.
Qed.

(** kill(0) succeeds although no process has pid 0: the pid of an unused
    slot is 0, so the search finds the first unused slot and marks it killed.
    allocproc, which hands out that same slot next, does not reset the mark:
    the next child is killed before it runs. *)
Theorem kill_zero_marks_next_child `{KernelEnd} {F : Type} (forkret trampoline : Z) (s : pstate F) :
  table_inv s -> find_unused (Z.to_nat NPROC) 0 (procs s) <> NOPROC ->
  exists s', kkill 0 s = Ret 0 s' /\
    forall i s'', allocproc forkret trampoline s' = Ret i s'' -> i <> NOPROC -> p_killed (procs s'' i) = 1.
Proof.
  intros Hi Hne. pose proof (kkill_run 0 s) as Hk. cbv zeta in Hk.
  rewrite find_pid_zero in Hk.
  2: { intros k Hr. split; [|by apply (ti_unused _ Hi)]. intros E.
    destruct (decide (p_state (procs s k) = UNUSED)) as [|Hd]; [done|]. pose proof (ti_pid _ Hi k Hr Hd). lia. }
  rewrite (proj2 (Z.eqb_neq _ _) Hne) in Hk. destruct Hk as (s' & E & Hr & Hp & Hk & Hs & Ho).
  destruct (find_unused_spec (Z.to_nat NPROC) 0 (procs s) (Z.le_refl 0)) as [?|[_ Hu]]; [done|].
  exists s'. split; [exact E|]. intros j s'' Ea Hj. rewrite Hu in Hs. change (if is_state UNUSED SLEEPING then RUNNABLE else UNUSED) with UNUSED in Hs.
  destruct (allocproc_slot _ _ _ _ _ Ea) as [?|Hslot]; [done|].
  rewrite (find_unused_ext _ _ (procs s') (procs s)) in Hslot.
  2: { intros k. destruct (decide (k = find_unused (Z.to_nat NPROC) 0 (procs s))) as [->|Hd];
       [congruence|by rewrite Ho]. }
  rewrite <- Hslot in Hk.
  apply allocproc_table in Ea as (_ & _ & [[? _]|(j' & q' & _ & _ & _ & Ep & _ & [[? _]|[<- Ha]])]); [done|done|].
  rewrite Ep, fupd_eq. destruct Ha as (_ & _ & _ & -> & _). exact Hk.
Qed.

Lemma kill_zero_marks_next_child_witness : exists s', kkill 0 machine = Ret 0 s' /\ p_killed (procs s' 2) = 1 /\
  forall i s'', @allocproc ten_pages (fsys flat) 0 0 s' = Ret i s'' -> i <> NOPROC -> p_killed (procs s'' i) = 1.
Proof.
  destruct (@kill_zero_marks_next_child ten_pages (fsys flat) 0 0 machine machine_table) as (s' & E & Hs).
  { vm_compute. congruence. }
  exists s'. split; [exact E|]. split; [|exact Hs].
  assert (match kkill 0 machine with Ret _ s => p_killed (procs s 2) | _ => 0 end = 1) as Hk by (vm_compute; reflexivity).
  by rewrite E in Hk.
Defined.
