(* ===== verification/Spinlock.v ===== *)
(** * kernel/spinlock.c: spin locks and interrupt nesting

    acquire and release run on several CPUs at once. Their memory accesses
    are the atomic steps of the model ([advance]): reading lk->locked,
    reading lk->cpu, the atomic exchange, the two stores. push_off and pop_off
    touch only the state of their own CPU, with its interrupts off.
    Locks are named by their address, CPUs by their number. *)
From stdpp Require Import base list numbers strings relations.
From Stdlib Require Import ZArith Lia FunctionalExtensionality.
From S2P Require Import Prelude Memlayout.

(** The null pointer as a struct cpu. *)
Definition NOCPU : Z := -1.

Record spinlock := Spinlock { locked : Z; lcpu : Z }.
(** noff and intena of struct cpu; [intr] is SIE of the CPU's sstatus. *)
Record cpu := Cpu { noff : Z; intena : bool; intr : bool }.
Record smp := Smp { locks : Z -> spinlock; cpus : Z -> cpu }.

Definition on_lock (lk : Z) (f : spinlock -> spinlock) : M smp unit :=
  modify (fun s => Smp (fupd (locks s) lk (f (locks s lk))) (cpus s)).
Definition on_cpu (c : Z) (f : cpu -> cpu) : M smp unit :=
  modify (fun s => Smp (locks s) (fupd (cpus s) c (f (cpus s c)))).
Definition cpu_of (c : Z) : M smp cpu := gets (fun s => cpus s c).

Definition intr_get (c : Z) : M smp bool := x <- cpu_of c ;; ret (intr x).
Definition intr_set (b : bool) (c : Z) : M smp unit := on_cpu c (fun x => Cpu (noff x) (intena x) b).

Definition initlock (lk : Z) : M smp unit := on_lock lk (fun _ => Spinlock 0 NOCPU).

Definition push_off (c : Z) : M smp unit :=
  old <- intr_get c ;;
  intr_set false c ;;;
  x <- cpu_of c ;;
  when (noff x =? 0) (on_cpu c (fun x => Cpu (noff x) old (intr x))) ;;;
  on_cpu c (fun x => Cpu (i32 (noff x + 1)) (intena x) (intr x)).

Definition pop_off (c : Z) : M smp unit :=
  i <- intr_get c ;;
  if i : bool then panic "pop_off - interruptible"
  else
    x <- cpu_of c ;;
    if noff x <? 1 then panic "pop_off"
    else
      on_cpu c (fun x => Cpu (noff x - 1) (intena x) (intr x)) ;;;
      x <- cpu_of c ;;
      when ((noff x =? 0) && intena x) (intr_set true c).

Definition locked_of (lk : Z) : M smp Z := gets (fun s => locked (locks s lk)).
Definition lcpu_of (lk : Z) : M smp Z := gets (fun s => lcpu (locks s lk)).
Definition set_lcpu (lk c : Z) : M smp unit := on_lock lk (fun l => Spinlock (locked l) c).
Definition set_locked (lk v : Z) : M smp unit := on_lock lk (fun l => Spinlock v (lcpu l)).

(** lk->locked && lk->cpu == mycpu() *)
Definition holding (c lk : Z) : M smp bool :=
  l <- locked_of lk ;;
  if l =? 0 then ret false else o <- lcpu_of lk ;; ret (o =? c).

(** __atomic_exchange_n(&lk->locked, v, __ATOMIC_ACQUIRE) *)
Definition exchange (lk v : Z) : M smp Z := old <- locked_of lk ;; set_locked lk v ;;; ret old.

(** acquire and release run without interference; a lock that is taken makes
    the caller spin. *)
Definition acquire (c lk : Z) : M smp unit :=
  push_off c ;;;
  h <- holding c lk ;;
  if h : bool then panic "acquire"
  else
    old <- exchange lk 1 ;;
    if negb (old =? 0) then sleep_on lk else set_lcpu lk c.

Definition release (c lk : Z) : M smp unit :=
  h <- holding c lk ;;
  if negb h then panic "release"
  else set_lcpu lk NOCPU ;;; set_locked lk 0 ;;; pop_off c.

(** ** The same, one memory access at a time *)

(** Where a CPU is inside acquire or release. *)
Inductive pc :=
| Idle | AcqTest (lk : Z) | AcqTestCpu (lk : Z) | Spin (lk : Z) | Got (lk : Z)
| RelTest (lk : Z) | RelTestCpu (lk : Z) | RelClear (lk : Z) | RelStore (lk : Z) | RelPop | Dead.
#[export] Instance pc_eq_dec : EqDecision pc.
Proof. solve_decision. Defined.

Definition advance (c : Z) (q : pc) : M smp pc :=
  match q with
  | AcqTest lk => l <- locked_of lk ;; ret (if l =? 0 then Spin lk else AcqTestCpu lk)
  | AcqTestCpu lk => o <- lcpu_of lk ;; if o =? c then panic "acquire" else ret (Spin lk)
  | Spin lk => old <- exchange lk 1 ;; ret (if old =? 0 then Got lk else Spin lk)
  | Got lk => set_lcpu lk c ;;; ret Idle
  | RelTest lk => l <- locked_of lk ;; if l =? 0 then panic "release" else ret (RelTestCpu lk)
  | RelTestCpu lk => o <- lcpu_of lk ;; if o =? c then ret (RelClear lk) else panic "release"
  | RelClear lk => set_lcpu lk NOCPU ;;; ret (RelStore lk)
  | RelStore lk => set_locked lk 0 ;;; ret RelPop
  | RelPop => pop_off c ;;; ret Idle
  | Idle | Dead => ret q
  end.

Fixpoint run (n : nat) (c : Z) (q : pc) : M smp pc :=
  match n with O => ret q | S n' => q' <- advance c q ;; run n' c q' end.

Ltac mrun :=
  cbn [run advance]; unfold bind, exchange, locked_of, lcpu_of, set_locked, set_lcpu, on_lock, gets, modify, ret; cbn -[pop_off].

(** Undisturbed, the steps compute acquire and release. *)
Lemma acquire_steps c lk s s' : acquire c lk s = Ret tt s' ->
  exists n, (push_off c ;;; run n c (AcqTest lk)) s = Ret Idle s'.
Proof.
  intros E. unfold acquire in E. apply bind_Ret in E as ([] & s1 & E1 & E).
  apply bind_Ret in E as (h & s2 & E2 & E). unfold holding in E2.
  apply bind_Ret in E2 as (l & s3 & E3 & E2). injection E3 as <- <-. destruct h; [done|].
  apply bind_Ret in E as (old & s3 & E3 & E). injection E3 as <- <-.
  destruct (Z.eqb_spec (locked (locks s1 lk)) 0) as [El|El]; cbn in E2.
  - injection E2 as <-. rewrite El in E. injection E as <-. exists 3%nat.
    rewrite (bind_step _ _ _ _ _ E1). mrun. by repeat (rewrite El; mrun).
  - injection E2 as _ <-. by rewrite (proj2 (Z.eqb_neq _ _) El) in E.
Qed.

Lemma release_steps c lk s s' : release c lk s = Ret tt s' -> exists n, run n c (RelTest lk) s = Ret Idle s'.
Proof.
  intros E. unfold release in E. apply bind_Ret in E as (h & s2 & E2 & E). unfold holding in E2.
  apply bind_Ret in E2 as (l & s3 & E3 & E2). injection E3 as <- <-.
  destruct (Z.eqb_spec (locked (locks s lk)) 0) as [El|El]; [by injection E2 as <- <-|].
  apply bind_Ret in E2 as (o & s3 & E3 & E2). injection E3 as <- <-. injection E2 as <- <-.
  destruct (lcpu (locks s lk) =? c) eqn:Ec; [|done]. cbn [negb] in E. exists 5%nat.
  mrun. rewrite (proj2 (Z.eqb_neq _ _) El). mrun. rewrite Ec. revert E. mrun.
  intros E. by rewrite (bind_step (pop_off c) _ _ _ _ E).
Qed.

(** ** Every interleaving of the CPUs *)

(** [held c]: the locks CPU c has acquired and not begun to release;
    [pushed c]: its own push_off calls without a pop_off yet. *)
Record conf := Conf { st : smp; pcs : Z -> pc; held : Z -> list Z; pushed : Z -> Z }.

(** The locks held by [c] after its step from [q] to [q']. *)
Definition held_after (q q' : pc) (h : list Z) : list Z :=
  match q, q' with
  | Got lk, _ => lk :: h
  | RelTestCpu lk, RelClear _ => filter (fun x => x <> lk) h
  | _, _ => h
  end.

(** Nesting that does not overflow the int noff. *)
Definition NEST_MAX : Z := 2 ^ 31 - 1.

Definition is_cpu (c : Z) : Prop := 0 <= c < NCPU.

Inductive cstep : conf -> conf -> Prop :=
| cs_acquire c lk k s' : is_cpu c -> pcs k c = Idle -> noff (cpus (st k) c) < NEST_MAX -> push_off c (st k) = Ret tt s' ->
    cstep k (Conf s' (fupd (pcs k) c (AcqTest lk)) (held k) (pushed k))
| cs_release c lk k : is_cpu c -> pcs k c = Idle ->
    cstep k (Conf (st k) (fupd (pcs k) c (RelTest lk)) (held k) (pushed k))
| cs_advance c k q' s' : is_cpu c -> pcs k c <> Idle -> pcs k c <> Dead -> advance c (pcs k c) (st k) = Ret q' s' ->
    cstep k (Conf s' (fupd (pcs k) c q') (fupd (held k) c (held_after (pcs k c) q' (held k c))) (pushed k))
| cs_panic c k e : is_cpu c -> advance c (pcs k c) (st k) = Panic e ->
    cstep k (Conf (st k) (fupd (pcs k) c Dead) (held k) (pushed k))
| cs_push c k s' : is_cpu c -> pcs k c = Idle -> noff (cpus (st k) c) < NEST_MAX -> push_off c (st k) = Ret tt s' ->
    cstep k (Conf s' (pcs k) (held k) (fupd (pushed k) c (pushed k c + 1)))
| cs_pop c k s' : is_cpu c -> pcs k c = Idle -> 0 < pushed k c -> pop_off c (st k) = Ret tt s' ->
    cstep k (Conf s' (pcs k) (held k) (fupd (pushed k) c (pushed k c - 1)))
| cs_intr c k b s' : is_cpu c -> noff (cpus (st k) c) = 0 -> intr_set b c (st k) = Ret tt s' ->
    cstep k (Conf s' (pcs k) (held k) (pushed k)).

(** All locks free, no CPU inside the lock code, interrupts in any state. *)
Definition booted (k : conf) : Prop :=
  forall c lk, locks (st k) lk = Spinlock 0 NOCPU /\ noff (cpus (st k) c) = 0 /\
    pcs k c = Idle /\ held k c = [] /\ pushed k c = 0.

(** [lk] is taken by [c]: held, or on the way in or out. *)
Definition taking (q : pc) (lk : Z) : bool :=
  match q with Got x | RelClear x | RelStore x => x =? lk | _ => false end.
Definition owns (k : conf) (c lk : Z) : Prop := lk ∈ held k c \/ taking (pcs k c) lk = true.
(** lk->cpu names the CPU from the end of acquire to the clearing in release. *)
Definition recorded (k : conf) (c lk : Z) : Prop := lk ∈ held k c \/ pcs k c = RelClear lk.

(** The push_off of the acquire or release under way. *)
Definition entered (q : pc) : Z :=
  match q with
  | AcqTest _ | AcqTestCpu _ | Spin _ | Got _ | RelClear _ | RelStore _ | RelPop => 1
  | _ => 0
  end.

(** noff counts the locks held and the push_offs under way, and interrupts
    are off while it is not 0. *)
Definition cpu_inv (k : conf) (c : Z) : Prop :=
  (pcs k c <> Dead -> noff (cpus (st k) c) = pushed k c + Z.of_nat (length (held k c)) + entered (pcs k c)) /\
  0 <= pushed k c /\ (noff (cpus (st k) c) <> 0 -> intr (cpus (st k) c) = false).

Record lock_inv (k : conf) : Prop := {
  li_free lk : locked (locks (st k) lk) = 0 -> forall c, is_cpu c -> ~ owns k c lk;
  li_taken lk : locked (locks (st k) lk) <> 0 -> locked (locks (st k) lk) = 1 /\ exists c, is_cpu c /\ owns k c lk;
  li_excl lk c c' : is_cpu c -> is_cpu c' -> owns k c lk -> owns k c' lk -> c = c';
  li_cpu lk c : is_cpu c -> lcpu (locks (st k) lk) = c <-> recorded k c lk;
  li_nodup c : is_cpu c -> NoDup (held k c) /\ (forall lk, taking (pcs k c) lk = true -> lk ∉ held k c);
  li_cpus c : is_cpu c -> cpu_inv k c;
}.

Lemma booted_inv k : booted k -> lock_inv k.
Proof.
  intros Hb. assert (forall c lk, ~ owns k c lk) as Ho.
  { intros c lk [Hh|Ht]; destruct (Hb c lk) as (_ & _ & Eq & Eh & _).
    - rewrite Eh in Hh. by apply elem_of_nil in Hh.
    - by rewrite Eq in Ht. }
  split.
  - auto.
  - intros lk. destruct (Hb 0 lk) as (-> & _). done.
  - intros lk c c' _ _ H1. by destruct (Ho c lk).
  - intros lk c Hc. destruct (Hb c lk) as (-> & _ & Eq & Eh & _). split.
    + cbn. unfold is_cpu, NOCPU in *. lia.
    + intros [Hh|Ht]; [rewrite Eh in Hh; by apply elem_of_nil in Hh|by rewrite Eq in Ht].
  - intros c _. destruct (Hb c 0) as (_ & _ & -> & -> & _). split; [constructor|done].
  - intros c _. unfold cpu_inv. destruct (Hb c 0) as (_ & -> & -> & -> & ->). done.
Qed.

(** push_off and pop_off on the CPU's own state. *)
Lemma push_off_run c s : 0 <= noff (cpus s c) < 2 ^ 31 - 1 ->
  push_off c s = Ret tt (Smp (locks s) (fupd (cpus s) c
    (Cpu (noff (cpus s c) + 1) (if noff (cpus s c) =? 0 then intr (cpus s c) else intena (cpus s c)) false))).
Proof.
  intros Hn. unfold push_off, bind, intr_get, cpu_of, gets, ret, intr_set, on_cpu, modify, bind, gets, ret. cbn.
  rewrite fupd_eq. cbn. destruct (noff (cpus s c) =? 0); cbn; rewrite !fupd_twice, ?fupd_eq; cbn;
    rewrite swrap_small by lia; done.
Qed.

Lemma pop_off_run c s : 1 <= noff (cpus s c) -> intr (cpus s c) = false ->
  pop_off c s = Ret tt (Smp (locks s) (fupd (cpus s) c
    (Cpu (noff (cpus s c) - 1) (intena (cpus s c)) ((noff (cpus s c) =? 1) && intena (cpus s c))))).
Proof.
  intros Hn Hi. unfold pop_off, bind, intr_get, cpu_of, gets, ret, intr_set, on_cpu, modify, bind, gets, ret. cbn.
  rewrite Hi. rewrite (proj2 (Z.ltb_ge (noff (cpus s c)) 1)) by lia. cbn. rewrite fupd_eq. cbn.
  replace (noff (cpus s c) - 1 =? 0) with (noff (cpus s c) =? 1)
    by (destruct (Z.eqb_spec (noff (cpus s c)) 1), (Z.eqb_spec (noff (cpus s c) - 1) 0); (done || lia)).
  destruct ((noff (cpus s c) =? 1) && intena (cpus s c)); cbn; rewrite ?fupd_twice, ?fupd_eq; cbn; by rewrite ?Hi.
Qed.

(** A step of CPU [c] that leaves it at [q'] with locks [h']. *)
Section cpu_step.
Context (k k' : conf) (c : Z) (q' : pc) (h' : list Z).
Hypothesis Hi : lock_inv k.
Hypothesis Hc : is_cpu c.
Hypothesis Epc : pcs k' = fupd (pcs k) c q'.
Hypothesis Eheld : held k' = fupd (held k) c h'.

Let mine (x : Z) : Prop := x ∈ h' \/ taking q' x = true.

Lemma owns_self x : owns k' c x <-> mine x.
Proof using Epc Eheld. unfold owns, mine. by rewrite Epc, Eheld, !fupd_eq. Qed.

Lemma owns_other c' x : c' <> c -> owns k' c' x <-> owns k c' x.
Proof using Epc Eheld. intros Hne. unfold owns. by rewrite Epc, Eheld, !fupd_ne. Qed.

Lemma recorded_other c' x : c' <> c -> recorded k' c' x <-> recorded k c' x.
Proof using Epc Eheld. intros Hne. unfold recorded. by rewrite Epc, Eheld, !fupd_ne. Qed.

(** Other CPUs keep their locks; [c] may take a free lock, keep one it has,
    or give one up. *)
Lemma lock_inv_step :
  (forall x, mine x -> forall c', is_cpu c' -> c' <> c -> ~ owns k c' x) ->
  (forall x, locked (locks (st k') x) = 0 -> ~ mine x /\ forall c', is_cpu c' -> c' <> c -> ~ owns k c' x) ->
  (forall x, locked (locks (st k') x) <> 0 -> locked (locks (st k') x) = 1 /\
     (mine x \/ exists c', is_cpu c' /\ c' <> c /\ owns k c' x)) ->
  (forall x c', is_cpu c' -> lcpu (locks (st k') x) = c' <->
     if decide (c' = c) then x ∈ h' \/ q' = RelClear x else recorded k c' x) ->
  NoDup h' /\ (forall x, taking q' x = true -> x ∉ h') ->
  (forall c', is_cpu c' -> c' <> c -> cpus (st k') c' = cpus (st k) c' /\ pushed k' c' = pushed k c') ->
  cpu_inv k' c -> lock_inv k'.
Proof using Hi Hc Epc Eheld.
  intros Hx Hf Ht Hl Hn Hcp Hci. split.
  - intros x E c' Hc'. destruct (Hf x E) as [F1 F2]. destruct (decide (c' = c)) as [->|Hne].
    + by rewrite owns_self.
    + rewrite owns_other by done. by apply F2.
  - intros x E. destruct (Ht x E) as [T1 T2]. split; [done|]. destruct T2 as [T2|(c' & A1 & A2 & A3)].
    + exists c. by rewrite owns_self.
    + exists c'. by rewrite owns_other.
  - intros x c1 c2 H1 H2 O1 O2. destruct (decide (c1 = c)) as [->|N1], (decide (c2 = c)) as [->|N2]; [done| | |].
    + rewrite owns_self in O1. rewrite owns_other in O2 by done. by destruct (Hx x O1 c2).
    + rewrite owns_self in O2. rewrite owns_other in O1 by done. by destruct (Hx x O2 c1).
    + rewrite owns_other in O1, O2 by done. by eapply (li_excl _ Hi).
  - intros x c' Hc'. rewrite Hl by done. destruct (decide (c' = c)) as [->|Hne].
    + unfold recorded. by rewrite Epc, Eheld, !fupd_eq.
    + by rewrite recorded_other.
  - intros c' Hc'. rewrite Epc, Eheld. destruct (decide (c' = c)) as [->|Hne]; [by rewrite !fupd_eq|].
    rewrite !fupd_ne by done. by apply (li_nodup _ Hi).
  - intros c' Hc'. destruct (decide (c' = c)) as [->|Hne]; [done|].
    destruct (li_cpus _ Hi c' Hc') as (A1 & A2 & A3). destruct (Hcp c' Hc' Hne) as [E1 E2].
    unfold cpu_inv. rewrite E1, E2, Epc, Eheld, !fupd_ne by done. done.
Qed.

(** Steps that leave the locks as they are. *)
Lemma lock_inv_same :
  locks (st k') = locks (st k) -> h' = held k c -> (forall x, taking q' x = taking (pcs k c) x) ->
  (forall x, q' = RelClear x <-> pcs k c = RelClear x) ->
  (forall c', is_cpu c' -> c' <> c -> cpus (st k') c' = cpus (st k) c' /\ pushed k' c' = pushed k c') ->
  cpu_inv k' c -> lock_inv k'.
Proof using Hi Hc Epc Eheld.
  intros El Eh Et Er Hcp Hci.
  assert (forall x, mine x <-> owns k c x) as Hm by (intros x; unfold mine, owns; by rewrite Eh, Et).
  apply lock_inv_step; [..|done|done].
  - intros x Hx c' Hc' Hne Ho. apply Hne. symmetry. apply (li_excl _ Hi x); (done || by apply Hm).
  - intros x E. rewrite El in E. split; [rewrite Hm; by apply (li_free _ Hi)|]. intros; by apply (li_free _ Hi).
  - intros x E. rewrite El in *. destruct (li_taken _ Hi x E) as (E1 & c' & Hc' & Ho). split; [done|].
    destruct (decide (c' = c)) as [->|Hne]; [left; by apply Hm|right; by exists c'].
  - intros x c' Hc'. rewrite El, (li_cpu _ Hi) by done. destruct (decide (c' = c)) as [->|Hne]; [|done].
    unfold recorded. by rewrite Eh, Er.
  - destruct (li_nodup _ Hi c Hc) as [N1 N2]. rewrite Eh. split; [done|]. intros x. rewrite Et. apply N2.
Qed.
End cpu_step.

Lemma noff_range k c : lock_inv k -> is_cpu c -> pcs k c <> Dead -> 0 <= noff (cpus (st k) c).
Proof.
  intros Hi Hc Hd. destruct (li_cpus _ Hi c Hc) as (A1 & A2 & _). rewrite A1 by done.
  assert (0 <= entered (pcs k c)) by (destruct (pcs k c); cbn; lia). lia.
Qed.

Lemma on_cpu_other (f : cpu -> cpu) c c' (s : smp) : c' <> c -> fupd (cpus s) c (f (cpus s c)) c' = cpus s c'.
Proof. intros. by rewrite fupd_ne. Qed.

(** One memory access of CPU [c]. *)
Section advancing.
Context (k : conf) (c : Z).
Hypothesis Hi : lock_inv k.
Hypothesis Hc : is_cpu c.
Hypothesis Hdead : pcs k c <> Dead.

Definition after (q : pc) (h : list Z) (s : smp) : conf :=
  Conf s (fupd (pcs k) c q) (fupd (held k) c h) (pushed k).

Lemma after_cpu q h s : cpus s = cpus (st k) ->
  entered q + Z.of_nat (length h) = entered (pcs k c) + Z.of_nat (length (held k c)) ->
  cpu_inv (after q h s) c.
Proof using Hi Hc Hdead.
  intros Es Eq. destruct (li_cpus _ Hi c Hc) as (C1 & C2 & C3). specialize (C1 Hdead).
  unfold cpu_inv, after. cbn. rewrite !fupd_eq, Es. split; [intros _; lia|done].
Qed.

(** A read. *)
Lemma read_step q : (forall x, taking q x = taking (pcs k c) x) -> (forall x, q = RelClear x <-> pcs k c = RelClear x) ->
  entered q = entered (pcs k c) -> lock_inv (after q (held k c) (st k)).
Proof using Hi Hc Hdead.
  intros T1 T2 T3. eapply (lock_inv_same k _ c q (held k c)); try done. apply after_cpu; [done|lia].
Qed.

(** A store that changes neither who owns which lock nor lk->locked. *)
Lemma keep_step q h s : cpus s = cpus (st k) -> (forall x, locked (locks s x) = locked (locks (st k) x)) ->
  (forall x, owns k c x <-> x ∈ h \/ taking q x = true) ->
  (forall x c', is_cpu c' -> lcpu (locks s x) = c' <->
     if decide (c' = c) then x ∈ h \/ q = RelClear x else recorded k c' x) ->
  NoDup h /\ (forall x, taking q x = true -> x ∉ h) ->
  entered q + Z.of_nat (length h) = entered (pcs k c) + Z.of_nat (length (held k c)) ->
  lock_inv (after q h s).
Proof using Hi Hc Hdead.
  intros Es Hlk Hown Hcpu Hn Hlen.
  eapply (lock_inv_step k _ c q h); try done; cbn [after st locks pcs held pushed].
  - intros x Hx c' Hc' Hne Ho. apply Hne. symmetry. apply (li_excl _ Hi x); try done. by apply Hown.
  - intros x Ex. rewrite Hlk in Ex. split; [rewrite <- Hown|intros ? ? ?]; by apply (li_free _ Hi).
  - intros x Ex. rewrite Hlk in *. destruct (li_taken _ Hi x Ex) as (E1 & c' & Hc' & Ho). split; [done|].
    destruct (decide (c' = c)) as [->|Hne]; [left; by apply Hown|right; by exists c'].
  - intros c' Hc' Hne. by rewrite Es.
  - by apply after_cpu.
Qed.

(** The exchange that finds the lock free. *)
Lemma take_step lk : pcs k c = Spin lk -> locked (locks (st k) lk) = 0 ->
  lock_inv (after (Got lk) (held k c) (Smp (fupd (locks (st k)) lk (Spinlock 1 (lcpu (locks (st k) lk)))) (cpus (st k)))).
Proof using Hi Hc Hdead.
  intros Eq El. assert (forall x, taking (Got lk) x = true <-> x = lk) as Htk.
  { intros x. cbn. rewrite Z.eqb_eq. by split. }
  eapply (lock_inv_step k _ c (Got lk) (held k c)); try done; cbn [after st locks pcs held].
  - intros x [Hx|Hx] c' Hc' Hne Ho.
    + apply Hne. symmetry. apply (li_excl _ Hi x); try done. by left.
    + apply Htk in Hx as ->. by apply (li_free _ Hi lk El c').
  - intros x Ex. destruct (decide (x = lk)) as [->|Hd]; [by rewrite fupd_eq in Ex|].
    rewrite fupd_ne in Ex by done. split; [|intros; by apply (li_free _ Hi)].
    intros [Hx|Hx]; [apply (li_free _ Hi x Ex c Hc); by left|]. by apply Htk in Hx.
  - intros x Ex. destruct (decide (x = lk)) as [->|Hd].
    { rewrite fupd_eq. split; [done|]. left. right. by apply Htk. }
    rewrite fupd_ne in * by done. destruct (li_taken _ Hi x Ex) as (E1 & c' & Hc' & Ho). split; [done|].
    destruct (decide (c' = c)) as [->|Hne]; [|right; by exists c'].
    left. destruct Ho as [Ho|Ho]; [by left|by rewrite Eq in Ho].
  - intros x c' Hc'.
    assert (lcpu (fupd (locks (st k)) lk (Spinlock 1 (lcpu (locks (st k) lk))) x) = lcpu (locks (st k) x)) as ->.
    { destruct (decide (x = lk)) as [->|Hd]; [by rewrite fupd_eq|by rewrite fupd_ne]. }
    rewrite (li_cpu _ Hi) by done. destruct (decide (c' = c)) as [->|Hne]; [|done].
    unfold recorded. rewrite Eq. split; intros [?|?]; (done || by left).
  - destruct (li_nodup _ Hi c Hc) as [N1 _]. split; [done|]. intros x Hx Hin. apply Htk in Hx as ->.
    apply (li_free _ Hi lk El c Hc). by left.
  - apply after_cpu; [done|]. by rewrite Eq.
Qed.

(** The store of 0 at the end of release. *)
Lemma free_step lk : pcs k c = RelStore lk ->
  lock_inv (after RelPop (held k c) (Smp (fupd (locks (st k)) lk (Spinlock 0 (lcpu (locks (st k) lk)))) (cpus (st k)))).
Proof using Hi Hc Hdead.
  intros Eq. assert (owns k c lk) as Hown by (right; rewrite Eq; cbn; by rewrite Z.eqb_refl).
  assert (lk ∉ held k c) as Hnin by (apply (li_nodup _ Hi c Hc); rewrite Eq; cbn; by rewrite Z.eqb_refl).
  eapply (lock_inv_step k _ c RelPop (held k c)); try done; cbn [after st locks pcs held].
  - intros x [Hx|Hx] c' Hc' Hne Ho; [|done]. apply Hne. symmetry. apply (li_excl _ Hi x); try done. by left.
  - intros x Ex. destruct (decide (x = lk)) as [->|Hd].
    + split; [by intros [?|?]|]. intros c' Hc' Hne Ho. apply Hne. by apply (li_excl _ Hi lk).
    + rewrite fupd_ne in Ex by done. split; [|intros; by apply (li_free _ Hi)].
      intros [Hx|Hx]; [|done]. apply (li_free _ Hi x Ex c Hc). by left.
  - intros x Ex. destruct (decide (x = lk)) as [->|Hd]; [by rewrite fupd_eq in Ex|].
    rewrite fupd_ne in * by done. destruct (li_taken _ Hi x Ex) as (E1 & c' & Hc' & Ho). split; [done|].
    destruct (decide (c' = c)) as [->|Hne]; [|right; by exists c'].
    left. destruct Ho as [Ho|Ho]; [by left|]. rewrite Eq in Ho. cbn in Ho. by apply Z.eqb_eq in Ho.
  - intros x c' Hc'.
    assert (lcpu (fupd (locks (st k)) lk (Spinlock 0 (lcpu (locks (st k) lk))) x) = lcpu (locks (st k) x)) as ->.
    { destruct (decide (x = lk)) as [->|Hd]; [by rewrite fupd_eq|by rewrite fupd_ne]. }
    rewrite (li_cpu _ Hi) by done. destruct (decide (c' = c)) as [->|Hne]; [|done].
    unfold recorded. rewrite Eq. split; intros [?|?]; (done || by left).
  - split; [by apply (li_nodup _ Hi)|done].
  - apply after_cpu; [done|]. by rewrite Eq.
Qed.

(** lk->cpu = mycpu() at the end of acquire *)
Lemma record_step lk : pcs k c = Got lk ->
  lock_inv (after Idle (lk :: held k c) (Smp (fupd (locks (st k)) lk (Spinlock (locked (locks (st k) lk)) c)) (cpus (st k)))).
Proof using Hi Hc Hdead.
  intros Eq. destruct (li_nodup _ Hi c Hc) as [N1 N2].
  assert (lk ∉ held k c) as Hnin by (apply N2; rewrite Eq; cbn; by rewrite Z.eqb_refl).
  assert (owns k c lk) as Ho by (right; rewrite Eq; cbn; by rewrite Z.eqb_refl).
  apply keep_step; cbn [locks].
  - done.
  - intros x. destruct (decide (x = lk)) as [->|Hd]; [by rewrite fupd_eq|by rewrite fupd_ne].
  - intros x. unfold owns. rewrite Eq, elem_of_cons. cbn. rewrite Z.eqb_eq.
    split; [intros [?|?]; [by left; right|left; by left]|intros [[?|?]|?]; [by right|by left|done]].
  - intros x c' Hc'. destruct (decide (x = lk)) as [->|Hd].
    + rewrite fupd_eq. cbn [lcpu]. destruct (decide (c' = c)) as [->|Hne].
      { split; [|done]. intros _. left. by left. }
      split; [congruence|]. intros Hr. exfalso. apply Hne. apply (li_excl _ Hi lk); try done.
      destruct Hr as [?|Hr]; [by left|right; rewrite Hr; cbn; by rewrite Z.eqb_refl].
    + rewrite fupd_ne by done. rewrite (li_cpu _ Hi) by done. destruct (decide (c' = c)) as [->|Hne]; [|done].
      unfold recorded. rewrite Eq, elem_of_cons. split; [intros [?|?]; [by left; right|done]|].
      intros [[?|?]|?]; [done|by left|done].
  - split; [by constructor|done].
  - rewrite Eq. cbn. lia.
Qed.

(** release has passed its test *)
Lemma claim_step lk : pcs k c = RelTestCpu lk -> lcpu (locks (st k) lk) = c ->
  lock_inv (after (RelClear lk) (filter (fun x => x <> lk) (held k c)) (st k)).
Proof using Hi Hc Hdead.
  intros Eq El. apply (li_cpu _ Hi lk c Hc) in El as [Hin|?]; [|congruence].
  destruct (li_nodup _ Hi c Hc) as [N1 N2].
  assert (forall x, x ∈ held k c <-> x ∈ filter (fun x => x <> lk) (held k c) \/ x = lk) as Hf.
  { intros x. rewrite list_elem_of_filter. destruct (decide (x = lk)) as [->|Hd]; tauto. }
  apply keep_step.
  - done.
  - done.
  - intros x. unfold owns. rewrite Eq, Hf. cbn. rewrite Z.eqb_eq. split.
    + intros [[?|?]|?]; [by left|by right|done].
    + intros [?|?]; left; [by left|by right].
  - intros x c' Hc'. rewrite (li_cpu _ Hi) by done. destruct (decide (c' = c)) as [->|Hne]; [|done].
    unfold recorded. rewrite Eq, Hf. split.
    + intros [[?| ->]|?]; [by left|by right|done].
    + intros [?|E]; left; [by left|right]. by injection E as <-.
  - split; [by apply NoDup_filter|]. intros x Hx. cbn in Hx. apply Z.eqb_eq in Hx as ->.
    rewrite list_elem_of_filter. tauto.
  - rewrite Eq. cbn [entered]. enough (length (held k c) = S (length (filter (fun x => x <> lk) (held k c)))) by lia.
    clear - Hin N1. induction (held k c) as [|y l IH]; [by apply elem_of_nil in Hin|].
    apply NoDup_cons in N1 as [Ny N1]. rewrite filter_cons. apply elem_of_cons in Hin as [<-|Hin].
    + rewrite decide_False by tauto. cbn. f_equal. clear IH. induction l as [|z l IH]; [done|].
      apply not_elem_of_cons in Ny as [? Ny]. rewrite filter_cons, decide_True by congruence. cbn. f_equal.
      apply IH; [done|]. by apply NoDup_cons in N1 as [_ ?].
    + rewrite decide_True by congruence. cbn. f_equal. by apply IH.
Qed.

(** lk->cpu = 0 in release *)
Lemma clear_step lk : pcs k c = RelClear lk ->
  lock_inv (after (RelStore lk) (held k c) (Smp (fupd (locks (st k)) lk (Spinlock (locked (locks (st k) lk)) NOCPU)) (cpus (st k)))).
Proof using Hi Hc Hdead.
  intros Eq. destruct (li_nodup _ Hi c Hc) as [N1 N2].
  assert (lk ∉ held k c) as Hnin by (apply N2; rewrite Eq; cbn; by rewrite Z.eqb_refl).
  assert (owns k c lk) as Ho by (right; rewrite Eq; cbn; by rewrite Z.eqb_refl).
  apply keep_step; cbn [locks].
  - done.
  - intros x. destruct (decide (x = lk)) as [->|Hd]; [by rewrite fupd_eq|by rewrite fupd_ne].
  - intros x. unfold owns. by rewrite Eq.
  - intros x c' Hc'. destruct (decide (x = lk)) as [->|Hd].
    + rewrite fupd_eq. cbn [lcpu]. split; [unfold is_cpu, NOCPU in *; lia|].
      destruct (decide (c' = c)) as [->|Hne]; [by intros [?|?]|]. intros Hr. exfalso. apply Hne.
      apply (li_excl _ Hi lk); try done.
      destruct Hr as [?|Hr]; [by left|right; rewrite Hr; cbn; by rewrite Z.eqb_refl].
    + rewrite fupd_ne by done. rewrite (li_cpu _ Hi) by done. destruct (decide (c' = c)) as [->|Hne]; [|done].
      unfold recorded. rewrite Eq. split; [intros [?|E]; [by left|by injection E as <-]|intros [?|?]; [by left|done]].
  - split; [done|]. intros x Hx. apply N2. by rewrite Eq.
  - by rewrite Eq.
Qed.

Lemma advance_inv q' s' : pcs k c <> Idle -> advance c (pcs k c) (st k) = Ret q' s' ->
  lock_inv (after q' (held_after (pcs k c) q' (held k c)) s').
Proof using Hi Hc Hdead.
  intros Hidle E. assert (exists q, pcs k c = q) as [q Eq] by eauto. rewrite Eq in Hidle, E |- *.
  destruct q as [|lk|lk|lk|lk|lk|lk|lk|lk| |]; try done; cbn [advance] in E.
  - cbn in E. injection E as <- <-. cbn [held_after]. destruct (locked _ =? 0); apply read_step; rewrite ?Eq; try done.
  - cbn in E. destruct (lcpu (locks (st k) lk) =? c); [done|]. injection E as <- <-.
    apply read_step; by rewrite ?Eq.
  - injection E as <- <-. destruct (Z.eqb_spec (locked (locks (st k) lk)) 0) as [El|El]; cbn [held_after].
    + by apply take_step.
    + destruct (li_taken _ Hi lk El) as [E1 _].
      assert (Smp (fupd (locks (st k)) lk (Spinlock 1 (lcpu (locks (st k) lk)))) (cpus (st k)) = st k) as ->.
      { rewrite <- E1. destruct (st k) as [ls cs]. cbn. f_equal. etransitivity; [|apply (fupd_id ls lk)].
        f_equal. by destruct (ls lk). }
      apply read_step; by rewrite ?Eq.
  - injection E as <- <-. by apply record_step.
  - cbn in E. destruct (locked (locks (st k) lk) =? 0); [done|]. injection E as <- <-.
    apply read_step; by rewrite ?Eq.
  - cbn in E. destruct (Z.eqb_spec (lcpu (locks (st k) lk)) c) as [El|El]; [|done].
    injection E as <- <-. by apply claim_step.
  - injection E as <- <-. by apply clear_step.
  - injection E as <- <-. by apply free_step.
  - pose proof (noff_range k c Hi Hc Hdead) as Hn. destruct (li_cpus _ Hi c Hc) as (C1 & C2 & C3).
    specialize (C1 Hdead). rewrite Eq in C1. cbn in C1.
    rewrite (bind_step _ _ _ _ _ (pop_off_run c (st k) ltac:(lia) ltac:(apply C3; lia))) in E.
    injection E as <- <-. cbn [held_after].
    eapply (lock_inv_same k _ c Idle (held k c)); try done; rewrite ?Eq; try done.
    + intros c' Hc' Hne. cbn. by rewrite fupd_ne.
    + unfold cpu_inv, after. cbn. rewrite !fupd_eq. cbn. split; [intros _; lia|]. split; [done|].
      intros Hz. by rewrite (proj2 (Z.eqb_neq _ 1)) by lia.
Qed.
End advancing.

Lemma cstep_inv k k' : lock_inv k -> cstep k k' -> lock_inv k'.
Proof.
  intros Hi Hs. destruct Hs as [c lk k s' Hc Hq Hb E|c lk k Hc Hq|c k q' s' Hc Hq1 Hq2 E|c k e Hc E
    |c k s' Hc Hq Hb E|c k s' Hc Hq Hp E|c k b s' Hc Hn E].
  - pose proof (noff_range k c Hi Hc ltac:(congruence)) as Hn. destruct (li_cpus _ Hi c Hc) as (C1 & C2 & C3).
    rewrite push_off_run in E by (unfold NEST_MAX in Hb; lia). injection E as <-.
    eapply (lock_inv_same k _ c (AcqTest lk) (held k c)); try done; rewrite ?Hq, ?fupd_id; try done.
    + intros c' Hc' Hne. cbn. by rewrite fupd_ne.
    + unfold cpu_inv. cbn. rewrite !fupd_eq. cbn. split; [intros _; rewrite C1, Hq by congruence; cbn; lia|done].
  - eapply (lock_inv_same k _ c (RelTest lk) (held k c)); try done; rewrite ?Hq, ?fupd_id; try done.
    destruct (li_cpus _ Hi c Hc) as (C1 & C2 & C3). unfold cpu_inv. cbn. rewrite !fupd_eq.
    split; [intros _; rewrite C1, Hq by congruence; done|done].
  - by apply (advance_inv k c Hi Hc Hq2).
  - assert ((forall x, taking (pcs k c) x = false) /\ forall x, pcs k c <> RelClear x) as [T1 T2]
      by (destruct (pcs k c); by split).
    eapply (lock_inv_same k _ c Dead (held k c)); try done; rewrite ?fupd_id; try done.
    + intros x. split; [done|]. intros Hx. by destruct (T2 x).
    + destruct (li_cpus _ Hi c Hc) as (_ & C2 & C3). unfold cpu_inv. cbn. by rewrite fupd_eq.
  - pose proof (noff_range k c Hi Hc ltac:(congruence)) as Hn. destruct (li_cpus _ Hi c Hc) as (C1 & C2 & C3).
    rewrite push_off_run in E by (unfold NEST_MAX in Hb; lia). injection E as <-.
    eapply (lock_inv_same k _ c (pcs k c) (held k c)); try done; rewrite ?fupd_id; try done.
    + intros c' Hc' Hne. cbn. by rewrite !fupd_ne.
    + unfold cpu_inv. cbn. rewrite !fupd_eq. cbn. split; [intros _; rewrite C1 by congruence; lia|]. split; [lia|done].
  - pose proof (noff_range k c Hi Hc ltac:(congruence)) as Hn. destruct (li_cpus _ Hi c Hc) as (C1 & C2 & C3).
    specialize (C1 ltac:(congruence)). rewrite Hq in C1. cbn in C1.
    rewrite pop_off_run in E by (lia || (apply C3; lia)). injection E as <-.
    eapply (lock_inv_same k _ c (pcs k c) (held k c)); try done; rewrite ?fupd_id; try done.
    + intros c' Hc' Hne. cbn. by rewrite !fupd_ne.
    + unfold cpu_inv. cbn. rewrite !fupd_eq. cbn. rewrite Hq. cbn. split; [intros _; lia|]. split; [lia|].
      intros Hz. by rewrite (proj2 (Z.eqb_neq _ 1)) by lia.
  - injection E as <-. eapply (lock_inv_same k _ c (pcs k c) (held k c)); try done; rewrite ?fupd_id; try done.
    + intros c' Hc' Hne. cbn. by rewrite !fupd_ne.
    + destruct (li_cpus _ Hi c Hc) as (C1 & C2 & C3). unfold cpu_inv. cbn. rewrite !fupd_eq. by cbn.
Qed.

Lemma reachable_inv k k' : booted k -> rtc cstep k k' -> lock_inv k'.
Proof. intros Hb Hr. apply booted_inv in Hb. induction Hr; eauto using cstep_inv. Qed.

(** C5. Spin locks give mutual exclusion. Over every interleaving of the CPUs,
    at the granularity of single memory accesses: a lock is owned by at most
    one CPU; holding() tells a CPU exactly whether it holds the lock; a CPU
    that holds a lock has its interrupts off; acquire panics exactly when the
    CPU already holds the lock, and release never panics on a lock the CPU
    holds. *)
Theorem spinlock_mutual_exclusion k k' : booted k -> rtc cstep k k' ->
  (forall lk c c', is_cpu c -> is_cpu c' -> owns k' c lk -> owns k' c' lk -> c = c') /\
  (forall c lk, is_cpu c -> pcs k' c = Idle ->
     holding c lk (st k') = Ret (bool_decide (lk ∈ held k' c)) (st k')) /\
  (forall c lk, is_cpu c -> pcs k' c <> Dead -> lk ∈ held k' c -> intr (cpus (st k') c) = false) /\
  (forall c lk, is_cpu c -> pcs k' c = AcqTestCpu lk ->
     if bool_decide (lk ∈ held k' c) then advance c (pcs k' c) (st k') = Panic "acquire"
     else advance c (pcs k' c) (st k') = Ret (Spin lk) (st k')) /\
  (forall c lk, is_cpu c -> pcs k' c = RelTest lk \/ pcs k' c = RelTestCpu lk -> lk ∈ held k' c ->
     exists q, advance c (pcs k' c) (st k') = Ret q (st k')).
Proof.
  intros Hb Hr. pose proof (reachable_inv k k' Hb Hr) as Hi.
  assert (forall c lk, is_cpu c -> lk ∈ held k' c -> locked (locks (st k') lk) <> 0) as Hl.
  { intros c lk Hc Hin E. apply (li_free _ Hi lk E c Hc). by left. }
  assert (forall c lk, is_cpu c -> (forall x, pcs k' c <> RelClear x) ->
    (lcpu (locks (st k') lk) =? c) = bool_decide (lk ∈ held k' c)) as Hcpu.
  { intros c lk Hc Hq. pose proof (li_cpu _ Hi lk c Hc) as Hlc. case_bool_decide as Hin.
    - apply Z.eqb_eq, Hlc. by left.
    - apply Z.eqb_neq. intros E. apply Hlc in E as [?|E]; [done|by apply Hq in E]. }
  split; [intros; by eapply (li_excl _ Hi)|]. split; [|split; [|split]].
  - intros c lk Hc Hq. unfold holding, bind, locked_of, gets.
    destruct (Z.eqb_spec (locked (locks (st k') lk)) 0) as [El|El].
    + rewrite bool_decide_false; [done|]. intros Hin. by apply (Hl c lk).
    + cbn. rewrite Hcpu by (done || congruence). done.
  - intros c lk Hc Hd Hin. destruct (li_cpus _ Hi c Hc) as (C1 & C2 & C3). apply C3. rewrite C1 by done.
    assert (0 <= entered (pcs k' c)) by (destruct (pcs k' c); cbn; lia).
    destruct (held k' c); [by apply elem_of_nil in Hin|]. cbn. lia.
  - intros c lk Hc Hq. rewrite Hq. cbn. rewrite Hcpu by (done || congruence). by case_bool_decide.
  - intros c lk Hc [Hq|Hq] Hin; rewrite Hq; cbn.
    + rewrite (proj2 (Z.eqb_neq _ _) (Hl c lk Hc Hin)). by eexists.
    + rewrite Hcpu by (done || congruence). rewrite bool_decide_true by done. by eexists.
Qed.

(** CPU 0 and CPU 1 race for lock 7: CPU 0 wins. *)
Definition smp0 : smp := Smp (fun _ => Spinlock 0 NOCPU) (fun _ => Cpu 0 false true).
Definition race0 : conf := Conf smp0 (fun _ => Idle) (fun _ => []) (fun _ => 0).

(** A schedule: CPU c starts an acquire of lock 7, or does its next access. *)
Definition move (m : Z * bool) (k : conf) : conf :=
  let c := fst m in
  match snd m, pcs k c with
  | true, Idle =>
      match push_off c (st k) with
      | Ret _ s => Conf s (fupd (pcs k) c (AcqTest 7)) (held k) (pushed k)
      | _ => k
      end
  | false, Idle | _, Dead | true, _ => k
  | false, q =>
      match advance c q (st k) with
      | Ret q' s => Conf s (fupd (pcs k) c q') (fupd (held k) c (held_after q q' (held k c))) (pushed k)
      | _ => k
      end
  end.
Definition race (moves : list (Z * bool)) (k : conf) : conf := foldl (fun k m => move m k) k moves.
Definition race_moves : list (Z * bool) :=
  [(0, true); (1, true); (0, false); (1, false); (0, false); (1, false); (0, false); (1, false)].

Lemma move_rtc m k : is_cpu (fst m) -> noff (cpus (st k) (fst m)) < NEST_MAX -> rtc cstep k (move m k).
Proof.
  intros Hc Hn. destruct m as [c b]. unfold move. cbn [fst snd] in *. destruct b.
  - destruct (pcs k c) eqn:Eq; try done. destruct (push_off c (st k)) as [[] s|e|ch s|] eqn:E; try done.
    apply rtc_once. by apply cs_acquire.
  - destruct (pcs k c) eqn:Eq; try done; destruct (advance c _ (st k)) as [q s|e|ch s|] eqn:E; try done;
      apply rtc_once; rewrite <- Eq in *; apply cs_advance; congruence.
Qed.

Lemma race_rtc : rtc cstep race0 (race race_moves race0).
Proof.
  cbn [race race_moves foldl].
  repeat (etransitivity; [|apply move_rtc; [split; vm_compute; congruence|vm_compute; reflexivity]]). apply rtc_refl.
Qed.

Lemma spinlock_mutual_exclusion_witness : held (race race_moves race0) 0 = [7] /\
  pcs (race race_moves race0) 1 = Spin 7 /\ intr (cpus (st (race race_moves race0)) 0) = false.
Proof.
  split; [vm_compute; reflexivity|]. split; [vm_compute; reflexivity|].
  destruct (spinlock_mutual_exclusion race0 (race race_moves race0)) as (_ & _ & Hi & _); [done|exact race_rtc|].
  apply (Hi 0 7); vm_compute; [split; congruence|congruence|apply list_elem_of_here].
Defined.

Lemma push_many c n : forall i s, 1 <= noff (cpus s c) /\ noff (cpus s c) + Z.of_nat n < 2 ^ 31 -> intr (cpus s c) = false ->
  exists s', for_loop n i (fun _ => push_off c) s = Ret tt s' /\ noff (cpus s' c) = noff (cpus s c) + Z.of_nat n /\
    intr (cpus s' c) = false /\ intena (cpus s' c) = intena (cpus s c) /\
    locks s' = locks s /\ forall c', c' <> c -> cpus s' c' = cpus s c'.
Proof.
  induction n as [|n IH]; intros i s Hn Hi; cbn [for_loop].
  - exists s. repeat (split; [done || lia|]). done.
  - rewrite (bind_step _ _ _ _ _ (push_off_run c s ltac:(lia))).
    destruct (IH (i + 1) (Smp (locks s) (fupd (cpus s) c (Cpu (noff (cpus s c) + 1) (intena (cpus s c)) false))))
      as (s' & E & N & I & A & L & O); [cbn; rewrite fupd_eq; cbn; lia|cbn; by rewrite fupd_eq|].
    rewrite (proj2 (Z.eqb_neq _ 0)) by lia. exists s'. split; [exact E|]. cbn in N, A, L, O. rewrite fupd_eq in N, A.
    cbn in N, A. split; [lia|]. split; [done|]. split; [done|]. split; [done|].
    intros c' Hc'. rewrite O by done. by rewrite fupd_ne.
Qed.

(** The last pop_off restores intena. *)
Lemma pop_many c n : forall i s, noff (cpus s c) = Z.of_nat (S n) -> intr (cpus s c) = false ->
  exists s', for_loop (S n) i (fun _ => pop_off c) s = Ret tt s' /\ noff (cpus s' c) = 0 /\
    intr (cpus s' c) = intena (cpus s c) /\ locks s' = locks s /\ forall c', c' <> c -> cpus s' c' = cpus s c'.
Proof.
  induction n as [|n IH]; intros i s Hn Hi; cbn [for_loop];
    rewrite (bind_step _ _ _ _ _ (pop_off_run c s ltac:(lia) Hi)).
  - eexists. split; [reflexivity|]. cbn. rewrite !fupd_eq. cbn. rewrite Hn. cbn.
    split; [done|]. split; [done|]. split; [done|]. intros c' Hc'. by rewrite fupd_ne.
  - destruct (IH (i + 1) (Smp (locks s) (fupd (cpus s) c (Cpu (noff (cpus s c) - 1) (intena (cpus s c)) false))))
      as (s' & E & N & I & L & O); [cbn; rewrite fupd_eq; cbn; lia|cbn; by rewrite fupd_eq|].
    rewrite (proj2 (Z.eqb_neq _ 1)) by lia. cbn [andb]. exists s'. split; [exact E|]. split; [done|].
    cbn in I. rewrite fupd_eq in I. split; [done|]. split; [done|].
    intros c' Hc'. rewrite O by done. cbn. by rewrite fupd_ne.
Qed.

(** push_off and pop_off nest: n push_offs followed by n pop_offs leave the
    interrupts of the CPU as they were before the first push_off, and off in
    between; no other CPU is affected. *)
Theorem push_pop_off_nest c n s : noff (cpus s c) = 0 -> Z.of_nat n < NEST_MAX ->
  exists s1 s2, for_loop n 0 (fun _ => push_off c) s = Ret tt s1 /\
    noff (cpus s1 c) = Z.of_nat n /\ (n <> O -> intr (cpus s1 c) = false) /\
    for_loop n 0 (fun _ => pop_off c) s1 = Ret tt s2 /\
    noff (cpus s2 c) = 0 /\ intr (cpus s2 c) = intr (cpus s c) /\
    locks s2 = locks s /\ forall c', c' <> c -> cpus s2 c' = cpus s c'.
Proof.
  intros Hn Hm. destruct n as [|n].
  { exists s, s. cbn. repeat (split; [done|]). done. }
  destruct (push_many c n 1 (Smp (locks s) (fupd (cpus s) c (Cpu 1 (intr (cpus s c)) false)))) as (s1 & E1 & N1 & I1 & A1 & L1 & O1);
    [cbn; rewrite fupd_eq; cbn; unfold NEST_MAX in Hm; lia|cbn; by rewrite fupd_eq|].
  cbn in N1, A1, L1, O1. rewrite fupd_eq in N1, A1. cbn in N1, A1.
  destruct (pop_many c n 0 s1) as (s2 & E2 & N2 & I2 & L2 & O2); [lia|done|].
  exists s1, s2. split.
  { cbn [for_loop]. rewrite (bind_step _ _ _ _ _ (push_off_run c s ltac:(rewrite Hn; unfold NEST_MAX in Hm; lia))).
    rewrite Hn. exact E1. }
  split; [lia|]. split; [done|]. split; [exact E2|]. split; [done|]. split; [congruence|]. split; [congruence|].
  intros c' Hc'. rewrite O2, O1 by done. by rewrite fupd_ne.
Qed.

Lemma push_pop_off_nest_witness : exists s1 s2,
  for_loop 3 0 (fun _ => push_off 0) smp0 = Ret tt s1 /\ intr (cpus s1 0) = false /\
  for_loop 3 0 (fun _ => pop_off 0) s1 = Ret tt s2 /\ intr (cpus s2 0) = true.
Proof.
  destruct (push_pop_off_nest 0 3 smp0 eq_refl ltac:(done)) as (s1 & s2 & E1 & _ & I1 & E2 & _ & I2 & _).
  exists s1, s2. split; [exact E1|]. split; [by apply I1|]. split; [exact E2|exact I2].
Defined.
