(* ===== verification/SleepWakeup.v ===== *)
(** * sleep and wakeup: no wakeup is lost

    A process that waits for a condition in a loop
      acquire(lk); while (!cond) sleep(chan, lk); ... release(lk);
    and any number of wakers
      acquire(lk); cond = 1; wakeup(chan); release(lk);
    one lock operation or store of sleep, wakeup and scheduler (proc.c) at a
    time. [lk] is the condition lock; the process's own lock p->lock is handed
    to the scheduler by swtch and back. *)
From stdpp Require Import base list numbers strings relations.
From Stdlib Require Import ZArith Lia.
From S2P Require Import Ulib Dto Prelude Memlayout Kalloc Vm Proc.

Inductive actor := Sleeper | Waker (i : Z) | Scheduler.
#[export] Instance actor_eq_dec : EqDecision actor.
Proof. solve_decision. Defined.

(** The sleeper: acquire(lk) of the loop, its test, then the lines of sleep. *)
Inductive sleeper_pc :=
| SWant | STest | SLock | SUnlock | SChan | SState | SSched | SOut | STidy | SRelease | SRelock.
#[export] Instance sleeper_pc_eq_dec : EqDecision sleeper_pc.
Proof. solve_decision. Defined.

(** A waker: acquire(lk), cond = 1, then the body of wakeup for p, release(lk). *)
Inductive waker_pc := WWant | WSet | WLock | WWake | WUnlock | WRelease.
#[export] Instance waker_pc_eq_dec : EqDecision waker_pc.
Proof. solve_decision. Defined.

Record sw := Sw {
  cond : bool; lk : option actor; plock : option actor; pr : proc;
  spc : sleeper_pc; wpc : Z -> waker_pc;
}.

Section protocol.
Context (chan : Z).

(** [None]: the lock is taken, the step has to wait. *)
Definition sleeper_step (s : sw) : option sw :=
  match spc s with
  | SWant => match lk s with None => Some (Sw (cond s) (Some Sleeper) (plock s) (pr s) STest (wpc s)) | _ => None end
  | STest =>
      if cond s then Some (Sw false None (plock s) (pr s) SWant (wpc s))
      else Some (Sw (cond s) (lk s) (plock s) (pr s) SLock (wpc s))
  | SLock => match plock s with None => Some (Sw (cond s) (lk s) (Some Sleeper) (pr s) SUnlock (wpc s)) | _ => None end
  | SUnlock => Some (Sw (cond s) None (plock s) (pr s) SChan (wpc s))
  | SChan => Some (Sw (cond s) (lk s) (plock s) (set_chan chan (pr s)) SState (wpc s))
  | SState => Some (Sw (cond s) (lk s) (plock s) (set_state SLEEPING (pr s)) SSched (wpc s))
  | SSched => Some (Sw (cond s) (lk s) (Some Scheduler) (pr s) SOut (wpc s))
  | SOut => None
  | STidy => Some (Sw (cond s) (lk s) (plock s) (set_chan 0 (pr s)) SRelease (wpc s))
  | SRelease => Some (Sw (cond s) (lk s) None (pr s) SRelock (wpc s))
  | SRelock => match lk s with None => Some (Sw (cond s) (Some Sleeper) (plock s) (pr s) STest (wpc s)) | _ => None end
  end.

Definition waker_step (i : Z) (s : sw) : option sw :=
  match wpc s i with
  | WWant =>
      match lk s with
      | None => Some (Sw (cond s) (Some (Waker i)) (plock s) (pr s) (spc s) (fupd (wpc s) i WSet))
      | _ => None
      end
  | WSet => Some (Sw true (lk s) (plock s) (pr s) (spc s) (fupd (wpc s) i WLock))
  | WLock =>
      match plock s with
      | None => Some (Sw (cond s) (lk s) (Some (Waker i)) (pr s) (spc s) (fupd (wpc s) i WWake))
      | _ => None
      end
  | WWake => Some (Sw (cond s) (lk s) (plock s) (wake chan (pr s)) (spc s) (fupd (wpc s) i WUnlock))
  | WUnlock => Some (Sw (cond s) (lk s) None (pr s) (spc s) (fupd (wpc s) i WRelease))
  | WRelease => Some (Sw (cond s) None (plock s) (pr s) (spc s) (fupd (wpc s) i WWant))
  end.

(** The scheduler takes p->lock, switches to a RUNNABLE process that is off
    the CPU, and otherwise lets the lock go. *)
Definition sched_step (s : sw) : option sw :=
  match plock s with
  | None => Some (Sw (cond s) (lk s) (Some Scheduler) (pr s) (spc s) (wpc s))
  | Some Scheduler =>
      if bool_decide (spc s = SOut) && is_state (p_state (pr s)) RUNNABLE
      then Some (Sw (cond s) (lk s) (Some Sleeper) (set_state RUNNING (pr s)) STidy (wpc s))
      else Some (Sw (cond s) (lk s) None (pr s) (spc s) (wpc s))
  | _ => None
  end.

Inductive swstep : sw -> sw -> Prop :=
| sw_sleeper s s' : sleeper_step s = Some s' -> swstep s s'
| sw_waker i s s' : waker_step i s = Some s' -> swstep s s'
| sw_sched s s' : sched_step s = Some s' -> swstep s s'.

Definition sw_start (s : sw) : Prop :=
  lk s = None /\ plock s = None /\ p_state (pr s) = RUNNING /\ spc s = SWant /\ forall i, wpc s i = WWant.

(** Who must hold which lock where. *)
Definition sleeper_lk (q : sleeper_pc) : bool :=
  match q with STest | SLock | SUnlock => true | _ => false end.
Definition sleeper_plock (q : sleeper_pc) : bool :=
  match q with SUnlock | SChan | SState | SSched | STidy | SRelease => true | _ => false end.
Definition waker_lk (q : waker_pc) : bool := match q with WWant => false | _ => true end.
Definition waker_plock (q : waker_pc) : bool :=
  match q with WWake | WUnlock => true | _ => false end.

(** The condition has been found false and the process has not been woken. *)
Definition committed (s : sw) : bool :=
  match spc s with
  | SLock | SUnlock | SChan | SState | SSched => true
  | SOut => is_state (p_state (pr s)) SLEEPING
  | _ => false
  end.

Record sw_inv (s : sw) : Prop := {
  si_lk_s : sleeper_lk (spc s) = true <-> lk s = Some Sleeper;
  si_lk_w i : waker_lk (wpc s i) = true <-> lk s = Some (Waker i);
  si_pl_s : sleeper_plock (spc s) = true <-> plock s = Some Sleeper;
  si_pl_w i : waker_plock (wpc s i) = true <-> plock s = Some (Waker i);
  si_state : match spc s with
             | SSched => p_state (pr s) = SLEEPING /\ p_chan (pr s) = chan
             | SOut => (p_state (pr s) = SLEEPING /\ p_chan (pr s) = chan) \/ p_state (pr s) = RUNNABLE
             | SState => p_state (pr s) = RUNNING /\ p_chan (pr s) = chan
             | _ => p_state (pr s) = RUNNING
             end;
  si_lost : committed s = true -> cond s = true -> exists i, wpc s i = WLock \/ wpc s i = WWake;
}.

Lemma sw_start_inv s : sw_start s -> sw_inv s.
Proof.
  intros (E1 & E2 & E3 & E4 & E5). split; rewrite ?E1, ?E2, ?E4; try done.
  - intros i. by rewrite E5.
  - intros i. by rewrite E5.
  - unfold committed. by rewrite E4.
Qed.

(** Case analysis on the locks and tests of a step, and the easy goals. *)
Ltac sw_cases E :=
  repeat match type of E with
  | match ?o with None => _ | _ => _ end = _ => destruct o as [[| |]|] eqn:?; try discriminate E
  | (if ?b then _ else _) = _ => destruct b eqn:?
  end; try discriminate E; injection E as <-.
Ltac sw_known :=
  repeat match goal with
  | H : true = true <-> _ |- _ => apply proj1 in H; specialize (H eq_refl)
  | H : false = true <-> _ |- _ => apply proj2 in H
  end.
Ltac sw_easy :=
  cbn; try done; try congruence; try (split; (congruence || tauto)); try tauto; eauto.

Lemma sleeper_inv s s' : sw_inv s -> sleeper_step s = Some s' -> sw_inv s'.
Proof.
  intros [A1 A2 A3 A4 A5 A6] E. unfold sleeper_step in E. unfold committed in A6.
  destruct (spc s) eqn:Ep; cbn in A1, A3; sw_known; sw_cases E; split; unfold committed; cbn;
    try (intros i; rewrite ?A2, ?A4); sw_easy.
Qed.

Lemma sched_inv s s' : sw_inv s -> sched_step s = Some s' -> sw_inv s'.
Proof.
  intros [A1 A2 A3 A4 A5 A6] E. unfold sched_step in E. unfold committed in A6.
  sw_cases E; split; unfold committed; cbn; try (intros i; rewrite ?A2, ?A4); rewrite ?A3; sw_easy.
  apply andb_prop in Heqb as [Heqb _]. apply bool_decide_eq_true in Heqb. by rewrite <- A1, Heqb.
Qed.

(** A waker that has yet to wake the process, other than [i]. *)
Lemma other_waker (s : sw) i q : (exists j, wpc s j = WLock \/ wpc s j = WWake) -> wpc s i <> WLock -> wpc s i <> WWake ->
  exists j, fupd (wpc s) i q j = WLock \/ fupd (wpc s) i q j = WWake.
Proof.
  intros [j Hj] H1 H2. exists j. rewrite fupd_ne; [done|]. intros ->. by destruct Hj.
Qed.

(** While a waker holds both locks the process is either asleep or has not
    begun to sleep. *)
Lemma wake_inv i s : sw_inv s -> wpc s i = WWake ->
  (spc s = SOut \/ (committed s = false /\ p_state (pr s) = RUNNING /\ spc s <> SState /\ spc s <> SOut)).
Proof.
  intros [A1 A2 A3 A4 A5 A6] E. pose proof (proj1 (A2 i)) as B2. pose proof (proj1 (A4 i)) as B4.
  rewrite E in B2, B4. specialize (B2 eq_refl). specialize (B4 eq_refl). rewrite B2 in A1. rewrite B4 in A3.
  unfold committed. destruct (spc s); cbn in *; try (by left); try (right; split; [done|]; split; [congruence|split; congruence]).
  all: first [destruct A1 as [A1 _]; by specialize (A1 eq_refl)|destruct A3 as [A3 _]; by specialize (A3 eq_refl)].
Qed.

Lemma wake_cases (q : proc) : p_state (wake chan q) = p_state q /\ p_chan (wake chan q) = p_chan q \/
  p_state q = SLEEPING /\ p_chan q = chan /\ p_state (wake chan q) = RUNNABLE.
Proof.
  unfold wake. destruct (is_state (p_state q) SLEEPING && (p_chan q =? chan)) eqn:E; [right|by left].
  apply andb_prop in E as [E1 E2]. apply bool_decide_eq_true in E1. apply Z.eqb_eq in E2. done.
Qed.

Lemma waker_inv i s s' : sw_inv s -> waker_step i s = Some s' -> sw_inv s'.
Proof.
  intros Hi E. pose proof Hi as [A1 A2 A3 A4 A5 A6]. unfold waker_step in E. unfold committed in A6.
  pose proof (A2 i) as B2. pose proof (A4 i) as B4.
  destruct (wpc s i) eqn:Ep; cbn in B2, B4; sw_known; sw_cases E; split; unfold committed; cbn;
    try (intros j; destruct (decide (j = i)) as [->|]; [rewrite fupd_eq|rewrite fupd_ne, ?A2, ?A4 by done]);
    rewrite ?A1, ?A3; sw_easy;
    try (intros Hc1 Hc2; apply other_waker; [by apply A6|congruence|congruence]);
    try (intros _ _; exists i; rewrite fupd_eq; by auto).
  - destruct (wake_inv i s Hi Ep) as [Eo|(_ & Er & Es & Es')].
    + rewrite Eo in *. destruct (wake_cases (pr s)) as [[-> ->]|(_ & _ & ->)]; [done|by right].
    + destruct (wake_cases (pr s)) as [[-> ->]|(? & _)]; [|congruence]. by destruct (spc s).
  - destruct (wake_inv i s Hi Ep) as [Eo|(Ec & _ & _ & Es)].
    + rewrite Eo in *. intros Hs. apply bool_decide_eq_true in Hs. exfalso. unfold wake in Hs.
      destruct A5 as [[A5 A5']|A5]; rewrite A5 in Hs.
      * rewrite A5', Z.eqb_refl in Hs. change (is_state SLEEPING SLEEPING) with true in Hs. by cbn in Hs.
      * change (is_state RUNNABLE SLEEPING) with false in Hs. cbn in Hs. congruence.
    + unfold committed in Ec. destruct (spc s); congruence.
Qed.

Lemma swstep_inv s s' : sw_inv s -> swstep s s' -> sw_inv s'.
Proof.
  intros Hi Hs. destruct Hs as [s s' E|i s s' E|s s' E];
    [by eapply sleeper_inv|by eapply waker_inv|by eapply sched_inv].
Qed.

Lemma sw_reachable_inv s s' : sw_start s -> rtc swstep s s' -> sw_inv s'.
Proof. intros H0 Hr. apply sw_start_inv in H0. induction Hr; eauto using swstep_inv. Qed.

(** The steps of waker [i] up to its wakeup. *)
Lemma waker_will_wake s i : sw_inv s -> spc s = SOut -> p_state (pr s) = SLEEPING ->
  wpc s i = WLock \/ wpc s i = WWake ->
  exists s', rtc swstep s s' /\ p_state (pr s') = RUNNABLE.
Proof.
  intros Hi Eo Es Hw.
  assert (forall t, sw_inv t -> spc t = SOut -> p_state (pr t) = SLEEPING -> wpc t i = WWake ->
    exists s', rtc swstep t s' /\ p_state (pr s') = RUNNABLE) as Hlast.
  { intros t Ht Et Est Hwt. eexists. split.
    - apply rtc_once, (sw_waker i). unfold waker_step. rewrite Hwt. reflexivity.
    - cbn. pose proof (si_state _ Ht) as A5. rewrite Et in A5. destruct A5 as [[_ A5]|A5]; [|congruence].
      unfold wake. rewrite Est, A5, Z.eqb_refl. done. }
  destruct Hw as [Hw|Hw]; [|by apply Hlast].
  assert (forall t, sw_inv t -> spc t = SOut -> p_state (pr t) = SLEEPING -> wpc t i = WLock -> plock t = None ->
    exists s', rtc swstep t s' /\ p_state (pr s') = RUNNABLE) as Hfree.
  { intros t Ht Et Est Hwt Hp. pose (t' := Sw (cond t) (lk t) (Some (Waker i)) (pr t) (spc t) (fupd (wpc t) i WWake)).
    assert (swstep t t') as Hst by (apply (sw_waker i); unfold waker_step; by rewrite Hwt, Hp).
    destruct (Hlast t') as (s' & Hr & Hs'); try done; [by eapply swstep_inv|apply fupd_eq|].
    exists s'. split; [by eapply rtc_l|done]. }
  pose proof Hi as [A1 A2 A3 A4 A5 A6]. destruct (plock s) as [[| |]|] eqn:Ep.
  - rewrite Eo in A3. by destruct A3 as [_ A3]; specialize (A3 eq_refl).
  - exfalso. assert (i0 = i) as ->; [|pose proof (A4 i) as B; rewrite Hw in B; destruct B as [_ B]; by specialize (B eq_refl)].
    assert (lk s = Some (Waker i)) as L1 by (apply A2; by rewrite Hw).
    assert (lk s = Some (Waker i0)) as L2; [|congruence]. apply A2.
    pose proof (proj2 (A4 i0) eq_refl) as B. unfold waker_lk. by destruct (wpc s i0).
  - pose (t := Sw (cond s) (lk s) None (pr s) (spc s) (wpc s)).
    assert (swstep s t) as Hst.
    { apply sw_sched. unfold sched_step. rewrite Ep, Es. by rewrite andb_false_r. }
    destruct (Hfree t) as (s' & Hr & Hs'); try done; [by eapply swstep_inv|]. exists s'. split; [by eapply rtc_l|done].
  - by apply Hfree.
Qed.
End protocol.

(** C9. sleep and wakeup lose no wakeup. Over every interleaving of the sleeper,
    any number of wakers and the scheduler: if the process is asleep although
    its condition holds, then some waker holds the condition lock and is just
    before its wakeup of the process, and steps of that waker (and of the
    scheduler, if it holds the process's lock) make the process runnable; so
    with the condition lock free, a sleeping process's condition is false. *)
Theorem no_lost_wakeup (chan : Z) (s s' : sw) : sw_start s -> rtc (swstep chan) s s' ->
  spc s' = SOut -> p_state (pr s') = SLEEPING ->
  (lk s' = None -> cond s' = false) /\
  (cond s' = true -> (exists i, lk s' = Some (Waker i) /\ (wpc s' i = WLock \/ wpc s' i = WWake)) /\
     exists s'', rtc (swstep chan) s' s'' /\ p_state (pr s'') = RUNNABLE).
Proof.
  intros H0 Hr Eo Es. pose proof (sw_reachable_inv chan s s' H0 Hr) as Hi. pose proof Hi as [A1 A2 A3 A4 A5 A6].
  assert (cond s' = true -> exists i, lk s' = Some (Waker i) /\ (wpc s' i = WLock \/ wpc s' i = WWake)) as Hc.
  { intros Hc. destruct A6 as [i Hw]; [unfold committed; by rewrite Eo, Es|done|]. exists i. split; [|done].
    apply A2. by destruct Hw as [-> | ->]. }
  split.
  - intros Hl. destruct (cond s'); [|done]. destruct (Hc eq_refl) as (i & Hi' & _). congruence.
  - intros Ht. split; [by apply Hc|]. destruct (Hc Ht) as (i & _ & Hw). by eapply waker_will_wake.
Qed.

(** One waker; the process tests its condition and goes to sleep, and the
    waker has set the condition but not called wakeup yet. *)
Definition sw0 : sw :=
  Sw false None None (Proc RUNNING 0 0 0 1 NOPROC 0 0 0 0 0 0 (fun _ => NULLF) NULLF [] 0 0) SWant (fun _ => WWant).
Definition sw_move (a : actor) (s : sw) : sw :=
  default s (match a with Sleeper => sleeper_step 9 s | Waker i => waker_step 9 i s | Scheduler => sched_step s end).
Definition sw_run (l : list actor) (s : sw) : sw := foldl (fun s a => sw_move a s) s l.
Definition sw_asleep : sw :=
  sw_run [Sleeper; Sleeper; Sleeper; Sleeper; Waker 3; Sleeper; Sleeper; Waker 3; Sleeper; Scheduler] sw0.

Lemma sw_move_rtc a s : rtc (swstep 9) s (sw_move a s).
Proof.
  unfold sw_move. destruct a as [|i|].
  - destruct (sleeper_step 9 s) eqn:E; [|done]. apply rtc_once. by apply sw_sleeper.
  - destruct (waker_step 9 i s) eqn:E; [|done]. apply rtc_once. by apply (sw_waker 9 i).
  - destruct (sched_step s) eqn:E; [|done]. apply rtc_once. by apply sw_sched.
Qed.

Lemma no_lost_wakeup_witness : cond sw_asleep = true /\
  exists s'', rtc (swstep 9) sw_asleep s'' /\ p_state (pr s'') = RUNNABLE.
Proof.
  split; [vm_compute; reflexivity|].
  destruct (no_lost_wakeup 9 sw0 sw_asleep) as [_ H].
  - done.
  - unfold sw_asleep, sw_run. cbn [foldl]. repeat (etransitivity; [|apply sw_move_rtc]). apply rtc_refl.
  - vm_compute. reflexivity.
  - vm_compute. reflexivity.
  - apply H. vm_compute. reflexivity.
Defined.
