(* ===== verification/Sysfile.v ===== *)
(** * kernel/sysfile.c: the file system calls

    The calls work on the descriptors of the current process, the six argument
    registers of its trap frame, and the state of file File. Buffers on the
    kernel stack (path names, directory entries) are kernel memory at
    addresses that are arguments of the model. *)
From stdpp Require Import base list numbers strings.
From Stdlib Require Import ZArith Lia FunctionalExtensionality.
From S2P Require Import Memlayout Kalloc Proc Prelude BufCache UserMem CString Pipe Fs File.

Definition O_RDONLY : Z := 0x000.
Definition O_WRONLY : Z := 0x001.
Definition O_RDWR : Z := 0x002.
Definition O_CREATE : Z := 0x200.
Definition O_TRUNC : Z := 0x400.
Definition flag (omode f : Z) : bool := negb (Z.land omode f =? 0).

(** copyinstr(pagetable, dst + d, srcva, max): true is the result 0. *)
Class UserStr (U : Type) := { ucopyinstr : bytes -> Z -> Z -> Z -> U -> bool * bytes * U }.

(** The process making the call: p->ofile and the registers a0 .. a5. *)
Record task (U : Type) := Task { tofile : Z -> Z; targs : Z -> Z; sys : fsys U }.
Arguments Task {U}. Arguments tofile {U}. Arguments targs {U}. Arguments sys {U}.

(** Kernel addresses of the local buffers and of the constants "." and "..". *)
Record frame_addrs := Frame {
  a_path : Z; a_old : Z; a_new : Z; a_name : Z; a_de : Z; a_udir : Z; a_dot : Z; a_dotdot : Z;
}.

Section sysfile.
Context {U : Type} `{UserMem U} `{PageAlloc U} `{UserStr U}.
Context (fr : frame_addrs).
Context (sw : Z -> devsw U).
Abbreviation T := (M (task U)).

Definition set_tofile v (t : task U) : task U := Task v (targs t) (sys t).
Definition set_sys v (t : task U) : task U := Task (tofile t) (targs t) v.
Definition sys_op {A} (m : M (fsys U) A) : T A := lift sys set_sys m.
Definition tfs {A} (m : M (fstate U) A) : T A := sys_op (fs_op m).

(** syscall.c: the argument registers *)
Definition argraw (n : Z) : T Z :=
  if (0 <=? n) && (n <? 6) then gets (fun t => u64 (targs t n)) else panic "argraw".
Definition argint (n : Z) : T Z := v <- argraw n ;; ret (i32 v).
Definition argaddr (n : Z) : T Z := argraw n.
(** fetchstr into the buffer [buf] of kernel memory *)
Definition fetchstr (addr buf max : Z) : T Z :=
  ok <- tfs (fun s => let '(ok, m, u) := ucopyinstr (kmem s) buf addr max (usr s) in
                      Ret ok (set_usr u (set_kmem m s))) ;;
  if (ok : bool) then
    m <- gets (fun t => kmem (fs (sys t))) ;;
    match CString.strlen (Z.to_nat max) m buf with Some n => ret n | None => fun _ => Diverge end
  else ret (-1).
Definition argstr (n buf max : Z) : T Z := addr <- argaddr n ;; fetchstr addr buf max.

(** The descriptor and the file of argument [n]; [None] is the result -1. *)
Definition argfd (n : Z) : T (option (Z * Z)) :=
  fd <- argint n ;;
  o <- gets tofile ;;
  if (fd <? 0) || (NOFILE <=? fd) || (o fd =? NULLF) then ret None else ret (Some (fd, o fd)).

Fixpoint find_fd (n : nat) (fd : Z) (o : Z -> Z) : Z :=
  match n with
  | O => -1
  | S n' => if o fd =? NULLF then fd else find_fd n' (fd + 1) o
  end.

Definition fdalloc (f : Z) : T Z :=
  o <- gets tofile ;;
  let fd := find_fd (Z.to_nat NOFILE) 0 o in
  if fd <? 0 then ret (-1) else modify (set_tofile (fupd o fd f)) ;;; ret fd.

Definition clear_fd (fd : Z) : T unit := modify (fun t => set_tofile (fupd (tofile t) fd NULLF) t).

Definition sys_dup : T Z :=
  a <- argfd 0 ;;
  match a with
  | None => ret (-1)
  | Some (_, f) =>
      fd <- fdalloc f ;;
      if fd <? 0 then ret (-1) else sys_op (filedup f) ;;; ret fd
  end.

Definition sys_read (killed : bool) : T Z :=
  p <- argaddr 1 ;;
  n <- argint 2 ;;
  a <- argfd 0 ;;
  match a with None => ret (-1) | Some (_, f) => sys_op (fileread sw killed f p n) end.

Definition sys_write (killed : Z -> bool) (i : Z) : T Z :=
  p <- argaddr 1 ;;
  n <- argint 2 ;;
  a <- argfd 0 ;;
  match a with None => ret (-1) | Some (_, f) => sys_op (filewrite sw killed f p n i) end.

Definition sys_close : T Z :=
  a <- argfd 0 ;;
  match a with
  | None => ret (-1)
  | Some (fd, f) => clear_fd fd ;;; sys_op (fileclose f) ;;; ret 0
  end.

Definition sys_fstat : T Z :=
  st <- argaddr 1 ;;
  a <- argfd 0 ;;
  match a with None => ret (-1) | Some (_, f) => sys_op (filestat f st) end.

(** Fields of an inode the calls assign. *)
Definition with_nlink (n : Z) (ip : inode) : inode :=
  Inode (i_dev ip) (i_inum ip) (i_ref ip) (i_locked ip) (i_pid ip) (i_valid ip)
    (i_type ip) (i_major ip) (i_minor ip) (i16 n) (i_size ip) (i_addrs ip).
Definition with_numbers (major minor : Z) (ip : inode) : inode :=
  Inode (i_dev ip) (i_inum ip) (i_ref ip) (i_locked ip) (i_pid ip) (i_valid ip)
    (i_type ip) (i16 major) (i16 minor) (i_nlink ip) (i_size ip) (i_addrs ip).
Abbreviation F := (M (fstate U)).
Definition add_nlink (i d : Z) : F unit := modify (on_inode i (fun ip => with_nlink (i_nlink ip + d) ip)).

(** sys_link after the two path names have been fetched *)
Definition link : F Z :=
  begin_op_f ;;;
  ip <- namei (a_de fr) (a_name fr) (a_old fr) ;;
  if ip =? NULL then end_op_f ;;; ret (-1)
  else
    ilock ip ;;;
    x <- inode_of ip ;;
    if i_type x =? T_DIR then iunlockput ip ;;; end_op_f ;;; ret (-1)
    else
      add_nlink ip 1 ;;;
      iupdate ip ;;;
      iunlock ip ;;;
      let bad := ilock ip ;;; add_nlink ip (-1) ;;; iupdate ip ;;; iunlockput ip ;;; end_op_f ;;; ret (-1) in
      dp <- nameiparent (a_de fr) (a_new fr) (a_name fr) ;;
      if dp =? NULL then bad
      else
        ilock dp ;;;
        d <- inode_of dp ;;
        x <- inode_of ip ;;
        r <- (if negb (i_dev d =? i_dev x) then ret (-1)
              else dirlink (a_de fr) dp (a_name fr) (i_inum x)) ;;
        if r <? 0 then iunlockput dp ;;; bad
        else iunlockput dp ;;; iput ip ;;; end_op_f ;;; ret 0.

Definition sys_link : T Z :=
  r <- argstr 0 (a_old fr) MAXPATH ;;
  if r <? 0 then ret (-1)
  else
    r <- argstr 1 (a_new fr) MAXPATH ;;
    if r <? 0 then ret (-1) else tfs link.

(** The loop of isdirempty, from offset [off] *)
Fixpoint isdirempty_from (fuel : nat) (dp off : Z) : F bool :=
  match fuel with
  | O => fun _ => Diverge
  | S f =>
      ip <- inode_of dp ;;
      if off <? i_size ip then
        r <- readi dp false (a_de fr) off DIRENT_SIZE ;;
        if negb (r =? DIRENT_SIZE) then panic "isdirempty: readi"
        else
          m <- gets kmem ;;
          if negb (ld16 m (a_de fr) =? 0) then ret false else isdirempty_from f dp (off + DIRENT_SIZE)
      else ret true
  end.
Definition isdirempty (dp : Z) : F bool :=
  ip <- inode_of dp ;; isdirempty_from (dir_fuel ip) dp (2 * DIRENT_SIZE).

(** sys_unlink after the path name has been fetched *)
Definition unlink : F Z :=
  begin_op_f ;;;
  dp <- nameiparent (a_de fr) (a_path fr) (a_name fr) ;;
  if dp =? NULL then end_op_f ;;; ret (-1)
  else
    ilock dp ;;;
    let bad := iunlockput dp ;;; end_op_f ;;; ret (-1) in
    m <- gets kmem ;;
    if (namecmp m (a_name fr) (a_dot fr) =? 0) || (namecmp m (a_name fr) (a_dotdot fr) =? 0) then bad
    else
      r <- dirlookup (a_de fr) dp (a_name fr) ;;
      let '(ip, off) := r in
      if ip =? NULL then bad
      else
        ilock ip ;;;
        x <- inode_of ip ;;
        if i_nlink x <? 1 then panic "unlink: nlink < 1"
        else
          empty <- (if i_type x =? T_DIR then isdirempty ip else ret true) ;;
          if negb empty then iunlockput ip ;;; bad
          else
            modify (fun s => set_kmem (fill (kmem s) (a_udir fr) 0 DIRENT_SIZE) s) ;;;
            w <- writei dp false (a_udir fr) off DIRENT_SIZE ;;
            if negb (w =? DIRENT_SIZE) then panic "unlink: writei"
            else
              x <- inode_of ip ;;
              when (i_type x =? T_DIR) (add_nlink dp (-1) ;;; iupdate dp) ;;;
              iunlockput dp ;;;
              add_nlink ip (-1) ;;;
              iupdate ip ;;;
              iunlockput ip ;;;
              end_op_f ;;;
              ret 0.

Definition sys_unlink : T Z :=
  r <- argstr 0 (a_path fr) MAXPATH ;;
  if r <? 0 then ret (-1) else tfs unlink.

(** create: the locked inode, or NULL *)
Definition create (type major minor : Z) : F Z :=
  dp <- nameiparent (a_de fr) (a_path fr) (a_name fr) ;;
  if dp =? NULL then ret NULL
  else
    ilock dp ;;;
    r <- dirlookup (a_de fr) dp (a_name fr) ;;
    if negb (fst r =? NULL) then
      let ip := fst r in
      iunlockput dp ;;;
      ilock ip ;;;
      x <- inode_of ip ;;
      if (type =? T_FILE) && ((i_type x =? T_FILE) || (i_type x =? T_DEVICE)) then ret ip
      else iunlockput ip ;;; ret NULL
    else
      d <- inode_of dp ;;
      ip <- ialloc (i_dev d) type ;;
      if ip =? NULL then iunlockput dp ;;; ret NULL
      else
        ilock ip ;;;
        modify (on_inode ip (with_numbers major minor)) ;;;
        modify (on_inode ip (with_nlink 1)) ;;;
        iupdate ip ;;;
        x <- inode_of ip ;;
        d <- inode_of dp ;;
        r <- (if type =? T_DIR then
                r <- dirlink (a_de fr) ip (a_dot fr) (i_inum x) ;;
                if r <? 0 then ret (-1) else dirlink (a_de fr) ip (a_dotdot fr) (i_inum d)
              else ret 0) ;;
        r <- (if r <? 0 then ret (-1) else dirlink (a_de fr) dp (a_name fr) (i_inum x)) ;;
        if r <? 0 then
          modify (on_inode ip (with_nlink 0)) ;;;
          iupdate ip ;;; iunlockput ip ;;; iunlockput dp ;;; ret NULL
        else
          when (type =? T_DIR) (add_nlink dp 1 ;;; iupdate dp) ;;;
          iunlockput dp ;;;
          ret ip.

(** The inode sys_open opens, locked; NULL when it returns -1. *)
Definition open_inode (omode : Z) : F Z :=
  begin_op_f ;;;
  if flag omode O_CREATE then
    ip <- create T_FILE 0 0 ;;
    if ip =? NULL then end_op_f ;;; ret NULL else ret ip
  else
    ip <- namei (a_de fr) (a_name fr) (a_path fr) ;;
    if ip =? NULL then end_op_f ;;; ret NULL
    else
      ilock ip ;;;
      x <- inode_of ip ;;
      if (i_type x =? T_DIR) && negb (omode =? O_RDONLY) then iunlockput ip ;;; end_op_f ;;; ret NULL
      else ret ip.

Definition set_open (ip : inode) (i omode : Z) (f : file) : file :=
  let '(ty, off, major) :=
    if i_type ip =? T_DEVICE then (FD_DEVICE, f_off f, i_major ip) else (FD_INODE, 0, f_major f) in
  File ty (f_ref f) (if flag omode O_WRONLY then 0 else 1)
    (if flag omode O_WRONLY || flag omode O_RDWR then 1 else 0) (f_pipe f) i off major.

Definition sys_open : T Z :=
  omode <- argint 1 ;;
  n <- argstr 0 (a_path fr) MAXPATH ;;
  if n <? 0 then ret (-1)
  else
    ip <- tfs (open_inode omode) ;;
    if ip =? NULL then ret (-1)
    else
      x <- tfs (inode_of ip) ;;
      if (i_type x =? T_DEVICE) && ((i_major x <? 0) || (NDEV <=? i_major x)) then
        tfs (iunlockput ip ;;; end_op_f) ;;; ret (-1)
      else
        f <- sys_op filealloc ;;
        fd <- (if f =? NULLF then ret (-1) else fdalloc f) ;;
        if fd <? 0 then
          when (negb (f =? NULLF)) (sys_op (fileclose f)) ;;;
          tfs (iunlockput ip ;;; end_op_f) ;;; ret (-1)
        else
          sys_op (updf f (set_open x ip omode)) ;;;
          tfs (when (flag omode O_TRUNC && (i_type x =? T_FILE)) (itrunc ip) ;;; iunlock ip ;;; end_op_f) ;;;
          ret fd.

Definition sys_mkdir : T Z :=
  tfs begin_op_f ;;;
  n <- argstr 0 (a_path fr) MAXPATH ;;
  ip <- (if n <? 0 then ret NULL else tfs (create T_DIR 0 0)) ;;
  if ip =? NULL then tfs end_op_f ;;; ret (-1)
  else tfs (iunlockput ip ;;; end_op_f) ;;; ret 0.

Definition sys_mknod : T Z :=
  tfs begin_op_f ;;;
  major <- argint 1 ;;
  minor <- argint 2 ;;
  n <- argstr 0 (a_path fr) MAXPATH ;;
  ip <- (if n <? 0 then ret NULL else tfs (create T_DEVICE (i16 major) (i16 minor))) ;;
  if ip =? NULL then tfs end_op_f ;;; ret (-1)
  else tfs (iunlockput ip ;;; end_op_f) ;;; ret 0.

Definition set_cwd (i : Z) (s : fstate U) : fstate U :=
  FState (blocks s) (logged s) (sb s) (itable s) (kmem s) (usr s) (mypid s) i.

Definition sys_chdir : T Z :=
  tfs begin_op_f ;;;
  n <- argstr 0 (a_path fr) MAXPATH ;;
  ip <- (if n <? 0 then ret NULL else tfs (namei (a_de fr) (a_name fr) (a_path fr))) ;;
  if ip =? NULL then tfs end_op_f ;;; ret (-1)
  else
    tfs (ilock ip ;;;
         x <- inode_of ip ;;
         if negb (i_type x =? T_DIR) then iunlockput ip ;;; end_op_f ;;; ret (-1)
         else
           iunlock ip ;;;
           cwd <- gets mycwd ;;
           iput cwd ;;;
           end_op_f ;;;
           modify (set_cwd ip) ;;;
           ret 0).

(** copyout of the int [v] to [addr]; true is the result 0 *)
Definition put_int (addr v : Z) : T bool :=
  sys_op (usr_op (fun u => let '(ok, u') := copyout addr (st32 (fun _ => 0) 0 v) 0 4 u in Ret ok u')).

Definition sys_pipe : T Z :=
  fdarray <- argaddr 0 ;;
  r <- sys_op pipealloc ;;
  let '(r, rf, wf) := r in
  if r <? 0 then ret (-1)
  else
    fd0 <- fdalloc rf ;;
    fd1 <- (if fd0 <? 0 then ret (-1) else fdalloc wf) ;;
    if (fd0 <? 0) || (fd1 <? 0) then
      when (0 <=? fd0) (clear_fd fd0) ;;;
      sys_op (fileclose rf) ;;; sys_op (fileclose wf) ;;; ret (-1)
    else
      ok <- put_int fdarray fd0 ;;
      ok <- (if ok : bool then put_int (u64 (fdarray + 4)) fd1 else ret false) ;;
      if ok : bool then ret 0
      else
        clear_fd fd0 ;;; clear_fd fd1 ;;;
        sys_op (fileclose rf) ;;; sys_op (fileclose wf) ;;; ret (-1).
End sysfile.
