(* ===== verification/SysfileProps.v ===== *)
(** * File descriptors across the system calls

    Every open descriptor of the calling process owns one reference of its
    file. The system calls of sysfile.c keep this exactly: the references not
    owned by the caller's descriptors are the same before and after. *)
From stdpp Require Import base list numbers strings relations.
From Stdlib Require Import ZArith Lia FunctionalExtensionality.
From S2P Require Import Memlayout Kalloc Proc ProcFiles Prelude BufCache UserMem CString Pipe Fs File FileLayer Sysfile.

(** Descriptors of a table that refer to [f]. *)
Definition fdcount (o : Z -> Z) (f : Z) : Z := sumz (Z.to_nat NOFILE) (fun fd => if o fd =? f then 1 else 0).

Lemma fdcount_bound o f : 0 <= fdcount o f <= NOFILE.
Proof.
  pose proof (sumz_bound (Z.to_nat NOFILE) (fun fd => if o fd =? f then 1 else 0) 1) as Hb.
  change (Z.of_nat (Z.to_nat NOFILE) * 1) with NOFILE in Hb. apply Hb. intros i _. destruct (_ =? _); lia.
Qed.

Lemma fdcount_pos o fd : 0 <= fd < NOFILE -> 1 <= fdcount o (o fd).
Proof.
  intros Hfd. unfold fdcount. transitivity (if o fd =? o fd then 1 else 0); [by rewrite Z.eqb_refl|].
  apply (sumz_ge (Z.to_nat NOFILE) (fun k => if o k =? o fd then 1 else 0) fd); [exact Hfd|].
  intros; destruct (_ =? _); lia.
Qed.

Lemma fdcount_set o fd v f : 0 <= fd < NOFILE ->
  fdcount (fupd o fd v) f = fdcount o f - (if o fd =? f then 1 else 0) + (if v =? f then 1 else 0).
Proof.
  intros Hfd. unfold fdcount.
  rewrite (sumz_change (Z.to_nat NOFILE) (fun k => if o k =? f then 1 else 0) _ fd Hfd)
    by (intros k Hk; by rewrite fupd_ne).
  by rewrite fupd_eq.
Qed.

Section descriptors.
Context {U : Type} `{UserMem U} `{PageAlloc U} `{UserStr U}.
Context (fr : frame_addrs) (sw : Z -> devsw U).
Implicit Types t : task U.
Implicit Types s : fsys U.

(** Device routines leave the file table alone. *)
Definition devs_ok : Prop := forall i g, (g = d_read (sw i) \/ g = d_write (sw i)) ->
  match g with
  | None => True
  | Some m => forall a b n s r s', m a b n s = Ret r s' -> ftable s' = ftable s
  end.
Hypothesis Hdev : devs_ok.

(** References to [f] that the caller's descriptors do not own. *)
Definition others t (f : Z) : Z := file_refs (sys t) f - fdcount (tofile t) f.

(** More references than any kernel state has, and far from overflow. *)
Definition MAXREFS : Z := 2 ^ 30.

Record fd_ok t : Prop := {
  fo_refs f : f <> NULLF -> 0 <= others t f < MAXREFS;
  fo_range fd : 0 <= fd < NOFILE -> tofile t fd = NULLF \/ 0 <= tofile t fd < NFILE;
}.

(** The call returned [r]: the other references are kept, descriptors name
    table entries, and a failed call has left the descriptors alone. *)
Definition conserves t (r : Z) t' : Prop :=
  (forall f, f <> NULLF -> others t' f = others t f) /\
  (forall fd, 0 <= fd < NOFILE -> tofile t' fd = NULLF \/ 0 <= tofile t' fd < NFILE) /\
  (r = -1 -> tofile t' = tofile t).

Definition same t t' : Prop := tofile t' = tofile t /\ file_refs (sys t') = file_refs (sys t).

Lemma same_refl t : same t t.
Proof. done. Qed.
Lemma same_trans t1 t2 t3 : same t1 t2 -> same t2 t3 -> same t1 t3.
Proof. intros [? ?] [? ?]. split; congruence. Qed.

Lemma same_conserves t r t' : fd_ok t -> same t t' -> conserves t r t'.
Proof.
  intros Hok [E1 E2]. split; [|split].
  - intros f _. unfold others. by rewrite E1, E2.
  - rewrite E1. apply Hok.
  - done.
Qed.

(** Computations on the file system below keep the table. *)
Lemma tfs_same {A} (m : M (fstate U) A) t a t' : tfs m t = Ret a t' -> same t t'.
Proof.
  intros E. apply lift_Ret_inv in E as (s & E & ->). apply fs_op_ftable in E. split; [done|].
  unfold file_refs. cbn. by rewrite E.
Qed.

Lemma gets_same {A} (g : task U -> A) t a t' : gets g t = Ret a t' -> a = g t /\ t' = t.
Proof. intros E. by injection E as <- <-. Qed.

Lemma argraw_same n t a t' : argraw n t = Ret a t' -> t' = t.
Proof. unfold argraw. destruct (_ && _); [|done]. intros E. by injection E as _ <-. Qed.

Lemma argint_same n t a t' : argint n t = Ret a t' -> t' = t.
Proof.
  intros E. apply bind_Ret in E as (v & t1 & E1 & E). injection E as _ <-. by eapply argraw_same.
Qed.

Lemma argfd_spec n t a t' : argfd n t = Ret a t' -> t' = t /\
  match a with
  | None => True
  | Some (fd, f) => 0 <= fd < NOFILE /\ tofile t fd = f /\ f <> NULLF
  end.
Proof.
  intros E. apply bind_Ret in E as (fd & t1 & E1 & E). apply argint_same in E1 as ->.
  apply bind_Ret in E as (o & t1 & E1 & E). injection E1 as <- <-.
  destruct (_ || _) eqn:Eb; injection E as <- <-; [done|]. split; [done|].
  apply orb_false_elim in Eb as [Eb E3]. apply orb_false_elim in Eb as [E1 E2].
  apply Z.ltb_ge in E1. apply Z.leb_gt in E2. apply Z.eqb_neq in E3. split; [lia|]. done.
Qed.

Lemma fetchstr_same addr buf max t a t' : fetchstr addr buf max t = Ret a t' -> same t t'.
Proof.
  intros E. apply bind_Ret in E as (ok & t1 & E1 & E). apply tfs_same in E1.
  destruct ok; [|by injection E as _ <-]. apply bind_Ret in E as (m & t2 & E2 & E).
  injection E2 as <- <-. destruct (CString.strlen _ _ _); [by injection E as _ <-|done].
Qed.

Lemma argstr_same n buf max t a t' : argstr n buf max t = Ret a t' -> same t t'.
Proof.
  intros E. apply bind_Ret in E as (addr & t1 & E1 & E). apply argraw_same in E1 as ->. by eapply fetchstr_same.
Qed.

Lemma find_fd_spec n : forall fd o, 0 <= fd -> let r := find_fd n fd o in
  (r = -1 /\ forall k, fd <= k < fd + Z.of_nat n -> o k <> NULLF) \/
  (fd <= r < fd + Z.of_nat n /\ o r = NULLF /\ forall k, fd <= k < r -> o k <> NULLF).
Proof.
  induction n as [|n IH]; intros fd o Hfd; cbn; [left; split; [done|lia]|].
  destruct (Z.eqb_spec (o fd) NULLF) as [E|E].
  - right. split; [lia|]. split; [done|]. lia.
  - destruct (IH (fd + 1) o ltac:(lia)) as [[-> Hn]|(Hr & Ho & Hn)]; [left|right].
    + split; [done|]. intros k Hk. destruct (decide (k = fd)) as [->|]; [done|]. apply Hn. lia.
    + split; [lia|]. split; [done|]. intros k Hk. destruct (decide (k = fd)) as [->|]; [done|]. apply Hn. lia.
Qed.

(** fdalloc hands out the lowest free descriptor. *)
Lemma fdalloc_spec f t fd t' : fdalloc f t = Ret fd t' ->
  (fd = -1 /\ t' = t /\ forall k, 0 <= k < NOFILE -> tofile t k <> NULLF) \/
  (0 <= fd < NOFILE /\ tofile t fd = NULLF /\ t' = set_tofile (fupd (tofile t) fd f) t /\
   forall k, 0 <= k < fd -> tofile t k <> NULLF).
Proof.
  intros E. apply bind_Ret in E as (o & t1 & E1 & E). injection E1 as <- <-. cbv zeta in E.
  pose proof (find_fd_spec (Z.to_nat NOFILE) 0 (tofile t) (Z.le_refl 0)) as Hs. cbv zeta in Hs.
  change (0 + Z.of_nat (Z.to_nat NOFILE)) with NOFILE in Hs.
  set (r := find_fd (Z.to_nat NOFILE) 0 (tofile t)) in *. clearbody r.
  destruct Hs as [[-> Hn]|(Hr & Ho & Hn)].
  - injection E as <- <-. by left.
  - rewrite (proj2 (Z.ltb_ge r 0)) in E by lia. injection E as <- <-. by right.
Qed.

Lemma filedup_refs f s r s' : 1 <= file_refs s f < 2 ^ 31 - 1 -> filedup f s = Ret r s' ->
  file_refs s' = fupd (file_refs s) f (file_refs s f + 1).
Proof.
  intros Hf E. unfold filedup, bind, file_of, gets in E. unfold file_refs in Hf.
  rewrite (proj2 (Z.ltb_ge (f_ref (ftable s f)) 1)) in E by lia. injection E as _ <-.
  unfold file_refs. cbn. rewrite file_refs_upd. cbn. by rewrite swrap_small by lia.
Qed.

Lemma updf_refs f g s s' : (forall x, f_ref (g x) = f_ref x) -> updf f g s = Ret tt s' -> file_refs s' = file_refs s.
Proof.
  intros Hg E. injection E as <-. unfold file_refs. cbn. rewrite file_refs_upd, Hg. apply (fupd_id (fun x => f_ref (ftable s x))).
Qed.

Lemma fs_op_refs {A} (m : M (fstate U) A) s a s' : fs_op m s = Ret a s' -> file_refs s' = file_refs s.
Proof. intros E. unfold file_refs. by rewrite (fs_op_ftable _ _ _ _ E). Qed.

Lemma pipe_op_refs {A} a (g : Pipe.pstate U -> A * Pipe.pstate U) s r s' : pipe_op a g s = Ret r s' -> file_refs s' = file_refs s.
Proof.
  intros E. unfold pipe_op in E. apply bind_Ret in E as (s0 & s1 & E0 & E). injection E0 as <- <-.
  destruct (g _) as [r' t']. by injection E as _ <-.
Qed.

Lemma pipe_result_refs a x s r s' : pipe_result a x s = Ret r s' -> s' = s.
Proof. destruct x; cbn; intros E; [by injection E as _ <-|done]. Qed.

Lemma fileread_refs killed f addr n s r s' : fileread sw killed f addr n s = Ret r s' -> file_refs s' = file_refs s.
Proof using Hdev.
  intros E. unfold fileread in E. apply bind_Ret in E as (x & s1 & E1 & E). injection E1 as <- <-.
  destruct (f_readable (ftable s f) =? 0); [by injection E as _ <-|]. destruct (f_type (ftable s f)); [done| | |].
  - apply bind_Ret in E as (y & s1 & E1 & E). apply pipe_result_refs in E as ->. by eapply pipe_op_refs.
  - apply bind_Ret in E as ([] & s1 & E1 & E). apply fs_op_refs in E1. apply bind_Ret in E as (y & s2 & E2 & E).
    apply fs_op_refs in E2. apply bind_Ret in E as ([] & s3 & E3 & E).
    assert (file_refs s3 = file_refs s2) as E3'.
    { unfold when in E3. destruct (0 <? i32 y); [by refine (updf_refs f _ _ _ _ E3)|by injection E3 as <-]. }
    apply bind_Ret in E as ([] & s4 & E4 & E). apply fs_op_refs in E4. injection E as _ <-. congruence.
  - unfold dev_of in E. destruct (_ || _); [by injection E as _ <-|].
    pose proof (Hdev (f_major (ftable s f)) _ (or_introl eq_refl)) as Hd.
    destruct (d_read (sw (f_major (ftable s f)))); [|by injection E as _ <-].
    apply Hd in E. unfold file_refs. by rewrite E.
Qed.

Lemma filewrite_body_refs f addr n i s r s' : filewrite_body f addr n i s = Ret r s' -> file_refs s' = file_refs s.
Proof.
  intros E. unfold filewrite_body in E. destruct (i <? n); [|by injection E as _ <-]. cbv zeta in E.
  apply bind_Ret in E as (x & s1 & E1 & E). injection E1 as <- <-.
  apply bind_Ret in E as ([] & s1 & E1 & E). apply fs_op_refs in E1. apply bind_Ret in E as (y & s2 & E2 & E).
  apply fs_op_refs in E2. apply bind_Ret in E as ([] & s3 & E3 & E).
  assert (file_refs s3 = file_refs s2) as E3'.
  { unfold when in E3. destruct (0 <? y); [by refine (updf_refs f _ _ _ _ E3)|by injection E3 as <-]. }
  apply bind_Ret in E as ([] & s4 & E4 & E). apply fs_op_refs in E4.
  destruct (negb _); injection E as _ <-; congruence.
Qed.

Lemma filewrite_refs killed f addr n i s r s' : filewrite sw killed f addr n i s = Ret r s' -> file_refs s' = file_refs s.
Proof using Hdev.
  intros E. unfold filewrite in E. apply bind_Ret in E as (x & s1 & E1 & E). injection E1 as <- <-.
  destruct (f_writable (ftable s f) =? 0); [by injection E as _ <-|]. destruct (f_type (ftable s f)); [done| | |].
  - apply bind_Ret in E as (y & s1 & E1 & E). apply pipe_result_refs in E as ->. by eapply pipe_op_refs.
  - apply bind_Ret in E as (y & s1 & E1 & E). injection E as _ <-. revert E1.
    generalize (filewrite_fuel n) 0 s. intros k. induction k as [|k IH]; intros j s0 E1; [done|].
    cbn in E1. apply bind_Ret in E1 as (z & s2 & E2 & E1). apply filewrite_body_refs in E2.
    destruct z; [apply IH in E1; congruence|injection E1 as _ <-; done].
  - unfold dev_of in E. destruct (_ || _); [by injection E as _ <-|].
    pose proof (Hdev (f_major (ftable s f)) _ (or_intror eq_refl)) as Hd.
    destruct (d_write (sw (f_major (ftable s f)))); [|by injection E as _ <-].
    apply Hd in E. unfold file_refs. by rewrite E.
Qed.

Lemma filestat_refs f addr s r s' : filestat f addr s = Ret r s' -> file_refs s' = file_refs s.
Proof.
  intros E. unfold filestat in E. apply bind_Ret in E as (x & s1 & E1 & E). injection E1 as <- <-.
  destruct (_ || _); [|by injection E as _ <-]. apply bind_Ret in E as (y & s1 & E1 & E). apply fs_op_refs in E1.
  apply bind_Ret in E as (ok & s2 & E2 & E). apply fs_op_refs in E2. injection E as _ <-. congruence.
Qed.

Lemma find_closed_spec n : forall f tb, 0 <= f -> let r := find_closed n f tb in
  r = NULLF \/ (f <= r < f + Z.of_nat n /\ f_ref (tb r) = 0).
Proof.
  induction n as [|n IH]; intros f tb Hf; cbn; [by left|].
  destruct (Z.eqb_spec (f_ref (tb f)) 0) as [E|E]; [right; split; [lia|done]|].
  destruct (IH (f + 1) tb ltac:(lia)) as [?|[? ?]]; [by left|right; split; [lia|done]].
Qed.

Lemma filealloc_spec s f s' : filealloc s = Ret f s' ->
  (f = NULLF /\ s' = s) \/
  (0 <= f < NFILE /\ file_refs s f = 0 /\ file_refs s' = fupd (file_refs s) f 1).
Proof.
  intros E. apply bind_Ret in E as (tb & s1 & E1 & E). injection E1 as <- <-. cbv zeta in E.
  destruct (find_closed_spec (Z.to_nat NFILE) 0 (ftable s) (Z.le_refl 0)) as [Hf|[Hf Hz]].
  - rewrite Hf in E. injection E as <- <-. by left.
  - set (g := find_closed (Z.to_nat NFILE) 0 (ftable s)) in *. clearbody g.
    change (0 + Z.of_nat (Z.to_nat NFILE)) with NFILE in Hf.
    rewrite (proj2 (Z.eqb_neq g NULLF)) in E by (unfold NULLF; lia). injection E as <- <-. right.
    split; [done|]. split; [done|]. unfold file_refs. cbn. by rewrite file_refs_upd.
Qed.

(** An open descriptor owns a reference. *)
Lemma open_ref t fd : fd_ok t -> 0 <= fd < NOFILE -> tofile t fd <> NULLF ->
  1 <= file_refs (sys t) (tofile t fd) < 2 ^ 31 - 1.
Proof.
  intros Hok Hfd Hn. pose proof (fo_refs _ Hok _ Hn) as Ho. unfold others, MAXREFS in Ho.
  pose proof (fdcount_pos (tofile t) fd Hfd). pose proof (fdcount_bound (tofile t) (tofile t fd)).
  unfold NOFILE in *. change (2 ^ 31) with 2147483648. change (2 ^ 30) with 1073741824 in Ho. lia.
Qed.

(** Storing a file in a free descriptor, or clearing one, moves one reference. *)
Lemma others_assign t fd v refs' t' g : 0 <= fd < NOFILE -> g <> NULLF ->
  tofile t' = fupd (tofile t) fd v -> file_refs (sys t') = refs' ->
  others t' g = refs' g - file_refs (sys t) g + others t g +
    (if tofile t fd =? g then 1 else 0) - (if v =? g then 1 else 0).
Proof. intros Hfd Hg E1 E2. unfold others. rewrite E1, E2, fdcount_set by done. lia. Qed.

Lemma range_assign t fd v : (forall k, 0 <= k < NOFILE -> tofile t k = NULLF \/ 0 <= tofile t k < NFILE) ->
  v = NULLF \/ 0 <= v < NFILE ->
  forall k, 0 <= k < NOFILE -> fupd (tofile t) fd v k = NULLF \/ 0 <= fupd (tofile t) fd v k < NFILE.
Proof.
  intros Hr Hv k Hk. destruct (decide (k = fd)) as [->|Hne]; [by rewrite fupd_eq|rewrite fupd_ne by done; by apply Hr].
Qed.

Ltac eqb_cases := repeat match goal with |- context [?a =? ?b] => destruct (Z.eqb_spec a b) end.

Lemma sys_dup_conserves t r t' : fd_ok t -> sys_dup t = Ret r t' -> conserves t r t'.
Proof.
  intros Hok E. apply bind_Ret in E as (a & t1 & E1 & E). apply argfd_spec in E1 as [-> Ha].
  destruct a as [[fd f]|]; [|injection E as <- <-; by apply same_conserves].
  destruct Ha as (Hfd & Ef & Hn). apply bind_Ret in E as (fd' & t1 & E1 & E).
  apply fdalloc_spec in E1 as [(-> & -> & _)|(Hfd' & Ez & -> & _)]; [injection E as <- <-; by apply same_conserves|].
  rewrite (proj2 (Z.ltb_ge fd' 0)) in E by lia. apply bind_Ret in E as (x & t2 & E2 & E). injection E as <- <-.
  apply lift_Ret_inv in E2 as (s2 & E2 & ->). cbn in E2. subst f.
  apply filedup_refs in E2; [|by apply open_ref]. split; [|split].
  - intros g Hg. rewrite (others_assign t fd' (tofile t fd) (file_refs s2) _ g) by done. rewrite E2, Ez.
    rewrite (proj2 (Z.eqb_neq NULLF g)) by done.
    destruct (Z.eqb_spec (tofile t fd) g) as [<-|Hd]; [rewrite fupd_eq|rewrite fupd_ne by done]; lia.
  - apply range_assign; [apply Hok|]. destruct (fo_range _ Hok fd Hfd); auto.
  - lia.
Qed.

Lemma sys_close_conserves t r t' : fd_ok t -> sys_close t = Ret r t' -> conserves t r t'.
Proof.
  intros Hok E. apply bind_Ret in E as (a & t1 & E1 & E). apply argfd_spec in E1 as [-> Ha].
  destruct a as [[fd f]|]; [|injection E as <- <-; by apply same_conserves].
  destruct Ha as (Hfd & Ef & Hn). apply bind_Ret in E as ([] & t1 & E1 & E). injection E1 as <-.
  apply bind_Ret in E as ([] & t2 & E2 & E). injection E as <- <-.
  apply lift_Ret_inv in E2 as (s2 & E2 & ->). cbn in E2. subst f.
  apply fileclose_refs in E2; [|by apply open_ref]. split; [|split; [|done]].
  - intros g Hg. rewrite (others_assign t fd NULLF (file_refs s2) _ g) by done. rewrite E2.
    rewrite (proj2 (Z.eqb_neq NULLF g)) by done.
    destruct (Z.eqb_spec (tofile t fd) g) as [<-|Hd]; [rewrite fupd_eq|rewrite fupd_ne by done]; lia.
  - apply range_assign; [apply Hok|by left].
Qed.

Lemma sys_op_same {A} (m : M (fsys U) A) t a t' : (forall s a s', m s = Ret a s' -> file_refs s' = file_refs s) ->
  sys_op m t = Ret a t' -> same t t'.
Proof. intros Hm E. apply lift_Ret_inv in E as (s & E & ->). split; [done|]. by eapply Hm. Qed.

Lemma sys_read_same killed t r t' : sys_read sw killed t = Ret r t' -> same t t'.
Proof using Hdev.
  intros E. apply bind_Ret in E as (p & t1 & E1 & E). apply argraw_same in E1 as ->.
  apply bind_Ret in E as (n & t1 & E1 & E). apply argint_same in E1 as ->.
  apply bind_Ret in E as (a & t1 & E1 & E). apply argfd_spec in E1 as [-> _].
  destruct a as [[fd f]|]; [|by injection E as _ <-]. eapply sys_op_same; [|exact E].
  intros; by eapply fileread_refs.
Qed.

Lemma sys_write_same killed i t r t' : sys_write sw killed i t = Ret r t' -> same t t'.
Proof using Hdev.
  intros E. apply bind_Ret in E as (p & t1 & E1 & E). apply argraw_same in E1 as ->.
  apply bind_Ret in E as (n & t1 & E1 & E). apply argint_same in E1 as ->.
  apply bind_Ret in E as (a & t1 & E1 & E). apply argfd_spec in E1 as [-> _].
  destruct a as [[fd f]|]; [|by injection E as _ <-]. eapply sys_op_same; [|exact E].
  intros; by eapply filewrite_refs.
Qed.

Lemma sys_fstat_same t r t' : sys_fstat t = Ret r t' -> same t t'.
Proof.
  intros E. apply bind_Ret in E as (p & t1 & E1 & E). apply argraw_same in E1 as ->.
  apply bind_Ret in E as (a & t1 & E1 & E). apply argfd_spec in E1 as [-> _].
  destruct a as [[fd f]|]; [|by injection E as _ <-]. eapply sys_op_same; [|exact E].
  intros; by eapply filestat_refs.
Qed.

(** The calls that work on names keep the descriptors and the table. *)
Ltac same_steps :=
  repeat match goal with
  | E : bind _ _ _ = Ret _ _ |- _ =>
      let a := fresh "a" in let t1 := fresh "t" in let E1 := fresh "E1" in
      apply bind_Ret in E as (a & t1 & E1 & E)
  | E : argstr _ _ _ _ = Ret _ _ |- _ => apply argstr_same in E
  | E : argint _ _ = Ret _ _ |- _ => apply argint_same in E; subst
  | E : tfs _ _ = Ret _ _ |- _ => apply tfs_same in E
  | E : (if ?b then _ else _) _ = Ret _ _ |- _ => destruct b
  | E : ret _ _ = Ret _ _ |- _ => injection E; clear E; intros; subst
  end; eauto using same_refl, same_trans.

Lemma name_calls_same t r t' :
  sys_link fr t = Ret r t' \/ sys_unlink fr t = Ret r t' \/ sys_mkdir fr t = Ret r t' \/
  sys_mknod fr t = Ret r t' \/ sys_chdir fr t = Ret r t' -> same t t'.
Proof.
  intros [E|[E|[E|[E|E]]]]; [unfold sys_link in E|unfold sys_unlink in E|unfold sys_mkdir in E
    |unfold sys_mknod in E|unfold sys_chdir in E]; same_steps.
Qed.

Lemma fd_ok_same t t' : fd_ok t -> same t t' -> fd_ok t'.
Proof.
  intros [R1 R2] [E1 E2]. split.
  - intros f Hf. unfold others. rewrite E1, E2. by apply R1.
  - by rewrite E1.
Qed.

Lemma conserves_l t t1 r t' : same t t1 -> conserves t1 r t' -> conserves t r t'.
Proof.
  intros [E1 E2] (C1 & C2 & C3). split; [|split; [done|]].
  - intros f Hf. rewrite C1 by done. unfold others. by rewrite E1, E2.
  - intros Hr. rewrite C3 by done. done.
Qed.

Lemma conserves_r t r t1 t' : conserves t r t1 -> same t1 t' -> conserves t r t'.
Proof.
  intros (C1 & C2 & C3) [E1 E2]. split; [|split].
  - intros f Hf. rewrite <- C1 by done. unfold others. by rewrite E1, E2.
  - by rewrite E1.
  - intros Hr. rewrite E1. auto.
Qed.

(** A file fresh from filealloc goes into a free descriptor. *)
Lemma fresh_fd t f fd s' : fd_ok t -> 0 <= f < NFILE -> file_refs (sys t) f = 0 ->
  file_refs s' = fupd (file_refs (sys t)) f 1 -> 0 <= fd < NOFILE -> tofile t fd = NULLF ->
  conserves t fd (set_tofile (fupd (tofile t) fd f) (set_sys s' t)).
Proof.
  intros Hok Hf Hz Er Hfd Ez. split; [|split; [|lia]].
  - intros g Hg. rewrite (others_assign t fd f (file_refs s') _ g) by done. rewrite Er, Ez.
    rewrite (proj2 (Z.eqb_neq NULLF g)) by done.
    destruct (Z.eqb_spec f g) as [<-|Hd]; [rewrite fupd_eq|rewrite fupd_ne by done]; lia.
  - apply range_assign; [apply Hok|by right].
Qed.

Lemma sys_open_conserves t r t' : fd_ok t -> sys_open fr t = Ret r t' -> conserves t r t'.
Proof.
  intros Hok E. unfold sys_open in E. apply bind_Ret in E as (omode & t0 & E0 & E). apply argint_same in E0 as ->.
  apply bind_Ret in E as (n & t1 & E1 & E). apply argstr_same in E1 as S1.
  destruct (n <? 0); [injection E as <- <-; by apply same_conserves|].
  apply bind_Ret in E as (ip & t2 & E2 & E). apply tfs_same in E2. pose proof (same_trans _ _ _ S1 E2) as S2.
  destruct (ip =? NULL); [injection E as <- <-; by apply same_conserves|].
  apply bind_Ret in E as (x & t3 & E3 & E). apply tfs_same in E3. pose proof (same_trans _ _ _ S2 E3) as S3.
  destruct (_ && _).
  { apply bind_Ret in E as ([] & t4 & E4 & E). apply tfs_same in E4. injection E as <- <-.
    apply same_conserves; [done|]. by eapply same_trans. }
  apply (conserves_l _ _ _ _ S3). pose proof (fd_ok_same _ _ Hok S3) as Hok3. clear Hok S1 S2 S3 E1 E2 E3.
  apply bind_Ret in E as (f & t4 & E4 & E). apply lift_Ret_inv in E4 as (s4 & E4 & ->).
  apply bind_Ret in E as (fd & t5 & E5 & E).
  destruct (filealloc_spec _ _ _ E4) as [[-> ->]|(Hf & Hz & Hr)].
  { change (NULLF =? NULLF) with true in *. injection E5 as <- <-. cbn in E.
    apply bind_Ret in E as ([] & t7 & E7 & E). apply tfs_same in E7. injection E as <- <-.
    by apply same_conserves. }
  rewrite (proj2 (Z.eqb_neq f NULLF)) in * by (unfold NULLF; lia).
  destruct (fdalloc_spec _ _ _ _ E5) as [(-> & -> & _)|(Hfd & Ez & -> & _)].
  - cbn [Z.ltb Z.compare negb when] in E. apply bind_Ret in E as ([] & t6 & E6 & E).
    apply lift_Ret_inv in E6 as (s6 & E6 & ->). cbn in E6.
    apply fileclose_refs in E6; [|rewrite Hr, fupd_eq; lia]. apply bind_Ret in E as ([] & t7 & E7 & E).
    apply tfs_same in E7. injection E as <- <-. apply same_conserves; [done|]. eapply same_trans; [|exact E7].
    split; [done|]. cbn. rewrite E6, Hr, fupd_twice, fupd_eq. replace (1 - 1) with (file_refs (sys t3) f) by lia.
    apply fupd_id.
  - rewrite (proj2 (Z.ltb_ge fd 0)) in E by lia. apply bind_Ret in E as ([] & t6 & E6 & E).
    apply lift_Ret_inv in E6 as (s6 & E6 & ->). apply bind_Ret in E as ([] & t7 & E7 & E). apply tfs_same in E7.
    injection E as <- <-. refine (conserves_r _ _ _ _ _ E7).
    apply (fresh_fd t3 f fd s6); try done. rewrite <- Hr. cbn in E6. refine (updf_refs f _ _ _ _ E6).
    intros y. unfold set_open. by destruct (i_type x =? T_DEVICE).
Qed.

Lemma close_opened (g : Z -> Z) f : g f = 0 -> fupd (fupd g f 1) f (fupd g f 1 f - 1) = g.
Proof. intros Hz. rewrite fupd_twice, fupd_eq. replace (1 - 1) with (g f) by lia. apply fupd_id. Qed.

Lemma close_both (g : Z -> Z) f0 f1 s s1 s2 : g f0 = 0 -> g f1 = 0 -> f0 <> f1 ->
  file_refs s = fupd (fupd g f0 1) f1 1 -> fileclose f0 s = Ret tt s1 -> fileclose f1 s1 = Ret tt s2 ->
  file_refs s2 = g.
Proof.
  intros H0' H1' Hne Es E1 E2.
  apply fileclose_refs in E1; [|rewrite Es, fupd_ne, fupd_eq by done; lia].
  rewrite Es, (fupd_ne _ f1 _ f0), (fupd_comm _ f1) in E1 by done. rewrite close_opened in E1 by done.
  apply fileclose_refs in E2; [|rewrite E1, fupd_eq; lia]. rewrite E2, E1. by apply close_opened.
Qed.

Lemma pipealloc_spec s r f0 f1 s' : pipealloc s = Ret (r, f0, f1) s' ->
  (r = -1 /\ file_refs s' = file_refs s) \/
  (r = 0 /\ f0 <> f1 /\ (0 <= f0 < NFILE /\ file_refs s f0 = 0) /\ (0 <= f1 < NFILE /\ file_refs s f1 = 0) /\
   file_refs s' = fupd (fupd (file_refs s) f0 1) f1 1).
Proof.
  intros E. unfold pipealloc in E. apply bind_Ret in E as (g0 & s1 & E1 & E).
  apply bind_Ret in E as (g1 & s2 & E2 & E). apply bind_Ret in E as (pi & s3 & E3 & E).
  destruct (filealloc_spec _ _ _ E1) as [[-> ->]|(Hf0 & Hz0 & Hr0)].
  { change (NULLF =? NULLF) with true in *. injection E2 as <- <-. injection E3 as <- <-.
    injection E as <- _ _ <-. by left. }
  rewrite (proj2 (Z.eqb_neq g0 NULLF)) in * by (unfold NULLF; lia). cbn [orb negb when] in *.
  destruct (filealloc_spec _ _ _ E2) as [[-> ->]|(Hf1 & Hz1 & Hr1)].
  { change (NULLF =? NULLF) with true in *. injection E3 as <- <-. cbn [Z.eqb negb when] in E.
    apply bind_Ret in E as ([] & s4 & E4 & E). injection E as <- _ _ <-.
    apply fileclose_refs in E4; [|rewrite Hr0, fupd_eq; lia]. left. split; [done|].
    rewrite E4, Hr0. by apply close_opened. }
  rewrite (proj2 (Z.eqb_neq g1 NULLF)) in * by (unfold NULLF; lia). cbn [negb when] in *.
  apply fs_op_refs in E3.
  assert (g0 <> g1) as Hne by (intros ->; rewrite Hr0, fupd_eq in Hz1; lia).
  rewrite Hr0, fupd_ne in Hz1 by done. rewrite Hr0 in Hr1. rewrite Hr1 in E3.
  destruct (pi =? 0).
  - apply bind_Ret in E as ([] & s4 & E4 & E). apply bind_Ret in E as ([] & s5 & E5 & E). injection E as <- _ _ <-.
    left. split; [done|]. by eapply (close_both (file_refs s) g0 g1 s3 s4 s5).
  - apply bind_Ret in E as ([] & s4 & E4 & E). injection E4 as <-.
    apply bind_Ret in E as ([] & s5 & E5 & E). apply updf_refs in E5; [|done].
    apply bind_Ret in E as ([] & s6 & E6 & E). apply updf_refs in E6; [|done].
    injection E as <- <- <- <-. right. split; [done|]. split; [done|]. split; [done|]. split; [done|].
    rewrite E6, E5. exact E3.
Qed.

(** The end of sys_pipe's error paths. *)
Lemma pipe_undo t t1 rf wf r t' : fd_ok t -> rf <> wf -> file_refs (sys t) rf = 0 -> file_refs (sys t) wf = 0 ->
  tofile t1 = tofile t -> file_refs (sys t1) = fupd (fupd (file_refs (sys t)) rf 1) wf 1 ->
  (sys_op (fileclose rf) ;;; sys_op (fileclose wf) ;;; ret (-1)) t1 = Ret r t' -> conserves t r t'.
Proof.
  intros Hok Hne Hz0 Hz1 Eo Er E. apply bind_Ret in E as ([] & t2 & E2 & E).
  apply bind_Ret in E as ([] & t3 & E3 & E). injection E as <- <-.
  apply lift_Ret_inv in E2 as (s2 & E2 & ->). apply lift_Ret_inv in E3 as (s3 & E3 & ->).
  apply same_conserves; [done|]. split; [done|]. by eapply (close_both _ rf wf (sys t1) s2 s3).
Qed.

Lemma put_int_same addr v t ok t' : put_int addr v t = Ret ok t' -> same t t'.
Proof. intros E. eapply sys_op_same; [|exact E]. intros s a s'. apply fs_op_refs. Qed.

Lemma sys_pipe_conserves t r t' : fd_ok t -> sys_pipe t = Ret r t' -> conserves t r t'.
Proof.
  intros Hok E. unfold sys_pipe in E. apply bind_Ret in E as (fda & t0 & E0 & E). apply argraw_same in E0 as ->.
  apply bind_Ret in E as ([[q rf] wf] & t1 & E1 & E). apply lift_Ret_inv in E1 as (s1 & E1 & ->).
  apply pipealloc_spec in E1 as [[-> Er]|(-> & Hne & (Hf0 & Hz0) & (Hf1 & Hz1) & Er)].
  { injection E as <- <-. by apply same_conserves. }
  cbn [Z.ltb Z.compare] in E. apply bind_Ret in E as (fd0 & t2 & E2 & E). apply bind_Ret in E as (fd1 & t3 & E3 & E).
  apply fdalloc_spec in E2 as [(-> & -> & _)|(Hfd0 & Ez0 & -> & _)].
  { injection E3 as <- <-. cbn [Z.ltb Z.compare orb Z.leb when] in E. apply bind_Ret in E as ([] & t4 & E4 & E).
    injection E4 as <-. by refine (pipe_undo t _ rf wf _ _ Hok Hne Hz0 Hz1 _ _ E). }
  rewrite (proj2 (Z.ltb_ge fd0 0)) in * by lia. cbn [orb] in E. cbn in Ez0.
  apply fdalloc_spec in E3 as [(-> & -> & _)|(Hfd1 & Ez1 & -> & _)].
  { cbn [Z.ltb Z.compare] in E. rewrite (proj2 (Z.leb_le 0 fd0)) in E by lia. cbn [when] in E.
    apply bind_Ret in E as ([] & t4 & E4 & E). injection E4 as <-. refine (pipe_undo t _ rf wf _ _ Hok Hne Hz0 Hz1 _ _ E); [|exact Er].
    cbn. rewrite fupd_twice, <- Ez0. apply fupd_id. }
  cbn in Ez1. assert (fd1 <> fd0) as Hfd by (intros ->; rewrite fupd_eq in Ez1; unfold NULLF in Ez1; lia).
  rewrite fupd_ne in Ez1 by done. rewrite (proj2 (Z.ltb_ge fd1 0)) in E by lia.
  apply bind_Ret in E as (ok & t4 & E4 & E). apply put_int_same in E4.
  apply bind_Ret in E as (ok2 & t5 & E5 & E).
  assert (same t4 t5) as S5 by (destruct ok; [by eapply put_int_same|by injection E5 as _ <-]).
  pose proof (same_trans _ _ _ E4 S5) as [So Sr]. cbn in So, Sr. destruct ok2.
  - injection E as <- <-. split; [|split; [|done]].
    + intros g Hg. unfold others. rewrite So, Sr, Er, fdcount_set, fdcount_set by done.
      rewrite (fupd_ne (tofile t) fd0 rf fd1), Ez0, Ez1 by done. rewrite (proj2 (Z.eqb_neq NULLF g)) by done.
      destruct (Z.eqb_spec wf g) as [<-|Hw].
      * rewrite fupd_eq, (proj2 (Z.eqb_neq rf wf)) by done. lia.
      * rewrite fupd_ne by done. destruct (Z.eqb_spec rf g) as [<-|Hq]; [rewrite fupd_eq|rewrite fupd_ne by done]; lia.
    + rewrite So. intros k Hk. destruct (decide (k = fd1)) as [->|]; [rewrite fupd_eq; by right|rewrite fupd_ne by done].
      destruct (decide (k = fd0)) as [->|]; [rewrite fupd_eq; by right|rewrite fupd_ne by done]. by apply Hok.
  - apply bind_Ret in E as ([] & t6 & E6 & E). injection E6 as <-.
    apply bind_Ret in E as ([] & t7 & E7 & E). injection E7 as <-. refine (pipe_undo t _ rf wf _ _ Hok Hne Hz0 Hz1 _ _ E).
    + cbn. rewrite So, (fupd_comm _ fd1), fupd_twice, fupd_twice by done.
      transitivity (fupd (tofile t) fd1 NULLF); [f_equal; rewrite <- Ez0; apply fupd_id|rewrite <- Ez1; apply fupd_id].
    + cbn. by rewrite Sr.
Qed.

(** The system calls of sysfile.c on descriptors and names. *)
Inductive fcall :=
| CDup | CRead (killed : bool) | CWrite (killed : Z -> bool) (i : Z) | CClose | CFstat | CLink | CUnlink | COpen
| CMkdir | CMknod | CChdir | CPipe.

Definition run_call (c : fcall) : M (task U) Z :=
  match c with
  | CDup => sys_dup | CRead k => sys_read sw k | CWrite k i => sys_write sw k i | CClose => sys_close
  | CFstat => sys_fstat | CLink => sys_link fr | CUnlink => sys_unlink fr | COpen => sys_open fr
  | CMkdir => sys_mkdir fr | CMknod => sys_mknod fr | CChdir => sys_chdir fr | CPipe => sys_pipe
  end.

Lemma run_call_conserves c t r t' : fd_ok t -> run_call c t = Ret r t' -> conserves t r t'.
Proof using Hdev.
  intros Hok E. destruct c; cbn [run_call] in E.
  - by apply sys_dup_conserves.
  - apply same_conserves; [done|]. by apply (sys_read_same killed _ _ _ E).
  - apply same_conserves; [done|]. by apply (sys_write_same killed i _ _ _ E).
  - by apply sys_close_conserves.
  - apply same_conserves; [done|]. by apply (sys_fstat_same _ _ _ E).
  - apply same_conserves; [done|]. apply (name_calls_same t r). by left.
  - apply same_conserves; [done|]. apply (name_calls_same t r). right. by left.
  - by apply sys_open_conserves.
  - apply same_conserves; [done|]. apply (name_calls_same t r). right. right. by left.
  - apply same_conserves; [done|]. apply (name_calls_same t r). right. right. right. by left.
  - apply same_conserves; [done|]. apply (name_calls_same t r). right. right. right. by right.
  - by apply sys_pipe_conserves.
Qed.

Lemma conserves_ok t r t' : fd_ok t -> conserves t r t' -> fd_ok t'.
Proof. intros [R1 R2] (C1 & C2 & _). split; [|done]. intros f Hf. rewrite C1 by done. by apply R1. Qed.

(** The process: system calls, and user code that sets registers and memory. *)
Inductive task_step : task U -> task U -> Prop :=
| ts_call c t r t' : run_call c t = Ret r t' -> task_step t t'
| ts_user a u t : task_step t (Task (tofile t) a (set_fs (set_usr u (fs (sys t))) (sys t))).

Lemma task_steps t t' : fd_ok t -> rtc task_step t t' ->
  fd_ok t' /\ forall f, f <> NULLF -> others t' f = others t f.
Proof using Hdev.
  intros Hok Hr. induction Hr as [|t1 t2 t3 Hs Hr IH]; [done|].
  assert (fd_ok t2 /\ forall f, f <> NULLF -> others t2 f = others t1 f) as [Hok2 E2].
  { destruct Hs as [c t r t' E|a u t]; [|by destruct Hok].
    pose proof (run_call_conserves _ _ _ _ Hok E) as Hc. split; [by eapply conserves_ok|apply Hc]. }
  destruct (IH Hok2) as [Hok3 E3]. split; [done|]. intros f Hf. by rewrite E3, E2.
Qed.
End descriptors.

(** C10. The file system calls keep the reference counts exact. Over every
    sequence of dup, read, write, close, fstat, link, unlink, open, mkdir,
    mknod, chdir and pipe by a process, interleaved with its user code: the
    references of each file that are not owned by a descriptor of the process
    never change, every open descriptor names an entry of the file table that
    has a reference for it, and a call that returns -1 leaves the descriptor
    table as it was. Device routines are assumed to leave the file table
    alone. *)
Theorem descriptor_references {U : Type} `{UserMem U} `{PageAlloc U} `{UserStr U} (fr : frame_addrs)
    (sw : Z -> devsw U) (t t' : task U) :
  devs_ok sw -> fd_ok t -> rtc (task_step fr sw) t t' ->
  (forall f, f <> NULLF -> others t' f = others t f) /\
  (forall fd, 0 <= fd < NOFILE -> tofile t' fd <> NULLF ->
     0 <= tofile t' fd < NFILE /\ 1 <= f_ref (ftable (sys t') (tofile t' fd))) /\
  (forall c t'', run_call fr sw c t' = Ret (-1) t'' -> tofile t'' = tofile t').
Proof.
  intros Hdev Hok Hr. destruct (task_steps fr sw Hdev t t' Hok Hr) as [Hok' Ho]. split; [done|]. split.
  - intros fd Hfd Hn. split; [by destruct (fo_range _ Hok' fd Hfd)|]. by apply open_ref.
  - intros c t'' E. pose proof (run_call_conserves fr sw Hdev c t' _ t'' Hok' E) as (_ & _ & Hc). by apply Hc.
Qed.

(** dup gives the lowest free descriptor. For an argument that names an
    open descriptor, dup always returns: with a free descriptor it returns the
    lowest one, which then refers to the same file, whose count is one higher;
    with a full table it returns -1. For any other argument it returns -1.
    Failures change nothing. *)
Theorem sys_dup_correct {U : Type} (t : task U) : fd_ok t ->
  let fd := i32 (u64 (targs t 0)) in
  let free := find_fd (Z.to_nat NOFILE) 0 (tofile t) in
  if (0 <=? fd) && (fd <? NOFILE) && negb (tofile t fd =? NULLF) && (0 <=? free)
  then exists t', sys_dup t = Ret free t' /\ tofile t' = fupd (tofile t) free (tofile t fd) /\
    0 <= free < NOFILE /\ tofile t free = NULLF /\ (forall k, 0 <= k < free -> tofile t k <> NULLF) /\
    file_refs (sys t') = fupd (file_refs (sys t)) (tofile t fd) (file_refs (sys t) (tofile t fd) + 1)
  else sys_dup t = Ret (-1) t.
Proof.
  intros Hok fd free.
  assert (argfd 0 t = if (fd <? 0) || (NOFILE <=? fd) || (tofile t fd =? NULLF) then Ret None t
                      else Ret (Some (fd, tofile t fd)) t) as Ea.
  { unfold argfd, argint, argraw. cbn. unfold bind, gets. cbn. fold fd. by destruct (_ || _). }
  pose proof (find_fd_spec (Z.to_nat NOFILE) 0 (tofile t) (Z.le_refl 0)) as Hs. cbv zeta in Hs. fold free in Hs.
  change (0 + Z.of_nat (Z.to_nat NOFILE)) with NOFILE in Hs.
  rewrite (Z.ltb_antisym 0 fd), (Z.leb_antisym fd NOFILE) in Ea. clearbody fd.
  destruct (Z.leb_spec 0 fd) as [Hlo|]; cbn [negb andb orb] in *;
    [|unfold sys_dup; by rewrite (bind_step _ _ _ _ _ Ea)].
  destruct (Z.ltb_spec fd NOFILE) as [Hhi|]; cbn [negb andb orb] in *;
    [|unfold sys_dup; by rewrite (bind_step _ _ _ _ _ Ea)].
  destruct (Z.eqb_spec (tofile t fd) NULLF) as [|Hn]; cbn [negb andb orb] in *;
    [unfold sys_dup; by rewrite (bind_step _ _ _ _ _ Ea)|].
  unfold sys_dup. rewrite (bind_step _ _ _ _ _ Ea).
  destruct Hs as [[E _]|(Hr & Hz & Hl)].
  - unfold fdalloc, bind, gets. fold free. by rewrite E.
  - rewrite (proj2 (Z.leb_le 0 free)) by lia.
    pose proof (open_ref t fd Hok (conj Hlo Hhi) Hn) as Href.
    assert (fdalloc (tofile t fd) t = Ret free (set_tofile (fupd (tofile t) free (tofile t fd)) t)) as Ef.
    { unfold fdalloc, bind, gets. fold free. by rewrite (proj2 (Z.ltb_ge free 0)) by lia. }
    rewrite (bind_step _ _ _ _ _ Ef), (proj2 (Z.ltb_ge free 0)) by lia.
    destruct (filedup (tofile t fd) (sys t)) as [x s| | |] eqn:Ed;
      [|unfold filedup, bind, file_of, gets in Ed; unfold file_refs in Href;
        rewrite (proj2 (Z.ltb_ge (f_ref (ftable (sys t) (tofile t fd))) 1)) in Ed by lia; done..].
    eexists. split; [unfold bind, sys_op; by rewrite (lift_Ret _ _ _ (set_tofile _ t) _ _ Ed)|].
    split; [done|]. split; [done|]. split; [done|]. split; [done|]. by apply filedup_refs in Ed.
Qed.

(** A process with one open descriptor, on the shared file of FileLayer. *)
#[export] Instance flat_str : UserStr flat := {|
  ucopyinstr dst d va max u :=
    match CString.strlen (Z.to_nat max) (fbytes u) va with
    | Some n => (true, blit dst d (fbytes u) va (n + 1), u)
    | None => (false, dst, u)
    end;
|}.
Definition frame0 : frame_addrs := Frame 1000 1200 1400 1600 1700 1720 1740 1750.
Definition no_devs (_ : Z) : devsw flat := Devsw _ None None.
Definition task0 : task flat := Task (fun fd => if fd =? 0 then 0 else NULLF) (fun _ => 0) two_files.

Lemma task0_ok : fd_ok task0.
Proof.
  split.
  - intros f Hf. unfold others.
    assert (fdcount (tofile task0) f = if f =? 0 then 1 else 0) as ->.
    { rewrite <- (opens_in_run 0 0 f Hf). unfold fdcount, opens_in. by apply sumz_ext. }
    unfold file_refs. cbn. unfold shared_file. destruct (f =? 0); cbn; unfold MAXREFS; lia.
  - intros fd Hfd. cbn. destruct (fd =? 0); [right; vm_compute; split; congruence|by left].
Qed.

Definition after_calls (l : list fcall) (t : task flat) : task flat :=
  foldl (fun t c => match run_call frame0 no_devs c t with Ret _ t' => t' | _ => t end) t l.

Lemma after_calls_rtc l : forall t, rtc (task_step frame0 no_devs) t (after_calls l t).
Proof.
  induction l as [|c l IH]; intros t; cbn; [apply rtc_refl|]. etransitivity; [|apply IH].
  destruct (run_call frame0 no_devs c t) as [r t'| | |] eqn:E; try apply rtc_refl.
  apply rtc_once. by eapply ts_call.
Qed.

(** dup(0), close(0): the file is now descriptor 1. *)
Lemma descriptor_references_witness : let t' := after_calls [CDup; CClose] task0 in
  tofile t' 0 = NULLF /\ tofile t' 1 = 0 /\ others t' 0 = others task0 0 /\ 1 <= f_ref (ftable (sys t') 0).
Proof.
  destruct (descriptor_references frame0 no_devs task0 (after_calls [CDup; CClose] task0)) as (Ho & Hr & _).
  - intros i g [-> | ->]; done.
  - exact task0_ok.
  - apply after_calls_rtc.
  - split; [vm_compute; reflexivity|]. split; [vm_compute; reflexivity|]. split; [by apply Ho|].
    apply (Hr 1); [vm_compute; split; congruence|vm_compute; congruence].
Defined.

Lemma sys_dup_correct_witness : exists t', sys_dup task0 = Ret 1 t' /\ f_ref (ftable (sys t') 0) = 3.
Proof.
  destruct (sys_dup_correct task0 task0_ok) as (t' & E & _ & _ & _ & _ & Hr).
  exists t'. split; [exact E|]. change (file_refs (sys t') 0 = 3). rewrite Hr. vm_compute. reflexivity.
Defined.
