(* ===== verification/Sysproc.v ===== *)
(** * kernel/syscall.c and kernel/sysproc.c: dispatch and process system calls

    Arguments are read from the trap frame of the calling process [p] in
    physical memory, and results stored there. The calls of sysfile.c (file
    Sysfile) and the console are arguments of the dispatch table. *)
From stdpp Require Import base list numbers strings.
From Stdlib Require Import ZArith Lia FunctionalExtensionality.
From S2P Require Import UserMem Fs File FileLayer Ulib Dto Prelude Memlayout Kalloc Vm VmTables VmUser VmAlloc Proc ProcListing.

Definition SYS_fork : Z := 1.
Definition SYS_exit : Z := 2.
Definition SYS_wait : Z := 3.
Definition SYS_kill : Z := 6.
Definition SYS_getpid : Z := 11.
Definition SYS_sbrk : Z := 12.
Definition SYS_pause : Z := 13.
Definition SYS_uptime : Z := 14.
Definition SYS_poweroff : Z := 26.
Definition SYS_getallprocs : Z := 27.
Definition SYS_getmemstats : Z := 28.
Definition SYS_toggle_debug : Z := 30.
(** pipe, read, exec, fstat, chdir, dup, open, write, mknod, unlink, link,
    mkdir, close and getc_nb *)
Definition file_numbers : list Z := [4; 5; 7; 8; 9; 10; 15; 16; 17; 18; 19; 20; 21; 29].

Definition SBRK_EAGER : Z := 1.
Definition SBRK_LAZY : Z := 2.
(** offsetof(struct trapframe, a7) *)
Definition TF_A7 : Z := 168.

(** struct u_memmory in memory: eight longs. *)
Definition UMEM_SIZE : Z := 64.
Definition put_umem (v : u_memmory) : bytes :=
  let m := st64 (fun _ => 0) 0 (read_disk_counter v) in
  let m := st64 m 8 (write_disk_counter v) in
  let m := st64 m 16 (read_cache_counter v) in
  let m := st64 m 24 (write_cache_counter v) in
  let m := st64 m 32 (read_cache_hit_counter v) in
  let m := st64 m 40 (free_cache v) in
  let m := st64 m 48 (free_ram v) in
  st64 m 56 (free_disk v).
Definition get_umem (m : bytes) (a : Z) : u_memmory :=
  UMem (i64 (ld64 m a)) (i64 (ld64 m (a + 8))) (i64 (ld64 m (a + 16))) (i64 (ld64 m (a + 24)))
    (i64 (ld64 m (a + 32))) (i64 (ld64 m (a + 40))) (i64 (ld64 m (a + 48))) (i64 (ld64 m (a + 56))).

Section calls.
Context `{KernelEnd} {F : Type} `{FileOps F}.
Context (forkret trampoline : Z).
(** &ticks as a wait channel *)
Context (ticks_chan : Z).
Abbreviation P := (M (pstate F)).

Definition argraw (p n : Z) : P Z :=
  if (0 <=? n) && (n <? 6) then gets (fun s => ld64 (mem (km s)) (p_trapframe (procs s p) + TF_A0 + 8 * n))
  else panic "argraw".
Definition argint (p n : Z) : P Z := v <- argraw p n ;; ret (i32 v).
Definition argaddr (p n : Z) : P Z := argraw p n.

(** fetchaddr: None is the result -1 *)
Definition fetchaddr (p addr : Z) : P (option Z) :=
  pr <- proc_of p ;;
  if (p_sz pr <=? addr) || (p_sz pr <? u64 (addr + 8)) then ret None
  else
    r <- memory_op (copyin (p_sz pr) (p_pagetable pr) (p_pagetable pr) (fun _ => 0) 0 addr 8) ;;
    if negb (snd r =? 0) then ret None else ret (Some (ld64 (fst r) 0)).

(** kexit does not return: the process has left the CPU, on no channel. *)
Definition sys_exit (p : Z) : P Z := n <- argint p 0 ;; kexit p n ;;; sleep_on 0.
Definition sys_getpid (p : Z) : P Z := pr <- proc_of p ;; ret (p_pid pr).
Definition sys_fork (p : Z) : P Z := kfork forkret trampoline p.
Definition sys_wait (p : Z) : P Z := a <- argaddr p 0 ;; kwait p a.

(** sys_sbrk after its arguments [n] and [t] have been read *)
Definition sbrk (p n t : Z) : P Z :=
  pr <- proc_of p ;;
  let addr := p_sz pr in
  if (t =? SBRK_EAGER) || (n <? 0) then
    r <- growproc p n ;;
    if r <? 0 then ret (-1) else ret addr
  else if u64 (addr + n) <? addr then ret (-1)
  else if TRAPFRAME <? u64 (addr + n) then ret (-1)
  else upd p (fun q => set_sz (u64 (p_sz q + n)) q) ;;; ret addr.
Definition sys_sbrk (p : Z) : P Z := n <- argint p 0 ;; t <- argint p 1 ;; sbrk p n t.

(** The loop of sys_pause, to its return or its sleep *)
Definition pause_loop (p ticks0 n : Z) : P Z :=
  t <- gets ticks ;;
  if u32 (t - ticks0) <? n then
    k <- killed p ;;
    if negb (k =? 0) then ret (-1) else psleep p ticks_chan
  else ret 0.
Definition sys_pause (p : Z) : P Z :=
  n <- argint p 0 ;;
  let n := if n <? 0 then 0 else n in
  ticks0 <- gets ticks ;;
  pause_loop p ticks0 n.

Definition sys_kill (p : Z) : P Z := pid <- argint p 0 ;; kkill pid.
Definition sys_uptime : P Z := gets (fun s => u32 (ticks s)).
Definition sys_getallprocs (p : Z) : P Z :=
  b <- argaddr p 0 ;; max <- argint p 1 ;; kernel_getallprocs p b max.

(** [c] holds the five counters; [cache] and [disk] are the results of
    count_free_cache and count_free_disk. *)
Definition sys_getmemstats (c : u_memmory) (cache disk p : Z) : P Z :=
  a <- argaddr p 0 ;;
  ram <- memory_op (count_free_ram (S npages)) ;;
  let v := UMem (read_disk_counter c) (write_disk_counter c) (read_cache_counter c) (write_cache_counter c)
             (read_cache_hit_counter c) cache ram disk in
  pr <- proc_of p ;;
  r <- memory_op (copyout (p_sz pr) (p_pagetable pr) (p_pagetable pr) a (put_umem v) 0 UMEM_SIZE) ;;
  if r <? 0 then ret (-1) else ret 0.

(** sys_toggle_debug, on the value of debug_mode: the new value *)
Definition toggle_debug (d : Z) : Z := if d =? 1 then 0 else if d =? 0 then 1 else d.

(** The table syscalls[]; [fcall] are the calls of sysfile.c and getc_nb,
    [dbg] the result of toggle_debug, [stats] that of getmemstats. *)
Definition syscalls (fcall : Z -> P Z) (dbg stats : P Z) (p num : Z) : option (P Z) :=
  if num =? SYS_fork then Some (sys_fork p)
  else if num =? SYS_exit then Some (sys_exit p)
  else if num =? SYS_wait then Some (sys_wait p)
  else if num =? SYS_kill then Some (sys_kill p)
  else if num =? SYS_getpid then Some (sys_getpid p)
  else if num =? SYS_sbrk then Some (sys_sbrk p)
  else if num =? SYS_pause then Some (sys_pause p)
  else if num =? SYS_uptime then Some sys_uptime
  else if num =? SYS_poweroff then Some (panic "sys_poweroff")
  else if num =? SYS_getallprocs then Some (sys_getallprocs p)
  else if num =? SYS_getmemstats then Some stats
  else if num =? SYS_toggle_debug then Some dbg
  else if existsb (Z.eqb num) file_numbers then Some (fcall num)
  else None.

(** syscall(), without the message for an unknown number *)
Definition syscall (fcall : Z -> P Z) (dbg stats : P Z) (p : Z) : P unit :=
  pr <- proc_of p ;;
  num <- gets (fun s => i32 (ld64 (mem (km s)) (p_trapframe pr + TF_A7))) ;;
  r <- match syscalls fcall dbg stats p num with Some f => f | None => ret (-1) end ;;
  memory_op (store64 (p_trapframe pr + TF_A0) (u64 r)).
End calls.

(** ** sbrk *)
Section sbrk_spec.
Context `{KernelEnd} {F : Type}.
Implicit Types s : pstate F.

Lemma uvm_size root sz sz' k l : uvm root sz k l -> 0 <= sz' <= TRAPFRAME -> uvm root sz' k l.
Proof. intros [A1 A2 A3 A4 A5 A6 A7] Hz. by split. Qed.

(** The state after the process's size has become [z] and memory [k]. *)
Definition resized (p z : Z) (k : kmem) s : pstate F := on_proc p (set_sz z) (set_km k s).

(** What sbrk(n) does to a process with address space [root] of size [sz]. *)
Definition sbrk_result (p n t root sz : Z) s (l : list Z) : Prop :=
  if (t =? SBRK_EAGER) || (n <? 0) then
    if n <? 0 then
      if sz + n <? 0 then sbrk p n t s = Ret sz (resized p sz (km s) s)
      else exists k' l', sbrk p n t s = Ret sz (resized p (sz + n) k' s) /\
        unmapped root sz (PGROUNDUP (sz + n)) (Z.max (PGROUNDUP (sz + n)) (PGROUNDUP sz)) (km s) l k' l' /\
        uvm root (sz + n) k' l'
    else if n =? 0 then sbrk p n t s = Ret sz (resized p sz (km s) s)
    else if TRAPFRAME <? sz + n then sbrk p n t s = Ret (-1) s
    else exists r k' l', uvmalloc_result root sz (PGROUNDUP sz) (sz + n) (alloc_perm PTE_W) r (km s) l k' l' /\
      if r =? 0 then sbrk p n t s = Ret (-1) (set_km k' s)
      else r = sz + n /\ sbrk p n t s = Ret sz (resized p (sz + n) k' s) /\ uvm root (sz + n) k' l'
  else if TRAPFRAME <? sz + n then sbrk p n t s = Ret (-1) s
  else sbrk p n t s = Ret sz (resized p (sz + n) (km s) s) /\ uvm root (sz + n) (km s) l.

Lemma on_proc_km i f k s : on_proc i f (set_km k s) = set_km k (on_proc i f s).
Proof. done. Qed.

Lemma set_km_id s : set_km (km s) s = s.
Proof. by destruct s. Qed.

Lemma pgroundup_trapframe z : 0 <= z <= TRAPFRAME -> PGROUNDUP z <= TRAPFRAME.
Proof.
  intros Hz. destruct trapframe_max as [T1 _]. destruct (pgroundup_page z ltac:(lia)) as (A1 & A2 & A3).
  unfold PGSIZE in *. rewrite T1 in *. dlia.
Qed.

Lemma growproc_shrink p n s z k : n < 0 ->
  uvmdealloc (p_pagetable (procs s p)) (p_sz (procs s p)) (u64 (p_sz (procs s p) + n)) (km s) = Ret z k ->
  growproc p n s = Ret 0 (resized p z k s).
Proof.
  intros Hn E. unfold growproc. rewrite (bind_step (proc_of p) _ s (procs s p) s) by done. cbv zeta.
  rewrite (proj2 (Z.ltb_ge 0 n)), (proj2 (Z.ltb_lt n 0)) by lia. unfold bind, memory_op. by rewrite (lift_Ret _ _ _ _ _ _ E).
Qed.

Lemma growproc_grow p n s z k : 0 < n -> u64 (p_sz (procs s p) + n) <= TRAPFRAME ->
  uvmalloc (p_pagetable (procs s p)) (p_sz (procs s p)) (u64 (p_sz (procs s p) + n)) PTE_W (km s) = Ret z k ->
  growproc p n s = if z =? 0 then Ret (-1) (set_km k s) else Ret 0 (resized p z k s).
Proof.
  intros Hn Hle E. unfold growproc. rewrite (bind_step (proc_of p) _ s (procs s p) s) by done. cbv zeta.
  rewrite (proj2 (Z.ltb_lt 0 n)), (proj2 (Z.ltb_ge TRAPFRAME _)) by lia. unfold bind, memory_op.
  rewrite (lift_Ret _ _ _ _ _ _ E). by destruct (z =? 0).
Qed.

Lemma sbrk_grow p n t s r s1 : (t =? SBRK_EAGER) || (n <? 0) = true -> growproc p n s = Ret r s1 ->
  sbrk p n t s = Ret (if r <? 0 then -1 else p_sz (procs s p)) s1.
Proof.
  intros Eb E. unfold sbrk. rewrite (bind_step (proc_of p) _ s (procs s p) s) by done. cbv zeta.
  rewrite Eb, (bind_step _ _ _ _ _ E). by destruct (r <? 0).
Qed.

Lemma sbrk_run p n t s l root sz : uvm root sz (km s) l -> p_pagetable (procs s p) = root -> p_sz (procs s p) = sz ->
  (forall va, PGROUNDUP sz <= va < TRAPFRAME -> valid root (mem (km s)) va = false) ->
  - 2 ^ 31 <= n < 2 ^ 31 -> sbrk_result p n t root sz s l.
Proof.
  intros Hu Er Es Hfree Hn. destruct trapframe_max as [T1 _]. pose proof (uv_sz _ _ _ _ Hu) as Hz.
  unfold sbrk_result. destruct ((t =? SBRK_EAGER) || (n <? 0)) eqn:Eb.
  - assert (forall r s1, growproc p n s = Ret r s1 -> sbrk p n t s = Ret (if r <? 0 then -1 else sz) s1) as Hg.
    { intros r s1 E. rewrite (sbrk_grow p n t s r s1 Eb E), Es. done. }
    clear Eb. destruct (Z.ltb_spec n 0) as [Hneg|Hpos].
    + destruct (Z.ltb_spec (sz + n) 0) as [Hbig|Hok].
      * apply (Hg 0), growproc_shrink; [done|].
        rewrite Es. unfold uvmdealloc. rewrite (proj2 (Z.leb_le sz _)); [done|]. unwrap. rewrite T1 in Hz. dlia.
      * destruct (uvmdealloc_run root sz sz (sz + n) (km s) l Hu Hok Hz) as (k' & l' & [[E U]|[Hle _]]); [|lia].
        rewrite Z.min_r in E by lia. exists k', l'. split; [|split; [done|]].
        { apply (Hg 0), growproc_shrink; [done|].
          rewrite Er, Es, wrap_small by lia. done. }
        eapply uvm_size; [apply U|lia].
    + destruct (Z.eqb_spec n 0) as [->|Hnz].
      { apply (Hg 0). unfold growproc.
        rewrite (bind_step (proc_of p) _ s (procs s p) s) by done. cbn. rewrite Es. unfold resized. by rewrite set_km_id. }
      assert (0 <= sz + n < 2 ^ 64) as Hw by lia.
      destruct (Z.ltb_spec TRAPFRAME (sz + n)) as [Hbig|Hok].
      { apply (Hg (-1)). unfold growproc.
        rewrite (bind_step (proc_of p) _ s (procs s p) s) by done. cbv zeta. rewrite Es, wrap_small by lia.
        by rewrite (proj2 (Z.ltb_lt 0 n)), (proj2 (Z.ltb_lt TRAPFRAME (sz + n))) by lia. }
      destruct (uvmalloc_run root sz sz (sz + n) PTE_W (km s) l Hu) as (r & k' & l' & E & Hr);
        [lia|done|lia|vm_compute; split; congruence| |].
      { intros va Hva. apply Hfree. pose proof (pgroundup_trapframe (sz + n) ltac:(lia)). lia. }
      exists r, k', l'. split; [done|].
      assert (growproc p n s = if r =? 0 then Ret (-1) (set_km k' s) else Ret 0 (resized p r k' s)) as Eg.
      { apply growproc_grow; rewrite ?Es, ?Er, ?wrap_small; try done; lia. }
      destruct (Z.eqb_spec r 0) as [->|Hr0].
      { by apply (Hg (-1)). }
      destruct Hr as (X & _ & [[-> _]|[? _]]); [|done]. split; [done|].
      split; [by apply (Hg 0)|]. eapply uvm_size; [apply X|lia].
  - apply orb_false_elim in Eb as [Et En]. apply Z.ltb_ge in En. unfold sbrk.
    rewrite !(bind_step (proc_of p) _ s (procs s p) s) by done. cbv zeta.
    rewrite Et, (proj2 (Z.ltb_ge n 0)), Es, wrap_small by lia. cbn [orb].
    rewrite (proj2 (Z.ltb_ge (sz + n) sz)) by lia.
    destruct (Z.ltb_spec TRAPFRAME (sz + n)) as [Hbig|Hok]; [done|].
    split; [|by apply (uvm_size root sz); [|lia]]. unfold bind, upd, modify, resized, on_proc. cbn. rewrite set_km_id.
    unfold ret. rewrite Es, wrap_small by lia. done.
Qed.
End sbrk_spec.

(** C38. sbrk, on every branch. For a process of size sz with a well-formed
    address space and no page mapped from its rounded size on: a lazy growth
    by n only raises the size, and an eager one maps zeroed pages; both return
    the old size, or -1 with the size unchanged when the process would reach
    the trap frame or memory runs out. A shrink returns the old size and
    unmaps exactly the pages above the new size; one by more than sz returns
    the old size too but changes nothing. The address space stays well formed
    with its new size. *)
Theorem sys_sbrk_correct `{KernelEnd} {F : Type} (p n t : Z) (s : pstate F) (l : list Z) :
  let root := p_pagetable (procs s p) in let sz := p_sz (procs s p) in
  uvm root sz (km s) l -> (forall va, PGROUNDUP sz <= va < TRAPFRAME -> valid root (mem (km s)) va = false) ->
  - 2 ^ 31 <= n < 2 ^ 31 -> sbrk_result p n t root sz s l.
Proof. intros root sz Hu Hfree Hn. by apply sbrk_run. Qed.

Lemma sys_sbrk_correct_witness :
  @sbrk ten_pages (fsys flat) 0 4096 2 listing_machine = Ret 12288 (@resized (fsys flat) 0 16384 vm10 listing_machine) /\
  exists k' l', @sbrk ten_pages (fsys flat) 0 4096 1 listing_machine = Ret 12288 (@resized (fsys flat) 0 16384 k' listing_machine) /\
    uvm root10 16384 k' l'.
Proof.
  assert (forall va, PGROUNDUP 12288 <= va < TRAPFRAME -> valid root10 (mem vm10) va = false) as Hfree.
  { intros va _. unfold valid. by rewrite vm10_empty. }
  split.
  - exact (proj1 (@sys_sbrk_correct ten_pages (fsys flat) 0 4096 2 listing_machine pages9 uvm10 Hfree ltac:(lia))).
  - destruct (@sys_sbrk_correct ten_pages (fsys flat) 0 4096 1 listing_machine pages9 uvm10 Hfree ltac:(lia))
      as (r & k' & l' & _ & Hr).
    assert (match @sbrk ten_pages (fsys flat) 0 4096 1 listing_machine with Ret z _ => z =? -1 | _ => true end = false) as E
      by (vm_compute; reflexivity).
    destruct (r =? 0); [exfalso|].
    + rewrite Hr in E. discriminate E.
    + destruct Hr as (_ & Hr & Hu). exists k', l'. split; [exact Hr|exact Hu].
Defined.
