(* ===== verification/Umalloc.v ===== *)
(** * user/umalloc.c: malloc and free

    The allocator of Kernighan and Ritchie over the memory of a user process:
    a circular list of free blocks in address order through headers stored in
    front of the blocks, with the static header [base] in it. A header is a
    pointer (8 bytes) and a size in units of sizeof(Header) (4 bytes).
    sbrk is the call of sysproc.c (file Sysproc) seen from the process: the
    break moves or the call fails. *)
From stdpp Require Import base list numbers strings gmap relations.
From Stdlib Require Import ZArith Lia.
From S2P Require Import Prelude Memlayout.

(** sizeof(Header) *)
Definition HDR : Z := 16.

(** The process's memory, freep, and the end of its address space (p->sz). *)
Record heap := Heap { hmem : bytes; freep : Z; brk : Z }.
Definition set_hmem (m : bytes) (h : heap) : heap := Heap m (freep h) (brk h).
Definition set_freep (p : Z) (h : heap) : heap := Heap (hmem h) p (brk h).
Definition set_brk (b : Z) (h : heap) : heap := Heap (hmem h) (freep h) b.

(** p->s.ptr and p->s.size *)
Definition ptr (m : bytes) (p : Z) : Z := ld64 m p.
Definition size (m : bytes) (p : Z) : Z := ld32 m (p + 8).
Definition set_ptr (p v : Z) : M heap unit := modify (fun h => set_hmem (st64 (hmem h) p v) h).
Definition set_size (p v : Z) : M heap unit := modify (fun h => set_hmem (st32 (hmem h) (p + 8) v) h).
Definition ptr_of (p : Z) : M heap Z := gets (fun h => ptr (hmem h) p).
Definition size_of (p : Z) : M heap Z := gets (fun h => size (hmem h) p).
(** p + n for a Header *p *)
Definition hadd (p n : Z) : Z := u64 (p + HDR * n).

Section umalloc.
(** &base, and whether the kernel has the memory for a process of a size. *)
Context (base : Z) (has_pages : Z -> bool).

(** sbrk(n) = sys_sbrk(n, SBRK_EAGER) *)
Definition sbrk (n : Z) : M heap Z :=
  b <- gets brk ;;
  if n <? 0 then
    if b + n <? 0 then ret b else modify (set_brk (b + n)) ;;; ret b
  else if (TRAPFRAME <? b + n) || negb (has_pages (b + n)) then ret (-1)
  else modify (set_brk (b + n)) ;;; ret b.

(** Enough for every header of the list: they are a unit apart. *)
Definition ring_fuel (h : heap) : nat := S (S (Z.to_nat (brk h / HDR))).

(** The search loop of free *)
Definition free_find (bp p : Z) : M heap (Z + Z) :=
  q <- ptr_of p ;;
  if negb ((p <? bp) && (bp <? q)) then
    if (q <=? p) && ((p <? bp) || (bp <? q)) then ret (inr p) else ret (inl q)
  else ret (inr p).

Definition free (ap : Z) : M heap unit :=
  let bp := u64 (ap - HDR) in
  p <- gets freep ;;
  fuel <- gets ring_fuel ;;
  p <- loop fuel (free_find bp) p ;;
  q <- ptr_of p ;;
  n <- size_of bp ;;
  (if hadd bp n =? q then
     k <- size_of q ;; set_size bp (u32 (n + k)) ;;;
     r <- ptr_of q ;; set_ptr bp r
   else set_ptr bp q) ;;;
  k <- size_of p ;;
  (if hadd p k =? bp then
     n <- size_of bp ;; set_size p (u32 (k + n)) ;;;
     r <- ptr_of bp ;; set_ptr p r
   else set_ptr p bp) ;;;
  modify (set_freep p).

(** morecore returns freep, 0 if sbrk failed *)
Definition morecore (nu : Z) : M heap Z :=
  let nu := if nu <? 4096 then 4096 else nu in
  p <- sbrk (i32 (u64 (nu * HDR))) ;;
  if p =? -1 then ret 0
  else set_size p nu ;;; free (hadd p 1) ;;; gets freep.

(** One round of the loop of malloc, with prevp and p *)
Definition malloc_body (nunits : Z) : Z * Z -> M heap (Z * Z + Z) := fun '(prevp, p) =>
  n <- size_of p ;;
  if nunits <=? n then
    a <- (if n =? nunits then q <- ptr_of p ;; set_ptr prevp q ;;; ret p
          else
            set_size p (n - nunits) ;;;
            let p := hadd p (n - nunits) in
            set_size p nunits ;;; ret p) ;;
    modify (set_freep prevp) ;;;
    ret (inr (hadd a 1))
  else
    f <- gets freep ;;
    if p =? f then
      p <- morecore nunits ;;
      if p =? 0 then ret (inr 0) else q <- ptr_of p ;; ret (inl (p, q))
    else q <- ptr_of p ;; ret (inl (p, q)).

Definition malloc (nbytes : Z) : M heap Z :=
  let nunits := u32 ((nbytes + HDR - 1) / HDR + 1) in
  f <- gets freep ;;
  when (f =? 0) (set_ptr base base ;;; modify (set_freep base) ;;; set_size base 0) ;;;
  prevp <- gets freep ;;
  p <- ptr_of prevp ;;
  fuel <- gets ring_fuel ;;
  loop (2 * fuel + 2) (malloc_body nunits) (prevp, p).
End umalloc.

