(* ===== verification/UmallocProps.v ===== *)
(** * malloc and free keep the program's blocks apart

    The heap is a row of segments, each free or in use ([segs]); the free ones
    form the circular list of the code. malloc and free change the row as an
    allocator should and leave the contents of the blocks in use alone, so the
    heap implements a store of objects. *)
From stdpp Require Import base list sorting numbers strings gmap relations.
From Stdlib Require Import ZArith Lia.
From S2P Require Import Prelude Memlayout Umalloc.

(** ** Headers in memory *)

(** [m] and [m'] agree on the header at [a]. *)
Definition same_hdr (m m' : bytes) (a : Z) : Prop := forall x, a <= x < a + HDR -> m x = m' x.

Lemma same_hdr_ptr m m' a : same_hdr m m' a -> ptr m a = ptr m' a.
Proof. intros E. apply ld_ext. intros x Hx. apply E. unfold HDR. lia. Qed.
Lemma same_hdr_size m m' a : same_hdr m m' a -> size m a = size m' a.
Proof. intros E. apply ld_ext. intros x Hx. apply E. unfold HDR. lia. Qed.

Lemma ptr_st64 m a v : 0 <= v < 2 ^ 64 -> ptr (st64 m a v) a = v.
Proof. intros Hv. unfold ptr. rewrite ld_st_same. apply Z.mod_small. done. Qed.
Lemma size_st32 m a v : 0 <= v < 2 ^ 32 -> size (st32 m (a + 8) v) a = v.
Proof. intros Hv. unfold size. rewrite ld_st_same. apply Z.mod_small. done. Qed.
Lemma ptr_st32 m a v : ptr (st32 m (a + 8) v) a = ptr m a.
Proof. apply ld_st_other. lia. Qed.
Lemma size_st64 m a v : size (st64 m a v) a = size m a.
Proof. apply ld_st_other. lia. Qed.

(** [outside m m' l]: nothing changed except the headers at the addresses [l]. *)
Definition outside (m m' : bytes) (l : list Z) : Prop :=
  forall x, (forall a, a ∈ l -> x < a \/ a + HDR <= x) -> m' x = m x.

Lemma outside_st64 m a v : outside m (st64 m a v) [a].
Proof. intros x Hx. apply st_other. specialize (Hx a (list_elem_of_here _ _)). unfold HDR in *. lia. Qed.
Lemma outside_st32 m a v : outside m (st32 m (a + 8) v) [a].
Proof. intros x Hx. apply st_other. specialize (Hx a (list_elem_of_here _ _)). unfold HDR in *. lia. Qed.
Lemma outside_trans m1 m2 m3 l1 l2 : outside m1 m2 l1 -> outside m2 m3 l2 -> outside m1 m3 (l1 ++ l2).
Proof.
  intros H1 H2 x Hx. rewrite H2, H1; [done| |]; intros a Ha; apply Hx, elem_of_app; auto.
Qed.
Lemma outside_sub m m' l l' : outside m m' l -> l ⊆ l' -> outside m m' l'.
Proof. intros H Hl x Hx. apply H. auto. Qed.
Lemma outside_hdr m m' l a : outside m m' l -> (forall b, b ∈ l -> a + HDR <= b \/ b + HDR <= a) -> same_hdr m' m a.
Proof. intros H Ha x Hx. apply H. intros b Hb. specialize (Ha b Hb). lia. Qed.

(** ** The list as a path of pointers *)

Fixpoint path (m : bytes) (l : list Z) : Prop :=
  match l with
  | a :: l' => match l' with b :: _ => ptr m a = b /\ path m l' | [] => True end
  | [] => True
  end.

Lemma path_cons m a b l : path m (a :: b :: l) <-> ptr m a = b /\ path m (b :: l).
Proof. done. Qed.

Lemma path_tail m a l : path m (a :: l) -> path m l.
Proof. destruct l; [done|]. by intros [_ H]. Qed.

Lemma path_app m l1 a l2 : path m (l1 ++ a :: l2) <-> path m (l1 ++ [a]) /\ path m (a :: l2).
Proof.
  induction l1 as [|b l1 IH]; [simpl; tauto|]. destruct l1 as [|c l1].
  - cbn [app]. rewrite !path_cons. simpl. tauto.
  - cbn [app] in *. rewrite !path_cons, IH. tauto.
Qed.

Lemma path_ext_ptr m m' l z : (forall a, a ∈ l -> ptr m' a = ptr m a) -> path m (l ++ [z]) -> path m' (l ++ [z]).
Proof.
  induction l as [|a l IH]; intros Hs Hp; [done|].
  assert (ptr m' a = ptr m a) as E by (apply Hs, list_elem_of_here).
  destruct l as [|b l]; cbn [app] in *; apply path_cons in Hp as [Hp1 Hp2]; apply path_cons.
  - split; [congruence|done].
  - split; [congruence|]. apply IH; [|done]. intros x Hx. apply Hs. by right.
Qed.
Lemma path_ext m m' l z : (forall a, a ∈ l -> same_hdr m' m a) -> path m (l ++ [z]) -> path m' (l ++ [z]).
Proof. intros H. apply path_ext_ptr. intros a Ha. by apply same_hdr_ptr, H. Qed.

(** Reading the list from another of its nodes. *)
Lemma path_rotate m l u f v : l = u ++ f :: v -> path m (l ++ [hd 0 l]) -> path m (f :: v ++ u ++ [f]).
Proof.
  intros -> Hp. destruct u as [|b u]; cbn [app hd] in *; [done|].
  assert (b :: (u ++ f :: v) ++ [b] = (b :: u) ++ f :: (v ++ [b])) as E by (cbn; by rewrite <- app_assoc).
  rewrite E in Hp. apply path_app in Hp as [H1 H2].
  change (f :: v ++ b :: u ++ [f]) with ((f :: v) ++ b :: (u ++ [f])). apply path_app. done.
Qed.

(** ** Segments *)

Definition seg : Type := Z * bool.
(** The objects of the program: what it last stored at each pointer it has. *)
Abbreviation objects := (gmap Z (list Z)).
Fixpoint total (s : list seg) : Z := match s with [] => 0 | (n, _) :: r => n + total r end.
(** Addresses of the free segments, and address and size of those in use,
    of a row of segments that starts at [a]. *)
Fixpoint frees (a : Z) (s : list seg) : list Z :=
  match s with [] => [] | (n, u) :: r => (if u : bool then [] else [a]) ++ frees (a + HDR * n) r end.
Fixpoint used (a : Z) (s : list seg) : list (Z * Z) :=
  match s with [] => [] | (n, u) :: r => (if u : bool then [(a, n)] else []) ++ used (a + HDR * n) r end.
Fixpoint sizes_ok (m : bytes) (a : Z) (s : list seg) : Prop :=
  match s with [] => True | (n, _) :: r => size m a = n /\ 0 < n /\ sizes_ok m (a + HDR * n) r end.
(** No two neighbours are free; [f]: the segment before is free. *)
Fixpoint coalesced (f : bool) (s : list seg) : Prop :=
  match s with [] => True | (_, u) :: r => (f = true -> u = true) /\ coalesced (negb u) r end.
Fixpoint ends_free (f : bool) (s : list seg) : bool :=
  match s with [] => f | (_, u) :: r => ends_free (negb u) r end.

Lemma total_app s1 s2 : total (s1 ++ s2) = total s1 + total s2.
Proof. induction s1 as [|[n u] s1 IH]; simpl; lia. Qed.
Lemma frees_app s1 : forall a s2, frees a (s1 ++ s2) = frees a s1 ++ frees (a + HDR * total s1) s2.
Proof.
  induction s1 as [|[n u] s1 IH]; intros a s2; simpl; [by rewrite Z.mul_0_r, Z.add_0_r|].
  rewrite IH, <- app_assoc. do 3 f_equal. lia.
Qed.
Lemma used_app s1 : forall a s2, used a (s1 ++ s2) = used a s1 ++ used (a + HDR * total s1) s2.
Proof.
  induction s1 as [|[n u] s1 IH]; intros a s2; simpl; [by rewrite Z.mul_0_r, Z.add_0_r|].
  rewrite IH, <- app_assoc. do 3 f_equal. lia.
Qed.
Lemma sizes_app m s1 : forall a s2, sizes_ok m a (s1 ++ s2) <-> sizes_ok m a s1 /\ sizes_ok m (a + HDR * total s1) s2.
Proof.
  induction s1 as [|[n u] s1 IH]; intros a s2; simpl; [rewrite Z.mul_0_r, Z.add_0_r; tauto|].
  rewrite IH. replace (a + HDR * (n + total s1)) with (a + HDR * n + HDR * total s1) by lia. tauto.
Qed.
Lemma sizes_total m s : forall a, sizes_ok m a s -> 0 <= total s.
Proof. induction s as [|[n u] s IH]; intros a H; simpl in *; [lia|]. destruct H as (_ & ? & H). apply IH in H. lia. Qed.
Lemma coalesced_app s1 : forall f s2, coalesced f (s1 ++ s2) <-> coalesced f s1 /\ coalesced (ends_free f s1) s2.
Proof. induction s1 as [|[n u] s1 IH]; intros f s2; simpl; [tauto|]. rewrite IH. tauto. Qed.
Lemma coalesced_weaken s : coalesced true s -> coalesced false s.
Proof. by destruct s as [|[n u] s]; [|intros [_ ?]]. Qed.
Lemma ends_free_snoc s1 : forall f n u, ends_free f (s1 ++ [(n, u)]) = negb u.
Proof. induction s1 as [|[k w] s1 IH]; intros f n u; simpl; [done|apply IH]. Qed.

Lemma frees_range m s : forall a x, sizes_ok m a s -> x ∈ frees a s -> a <= x /\ x + HDR <= a + HDR * total s.
Proof.
  induction s as [|[n u] s IH]; intros a x Hs Hx; simpl in *; [by apply elem_of_nil in Hx|].
  destruct Hs as (_ & Hn & Hs). pose proof (sizes_total _ _ _ Hs). apply elem_of_app in Hx as [Hx|Hx].
  - destruct u; [by apply elem_of_nil in Hx|]. apply list_elem_of_singleton in Hx as ->. unfold HDR. lia.
  - apply (IH _ _ Hs) in Hx. unfold HDR in *. lia.
Qed.
Lemma used_range m s : forall a x n, sizes_ok m a s -> (x, n) ∈ used a s ->
  a <= x /\ 0 < n /\ x + HDR * n <= a + HDR * total s.
Proof.
  induction s as [|[k u] s IH]; intros a x n Hs Hx; simpl in *; [by apply elem_of_nil in Hx|].
  destruct Hs as (_ & Hn & Hs). pose proof (sizes_total _ _ _ Hs). apply elem_of_app in Hx as [Hx|Hx].
  - destruct u; [|by apply elem_of_nil in Hx]. apply list_elem_of_singleton in Hx as [= -> ->]. unfold HDR. lia.
  - apply (IH _ _ _ Hs) in Hx. unfold HDR in *. lia.
Qed.

(** Addresses of all headers. *)
Fixpoint heads (a : Z) (s : list seg) : list Z :=
  match s with [] => [] | (n, _) :: r => a :: heads (a + HDR * n) r end.

Lemma heads_range m s : forall a x, sizes_ok m a s -> x ∈ heads a s -> a <= x /\ x + HDR <= a + HDR * total s.
Proof.
  induction s as [|[n u] s IH]; intros a x Hs Hx; simpl in *; [by apply elem_of_nil in Hx|].
  destruct Hs as (_ & Hn & Hs). pose proof (sizes_total _ _ _ Hs). apply elem_of_cons in Hx as [-> |Hx].
  - unfold HDR. lia.
  - apply (IH _ _ Hs) in Hx. unfold HDR in *. lia.
Qed.
Lemma heads_app s1 : forall a s2, heads a (s1 ++ s2) = heads a s1 ++ heads (a + HDR * total s1) s2.
Proof.
  induction s1 as [|[n u] s1 IH]; intros a s2; simpl; [by rewrite Z.mul_0_r, Z.add_0_r|].
  rewrite IH. do 3 f_equal. lia.
Qed.
Lemma heads_far m s : forall a x y, sizes_ok m a s -> x ∈ heads a s -> y ∈ heads a s ->
  x = y \/ x + HDR <= y \/ y + HDR <= x.
Proof.
  induction s as [|[n u] s IH]; intros a x y Hs Hx Hy; simpl in *; [by apply elem_of_nil in Hx|].
  destruct Hs as (_ & Hn & Hs). apply elem_of_cons in Hx, Hy.
  destruct Hx as [-> |Hx], Hy as [-> |Hy]; [auto| | |by eapply IH];
    [apply (heads_range _ _ _ _ Hs) in Hy|apply (heads_range _ _ _ _ Hs) in Hx]; unfold HDR in *; lia.
Qed.
Lemma frees_heads s : forall a x, x ∈ frees a s -> x ∈ heads a s.
Proof.
  induction s as [|[n u] s IH]; intros a x Hx; simpl in *; [done|]. apply elem_of_app in Hx as [Hx|Hx].
  - destruct u; [by apply elem_of_nil in Hx|]. apply list_elem_of_singleton in Hx as ->. by left.
  - right. by apply IH.
Qed.
(** Blocks in use are disjoint from free memory. *)
Lemma used_apart m s : forall a b k x, sizes_ok m a s -> (b, k) ∈ used a s -> x ∈ frees a s ->
  x + HDR * size m x <= b \/ b + HDR * k <= x.
Proof.
  induction s as [|[n u] s IH]; intros a b k x Hs Hb Hx; simpl in *; [by apply elem_of_nil in Hx|].
  destruct Hs as (E & Hn & Hs). destruct u; cbn [app] in *.
  - apply elem_of_cons in Hb as [[= -> ->]|Hb]; [|by eapply IH]. apply (frees_range m) in Hx; [|done]. lia.
  - apply elem_of_cons in Hx as [-> |Hx]; [|by eapply IH]. apply (used_range m) in Hb; [|done]. lia.
Qed.
Lemma frees_split s : forall a x, x ∈ frees a s -> exists s1 n s2, s = s1 ++ (n, false) :: s2 /\ x = a + HDR * total s1.
Proof.
  induction s as [|[n u] s IH]; intros a x Hx; simpl in *; [by apply elem_of_nil in Hx|].
  apply elem_of_app in Hx as [Hx|Hx].
  - destruct u; [by apply elem_of_nil in Hx|]. apply list_elem_of_singleton in Hx as ->. exists [], n, s. cbn. split; [done|lia].
  - destruct (IH _ _ Hx) as (s1 & k & s2 & -> & ->). exists ((n, u) :: s1), k, s2. cbn [total app]. split; [done|lia].
Qed.
Lemma used_split s : forall a x n, (x, n) ∈ used a s -> exists s1 s2, s = s1 ++ (n, true) :: s2 /\ x = a + HDR * total s1.
Proof.
  induction s as [|[k u] s IH]; intros a x n Hx; simpl in *; [by apply elem_of_nil in Hx|].
  apply elem_of_app in Hx as [Hx|Hx].
  - destruct u; [|by apply elem_of_nil in Hx]. apply list_elem_of_singleton in Hx as [= -> ->]. exists [], s. cbn. split; [done|lia].
  - destruct (IH _ _ _ Hx) as (s1 & s2 & -> & ->). exists ((k, u) :: s1), s2. cbn [total app]. split; [done|lia].
Qed.
Lemma sizes_ext m m' s : forall a, (forall x, x ∈ heads a s -> size m' x = size m x) -> sizes_ok m a s -> sizes_ok m' a s.
Proof.
  induction s as [|[n u] s IH]; intros a Hh Hs; simpl in *; [done|]. destruct Hs as (E & Hn & Hs). split.
  - rewrite Hh; [done|]. by left.
  - split; [done|]. apply IH; [|done]. intros x Hx. apply Hh. by right.
Qed.
Lemma frees_extent m s : forall a x, sizes_ok m a s -> x ∈ frees a s ->
  0 < size m x /\ x + HDR * size m x <= a + HDR * total s.
Proof.
  induction s as [|[n u] s IH]; intros a x Hs Hx; simpl in *; [by apply elem_of_nil in Hx|].
  destruct Hs as (E & Hn & Hs). pose proof (sizes_total _ _ _ Hs). apply elem_of_app in Hx as [Hx|Hx].
  - destruct u; [by apply elem_of_nil in Hx|]. apply list_elem_of_singleton in Hx as ->. unfold HDR. lia.
  - apply (IH _ _ Hs) in Hx. unfold HDR in *. lia.
Qed.
(** Headers do not overlap. *)
Definition far (x y : Z) : Prop := x + HDR <= y.
Lemma frees_sorted m s : forall a, sizes_ok m a s -> StronglySorted far (frees a s).
Proof.
  induction s as [|[n u] s IH]; intros a Hs; simpl in *; [constructor|]. destruct Hs as (E & Hn & Hs).
  destruct u; [by apply IH|]. constructor; [by apply IH|]. apply Forall_forall. intros x Hx.
  apply (frees_range m) in Hx; [|done]. unfold far, HDR in *. lia.
Qed.

Section ring.
Context (base hs : Z) (has_pages : Z -> bool).
Hypothesis base_pos : 0 < base.
Hypothesis base_hs : base + HDR <= hs.
(** A heap the eager sbrk can reach is far below 2^32 units. *)
Definition HEAP_MAX : Z := 2 ^ 34.
Hypothesis pages_bounded : forall z, has_pages z = true -> z <= HEAP_MAX.

Record hinv (h : heap) (s : list seg) : Prop := HInv {
  hv_brk : brk h = hs + HDR * total s;
  hv_top : brk h <= HEAP_MAX;
  hv_sizes : sizes_ok (hmem h) hs s;
  hv_path : path (hmem h) (base :: frees hs s ++ [base]);
  hv_base : size (hmem h) base = 0;
  hv_freep : freep h ∈ base :: frees hs s;
  hv_coal : coalesced false s;
}.

(** ** free *)

(** Memory after free has found its place behind [p]. *)
Definition link_next (m : bytes) (bp p : Z) : bytes :=
  let q := ptr m p in
  let n := size m bp in
  if hadd bp n =? q then
    let m1 := st32 m (bp + 8) (u32 (n + size m q)) in st64 m1 bp (ptr m1 q)
  else st64 m bp q.
Definition link_prev (m : bytes) (bp p : Z) : bytes :=
  let k := size m p in
  if hadd p k =? bp then
    let m1 := st32 m (p + 8) (u32 (k + size m bp)) in st64 m1 p (ptr m1 bp)
  else st64 m p bp.

Definition stops (m : bytes) (bp p : Z) : bool :=
  ((p <? bp) && (bp <? ptr m p)) || ((ptr m p <=? p) && ((p <? bp) || (bp <? ptr m p))).

Lemma free_find_run bp h q l : forall f, path (hmem h) (l ++ [q]) ->
  Forall (fun x => stops (hmem h) bp x = false) l -> stops (hmem h) bp q = true ->
  loop (length l + S f) (free_find bp) (hd q l) h = Ret q h.
Proof.
  intros f Hp Hl Hq. induction l as [|a l IH]; simpl.
  - unfold bind, free_find, ptr_of, gets, bind, stops in *.
    by destruct ((q <? bp) && (bp <? ptr (hmem h) q)); cbn in *; [|rewrite Hq].
  - apply Forall_cons in Hl as [Ha Hl]. unfold stops in Ha.
    apply orb_false_iff in Ha as [Ha1 Ha2].
    rewrite (bind_step _ _ h (inl (ptr (hmem h) a)) h)
      by (unfold free_find, bind, ptr_of, gets; by rewrite Ha1; cbn; rewrite Ha2).
    assert (ptr (hmem h) a = hd q l /\ path (hmem h) (l ++ [q])) as [-> Hp'] by (destruct l as [|b l]; [split; [apply Hp|done]|exact Hp]).
    by apply IH.
Qed.

Lemma free_link bp p h : u64 (bp + HDR - HDR) = bp ->
  loop (ring_fuel h) (free_find bp) (freep h) h = Ret p h ->
  free (bp + HDR) h = Ret tt (Heap (link_prev (link_next (hmem h) bp p) bp p) p (brk h)).
Proof.
  intros Eb E. unfold free. rewrite Eb. unfold bind at 1, gets at 1. unfold bind at 1, gets at 1.
  rewrite (bind_step _ _ _ _ _ E). unfold link_prev, link_next.
  unfold bind, ptr_of, size_of, gets, set_size, set_ptr, modify, set_hmem, set_freep. cbn.
  destruct (hadd bp _ =? _); cbn; destruct (hadd p _ =? bp); reflexivity.
Qed.

Lemma ptr_next m a x b z : path m (a ++ x :: b ++ [z]) -> ptr m x = hd z b.
Proof. intros [_ Hp]%path_app. destruct b; cbn [app hd] in *; by apply path_cons in Hp as [Hp _]. Qed.

Lemma ring_sorted m s : sizes_ok m hs s -> StronglySorted far (base :: frees hs s).
Proof.
  intros Hs. constructor; [by eapply frees_sorted|]. apply Forall_forall. intros x Hx.
  apply (frees_range m) in Hx; [|done]. unfold far, HDR in *. lia.
Qed.

Lemma sorted_step (l : list Z) a x b y : l = a ++ x :: b -> StronglySorted far l -> y ∈ b -> x + HDR <= y.
Proof.
  intros -> Hs Hy. induction a as [|z a IH]; cbn in Hs; apply StronglySorted_inv in Hs as [H1 H2]; [|by apply IH].
  rewrite Forall_forall in H2. by apply H2.
Qed.

Lemma sorted_nodup (l : list Z) : StronglySorted far l -> NoDup l.
Proof.
  induction 1 as [|x l Hs IH Hx]; constructor; [|done]. intros Hin. rewrite Forall_forall in Hx. specialize (Hx x Hin). unfold far, HDR in *. lia.
Qed.

Lemma frees_count m s : forall a, sizes_ok m a s -> Z.of_nat (length (frees a s)) <= total s.
Proof.
  induction s as [|[n u] s IH]; intros a Hs; simpl in *; [done|]. destruct Hs as (_ & Hn & Hs). specialize (IH _ Hs).
  destruct u; simpl; lia.
Qed.

Lemma ring_fuel_enough h s : hinv h s -> (S (length (base :: frees hs s)) <= ring_fuel h)%nat.
Proof.
  intros [A1 A2 A3 _ _ _ _]. pose proof (frees_count _ _ _ A3). unfold ring_fuel. rewrite A1. simpl.
  assert (total s <= (hs + HDR * total s) / HDR) by (unfold HDR in *; Z.div_mod_to_equations; lia). lia.
Qed.

(** An invariant heap from its parts: a row with a free segment [(k, false)]. *)
Lemma assemble m f b sA k t l : base :: frees hs sA = l -> let a := hs + HDR * total sA in
  b = hs + HDR * total (sA ++ (k, false) :: t) -> b <= HEAP_MAX ->
  sizes_ok m hs sA -> size m a = k -> 0 < k -> sizes_ok m (a + HDR * k) t ->
  path m (l ++ [a]) -> ptr m a = hd base (frees (a + HDR * k) t) -> path m (frees (a + HDR * k) t ++ [base]) ->
  size m base = 0 -> f ∈ l ++ [a] -> coalesced false sA -> ends_free false sA = false -> coalesced true t ->
  hinv (Heap m f b) (sA ++ (k, false) :: t).
Proof.
  intros El a Eb Hb H1 Ek Hk H2 P1 P2 P3 H0 Hf C1 Ce C2. split; cbn [hmem freep brk]; try done.
  - apply sizes_app. done.
  - rewrite frees_app. cbn [frees app]. fold a. rewrite <- app_assoc, app_comm_cons, El. cbn [app]. apply path_app. split; [done|].
    destruct (frees (a + HDR * k) t); cbn [app hd] in *; split; done.
  - rewrite frees_app. cbn [frees app]. fold a. rewrite app_comm_cons, El, elem_of_app, elem_of_cons.
    apply elem_of_app in Hf as [?|?%list_elem_of_singleton]; auto.
  - apply coalesced_app. split; [done|]. rewrite Ce. done.
Qed.

Section place.
Context (h : heap) (s1 : list seg) (n : Z) (s2 : list seg) (l : list Z) (p : Z).
Hypothesis inv : hinv h (s1 ++ (n, true) :: s2).
Hypothesis before : base :: frees hs s1 = l ++ [p].
Let bp := hs + HDR * total s1.
Let e := bp + HDR * n.

Lemma place_sizes : sizes_ok (hmem h) hs s1 /\ size (hmem h) bp = n /\ 0 < n /\ sizes_ok (hmem h) e s2.
Proof. pose proof (hv_sizes _ _ inv) as Hs. by apply sizes_app in Hs. Qed.

Lemma place_ring : base :: frees hs (s1 ++ (n, true) :: s2) = l ++ p :: frees e s2.
Proof.
  rewrite frees_app, app_comm_cons, before, <- app_assoc. done.
Qed.

Lemma place_path : path (hmem h) (l ++ p :: frees e s2 ++ [base]).
Proof.
  pose proof (hv_path _ _ inv) as Hp. rewrite app_comm_cons, place_ring, <- app_assoc in Hp. exact Hp.
Qed.

Lemma place_below x : x ∈ l ++ [p] -> base <= x < bp.
Proof.
  rewrite <- before. intros [-> |Hx]%elem_of_cons; destruct place_sizes as (Hs & _);
    pose proof (sizes_total _ _ _ Hs); unfold bp, HDR in *; [lia|].
  apply (frees_range (hmem h)) in Hx; [|done]. unfold HDR in *. lia.
Qed.

Lemma place_above x : x ∈ frees e s2 -> e <= x.
Proof. destruct place_sizes as (_ & _ & Hn & Hs). intros Hx. apply (frees_range (hmem h)) in Hx; [apply Hx|done]. Qed.

Lemma place_stops x : x ∈ l ++ p :: frees e s2 -> stops (hmem h) bp x = bool_decide (x = p).
Proof.
  intros Hx. pose proof place_path as Hp. pose proof (ring_sorted _ _ (hv_sizes _ _ inv)) as Hso. rewrite place_ring in Hso.
  destruct place_sizes as (_ & _ & Hn & _). assert (bp < e) as He by (unfold e, HDR; lia). unfold stops.
  apply elem_of_app in Hx as [Hx|[-> |Hx]%elem_of_cons].
  - apply list_elem_of_split in Hx as (a & b & El). rewrite El, <- app_assoc in Hp. cbn [app] in Hp.
    assert (ptr (hmem h) x = hd p b /\ hd p b ∈ b ++ [p]) as [-> Hin].
    { apply path_app in Hp as [_ Hp]. destruct b; cbn [app hd] in *; apply path_cons in Hp as [Hp _]; split; try done; by left. }
    assert (x + HDR <= hd p b) as Hlt.
    { apply (sorted_step (l ++ p :: frees e s2) a x (b ++ p :: frees e s2) _ ltac:(by rewrite El, <- app_assoc) Hso).
      apply elem_of_app. apply elem_of_app in Hin as [?|?%list_elem_of_singleton]; [auto|]. right. rewrite H. left. }
    assert (hd p b < bp) by (apply place_below; rewrite El; rewrite <- app_assoc; apply elem_of_app; right; right; done).
    assert (x + HDR <= p) by (apply (sorted_step (l ++ p :: frees e s2) a x (b ++ p :: frees e s2) _ ltac:(by rewrite El, <- app_assoc) Hso);
      apply elem_of_app; right; left; done).
    unfold HDR in *. rewrite bool_decide_eq_false_2 by lia. zbool; lia.
  - rewrite bool_decide_eq_true_2 by done. rewrite (ptr_next _ _ _ _ _ Hp).
    pose proof (place_below p ltac:(apply elem_of_app; right; by left)).
    destruct (frees e s2) as [|y v] eqn:Ev; cbn [hd].
    + zbool; lia.
    + assert (e <= y) by (apply place_above; rewrite Ev; by left). zbool; lia.
  - pose proof (place_above x Hx). apply list_elem_of_split in Hx as (a & b & Ev). rewrite Ev in *.
    pose proof (place_below p ltac:(apply elem_of_app; right; by left)).
    rewrite bool_decide_eq_false_2 by lia.
    assert (l ++ p :: (a ++ x :: b) ++ [base] = (l ++ p :: a) ++ x :: b ++ [base]) as E1
      by (by rewrite <- !app_assoc).
    rewrite E1 in Hp. rewrite (ptr_next _ _ _ _ _ Hp). destruct b as [|y b]; cbn [hd]; [zbool; lia|].
    assert (x + HDR <= y) by (apply (sorted_step (l ++ p :: a ++ x :: y :: b) (l ++ p :: a) x (y :: b) _ ltac:(by rewrite <- app_assoc) Hso); by left).
    unfold HDR in *. zbool; lia.
Qed.

Lemma place_found : loop (ring_fuel h) (free_find bp) (freep h) h = Ret p h.
Proof.
  pose proof (hv_freep _ _ inv) as Hf. pose proof (hv_path _ _ inv) as Hp. pose proof (ring_fuel_enough _ _ inv) as Hfu.
  pose proof (sorted_nodup _ (ring_sorted _ _ (hv_sizes _ _ inv))) as Hnd.
  rewrite app_comm_cons in Hp. apply list_elem_of_split in Hf as (u & v & Eu).
  pose proof (path_rotate _ _ _ _ _ Eu Hp) as Hr.
  assert (freep h :: v ++ u ≡ₚ base :: frees hs (s1 ++ (n, true) :: s2)) as Hperm by (rewrite Eu; solve_Permutation).
  assert (p ∈ freep h :: v ++ u) as Hin by (rewrite Hperm, place_ring; apply elem_of_app; right; by left).
  apply list_elem_of_split in Hin as (l1 & l2 & El).
  assert (path (hmem h) (l1 ++ [p])) as Hp1.
  { assert (freep h :: v ++ u ++ [freep h] = l1 ++ p :: l2 ++ [freep h]) as E
      by (rewrite (app_assoc v u), app_comm_cons, El; by rewrite <- app_assoc).
    rewrite E in Hr. by apply path_app in Hr as [Hr _]. }
  assert (hd p l1 = freep h) as Eh by (destruct l1; cbn in El; by injection El).
  rewrite <- Hperm, El in Hnd. rewrite <- Hperm, El in Hfu. rewrite length_app in Hfu. cbn in Hfu.
  replace (ring_fuel h) with (length l1 + S (ring_fuel h - length l1 - 1))%nat by lia. rewrite <- Eh.
  apply free_find_run; [done| |].
  - apply Forall_forall. intros x Hx. rewrite place_stops.
    + apply bool_decide_eq_false_2. intros ->. apply NoDup_app in Hnd as (_ & Hnd & _). apply (Hnd p Hx). by left.
    + rewrite <- place_ring, <- Hperm, El. apply elem_of_app. by left.
  - rewrite place_stops; [by apply bool_decide_eq_true_2|]. apply elem_of_app. right. by left.
Qed.

Lemma place_bounds : hs <= bp /\ 0 < total s1 + n + total s2 + 1 /\ e + HDR * total s2 <= HEAP_MAX /\ 0 <= total s2 /\ 0 <= total s1.
Proof.
  destruct place_sizes as (H1 & _ & Hn & H2). pose proof (sizes_total _ _ _ H1). pose proof (sizes_total _ _ _ H2).
  pose proof (hv_brk _ _ inv) as Hb. pose proof (hv_top _ _ inv). rewrite total_app in Hb. cbn [total] in Hb.
  unfold e, bp, HDR in *. lia.
Qed.

(** What is left of the row behind the freed segment, of size [n'] after
    merging, is [t]. *)
Definition merged_next (m m1 : bytes) (n' : Z) (t : list seg) : Prop :=
  let e' := bp + HDR * n' in
  n <= n' /\ ptr m1 bp = hd base (frees e' t) /\ size m1 bp = n' /\ outside m m1 [bp] /\
  used e' t = used e s2 /\ coalesced true t /\ sizes_ok m e' t /\ path m (frees e' t ++ [base]) /\
  n' + total t = n + total s2 /\ (length (frees e' t) <= length (frees e s2))%nat.

Lemma link_next_ok : exists n' t, merged_next (hmem h) (link_next (hmem h) bp p) n' t.
Proof.
  destruct place_sizes as (_ & En & Hn & Hs2). destruct place_bounds as (B1 & _ & B2 & B3 & B4).
  pose proof (hv_coal _ _ inv) as Hc. apply coalesced_app in Hc as [_ [_ Hc]]. cbn [negb] in Hc.
  pose proof (ptr_next _ _ _ _ _ place_path) as Ep. pose proof place_path as Hp. apply path_app in Hp as [_ Hp].
  assert (hadd bp n = e) as Ee by (apply wrap_small; unfold e, HDR, HEAP_MAX in *; lia).
  unfold link_next. rewrite Ep, En, Ee. unfold merged_next.
  destruct s2 as [|[n2 [|]] t2] eqn:E2; cbn [frees app hd] in *.
  - assert (e <> base) by (unfold e, bp, HDR in *; lia). rewrite (proj2 (Z.eqb_neq e base)) by done.
    exists n, []. rewrite ptr_st64, size_st64 by (unfold HDR, HEAP_MAX in *; lia).
    split_and!; try done; try lia. apply outside_st64.
  - destruct Hs2 as (E1 & Hn2 & Hs2). destruct Hc as [_ Hc].
    assert (base < e /\ forall x, x ∈ frees (e + HDR * n2) t2 -> e < x < 2 ^ 64) as [Hbe Hx].
    { split; [unfold e, bp, HDR in *; lia|]. intros x Hx. apply (frees_range (hmem h)) in Hx; [|done].
      cbn [total] in *. unfold HDR, HEAP_MAX in *. lia. }
    assert (hd base (frees (e + HDR * n2) t2) <> e /\ 0 <= hd base (frees (e + HDR * n2) t2) < 2 ^ 64) as [Hne Hr].
    { destruct (frees (e + HDR * n2) t2) as [|y v]; cbn [hd]; [unfold HDR, HEAP_MAX in *; lia|].
      specialize (Hx y ltac:(by left)). lia. }
    rewrite (proj2 (Z.eqb_neq e _)) by done. exists n, ((n2, true) :: t2). cbn [frees used sizes_ok coalesced negb total app] in *.
    rewrite ptr_st64, size_st64 by done.
    split_and!; try done; try lia; [apply outside_st64|]. by eapply path_tail.
  - destruct Hs2 as (E1 & Hn2 & Hs2). destruct Hc as [_ Hc]. rewrite Z.eqb_refl, E1.
    cbn [total] in *. pose proof (sizes_total _ _ _ Hs2).
    assert (e + HDR * n2 = bp + HDR * (n + n2)) as Ea by (unfold e; lia). rewrite Ea in *.
    assert (ptr (st32 (hmem h) (bp + 8) (u32 (n + n2))) e = hd base (frees (bp + HDR * (n + n2)) t2)) as Eq.
    { rewrite (same_hdr_ptr _ (hmem h)); [|eapply outside_hdr; [apply outside_st32|]].
      - apply (ptr_next _ [p]). done.
      - intros b ->%list_elem_of_singleton. unfold e, HDR in *. lia. }
    rewrite Eq. exists (n + n2), t2. cbn [used app].
    assert (0 <= hd base (frees (bp + HDR * (n + n2)) t2) < 2 ^ 64) as Hr.
    { destruct (frees (bp + HDR * (n + n2)) t2) as [|y v] eqn:Ev; cbn [hd]; [unfold HDR, HEAP_MAX in *; lia|].
      assert (y ∈ frees (bp + HDR * (n + n2)) t2) as Hy by (rewrite Ev; by left).
      apply (frees_range (hmem h)) in Hy; [|done]. unfold HDR, HEAP_MAX in *. lia. }
    assert (u32 (n + n2) = n + n2) as Eu by (apply wrap_small; unfold e, HDR, HEAP_MAX in *; lia). rewrite Eu.
    rewrite ptr_st64, size_st64, size_st32 by (try done; unfold e, HDR, HEAP_MAX in *; lia).
    split_and!; try done; try lia.
    + eapply outside_sub; [eapply outside_trans; [apply outside_st32|apply outside_st64]|]. by intros x [?|?]%elem_of_app.
    + by rewrite Ea.
    + by do 2 eapply path_tail.
    + cbn [frees app length]. rewrite ?Ea. lia.
Qed.

Lemma prev_split : (exists t1 k, s1 = t1 ++ [(k, false)] /\ p = hs + HDR * total t1 /\ l = base :: frees hs t1) \/
  (ends_free false s1 = false /\ 0 <= size (hmem h) p /\ p + HDR * size (hmem h) p < bp).
Proof.
  destruct place_sizes as (Hs & _). pose proof (hv_base _ _ inv) as Hb. pose proof before as Hl. unfold bp.
  destruct s1 as [|[k u] t1 _] using rev_ind.
  - right. destruct l as [|? [|]]; try done. injection Hl as <-. rewrite Hb. cbn. unfold HDR in *. lia.
  - apply sizes_app in Hs as [Hs [Ek [Hk _]]]. rewrite ends_free_snoc, total_app, frees_app in *. cbn [total frees app negb] in *.
    destruct u; cbn [negb app] in *.
    + right. split; [done|]. rewrite app_nil_r in Hl. pose proof (sizes_total _ _ _ Hs).
      assert (p ∈ base :: frees hs t1) as Hin by (rewrite Hl; apply elem_of_app; right; by left).
      apply elem_of_cons in Hin as [-> |Hin]; [rewrite Hb; unfold HDR in *; lia|].
      apply (frees_extent (hmem h)) in Hin; [|done]. unfold HDR in *. lia.
    + left. exists t1, k. rewrite app_comm_cons in Hl. by apply app_inj_tail in Hl as [-> ->].
Qed.

Lemma place_apart x : x ∈ l -> x + HDR <= p.
Proof.
  intros Hx. pose proof (ring_sorted _ _ (hv_sizes _ _ inv)) as Hso. rewrite place_ring in Hso.
  apply list_elem_of_split in Hx as (a & b & ->).
  apply (sorted_step ((a ++ x :: b) ++ p :: frees e s2) a x (b ++ p :: frees e s2)); [by rewrite <- app_assoc|done|].
  apply elem_of_app. right. by left.
Qed.

Lemma place_p_bp : p + HDR <= bp.
Proof.
  assert (p ∈ base :: frees hs s1) as Hin by (rewrite before; apply elem_of_app; right; by left).
  destruct place_sizes as (Hs & _). destruct place_bounds as (? & _).
  apply elem_of_cons in Hin as [-> |Hin]; [lia|]. apply (frees_range (hmem h)) in Hin; [|done]. unfold bp. lia.
Qed.

Section linked.
Context (n' : Z) (t : list seg).
Let m := hmem h.
Let m1 := link_next m bp p.
Let m2 := link_prev m1 bp p.
Let e' := bp + HDR * n'.
Hypothesis merged : merged_next m m1 n' t.

(** The row after free. *)
Definition freed (s' : list seg) : Prop :=
  hinv (Heap m2 p (brk h)) s' /\ used hs s' = used hs s1 ++ used e s2 /\
  (exists k, (k, false) ∈ s' /\ n <= k) /\ outside m m2 [bp; p] /\
  (length (frees hs s') <= S (length (frees hs s1) + length (frees e s2)))%nat.

Lemma linked_bounds : 0 < n <= n' /\ 0 <= total t /\ e' + HDR * total t <= HEAP_MAX /\ base <= p /\ p + HDR <= bp.
Proof.
  destruct merged as (Hn' & _ & _ & _ & _ & _ & Hs2 & _ & Et & _). destruct place_bounds as (B1 & _ & B2 & B3 & B4).
  destruct place_sizes as (_ & _ & Hn & _). pose proof (sizes_total _ _ _ Hs2). pose proof place_p_bp.
  assert (base <= p) by (apply place_below; apply elem_of_app; right; by left). unfold e', e, HDR in *. lia.
Qed.

Lemma linked_size_p : size m1 p = size m p.
Proof.
  destruct merged as (_ & _ & _ & Ho & _). apply same_hdr_size, (outside_hdr _ _ _ _ Ho).
  intros b ->%list_elem_of_singleton. left. apply linked_bounds.
Qed.

Lemma linked_rest m' : outside m m' [bp; p] -> sizes_ok m' e' t /\ path m' (frees e' t ++ [base]) /\ path m' (l ++ [p]).
Proof.
  intros Hm. destruct merged as (_ & _ & _ & _ & _ & _ & Hs2 & Hp2 & _). fold e' in Hs2, Hp2. pose proof linked_bounds as Hb.
  split; [|split].
  - eapply sizes_ext; [|exact Hs2]. intros x Hx. apply same_hdr_size, (outside_hdr _ _ _ _ Hm).
    apply (heads_range m) in Hx; [|done]. intros b [-> | ->%list_elem_of_singleton]%elem_of_cons; unfold e', HDR in *; lia.
  - apply (path_ext m); [|done]. intros x Hx. apply (outside_hdr _ _ _ _ Hm). apply (frees_range m) in Hx; [|done].
    intros b [-> | ->%list_elem_of_singleton]%elem_of_cons; unfold e', HDR in *; lia.
  - apply (path_ext m); [|pose proof place_path as Hp; by apply path_app in Hp as [? _]].
    intros x Hx. apply (outside_hdr _ _ _ _ Hm). pose proof (place_apart x Hx).
    intros b [-> | ->%list_elem_of_singleton]%elem_of_cons; unfold HDR in *; lia.
Qed.

Lemma linked_next_range : 0 <= hd base (frees e' t) < 2 ^ 64.
Proof.
  pose proof linked_bounds as Hb. destruct merged as (_ & _ & _ & _ & _ & _ & Hs2 & _). fold e' in Hs2.
  destruct (frees e' t) as [|y v] eqn:Ev; cbn [hd]; [unfold HDR, HEAP_MAX in *; lia|].
  assert (y ∈ frees e' t) as Hy by (rewrite Ev; by left).
  apply (frees_range m) in Hy; [|done]. unfold e', HDR, HEAP_MAX in *. lia.
Qed.

Lemma linked_total : brk h = hs + HDR * (total s1 + n' + total t) /\ brk h <= HEAP_MAX.
Proof.
  pose proof (hv_brk _ _ inv) as Hbrk. rewrite total_app in Hbrk. cbn [total] in Hbrk.
  destruct merged as (_ & _ & _ & _ & _ & _ & _ & _ & Et & _). split; [lia|apply inv].
Qed.

(** The segment in front is free: the three become one. *)
Lemma link_join t1 k : s1 = t1 ++ [(k, false)] -> p = hs + HDR * total t1 -> l = base :: frees hs t1 ->
  freed (t1 ++ (k + n', false) :: t).
Proof.
  intros E1 Ep El. pose proof linked_bounds as Hb. pose proof linked_total as [Hbrk Htop].
  destruct merged as (_ & Eptr & Esz & Ho & Eu & Hc & _ & _ & _ & Hlen). fold e' in Eptr, Eu, Hlen.
  destruct place_sizes as (Hs1 & _). rewrite E1 in Hs1. apply sizes_app in Hs1 as [Hs1 (Ek & Hk & _)]. rewrite <- Ep in Ek.
  assert (bp = p + HDR * k) as Ebp by (unfold bp; rewrite E1, total_app; cbn [total]; lia).
  assert (p + HDR * (k + n') = e') as Ee by (unfold e'; lia).
  pose proof (hv_coal _ _ inv) as Hc1. rewrite E1 in Hc1. apply coalesced_app in Hc1 as [Hc1 _].
  apply coalesced_app in Hc1 as [Hc1 [Hce _]].
  assert (outside m m2 [bp; p] /\ size m2 p = k + n' /\ ptr m2 p = hd base (frees e' t)) as (Ho2 & Es2 & Ep2).
  { unfold m2, link_prev. rewrite linked_size_p. fold m in Ek. rewrite Ek, Esz.
    assert (hadd p k = bp) as -> by (rewrite Ebp; apply wrap_small; unfold e', HDR, HEAP_MAX in *; lia).
    rewrite Z.eqb_refl.
    assert (u32 (k + n') = k + n') as -> by (apply wrap_small; unfold e', HDR, HEAP_MAX in *; lia).
    rewrite (same_hdr_ptr _ m1 bp), Eptr
      by (eapply outside_hdr; [apply outside_st32|]; intros b ->%list_elem_of_singleton; lia).
    split; [|rewrite size_st64, size_st32, ptr_st64; [done|apply linked_next_range|unfold e', HDR, HEAP_MAX in *; lia]].
    eapply outside_sub; [eapply outside_trans; [exact Ho|eapply outside_trans; [apply outside_st32|apply outside_st64]]|].
    intros x Hx. set_unfold. tauto. }
  destruct (linked_rest m2 Ho2) as (R1 & R2 & R3).
  split; [|split; [|split; [|split; [done|]]]].
  - apply (assemble m2 p (brk h) t1 (k + n') t l); rewrite <- ?Ep, ?Ee; try done; try lia.
    + rewrite Hbrk, E1, !total_app. cbn [total]. lia.
    + eapply sizes_ext; [|exact Hs1]. intros x Hx. apply same_hdr_size, (outside_hdr _ _ _ _ Ho2).
      apply (heads_range (hmem h)) in Hx; [|done]. intros b [-> | ->%list_elem_of_singleton]%elem_of_cons; lia.
    + rewrite <- (hv_base _ _ inv). apply same_hdr_size, (outside_hdr _ _ _ _ Ho2).
      assert (base + HDR <= p) by (apply place_apart; rewrite El; by left).
      intros b [-> | ->%list_elem_of_singleton]%elem_of_cons; lia.
    + apply elem_of_app. right. by left.
    + destruct (ends_free false t1); [|done]. by specialize (Hce eq_refl).
  - rewrite E1, !used_app. cbn [used app]. rewrite <- Ep, app_nil_r, Ee. by rewrite Eu.
  - exists (k + n'). split; [apply elem_of_app; right; by left|lia].
  - rewrite E1, !frees_app, !length_app. cbn [frees app length]. rewrite <- Ep, Ee. lia.
Qed.

(** It is not: the segment is a node of its own. *)
Lemma link_alone : ends_free false s1 = false -> 0 <= size m p -> p + HDR * size m p < bp -> freed (s1 ++ (n', false) :: t).
Proof.
  intros Eend Hk0 Hk. pose proof linked_bounds as Hb. pose proof linked_total as [Hbrk Htop].
  destruct merged as (_ & Eptr & Esz & Ho & Eu & Hc & _ & _ & _ & Hlen). fold e' in Eptr, Eu, Hlen. destruct place_sizes as (Hs1 & _).
  pose proof (hv_coal _ _ inv) as Hc1. apply coalesced_app in Hc1 as [Hc1 _].
  assert (m2 = st64 m1 p bp) as Em2.
  { unfold m2, link_prev. rewrite linked_size_p, (proj2 (Z.eqb_neq (hadd p _) bp)); [done|].
    unfold hadd. rewrite wrap_small; unfold e', HDR, HEAP_MAX in *; lia. }
  assert (outside m m2 [bp; p]) as Ho2 by (rewrite Em2; exact (outside_trans _ _ _ _ _ Ho (outside_st64 m1 p bp))).
  assert (same_hdr m2 m1 bp) as Hbp.
  { rewrite Em2. eapply outside_hdr; [apply outside_st64|]. intros b ->%list_elem_of_singleton. lia. }
  assert (forall x, x = p \/ x + HDR <= p \/ p + HDR <= x -> x + HDR <= bp -> size m2 x = size m x) as Hsz.
  { intros x Hx Hxb. transitivity (size m1 x).
    - rewrite Em2. destruct Hx as [-> |Hx]; [apply size_st64|]. apply same_hdr_size. eapply outside_hdr; [apply outside_st64|].
      intros b ->%list_elem_of_singleton. lia.
    - apply same_hdr_size, (outside_hdr _ _ _ _ Ho). intros b ->%list_elem_of_singleton. lia. }
  assert (p ∈ base :: frees hs s1) as Hin by (rewrite before; apply elem_of_app; right; by left).
  destruct (linked_rest m2 Ho2) as (R1 & R2 & R3). destruct place_bounds as (B1 & _).
  split; [|split; [|split; [|split; [done|]]]].
  - apply (assemble m2 p (brk h) s1 n' t (l ++ [p])); fold bp e'; try done; try lia.
    + rewrite Hbrk, !total_app. cbn [total]. lia.
    + eapply sizes_ext; [|exact Hs1]. intros x Hx. pose proof (heads_range _ _ _ _ Hs1 Hx) as Hr. apply Hsz; [|unfold bp; lia].
      apply elem_of_cons in Hin as [-> |Hin]; [unfold HDR in *; lia|]. by apply (heads_far _ _ _ _ _ Hs1 Hx), frees_heads.
    + by rewrite (same_hdr_size _ _ _ Hbp).
    + rewrite <- app_assoc. apply path_app. split; [done|]. split; [|done]. rewrite Em2. apply ptr_st64. unfold e', HDR, HEAP_MAX in *. lia.
    + by rewrite (same_hdr_ptr _ _ _ Hbp).
    + rewrite Hsz; [apply inv| |lia]. apply elem_of_cons in Hin as [-> |Hin]; [auto|].
      apply (frees_range (hmem h)) in Hin; [|done]. unfold HDR in *. lia.
    + apply elem_of_app. left. apply elem_of_app. right. by left.
  - rewrite used_app. cbn [used app]. fold bp e'. by rewrite Eu.
  - exists n'. split; [apply elem_of_app; right; by left|lia].
  - rewrite !frees_app, !length_app. cbn [frees app length]. fold bp e'. lia.
Qed.
End linked.
End place.

(** free of a segment in use: it becomes free, merged with its neighbours,
    and no byte outside free memory and the list changes. *)
Lemma free_run h s1 n s2 : hinv h (s1 ++ (n, true) :: s2) -> let bp := hs + HDR * total s1 in
  exists h' s' p, free (bp + HDR) h = Ret tt h' /\ hinv h' s' /\ brk h' = brk h /\
    used hs s' = used hs s1 ++ used (bp + HDR * n) s2 /\ (exists k, (k, false) ∈ s' /\ n <= k) /\
    p ∈ base :: frees hs s1 /\ outside (hmem h) (hmem h') [bp; p] /\
    (length (frees hs s') <= S (length (frees hs s1) + length (frees (bp + HDR * n) s2)))%nat.
Proof.
  intros Hi bp. destruct (exists_last (l := base :: frees hs s1)) as (l & p & El); [done|].
  pose proof (place_found _ _ _ _ _ _ Hi El) as E. destruct (link_next_ok _ _ _ _ _ _ Hi El) as (n' & t & Hm).
  destruct (place_bounds _ _ _ _ Hi) as (B1 & _ & B2 & B3 & B4). destruct (place_sizes _ _ _ _ Hi) as (_ & _ & Hn & _).
  pose proof (free_link bp p h) as Ef. fold bp in E. rewrite Z.add_simpl_r in Ef.
  specialize (Ef ltac:(apply wrap_small; unfold HDR, HEAP_MAX in *; lia) E).
  assert (exists s', freed h s1 n s2 p s') as (s' & H1 & H2 & H3 & H4 & H5).
  { destruct (prev_split _ _ _ _ _ _ Hi El) as [(t1 & k & E1 & Ep & Ell)|(E1 & E2 & E3)].
    - exists (t1 ++ (k + n', false) :: t). by eapply link_join.
    - exists (s1 ++ (n', false) :: t). by eapply link_alone. }
  eexists _, s', p. split; [exact Ef|]. split; [done|]. split; [done|]. split; [done|]. split; [done|]. split; [|done].
  rewrite El. apply elem_of_app. right. by left.
Qed.

(** ** malloc: taking a block *)

Lemma nodup_split (l1 l2 r1 r2 : list Z) q : NoDup (l1 ++ q :: r1) -> l1 ++ q :: r1 = l2 ++ q :: r2 -> l1 = l2.
Proof.
  revert l2. induction l1 as [|x l1 IH]; intros [|y l2] Hn E; cbn in *; [done| | |].
  - injection E as <- E. apply NoDup_cons in Hn as [Hn _]. rewrite E in Hn. set_solver.
  - injection E as -> E. apply NoDup_cons in Hn as [Hn _]. set_solver.
  - injection E as -> E. f_equal. apply IH; [|done]. by apply NoDup_cons in Hn as [_ ?].
Qed.

Lemma pred_unique h s l p q r x : hinv h s -> base :: frees hs s = l ++ p :: q :: r ->
  x ∈ base :: frees hs s -> ptr (hmem h) x = q -> x = p.
Proof.
  intros Hi El Hx Hq. pose proof (sorted_nodup _ (ring_sorted _ _ (hv_sizes _ _ Hi))) as Hnd.
  pose proof (hv_path _ _ Hi) as Hp. rewrite app_comm_cons in Hp.
  apply list_elem_of_split in Hx as (a & b & Ex). rewrite Ex, <- app_assoc in Hp. cbn [app] in Hp.
  apply ptr_next in Hp. rewrite Hq in Hp. destruct b as [|y b]; cbn [hd] in Hp; subst q.
  - destruct l as [|z l]; cbn in El; injection El as -> El; rewrite El in Hnd; apply NoDup_cons in Hnd as [Hnd _]; set_solver.
  - assert (a ++ [x] = l ++ [p]) as E.
    { apply (nodup_split _ _ b r y); rewrite <- !app_assoc; cbn [app]; [by rewrite <- Ex|congruence]. }
    by apply app_inj_tail in E as [_ ->].
Qed.

(** No block in use is touched. *)
Definition keeps (h h' : heap) (bs : list (Z * Z)) : Prop :=
  forall b k x, (b, k) ∈ bs -> b <= x < b + HDR * k -> hmem h' x = hmem h x.

Lemma keeps_trans h1 h2 h3 bs : keeps h1 h2 bs -> keeps h2 h3 bs -> keeps h1 h3 bs.
Proof. intros H1 H2 b k x Hb Hx. by rewrite (H2 b k x), (H1 b k x). Qed.

Lemma outside_keeps h h' bs l : outside (hmem h) (hmem h') l ->
  (forall b k a, (b, k) ∈ bs -> a ∈ l -> a + HDR <= b \/ b + HDR * k <= a) -> keeps h h' bs.
Proof. intros Ho Hd b k x Hb Hx. apply Ho. intros a Ha. specialize (Hd b k a Hb Ha). lia. Qed.

Lemma ring_apart h s b k a : hinv h s -> (b, k) ∈ used hs s -> a ∈ base :: frees hs s -> a + HDR <= b \/ b + HDR * k <= a.
Proof.
  intros Hi Hb [-> |Ha]%elem_of_cons.
  - apply (used_range (hmem h)) in Hb; [|apply Hi]. left. lia.
  - pose proof (frees_extent _ _ _ _ (hv_sizes _ _ Hi) Ha). pose proof (used_apart _ _ _ _ _ _ (hv_sizes _ _ Hi) Hb Ha).
    unfold HDR in *. lia.
Qed.

Section take.
Context (h : heap) (s1 : list seg) (n : Z) (s2 : list seg) (prev k : Z).
Let m := hmem h.
Let s := s1 ++ (n, false) :: s2.
Let q := hs + HDR * total s1.
Let e := q + HDR * n.
Hypothesis inv : hinv h s.
Hypothesis fits : 0 < k <= n.
Hypothesis prev_in : prev ∈ base :: frees hs s.
Hypothesis prev_q : ptr m prev = q.

Lemma take_sizes : sizes_ok m hs s1 /\ size m q = n /\ 0 < n /\ sizes_ok m e s2.
Proof. pose proof (hv_sizes _ _ inv) as Hs. by apply sizes_app in Hs. Qed.
Lemma take_frees : frees hs s = frees hs s1 ++ q :: frees e s2.
Proof. unfold s. by rewrite frees_app. Qed.
Lemma take_bounds : base + HDR <= q /\ 0 <= total s1 /\ 0 <= total s2 /\ e + HDR * total s2 = brk h /\ brk h <= HEAP_MAX.
Proof.
  destruct take_sizes as (H1 & _ & Hn & H2). pose proof (sizes_total _ _ _ H1). pose proof (sizes_total _ _ _ H2).
  pose proof (hv_brk _ _ inv) as Hb. pose proof (hv_top _ _ inv). unfold s in Hb. rewrite total_app in Hb. cbn [total] in Hb.
  unfold e, q, HDR in *. lia.
Qed.

(** What taking [k] units of the free segment at [q] does. *)
Definition taken (a : Z) (h' : heap) (s' : list seg) : Prop :=
  malloc_body has_pages k (prev, q) h = Ret (inr (a + HDR)) h' /\ hinv h' s' /\ brk h' = brk h /\
  used hs s' = used hs s1 ++ (a, k) :: used e s2 /\ keeps h h' (used hs s).

(** The whole segment: it leaves the list. *)
Lemma unlink_path l p : base :: frees hs s1 = l ++ [p] ->
  let m' := st64 m p (ptr m q) in path m' (base :: frees hs s1 ++ frees e s2 ++ [base]).
Proof.
  intros El m'. destruct take_sizes as (Hs1 & Eq & Hn & Hs2). destruct take_bounds as (B1 & B2 & B3 & B4 & B5).
  assert (base :: frees hs s = l ++ p :: q :: frees e s2) as Er by (rewrite take_frees, app_comm_cons, El, <- app_assoc; done).
  pose proof (hv_path _ _ inv) as Hp. rewrite app_comm_cons, Er, <- app_assoc in Hp. cbn [app] in Hp. fold m in Hp.
  pose proof (ring_sorted _ _ (hv_sizes _ _ inv)) as Hso. rewrite Er in Hso.
  assert (ptr m q = hd base (frees e s2)) as Hr by (apply (ptr_next m (l ++ [p])); by rewrite <- app_assoc).
  assert (0 <= hd base (frees e s2) < 2 ^ 64) as Hrr.
  { destruct (frees e s2) as [|y v] eqn:Ev; cbn [hd]; [unfold HDR, HEAP_MAX in *; lia|].
    assert (y ∈ frees e s2) as Hy by (rewrite Ev; by left). apply (frees_range m) in Hy; [|done].
    unfold e, HDR, HEAP_MAX in *. lia. }
  rewrite app_comm_cons, El, <- app_assoc. cbn [app]. apply path_app. split.
  - apply (path_ext m); [|by apply path_app in Hp as [? _]]. intros x Hx. eapply outside_hdr; [apply outside_st64|].
    intros b ->%list_elem_of_singleton. left. apply list_elem_of_split in Hx as (a & b & Ea).
    apply (sorted_step _ a x (b ++ p :: q :: frees e s2)) with (y := p) in Hso; [done|by rewrite Ea, <- app_assoc|].
    apply elem_of_app. right. by left.
  - assert (path m' (frees e s2 ++ [base])) as Ht.
    { apply (path_ext m); [|by apply path_app, proj2, path_tail, path_tail in Hp]. intros x Hx.
      eapply outside_hdr; [apply outside_st64|]. intros b ->%list_elem_of_singleton. right.
      apply (sorted_step _ l p (q :: frees e s2) x eq_refl) in Hso; [done|by right]. }
    assert (ptr m' p = hd base (frees e s2)) as E1 by (unfold m'; rewrite Hr; by apply ptr_st64).
    destruct (frees e s2); cbn [app hd] in *; done.
Qed.

Lemma set_ptr_sizes p r x : p ∈ base :: frees hs s -> x = base \/ x ∈ heads hs s -> size (st64 m p r) x = size m x.
Proof.
  intros Hp Hx. assert (x = p \/ x + HDR <= p \/ p + HDR <= x) as [-> |Hd]; [|apply size_st64|].
  - pose proof (hv_sizes _ _ inv) as Hs. apply elem_of_cons in Hp as [-> |Hp%frees_heads]; destruct Hx as [-> |Hx]; [auto| | |].
    + apply (heads_range _ _ _ _ Hs) in Hx. lia.
    + apply (heads_range _ _ _ _ Hs) in Hp. lia.
    + by apply (heads_far m s hs).
  - apply same_hdr_size. eapply outside_hdr; [apply outside_st64|]. intros b ->%list_elem_of_singleton. lia.
Qed.

Lemma take_exact : n = k -> exists h', taken q h' (s1 ++ (n, true) :: s2).
Proof.
  intros En. destruct take_sizes as (Hs1 & Eq & Hn & Hs2). destruct take_bounds as (B1 & B2 & B3 & B4 & B5).
  exists (Heap (st64 m prev (ptr m q)) prev (brk h)).
  destruct (exists_last (l := base :: frees hs s1)) as (l & p & El); [done|].
  assert (prev = p) as Epp.
  { eapply (pred_unique h s l p q (frees e s2)); try done. by rewrite take_frees, app_comm_cons, El, <- app_assoc. }
  split; [|split; [split; cbn [hmem freep brk]|split; [done|split]]].
  - unfold malloc_body. rewrite (bind_step _ _ h n h) by (unfold size_of, gets; by rewrite <- Eq).
    rewrite (proj2 (Z.leb_le k n)), (proj2 (Z.eqb_eq n k)) by lia. unfold bind, ptr_of, gets, set_ptr, modify, set_hmem, set_freep, ret. cbn.
    fold m. unfold hadd. rewrite wrap_small by (unfold e, HDR, HEAP_MAX in *; lia). do 2 f_equal.
  - rewrite (hv_brk _ _ inv). unfold s. rewrite !total_app. cbn [total]. lia.
  - done.
  - apply (sizes_ext m); [|by apply sizes_app]. intros x Hx. apply set_ptr_sizes; [done|right].
    unfold s. rewrite heads_app in *. done.
  - rewrite frees_app. cbn [frees app]. fold q e. rewrite <- app_assoc, Epp. by eapply unlink_path.
  - rewrite set_ptr_sizes; [apply inv|done|by left].
  - rewrite frees_app. cbn [frees app]. rewrite app_comm_cons, El, Epp. apply elem_of_app. left. apply elem_of_app. right. by left.
  - pose proof (hv_coal _ _ inv) as Hc. unfold s in Hc. apply coalesced_app in Hc as [C1 [C2 C3]]. apply coalesced_app.
    cbn [coalesced negb] in *. split; [done|split; [done|]]. by apply coalesced_weaken.
  - rewrite used_app. cbn [used app]. fold q. by rewrite <- En.
  - eapply outside_keeps; [apply outside_st64|]. intros b j a Hb ->%list_elem_of_singleton. by eapply ring_apart.
Qed.

(** Its tail: the segment stays in the list, smaller. *)
Let a := q + HDR * (n - k).
Let m' := st32 (st32 m (q + 8) (n - k)) (a + 8) k.

Lemma tail_outside : outside m m' [q; a].
Proof. exact (outside_trans _ _ _ _ _ (outside_st32 m q (n - k)) (outside_st32 _ a k)). Qed.

Lemma tail_apart x : x ∈ base :: heads hs s -> x = q \/ (x + HDR <= q \/ e <= x).
Proof.
  destruct take_sizes as (Hs1 & _ & Hn & Hs2). destruct take_bounds as (B1 & _).
  intros [-> |Hx]%elem_of_cons; [auto|]. unfold s in Hx. rewrite heads_app in Hx. cbn [heads] in Hx. fold q in Hx. fold e in Hx.
  apply elem_of_app in Hx as [Hx|[-> |Hx]%elem_of_cons]; [|auto|].
  - apply (heads_range m) in Hx; [|done]. unfold q in *. lia.
  - apply (heads_range m) in Hx; [|done]. lia.
Qed.

Lemma tail_same x : k < n -> x ∈ base :: heads hs s -> x <> q -> same_hdr m' m x.
Proof.
  intros Hk Hx Hne. apply (outside_hdr _ _ _ _ tail_outside). destruct (tail_apart x Hx) as [?|Hd]; [done|].
  intros b [-> | ->%list_elem_of_singleton]%elem_of_cons; unfold a, e, HDR in *; lia.
Qed.

Lemma tail_headers : k < n -> size m' q = n - k /\ ptr m' q = ptr m q /\ size m' a = k.
Proof.
  intros Hk. destruct take_bounds as (B1 & B2 & B3 & B4 & B5).
  assert (same_hdr m' (st32 m (q + 8) (n - k)) q) as Hq.
  { eapply outside_hdr; [apply outside_st32|]. intros b ->%list_elem_of_singleton. unfold a, HDR. lia. }
  rewrite (same_hdr_size _ _ _ Hq), (same_hdr_ptr _ _ _ Hq), ptr_st32. unfold m'.
  rewrite !size_st32 by (unfold e, HDR, HEAP_MAX in *; lia). done.
Qed.

Lemma take_tail : k < n -> exists h', taken a h' (s1 ++ (n - k, false) :: (k, true) :: s2).
Proof.
  intros Hk. destruct take_sizes as (Hs1 & Eq & Hn & Hs2). destruct take_bounds as (B1 & B2 & B3 & B4 & B5).
  destruct (tail_headers Hk) as (T1 & T2 & T3). exists (Heap m' prev (brk h)).
  assert (a + HDR * k = e) as Ee by (unfold a, e; lia).
  assert (forall x, x ∈ heads hs s1 \/ x ∈ heads e s2 -> x ∈ base :: heads hs s) as Hin.
  { intros x Hx. right. unfold s. rewrite heads_app. apply elem_of_app. destruct Hx; [auto|]. right. by right. }
  split; [|split; [split; cbn [hmem freep brk]|split; [done|split]]].
  - unfold malloc_body. rewrite (bind_step _ _ h n h) by (unfold size_of, gets; by rewrite <- Eq).
    rewrite (proj2 (Z.leb_le k n)), (proj2 (Z.eqb_neq n k)) by lia.
    assert (hadd q (n - k) = a) as Ea by (apply wrap_small; unfold e, HDR, HEAP_MAX in *; lia). cbv zeta. rewrite Ea.
    unfold bind, set_size, modify, set_hmem, set_freep, ret. cbn. fold m. fold m'. unfold hadd.
    rewrite wrap_small by (unfold a, e, HDR, HEAP_MAX in *; lia). do 2 f_equal.
  - rewrite (hv_brk _ _ inv). unfold s. rewrite !total_app. cbn [total]. lia.
  - done.
  - apply sizes_app. fold q. cbn [sizes_ok]. fold a. rewrite T1, T3, Ee. split; [|split_and!; try lia].
    + apply (sizes_ext m); [|done]. intros x Hx. apply same_hdr_size, tail_same; [done|auto|].
      apply (heads_range m) in Hx; [|done]. unfold q, HDR in *. lia.
    + apply (sizes_ext m); [|done]. intros x Hx. apply same_hdr_size, tail_same; [done|auto|].
      apply (heads_range m) in Hx; [|done]. unfold e, HDR in *. lia.
  - rewrite frees_app. cbn [frees app]. fold q a. rewrite Ee. pose proof (hv_path _ _ inv) as Hp. rewrite take_frees in Hp.
    rewrite app_comm_cons in Hp |- *. apply (path_ext_ptr m); [|done]. intros x Hx.
    destruct (decide (x = q)) as [-> |Hne]; [done|]. apply same_hdr_ptr, tail_same; [done| |done].
    apply elem_of_cons in Hx as [-> |Hx]; [by left|]. right. apply frees_heads. by rewrite take_frees.
  - rewrite <- (hv_base _ _ inv). apply same_hdr_size, tail_same; [done|by left|unfold HDR in *; lia].
  - rewrite frees_app. cbn [frees app]. fold q a. rewrite Ee. rewrite take_frees in prev_in. done.
  - pose proof (hv_coal _ _ inv) as Hc. unfold s in Hc. apply coalesced_app in Hc as [C1 [C2 C3]]. apply coalesced_app.
    cbn [coalesced negb] in *. split_and!; try done. by apply coalesced_weaken.
  - rewrite used_app. cbn [used app]. fold q a. by rewrite Ee.
  - eapply outside_keeps; [apply tail_outside|]. intros b j x Hb Hx.
    assert (q ∈ frees hs s) as Hq by (rewrite take_frees; apply elem_of_app; right; by left).
    pose proof (used_apart _ _ _ _ _ _ (hv_sizes _ _ inv) Hb Hq) as Hd. fold m in Hd. rewrite Eq in Hd.
    apply elem_of_cons in Hx as [-> | ->%list_elem_of_singleton]; unfold a, HDR in *; lia.
Qed.
End take.

Lemma take_run h s q prev k : hinv h s -> q ∈ frees hs s -> 0 < k <= size (hmem h) q ->
  prev ∈ base :: frees hs s -> ptr (hmem h) prev = q ->
  exists a h' s', malloc_body has_pages k (prev, q) h = Ret (inr (a + HDR)) h' /\ hinv h' s' /\ brk h' = brk h /\
    used hs s' ≡ₚ (a, k) :: used hs s /\ keeps h h' (used hs s).
Proof.
  intros Hi Hq Hk Hp Ep. apply frees_split in Hq as (s1 & n & s2 & -> & ->).
  destruct (take_sizes _ _ _ _ Hi) as (_ & En & _). rewrite En in Hk.
  assert (exists a h' s', taken h s1 n s2 prev k a h' s') as (a & h' & s' & H1 & H2 & H3 & H4 & H5).
  { destruct (decide (n = k)); [destruct (take_exact h s1 n s2 prev k) as [h' H]|destruct (take_tail h s1 n s2 prev k) as [h' H]];
      try done; try lia; eauto. }
  exists a, h', s'. split_and!; try done. rewrite H4, used_app. cbn [used app]. solve_Permutation.
Qed.

(** ** malloc: the search *)

Definition too_small (h : heap) (k x : Z) : Prop := size (hmem h) x < k.

(** What the loop does when it comes back to freep. *)
Definition refill (k : Z) : M heap (Z * Z + Z) :=
  p <- morecore has_pages k ;;
  if p =? 0 then ret (inr 0) else q <- ptr_of p ;; ret (inl (p, q)).

Lemma body_skip k prev p h : too_small h k p -> p <> freep h ->
  malloc_body has_pages k (prev, p) h = Ret (inl (p, ptr (hmem h) p)) h.
Proof.
  intros Hs Hp. unfold too_small in Hs. unfold malloc_body, bind, size_of, gets, ptr_of, ret.
  rewrite (proj2 (Z.leb_gt k _)), (proj2 (Z.eqb_neq p _)) by done. done.
Qed.
Lemma body_refill k prev h : too_small h k (freep h) -> malloc_body has_pages k (prev, freep h) h = refill k h.
Proof.
  intros Hs. unfold too_small in Hs. unfold malloc_body, bind at 1, size_of, gets at 1.
  rewrite (proj2 (Z.leb_gt k _)) by done. unfold bind at 1, gets at 1. rewrite Z.eqb_refl. done.
Qed.

(** One way round the list: the first block that fits, or all are too small. *)
Lemma scan_run h k : forall r prev, path (hmem h) (prev :: r ++ [freep h]) -> freep h ∉ r ->
  let rest := r ++ [freep h] in
  (exists l1 q l2, rest = l1 ++ q :: l2 /\ k <= size (hmem h) q /\ Forall (too_small h k) l1 /\
     forall a h', malloc_body has_pages k (default prev (last l1), q) h = Ret (inr a) h' ->
     forall f, (length rest <= f)%nat -> loop f (malloc_body has_pages k) (prev, hd 0 rest) h = Ret a h') \/
  (Forall (too_small h k) rest /\ forall f, loop (length rest + f) (malloc_body has_pages k) (prev, hd 0 rest) h =
     bind (refill k) (fun x => match x with inl a => loop f (malloc_body has_pages k) a | inr b => ret b end) h).
Proof.
  induction r as [|p r IH]; intros prev Hp Hf; cbn [app hd length].
  - destruct (Z.le_gt_cases k (size (hmem h) (freep h))) as [Hk|Hk]; [left|right].
    + exists [], (freep h), []. split_and!; [done|done|constructor|]. intros a h' E [|f] Hl; [cbn in Hl; lia|].
      cbn [loop]. by rewrite (bind_step _ _ _ _ _ E).
    + split; [by repeat constructor|]. intros f. cbn [plus loop]. unfold bind. by rewrite body_refill.
  - apply not_elem_of_cons in Hf as [Hpf Hf]. destruct (Z.le_gt_cases k (size (hmem h) p)) as [Hk|Hk].
    { left. exists [], p, (r ++ [freep h]). split_and!; [done|done|constructor|]. intros a h' E [|f] Hl; [cbn in Hl; lia|].
      cbn [loop]. by rewrite (bind_step _ _ _ _ _ E). }
    cbn [app] in Hp. apply path_tail in Hp.
    assert (ptr (hmem h) p = hd 0 (r ++ [freep h])) as Ep by (destruct r; by apply path_cons in Hp as [? _]).
    assert (forall x f, loop (S f) (malloc_body has_pages k) (x, p) h =
      loop f (malloc_body has_pages k) (p, hd 0 (r ++ [freep h])) h) as Hstep.
    { intros x f. cbn [loop]. rewrite (bind_step _ _ _ _ _ (body_skip k x p h Hk (not_eq_sym Hpf))). by rewrite Ep. }
    destruct (IH p Hp Hf) as [(l1 & q & l2 & E & Hq & Hl & Hloop)|[Hl Hloop]].
    + left. exists (p :: l1), q, l2. split; [cbn; by rewrite <- E|]. split; [done|]. split; [by constructor|].
      intros a h' Hb [|f] Hlen; [cbn in Hlen; lia|]. rewrite Hstep. apply (Hloop a h'); [|cbn in Hlen; lia].
      rewrite last_cons in Hb. destruct (last l1); done.
    + right. split; [by constructor|]. intros f. cbn [plus]. by rewrite Hstep, Hloop.
Qed.

Lemma path_last m f l1 q l2 : path m (f :: l1 ++ q :: l2) -> ptr m (default f (last l1)) = q.
Proof.
  revert f. induction l1 as [|x l1 IH]; intros f Hp; cbn [app] in Hp.
  - by apply path_cons in Hp as [? _].
  - rewrite last_cons. apply path_tail, IH in Hp. by destruct (last l1).
Qed.

(** The search over a heap whose invariant holds. *)
Lemma search_run h s k : hinv h s -> 0 < k -> let start := (freep h, ptr (hmem h) (freep h)) in
  (exists a h' s', (forall f, (length (base :: frees hs s) <= f)%nat -> loop f (malloc_body has_pages k) start h = Ret (a + HDR) h') /\
     hinv h' s' /\ brk h' = brk h /\ used hs s' ≡ₚ (a, k) :: used hs s /\ keeps h h' (used hs s)) \/
  ((forall x, x ∈ frees hs s -> too_small h k x) /\ exists j, (j <= length (base :: frees hs s))%nat /\ forall f,
     loop (j + f) (malloc_body has_pages k) start h =
     bind (refill k) (fun x => match x with inl a => loop f (malloc_body has_pages k) a | inr b => ret b end) h).
Proof.
  intros Hi Hk start. pose proof (hv_freep _ _ Hi) as Hf. pose proof (hv_path _ _ Hi) as Hp.
  pose proof (sorted_nodup _ (ring_sorted _ _ (hv_sizes _ _ Hi))) as Hnd.
  rewrite app_comm_cons in Hp. apply list_elem_of_split in Hf as (u & v & Eu).
  pose proof (path_rotate _ _ _ _ _ Eu Hp) as Hr. rewrite app_assoc in Hr.
  assert (freep h :: v ++ u ≡ₚ base :: frees hs s) as Hperm by (rewrite Eu; solve_Permutation).
  assert (freep h ∉ v ++ u) as Hnf by (rewrite <- Hperm in Hnd; by apply NoDup_cons in Hnd as [? _]).
  assert (start = (freep h, hd 0 ((v ++ u) ++ [freep h]))) as Est.
  { unfold start. f_equal. destruct (v ++ u); by apply path_cons in Hr as [? _]. }
  assert (length ((v ++ u) ++ [freep h]) = length (base :: frees hs s))%nat as Hlen.
  { rewrite <- Hperm, length_app. cbn. lia. }
  rewrite Est. destruct (scan_run h k (v ++ u) (freep h) Hr Hnf) as [(l1 & q & l2 & E & Hq & Hl & Hloop)|[Hl Hloop]].
  - left. assert (forall x, x ∈ (v ++ u) ++ [freep h] -> x ∈ base :: frees hs s) as Hin.
    { intros x Hx. rewrite <- Hperm. by apply elem_of_app in Hx as [Hx| ->%list_elem_of_singleton]; [right|left]. }
    assert (q ∈ frees hs s) as Hqf.
    { assert (q ∈ base :: frees hs s) as [-> |?]%elem_of_cons; [|pose proof (hv_base _ _ Hi); lia|done].
      apply Hin. rewrite E. apply elem_of_app. right. by left. }
    destruct (take_run h s q (default (freep h) (last l1)) k Hi Hqf) as (a & h' & s' & Hb & Hrest); [lia| | |].
    + destruct (last l1) as [x|] eqn:El; cbn [default]; [|rewrite <- Hperm; by left]. apply Hin. rewrite E.
      apply last_Some_elem_of in El. apply elem_of_app. by left.
    + rewrite E in Hr. by apply path_last in Hr.
    + exists a, h', s'. split; [|done]. intros f Hff. apply (Hloop _ _ Hb). lia.
  - right. split.
    + intros x Hx. rewrite Forall_forall in Hl. apply Hl. assert (x ∈ freep h :: v ++ u) as [-> |Hx']%elem_of_cons by (rewrite Hperm; by right);
        apply elem_of_app; [right; by left|by left].
    + exists (length ((v ++ u) ++ [freep h])). split; [lia|done].
Qed.

(** ** morecore *)

(** The new memory as a segment in use, with its header written. *)
Lemma grown_hinv h s nu : hinv h s -> 0 < nu < 2 ^ 32 -> brk h + HDR * nu <= HEAP_MAX ->
  hinv (Heap (st32 (hmem h) (brk h + 8) nu) (freep h) (brk h + HDR * nu)) (s ++ [(nu, true)]).
Proof.
  intros Hi Hn Hm. pose proof Hi as [A1 A2 A3 A4 A5 A6 A7]. pose proof (sizes_total _ _ _ A3) as Ht.
  assert (forall x, x + HDR <= brk h -> same_hdr (st32 (hmem h) (brk h + 8) nu) (hmem h) x) as Hsame.
  { intros x Hx. eapply outside_hdr; [apply outside_st32|]. intros b ->%list_elem_of_singleton. lia. }
  assert (forall x, x ∈ base :: frees hs s -> x + HDR <= brk h) as Hin.
  { intros x [-> |Hx]%elem_of_cons; [unfold HDR in *; lia|]. apply (frees_range (hmem h)) in Hx; [|done]. lia. }
  split; cbn [hmem freep brk]; rewrite ?frees_app, ?total_app; cbn [total frees app]; rewrite ?app_nil_r; try done; try lia.
  - apply sizes_app. split.
    + apply (sizes_ext (hmem h)); [|done]. intros x Hx. apply same_hdr_size, Hsame.
      apply (heads_range (hmem h)) in Hx; [|done]. lia.
    + rewrite <- A1. cbn [sizes_ok]. split; [apply size_st32; lia|]. split; [lia|done].
  - rewrite app_comm_cons. apply (path_ext (hmem h)); [|done]. intros x Hx. by apply Hsame, Hin.
  - rewrite <- A5. apply same_hdr_size, Hsame, Hin. by left.
  - apply coalesced_app. split; [done|]. by split.
Qed.

Lemma morecore_run h s k : hinv h s -> 0 < k -> HDR * k < 2 ^ 31 ->
  let nu := if k <? 4096 then 4096 else k in
  let b' := brk h + HDR * nu in
  if (TRAPFRAME <? b') || negb (has_pages b') then morecore has_pages k h = Ret 0 h
  else exists h' s', morecore has_pages k h = Ret (freep h') h' /\ hinv h' s' /\ brk h' = b' /\
    used hs s' = used hs s /\ keeps h h' (used hs s) /\ (exists j, (j, false) ∈ s' /\ k <= j) /\
    (length (frees hs s') <= S (length (frees hs s)))%nat.
Proof.
  intros Hi Hk Hsm nu b'. pose proof Hi as [A1 A2 A3 A4 A5 A6 A7]. pose proof (sizes_total _ _ _ A3) as Ht.
  assert (4096 <= nu /\ k <= nu /\ HDR * nu < 2 ^ 31) as (Hn1 & Hn2 & Hn3).
  { unfold nu, HDR in *. destruct (Z.ltb_spec k 4096); lia. }
  assert (i32 (u64 (nu * HDR)) = HDR * nu) as Ei.
  { rewrite wrap_small by (unfold HDR in *; lia). rewrite swrap_small by (unfold HDR in *; lia). lia. }
  unfold morecore. fold nu. rewrite Ei.
  assert (sbrk has_pages (HDR * nu) h =
    if (TRAPFRAME <? b') || negb (has_pages b') then Ret (-1) h else Ret (brk h) (set_brk b' h)) as Es.
  { unfold sbrk, bind, gets, modify, ret. rewrite (proj2 (Z.ltb_ge _ 0)) by (unfold HDR; lia). fold b'. by destruct (_ || _). }
  destruct ((TRAPFRAME <? b') || negb (has_pages b')) eqn:Eb; rewrite (bind_step _ _ _ _ _ Es); [done|].
  apply orb_false_iff in Eb as [_ Eb]. apply negb_false_iff, pages_bounded in Eb.
  rewrite (proj2 (Z.eqb_neq (brk h) (-1))) by (unfold HDR in *; lia).
  pose proof (grown_hinv h s nu Hi ltac:(unfold HDR in *; lia) Eb) as Hg. fold b' in Hg.
  destruct (free_run _ s nu [] Hg) as (h' & s' & p & Ef & Hi' & Hb & Hu & (j & Hj1 & Hj2) & Hp & Ho & Hlen).
  rewrite <- A1 in Ef, Ho. cbn [used] in Hu. rewrite app_nil_r in Hu.
  exists h', s'. split; [|split; [done|split; [exact Hb|split; [done|split; [|split]]]]].
  - unfold bind at 1, set_size, modify, set_hmem, set_brk. cbn [hmem freep brk]. unfold hadd.
    rewrite Z.mul_1_r, wrap_small by (unfold HDR, HEAP_MAX in *; lia). rewrite (bind_step _ _ _ _ _ Ef). done.
  - cbn [hmem] in Ho. pose proof (outside_trans _ _ _ _ _ (outside_st32 (hmem h) (brk h) nu) Ho) as Ho'.
    eapply outside_keeps; [exact Ho'|]. intros b i a Hb' Ha. cbn [app] in Ha.
    assert (a = brk h \/ a ∈ base :: frees hs s) as [-> |Ha'];
      [rewrite !elem_of_cons, elem_of_nil in Ha; by destruct Ha as [-> |[-> |[-> |[]]]]; auto| |by apply (ring_apart h s)].
    apply (used_range (hmem h)) in Hb'; [|done]. lia.
  - exists j. split; [done|lia].
  - cbn [frees length] in Hlen. lia.
Qed.

Lemma free_fits m s : forall a j k, sizes_ok m a s -> (j, false) ∈ s -> k <= j -> exists x, x ∈ frees a s /\ k <= size m x.
Proof.
  induction s as [|[n u] s IH]; intros a j k Hs Hj Hk; [by apply elem_of_nil in Hj|]. cbn in *.
  destruct Hs as (E & Hn & Hs). apply elem_of_cons in Hj as [[= -> <-]|Hj].
  - exists a. cbn. split; [by left|lia].
  - destruct (IH _ _ _ Hs Hj Hk) as (x & Hx & Hkx). exists x. split; [|done]. apply elem_of_app. by right.
Qed.

(** ** malloc *)

Definition units (nbytes : Z) : Z := (nbytes + HDR - 1) / HDR + 1.
(** Requests above this overflow the int argument of sbrk. *)
Definition REQUEST_MAX : Z := 2 ^ 31 - 48.

Definition malloc_result (h : heap) (s : list seg) (nbytes r : Z) (h' : heap) : Prop :=
  let b' := brk h + HDR * Z.max 4096 (units nbytes) in
  (r = 0 /\ h' = h /\ (TRAPFRAME <? b') || negb (has_pages b') = true) \/
  exists a s', r = a + HDR /\ hinv h' s' /\ brk h <= brk h' /\
    used hs s' ≡ₚ (a, units nbytes) :: used hs s /\ keeps h h' (used hs s).

Lemma malloc_loop h s nbytes : hinv h s -> 0 <= nbytes <= REQUEST_MAX -> exists r h',
  loop (2 * ring_fuel h + 2) (malloc_body has_pages (units nbytes)) (freep h, ptr (hmem h) (freep h)) h = Ret r h' /\
  malloc_result h s nbytes r h'.
Proof.
  intros Hi Hn. set (k := units nbytes).
  assert (0 < k /\ HDR * k < 2 ^ 31) as [Hk Hk'] by (unfold k, units, HDR, REQUEST_MAX in *; Z.div_mod_to_equations; lia).
  destruct (search_run h s k Hi Hk) as [(a & h' & s' & E & R1 & R2 & R3 & R4)|(Hsm & j & Hj & E)].
  { exists (a + HDR), h'. split; [apply E; pose proof (ring_fuel_enough _ _ Hi); lia|]. right. exists a, s'. split_and!; try done. lia. }
  pose proof (ring_fuel_enough _ _ Hi) as Hfu.
  replace (2 * ring_fuel h + 2)%nat with (j + (2 * ring_fuel h + 2 - j))%nat by lia. rewrite E.
  pose proof (morecore_run h s k Hi Hk Hk') as Hm. cbv zeta in Hm.
  assert ((if k <? 4096 then 4096 else k) = Z.max 4096 k) as Ek by (destruct (Z.ltb_spec k 4096); lia). rewrite Ek in Hm.
  destruct (_ || _) eqn:Eb.
  { exists 0, h. split; [|left; done]. unfold refill. by rewrite (bind_step _ _ _ (inr 0) h) by (by rewrite (bind_step _ _ _ _ _ Hm)). }
  destruct Hm as (h1 & s1 & Em & H1 & Hb & Hu & Hkeep & (i & Hi1 & Hi2) & Hlen).
  assert (0 < freep h1) as Hf1.
  { pose proof (hv_freep _ _ H1) as [-> |Hf]%elem_of_cons; [done|]. apply (frees_range (hmem h1)) in Hf; [|apply H1].
    unfold HDR in *. lia. }
  rewrite (bind_step _ _ _ (inl (freep h1, ptr (hmem h1) (freep h1))) h1)
    by (unfold refill; rewrite (bind_step _ _ _ _ _ Em), (proj2 (Z.eqb_neq _ 0)) by lia; done).
  destruct (search_run h1 s1 k H1 Hk) as [(a & h2 & s2 & E2 & R1 & R2 & R3 & R4)|(Hsm1 & _)].
  - exists (a + HDR), h2. split.
    + apply E2. cbn [length] in *. lia.
    + right. exists a, s2. split_and!; try done; [unfold HDR in *; lia|by rewrite R3, Hu|]. rewrite Hu in R4. by eapply keeps_trans.
  - exfalso. destruct (free_fits _ _ _ _ k (hv_sizes _ _ H1) Hi1 Hi2) as (x & Hx & Hkx). apply Hsm1 in Hx. unfold too_small in Hx. lia.
Qed.

(** Before the first malloc, or a heap with its list. *)
Definition heap_ok (h : heap) (s : list seg) : Prop := (freep h = 0 /\ brk h = hs /\ s = []) \/ hinv h s.

Lemma first_hinv h : brk h = hs -> hs <= HEAP_MAX ->
  hinv (Heap (st32 (st64 (hmem h) base base) (base + 8) 0) base (brk h)) [].
Proof.
  intros Hb Hm. split; cbn [hmem freep brk total frees app]; try done; try lia.
  - split; [|done]. rewrite ptr_st32. apply ptr_st64. unfold HDR, HEAP_MAX in *. lia.
  - by apply size_st32.
  - by left.
Qed.

Lemma malloc_run h s nbytes : heap_ok h s -> hs <= HEAP_MAX -> 0 <= nbytes <= REQUEST_MAX ->
  exists r h', malloc base has_pages nbytes h = Ret r h' /\
    ((r = 0 /\ heap_ok h' s /\ brk h' = brk h /\ keeps h h' (used hs s) /\
      let b' := brk h + HDR * Z.max 4096 (units nbytes) in (TRAPFRAME <? b') || negb (has_pages b') = true) \/
     exists a s', r = a + HDR /\ hinv h' s' /\ brk h <= brk h' /\
       used hs s' ≡ₚ (a, units nbytes) :: used hs s /\ keeps h h' (used hs s)).
Proof.
  intros Ho Hhs Hn. unfold malloc.
  replace (u32 ((nbytes + HDR - 1) / HDR + 1)) with (units nbytes)
    by (unfold units; rewrite wrap_small; [done|]; unfold HDR, REQUEST_MAX in *; Z.div_mod_to_equations; lia).
  rewrite (bind_step _ _ h (freep h) h) by done.
  destruct Ho as [(Ef & Eb & ->)|Hi].
  - rewrite Ef. change (0 =? 0) with true. cbn [when].
    set (h1 := Heap (st32 (st64 (hmem h) base base) (base + 8) 0) base (brk h)).
    rewrite (bind_step _ _ h tt h1) by done.
    destruct (malloc_loop h1 [] nbytes (first_hinv h Eb Hhs) Hn) as (r & h' & E & Hr).
    exists r, h'. split; [exact E|]. destruct Hr as [(-> & -> & Hr)|(a & s' & Hr)].
    + left. split; [done|]. split; [right; by apply first_hinv|]. split; [done|]. split; [|done]. intros b k x Hb. by apply elem_of_nil in Hb.
    + right. exists a, s'. destruct Hr as (? & ? & ? & ? & _). split_and!; try done. intros b k x Hb. by apply elem_of_nil in Hb.
  - assert (freep h <> 0) as Hf.
    { pose proof (hv_freep _ _ Hi) as [-> |Hf]%elem_of_cons; [lia|]. apply (frees_range (hmem h)) in Hf; [|apply Hi].
      unfold HDR in *. lia. }
    rewrite (proj2 (Z.eqb_neq _ 0)) by done. cbn [when]. rewrite (bind_step _ _ h tt h) by done.
    destruct (malloc_loop h s nbytes Hi Hn) as (r & h' & E & Hr). exists r, h'. split; [exact E|].
    destruct Hr as [(-> & -> & Hr)|Hr]; [left|by right]. split_and!; try done. by right.
Qed.

(** ** Objects *)

Lemma used_disjoint m s : forall a b k c j, sizes_ok m a s -> (b, k) ∈ used a s -> (c, j) ∈ used a s ->
  (b = c /\ k = j) \/ b + HDR * k <= c \/ c + HDR * j <= b.
Proof.
  induction s as [|[n u] s IH]; intros a b k c j Hs Hb Hc; simpl in *; [by apply elem_of_nil in Hb|].
  destruct Hs as (_ & Hn & Hs). destruct u; cbn [app] in *; [|by eapply IH].
  apply elem_of_cons in Hb, Hc. destruct Hb as [[= -> ->]|Hb], Hc as [[= -> ->]|Hc]; [auto| | |by eapply IH].
  - apply (used_range m) in Hc; [|done]. lia.
  - apply (used_range m) in Hb; [|done]. lia.
Qed.
Lemma used_nodup m s : forall a, sizes_ok m a s -> NoDup (used a s).*1.
Proof.
  induction s as [|[n u] s IH]; intros a Hs; simpl in *; [constructor|]. destruct Hs as (_ & Hn & Hs).
  destruct u; cbn [app fmap list_fmap fst]; [|by apply IH]. constructor; [|by apply IH].
  intros ([b k] & -> & Hb)%list_elem_of_fmap. apply (used_range m) in Hb; [|done]. cbn in *. unfold HDR in *. lia.
Qed.

Definition holds (h : heap) (bs : list (Z * Z)) (o : objects) : Prop :=
  forall p l, o !! p = Some l -> exists k, (p - HDR, k) ∈ bs /\ HDR + Z.of_nat (length l) <= HDR * k /\
    slice (length l) (hmem h) p = l.

Definition heap_inv (h : heap) (o : objects) : Prop := exists s, heap_ok h s /\ holds h (used hs s) o.

Lemma holds_keeps h h' bs bs' o : holds h bs o -> keeps h h' bs' ->
  (forall p l k, o !! p = Some l -> (p - HDR, k) ∈ bs -> (p - HDR, k) ∈ bs') -> holds h' bs' o.
Proof.
  intros Hh Hk Hsub p l Hp. destruct (Hh p l Hp) as (k & Hb & Hl & Hs). exists k. pose proof (Hsub p l k Hp Hb) as Hb'.
  split; [done|]. split; [done|]. rewrite <- Hs at 2. apply slice_ext. intros x Hx. apply (Hk _ _ _ Hb').
  unfold HDR in *. lia.
Qed.

Section objects.
Hypothesis hs_top : hs <= HEAP_MAX.

Lemma malloc_inv h o nbytes : heap_inv h o -> 0 <= nbytes <= REQUEST_MAX ->
  exists r h', malloc base has_pages nbytes h = Ret r h' /\
    (r = 0 -> heap_inv h' o /\ let b' := brk h + HDR * Z.max 4096 (units nbytes) in
       (TRAPFRAME <? b') || negb (has_pages b') = true) /\
    (r <> 0 -> o !! r = None /\ heap_inv h' (<[r := slice (Z.to_nat nbytes) (hmem h') r]> o)).
Proof.
  intros (s & Ho & Hh) Hn. destruct (malloc_run h s nbytes Ho hs_top Hn) as (r & h' & E & Hr). exists r, h'. split; [done|].
  destruct Hr as [(-> & Ho' & _ & Hk & Hb)|(a & s' & -> & Hi & Hb & Hu & Hk)].
  { split; [|done]. intros _. split; [|done]. exists s. split; [done|]. by eapply holds_keeps. }
  assert ((a, units nbytes) ∈ used hs s') as Ha by (rewrite Hu; by left).
  pose proof (used_range _ _ _ _ _ (hv_sizes _ _ Hi) Ha) as Hr. split; [unfold HDR in *; lia|]. intros _.
  assert (forall l, o !! (a + HDR) <> Some l) as Hfresh.
  { intros l Hl. destruct (Hh _ _ Hl) as (k & Hin & _). rewrite Z.add_simpl_r in Hin.
    pose proof (used_nodup _ _ _ (hv_sizes _ _ Hi)) as Hnd. rewrite Hu in Hnd. cbn in Hnd. apply NoDup_cons in Hnd as [Hnd _].
    apply Hnd, list_elem_of_fmap. by exists (a, k). }
  split; [apply eq_None_not_Some; intros [l Hl]; by apply (Hfresh l)|].
  exists s'. split; [by right|].
  assert (holds h' (used hs s') o) as Hold.
  { assert (holds h' (used hs s) o) as H0 by (by eapply holds_keeps). intros p l Hp. destruct (H0 p l Hp) as (k & Hin & Hl).
    exists k. split; [rewrite Hu; by right|done]. }
  intros p l Hp. destruct (decide (p = a + HDR)) as [-> |Hne]; [|rewrite lookup_insert_ne in Hp by done; by apply Hold].
  rewrite lookup_insert_eq in Hp. injection Hp as <-. exists (units nbytes). rewrite Z.add_simpl_r, length_slice. split; [done|].
  split; [|done]. unfold units, HDR in *. Z.div_mod_to_equations. lia.
Qed.

Lemma free_inv h o p l : heap_inv h o -> o !! p = Some l -> exists h', free p h = Ret tt h' /\ heap_inv h' (delete p o).
Proof.
  intros (s & Ho & Hh) Hp. destruct (Hh p l Hp) as (n & Hin & _).
  destruct Ho as [(_ & _ & ->)|Hi]; [by apply elem_of_nil in Hin|].
  pose proof (hv_sizes _ _ Hi) as Hs. pose proof (fun b k => used_disjoint _ _ _ _ _ b k Hs Hin) as Hd.
  apply used_split in Hin as (s1 & s2 & -> & Ep).
  destruct (free_run h s1 n s2 Hi) as (h' & s' & q & E & Hi' & _ & Hu & _ & Hq & Hout & _). rewrite <- Ep, Z.sub_add in E.
  exists h'. split; [done|]. exists s'. split; [by right|].
  assert (forall b k, (b, k) ∈ used hs s' -> (b, k) ∈ used hs (s1 ++ (n, true) :: s2)) as Hsub.
  { intros b k Hb. rewrite Hu in Hb. rewrite used_app. cbn [used app]. apply elem_of_app in Hb as [?|?]; apply elem_of_app; [by left|].
    right. by right. }
  assert (forall b k, (b, k) ∈ used hs s' -> b <> p - HDR) as Hne.
  { intros b k Hb ->. rewrite Hu in Hb. apply sizes_app in Hs as [Hs1 (_ & Hn & Hs2)].
    apply elem_of_app in Hb as [Hb|Hb]; apply (used_range (hmem h)) in Hb; try done; unfold HDR in *; lia. }
  eapply (holds_keeps h); [intros p' l' Hp'; apply Hh; by apply lookup_delete_Some in Hp' as [_ ?]| |].
  - eapply outside_keeps; [exact Hout|]. intros b k a Hb Ha. apply elem_of_cons in Ha as [-> |Ha%list_elem_of_singleton].
    + rewrite <- Ep. destruct (Hd b k (Hsub b k Hb)) as [[<- _]|Hd']; [by destruct (Hne _ _ Hb)|].
      pose proof (used_range _ _ _ _ _ Hs (Hsub b k Hb)). apply sizes_app in Hs as [_ (_ & Hn & _)]. unfold HDR in *. lia.
    + subst a. eapply (ring_apart h); [exact Hi|by apply Hsub|]. rewrite frees_app. apply elem_of_cons in Hq as [-> |Hq]; [by left|].
      right. apply elem_of_app. by left.
  - intros p' l' k Hp' Hb. apply lookup_delete_Some in Hp' as [Hpp _]. rewrite Hu. rewrite used_app in Hb. cbn [used app] in Hb.
    apply elem_of_app in Hb as [?|[[= E1 _]|?]%elem_of_cons]; apply elem_of_app; [by left| |by right]. exfalso. lia.
Qed.

Lemma write_inv h o p l (i : nat) v : heap_inv h o -> o !! p = Some l -> (i < length l)%nat ->
  heap_inv (set_hmem (fupd (hmem h) (p + Z.of_nat i) v) h) (<[p := <[i := v]> l]> o).
Proof.
  intros (s & Ho & Hh) Hp Hi. destruct (Hh p l Hp) as (n & Hin & Hl & Hsl). exists s.
  destruct Ho as [(_ & _ & ->)|Hv]; [by apply elem_of_nil in Hin|]. pose proof (hv_sizes _ _ Hv) as Hs.
  set (h' := set_hmem _ h). set (x := p + Z.of_nat i).
  assert (forall y, y <> x -> hmem h' y = hmem h y) as Hx by (intros y Hy; by apply fupd_ne).
  assert (forall a, a ∈ base :: heads hs s -> same_hdr (hmem h') (hmem h) a) as Hhd.
  { intros a Ha y Hy. apply Hx. intros ->. pose proof (used_range _ _ _ _ _ Hs Hin) as Hr.
    apply elem_of_cons in Ha as [-> |Ha]; [unfold HDR in *; lia|]. apply used_split in Hin as (s1 & s2 & -> & Ep).
    rewrite heads_app in Ha. apply sizes_app in Hs as [Hs1 (_ & Hn & Hs2)].
    apply elem_of_app in Ha as [Ha|[-> |Ha]%elem_of_cons].
    - apply (heads_range (hmem h)) in Ha; [|done]. unfold HDR in *. lia.
    - unfold HDR in *. lia.
    - apply (heads_range (hmem h)) in Ha; [|done]. unfold HDR in *. lia. }
  split.
  - right. destruct Hv as [A1 A2 A3 A4 A5 A6 A7]. split; try done.
    + apply (sizes_ext (hmem h)); [|done]. intros a Ha. apply same_hdr_size, Hhd. by right.
    + rewrite app_comm_cons in *. apply (path_ext (hmem h)); [|done]. intros a [-> |Ha]%elem_of_cons; apply Hhd; [by left|].
      right. by apply frees_heads.
    + rewrite <- A5. apply same_hdr_size, Hhd. by left.
  - intros q l' Hq. destruct (decide (q = p)) as [-> |Hne].
    + rewrite lookup_insert_eq in Hq. injection Hq as <-. exists n. rewrite length_insert. split; [done|]. split; [done|].
      rewrite <- Hsl at 2. apply list_eq. intros j. destruct (decide (j < length l)%nat) as [Hj|Hj].
      * rewrite slice_lookup by done. destruct (decide (j = i)) as [-> |Hji].
        { rewrite list_lookup_insert_eq by (by rewrite length_slice). f_equal. apply fupd_eq. }
        rewrite list_lookup_insert_ne, slice_lookup by done. f_equal. apply Hx. unfold x. lia.
      * rewrite !lookup_ge_None_2; [done| |]; rewrite ?length_insert, length_slice; lia.
    + rewrite lookup_insert_ne in Hq by done. destruct (Hh q l' Hq) as (k & Hk & Hlk & Hsk). exists k. split; [done|]. split; [done|].
      rewrite <- Hsk at 2. apply slice_ext. intros y Hy. apply Hx. intros ->.
      destruct (used_disjoint _ _ _ _ _ _ _ Hs Hin Hk) as [[E _]|Hd]; unfold x, HDR in *; lia.
Qed.
End objects.
End ring.

(** What a program does with the heap: it allocates, frees pointers it has,
    and writes inside its objects. *)
Inductive hstep (base : Z) (has_pages : Z -> bool) : heap * objects -> heap * objects -> Prop :=
| step_malloc h o n r h' : 0 <= n <= REQUEST_MAX -> malloc base has_pages n h = Ret r h' -> r <> 0 ->
    hstep base has_pages (h, o) (h', <[r := slice (Z.to_nat n) (hmem h') r]> o)
| step_fail h o n h' : 0 <= n <= REQUEST_MAX -> malloc base has_pages n h = Ret 0 h' ->
    hstep base has_pages (h, o) (h', o)
| step_free h o p l h' : o !! p = Some l -> free p h = Ret tt h' -> hstep base has_pages (h, o) (h', delete p o)
| step_write h o p l i v : o !! p = Some l -> (i < length l)%nat ->
    hstep base has_pages (h, o) (set_hmem (fupd (hmem h) (p + Z.of_nat i) v) h, <[p := <[i := v]> l]> o).

(** &base below the program break, which eager allocation keeps in bounds *)
Definition layout (base hs : Z) (has_pages : Z -> bool) : Prop :=
  0 < base /\ base + HDR <= hs <= HEAP_MAX /\ forall z, has_pages z = true -> z <= HEAP_MAX.

Lemma heap_inv_reachable base hs has_pages x y : layout base hs has_pages -> rtc (hstep base has_pages) x y ->
  heap_inv base hs x.1 x.2 -> heap_inv base hs y.1 y.2.
Proof.
  intros (L1 & [L2 L3] & L4). induction 1 as [|x y z Hxy _ IH]; [done|]. intros Hi. apply IH.
  destruct Hxy as [h o n r h' Hn E Hr|h o n h' Hn E|h o p l h' Hp E|h o p l i v Hp Hl]; cbn [fst snd] in *.
  - destruct (malloc_inv base hs has_pages L1 L2 L4 L3 h o n Hi Hn) as (r' & h2 & E' & _ & H). rewrite E in E'. injection E' as <- <-. by apply H.
  - destruct (malloc_inv base hs has_pages L1 L2 L4 L3 h o n Hi Hn) as (r' & h2 & E' & H & _). rewrite E in E'. injection E' as <- <-. by apply H.
  - destruct (free_inv base hs has_pages L1 L2 L4 h o p l Hi Hp) as (h2 & E' & H). rewrite E in E'. by injection E' as <-.
  - by apply write_inv.
Qed.

(** C18. malloc and free implement a store of objects. Whatever a program does
    with requests that fit in an int: every object it has lies inside its heap,
    aligned, disjoint from the others, and holds exactly the bytes the program
    last wrote there. malloc always returns: a pointer to a new object, or null,
    and that only when sbrk refused to grow the process; free of a pointer the
    program has always returns. *)
Theorem malloc_implements_objects (base hs : Z) (has_pages : Z -> bool) (h0 h : heap) (o : objects) :
  layout base hs has_pages -> freep h0 = 0 -> brk h0 = hs -> rtc (hstep base has_pages) (h0, ∅) (h, o) ->
  (forall p l, o !! p = Some l -> hs + HDR <= p /\ p + Z.of_nat (length l) <= brk h /\ (p - hs) mod HDR = 0 /\
     slice (length l) (hmem h) p = l) /\
  (forall p q l l', p <> q -> o !! p = Some l -> o !! q = Some l' ->
     p + Z.of_nat (length l) <= q \/ q + Z.of_nat (length l') <= p) /\
  (forall n, 0 <= n <= REQUEST_MAX -> exists r h', malloc base has_pages n h = Ret r h' /\
     (r <> 0 -> o !! r = None) /\
     (r = 0 -> let b' := brk h + HDR * Z.max 4096 (units n) in TRAPFRAME < b' \/ has_pages b' = false)) /\
  (forall p l, o !! p = Some l -> exists h', free p h = Ret tt h').
Proof.
  intros HL Ef Eb Hr. apply (heap_inv_reachable base hs) in Hr; [|done|].
  2:{ exists []. split; [by left|]. intros p l Hp. cbn in Hp. by rewrite lookup_empty in Hp. }
  cbn in Hr. pose proof Hr as (s & Ho & Hh). destruct HL as (L1 & [L2 L3] & L4).
  split; [|split; [|split]].
  - intros p l Hp. destruct (Hh p l Hp) as (k & Hin & Hl & Hs). destruct Ho as [(_ & _ & ->)|Hi]; [by apply elem_of_nil in Hin|].
    pose proof (used_range _ _ _ _ _ (hv_sizes _ _ _ _ Hi) Hin). rewrite (hv_brk _ _ _ _ Hi).
    apply used_split in Hin as (s1 & s2 & _ & Ep). split; [lia|]. split; [lia|]. split; [|done].
    replace (p - hs) with ((total s1 + 1) * HDR) by (unfold HDR in *; lia). apply Z.mod_mul. done.
  - intros p q l l' Hne Hp Hq. destruct (Hh p l Hp) as (k & Hin & Hl & _). destruct (Hh q l' Hq) as (j & Hin' & Hl' & _).
    destruct Ho as [(_ & _ & ->)|Hi]; [by apply elem_of_nil in Hin|].
    destruct (used_disjoint _ _ _ _ _ _ _ (hv_sizes _ _ _ _ Hi) Hin Hin') as [[E _]|Hd]; unfold HDR in *; lia.
  - intros n Hn. destruct (malloc_inv base hs has_pages L1 L2 L4 L3 h o n Hr Hn) as (r & h' & E & H1 & H2).
    exists r, h'. split; [done|]. split; [intros Hr0; by apply H2|]. intros Hr0. destruct (H1 Hr0) as [_ Hb]. cbv zeta in *.
    apply orb_true_iff in Hb as [Hb|Hb]; [left; lia|right; by apply negb_true_iff].
  - intros p l Hp. destruct (free_inv base hs has_pages L1 L2 L4 h o p l Hr Hp) as (h' & E & _). eauto.
Qed.

Definition heap0 : heap := Heap (fun _ => 0) 0 16384.
Definition pages_2M (z : Z) : bool := z <=? 2 ^ 21.
Definition run_malloc (n : Z) (h : heap) : Z * heap :=
  match malloc 4096 pages_2M n h with Ret r h' => (r, h') | _ => (0, h) end.

Lemma run_malloc_Ret n h : (run_malloc n h).1 <> 0 -> malloc 4096 pages_2M n h = Ret (run_malloc n h).1 (run_malloc n h).2.
Proof. unfold run_malloc. by destruct (malloc 4096 pages_2M n h). Qed.
Definition heap1 : heap := (run_malloc 100 heap0).2.
Definition heap2 : heap := (run_malloc 50 heap1).2.

Lemma malloc_implements_objects_witness :
  malloc 4096 pages_2M 100 heap0 = Ret 81808 heap1 /\ malloc 4096 pages_2M 50 heap1 = Ret 81728 heap2 /\
  (81808 + 100 <= 81728 \/ 81728 + 50 <= 81808) /\ exists h', free 81808 heap2 = Ret tt h'.
Proof.
  assert ((run_malloc 100 heap0).1 = 81808) as E1 by (vm_compute; reflexivity).
  assert ((run_malloc 50 heap1).1 = 81728) as E2 by (vm_compute; reflexivity).
  pose proof (run_malloc_Ret 100 heap0 ltac:(rewrite E1; done)) as M1. rewrite E1 in M1. fold heap1 in M1.
  pose proof (run_malloc_Ret 50 heap1 ltac:(rewrite E2; done)) as M2. rewrite E2 in M2. fold heap2 in M2.
  set (o := <[81728 := slice 50 (hmem heap2) 81728]> (<[81808 := slice 100 (hmem heap1) 81808]> (∅ : objects))).
  assert (o !! 81728 = Some (slice 50 (hmem heap2) 81728)) as O2 by (unfold o; by rewrite lookup_insert_eq).
  assert (o !! 81808 = Some (slice 100 (hmem heap1) 81808)) as O1
    by (unfold o; by rewrite lookup_insert_ne, lookup_insert_eq by done).
  split; [exact M1|]. split; [exact M2|].
  destruct (malloc_implements_objects 4096 16384 pages_2M heap0 heap2 o) as (_ & H & _ & Hf).
  - unfold layout, HEAP_MAX, HDR, pages_2M. split; [lia|]. split; [lia|]. intros z Hz. apply Z.leb_le in Hz. lia.
  - reflexivity.
  - reflexivity.
  - eapply rtc_l; [apply (step_malloc 4096 pages_2M heap0 ∅ 100 81808 heap1); [unfold REQUEST_MAX; lia|exact M1|lia]|].
    eapply rtc_l; [apply (step_malloc 4096 pages_2M heap1 _ 50 81728 heap2); [unfold REQUEST_MAX; lia|exact M2|lia]|]. apply rtc_refl.
  - split; [|exact (Hf _ _ O1)]. destruct (H 81808 81728 _ _ ltac:(lia) O1 O2) as [Hd|Hd]; rewrite length_slice in Hd; [left|right]; exact Hd.
Defined.

(** A request of 2^32 - 1 bytes: the product in morecore exceeds an int, sbrk
    grows the process by 16 bytes, and malloc returns a pointer to its end. *)
Example malloc_overflow : let '(p, h) := run_malloc (2 ^ 32 - 1) heap0 in p = 16400 /\ brk h = 16400.
Proof. vm_compute. done. Qed.
