(* ===== verification/Sh.v ===== *)
(** * user/sh.c: the command parser of the shell

    The parser walks over the line with a pointer *ps up to es; here the state
    of the parser is what is left of the line, [s], and a pointer into the line
    is the number of characters before it ([pos]). A token is the pair of
    pointers q and eq that gettoken stores. The execcmd node that parseexec
    keeps filling while parseredirs wraps it in redircmd nodes is built last:
    its arguments and the redirections are collected on the way. The memory of
    the nodes comes from malloc (file Umalloc), which is taken to succeed. *)
From stdpp Require Import base list numbers strings.
From Stdlib Require Import ZArith Lia.
From S2P Require Import Ulib Prelude.

Definition MAXARGS : Z := 10.

(** struct cmd, with words of type [W]: tokens or strings *)
Inductive cmd (W : Type) :=
| EXEC (argv : list W)
| REDIR (c : cmd W) (file : W) (mode fd : Z)
| PIPE (left right : cmd W)
| LIST (left right : cmd W)
| BACK (c : cmd W).
Arguments EXEC {W}. Arguments REDIR {W}. Arguments PIPE {W}. Arguments LIST {W}. Arguments BACK {W}.

Abbreviation token := (Z * Z)%type.

Definition whitespace : chars := [32; 9; 13; 10; 11].
Definition symbols : chars := lit "<|>&;()".
(** strchr(l, c) as a condition *)
Definition is_in (l : chars) (c : Z) : bool := match strchr l c with Some _ => true | None => false end.
Definition is_word (c : Z) : bool := negb (is_in whitespace c) && negb (is_in symbols c).

(** while (s < es && p( *s)) s++ *)
Fixpoint skip (p : Z -> bool) (s : chars) : chars :=
  match s with c :: s' => if p c then skip p s' else s | [] => [] end.
Definition skip_ws : chars -> chars := skip (is_in whitespace).

Definition O_READ : Z := 0.
Definition O_TRUNCATE : Z := 0x601.
Definition O_APPEND : Z := 0x201.

Section parser.
(** The length of the line *)
Context (es : Z).
Abbreviation P := (M chars).

Definition pos (s : chars) : Z := es - Z.of_nat (length s).

Definition gettoken : P (Z * token) := fun s0 =>
  let s := skip_ws s0 in
  let c := hd 0 s in
  let '(ret, e) :=
    if c =? 0 then (0, s)
    else if is_in (lit "|();&<") c then (c, tail s)
    else if c =? 62 then if hd 0 (tail s) =? 62 then (43, tail (tail s)) else (c, tail s)
    else (97, skip is_word s) in
  Ret (ret, (pos s, pos e)) (skip_ws e).

Definition peek (toks : chars) : P bool := fun s0 =>
  let s := skip_ws s0 in Ret (negb (hd 0 s =? 0) && is_in toks (hd 0 s)) s.

(** A redirection: file, mode, fd *)
Abbreviation redir := (token * Z * Z)%type.
Definition redircmd {W} (c : cmd W) (r : W * Z * Z) : cmd W := REDIR c r.1.1 r.1.2 r.2.

Fixpoint parseredirs (fuel : nat) : P (list redir) :=
  match fuel with
  | O => fun _ => Diverge
  | S n =>
      b <- peek (lit "<>") ;;
      if b : bool then
        t <- gettoken ;;
        w <- gettoken ;;
        if negb (w.1 =? 97) then panic "missing file for redirection"
        else
          let r := if t.1 =? 60 then [(w.2, O_READ, 0)]
                   else if t.1 =? 62 then [(w.2, O_TRUNCATE, 1)]
                   else if t.1 =? 43 then [(w.2, O_APPEND, 1)] else [] in
          rs <- parseredirs n ;; ret (r ++ rs)
      else ret []
  end.

(** The loop of parseexec: arguments and redirections *)
Fixpoint parseargs (fuel : nat) (argc : Z) : P (list token * list redir) :=
  match fuel with
  | O => fun _ => Diverge
  | S n =>
      b <- peek (lit "|)&;") ;;
      if b : bool then ret ([], [])
      else
        t <- gettoken ;;
        if t.1 =? 0 then ret ([], [])
        else if negb (t.1 =? 97) then panic "syntax"
        else if MAXARGS <=? argc + 1 then panic "too many args"
        else
          f <- gets (fun s => S (length s)) ;;
          rs <- parseredirs f ;;
          r <- parseargs n (argc + 1) ;;
          ret (t.2 :: r.1, rs ++ r.2)
  end.

(** The while loop of parseline *)
Fixpoint parseback (fuel : nat) (c : cmd token) : P (cmd token) :=
  match fuel with
  | O => fun _ => Diverge
  | S n => b <- peek (lit "&") ;; if b : bool then gettoken ;;; parseback n (BACK c) else ret c
  end.

Fixpoint parseline (fuel : nat) : P (cmd token) :=
  match fuel with
  | O => fun _ => Diverge
  | S n =>
      c <- parsepipe n ;;
      f <- gets (fun s => S (length s)) ;;
      c <- parseback f c ;;
      b <- peek (lit ";") ;;
      if b : bool then gettoken ;;; r <- parseline n ;; ret (LIST c r) else ret c
  end
with parsepipe (fuel : nat) : P (cmd token) :=
  match fuel with
  | O => fun _ => Diverge
  | S n =>
      c <- parseexec n ;;
      b <- peek (lit "|") ;;
      if b : bool then gettoken ;;; r <- parsepipe n ;; ret (PIPE c r) else ret c
  end
with parseexec (fuel : nat) : P (cmd token) :=
  match fuel with
  | O => fun _ => Diverge
  | S n =>
      b <- peek (lit "(") ;;
      if b : bool then parseblock n
      else
        f <- gets (fun s => S (length s)) ;;
        rs <- parseredirs f ;;
        f <- gets (fun s => S (length s)) ;;
        r <- parseargs f 0 ;;
        ret (fold_left redircmd (rs ++ r.2) (EXEC r.1))
  end
with parseblock (fuel : nat) : P (cmd token) :=
  match fuel with
  | O => fun _ => Diverge
  | S n =>
      b <- peek (lit "(") ;;
      if negb b then panic "parseblock"
      else
        gettoken ;;;
        c <- parseline n ;;
        b <- peek (lit ")") ;;
        if negb b then panic "syntax - missing )"
        else
          gettoken ;;;
          f <- gets (fun s => S (length s)) ;;
          rs <- parseredirs f ;;
          ret (fold_left redircmd rs c)
  end.

(** Four levels of the grammar for every character *)
Definition parse_fuel (s : chars) : nat := 4 * length s + 4.
End parser.

(** Stores 0 at the end of every word *)
Definition store0 (buf : chars) (t : token) : chars := <[Z.to_nat t.2 := 0]> buf.
Fixpoint nulterminate (c : cmd token) (buf : chars) : chars :=
  match c with
  | EXEC argv => fold_left store0 argv buf
  | REDIR c f _ _ => store0 (nulterminate c buf) f
  | PIPE l r | LIST l r => nulterminate r (nulterminate l buf)
  | BACK c => nulterminate c buf
  end.

(** The tree and the line buffer (with its final NUL) after nulterminate *)
Definition parsecmd (s : chars) : outcome chars (cmd token * chars) :=
  let es := strlen s in
  (c <- parseline es (parse_fuel s) ;;
   peek [] ;;;
   rest <- get ;;
   if negb (strlen rest =? 0) then panic "syntax"
   else ret (c, nulterminate c (s ++ [0]))) s.

(** The C string at a pointer *)
Fixpoint until_nul (s : chars) : chars :=
  match s with c :: s' => if c =? 0 then [] else c :: until_nul s' | [] => [] end.
Definition string_at (buf : chars) (t : token) : chars := until_nul (drop (Z.to_nat t.1) buf).

Fixpoint cmd_map {V W} (f : V -> W) (c : cmd V) : cmd W :=
  match c with
  | EXEC argv => EXEC (f <$> argv)
  | REDIR c w m d => REDIR (cmd_map f c) (f w) m d
  | PIPE l r => PIPE (cmd_map f l) (cmd_map f r)
  | LIST l r => LIST (cmd_map f l) (cmd_map f r)
  | BACK c => BACK (cmd_map f c)
  end.
(** The command that runcmd sees *)
Definition read_cmd (r : cmd token * chars) : cmd chars := cmd_map (string_at r.2) r.1.
