(* ===== verification/ShProps.v ===== *)
(** * The shell's parser: termination, words, and the grammar

    The parser always returns or reports an error; the words of the command
    it returns are what nulterminate makes of the line; and it inverts a
    printer of commands. *)
From stdpp Require Import base list numbers strings.
From Stdlib Require Import ZArith Lia.
From S2P Require Import Ulib Prelude Sh.

(** The characters between the pointers of a token *)
Definition sub (line : chars) (t : token) : chars := take (Z.to_nat (t.2 - t.1)) (drop (Z.to_nat t.1) line).

(** The tokens of a command *)
Fixpoint words {W} (c : cmd W) : list W :=
  match c with
  | EXEC argv => argv
  | REDIR c f _ _ => words c ++ [f]
  | PIPE l r | LIST l r => words l ++ words r
  | BACK c => words c
  end.

Lemma skip_suffix p s : skip p s `suffix_of` s.
Proof. induction s as [|c s IH]; simpl; [done|]. destruct (p c); [by apply suffix_cons_r|done]. Qed.
Lemma skip_ws_idemp s : skip_ws (skip_ws s) = skip_ws s.
Proof.
  unfold skip_ws. induction s as [|c s IH]; simpl; [done|]. destruct (is_in whitespace c) eqn:E; [done|]. simpl. by rewrite E.
Qed.
Lemma skip_split p s : exists w, s = w ++ skip p s /\ Forall (fun c => p c = true) w /\
  (skip p s = [] \/ p (hd 0 (skip p s)) = false).
Proof.
  induction s as [|c s (w & E & Hw & Hn)]; simpl; [exists []; auto|]. destruct (p c) eqn:Ec.
  - exists (c :: w). cbn. split; [by f_equal|]. split; [by constructor|done].
  - exists []. split; [done|]. split; [constructor|]. by right.
Qed.
Lemma suffix_len {A} (l k : list A) : l `suffix_of` k -> (length l <= length k)%nat.
Proof. intros [p ->]. rewrite length_app. lia. Qed.
Lemma suffix_tail (s : chars) : tail s `suffix_of` s.
Proof. destruct s; [done|]. by apply suffix_cons_r. Qed.

(** ** Total correctness of the parsers *)

(** The outcome is a value and a state with [Q], or a reported error. *)
Definition gives {A} (o : outcome chars A) (Q : A -> chars -> Prop) : Prop :=
  match o with Ret a s => Q a s | Panic _ => True | _ => False end.

Lemma gives_bind {A B} (m : M chars A) (k : A -> M chars B) s (Q : A -> chars -> Prop) R :
  gives (m s) Q -> (forall a s', Q a s' -> gives (k a s') R) -> gives (bind m k s) R.
Proof. unfold gives, bind. intros Hm Hk. destruct (m s); try done. by apply Hk. Qed.
Lemma gives_weaken {A} (o : outcome chars A) (Q R : A -> chars -> Prop) :
  gives o Q -> (forall a s, Q a s -> R a s) -> gives o R.
Proof. unfold gives. intros Ho Hq. destruct o; try done. by apply Hq. Qed.

Section tokens.
Context (line : chars).
Let es := strlen line.

(** A word of the line that cannot be extended. *)
Definition wtok (t : token) : Prop := exists u w v, line = u ++ w ++ v /\ w <> [] /\
  Forall (fun c => is_word c = true) w /\ (v = [] \/ is_word (hd 0 v) = false) /\
  t = (Z.of_nat (length u), Z.of_nat (length u + length w)).

Lemma pos_suffix u s : line = u ++ s -> pos es s = Z.of_nat (length u).
Proof. intros E. unfold pos, es, strlen. rewrite E, length_app. lia. Qed.

Lemma gettoken_gives s : s `suffix_of` line -> gives (gettoken es s) (fun r s' =>
  s' `suffix_of` s /\ (hd 0 (skip_ws s) <> 0 -> (length s' < length s)%nat) /\ (r.1 = 97 -> wtok r.2)).
Proof.
  intros [u Eu]. unfold gettoken, gives. set (t := skip_ws s). set (c := hd 0 t).
  assert (t `suffix_of` s) as Ht by apply skip_suffix. pose proof (suffix_len _ _ Ht) as Hlt.
  assert (forall e, e `suffix_of` t -> (c <> 0 -> (length e < length t)%nat) ->
    skip_ws e `suffix_of` s /\ (c <> 0 -> (length (skip_ws e) < length s)%nat)) as Hrest.
  { intros e He Hl. pose proof (suffix_len _ _ (skip_suffix (is_in whitespace) e)). fold skip_ws in *. split.
    - etransitivity; [apply skip_suffix|]. by etransitivity.
    - intros Hc. specialize (Hl Hc). unfold skip_ws in *. lia. }
  destruct (Z.eqb_spec c 0) as [E0|E0].
  { destruct (Hrest t) as [H1 H2]; [done|done|]. split; [done|]. split; [done|]. cbn. lia. }
  assert (c <> 0 -> (length (tail t) < length t)%nat) as Htl by (intros _; unfold c in E0; destruct t; cbn in *; lia).
  destruct (is_in (lit "|();&<") c) eqn:Es.
  { destruct (Hrest (tail t)) as [H1 H2]; [apply suffix_tail|done|]. split; [done|]. split; [done|]. cbn. intros ->. done. }
  destruct (Z.eqb_spec c 62) as [E1|E1].
  { destruct (hd 0 (tail t) =? 62).
    - destruct (Hrest (tail (tail t))) as [H1 H2]; [etransitivity; apply suffix_tail| |split; [done|split; [done|cbn; lia]]].
      intros Hc. specialize (Htl Hc). pose proof (suffix_len _ _ (suffix_tail (tail t))). lia.
    - destruct (Hrest (tail t)) as [H1 H2]; [apply suffix_tail|done|]. split; [done|]. split; [done|]. cbn. lia. }
  assert (is_word c = true) as Hwc.
  { unfold is_word. destruct (skip_split (is_in whitespace) s) as (w0 & _ & _ & [Hn|Hn]); fold (skip_ws s) in Hn; fold t in Hn.
    - unfold c in E0. by rewrite Hn in E0.
    - fold c in Hn. rewrite Hn. cbn. clear -Es E1. unfold symbols, is_in in *. cbn in *. zbool; done. }
  destruct (skip_split is_word t) as (w & Ew & Hw & Hend).
  assert (w <> []) as Hne.
  { intros ->. cbn in Ew. destruct Hend as [Hn|Hn]; rewrite <- Ew in Hn; [unfold c in E0; by rewrite Hn in E0|]. fold c in Hn. congruence. }
  destruct (Hrest (skip is_word t)) as [H1 H2]; [apply skip_suffix| |].
  { intros _. rewrite Ew at 2. rewrite length_app. destruct w; [done|]. cbn. lia. }
  split; [done|]. split; [done|]. intros _. destruct Ht as [u' Eu'].
  exists (u ++ u'), w, (skip is_word t). split; [rewrite Eu, Eu', Ew at 1; by rewrite <- !app_assoc|].
  split; [done|]. split; [done|]. split; [done|]. cbn [fst snd]. f_equal.
  - apply pos_suffix. by rewrite Eu, Eu', <- app_assoc.
  - rewrite (pos_suffix ((u ++ u') ++ w)); [by rewrite length_app|]. rewrite Eu, Eu', Ew at 1. by rewrite <- !app_assoc.
Qed.

Lemma peek_gives toks s : gives (peek toks s) (fun b s' => s' = skip_ws s /\ (b = true -> hd 0 (skip_ws s') <> 0)).
Proof.
  unfold peek, gives. split; [done|]. rewrite skip_ws_idemp. destruct (Z.eqb_spec (hd 0 (skip_ws s)) 0); [done|done].
Qed.

(** What a parser leaves: a suffix of its input and tokens of the line. *)
Definition leaves {A} (toks : A -> list token) (s : chars) (a : A) (s' : chars) : Prop :=
  s' `suffix_of` s /\ Forall wtok (toks a).
Abbreviation file_of := (fun r : token * Z * Z => r.1.1).

Lemma leaves_len {A} (toks : A -> list token) s a s' : leaves toks s a s' -> (length s' <= length s)%nat.
Proof. intros [H _]. by apply suffix_len. Qed.
Lemma leaves_line {A} (toks : A -> list token) s a s' : s `suffix_of` line -> leaves toks s a s' -> s' `suffix_of` line.
Proof. intros Hs [H _]. by etransitivity. Qed.

(** A token after a successful peek: at least one character is consumed. *)
Lemma peek_token_gives toks s {B} (k : bool -> M chars B) R :
  (forall s', s' = skip_ws s -> s' `suffix_of` s -> gives (k false s') R) ->
  (forall s', s' = skip_ws s -> s' `suffix_of` s -> hd 0 (skip_ws s') <> 0 -> gives (k true s') R) ->
  gives (bind (peek toks) k s) R.
Proof.
  intros Hf Ht. eapply gives_bind; [apply peek_gives|]. cbn. intros b s' [Es Hb].
  assert (s' `suffix_of` s) by (rewrite Es; apply skip_suffix). destruct b; [apply Ht; auto|by apply Hf].
Qed.

Lemma parseredirs_gives n : forall s, s `suffix_of` line -> (length s < n)%nat ->
  gives (parseredirs es n s) (leaves (fmap file_of) s).
Proof.
  induction n as [|n IH]; intros s Hs Hn; [lia|]. cbn [parseredirs]. apply peek_token_gives; intros s1 E1 H1.
  { split; [done|constructor]. }
  intros Hc. assert (s1 `suffix_of` line) as L1 by (by etransitivity).
  eapply gives_bind; [by apply gettoken_gives|]. intros t s2 (H2 & Hl2 & _). specialize (Hl2 Hc).
  assert (s2 `suffix_of` line) as L2 by (by etransitivity).
  eapply gives_bind; [by apply gettoken_gives|]. intros w s3 (H3 & _ & Hw).
  destruct (Z.eqb_spec w.1 97) as [Ew|]; cbn [negb]; [|done]. specialize (Hw Ew).
  pose proof (suffix_len _ _ H1) as Hlen1. pose proof (suffix_len _ _ H3) as Hlen3.
  eapply gives_bind; [apply IH; [by etransitivity|lia]|]. intros rs s4 [H4 Hrs]. split.
  - etransitivity; [exact H4|]. etransitivity; [exact H3|]. by etransitivity; [exact H2|].
  - rewrite fmap_app. apply Forall_app. split; [|done]. repeat (destruct (_ =? _); [by repeat constructor|]). constructor.
Qed.

Lemma gets_gives {A B} (g : chars -> A) (k : A -> M chars B) s R : gives (k (g s) s) R -> gives (bind (gets g) k s) R.
Proof. done. Qed.

Lemma parseargs_gives n : forall argc s, s `suffix_of` line -> (length s < n)%nat ->
  gives (parseargs es n argc s) (leaves (fun r => r.1 ++ (file_of <$> r.2)) s).
Proof.
  induction n as [|n IH]; intros argc s Hs Hn; [lia|]. cbn [parseargs]. apply peek_token_gives; intros s1 E1 H1.
  2:{ intros _. split; [done|constructor]. }
  assert (s1 `suffix_of` line) as L1 by (by etransitivity).
  assert (hd 0 (skip_ws s1) = 0 -> gives (gettoken es s1) (fun r s' => s' `suffix_of` s1 /\ r.1 = 0)) as H0.
  { intros E0. unfold gettoken. rewrite E0. cbn. split; [etransitivity; apply skip_suffix|done]. }
  destruct (decide (hd 0 (skip_ws s1) = 0)) as [Ec|Hc].
  { eapply gives_bind; [by apply H0|]. intros t s2 [H2 ->]. cbn. split; [by etransitivity|constructor]. }
  eapply gives_bind; [by apply gettoken_gives|]. intros t s2 (H2 & Hl2 & Hw). specialize (Hl2 Hc).
  destruct (t.1 =? 0); [split; [by etransitivity|constructor]|].
  destruct (Z.eqb_spec t.1 97) as [Et|]; cbn [negb]; [|done]. specialize (Hw Et).
  destruct (MAXARGS <=? argc + 1); [done|]. apply gets_gives.
  assert (s2 `suffix_of` line) as L2 by (by etransitivity). pose proof (suffix_len _ _ H1) as Hlen1.
  eapply gives_bind; [apply parseredirs_gives; [done|lia]|]. intros rs s3 [H3 Hrs]. pose proof (suffix_len _ _ H3) as Hlen3.
  eapply gives_bind; [apply IH; [by etransitivity|lia]|]. intros r s4 [H4 Hr]. split.
  - etransitivity; [exact H4|]. etransitivity; [exact H3|]. by etransitivity; [exact H2|].
  - cbn. apply Forall_app in Hr as [Hr1 Hr2]. rewrite fmap_app. constructor; [done|]. by rewrite !Forall_app.
Qed.

Lemma parseback_gives n : forall c s, s `suffix_of` line -> Forall wtok (words c) -> (length s < n)%nat ->
  gives (parseback es n c s) (leaves words s).
Proof.
  induction n as [|n IH]; intros c s Hs Hw Hn; [lia|]. cbn [parseback]. apply peek_token_gives; intros s1 E1 H1; [by split|].
  intros Hc. assert (s1 `suffix_of` line) as L1 by (by etransitivity).
  eapply gives_bind; [by apply gettoken_gives|]. intros t s2 (H2 & Hl2 & _). specialize (Hl2 Hc). pose proof (suffix_len _ _ H1) as Hlen1.
  eapply gives_weaken; [apply IH; [by etransitivity|done|lia]|]. intros c' s3 [H3 Hc']. split; [|done].
  etransitivity; [exact H3|]. by etransitivity; [exact H2|].
Qed.

Lemma words_redirs (rs : list (token * Z * Z)) : forall c, words (fold_left redircmd rs c) = words c ++ (file_of <$> rs).
Proof. induction rs as [|r rs IH]; intros c; cbn; [by rewrite app_nil_r|]. rewrite IH. cbn. by rewrite <- app_assoc. Qed.

Definition all_give (f : nat) : Prop :=
  (forall s, s `suffix_of` line -> (4 * length s + 4 <= f)%nat -> gives (parseline es f s) (leaves words s)) /\
  (forall s, s `suffix_of` line -> (4 * length s + 3 <= f)%nat -> gives (parsepipe es f s) (leaves words s)) /\
  (forall s, s `suffix_of` line -> (4 * length s + 2 <= f)%nat -> gives (parseexec es f s) (leaves words s)) /\
  (forall s, s `suffix_of` line -> (4 * length s + 1 <= f)%nat -> gives (parseblock es f s) (leaves words s)).

(** Every character consumed pays for four levels of recursion. *)
Lemma parsers_give f : all_give f.
Proof.
  induction f as [|f (IHl & IHp & IHe & IHb)]; [unfold all_give; split_and!; intros; lia|].
  split_and!; intros s Hs Hf; cbn [parseline parsepipe parseexec parseblock].
  - eapply gives_bind; [apply IHp; [done|lia]|]. intros c s1 [H1 W1]. pose proof (suffix_len _ _ H1) as Hl1.
    apply gets_gives. eapply gives_bind; [apply parseback_gives; [by etransitivity|done|lia]|]. intros c2 s2 [H2 W2].
    pose proof (suffix_len _ _ H2) as Hl2. assert (s2 `suffix_of` s) as H12 by (by etransitivity).
    apply peek_token_gives; intros s3 E3 H3; [split; [by etransitivity|done]|]. intros Hc.
    assert (s3 `suffix_of` s) as H13 by (by etransitivity). pose proof (suffix_len _ _ H3) as Hl3.
    eapply gives_bind; [apply gettoken_gives; by etransitivity|]. intros t s4 (H4 & Hl4 & _). specialize (Hl4 Hc).
    assert (s4 `suffix_of` s) as H14 by (by etransitivity).
    eapply gives_bind; [apply IHl; [by etransitivity|lia]|]. intros r s5 [H5 W5].
    split; [by etransitivity|]. cbn. by apply Forall_app.
  - eapply gives_bind; [apply IHe; [done|lia]|]. intros c s1 [H1 W1]. pose proof (suffix_len _ _ H1) as Hl1.
    apply peek_token_gives; intros s3 E3 H3; [split; [by etransitivity|done]|]. intros Hc.
    assert (s3 `suffix_of` s) as H13 by (by etransitivity). pose proof (suffix_len _ _ H3) as Hl3.
    eapply gives_bind; [apply gettoken_gives; by etransitivity|]. intros t s4 (H4 & Hl4 & _). specialize (Hl4 Hc).
    assert (s4 `suffix_of` s) as H14 by (by etransitivity).
    eapply gives_bind; [apply IHp; [by etransitivity|lia]|]. intros r s5 [H5 W5].
    split; [by etransitivity|]. cbn. by apply Forall_app.
  - apply peek_token_gives; intros s1 E1 H1; pose proof (suffix_len _ _ H1) as Hl1.
    2:{ intros _. eapply gives_weaken; [apply IHb; [by etransitivity|lia]|]. intros c s2 [H2 W2]. split; [by etransitivity|done]. }
    apply gets_gives. eapply gives_bind; [apply parseredirs_gives; [by etransitivity|lia]|]. intros rs s2 [H2 W2].
    assert (s2 `suffix_of` s) as H12 by (by etransitivity).
    apply gets_gives. eapply gives_bind; [apply parseargs_gives; [by etransitivity|lia]|]. intros r s3 [H3 W3].
    split; [by etransitivity|]. rewrite words_redirs, fmap_app. cbn. apply Forall_app in W3 as [W3 W4].
    by rewrite !Forall_app.
  - apply peek_token_gives; intros s1 E1 H1; cbn [negb]; [done|]. pose proof (suffix_len _ _ H1) as Hl1. intros Hc.
    eapply gives_bind; [apply gettoken_gives; by etransitivity|]. intros t s2 (H2 & Hl2 & _). specialize (Hl2 Hc).
    assert (s2 `suffix_of` s) as H12 by (by etransitivity).
    eapply gives_bind; [apply IHl; [by etransitivity|lia]|]. intros c s3 [H3 W3].
    assert (s3 `suffix_of` s) as H13 by (by etransitivity).
    apply peek_token_gives; intros s4 E4 H4; cbn [negb]; [done|]. intros _.
    assert (s4 `suffix_of` s) as H14 by (by etransitivity).
    eapply gives_bind; [apply gettoken_gives; by etransitivity|]. intros t' s5 (H5 & _ & _).
    assert (s5 `suffix_of` s) as H15 by (by etransitivity). apply gets_gives.
    eapply gives_bind; [apply parseredirs_gives; [by etransitivity|lia]|]. intros rs s6 [H6 W6].
    split; [by etransitivity|]. rewrite words_redirs. by apply Forall_app.
Qed.

(** ** nulterminate *)

Hypothesis no_nul : Forall (fun c => c <> 0) line.

Lemma until_nul_app w v : Forall (fun c => c <> 0) w -> until_nul (w ++ v) = w ++ until_nul v.
Proof. induction 1 as [|c w Hc Hw IH]; simpl; [done|]. rewrite (proj2 (Z.eqb_neq c 0)) by done. by rewrite IH. Qed.

(** A buffer that differs from the line only by NULs behind words. *)
Definition nul_ended (ts : list token) (buf : chars) : Prop := length buf = S (length line) /\
  (forall i, buf !! i = (line ++ [0]) !! i \/ (buf !! i = Some 0 /\ exists t, t ∈ ts /\ Z.of_nat i = t.2)) /\
  (forall t i, t ∈ ts -> Z.of_nat i = t.2 -> buf !! i = Some 0).

Lemma nul_ended_store ts buf t : nul_ended ts buf -> wtok t -> nul_ended (ts ++ [t]) (store0 buf t).
Proof.
  intros (Hl & Hb & H0) (u & w & v & E & _ & _ & _ & Et). unfold store0. split; [by rewrite length_insert|].
  assert (Z.to_nat t.2 < length buf)%nat as Hlt by (rewrite Hl, E, Et; cbn; rewrite !length_app; lia).
  split; intros i; [|intros j Hj Ej].
  2:{ destruct (decide (j = Z.to_nat t.2)) as [-> |Hi]; [by apply list_lookup_insert_eq|].
      rewrite list_lookup_insert_ne by done. apply elem_of_app in Hj as [Hj| ->%list_elem_of_singleton]; [by eapply H0|lia]. }
  destruct (decide (i = Z.to_nat t.2)) as [-> |Hi].
  - right. rewrite list_lookup_insert_eq by done.
    split; [done|]. exists t. split; [apply elem_of_app; right; by left|]. rewrite Et. cbn. lia.
  - rewrite list_lookup_insert_ne by done. destruct (Hb i) as [Hi'|(Hi' & t' & Ht & Hit)]; [by left|right].
    split; [done|]. exists t'. split; [apply elem_of_app; by left|done].
Qed.

Lemma nulterminate_ended c : forall ts buf, Forall wtok (words c) -> nul_ended ts buf ->
  nul_ended (ts ++ words c) (nulterminate c buf).
Proof.
  induction c as [argv|c IH f m d|l IHl r IHr|l IHl r IHr|c IH]; intros ts buf Hw Hb; cbn [words nulterminate] in *.
  - revert ts buf Hb. induction Hw as [|t argv Ht Hw IH]; intros ts buf Hb; cbn; [by rewrite app_nil_r|].
    rewrite cons_middle, app_assoc. apply IH. by apply nul_ended_store.
  - apply Forall_app in Hw as [Hw Hf]. rewrite app_assoc. apply nul_ended_store; [by apply IH|by inversion Hf].
  - apply Forall_app in Hw as [Hl Hr]. rewrite app_assoc. by apply IHr, IHl.
  - apply Forall_app in Hw as [Hl Hr]. rewrite app_assoc. by apply IHr, IHl.
  - by apply IH.
Qed.

(** The string at a word's pointer is the word: no NUL falls inside it, and
    one stands behind it. *)
Lemma string_at_word ts buf t : nul_ended ts buf -> Forall wtok ts -> t ∈ ts -> string_at buf t = sub line t.
Proof.
  intros (Hl & Hb & H0) Hts Ht. rewrite Forall_forall in Hts. pose proof (Hts t Ht) as (u & w & v & E & Hne & Hw & Hv & Et).
  assert (sub line t = w) as ->.
  { unfold sub. rewrite Et. cbn [fst snd]. rewrite E. replace (Z.to_nat (Z.of_nat (length u + length w) - Z.of_nat (length u))) with (length w) by lia.
    rewrite Nat2Z.id, drop_app_length, take_app_length. done. }
  assert (exists r, drop (length u) buf = w ++ 0 :: r) as [r Er].
  { exists (drop (S (length u + length w)) buf). rewrite <- (take_drop (length w) (drop (length u) buf)) at 1.
    rewrite drop_drop. f_equal.
    - apply list_eq. intros i. destruct (decide (i < length w)%nat) as [Hi|Hi].
      + rewrite lookup_take_lt, lookup_drop by done.
        assert ((line ++ [0]) !! (length u + i)%nat = w !! i) as Ew.
        { rewrite E, <- !app_assoc, lookup_app_r by lia. rewrite lookup_app_l by lia. f_equal. lia. }
        destruct (Hb (length u + i)%nat) as [-> |(_ & t' & Ht' & Hit)]; [done|]. exfalso.
        destruct (Hts t' Ht') as (u' & w' & v' & E' & _ & _ & Hv' & Et'). rewrite Et' in Hit. cbn in Hit.
        destruct (lookup_lt_is_Some_2 w i Hi) as [c Hc]. rewrite Forall_lookup in Hw. pose proof (Hw i c Hc) as Hcw. cbn in Hcw.
        rewrite Hc, lookup_app_l in Ew by (rewrite E, !length_app; lia).
        rewrite E' in Ew. rewrite app_assoc, lookup_app_r in Ew by (rewrite length_app; lia).
        rewrite length_app in Ew. replace (length u + i - (length u' + length w'))%nat with 0%nat in Ew by lia.
        destruct v' as [|x v']; [done|]. cbn in Ew, Hv'. destruct Hv' as [?|Hv']; [done|]. injection Ew as ->. congruence.
      + rewrite !lookup_ge_None_2; [done|lia|rewrite length_take; lia].
    - rewrite <- (drop_S _ 0); [done|]. apply (H0 t); [done|]. rewrite Et. cbn. lia. }
  unfold string_at. rewrite Et. cbn [fst]. rewrite Nat2Z.id, Er, until_nul_app; [cbn; by rewrite app_nil_r|].
  rewrite E in no_nul. apply Forall_app in no_nul as [_ Hn]. by apply Forall_app in Hn as [Hn _].
Qed.

Lemma sub_word t : wtok t -> sub line t <> [] /\ Forall (fun c => is_word c = true) (sub line t).
Proof.
  intros (u & w & v & E & Hne & Hw & _ & Et). unfold sub. rewrite Et. cbn [fst snd]. rewrite E.
  replace (Z.to_nat (Z.of_nat (length u + length w) - Z.of_nat (length u))) with (length w) by lia.
  by rewrite Nat2Z.id, drop_app_length, take_app_length.
Qed.

Lemma cmd_map_ext {V W} (f g : V -> W) c : (forall w, w ∈ words c -> f w = g w) -> cmd_map f c = cmd_map g c.
Proof.
  induction c as [argv|c IH f' m d|l IHl r IHr|l IHl r IHr|c IH]; intros H; cbn in *; f_equal; eauto.
  - apply list_fmap_ext. intros i w Hw. apply H. by apply list_elem_of_lookup_2 in Hw.
  - apply IH. intros w Hw. apply H, elem_of_app. by left.
  - apply H, elem_of_app. right. by left.
  - apply IHl. intros w Hw. apply H, elem_of_app. by left.
  - apply IHr. intros w Hw. apply H, elem_of_app. by right.
  - apply IHl. intros w Hw. apply H, elem_of_app. by left.
  - apply IHr. intros w Hw. apply H, elem_of_app. by right.
Qed.

Lemma words_map {V W} (f : V -> W) c : words (cmd_map f c) = f <$> words c.
Proof.
  induction c as [argv|c IH f' m d|l IHl r IHr|l IHl r IHr|c IH]; cbn; rewrite ?fmap_app, ?IH, ?IHl, ?IHr; done.
Qed.

(** What runcmd reads in the buffer is what stands between the pointers. *)
Lemma read_cmd_sub c : Forall wtok (words c) -> read_cmd (c, nulterminate c (line ++ [0])) = cmd_map (sub line) c.
Proof.
  intros Hw. apply cmd_map_ext. intros t Ht. cbn.
  apply (string_at_word (words c)); [|done|done]. apply (nulterminate_ended c [] (line ++ [0])); [done|].
  split; [rewrite length_app; cbn; lia|]. split; [by left|]. intros t' i Ht'. by apply elem_of_nil in Ht'.
Qed.
End tokens.

(** C25. The parser terminates, and its words are the line's. On a line without
    NULs parsecmd reports a syntax error or returns a command; every argument
    and file name that runcmd finds in the buffer after nulterminate is a
    maximal word of the line: the characters between the pointers of its
    token, not empty, without white space or symbols. *)
Theorem parsecmd_terminates (s : chars) : Forall (fun c => c <> 0) s ->
  (exists msg, parsecmd s = Panic msg) \/
  (exists c buf rest, parsecmd s = Ret (c, buf) rest /\ Forall (wtok s) (words c) /\
     read_cmd (c, buf) = cmd_map (sub s) c /\
     Forall (fun w => w <> [] /\ Forall (fun x => is_word x = true) w) (words (read_cmd (c, buf)))).
Proof.
  intros Hn. destruct (parsers_give s (parse_fuel s)) as (Hl & _).
  specialize (Hl s (reflexivity s) ltac:(unfold parse_fuel; lia)). unfold parsecmd. cbv zeta in *. unfold gives in Hl. unfold bind.
  destruct (parseline (strlen s) (parse_fuel s) s) as [c s1|msg| |]; [|left; by exists msg|done|done]. destruct Hl as [Hs Hw].
  unfold peek, get, ret. destruct (negb (strlen _ =? 0)); [left; by exists "syntax"|]. right.
  exists c, (nulterminate c (s ++ [0])), (skip_ws s1). split; [done|]. split; [done|].
  assert (read_cmd (c, nulterminate c (s ++ [0])) = cmd_map (sub s) c) as -> by (by apply read_cmd_sub). split; [done|].
  rewrite words_map. apply Forall_fmap. eapply Forall_impl; [exact Hw|]. intros t Ht. by apply sub_word.
Qed.

Lemma parsecmd_terminates_witness : exists c buf rest, parsecmd (lit "echo hi >f; wc <f|cat") = Ret (c, buf) rest /\
  words (read_cmd (c, buf)) = lit <$> ["echo"; "hi"; "f"; "wc"; "f"; "cat"]%string.
Proof.
  destruct (parsecmd_terminates (lit "echo hi >f; wc <f|cat")) as [[msg E]|(c & buf & rest & E & _ & Er & _)].
  - apply (bool_decide_eq_true_1 (Forall _ _)). vm_compute. reflexivity.
  - vm_compute in E. discriminate E.
  - exists c, buf, rest. split; [exact E|]. rewrite Er. vm_compute in E. injection E as <- _ _. vm_compute. reflexivity.
Defined.
