(* ===== verification/ShPrint.v ===== *)
(** * The shell's parser inverts a printer

    [pr] writes a command with the fewest parentheses the grammar of sh.c
    allows; the parser reads every printed command back. *)
From stdpp Require Import base list numbers strings.
From Stdlib Require Import ZArith Lia.
From S2P Require Import Ulib Prelude Sh ShProps.

Abbreviation redirection := (chars * Z * Z)%type.

Definition redir_sym (mode : Z) : chars :=
  if mode =? O_READ then lit "<" else if mode =? O_TRUNCATE then lit ">" else lit ">>".
Definition pr_redir (r : redirection) : chars := redir_sym r.1.2 ++ r.1.1 ++ [32].
Definition pr_redirs (rs : list redirection) : chars := concat (pr_redir <$> rs).
Definition pr_words (ws : list chars) : chars := concat ((fun w => w ++ [32]) <$> ws).
Definition paren (b : bool) (s : chars) : chars := if b then [40] ++ s ++ [41] else s.

(** Level 0 stands in a pipe, 1 before an ampersand, 2 before a semicolon. *)
Fixpoint pr (lvl : Z) (c : cmd chars) : chars :=
  match c with
  | EXEC ws => pr_words ws
  | REDIR c f m d => pr 0 c ++ pr_redir (f, m, d)
  | PIPE l r => paren (lvl <? 1) (pr 0 l ++ [124] ++ pr 1 r)
  | BACK c => paren (lvl <? 2) (pr 2 c ++ [38])
  | LIST l r => paren (lvl <? 3) (pr 2 l ++ [59] ++ pr 3 r)
  end.

(** Commands the shell can be given *)
Definition ok_word (w : chars) : Prop := w <> [] /\ Forall (fun c => is_word c = true /\ c <> 0) w.
Definition ok_redir (r : redirection) : Prop :=
  ok_word r.1.1 /\ (r.1.2, r.2) ∈ [(O_READ, 0); (O_TRUNCATE, 1); (O_APPEND, 1)].
Fixpoint ok_cmd (c : cmd chars) : Prop :=
  match c with
  | EXEC ws => Forall ok_word ws /\ Z.of_nat (length ws) < MAXARGS
  | REDIR c f m d => ok_cmd c /\ ok_redir (f, m, d)
  | PIPE l r | LIST l r => ok_cmd l /\ ok_cmd r
  | BACK c => ok_cmd c
  end.

#[export] Instance ok_word_dec w : Decision (ok_word w).
Proof. unfold ok_word. apply _. Defined.
#[export] Instance ok_redir_dec r : Decision (ok_redir r).
Proof. unfold ok_redir. apply _. Defined.
#[export] Instance ok_cmd_dec c : Decision (ok_cmd c).
Proof. induction c; cbn; apply _. Defined.

(** ** Tokens *)

Lemma is_word_not c : is_word c = true -> is_in whitespace c = false /\ is_in symbols c = false.
Proof. unfold is_word. by destruct (is_in whitespace c), (is_in symbols c). Qed.
Lemma is_in_elem l c : is_in l c = true <-> c ∈ l.
Proof.
  induction l as [|a l IH]; unfold is_in in *; cbn; [split; [done|intros H; by apply elem_of_nil in H]|].
  rewrite elem_of_cons. destruct (Z.eqb_spec a c) as [-> |Hne]; [split; auto|]. rewrite IH. split; [by right|].
  by intros [-> |?].
Qed.
Lemma not_symbol l c : is_in symbols c = false -> forallb (is_in symbols) l = true -> is_in l c = false.
Proof.
  intros Hc Hl. destruct (is_in l c) eqn:E; [|done]. apply is_in_elem in E. rewrite forallb_forall in Hl.
  rewrite (Hl c) in Hc; [done|]. by apply list_elem_of_In.
Qed.

Section reading.
Context (line : chars).
Abbreviation es := (strlen line).

Lemma skip_ws_word w k : ok_word w -> skip_ws (w ++ k) = w ++ k.
Proof.
  intros [Hne Hw]. destruct w as [|c w]; [done|]. inversion Hw as [|? ? [Hc _] _]; subst. apply is_word_not in Hc as [Hc _].
  unfold skip_ws. cbn. by rewrite Hc.
Qed.
Lemma skip_word w k : ok_word w -> skip is_word (w ++ 32 :: k) = 32 :: k.
Proof. intros [_ Hw]. induction Hw as [|c w [Hc _] Hw IH]; cbn; [done|]. by rewrite Hc. Qed.

Lemma sub_pos w r : (w ++ r) `suffix_of` line -> sub line (pos es (w ++ r), pos es r) = w.
Proof.
  intros [u Eu]. unfold sub. cbn [fst snd]. rewrite (pos_suffix line u (w ++ r)) by done.
  rewrite (pos_suffix line (u ++ w) r) by (by rewrite <- app_assoc). rewrite length_app, Nat2Z.id, Eu.
  replace (Z.to_nat _) with (length w) by lia. by rewrite drop_app_length, take_app_length.
Qed.

Lemma gettoken_word w k : ok_word w ->
  gettoken es (w ++ 32 :: k) = Ret (97, (pos es (w ++ 32 :: k), pos es (32 :: k))) (skip_ws k).
Proof.
  intros Hw. unfold gettoken. rewrite skip_ws_word, skip_word by done. pose proof Hw as [Hne Hall].
  destruct w as [|c w]; [done|]. inversion Hall as [|? ? [Hc H0] _]; subst. apply is_word_not in Hc as [_ Hc]. cbn [app hd].
  rewrite (proj2 (Z.eqb_neq c 0)) by done.
  rewrite (not_symbol (lit "|();&<") c Hc) by done.
  assert (c <> 62) as H62 by (intros ->; done). rewrite (proj2 (Z.eqb_neq c 62)) by done. done.
Qed.

Lemma peek_skip toks s : peek toks (skip_ws s) = peek toks s.
Proof. unfold peek. by rewrite skip_ws_idemp. Qed.
Lemma peek_word toks w k : ok_word w -> forallb (is_in symbols) toks = true -> peek toks (w ++ k) = Ret false (w ++ k).
Proof.
  intros Hw Ht. unfold peek. rewrite skip_ws_word by done. destruct Hw as [Hne Hall]. destruct w as [|c w]; [done|].
  inversion Hall as [|? ? [Hc _] _]; subst. apply is_word_not in Hc as [_ Hc]. cbn [app hd].
  rewrite (not_symbol toks c Hc) by done. by rewrite andb_false_r.
Qed.
(** The next character is in [l], which has none of [toks]. *)
Lemma peek_stop toks k l : is_in l (hd 0 (skip_ws k)) = true ->
  forallb (fun x => (x =? 0) || negb (is_in toks x)) l = true -> peek toks k = Ret false (skip_ws k).
Proof.
  intros Hk Hl. apply is_in_elem in Hk. rewrite forallb_forall in Hl. specialize (Hl _ (proj1 (list_elem_of_In _ _) Hk)).
  unfold peek. destruct (_ =? 0); [done|]. cbn in *. by destruct (is_in toks _).
Qed.

Lemma parseredirs_skip n s : parseredirs es n (skip_ws s) = parseredirs es n s.
Proof. destruct n; [done|]. cbn [parseredirs]. unfold bind at 1 3. by rewrite peek_skip. Qed.

Abbreviation text := (fun r : token * Z * Z => (sub line r.1.1, r.1.2, r.2)).

(** Nothing to redirect. *)
Lemma parseredirs_none n s : peek (lit "<>") s = Ret false (skip_ws s) -> parseredirs es (S n) s = Ret [] (skip_ws s).
Proof. intros E. cbn [parseredirs]. by rewrite (bind_step _ _ _ _ _ E). Qed.

(** The symbol of a redirection, before its file. *)
Lemma gettoken_redir f m d r : ok_word f -> (m, d) ∈ [(O_READ, 0); (O_TRUNCATE, 1); (O_APPEND, 1)] ->
  let s := redir_sym m ++ f ++ r in
  peek (lit "<>") s = Ret true s /\ exists t, gettoken es s = Ret t (f ++ r) /\
  forall w, (if t.1 =? 60 then [(w, O_READ, 0)] else if t.1 =? 62 then [(w, O_TRUNCATE, 1)]
             else if t.1 =? 43 then [(w, O_APPEND, 1)] else []) = [((w : token), m, d)].
Proof.
  intros Hf Hm s. pose proof (skip_ws_word f r Hf) as Es.
  assert ((hd 0 (f ++ r) =? 62) = false) as H62.
  { destruct Hf as [Hne Hw]. destruct f as [|c f]; [done|]. inversion Hw as [|? ? [Hc _] _]; subst. cbn.
    apply Z.eqb_neq. intros ->. done. }
  rewrite !elem_of_cons, elem_of_nil in Hm. destruct Hm as [[= -> ->]|[[= -> ->]|[[= -> ->]|[]]]]; split; try done.
  - exists (60, (pos es s, pos es (f ++ r))). split; [|done]. rewrite <- Es at 2. done.
  - exists (62, (pos es s, pos es (f ++ r))). split; [|done]. rewrite <- Es at 2. unfold gettoken. cbn [s app redir_sym].
    change (skip_ws s) with s. cbn -[pos skip_ws]. by rewrite H62.
  - exists (43, (pos es s, pos es (f ++ r))). split; [|done]. rewrite <- Es at 2. done.
Qed.

Lemma parseredirs_print rs : forall n k, Forall ok_redir rs -> (pr_redirs rs ++ k) `suffix_of` line ->
  is_in [0; 124; 41; 38; 59] (hd 0 (skip_ws k)) = true -> (length (pr_redirs rs ++ k) < n)%nat ->
  exists rs', parseredirs es n (pr_redirs rs ++ k) = Ret rs' (skip_ws k) /\ text <$> rs' = rs.
Proof.
  induction rs as [|[[f m] d] rs IH]; intros [|n] k Hok Hsuf Hk Hn; try lia.
  - exists []. split; [|done]. apply parseredirs_none. by apply (peek_stop _ _ _ Hk).
  - apply Forall_cons in Hok as [[Hf Hm] Hok]. cbn [fst snd] in *. unfold pr_redirs in *. cbn [fmap list_fmap concat] in *.
    fold (pr_redirs rs) in *. unfold pr_redir in *. cbn [fst snd] in *. rewrite <- !app_assoc in *. cbn [app] in *.
    set (r := pr_redirs rs ++ k) in *.
    destruct (gettoken_redir f m d (32 :: r) Hf Hm) as (Ep & t & Et & Em).
    assert ((f ++ 32 :: r) `suffix_of` line) as Hsf by (etransitivity; [|exact Hsuf]; by exists (redir_sym m)).
    destruct (IH n k Hok) as (rs' & E & Ers); [|done| |].
    + etransitivity; [|exact Hsf]. exists (f ++ [32]). by rewrite <- app_assoc.
    + unfold r in Hn. rewrite !length_app in *. cbn in Hn. rewrite length_app in Hn. lia.
    + exists ((pos es (f ++ 32 :: r), pos es (32 :: r), m, d) :: rs'). split.
      * cbn [parseredirs]. rewrite (bind_step _ _ _ _ _ Ep), (bind_step _ _ _ _ _ Et), (bind_step _ _ _ _ _ (gettoken_word f r Hf)).
        cbn [fst snd]. rewrite Z.eqb_refl. cbn [negb]. rewrite Em. fold r in E. unfold bind. rewrite parseredirs_skip. by rewrite E.
      * cbn. rewrite Ers, sub_pos by done. done.
Qed.

(** As the parsers call it, behind a token. *)
Lemma parseredirs_run rs k : Forall ok_redir rs -> (pr_redirs rs ++ k) `suffix_of` line ->
  is_in [0; 124; 41; 38; 59] (hd 0 (skip_ws k)) = true -> let s := skip_ws (pr_redirs rs ++ k) in
  exists rs', parseredirs es (S (length s)) s = Ret rs' (skip_ws k) /\ text <$> rs' = rs.
Proof.
  intros Hok Hsuf Hk s. destruct rs as [|[[f m] d] rs].
  - exists []. split; [|done]. unfold s. cbn [pr_redirs fmap list_fmap concat app]. rewrite parseredirs_skip.
    apply parseredirs_none. by apply (peek_stop _ _ _ Hk).
  - assert (s = pr_redirs ((f, m, d) :: rs) ++ k) as ->; [|apply parseredirs_print; auto; lia].
    unfold s, pr_redirs, pr_redir, redir_sym. cbn [fmap list_fmap concat fst snd]. by destruct (_ =? _); [|destruct (_ =? _)].
Qed.

Lemma parseargs_skip n a s : parseargs es n a (skip_ws s) = parseargs es n a s.
Proof. destruct n; [done|]. cbn [parseargs]. unfold bind at 1 3. by rewrite peek_skip. Qed.

Lemma pr_words_cons w ws k : pr_words (w :: ws) ++ k = w ++ 32 :: pr_words ws ++ k.
Proof. unfold pr_words. cbn. by rewrite <- !app_assoc. Qed.

(** The end of the arguments. *)
Lemma parseargs_end n a k : is_in [0; 124; 41; 38; 59] (hd 0 (skip_ws k)) = true ->
  parseargs es (S n) a k = Ret ([], []) (skip_ws k).
Proof.
  intros Hk. cbn [parseargs]. destruct (Z.eqb_spec (hd 0 (skip_ws k)) 0) as [E0|E0].
  - assert (peek (lit "|)&;") k = Ret false (skip_ws k)) as E by (unfold peek; by rewrite E0). rewrite (bind_step _ _ _ _ _ E).
    assert (exists t, gettoken es (skip_ws k) = Ret (0, t) (skip_ws k)) as [t Et].
    { unfold gettoken. rewrite skip_ws_idemp, E0. cbn. rewrite skip_ws_idemp. by eexists. }
    by rewrite (bind_step _ _ _ _ _ Et).
  - assert (peek (lit "|)&;") k = Ret true (skip_ws k)) as E.
    { unfold peek. rewrite (proj2 (Z.eqb_neq _ 0)) by done. apply is_in_elem in Hk. apply elem_of_cons in Hk as [?|Hk]; [done|].
      do 2 f_equal. cbn. by apply is_in_elem. }
    by rewrite (bind_step _ _ _ _ _ E).
Qed.

Lemma parseargs_print ws : forall rs n a k, Forall ok_word ws -> Forall ok_redir rs -> (ws = [] -> rs = []) ->
  a + Z.of_nat (length ws) < MAXARGS -> (pr_words ws ++ pr_redirs rs ++ k) `suffix_of` line ->
  is_in [0; 124; 41; 38; 59] (hd 0 (skip_ws k)) = true -> (length (pr_words ws ++ pr_redirs rs ++ k) < n)%nat ->
  exists ws' rs', parseargs es n a (pr_words ws ++ pr_redirs rs ++ k) = Ret (ws', rs') (skip_ws k) /\
    sub line <$> ws' = ws /\ text <$> rs' = rs.
Proof.
  induction ws as [|w ws IH]; intros rs [|n] a k Hws Hrs H0 Ha Hsuf Hk Hn; try lia.
  { rewrite (H0 eq_refl). exists [], []. split; [by apply parseargs_end|done]. }
  apply Forall_cons in Hws as [Hw Hws]. rewrite pr_words_cons in *. set (r := pr_words ws ++ pr_redirs rs ++ k) in *.
  cbn [length] in Ha. assert (r `suffix_of` line) as Hr by (etransitivity; [|exact Hsuf]; exists (w ++ [32]); by rewrite <- app_assoc).
  assert (length r < n)%nat as Hlen by (rewrite length_app in Hn; cbn in Hn; lia).
  assert (exists rs1 rs2 s2 ws', parseredirs es (S (length (skip_ws r))) (skip_ws r) = Ret rs1 s2 /\
    parseargs es n (a + 1) s2 = Ret (ws', rs2) (skip_ws k) /\ sub line <$> ws' = ws /\ text <$> (rs1 ++ rs2) = rs)
    as (rs1 & rs2 & s2 & ws' & E1 & E2 & Ews & Ers).
  { destruct ws as [|w2 ws2].
    - unfold r in *. cbn [pr_words fmap list_fmap concat app] in *. destruct n as [|n]; [lia|].
      destruct (parseredirs_run rs k Hrs Hr Hk) as (rs' & E & Ers).
      exists rs', [], (skip_ws k), []. rewrite app_nil_r. split; [done|]. split; [|done].
      rewrite parseargs_end; rewrite skip_ws_idemp; done.
    - assert (ok_word w2) as Hw2 by (by inversion Hws). assert (skip_ws r = r) as Er by (unfold r; rewrite pr_words_cons; by apply skip_ws_word).
      destruct (IH rs n (a + 1) k) as (ws' & rs' & E & Ews & Ers); try done; [lia|].
      exists [], rs', r, ws'. split; [|done]. rewrite Er. unfold r. rewrite parseredirs_none; unfold r in Er; rewrite ?Er; [done|].
      rewrite pr_words_cons. by apply peek_word. }
  exists ((pos es (w ++ 32 :: r), pos es (32 :: r)) :: ws'), (rs1 ++ rs2). split; [|cbn; by rewrite Ews, Ers, sub_pos].
  cbn [parseargs]. rewrite (bind_step _ _ _ _ _ (peek_word (lit "|)&;") w (32 :: r) Hw eq_refl)).
  rewrite (bind_step _ _ _ _ _ (gettoken_word w r Hw)). cbn [fst snd].
  change (97 =? 0) with false. rewrite Z.eqb_refl. cbn [negb]. rewrite (proj2 (Z.leb_gt MAXARGS _)) by lia.
  unfold bind at 1, gets. rewrite (bind_step _ _ _ _ _ E1), (bind_step _ _ _ _ _ E2). done.
Qed.

(** ** Commands *)

Lemma parseexec_skip n s : parseexec es (S n) (skip_ws s) = parseexec es (S n) s.
Proof. cbn [parseexec]. unfold bind at 1 4. by rewrite peek_skip. Qed.
Lemma parsepipe_skip n s : parsepipe es (S (S n)) (skip_ws s) = parsepipe es (S (S n)) s.
Proof. cbn [parsepipe]. unfold bind at 1 3. by rewrite parseexec_skip. Qed.
Lemma parseline_skip n s : parseline es (S (S (S n))) (skip_ws s) = parseline es (S (S (S n))) s.
Proof. cbn [parseline]. unfold bind at 1 5. by rewrite parsepipe_skip. Qed.

(** [m] reads the command [c] and stops before [k]. *)
Definition reads (m : M chars (cmd token)) (s : chars) (c : cmd chars) (k : chars) : Prop :=
  exists c', m s = Ret c' (skip_ws k) /\ cmd_map (sub line) c' = c.

Definition stops_at (l k : chars) : Prop := is_in l (hd 0 (skip_ws k)) = true.
Definition reads_exec (c : cmd chars) : Prop := forall f k, stops_at [0; 124; 41; 38; 59] k ->
  (pr 0 c ++ k) `suffix_of` line -> (4 * length (pr 0 c ++ k) + 2 <= f)%nat -> reads (parseexec es f) (pr 0 c ++ k) c k.
Definition reads_pipe (c : cmd chars) : Prop := forall f k, stops_at [0; 41; 38; 59] k ->
  (pr 1 c ++ k) `suffix_of` line -> (4 * length (pr 1 c ++ k) + 3 <= f)%nat -> reads (parsepipe es f) (pr 1 c ++ k) c k.
Definition reads_line (c : cmd chars) : Prop := forall f k, stops_at [0; 41] k ->
  (pr 3 c ++ k) `suffix_of` line -> (4 * length (pr 3 c ++ k) + 4 <= f)%nat -> reads (parseline es f) (pr 3 c ++ k) c k.

Lemma map_redirs (rs : list (token * Z * Z)) : forall c,
  cmd_map (sub line) (fold_left redircmd rs c) = fold_left redircmd (text <$> rs) (cmd_map (sub line) c).
Proof. induction rs as [|r rs IH]; intros c; cbn; [done|]. by rewrite IH. Qed.

Lemma exec_print ws rs f k : Forall ok_word ws -> Z.of_nat (length ws) < MAXARGS -> Forall ok_redir rs ->
  stops_at [0; 124; 41; 38; 59] k -> (pr_words ws ++ pr_redirs rs ++ k) `suffix_of` line ->
  reads (parseexec es (S f)) (pr_words ws ++ pr_redirs rs ++ k) (fold_left redircmd rs (EXEC ws)) k.
Proof.
  intros Hws Hlen Hrs Hk Hsuf. set (X := pr_words ws ++ pr_redirs rs ++ k) in *.
  assert (peek (lit "(") X = Ret false (skip_ws X)) as Ep.
  { unfold X. destruct ws as [|w ws]; [|rewrite pr_words_cons, skip_ws_word by (by inversion Hws); by apply peek_word; inversion Hws].
    destruct rs as [|[[g m] d] rs]; [by apply (peek_stop _ _ _ Hk)|].
    unfold pr_redirs, pr_redir, redir_sym. cbn [fmap list_fmap concat fst snd]. by destruct (_ =? _); [|destruct (_ =? _)]. }
  assert (exists rs1 rs2 s2 ws', parseredirs es (S (length (skip_ws X))) (skip_ws X) = Ret rs1 s2 /\
    parseargs es (S (length s2)) 0 s2 = Ret (ws', rs2) (skip_ws k) /\ sub line <$> ws' = ws /\ text <$> (rs1 ++ rs2) = rs)
    as (rs1 & rs2 & s2 & ws' & E1 & E2 & Ews & Ers).
  { destruct ws as [|w ws].
    - destruct (parseredirs_run rs k Hrs Hsuf Hk) as (rs' & E & Ers). exists rs', [], (skip_ws k), [].
      rewrite app_nil_r. split; [done|]. split; [|done]. rewrite parseargs_end; rewrite skip_ws_idemp; done.
    - assert (ok_word w) as Hw by (by inversion Hws).
      assert (skip_ws X = X) as Er by (unfold X; rewrite pr_words_cons; by apply skip_ws_word).
      destruct (parseargs_print (w :: ws) rs (S (length X)) 0 k) as (ws' & rs' & E & Ews & Ers); try done; [unfold X; lia|].
      exists [], rs', X, ws'. rewrite Er. split; [|done].
      rewrite parseredirs_none; rewrite Er; [done|]. unfold X. rewrite pr_words_cons. by apply peek_word. }
  exists (fold_left redircmd (rs1 ++ rs2) (EXEC ws')). split; [|by rewrite map_redirs, Ers; cbn; rewrite Ews].
  cbn [parseexec]. rewrite (bind_step _ _ _ _ _ Ep). unfold bind at 1, gets at 1. rewrite (bind_step _ _ _ _ _ E1).
  unfold bind at 1, gets. by rewrite (bind_step _ _ _ _ _ E2).
Qed.

Lemma block_print c rs f k : reads_line c -> Forall ok_redir rs -> stops_at [0; 124; 41; 38; 59] k ->
  let X := [40] ++ pr 3 c ++ [41] ++ pr_redirs rs ++ k in X `suffix_of` line -> (4 * length X + 2 <= f)%nat ->
  reads (parseexec es f) X (fold_left redircmd rs c) k.
Proof.
  intros Hc Hrs Hk X Hsuf Hf. destruct f as [|[|[|[|[|f]]]]]; try (unfold X in Hf; cbn in Hf; lia).
  set (r := pr_redirs rs ++ k) in *. set (Y := pr 3 c ++ [41] ++ r) in *.
  assert (Y `suffix_of` line) as HY by (etransitivity; [|exact Hsuf]; by exists [40]).
  assert (r `suffix_of` line) as Hr by (etransitivity; [|exact HY]; exists (pr 3 c ++ [41]); by rewrite <- app_assoc).
  destruct (Hc (S (S (S f))) ([41] ++ r)) as (c' & E & Ec); [done|done|unfold X in Hf; fold Y in Hf |- *; cbn in Hf; lia|].
  destruct (parseredirs_run rs k Hrs Hr Hk) as (rs' & Er & Ers).
  exists (fold_left redircmd rs' c'). split; [|by rewrite map_redirs, Ers, Ec].
  assert (peek (lit "(") X = Ret true X) as Ep by done.
  assert (exists t, gettoken es X = Ret t (skip_ws Y)) as [t Et] by (by eexists).
  assert (exists t, gettoken es ([41] ++ r) = Ret t (skip_ws r)) as [t' Et'] by (by eexists).
  cbn [parseexec]. rewrite (bind_step _ _ _ _ _ Ep). cbn [parseblock]. rewrite (bind_step _ _ _ _ _ Ep). cbn [negb].
  rewrite (bind_step _ _ _ _ _ Et). rewrite (bind_step (parseline es (S (S (S f)))) _ _ c' ([41] ++ r)).
  2:{ rewrite parseline_skip. exact E. }
  rewrite (bind_step (peek (lit ")")) _ _ true ([41] ++ r)) by done. cbn [negb].
  rewrite (bind_step _ _ _ _ _ Et'). unfold bind at 1, gets. by rewrite (bind_step _ _ _ _ _ Er).
Qed.

(** Redirections of a command, and what they apply to. *)
Fixpoint core (c : cmd chars) : cmd chars := match c with REDIR c _ _ _ => core c | _ => c end.
Fixpoint redirs (c : cmd chars) : list redirection :=
  match c with REDIR c f m d => redirs c ++ [(f, m, d)] | _ => [] end.

Lemma core_redirs c : fold_left redircmd (redirs c) (core c) = c.
Proof. induction c as [| c IH f m d| | |]; cbn; [done| |done..]. by rewrite fold_left_app, IH. Qed.
Lemma pr_core c : pr 0 c = pr 0 (core c) ++ pr_redirs (redirs c).
Proof.
  induction c as [| c IH f m d| | |]; cbn [core redirs]; try (by rewrite app_nil_r).
  cbn [pr]. rewrite IH, <- app_assoc. unfold pr_redirs. rewrite fmap_app, concat_app. cbn. by rewrite app_nil_r.
Qed.
Lemma ok_core c : ok_cmd c -> ok_cmd (core c) /\ Forall ok_redir (redirs c).
Proof.
  induction c as [| c IH f m d| | |]; cbn [core redirs]; try (intros H; split; [exact H|constructor]).
  intros [Hc Hr]. destruct (IH Hc) as [H1 H2]. split; [done|]. apply Forall_app. split; [done|]. by constructor.
Qed.

(** A command in front of a pipe: a list of words, or parentheses. *)
Definition is_exec (c : cmd chars) : bool := match c with EXEC _ => true | _ => false end.
Lemma core_not_redir c d f m i : core c <> REDIR d f m i.
Proof. induction c; cbn; try done. Qed.
Lemma pr_paren c : is_exec (core c) = false -> pr 0 (core c) = [40] ++ pr 3 (core c) ++ [41].
Proof. pose proof (core_not_redir c). by destruct (core c); try done; destruct (H c0 file mode fd). Qed.

Lemma exec_level c : ok_cmd c -> (is_exec (core c) = false -> reads_line (core c)) -> reads_exec c.
Proof.
  intros Hok Hcore f k Hk Hsuf Hf. destruct (ok_core c Hok) as [Hc Hrs].
  rewrite <- (core_redirs c) at 2. rewrite pr_core, <- app_assoc in *. destruct (is_exec (core c)) eqn:Ee.
  - destruct (core c) as [ws| | | |]; try done. destruct f as [|f]; [lia|]. destruct Hc. by apply exec_print.
  - rewrite (pr_paren c Ee), <- !app_assoc in *. apply block_print; auto.
Qed.

Lemma stops_weaken l l' k : stops_at l k -> forallb (is_in l') l = true -> stops_at l' k.
Proof.
  unfold stops_at. intros Hk Hl. rewrite forallb_forall in Hl. apply Hl. apply list_elem_of_In. by apply is_in_elem.
Qed.
Lemma peek_sym toks c k : (c =? 0) = false -> is_in whitespace c = false -> peek toks (c :: k) = Ret (is_in toks c) (c :: k).
Proof. intros H0 Hw. unfold peek, skip_ws. cbn. rewrite Hw. cbn. by rewrite H0. Qed.

(** One command is a pipeline. *)
Lemma pipe_single c : reads_exec c -> pr 1 c = pr 0 c -> reads_pipe c.
Proof.
  intros Hc E f k Hk Hsuf Hf. rewrite E in *. destruct f as [|f]; [lia|].
  destruct (Hc f k) as (c' & Ee & Ec); [by eapply stops_weaken|done|lia|]. exists c'. split; [|done].
  cbn [parsepipe]. rewrite (bind_step _ _ _ _ _ Ee).
  rewrite (bind_step (peek (lit "|")) _ _ false (skip_ws k)); [done|]. rewrite peek_skip. by apply (peek_stop _ _ _ Hk).
Qed.
Lemma pipe_print l r : reads_exec l -> reads_pipe r -> reads_pipe (PIPE l r).
Proof.
  intros Hl Hr f k Hk Hsuf Hf. cbn [pr paren Z.ltb Z.compare Pos.compare Pos.compare_cont] in *. rewrite <- !app_assoc in *.
  set (Y := pr 1 r ++ k) in *. destruct f as [|[|[|f]]]; [lia..|]. rewrite !length_app in Hf. cbn in Hf.
  assert (Y `suffix_of` line) as HY.
  { etransitivity; [|exact Hsuf]. exists (pr 0 l ++ [124]). by rewrite <- app_assoc. }
  destruct (Hl (S (S f)) ([124] ++ Y)) as (l' & El & Ell); [done|done|rewrite !length_app; cbn; lia|].
  destruct (Hr (S (S f)) k) as (r' & Er & Err); [done|done|fold Y; lia|].
  exists (PIPE l' r'). split; [|cbn; by rewrite Ell, Err]. cbn [parsepipe]. rewrite (bind_step _ _ _ _ _ El).
  rewrite (bind_step (peek (lit "|")) _ _ true ([124] ++ Y)) by done.
  assert (exists t, gettoken es ([124] ++ Y) = Ret t (skip_ws Y)) as [t Et] by (by eexists). rewrite (bind_step _ _ _ _ _ Et).
  rewrite (bind_step (parsepipe es (S (S f))) _ _ r' (skip_ws k)) by (rewrite parsepipe_skip; exact Er). done.
Qed.

(** Ampersands behind a pipeline. *)
Fixpoint bbase (c : cmd chars) : cmd chars := match c with BACK c => bbase c | _ => c end.
Fixpoint bcount (c : cmd chars) : nat := match c with BACK c => S (bcount c) | _ => 0 end.
Definition backs {W} (n : nat) (c : cmd W) : cmd W := Nat.iter n BACK c.

Lemma backs_base c : backs (bcount c) (bbase c) = c.
Proof. induction c; cbn; try done. by f_equal. Qed.
Lemma pr_back c : pr 2 c = pr 1 (bbase c) ++ replicate (bcount c) 38.
Proof.
  induction c as [| | | |c IH]; cbn [bbase bcount replicate]; try (by rewrite app_nil_r).
  cbn [pr paren Z.ltb Z.compare Pos.compare Pos.compare_cont]. rewrite IH, <- app_assoc. f_equal. by rewrite <- replicate_cons_app.
Qed.
Lemma map_backs {V W} (f : V -> W) n c : cmd_map f (backs n c) = backs n (cmd_map f c).
Proof. induction n as [|n IH]; [done|]. change (backs (S n) c) with (BACK (backs n c)). cbn [cmd_map]. by rewrite IH. Qed.

Lemma parseback_skip n c s : parseback es n c (skip_ws s) = parseback es n c s.
Proof. destruct n; [done|]. cbn [parseback]. unfold bind at 1 3. by rewrite peek_skip. Qed.
Lemma parseback_print m : forall n c k, stops_at [0; 41; 59] k -> (m < n)%nat ->
  parseback es n c (replicate m 38 ++ k) = Ret (backs m c) (skip_ws k).
Proof.
  induction m as [|m IH]; intros [|n] c k Hk Hn; try lia; cbn [replicate app parseback].
  - rewrite (bind_step (peek (lit "&")) _ _ false (skip_ws k)); [done|]. by apply (peek_stop _ _ _ Hk).
  - rewrite (bind_step (peek (lit "&")) _ _ true (38 :: replicate m 38 ++ k)) by done.
    assert (exists t, gettoken es (38 :: replicate m 38 ++ k) = Ret t (skip_ws (replicate m 38 ++ k))) as [t Et] by (by eexists).
    rewrite (bind_step _ _ _ _ _ Et), parseback_skip, IH by (done || lia). unfold backs. by rewrite Nat.iter_succ_r.
Qed.

Lemma back_run c f k : reads_pipe (bbase c) -> stops_at [0; 41; 59] k -> (pr 2 c ++ k) `suffix_of` line ->
  (4 * length (pr 2 c ++ k) + 3 <= f)%nat ->
  exists c1 s1 c2, parsepipe es f (pr 2 c ++ k) = Ret c1 s1 /\ parseback es (S (length s1)) c1 s1 = Ret c2 (skip_ws k) /\
    cmd_map (sub line) c2 = c.
Proof.
  intros Hc Hk Hsuf Hf. rewrite pr_back, <- app_assoc in *. set (K := replicate (bcount c) 38 ++ k) in *.
  assert (stops_at [0; 41; 38; 59] K) as HK.
  { unfold K. destruct (bcount c); [by eapply stops_weaken|done]. }
  destruct (Hc f K) as (c1 & E & Ec); [done|done|done|]. exists c1, (skip_ws K), (backs (bcount c) c1).
  split; [done|]. split; [|by rewrite map_backs, Ec, backs_base]. rewrite parseback_skip. apply parseback_print; [done|].
  unfold K. destruct (bcount c); [cbn; lia|]. change (skip_ws (replicate (S n) 38 ++ k)) with (replicate (S n) 38 ++ k).
  rewrite length_app, length_replicate. lia.
Qed.

Lemma line_single c : reads_pipe (bbase c) -> pr 3 c = pr 2 c -> reads_line c.
Proof.
  intros Hc E f k Hk Hsuf Hf. rewrite E in *. destruct f as [|f]; [lia|].
  destruct (back_run c f k Hc) as (c1 & s1 & c2 & E1 & E2 & Ec); [by eapply stops_weaken|done|lia|].
  exists c2. split; [|done]. cbn [parseline]. rewrite (bind_step _ _ _ _ _ E1). unfold bind at 1, gets. rewrite (bind_step _ _ _ _ _ E2).
  rewrite (bind_step (peek (lit ";")) _ _ false (skip_ws k)); [done|]. rewrite peek_skip. by apply (peek_stop _ _ _ Hk).
Qed.
Lemma line_print l r : reads_pipe (bbase l) -> reads_line r -> reads_line (LIST l r).
Proof.
  intros Hl Hr f k Hk Hsuf Hf. cbn [pr paren Z.ltb Z.compare Pos.compare Pos.compare_cont] in *. rewrite <- !app_assoc in *.
  set (Y := pr 3 r ++ k) in *. destruct f as [|[|[|[|f]]]]; [lia..|]. rewrite !length_app in Hf. cbn in Hf.
  assert (Y `suffix_of` line) as HY.
  { etransitivity; [|exact Hsuf]. exists (pr 2 l ++ [59]). by rewrite <- app_assoc. }
  destruct (back_run l (S (S (S f))) ([59] ++ Y) Hl) as (c1 & s1 & l' & E1 & E2 & El); [done|done|rewrite !length_app; cbn; lia|].
  destruct (Hr (S (S (S f))) k) as (r' & Er & Err); [done|done|fold Y; lia|].
  exists (LIST l' r'). split; [|cbn; by rewrite El, Err].
  cbn [parseline]. rewrite (bind_step _ _ _ _ _ E1). unfold bind at 1, gets. rewrite (bind_step _ _ _ _ _ E2).
  rewrite (bind_step (peek (lit ";")) _ _ true ([59] ++ Y)) by done.
  assert (exists t, gettoken es ([59] ++ Y) = Ret t (skip_ws Y)) as [t Et] by (by eexists). rewrite (bind_step _ _ _ _ _ Et).
  rewrite (bind_step (parseline es (S (S (S f)))) _ _ r' (skip_ws k)) by (rewrite parseline_skip; exact Er). done.
Qed.

(** Every command reads back at every level of the grammar. *)
Lemma all_read c : ok_cmd c -> reads_exec c /\ reads_pipe c /\ reads_pipe (bbase c) /\ reads_line c /\
  (is_exec (core c) = false -> reads_line (core c)).
Proof.
  induction c as [ws|c IH f m d|l IHl r IHr|l IHl r IHr|c IH]; intros Hok.
  - assert (reads_exec (EXEC ws)) as H0 by (by apply exec_level).
    assert (reads_pipe (EXEC ws)) as H1 by (by apply pipe_single). split_and!; try done. by apply line_single.
  - assert (reads_exec (REDIR c f m d)) as H0.
    { apply exec_level; [done|]. destruct Hok as [Hc _]. by apply IH. }
    assert (reads_pipe (REDIR c f m d)) as H1 by (by apply pipe_single). split_and!; try done; [by apply line_single|].
    destruct Hok as [Hc _]. by apply IH.
  - destruct Hok as [Hl Hr]. destruct (IHl Hl) as (L0 & _), (IHr Hr) as (_ & R1 & _).
    assert (reads_pipe (PIPE l r)) as H1 by (by apply pipe_print).
    assert (reads_line (PIPE l r)) as H3 by (by apply line_single).
    split_and!; try done. by apply exec_level.
  - destruct Hok as [Hl Hr]. destruct (IHl Hl) as (_ & _ & L2 & _), (IHr Hr) as (_ & _ & _ & R3 & _).
    assert (reads_line (LIST l r)) as H3 by (by apply line_print).
    assert (reads_exec (LIST l r)) as H0 by (by apply exec_level).
    assert (reads_pipe (LIST l r)) as H1 by (by apply pipe_single). done.
  - destruct (IH Hok) as (_ & _ & B & _).
    assert (reads_line (BACK c)) as H3 by (by apply line_single).
    assert (reads_exec (BACK c)) as H0 by (by apply exec_level).
    assert (reads_pipe (BACK c)) as H1 by (by apply pipe_single). done.
Qed.
End reading.

Lemma ok_word_no_nul w : ok_word w -> Forall (fun c => c <> 0) w.
Proof. intros [_ Hw]. eapply Forall_impl; [exact Hw|]. by intros c [_ ?]. Qed.
Lemma pr_no_nul c : forall lvl, ok_cmd c -> Forall (fun c => c <> 0) (pr lvl c).
Proof.
  assert (forall b s, Forall (fun c => c <> 0) s -> Forall (fun c => c <> 0) (paren b s)) as Hp.
  { intros [|] s Hs; [|done]. unfold paren. rewrite !Forall_app. by split_and!; [repeat constructor|..|repeat constructor]. }
  induction c as [ws|c IH f m d|l IHl r IHr|l IHl r IHr|c IH]; intros lvl Hok; cbn [pr ok_cmd] in *.
  - destruct Hok as [Hw _]. unfold pr_words. induction Hw as [|w ws Hw Hws IH]; cbn; [constructor|].
    rewrite !Forall_app. split_and!; [by apply ok_word_no_nul|by repeat constructor|done].
  - destruct Hok as [Hc [Hf _]]. unfold pr_redir, redir_sym. cbn [fst snd] in *. rewrite !Forall_app.
    split_and!; [by apply IH|repeat (destruct (_ =? _); [by repeat constructor|]); by repeat constructor|by apply ok_word_no_nul|by repeat constructor].
  - destruct Hok as [Hl Hr]. apply Hp. rewrite !Forall_app. split_and!; [by apply IHl|by repeat constructor|by apply IHr].
  - destruct Hok as [Hl Hr]. apply Hp. rewrite !Forall_app. split_and!; [by apply IHl|by repeat constructor|by apply IHr].
  - apply Hp. rewrite !Forall_app. split_and!; [by apply IH|by repeat constructor].
Qed.

(** C24. The parser inverts the printer: every command with at most nine arguments
    per list of words, written out with the fewest parentheses and a newline,
    is read back exactly, structure, redirections and strings, from the tree
    of parsecmd and the buffer that nulterminate has cut into strings. *)
Theorem parse_print_roundtrip (c : cmd chars) : ok_cmd c ->
  exists r rest, parsecmd (pr 3 c ++ [10]) = Ret r rest /\ read_cmd r = c.
Proof.
  intros Hok. set (line := pr 3 c ++ [10]).
  assert (Forall (fun c => c <> 0) line) as Hn by (apply Forall_app; split; [by apply pr_no_nul|by repeat constructor]).
  destruct (all_read line c Hok) as (_ & _ & _ & Hl & _).
  destruct (Hl (parse_fuel line) [10]) as (c' & E & Ec); [done|done|done|].
  destruct (parsers_give line (parse_fuel line)) as (Hg & _).
  specialize (Hg line (reflexivity line) ltac:(unfold parse_fuel; lia)). cbv zeta in Hg. fold line in E. rewrite E in Hg.
  destruct Hg as [_ Hw].
  exists (c', nulterminate c' (line ++ [0])), []. split; [|by rewrite (read_cmd_sub line)].
  unfold parsecmd. cbv zeta. by rewrite (bind_step _ _ _ _ _ E).
Qed.

Definition sample : cmd chars :=
  LIST (BACK (PIPE (REDIR (EXEC [lit "ls"; lit "-l"]) (lit "x") O_APPEND 1)
                (LIST (REDIR (EXEC [lit "cat"]) (lit "foo") O_READ 0) (EXEC [lit "wc"])))) (EXEC []).
Lemma parse_print_roundtrip_witness : exists r rest, parsecmd (lit "ls -l >>x |(cat <foo ;wc )&;" ++ [10]) = Ret r rest /\
  read_cmd r = sample.
Proof.
  destruct (parse_print_roundtrip sample) as (r & rest & E & Er).
  - apply (bool_decide_eq_true_1 (ok_cmd sample)). vm_compute. reflexivity.
  - exists r, rest. split; [|done]. rewrite <- E. reflexivity.
Defined.
