(* ===== verification/ShRun.v ===== *)
(** * user/sh.c: running commands

    runcmd never returns: a process ends in exec or exit. Its system calls on
    descriptors are executed on the process's table, which a child of fork1
    inherits. The result is the tree of all that may happen: a call that the
    kernel may refuse (fork, exec, open, pipe) has a branch for its failure, and
    fork one for the child and one for the parent. The table of a process is
    part of the tree where the process stays for a while: in the program it
    executes and where it waits for a child. *)
From stdpp Require Import base list numbers strings.
From Stdlib Require Import ZArith Lia FunctionalExtensionality.
From S2P Require Import Ulib Uprintf Prelude Memlayout Sh.

(** What a descriptor refers to; a pipe is named by its place in the command. *)
Inductive desc := Inherited (n : Z) | File (path : chars) (mode : Z) | PipeRead (id : list bool) | PipeWrite (id : list bool).
Abbreviation table := (Z -> option desc).

(** The behaviour of a process and of its children. The kernel closes the
    descriptors of a process that exits. *)
Inductive run :=
| RExit (status : Z)
| RPrint (to : option desc) (msg : chars) (next : run)
| RExec (argv : list chars) (fds : table) (failed : run)
| ROpen (path : chars) (mode : Z) (failed next : run)
| RPipe (id : list bool) (failed next : run)
| RFork (child parent failed : run)
| RWait (fds : table) (next : run).

(** ** System calls on the table *)

Fixpoint lowest_from (n : nat) (fd : Z) (t : table) : option Z :=
  match n with
  | O => None
  | S n' => match t fd with None => Some fd | Some _ => lowest_from n' (fd + 1) t end
  end.
(** fdalloc, with what the new descriptor refers to *)
Definition install (d : desc) (t : table) : option (Z * table) :=
  match lowest_from (Z.to_nat NOFILE) 0 t with Some fd => Some (fd, fupd t fd (Some d)) | None => None end.
(** p->ofile[fd] = 0 in close(fd) *)
Definition close (fd : Z) (t : table) : table := fupd t fd None.
(** fdalloc(f) in dup(fd); runcmd does not look at the result *)
Definition dup (fd : Z) (t : table) : table :=
  match t fd with
  | None => t
  | Some d => match install d t with Some (_, t') => t' | None => t end
  end.
(** The two fdalloc of pipe(p) *)
Definition pipe_ends (id : list bool) (t : table) : option (Z * Z * table) :=
  match install (PipeRead id) t with
  | None => None
  | Some (p0, t1) => match install (PipeWrite id) t1 with None => None | Some (p1, t2) => Some (p0, p1, t2) end
  end.

(** open and pipe fail when the table is full, and when the kernel has another
    reason. *)
Definition open (path : chars) (mode : Z) (t : table) (failed : run) (next : table -> run) : run :=
  match install (File path mode) t with
  | None => failed
  | Some (_, t') => ROpen path mode failed (next t')
  end.
Definition pipe (id : list bool) (t : table) (failed : run) (next : Z -> Z -> table -> run) : run :=
  match pipe_ends id t with
  | None => failed
  | Some (p0, p1, t') => RPipe id failed (next p0 p1 t')
  end.

(** ** sh.c *)

Definition newline : chars := [10].
(** fprintf(2, fmt, ...): to what descriptor 2 refers to *)
Definition fprintf2 (t : table) (fmt : chars) (ap : list arg) (next : run) : run := RPrint (t 2) (vprintf fmt false 0 ap) next.

Definition sh_panic (s : chars) (t : table) : run := fprintf2 t (lit "%s" ++ newline) [AStr (Some s)] (RExit 1).
Definition fork1 (t : table) (child parent : run) : run := RFork child parent (sh_panic (lit "fork") t).

Fixpoint runcmd (c : cmd chars) (id : list bool) (t : table) : run :=
  match c with
  | EXEC argv =>
      match argv with
      | [] => RExit 1
      | file :: _ => RExec argv t (fprintf2 t (lit "exec %s failed" ++ newline) [AStr (Some file)] (RExit 0))
      end
  | REDIR c file mode fd =>
      let t := close fd t in
      open file mode t (fprintf2 t (lit "open %s failed" ++ newline) [AStr (Some file)] (RExit 1)) (fun t => runcmd c id t)
  | LIST l r => fork1 t (runcmd l (id ++ [false]) t) (RWait t (runcmd r (id ++ [true]) t))
  | PIPE l r =>
      pipe id t (sh_panic (lit "pipe") t) (fun p0 p1 t =>
        fork1 t (runcmd l (id ++ [false]) (close p1 (close p0 (dup p1 (close 1 t)))))
          (fork1 t (runcmd r (id ++ [true]) (close p1 (close p0 (dup p0 (close 0 t)))))
            (let t := close p1 (close p0 t) in RWait t (RWait t (RExit 0)))))
  | BACK c => fork1 t (runcmd c id t) (RExit 0)
  end.

(** The first loop of main: it opens the console until it gets descriptor 3.
    [ok n] says whether an open succeeds when [n] more calls are left. *)
Fixpoint open_std (ok : nat -> bool) (n : nat) (t : table) : table :=
  match n with
  | O => t
  | S n' =>
      if ok n' then
        match install (File (lit "console") 2) t with
        | None => t
        | Some (fd, t') => if 3 <=? fd then close fd t' else open_std ok n' t'
        end
      else t
  end.

(** ** What a command means

    Each redirection replaces one descriptor, and a pipe the output of its
    left and the input of its right side; nothing else is open. Messages go to
    the standard error of the process; a command whose left side runs in a
    child waits for it. *)
Definition says (d : option desc) (msg : chars) (status : Z) : run := RPrint d (msg ++ newline) (RExit status).
Definition forks (err : option desc) (child parent : run) : run := RFork child parent (says err (lit "fork") 1).

Fixpoint meaning (c : cmd chars) (id : list bool) (t : table) : run :=
  match c with
  | EXEC [] => RExit 1
  | EXEC ((file :: _) as argv) => RExec argv t (says (t 2) (lit "exec " ++ file ++ lit " failed") 0)
  | REDIR c file mode fd =>
      ROpen file mode (says (t 2) (lit "open " ++ file ++ lit " failed") 1) (meaning c id (fupd t fd (Some (File file mode))))
  | LIST l r => forks (t 2) (meaning l (id ++ [false]) t) (RWait t (meaning r (id ++ [true]) t))
  | PIPE l r =>
      RPipe id (says (t 2) (lit "pipe") 1)
        (forks (t 2) (meaning l (id ++ [false]) (fupd t 1 (Some (PipeWrite id))))
          (forks (t 2) (meaning r (id ++ [true]) (fupd t 0 (Some (PipeRead id)))) (RWait t (RWait t (RExit 0)))))
  | BACK c => forks (t 2) (meaning c id t) (RExit 0)
  end.

(** *** End of file on pipes *)

Definition lacks (d : desc) (t : table) : Prop := forall fd, t fd <> Some d.

(** In all programs that are executed and where a process waits, the table
    satisfies [P]. *)
Fixpoint resting (P : table -> Prop) (r : run) : Prop :=
  match r with
  | RExit _ => True
  | RPrint _ _ k => resting P k
  | RExec _ t f => P t /\ resting P f
  | ROpen _ _ f k | RPipe _ f k => resting P f /\ resting P k
  | RFork c p f => resting P c /\ resting P p /\ resting P f
  | RWait t k => P t /\ resting P k
  end.

(** After a pipe has been made two children are forked. The processes of the
    first do not hold its read end and those of the second not its write end;
    the parent, when it waits, holds neither. So the second reads an end of file
    as soon as the processes of the first have ended, and the first fails to
    write when those of the second have. *)
Fixpoint pipes_end (r : run) : Prop :=
  match r with
  | RExit _ => True
  | RPrint _ _ k | RWait _ k => pipes_end k
  | RExec _ _ f => pipes_end f
  | ROpen _ _ f k => pipes_end f /\ pipes_end k
  | RFork c p f => pipes_end c /\ pipes_end p /\ pipes_end f
  | RPipe id f k => pipes_end f /\ pipes_end k /\
      match k with
      | RFork l (RFork r p _) _ => resting (lacks (PipeRead id)) l /\ resting (lacks (PipeWrite id)) r /\
          resting (lacks (PipeRead id)) p /\ resting (lacks (PipeWrite id)) p
      | _ => False
      end
  end.

(** A process with [n] children waits only for a child, and executes a program
    only after it has waited for all. *)
Fixpoint ordered (n : nat) (r : run) : Prop :=
  match r with
  | RExit _ => True
  | RPrint _ _ k => ordered n k
  | RExec _ _ f => n = 0%nat /\ ordered n f
  | ROpen _ _ f k | RPipe _ f k => ordered n f /\ ordered n k
  | RFork c p f => ordered 0 c /\ ordered (S n) p /\ ordered n f
  | RWait _ k => (0 < n)%nat /\ ordered (n - 1) k
  end.

(** The descriptors of the shell's children: 0, 1, 2 and no others. *)
Definition std_table (t : table) : Prop :=
  (forall fd, 0 <= fd < 3 -> is_Some (t fd)) /\ (forall fd, 3 <= fd -> t fd = None).

(** Redirections of the parser: descriptor 0 or 1 *)
Fixpoint std_redirs (c : cmd chars) : Prop :=
  match c with
  | EXEC _ => True
  | REDIR c _ _ fd => (fd = 0 \/ fd = 1) /\ std_redirs c
  | LIST l r | PIPE l r => std_redirs l /\ std_redirs r
  | BACK c => std_redirs c
  end.

(** No descriptor refers to a pipe of the command. *)
Definition fresh (id : list bool) (t : table) : Prop := forall k, lacks (PipeRead (id ++ k)) t /\ lacks (PipeWrite (id ++ k)) t.

(** ** Descriptors *)

Lemma lowest_found n : forall a fd t, (forall i, a <= i < fd -> is_Some (t i)) -> t fd = None -> a <= fd < a + Z.of_nat n ->
  lowest_from n a t = Some fd.
Proof.
  induction n as [|n IH]; intros a fd t Hlow Hfree Hr; [lia|]. cbn. destruct (decide (a = fd)) as [-> |Hne]; [by rewrite Hfree|].
  destruct (Hlow a ltac:(lia)) as [d Hd]. rewrite Hd. apply IH; [intros i Hi; apply Hlow; lia|done|lia].
Qed.
Lemma install_lowest d fd t : (forall i, 0 <= i < fd -> is_Some (t i)) -> t fd = None -> 0 <= fd < NOFILE ->
  install d t = Some (fd, fupd t fd (Some d)).
Proof. intros Hlow Hfree Hr. unfold install. rewrite (lowest_found _ 0 fd t) by (done || lia). done. Qed.

Lemma std_update t fd d : std_table t -> 0 <= fd < 3 -> std_table (fupd t fd (Some d)).
Proof.
  intros [H1 H2] Hfd. split; intros i Hi.
  - destruct (decide (i = fd)) as [-> |Hne]; [rewrite fupd_eq; by eexists|]. rewrite fupd_ne by done. by apply H1.
  - rewrite fupd_ne by lia. by apply H2.
Qed.

(** close(fd) and a call that takes the lowest free descriptor replace fd. *)
Lemma replace_std t fd d : std_table t -> fd = 0 \/ fd = 1 ->
  install d (close fd t) = Some (fd, fupd t fd (Some d)).
Proof.
  intros [H1 H2] Hfd. unfold close. rewrite (install_lowest _ fd).
  - by rewrite fupd_twice.
  - intros i Hi. rewrite fupd_ne by lia. apply H1. lia.
  - apply fupd_eq.
  - unfold NOFILE. lia.
Qed.

Lemma pipe_std id t : std_table t -> pipe_ends id t = Some (3, 4, fupd (fupd t 3 (Some (PipeRead id))) 4 (Some (PipeWrite id))).
Proof.
  intros [H1 H2]. unfold pipe_ends. rewrite (install_lowest _ 3) by (try apply H1; try apply H2; unfold NOFILE; lia).
  rewrite (install_lowest _ 4); [done| | |unfold NOFILE; lia].
  - intros i Hi. destruct (decide (i = 3)) as [-> |Hne]; [rewrite fupd_eq; by eexists|]. rewrite fupd_ne by done. apply H1. lia.
  - rewrite fupd_ne by lia. apply H2. lia.
Qed.

(** The four calls of a child of a pipe. *)
Lemma child_std t fd src d a b : std_table t -> fd = 0 \/ fd = 1 ->
  let t' := fupd (fupd t 3 (Some a)) 4 (Some b) in (src = 3 /\ d = a) \/ (src = 4 /\ d = b) ->
  close 4 (close 3 (dup src (close fd t'))) = fupd t fd (Some d).
Proof.
  intros [H1 H2] Hfd t' Hsrc. assert (src <> fd) as Hne by lia.
  assert (close fd t' src = Some d) as Es.
  { unfold close, t'. rewrite fupd_ne by done. destruct Hsrc as [[-> ->]|[-> ->]]; [rewrite fupd_ne, fupd_eq by lia|rewrite fupd_eq]; done. }
  unfold dup. rewrite Es. rewrite (install_lowest d fd); [| |apply fupd_eq|unfold NOFILE; lia].
  - extensionality i. unfold close, t', fupd. destruct (Z.eqb_spec i 4) as [-> |H4]; [|destruct (Z.eqb_spec i 3) as [-> |H3]].
    + rewrite (proj2 (Z.eqb_neq 4 fd)) by lia. symmetry. apply H2. lia.
    + rewrite (proj2 (Z.eqb_neq 3 fd)) by lia. symmetry. apply H2. lia.
    + by destruct (i =? fd).
  - intros i Hi. unfold close, t'. rewrite !fupd_ne by lia. apply H1. lia.
Qed.
(** The two calls of the parent. *)
Lemma parent_std t a b : std_table t -> close 4 (close 3 (fupd (fupd t 3 (Some a)) 4 (Some b))) = t.
Proof.
  intros [_ H2]. extensionality i. unfold close, fupd. destruct (Z.eqb_spec i 4) as [-> |_]; [symmetry; by apply H2|].
  destruct (Z.eqb_spec i 3) as [-> |_]; [symmetry; by apply H2|done].
Qed.

(** The shell starts its children with three descriptors. *)
Lemma open_std_table t : (forall fd, 3 <= fd -> t fd = None) -> std_table (open_std (fun _ => true) 4 t).
Proof.
  intros H. assert (forall i u, std_table u -> i = 3 -> std_table (close i (fupd u i (Some (File (lit "console") 2))))) as Hc.
  { intros i u Hu ->. unfold close. rewrite fupd_twice. split; intros fd Hfd.
    - rewrite fupd_ne by lia. by apply Hu.
    - unfold fupd. destruct (fd =? 3); [done|]. by apply Hu. }
  assert (forall n u, std_table u -> std_table (open_std (fun _ => true) n u)) as Hs.
  { intros [|n] u Hu; [done|]. cbn [open_std]. rewrite (install_lowest _ 3); [|apply Hu|apply Hu; lia|unfold NOFILE; lia].
    cbn [Z.leb Z.compare Pos.compare Pos.compare_cont]. by apply Hc. }
  assert (forall k n u, (forall fd, 3 <= fd -> u fd = None) -> 0 <= k <= 3 -> (forall fd, 0 <= fd < k -> is_Some (u fd)) ->
    (3 - k < Z.of_nat n) -> std_table (open_std (fun _ => true) n u)) as Hg; [|apply (Hg 0); (done || lia)].
  intros k. remember (Z.to_nat (3 - k)) as m eqn:Em. revert k Em. induction m as [|m IH]; intros k Em n u Hu Hk Hlow Hn.
  - apply Hs. split; [|done]. intros fd Hfd. apply Hlow. lia.
  - destruct (u k) as [d|] eqn:Ek.
    + apply (IH (k + 1)); try (done || lia). intros fd Hfd. destruct (decide (fd = k)) as [-> |]; [by eexists|]. apply Hlow. lia.
    + destruct n as [|n]; [lia|]. cbn [open_std]. rewrite (install_lowest _ k) by (done || (unfold NOFILE; lia)).
      rewrite (proj2 (Z.leb_gt 3 k)) by lia. apply (IH (k + 1)); try lia.
      * intros fd Hfd. rewrite fupd_ne by lia. by apply Hu.
      * intros fd Hfd. destruct (decide (fd = k)) as [-> |]; [rewrite fupd_eq; by eexists|]. rewrite fupd_ne by done. apply Hlow. lia.
Qed.

(** ** Messages *)

Lemma exec_message file : vprintf (lit "exec %s failed" ++ newline) false 0 [AStr (Some file)] = (lit "exec " ++ file ++ lit " failed") ++ newline.
Proof. rewrite <- !app_assoc. reflexivity. Qed.
Lemma open_message file : vprintf (lit "open %s failed" ++ newline) false 0 [AStr (Some file)] = (lit "open " ++ file ++ lit " failed") ++ newline.
Proof. rewrite <- !app_assoc. reflexivity. Qed.
Lemma panic_message s t : sh_panic s t = says (t 2) s 1.
Proof. reflexivity. Qed.

(** ** runcmd *)

Lemma std_error t fd d : fd = 0 \/ fd = 1 -> fupd t fd d 2 = t 2 :> option desc.
Proof. intros H. apply fupd_ne. lia. Qed.

Lemma runcmd_meaning c : forall id t, std_table t -> std_redirs c -> runcmd c id t = meaning c id t.
Proof.
  induction c as [argv|c IH f m d|l IHl r IHr|l IHl r IHr|c IH]; intros id t Ht Hc; cbn [runcmd meaning std_redirs] in *; cbv zeta.
  - destruct argv as [|file argv]; [done|]. unfold fprintf2. by rewrite exec_message.
  - destruct Hc as [Hd Hc]. unfold open. rewrite replace_std by done. unfold fprintf2. rewrite open_message.
    rewrite (std_error t d None Hd : close d t 2 = t 2). f_equal. apply IH; [|done]. apply std_update; [done|lia].
  - destruct Hc as [Hl Hr]. unfold pipe. rewrite (pipe_std id t Ht).
    unfold fork1. rewrite !panic_message. rewrite (child_std t 1 4 (PipeWrite id)), (child_std t 0 3 (PipeRead id)) by auto.
    rewrite (parent_std t) by done. rewrite IHl, IHr by (try done; apply std_update; (done || lia)).
    rewrite !fupd_ne by lia. done.
  - destruct Hc as [Hl Hr]. unfold fork1. rewrite panic_message, IHl, IHr by done. done.
  - unfold fork1. rewrite panic_message, IH by done. done.
Qed.

Lemma lacks_update d t fd e : lacks d t -> e <> d -> lacks d (fupd t fd (Some e)).
Proof. intros Ht He i. unfold fupd. destruct (i =? fd); [congruence|apply Ht]. Qed.

(** Processes do not come to hold the end of another pipe. *)
Definition end_of (i : list bool) (d : desc) : Prop := d = PipeRead i \/ d = PipeWrite i.
Lemma meaning_lacks d i c : end_of i d -> forall id t, (forall k, i <> id ++ k) -> lacks d t -> resting (lacks d) (meaning c id t).
Proof.
  intros Hd. assert (forall id b, (forall k, i <> id ++ k) -> forall k, i <> (id ++ [b]) ++ k) as Hn.
  { intros id b H k. rewrite <- app_assoc. apply H. }
  induction c as [argv|c IH f m fd|l IHl r IHr|l IHl r IHr|c IH]; intros id t Hid Ht; cbn [meaning].
  - by destruct argv.
  - split; [done|]. apply IH; [done|]. apply lacks_update; [done|]. destruct Hd as [-> | ->]; done.
  - assert (PipeRead id <> d /\ PipeWrite id <> d) as [H1 H2].
    { assert (i <> id) by (intros ->; by apply (Hid []); rewrite app_nil_r). destruct Hd as [-> | ->]; split; congruence. }
    cbn. split_and!; try done; [apply IHl|apply IHr]; try by apply Hn. all: by apply lacks_update.
  - cbn. split_and!; try done; [apply IHl|apply IHr]; try done; by apply Hn.
  - cbn. split_and!; try done. by apply IH.
Qed.

Lemma longer_id (id k : list bool) b : id <> (id ++ [b]) ++ k.
Proof. intros H. apply (f_equal length) in H. rewrite !length_app in H. cbn in H. lia. Qed.

Lemma fresh_update id t fd d : fresh id t -> (forall i, ~ end_of i d) -> fresh id (fupd t fd (Some d)).
Proof.
  intros Ht Hd k. destruct (Ht k) as [H1 H2]. split; apply lacks_update; try done; intros ->; eapply Hd; [by left|by right].
Qed.
Lemma fresh_child id b t : fresh id t -> fresh (id ++ [b]) t.
Proof. intros Ht k. rewrite <- app_assoc. apply Ht. Qed.
Lemma fresh_end id b t fd d : fresh id t -> end_of id d -> fresh (id ++ [b]) (fupd t fd (Some d)).
Proof.
  intros Ht Hd k. destruct (fresh_child id b t Ht k) as [H1 H2].
  split; apply lacks_update; try done; destruct Hd as [-> | ->]; try done; intros [= H]; by apply longer_id in H.
Qed.
Lemma fresh_lacks id t d : fresh id t -> end_of id d -> lacks d t.
Proof. intros Ht Hd. destruct (Ht []) as [H1 H2]. rewrite app_nil_r in H1, H2. by destruct Hd as [-> | ->]. Qed.

Lemma meaning_pipes c : forall id t, fresh id t -> pipes_end (meaning c id t).
Proof.
  induction c as [argv|c IH f m fd|l IHl r IHr|l IHl r IHr|c IH]; intros id t Ht; cbn [meaning].
  - by destruct argv.
  - split; [done|]. apply IH, fresh_update; [done|]. by intros i [?|?].
  - assert (end_of id (PipeRead id) /\ end_of id (PipeWrite id)) as [R W] by (split; [by left|by right]).
    assert (forall d e b fd c, end_of id d -> end_of id e -> e <> d ->
      resting (lacks d) (meaning c (id ++ [b]) (fupd t fd (Some e)))) as Hside.
    { intros d e b fd c Hd He Hne. eapply meaning_lacks; [exact Hd|intros k; apply longer_id|].
      apply lacks_update; [by apply (fresh_lacks id)|done]. }
    cbn. split_and!; try done; try (by apply Hside); try (by apply (fresh_lacks id)).
    + by apply IHl, fresh_end.
    + by apply IHr, fresh_end.
  - cbn. split_and!; try done; [by apply IHl, fresh_child|by apply IHr, fresh_child].
  - cbn. split_and!; try done. by apply IH.
Qed.

Lemma meaning_ordered c : forall id t, ordered 0 (meaning c id t).
Proof.
  induction c as [argv|c IH f m fd|l IHl r IHr|l IHl r IHr|c IH]; intros id t; cbn [meaning].
  - by destruct argv.
  - split; [done|apply IH].
  - cbn. split_and!; (done || lia || apply IHl || apply IHr).
  - cbn. split_and!; (done || lia || apply IHl || apply IHr).
  - cbn. split_and!; (done || apply IH).
Qed.

(** C26. The shell wires commands as written. In a process with standard input,
    output and error and no other descriptor open, runcmd replaces exactly the
    redirected descriptor of each command, gives the left side of a pipe its
    write end as output and the right side its read end as input, and prints
    its messages on standard error, whichever calls of fork, exec, open and
    pipe fail. No process that executes a program or waits keeps another end of
    a pipe: a pipe reaches its end of file when the processes of its left side
    have ended. A process waits for its children before it goes on to another
    command. *)
Theorem runcmd_correct (c : cmd chars) (id : list bool) (t : table) :
  std_table t -> std_redirs c -> fresh id t ->
  runcmd c id t = meaning c id t /\ pipes_end (runcmd c id t) /\ ordered 0 (runcmd c id t).
Proof.
  intros Ht Hc Hf. rewrite runcmd_meaning by done. split; [done|]. split; [by apply meaning_pipes|apply meaning_ordered].
Qed.

(** The shell that init starts, with descriptors 0, 1 and 2. *)
Definition shell_table : table := open_std (fun _ => true) 4 (fun fd => if (0 <=? fd) && (fd <? 3) then Some (Inherited fd) else None).

Lemma runcmd_correct_witness :
  let c := PIPE (EXEC [lit "ls"]) (REDIR (EXEC [lit "wc"]) (lit "n") 0x601 1) in
  runcmd c [] shell_table =
    RPipe [] (says (Some (Inherited 2)) (lit "pipe") 1)
      (forks (Some (Inherited 2))
        (RExec [lit "ls"] (fupd shell_table 1 (Some (PipeWrite []))) (says (Some (Inherited 2)) (lit "exec ls failed") 0))
        (forks (Some (Inherited 2))
          (ROpen (lit "n") 0x601 (says (Some (Inherited 2)) (lit "open n failed") 1)
            (RExec [lit "wc"] (fupd (fupd shell_table 0 (Some (PipeRead []))) 1 (Some (File (lit "n") 0x601)))
              (says (Some (Inherited 2)) (lit "exec wc failed") 0)))
          (RWait shell_table (RWait shell_table (RExit 0))))) /\
  pipes_end (runcmd c [] shell_table) /\ ordered 0 (runcmd c [] shell_table).
Proof.
  intros c. destruct (runcmd_correct c [] shell_table) as (E & H1 & H2).
  - apply open_std_table. intros fd Hfd. by rewrite (proj2 (Z.ltb_ge fd 3)), andb_false_r by lia.
  - cbn. auto.
  - intros k. split; intros fd; vm_compute; destruct fd as [|[[|[]|]|[|[]|]|]|]; discriminate.
  - split; [rewrite E; reflexivity|done].
Defined.

(** ** The command loop *)

(** What main does with a line of input *)
Inductive action := Blank | Chdir (path : chars) | Run (line : chars).

Definition shell_line (buf : chars) : action :=
  let cmd := skip (fun c => (c =? 32) || (c =? 9)) buf in
  if hd 0 cmd =? 10 then Blank
  else if (hd 0 cmd =? 99) && (hd 0 (drop 1 cmd) =? 100) && (hd 0 (drop 2 cmd) =? 32)
  then Chdir (drop 3 (take (length cmd - 1) cmd))
  else Run cmd.

(** getcmd with its buffer of 100 characters: the line and the rest of the
    input; None at the end of the input *)
Definition getcmd (nbuf : Z) (input : chars) : option (chars * chars) :=
  let '(s, rest) := Ulib.gets nbuf input in
  if hd 0 s =? 0 then None else Some (s, rest).

(** The actions of the shell on an input, up to its end *)
Fixpoint shell_loop (fuel : nat) (input : chars) : list action :=
  match fuel with
  | O => []
  | S n => match getcmd 100 input with None => [] | Some (s, rest) => shell_line s :: shell_loop n rest end
  end.

(** The last line of a script without a newline: cd loses the last character
    of its argument. *)
Example cd_chops : shell_line (lit "cd usr") = Chdir (lit "us").
Proof. reflexivity. Qed.
