(* ===== verification/Virtio.v ===== *)
(** * kernel/virtio_disk.c: the disk driver

    The driver's descriptor table and rings, the buffers it transfers and the
    device's side of the rings. A pointer in a descriptor is the object it
    points to. The functions hold disk.vdisk_lock except while sleeping, so a
    run between two sleeps is one step: [rw_request] up to the submission or
    the sleep for descriptors, [rw_wait] from there on, and the interrupt
    handler. What the device does with the rings is documented by the virtio
    standard; [dev_take] and [dev_complete] state it. *)
From stdpp Require Import base list numbers strings.
From Stdlib Require Import ZArith Lia.
From S2P Require Import Prelude Memlayout.

(** virtio.h *)
Definition NUM : Z := 8.
Definition VRING_DESC_F_NEXT : Z := 1.
Definition VRING_DESC_F_WRITE : Z := 2.
Definition VIRTIO_BLK_T_IN : Z := 0.
Definition VIRTIO_BLK_T_OUT : Z := 1.
Definition DISK_BSIZE : Z := 1024.
(** sizeof(struct virtio_blk_req) *)
Definition REQ_SIZE : Z := 16.

(** &disk.ops[i], b->data, &disk.info[i].status *)
Inductive dma := NullP | OpP (i : Z) | DataP (b : Z) | StatusP (i : Z).
Record virtq_desc := Vdesc { d_addr : dma; d_len : Z; d_flags : Z; d_next : Z }.
Record virtio_blk_req := Breq { op_type : Z; op_reserved : Z; op_sector : Z }.

(** The null pointer as a struct buf *)
Definition NOBUF : Z := -1.

Record vstate := V {
  dfree : Z -> bool;                 (* disk.free *)
  desc : Z -> virtq_desc;
  ops : Z -> virtio_blk_req;
  info_b : Z -> Z;
  info_status : Z -> Z;
  aring : Z -> Z; aidx : Z;          (* disk.avail *)
  uring : Z -> Z; uidx : Z;          (* disk.used *)
  used_idx : Z;
  bdisk : Z -> Z;                    (* b->disk *)
  blockno : Z -> Z; bdata : Z -> bytes;
  dseen : Z; inflight : list Z;      (* the device: avail entries seen, chains in progress *)
  store : bytes;                     (* the bytes of the disk *)
  read_disk : Z; write_disk : Z;     (* read_disk_counter, write_disk_counter *)
}.

Definition set_free (i : Z) (v : bool) (s : vstate) : vstate :=
  V (fupd (dfree s) i v) (desc s) (ops s) (info_b s) (info_status s) (aring s) (aidx s) (uring s) (uidx s) (used_idx s)
    (bdisk s) (blockno s) (bdata s) (dseen s) (inflight s) (store s) (read_disk s) (write_disk s).
Definition set_desc (i : Z) (d : virtq_desc) (s : vstate) : vstate :=
  V (dfree s) (fupd (desc s) i d) (ops s) (info_b s) (info_status s) (aring s) (aidx s) (uring s) (uidx s) (used_idx s)
    (bdisk s) (blockno s) (bdata s) (dseen s) (inflight s) (store s) (read_disk s) (write_disk s).
Definition set_op (i : Z) (r : virtio_blk_req) (s : vstate) : vstate :=
  V (dfree s) (desc s) (fupd (ops s) i r) (info_b s) (info_status s) (aring s) (aidx s) (uring s) (uidx s) (used_idx s)
    (bdisk s) (blockno s) (bdata s) (dseen s) (inflight s) (store s) (read_disk s) (write_disk s).
Definition set_info_b (i b : Z) (s : vstate) : vstate :=
  V (dfree s) (desc s) (ops s) (fupd (info_b s) i b) (info_status s) (aring s) (aidx s) (uring s) (uidx s) (used_idx s)
    (bdisk s) (blockno s) (bdata s) (dseen s) (inflight s) (store s) (read_disk s) (write_disk s).
Definition set_status (i v : Z) (s : vstate) : vstate :=
  V (dfree s) (desc s) (ops s) (info_b s) (fupd (info_status s) i v) (aring s) (aidx s) (uring s) (uidx s) (used_idx s)
    (bdisk s) (blockno s) (bdata s) (dseen s) (inflight s) (store s) (read_disk s) (write_disk s).
(** disk.avail->ring[disk.avail->idx % NUM] = i; disk.avail->idx += 1 *)
Definition push_avail (i : Z) (s : vstate) : vstate :=
  V (dfree s) (desc s) (ops s) (info_b s) (info_status s) (fupd (aring s) (aidx s mod NUM) i) (u16 (aidx s + 1))
    (uring s) (uidx s) (used_idx s) (bdisk s) (blockno s) (bdata s) (dseen s) (inflight s) (store s) (read_disk s) (write_disk s).
Definition set_bdisk (b v : Z) (s : vstate) : vstate :=
  V (dfree s) (desc s) (ops s) (info_b s) (info_status s) (aring s) (aidx s) (uring s) (uidx s) (used_idx s)
    (fupd (bdisk s) b v) (blockno s) (bdata s) (dseen s) (inflight s) (store s) (read_disk s) (write_disk s).
Definition next_used (s : vstate) : vstate :=
  V (dfree s) (desc s) (ops s) (info_b s) (info_status s) (aring s) (aidx s) (uring s) (uidx s) (u16 (used_idx s + 1))
    (bdisk s) (blockno s) (bdata s) (dseen s) (inflight s) (store s) (read_disk s) (write_disk s).
Definition count_rw (write : bool) (s : vstate) : vstate :=
  V (dfree s) (desc s) (ops s) (info_b s) (info_status s) (aring s) (aidx s) (uring s) (uidx s) (used_idx s)
    (bdisk s) (blockno s) (bdata s) (dseen s) (inflight s) (store s)
    (if write then read_disk s else u64 (read_disk s + 1)) (if write then u64 (write_disk s + 1) else write_disk s).
(** A buffer gets other contents and another block (bget, the file system). *)
Definition set_buf (b n : Z) (d : bytes) (s : vstate) : vstate :=
  V (dfree s) (desc s) (ops s) (info_b s) (info_status s) (aring s) (aidx s) (uring s) (uidx s) (used_idx s)
    (bdisk s) (fupd (blockno s) b n) (fupd (bdata s) b d) (dseen s) (inflight s) (store s) (read_disk s) (write_disk s).

(** ** The driver *)

Fixpoint free_from (n : nat) (i : Z) (f : Z -> bool) : Z :=
  match n with O => -1 | S n' => if f i then i else free_from n' (i + 1) f end.
Definition alloc_desc : M vstate Z :=
  f <- gets dfree ;;
  let i := free_from (Z.to_nat NUM) 0 f in
  if i <? 0 then ret (-1) else modify (set_free i false) ;;; ret i.

Definition free_desc (i : Z) : M vstate unit :=
  if NUM <=? i then panic "free_desc 1"
  else
    f <- gets dfree ;;
    if f i : bool then panic "free_desc 2"
    else modify (set_desc i (Vdesc NullP 0 0 0)) ;;; modify (set_free i true).

Definition free_chain (i : Z) : M vstate unit :=
  loop (Z.to_nat NUM) (fun i =>
    d <- gets (fun s => desc s i) ;;
    free_desc i ;;;
    if negb (Z.land (d_flags d) VRING_DESC_F_NEXT =? 0) then ret (inl (d_next d)) else ret (inr tt)) i.

Definition alloc3_desc : M vstate (option (Z * Z * Z)) :=
  i0 <- alloc_desc ;;
  if i0 <? 0 then ret None
  else
    i1 <- alloc_desc ;;
    if i1 <? 0 then free_desc i0 ;;; ret None
    else
      i2 <- alloc_desc ;;
      if i2 <? 0 then free_desc i0 ;;; free_desc i1 ;;; ret None
      else ret (Some (i0, i1, i2)).

(** Formats the descriptors and tells the device. The block number cannot
    change while the caller holds the lock of the buffer, so the sector may be
    computed here. *)
Definition submit (b : Z) (write : bool) (i0 i1 i2 : Z) : M vstate unit :=
  n <- gets (fun s => blockno s b) ;;
  let sector := u32 (n * (DISK_BSIZE / 512)) in
  modify (set_op i0 (Breq (if write then VIRTIO_BLK_T_OUT else VIRTIO_BLK_T_IN) 0 sector)) ;;;
  modify (set_desc i0 (Vdesc (OpP i0) REQ_SIZE VRING_DESC_F_NEXT i1)) ;;;
  modify (set_desc i1 (Vdesc (DataP b) DISK_BSIZE (Z.lor (if write then 0 else VRING_DESC_F_WRITE) VRING_DESC_F_NEXT) i2)) ;;;
  modify (set_status i0 0xff) ;;;
  modify (set_desc i2 (Vdesc (StatusP i0) 1 VRING_DESC_F_WRITE 0)) ;;;
  modify (set_bdisk b 1) ;;;
  modify (set_info_b i0 b) ;;;
  modify (push_avail i0).

(** The channel &disk.free[0] *)
Definition FREE_CHAN : Z := 0.

(** The first part of virtio_disk_rw, again after every sleep for
    descriptors: the head of the submitted chain. *)
Definition rw_request (b : Z) (write : bool) : M vstate Z :=
  r <- alloc3_desc ;;
  match r with
  | None => sleep_on FREE_CHAN
  | Some (i0, i1, i2) => submit b write i0 i1 i2 ;;; ret i0
  end.
Definition rw_start (b : Z) (write : bool) : M vstate Z :=
  modify (count_rw write) ;;; rw_request b write.

(** The rest of virtio_disk_rw *)
Definition rw_wait (b i0 : Z) : M vstate unit :=
  d <- gets (fun s => bdisk s b) ;;
  if d =? 1 then sleep_on b
  else modify (set_info_b i0 NOBUF) ;;; free_chain i0.

Definition intr_body (_ : unit) : M vstate (unit + unit) :=
  s <- get ;;
  if used_idx s =? uidx s then ret (inr tt)
  else
    let id := uring s (used_idx s mod NUM) in
    if negb (info_status s id =? 0) then panic "virtio_disk_intr status"
    else modify (set_bdisk (info_b s id) 0) ;;; modify next_used ;;; ret (inl tt).
Definition virtio_disk_intr : M vstate unit :=
  n <- gets (fun s => S (Z.to_nat (u16 (uidx s - used_idx s)))) ;;
  loop n intr_body tt.

(** ** The device *)

(** It takes the next chain of the avail ring. *)
Definition dev_take (s : vstate) : option vstate :=
  if dseen s =? aidx s then None
  else Some (V (dfree s) (desc s) (ops s) (info_b s) (info_status s) (aring s) (aidx s) (uring s) (uidx s) (used_idx s)
    (bdisk s) (blockno s) (bdata s) (u16 (dseen s + 1)) (inflight s ++ [aring s (dseen s mod NUM)]) (store s)
    (read_disk s) (write_disk s)).

(** It finishes the chain with head [h]: three linked descriptors, of a request
    header, of memory, which it may write only with the WRITE flag, and of a
    status byte, where it stores [status]. 0 (VIRTIO_BLK_S_OK) says that the
    request was carried out; any other status that it failed, and then what was
    transferred, [junk], is unspecified. None: the chain is malformed. *)
Definition dev_complete (h status : Z) (junk : bytes) (s : vstate) : option vstate :=
  let d0 := desc s h in
  let d1 := desc s (d_next d0) in
  let d2 := desc s (d_next d1) in
  if (d_flags d0 =? VRING_DESC_F_NEXT) && (d_len d0 =? REQ_SIZE) && negb (Z.land (d_flags d1) VRING_DESC_F_NEXT =? 0) &&
     (d_flags d2 =? VRING_DESC_F_WRITE) && (d_len d2 =? 1) then
    match d_addr d0, d_addr d1, d_addr d2 with
    | OpP o, DataP b, StatusP j =>
        let r := ops s o in
        let off := 512 * op_sector r in
        let dev_writes := negb (Z.land (d_flags d1) VRING_DESC_F_WRITE =? 0) in
        let finish (st : bytes) (dat : Z -> bytes) :=
          V (dfree s) (desc s) (ops s) (info_b s) (fupd (info_status s) j status) (aring s) (aidx s)
            (fupd (uring s) (uidx s mod NUM) h) (u16 (uidx s + 1)) (used_idx s) (bdisk s) (blockno s) dat
            (dseen s) (filter (fun x => x <> h) (inflight s)) st (read_disk s) (write_disk s) in
        if (op_type r =? VIRTIO_BLK_T_OUT) && negb dev_writes
        then Some (finish (blit (store s) off (if status =? 0 then bdata s b else junk) 0 (d_len d1)) (bdata s))
        else if (op_type r =? VIRTIO_BLK_T_IN) && dev_writes
        then Some (finish (store s) (fupd (bdata s) b
          (if status =? 0 then blit (bdata s b) 0 (store s) off (d_len d1) else blit (bdata s b) 0 junk 0 (d_len d1))))
        else None
    | _, _, _ => None
    end
  else None.

(** The state after virtio_disk_init, for any contents of disk and buffers *)
Definition virtio_init (bn : Z -> Z) (dat : Z -> bytes) (st : bytes) : vstate :=
  V (fun i => (0 <=? i) && (i <? NUM)) (fun _ => Vdesc NullP 0 0 0) (fun _ => Breq 0 0 0) (fun _ => NOBUF) (fun _ => 0)
    (fun _ => 0) 0 (fun _ => 0) 0 0 (fun _ => 0) bn dat 0 [] st 0 0.
