(* ===== verification/VirtioProps.v ===== *)
(** * The disk driver and the device perform every request once

    Processes, the interrupt handler and the device in any order: the chains
    of descriptors are well formed and disjoint, and the whole implements a disk
    that carries out each pending request atomically, once, before
    virtio_disk_rw returns, or fails it. A request that failed never returns to
    its process: the interrupt handler panics, for this reason and no other. *)
From stdpp Require Import base list numbers strings relations.
From Stdlib Require Import ZArith Lia FunctionalExtensionality.
From S2P Require Import Prelude Memlayout Virtio.

(** Where a process is in virtio_disk_rw: outside, waiting for descriptors,
    waiting for its request with the chain [i0] *)
Inductive vpc := VIdle | VWant (b : Z) (w : bool) | VWait (b : Z) (w : bool) (i0 : Z).

Definition active (pc : Z -> vpc) (p b : Z) : Prop := exists w, pc p = VWant b w \/ exists i0, pc p = VWait b w i0.

Section machine.
Context (device : vstate -> vstate -> Prop).

Inductive vstep : vstate * (Z -> vpc) -> vstate * (Z -> vpc) -> Prop :=
| vs_start p b w i0 s s' pc : pc p = VIdle -> (forall q, ~ active pc q b) -> rw_start b w s = Ret i0 s' ->
    vstep (s, pc) (s', fupd pc p (VWait b w i0))
| vs_start_sleep p b w c s s' pc : pc p = VIdle -> (forall q, ~ active pc q b) -> rw_start b w s = Sleep c s' ->
    vstep (s, pc) (s', fupd pc p (VWant b w))
| vs_retry p b w i0 s s' pc : pc p = VWant b w -> rw_request b w s = Ret i0 s' ->
    vstep (s, pc) (s', fupd pc p (VWait b w i0))
| vs_retry_sleep p b w c s s' pc : pc p = VWant b w -> rw_request b w s = Sleep c s' -> vstep (s, pc) (s', pc)
| vs_done p b w i0 s s' pc : pc p = VWait b w i0 -> rw_wait b i0 s = Ret tt s' -> vstep (s, pc) (s', fupd pc p VIdle)
| vs_intr s s' pc : virtio_disk_intr s = Ret tt s' -> vstep (s, pc) (s', pc)
| vs_device s s' pc : device s s' -> vstep (s, pc) (s', pc)
| vs_owner b n d s pc : (forall q, ~ active pc q b) -> vstep (s, pc) (set_buf b n d s, pc).
End machine.

(** ** The abstract disk *)

Inductive apc := AIdle | AWant (b : Z) (w : bool) | APending (b : Z) (w : bool) | ADone (b : Z) (w : bool)
  | AFailed (b : Z) (w : bool).
Record astate := A { a_store : bytes; a_data : Z -> bytes; a_bno : Z -> Z; a_pc : Z -> apc }.

(** The first sector of the buffer's block *)
Definition a_sector (a : astate) (b : Z) : Z := u32 (a_bno a b * 2).
Definition a_offset (a : astate) (b : Z) : Z := 512 * a_sector a b.
(** The block of the buffer, read or written *)
Definition transfer (b : Z) (w : bool) (a : astate) : bytes * (Z -> bytes) :=
  if w then (blit (a_store a) (a_offset a b) (a_data a b) 0 DISK_BSIZE, a_data a)
  else (a_store a, fupd (a_data a) b (blit (a_data a b) 0 (a_store a) (a_offset a b) DISK_BSIZE)).
(** What a failed transfer may leave in the block or in the buffer *)
Definition spoil (b : Z) (w : bool) (junk : bytes) (a : astate) : bytes * (Z -> bytes) :=
  if w then (blit (a_store a) (a_offset a b) junk 0 DISK_BSIZE, a_data a)
  else (a_store a, fupd (a_data a) b (blit (a_data a b) 0 junk 0 DISK_BSIZE)).

Definition a_active (pc : Z -> apc) (p b : Z) : Prop :=
  exists w, pc p = AWant b w \/ pc p = APending b w \/ pc p = ADone b w \/ pc p = AFailed b w.

Section disk.
(** The sectors at which a request of two sectors may fail *)
Context (may_fail : Z -> Prop).

Inductive astep : astate -> astate -> Prop :=
| as_start p b w a : a_pc a p = AIdle -> (forall q, ~ a_active (a_pc a) q b) ->
    astep a (A (a_store a) (a_data a) (a_bno a) (fupd (a_pc a) p (AWant b w)))
| as_submit p b w a : a_pc a p = AWant b w -> astep a (A (a_store a) (a_data a) (a_bno a) (fupd (a_pc a) p (APending b w)))
| as_transfer p b w a : a_pc a p = APending b w ->
    astep a (A (fst (transfer b w a)) (snd (transfer b w a)) (a_bno a) (fupd (a_pc a) p (ADone b w)))
| as_fail p b w junk a : a_pc a p = APending b w -> may_fail (a_sector a b) ->
    astep a (A (fst (spoil b w junk a)) (snd (spoil b w junk a)) (a_bno a) (fupd (a_pc a) p (AFailed b w)))
| as_return p b w a : a_pc a p = ADone b w -> astep a (A (a_store a) (a_data a) (a_bno a) (fupd (a_pc a) p AIdle))
| as_owner b n d a : (forall q, ~ a_active (a_pc a) q b) ->
    astep a (A (a_store a) (fupd (a_data a) b d) (fupd (a_bno a) b n) (a_pc a)).

(** A failed request is one that may fail. *)
Definition failures_allowed (a : astate) : Prop := forall p b w, a_pc a p = AFailed b w -> may_fail (a_sector a b).

Lemma failures_kept a a' : astep a a' -> failures_allowed a -> failures_allowed a'.
Proof.
  intros H Ha. destruct H as [p b w a Hp Hb|p b w a Hp|p b w a Hp|p b w junk a Hp Hf|p b w a Hp|b n d a Hb]; intros q c v; cbn [a_pc].
  1-5: unfold fupd; destruct (Z.eqb_spec q p) as [-> |]; [try done; intros [= <- <-]; exact Hf|exact (Ha q c v)].
  intros Hq. unfold a_sector. cbn [a_bno]. rewrite fupd_ne; [exact (Ha q c v Hq)|]. intros ->. apply (Hb q). exists v. tauto.
Qed.
Lemma failures_kept_steps a a' : rtc astep a a' -> failures_allowed a -> failures_allowed a'.
Proof. induction 1 as [|x y z H _ IH]; [done|]. intros Ha. by apply IH, (failures_kept x). Qed.
End disk.

(** ** The invariant *)

(** Chains in the avail ring not yet seen by the device, and in the used ring
    not yet seen by the driver *)
Definition queued (s : vstate) : list Z := ring NUM (aring s) (dseen s) (u16 (aidx s - dseen s)).
Definition finished (s : vstate) : list Z := ring NUM (uring s) (used_idx s) (u16 (uidx s - used_idx s)).
Definition outstanding (s : vstate) : list Z := queued s ++ inflight s.
Definition known (s : vstate) : list Z := outstanding s ++ finished s.

Definition second (s : vstate) (i0 : Z) : Z := d_next (desc s i0).
Definition third (s : vstate) (i0 : Z) : Z := d_next (desc s (second s i0)).
Definition chain (s : vstate) (i0 : Z) : list Z := [i0; second s i0; third s i0].

(** The chain of a request as submit writes it *)
Record chain_ok (s : vstate) (b : Z) (w : bool) (i0 : Z) : Prop := ChainOk {
  ch_nodup : NoDup (chain s i0);
  ch_used : forall i, i ∈ chain s i0 -> 0 <= i < NUM /\ dfree s i = false;
  ch_head : desc s i0 = Vdesc (OpP i0) REQ_SIZE VRING_DESC_F_NEXT (second s i0);
  ch_data : desc s (second s i0) =
    Vdesc (DataP b) DISK_BSIZE (Z.lor (if w then 0 else VRING_DESC_F_WRITE) VRING_DESC_F_NEXT) (third s i0);
  ch_stat : desc s (third s i0) = Vdesc (StatusP i0) 1 VRING_DESC_F_WRITE 0;
  ch_op : ops s i0 = Breq (if w then VIRTIO_BLK_T_OUT else VIRTIO_BLK_T_IN) 0 (u32 (blockno s b * 2));
  ch_buf : info_b s i0 = b;
}.

Record vinv (s : vstate) (pc : Z -> vpc) : Prop := VInv {
  vi_free : forall i, dfree s i = true -> 0 <= i < NUM;
  vi_chain : forall p b w i0, pc p = VWait b w i0 -> chain_ok s b w i0;
  vi_disjoint : forall p q b w i0 b' w' j0, p <> q -> pc p = VWait b w i0 -> pc q = VWait b' w' j0 ->
    forall i, i ∈ chain s i0 -> i ∉ chain s j0;
  vi_bufs : forall p q b, active pc p b -> active pc q b -> p = q;
  vi_nodup : NoDup (known s);
  vi_known : forall h, h ∈ known s -> exists p b w, pc p = VWait b w h /\ bdisk s b = 1;
  vi_waiting : forall p b w i0, pc p = VWait b w i0 -> i0 ∉ known s -> bdisk s b = 0 /\ info_status s i0 = 0;
  vi_idx : 0 <= aidx s < 2 ^ 16 /\ 0 <= dseen s < 2 ^ 16 /\ 0 <= uidx s < 2 ^ 16 /\ 0 <= used_idx s < 2 ^ 16;
}.

(** What the abstract disk knows of a state *)
Definition abs_pc (s : vstate) (v : vpc) : apc :=
  match v with
  | VIdle => AIdle
  | VWant b w => AWant b w
  | VWait b w i0 => if bool_decide (i0 ∈ outstanding s) then APending b w
      else if info_status s i0 =? 0 then ADone b w else AFailed b w
  end.
Definition abs (x : vstate * (Z -> vpc)) : astate :=
  A (store x.1) (bdata x.1) (blockno x.1) (fun p => abs_pc x.1 (x.2 p)).

(** ** Rings *)

Lemma length_ring_u16 d a k : Z.of_nat (length (ring NUM d a (u16 (k - a)))) = u16 (k - a).
Proof. apply length_ring. apply wrap_range. lia. Qed.

(** Adding at the index [k] and removing at the index [a], both modulo 2^16. *)
Lemma ring_push d a k v : 0 <= a < 2 ^ 16 -> 0 <= k < 2 ^ 16 -> u16 (k - a) < NUM ->
  ring NUM (fupd d (k mod NUM) v) a (u16 (u16 (k + 1) - a)) = ring NUM d a (u16 (k - a)) ++ [v].
Proof.
  intros Ha Hk Hl. rewrite pow2_16 in *.
  assert (u16 (u16 (k + 1) - a) = u16 (k - a) + 1) as -> by (unfold NUM in *; dlia).
  apply ring_snoc; [done|split; [apply wrap_range; lia|done]|]. unfold NUM in *. dlia.
Qed.
Lemma ring_pop d a k : 0 <= a < 2 ^ 16 -> 0 <= k < 2 ^ 16 -> a <> k ->
  ring NUM d a (u16 (k - a)) = d (a mod NUM) :: ring NUM d (u16 (a + 1)) (u16 (k - u16 (a + 1))).
Proof.
  intros Ha Hk Hne. rewrite pow2_16 in *. assert (0 < u16 (k - a)) as Hl by dlia. rewrite ring_cons by done. f_equal.
  assert (u16 (k - u16 (a + 1)) = u16 (k - a) - 1) as -> by dlia. apply ring_shift; [done|]. unfold NUM. dlia.
Qed.
Lemma ring_empty d a : ring NUM d a (u16 (a - a)) = [].
Proof. rewrite Z.sub_diag. apply ring_nil. done. Qed.

Lemma nodup_num (l : list Z) : NoDup l -> (forall i, i ∈ l -> 0 <= i < NUM) -> Z.of_nat (length l) <= NUM.
Proof.
  intros Hn Hr. assert (length l <= length (seqZ 0 NUM))%nat as H.
  { apply submseteq_length, NoDup_submseteq; [done|]. intros i Hi. apply elem_of_seqZ. specialize (Hr i Hi). lia. }
  rewrite length_seqZ in H. unfold NUM in *. lia.
Qed.

(** ** Allocation *)

Lemma free_from_spec n : forall i f, let r := free_from n i f in
  (r = -1 /\ forall j, i <= j < i + Z.of_nat n -> f j = false) \/ (i <= r < i + Z.of_nat n /\ f r = true).
Proof.
  induction n as [|n IH]; intros i f; cbn [free_from]; [left; split; [done|lia]|].
  destruct (f i) eqn:E; [right; split; [lia|done]|]. destruct (IH (i + 1) f) as [[-> H]|[H1 H2]].
  - left. split; [done|]. intros j Hj. destruct (decide (j = i)) as [-> |]; [done|]. apply H. lia.
  - right. split; [lia|done].
Qed.

Lemma alloc_desc_run s : alloc_desc s = Ret (-1) s \/
  exists i, alloc_desc s = Ret i (set_free i false s) /\ 0 <= i < NUM /\ dfree s i = true.
Proof.
  unfold alloc_desc. rewrite (bind_step _ _ s (dfree s) s) by done. cbv zeta.
  destruct (free_from_spec (Z.to_nat NUM) 0 (dfree s)) as [[-> _]|[H1 H2]]; [by left|]. right.
  exists (free_from (Z.to_nat NUM) 0 (dfree s)). rewrite (proj2 (Z.ltb_ge _ 0)) by lia. split; [done|].
  split; [|done]. unfold NUM in *. lia.
Qed.

(** Descriptors that are not in use may have any contents. *)
Definition redesc (ds : Z -> virtq_desc) (s : vstate) : vstate :=
  V (dfree s) ds (ops s) (info_b s) (info_status s) (aring s) (aidx s) (uring s) (uidx s) (used_idx s)
    (bdisk s) (blockno s) (bdata s) (dseen s) (inflight s) (store s) (read_disk s) (write_disk s).

Lemma free_desc_run i s : i < NUM -> dfree s i = false ->
  free_desc i s = Ret tt (set_free i true (set_desc i (Vdesc NullP 0 0 0) s)).
Proof.
  intros Hi Hf. unfold free_desc. rewrite (proj2 (Z.leb_gt NUM i)) by done. unfold bind, gets. rewrite Hf. done.
Qed.

Lemma set_free_twice i v w s : set_free i v (set_free i w s) = set_free i v s.
Proof. unfold set_free. cbn. by rewrite fupd_twice. Qed.
Lemma set_free_desc i v j d s : set_free i v (set_desc j d s) = set_desc j d (set_free i v s).
Proof. done. Qed.
Lemma set_free_id i v s : dfree s i = v -> set_free i v s = s.
Proof. intros <-. unfold set_free. rewrite fupd_id. by destruct s. Qed.
Lemma set_free_comm i v j w s : i <> j -> set_free i v (set_free j w s) = set_free j w (set_free i v s).
Proof. intros H. unfold set_free. cbn. by rewrite fupd_comm by done. Qed.

Lemma alloc3_run s : (exists ds, alloc3_desc s = Ret None (redesc ds s) /\ forall i, dfree s i = false -> ds i = desc s i) \/
  exists i0 i1 i2, alloc3_desc s = Ret (Some (i0, i1, i2)) (set_free i2 false (set_free i1 false (set_free i0 false s))) /\
    NoDup [i0; i1; i2] /\ forall i, i ∈ [i0; i1; i2] -> 0 <= i < NUM /\ dfree s i = true.
Proof.
  unfold alloc3_desc. destruct (alloc_desc_run s) as [E0|(i0 & E0 & H0 & F0)]; rewrite (bind_step _ _ _ _ _ E0).
  { left. exists (desc s). split; [by destruct s|done]. }
  rewrite (proj2 (Z.ltb_ge i0 0)) by lia. set (s1 := set_free i0 false s).
  assert (dfree s1 i0 = false) as F01 by apply fupd_eq.
  destruct (alloc_desc_run s1) as [E1|(i1 & E1 & H1 & F1)]; rewrite (bind_step _ _ _ _ _ E1).
  { left. exists (fupd (desc s) i0 (Vdesc NullP 0 0 0)). split.
    - change (-1 <? 0) with true. cbn iota. rewrite (bind_step _ _ _ _ _ (free_desc_run i0 s1 ltac:(lia) F01)).
      unfold s1. rewrite set_free_desc, set_free_twice, set_free_id by done. done.
    - intros i Hi. apply fupd_ne. congruence. }
  assert (i1 <> i0) as N1 by congruence. assert (dfree s i1 = true) as F1' by (unfold s1 in F1; cbn in F1; by rewrite fupd_ne in F1).
  rewrite (proj2 (Z.ltb_ge i1 0)) by lia. set (s2 := set_free i1 false s1).
  assert (dfree s2 i1 = false) as F12 by apply fupd_eq.
  assert (dfree s2 i0 = false) as F02 by (unfold s2; cbn; rewrite fupd_ne by done; done).
  destruct (alloc_desc_run s2) as [E2|(i2 & E2 & H2 & F2)]; rewrite (bind_step _ _ _ _ _ E2).
  { left. exists (fupd (fupd (desc s) i0 (Vdesc NullP 0 0 0)) i1 (Vdesc NullP 0 0 0)). split.
    - change (-1 <? 0) with true. cbn iota. rewrite (bind_step _ _ _ _ _ (free_desc_run i0 s2 ltac:(lia) F02)).
      set (s3 := set_free i0 true _). assert (dfree s3 i1 = false) as F13 by (unfold s3; cbn; by rewrite fupd_ne).
      rewrite (bind_step _ _ _ _ _ (free_desc_run i1 s3 ltac:(lia) F13)). unfold s3.
      unfold s2, s1. do 2 rewrite ?set_free_desc. rewrite (set_free_comm i0 true i1) by done. rewrite !set_free_twice.
      rewrite (set_free_id i0), (set_free_id i1) by done. done.
    - intros i Hi. rewrite !fupd_ne by congruence. done. }
  assert (i2 <> i1 /\ i2 <> i0) as [N2 N2'] by (split; congruence).
  rewrite (proj2 (Z.ltb_ge i2 0)) by lia. right. exists i0, i1, i2. split; [done|]. split.
  - repeat constructor; rewrite ?elem_of_cons, ?elem_of_nil; intuition congruence.
  - assert (dfree s i2 = true) as F2'.
    { unfold s2, s1 in F2. cbn in F2. by rewrite !fupd_ne in F2. }
    intros i Hi. rewrite !elem_of_cons, elem_of_nil in Hi. destruct Hi as [-> |[-> |[-> |[]]]]; done.
Qed.

(** ** Chains of other requests do not change *)

Lemma vchain_frame s s' b w i0 : chain_ok s b w i0 ->
  (forall i, i ∈ chain s i0 -> desc s' i = desc s i /\ dfree s' i = false) ->
  ops s' i0 = ops s i0 -> info_b s' i0 = info_b s i0 -> blockno s' b = blockno s b ->
  chain s' i0 = chain s i0 /\ chain_ok s' b w i0.
Proof.
  intros [C1 C2 C3 C4 C5 C6 C7] Hd Ho Hi Hb.
  assert (desc s' i0 = desc s i0) as E0 by (apply Hd; by left).
  assert (second s' i0 = second s i0) as E1 by (unfold second; by rewrite E0).
  assert (desc s' (second s i0) = desc s (second s i0)) as E2 by (apply Hd; right; by left).
  assert (third s' i0 = third s i0) as E3 by (unfold third; by rewrite E1, E2).
  assert (desc s' (third s i0) = desc s (third s i0)) as E4 by (apply Hd; right; right; by left).
  assert (chain s' i0 = chain s i0) as Ec by (unfold chain; by rewrite E1, E3). split; [done|].
  split; rewrite ?Ec, ?E1, ?E3, ?E0, ?E2, ?E4, ?Ho, ?Hi, ?Hb; try done.
  intros i Hin. split; [by apply C2|by apply Hd].
Qed.

(** The driver's part of the state, all but the queues: what chains need. *)
Definition same_chains (s s' : vstate) : Prop :=
  dfree s' = dfree s /\ desc s' = desc s /\ ops s' = ops s /\ info_b s' = info_b s /\ blockno s' = blockno s.

Lemma same_chain s s' i0 : desc s' = desc s -> chain s' i0 = chain s i0.
Proof. intros E. unfold chain, third, second. by rewrite E. Qed.

(** A step that leaves the chains and the processes alone. *)
Lemma vinv_queues s s' pc : vinv s pc -> same_chains s s' ->
  NoDup (known s') -> (forall h, h ∈ known s' -> exists p b w, pc p = VWait b w h /\ bdisk s' b = 1) ->
  (forall p b w i0, pc p = VWait b w i0 -> i0 ∉ known s' -> bdisk s' b = 0 /\ info_status s' i0 = 0) ->
  0 <= aidx s' < 2 ^ 16 /\ 0 <= dseen s' < 2 ^ 16 /\ 0 <= uidx s' < 2 ^ 16 /\ 0 <= used_idx s' < 2 ^ 16 -> vinv s' pc.
Proof.
  intros [V1 V2 V3 V4 V5 V6 V7 V8] (E1 & E2 & E3 & E4 & E5) H1 H2 H3 H4. split; try done.
  - by rewrite E1.
  - intros p b w i0 Hp. eapply (vchain_frame s); rewrite ?E1, ?E2, ?E3, ?E4, ?E5; try done; [by eapply V2|].
    intros i Hi. split; [done|]. by apply (V2 p b w i0).
  - intros p q b w i0 b' w' j0 Hne Hp Hq i. rewrite !(same_chain s s') by done. by eapply V3.
Qed.

Lemma head_owner s pc p b w i0 q b' w' : vinv s pc -> pc p = VWait b w i0 -> pc q = VWait b' w' i0 -> q = p.
Proof.
  intros Hi Hp Hq. destruct (decide (q = p)) as [|Hne]; [done|]. exfalso.
  apply (vi_disjoint _ _ Hi q p _ _ _ _ _ _ Hne Hq Hp i0); by left.
Qed.

Lemma known_range s pc h : vinv s pc -> h ∈ known s -> 0 <= h < NUM /\ dfree s h = false.
Proof.
  intros Hi Hh. destruct (vi_known _ _ Hi h Hh) as (p & b & w & Hp & _).
  apply (ch_used _ _ _ _ (vi_chain _ _ Hi p b w h Hp)). by left.
Qed.

Lemma redesc_vinv ds s pc : vinv s pc -> (forall i, dfree s i = false -> ds i = desc s i) -> vinv (redesc ds s) pc.
Proof.
  intros Hi Hd. pose proof Hi as [V1 V2 V3 V4 V5 V6 V7 V8].
  assert (forall p b w i0, pc p = VWait b w i0 -> chain (redesc ds s) i0 = chain s i0 /\ chain_ok (redesc ds s) b w i0) as Hc.
  { intros p b w i0 Hp. apply vchain_frame; try done; [by eapply V2|]. intros i Hin.
    pose proof (ch_used _ _ _ _ (V2 p b w i0 Hp) i Hin) as [_ Hf]. split; [by apply Hd|done]. }
  split; try done.
  - intros p b w i0 Hp. by eapply Hc.
  - intros p q b w i0 b' w' j0 Hne Hp Hq i. rewrite (proj1 (Hc p b w i0 Hp)), (proj1 (Hc q b' w' j0 Hq)). by eapply V3.
Qed.

(** ** Submitting a request *)

Definition submitted (s : vstate) (b : Z) (w : bool) (i0 i1 i2 : Z) : vstate :=
  push_avail i0 (set_info_b i0 b (set_bdisk b 1 (set_desc i2 (Vdesc (StatusP i0) 1 VRING_DESC_F_WRITE 0) (set_status i0 0xff
    (set_desc i1 (Vdesc (DataP b) DISK_BSIZE (Z.lor (if w then 0 else VRING_DESC_F_WRITE) VRING_DESC_F_NEXT) i2)
    (set_desc i0 (Vdesc (OpP i0) REQ_SIZE VRING_DESC_F_NEXT i1)
    (set_op i0 (Breq (if w then VIRTIO_BLK_T_OUT else VIRTIO_BLK_T_IN) 0 (u32 (blockno s b * 2)))
    (set_free i2 false (set_free i1 false (set_free i0 false s)))))))))).

Section submission.
Context (s : vstate) (pc : Z -> vpc) (p b : Z) (w : bool) (i0 i1 i2 : Z).
Hypothesis inv : vinv s pc.
Hypothesis not_waiting : forall b' w' j0, pc p <> VWait b' w' j0.
Hypothesis mine : forall q, active pc q b -> q = p.
Hypothesis distinct : NoDup [i0; i1; i2].
Hypothesis unused : forall i, i ∈ [i0; i1; i2] -> 0 <= i < NUM /\ dfree s i = true.
Let s' := submitted s b w i0 i1 i2.
Let pc' := fupd pc p (VWait b w i0).

Lemma sub_other q c v j0 : pc q = VWait c v j0 -> q <> p /\ c <> b /\ forall i, i ∈ chain s j0 -> i ∉ [i0; i1; i2].
Proof.
  intros Hq. assert (q <> p) as Hne by (intros ->; by apply (not_waiting c v j0)). split; [done|]. split.
  - intros ->. apply Hne, mine. exists v. right. by exists j0.
  - intros i Hi Hin. destruct (unused i Hin) as [_ Hf].
    destruct (ch_used _ _ _ _ (vi_chain _ _ inv q c v j0 Hq) i Hi) as [_ Hf']. congruence.
Qed.

Lemma sub_fresh : i0 ∉ known s.
Proof. intros Hin. destruct (known_range s pc i0 inv Hin) as [_ H]. destruct (unused i0) as [_ H']; [by left|]. congruence. Qed.

Lemma sub_known : queued s' = queued s ++ [i0] /\ finished s' = finished s /\ inflight s' = inflight s.
Proof.
  split; [|done]. pose proof (vi_idx _ _ inv) as (I1 & I2 & _). unfold queued. cbn. apply ring_push; try done.
  assert (Z.of_nat (length (i0 :: known s)) <= NUM) as Hl.
  { apply nodup_num; [constructor; [exact sub_fresh|apply inv]|]. intros i [-> |Hi]%elem_of_cons; [apply unused; by left|].
    by eapply known_range. }
  unfold known, outstanding, queued in Hl. cbn [length] in Hl. rewrite !length_app in Hl.
  pose proof (length_ring_u16 (aring s) (dseen s) (aidx s)). lia.
Qed.

Lemma sub_desc : desc s' i0 = Vdesc (OpP i0) REQ_SIZE VRING_DESC_F_NEXT i1 /\
  desc s' i1 = Vdesc (DataP b) DISK_BSIZE (Z.lor (if w then 0 else VRING_DESC_F_WRITE) VRING_DESC_F_NEXT) i2 /\
  desc s' i2 = Vdesc (StatusP i0) 1 VRING_DESC_F_WRITE 0 /\ chain s' i0 = [i0; i1; i2].
Proof.
  assert (i0 <> i1 /\ i0 <> i2 /\ i1 <> i2) as (N1 & N2 & N3).
  { rewrite !NoDup_cons, !elem_of_cons in distinct. intuition congruence. }
  assert (desc s' i0 = Vdesc (OpP i0) REQ_SIZE VRING_DESC_F_NEXT i1) as E0 by (cbn; by rewrite !fupd_ne, fupd_eq by done).
  assert (desc s' i1 = Vdesc (DataP b) DISK_BSIZE (Z.lor (if w then 0 else VRING_DESC_F_WRITE) VRING_DESC_F_NEXT) i2) as E1
    by (cbn; by rewrite fupd_ne, fupd_eq by done).
  split; [done|]. split; [done|]. split; [apply fupd_eq|]. unfold chain, third, second. by rewrite E0; cbn [d_next]; rewrite E1.
Qed.

Lemma sub_chain : chain_ok s' b w i0.
Proof.
  destruct sub_desc as (E0 & E1 & E2 & Ec). assert (second s' i0 = i1) as S1 by (unfold second; by rewrite E0).
  assert (third s' i0 = i2) as S2 by (unfold third; rewrite S1, E1; done).
  split; rewrite ?Ec, ?S1, ?S2; try done.
  - intros i Hi. split; [by apply unused|]. unfold s'. cbn. rewrite !elem_of_cons, elem_of_nil in Hi. unfold fupd.
    destruct (i =? i2) eqn:A2, (i =? i1) eqn:A1, (i =? i0) eqn:A0; try done. apply Z.eqb_neq in A0, A1, A2. tauto.
  - cbn. by rewrite fupd_eq.
  - cbn. apply fupd_eq.
Qed.

Lemma sub_frame q c v j0 : pc q = VWait c v j0 -> chain s' j0 = chain s j0 /\ chain_ok s' c v j0.
Proof.
  intros Hq. destruct (sub_other q c v j0 Hq) as (_ & Hc & Ho). apply vchain_frame; [by eapply vi_chain| | | |done].
  - intros i Hi. pose proof (Ho i Hi) as Hn. rewrite !not_elem_of_cons in Hn. destruct Hn as (N0 & N1 & N2 & _). cbn.
    rewrite !fupd_ne by done. split; [done|]. by apply (vi_chain _ _ inv q c v j0 Hq).
  - cbn. apply fupd_ne. intros ->. apply (Ho i0); by left.
  - cbn. apply fupd_ne. intros ->. apply (Ho i0); by left.
Qed.

Lemma pc'_inv q c v j0 : pc' q = VWait c v j0 -> (q = p /\ c = b /\ v = w /\ j0 = i0) \/ (q <> p /\ pc q = VWait c v j0).
Proof.
  unfold pc', fupd. destruct (Z.eqb_spec q p) as [-> |Hne]; [intros [= -> -> ->]; by left|by right].
Qed.

Lemma submit_vinv : vinv s' pc'.
Proof.
  destruct sub_known as (K1 & K2 & K3). destruct sub_desc as (_ & _ & _ & Ec).
  assert (forall h, h ∈ known s' <-> h = i0 \/ h ∈ known s) as Hk.
  { intros h. unfold known, outstanding. rewrite K1, K2, K3, !elem_of_app, list_elem_of_singleton. tauto. }
  split.
  - intros i. unfold s'. cbn. unfold fupd. do 3 (destruct (_ =? _); [done|]). apply inv.
  - intros q c v j0 [(-> & -> & -> & ->)|[_ Hq]]%pc'_inv; [apply sub_chain|by eapply sub_frame].
  - intros q r c v j0 c' v' k0 Hne [(-> & -> & -> & ->)|[Hqp Hq]]%pc'_inv [(-> & -> & -> & ->)|[Hrp Hr]]%pc'_inv i; try done.
    + rewrite Ec, (proj1 (sub_frame r c' v' k0 Hr)). intros Hi Hin. by apply (proj2 (proj2 (sub_other r c' v' k0 Hr)) i).
    + rewrite Ec, (proj1 (sub_frame q c v j0 Hq)). by apply (proj2 (proj2 (sub_other q c v j0 Hq)) i).
    + rewrite (proj1 (sub_frame q c v j0 Hq)), (proj1 (sub_frame r c' v' k0 Hr)). by apply (vi_disjoint _ _ inv q r c v j0 c' v' k0).
  - assert (forall q c, active pc' q c -> (q = p /\ c = b) \/ (q <> p /\ active pc q c)) as Ha.
    { intros q c (v & [Hq|[j0 Hq]]).
      - unfold pc', fupd in Hq. destruct (Z.eqb_spec q p); [done|]. right. split; [done|]. exists v. by left.
      - apply pc'_inv in Hq as [(-> & -> & _)|[Hn Hq]]; [by left|]. right. split; [done|]. exists v. right. by exists j0. }
    intros q r c [[-> ->]|[Hn Hq]]%Ha [[-> E]|[Hm Hr]]%Ha; try done.
    + symmetry. by apply mine.
    + subst c. by apply mine.
    + by eapply vi_bufs.
  - unfold known, outstanding. rewrite K1, K2, K3. pose proof (vi_nodup _ _ inv) as Hn. pose proof sub_fresh as Hf.
    unfold known, outstanding in Hn, Hf. assert ((queued s ++ [i0]) ++ inflight s ++ finished s ≡ₚ i0 :: (queued s ++ inflight s) ++ finished s) as E
      by solve_Permutation. rewrite <- app_assoc, E. by constructor.
  - intros h [-> |Hh]%Hk.
    + exists p, b, w. split; [apply fupd_eq|]. cbn. apply fupd_eq.
    + destruct (vi_known _ _ inv h Hh) as (q & c & v & Hq & Hd). destruct (sub_other q c v h Hq) as (Hqp & Hc & _).
      exists q, c, v. split; [by unfold pc'; rewrite fupd_ne|]. cbn. by rewrite fupd_ne.
  - intros q c v j0 [(-> & -> & -> & ->)|[Hqp Hq]]%pc'_inv Hn; [exfalso; apply Hn, Hk; by left|].
    destruct (sub_other q c v j0 Hq) as (_ & Hc & Ho). cbn. rewrite !fupd_ne; [|intros ->; apply (Ho i0); by left|done].
    apply (vi_waiting _ _ inv q c v j0 Hq). intros Hin. apply Hn, Hk. by right.
  - destruct (vi_idx _ _ inv) as (I1 & I2 & I3 & I4). cbn. split_and!; try lia; apply wrap_range; lia.
Qed.

Lemma submit_abs : abs (s', pc') = A (store s) (bdata s) (blockno s) (fupd (a_pc (abs (s, pc))) p (APending b w)).
Proof.
  destruct sub_known as (K1 & K2 & K3). unfold abs. cbn [fst snd a_pc]. f_equal. extensionality q.
  assert (forall h, h ∈ outstanding s' <-> h = i0 \/ h ∈ outstanding s) as Hk.
  { intros h. unfold outstanding. rewrite K1, K3, !elem_of_app, list_elem_of_singleton. tauto. }
  unfold pc', fupd. destruct (Z.eqb_spec q p) as [-> |Hne]; cbn [abs_pc].
  - rewrite bool_decide_eq_true_2; [done|]. apply Hk. by left.
  - destruct (pc q) as [|c v|c v j0] eqn:Hq; [done|done|]. cbn [abs_pc].
    destruct (sub_other q c v j0 Hq) as (_ & _ & Ho). assert (j0 <> i0) as Hj by (intros ->; apply (Ho i0); by left).
    rewrite (bool_decide_ext (j0 ∈ outstanding s') (j0 ∈ outstanding s)) by (rewrite Hk; tauto).
    unfold s'. cbn [info_status submitted push_avail set_info_b set_bdisk set_desc set_status set_op set_free]. by rewrite fupd_ne.
Qed.
End submission.

(** ** Finishing a request *)

Definition released (s : vstate) (i0 i1 i2 : Z) : vstate :=
  set_free i2 true (set_desc i2 (Vdesc NullP 0 0 0) (set_free i1 true (set_desc i1 (Vdesc NullP 0 0 0)
    (set_free i0 true (set_desc i0 (Vdesc NullP 0 0 0) (set_info_b i0 NOBUF s)))))).

Section completion.
Context (s : vstate) (pc : Z -> vpc) (p b : Z) (w : bool) (i0 : Z).
Hypothesis inv : vinv s pc.
Hypothesis waiting : pc p = VWait b w i0.
Let i1 := second s i0.
Let i2 := third s i0.
Let s' := released s i0 i1 i2.
Let pc' := fupd pc p VIdle.

Lemma done_chain : chain_ok s b w i0.
Proof. by eapply vi_chain. Qed.

Lemma done_distinct : i0 <> i1 /\ i0 <> i2 /\ i1 <> i2.
Proof. pose proof (ch_nodup _ _ _ _ done_chain) as Hn. unfold chain in Hn. rewrite !NoDup_cons, !elem_of_cons in Hn. intuition congruence. Qed.

Lemma vfree_step i t : 0 <= i < NUM -> dfree t i = false ->
  let t' := set_free i true (set_desc i (Vdesc NullP 0 0 0) t) in
  (d <- gets (fun s => desc s i) ;; free_desc i ;;;
   if negb (Z.land (d_flags d) VRING_DESC_F_NEXT =? 0) then ret (inl (d_next d)) else ret (inr tt)) t =
  Ret (if negb (Z.land (d_flags (desc t i)) VRING_DESC_F_NEXT =? 0) then inl (d_next (desc t i)) else inr tt) t'.
Proof.
  intros Hi Hf t'. unfold bind at 1, gets. rewrite (bind_step _ _ _ _ _ (free_desc_run i t ltac:(lia) Hf)).
  by destruct (negb _).
Qed.

Lemma rw_wait_run : bdisk s b <> 1 -> rw_wait b i0 s = Ret tt s'.
Proof.
  intros Hb. destruct done_chain as [C1 C2 C3 C4 C5 C6 C7]. destruct done_distinct as (N1 & N2 & N3). fold i1 i2 in C3, C4, C5.
  destruct (C2 i0) as [R0 F0]; [by left|]. destruct (C2 i1) as [R1 F1]; [right; by left|].
  destruct (C2 i2) as [R2 F2]; [right; right; by left|].
  unfold rw_wait. rewrite (bind_step _ _ _ (bdisk s b) s) by done. rewrite (proj2 (Z.eqb_neq _ 1)) by done.
  set (s0 := set_info_b i0 NOBUF s). rewrite (bind_step _ _ _ tt s0) by done. unfold free_chain.
  change (Z.to_nat NUM) with 8%nat. cbn [loop].
  set (s1 := set_free i0 true (set_desc i0 (Vdesc NullP 0 0 0) s0)).
  set (s2 := set_free i1 true (set_desc i1 (Vdesc NullP 0 0 0) s1)).
  assert (desc s1 i1 = desc s i1) as D1 by (cbn; by rewrite fupd_ne).
  assert (desc s2 i2 = desc s i2) as D2 by (cbn; by rewrite !fupd_ne).
  rewrite (bind_step _ _ s0 (inl i1) s1).
  2:{ rewrite vfree_step by done. change (desc s0 i0) with (desc s i0). rewrite C3. done. }
  rewrite (bind_step _ _ s1 (inl i2) s2).
  2:{ rewrite vfree_step; [|done|cbn; by rewrite fupd_ne]. rewrite D1, C4. by destruct w. }
  rewrite (bind_step _ _ s2 (inr tt) s'); [done|].
  rewrite vfree_step; [|done|cbn; by rewrite !fupd_ne]. rewrite D2, C5. done.
Qed.

Lemma done_not_known : bdisk s b <> 1 -> i0 ∉ known s.
Proof.
  intros Hb Hin. destruct (vi_known _ _ inv i0 Hin) as (q & c & v & Hq & Hd).
  assert (q = p) as -> by (by eapply head_owner). congruence.
Qed.

Lemma done_frame q c v j0 : q <> p -> pc q = VWait c v j0 -> chain s' j0 = chain s j0 /\ chain_ok s' c v j0.
Proof.
  intros Hne Hq. assert (forall i, i ∈ chain s j0 -> i <> i0 /\ i <> i1 /\ i <> i2) as Hd.
  { intros i Hi. pose proof (vi_disjoint _ _ inv q p c v j0 b w i0 Hne Hq waiting i Hi) as Hn. unfold chain in Hn.
    rewrite !not_elem_of_cons in Hn. tauto. }
  apply vchain_frame; [by eapply vi_chain| |done| |done].
  - intros i Hi. destruct (Hd i Hi) as (N0 & N1 & N2). cbn. rewrite !fupd_ne by done. split; [done|].
    by apply (ch_used _ _ _ _ (vi_chain _ _ inv q c v j0 Hq)).
  - cbn. apply fupd_ne. apply Hd. by left.
Qed.

Lemma done_pc q c v j0 : pc' q = VWait c v j0 -> q <> p /\ pc q = VWait c v j0.
Proof. unfold pc', fupd. by destruct (Z.eqb_spec q p). Qed.

Lemma done_vinv : bdisk s b <> 1 -> vinv s' pc'.
Proof.
  intros Hb. pose proof (done_not_known Hb) as Hk. destruct done_chain as [C1 C2 _ _ _ _ _]. split.
  - intros i. unfold s'. cbn. unfold fupd.
    destruct (Z.eqb_spec i i2) as [-> |]; [intros _; apply C2; right; right; by left|].
    destruct (Z.eqb_spec i i1) as [-> |]; [intros _; apply C2; right; by left|].
    destruct (Z.eqb_spec i i0) as [-> |]; [intros _; apply C2; by left|]. apply inv.
  - intros q c v j0 [Hn Hq]%done_pc. by eapply done_frame.
  - intros q r c v j0 c' v' k0 Hne [Hn Hq]%done_pc [Hm Hr]%done_pc i.
    rewrite (proj1 (done_frame q c v j0 Hn Hq)), (proj1 (done_frame r c' v' k0 Hm Hr)).
    by apply (vi_disjoint _ _ inv q r c v j0 c' v' k0).
  - assert (forall q c, active pc' q c -> active pc q c) as Ha.
    { intros q c (v & Hq). exists v. unfold pc', fupd in Hq. destruct (q =? p); [|done]. by destruct Hq as [?|[? ?]]. }
    intros q r c Hq Hr. eapply (vi_bufs _ _ inv); by apply Ha.
  - apply inv.
  - intros h Hh. destruct (vi_known _ _ inv h Hh) as (q & c & v & Hq & Hd). exists q, c, v. split; [|done].
    unfold pc'. rewrite fupd_ne; [done|]. intros ->. rewrite waiting in Hq. injection Hq as <- <- <-. done.
  - intros q c v j0 [Hn Hq]%done_pc. by apply (vi_waiting _ _ inv q c v).
  - apply inv.
Qed.

Lemma done_abs : bdisk s b <> 1 ->
  a_pc (abs (s, pc)) p = ADone b w /\ abs (s', pc') = A (store s) (bdata s) (blockno s) (fupd (a_pc (abs (s, pc))) p AIdle).
Proof.
  intros Hb. split.
  - cbn. rewrite waiting. cbn. rewrite (proj2 (vi_waiting _ _ inv p b w i0 waiting (done_not_known Hb))).
    rewrite bool_decide_eq_false_2; [done|]. intros Hin. apply (done_not_known Hb), elem_of_app. by left.
  - unfold abs. cbn [fst snd a_pc]. f_equal. extensionality q. unfold pc', fupd. by destruct (q =? p).
Qed.
End completion.

(** ** The interrupt handler *)

(** A finished request with status 0 is acknowledged. *)
Lemma intr_body_run s pc : vinv s pc -> used_idx s <> uidx s ->
  let h := uring s (used_idx s mod NUM) in let s' := next_used (set_bdisk (info_b s h) 0 s) in
  finished s = h :: finished s' /\
  (info_status s h <> 0 -> intr_body tt s = Panic "virtio_disk_intr status") /\
  (info_status s h = 0 -> intr_body tt s = Ret (inl tt) s' /\ vinv s' pc).
Proof.
  intros Hi Hne h s'. destruct (vi_idx _ _ Hi) as (I1 & I2 & I3 & I4).
  assert (finished s = h :: finished s') as Ef by (unfold finished; cbn; by apply ring_pop).
  assert (h ∈ known s) as Hk by (apply elem_of_app; right; rewrite Ef; by left).
  destruct (vi_known _ _ Hi h Hk) as (p & b & w & Hp & Hd).
  assert (info_b s h = b) as Eb by (apply (ch_buf _ _ _ _ (vi_chain _ _ Hi p b w h Hp))).
  pose proof (vi_nodup _ _ Hi) as Hn. unfold known in Hn. rewrite Ef in Hn.
  assert (forall x, x ∈ known s <-> x = h \/ x ∈ known s') as Hks.
  { intros x. unfold known. rewrite Ef. change (outstanding s') with (outstanding s). rewrite !elem_of_app, elem_of_cons. tauto. }
  assert (NoDup (known s') /\ h ∉ known s') as [Hn' Hh'].
  { assert (outstanding s ++ h :: finished s' ≡ₚ h :: known s') as E by (unfold known; change (outstanding s') with (outstanding s); solve_Permutation).
    rewrite E in Hn. apply NoDup_cons in Hn. tauto. }
  assert (intr_body tt s = if negb (info_status s h =? 0) then Panic "virtio_disk_intr status" else Ret (inl tt) s') as Er.
  { unfold intr_body. rewrite (bind_step _ _ s s s) by done. rewrite (proj2 (Z.eqb_neq _ _)) by done. cbv zeta. fold h.
    by destruct (negb _). }
  split; [done|]. rewrite Er. split; [intros H; by rewrite (proj2 (Z.eqb_neq _ 0) H)|]. intros H. rewrite H. split; [done|].
  apply (vinv_queues s); try done.
  - intros x Hx. destruct (vi_known _ _ Hi x) as (q & c & v & Hq & Hdq); [apply Hks; by right|]. exists q, c, v. split; [done|].
    cbn. rewrite Eb, fupd_ne; [done|]. intros ->.
    assert (q = p) as -> by (apply (vi_bufs _ _ Hi q p b); eexists; right; eauto). rewrite Hp in Hq. injection Hq as <- <-. done.
  - intros q c v j0 Hq Hj. destruct (decide (j0 = h)) as [-> |Hjh].
    + assert (q = p) as -> by (by eapply head_owner). assert (c = b) as -> by congruence. cbn. rewrite Eb, fupd_eq. done.
    + destruct (vi_waiting _ _ Hi q c v j0 Hq) as [Hdq Hst]; [by intros [-> |?]%Hks|]. split; [|done].
      change (fupd (bdisk s) (info_b s h) 0 c = 0). unfold fupd. by destruct (c =? info_b s h).
  - cbn. split_and!; try lia; apply wrap_range; lia.
Qed.

(** The handler acknowledges all finished requests, or panics when it comes to
    one that failed. *)
Lemma intr_loop pc l : forall n s, vinv s pc -> finished s = l -> (length l < n)%nat ->
  (Forall (fun h => info_status s h = 0) l /\ exists s', loop n intr_body tt s = Ret tt s' /\
     vinv s' pc /\ abs (s', pc) = abs (s, pc) /\ finished s' = [] /\ outstanding s' = outstanding s) \/
  (Exists (fun h => info_status s h <> 0) l /\ loop n intr_body tt s = Panic "virtio_disk_intr status").
Proof.
  induction l as [|h l IH]; intros [|n] s Hi El Hn; try (cbn in Hn; lia); cbn [loop].
  - left. split; [constructor|]. exists s. split; [|done]. assert (used_idx s = uidx s) as E.
    { destruct (decide (used_idx s = uidx s)) as [|Hne]; [done|].
      destruct (intr_body_run s pc Hi Hne) as [Ef _]. rewrite El in Ef. done. }
    rewrite (bind_step _ _ s (inr tt) s); [done|]. unfold intr_body. rewrite (bind_step _ _ s s s) by done.
    by rewrite (proj2 (Z.eqb_eq _ _) E).
  - assert (used_idx s <> uidx s) as Hne.
    { intros E. unfold finished in El. rewrite E, ring_empty in El. done. }
    destruct (intr_body_run s pc Hi Hne) as (Ef & Hbad & Hok). rewrite El in Ef. injection Ef as Eh Ef. rewrite <- Eh in Hbad, Hok.
    destruct (decide (info_status s h = 0)) as [Hs|Hs].
    + destruct (Hok Hs) as [Eb Hv]. rewrite (bind_step _ _ _ _ _ Eb). rewrite <- Eh in Ef.
      destruct (IH n _ Hv (eq_sym Ef)) as [(Hall & s' & E & H1 & H2 & H3 & H4)|[Hex E]]; [cbn in Hn; lia| |].
      * left. split; [by constructor|]. exists s'. done.
      * right. split; [by apply Exists_cons_tl|done].
    + right. split; [by constructor|]. by rewrite (bind_panic _ _ _ _ (Hbad Hs)).
Qed.

Lemma intr_run s pc : vinv s pc ->
  (Forall (fun h => info_status s h = 0) (finished s) /\ exists s', virtio_disk_intr s = Ret tt s' /\
     vinv s' pc /\ abs (s', pc) = abs (s, pc) /\ finished s' = [] /\ outstanding s' = outstanding s) \/
  (Exists (fun h => info_status s h <> 0) (finished s) /\ virtio_disk_intr s = Panic "virtio_disk_intr status").
Proof.
  intros Hi. unfold virtio_disk_intr. rewrite (bind_step _ _ s (S (Z.to_nat (u16 (uidx s - used_idx s)))) s) by done.
  apply intr_loop; [done|done|]. pose proof (length_ring_u16 (uring s) (used_idx s) (uidx s)). unfold finished. lia.
Qed.

(** ** The device *)

Lemma take_sim s s' pc : vinv s pc -> dev_take s = Some s' -> vinv s' pc /\ abs (s', pc) = abs (s, pc).
Proof.
  intros Hi E. unfold dev_take in E. destruct (Z.eqb_spec (dseen s) (aidx s)) as [|Hne]; [done|]. injection E as <-.
  destruct (vi_idx _ _ Hi) as (I1 & I2 & I3 & I4). set (s' := V _ _ _ _ _ _ _ _ _ _ _ _ _ _ _ _ _ _).
  set (h := aring s (dseen s mod NUM)). assert (queued s = h :: queued s') as Eq by (unfold queued; cbn; by apply ring_pop).
  assert (outstanding s' ≡ₚ outstanding s) as Ho.
  { unfold outstanding. rewrite Eq. change (inflight s') with (inflight s ++ [h]). solve_Permutation. }
  assert (known s' ≡ₚ known s) as Hk by (unfold known; change (finished s') with (finished s); by rewrite Ho).
  split.
  - apply (vinv_queues s); try done.
    + rewrite Hk. apply Hi.
    + intros x Hx. rewrite Hk in Hx. by apply Hi.
    + intros q c v j0 Hq Hj. rewrite Hk in Hj. by apply (vi_waiting _ _ Hi q c v j0).
    + cbn. split_and!; try lia; apply wrap_range; lia.
  - unfold abs. cbn [fst snd]. f_equal. extensionality q. destruct (pc q) as [| |c v j0]; try done. cbn.
    rewrite (bool_decide_ext (j0 ∈ outstanding s') (j0 ∈ outstanding s)); [done|]. by rewrite Ho.
Qed.

Lemma filter_other (l : list Z) h : NoDup l -> h ∈ l -> l ≡ₚ (h :: filter (fun x => x <> h) l).
Proof.
  intros Hn Hh. apply NoDup_Permutation; [done| |].
  - constructor; [|by apply NoDup_filter]. rewrite list_elem_of_filter. by intros [? _].
  - intros x. rewrite elem_of_cons, list_elem_of_filter. destruct (decide (x = h)) as [-> |]; [tauto|]. tauto.
Qed.

Section serving.
Context (s : vstate) (pc : Z -> vpc) (h p b : Z) (w : bool) (status : Z) (junk : bytes).
Hypothesis inv : vinv s pc.
Hypothesis serving : h ∈ inflight s.
Hypothesis owner : pc p = VWait b w h.
Let t := if status =? 0 then transfer b w (abs (s, pc)) else spoil b w junk (abs (s, pc)).
Let s' := V (dfree s) (desc s) (ops s) (info_b s) (fupd (info_status s) h status) (aring s) (aidx s)
  (fupd (uring s) (uidx s mod NUM) h) (u16 (uidx s + 1)) (used_idx s) (bdisk s) (blockno s) (snd t)
  (dseen s) (filter (fun x => x <> h) (inflight s)) (fst t) (read_disk s) (write_disk s).

(** The device finds a well-formed chain and does what the request says. *)
Lemma complete_run : dev_complete h status junk s = Some s'.
Proof.
  destruct (vi_chain _ _ inv p b w h owner) as [_ _ C3 C4 C5 C6 _]. unfold dev_complete. cbv zeta.
  change (d_next (desc s h)) with (second s h). change (d_next (desc s (second s h))) with (third s h).
  rewrite C3, C4, C5. cbn [d_flags d_len d_addr]. rewrite C6. unfold s', t, transfer, spoil, a_offset, a_sector.
  by destruct w, (status =? 0).
Qed.

Lemma serving_lists : finished s' = finished s ++ [h] /\ (known s' ≡ₚ known s) /\
  (forall x, x ∈ outstanding s' <-> x ∈ outstanding s /\ x <> h).
Proof.
  pose proof (vi_nodup _ _ inv) as Hn. destruct (vi_idx _ _ inv) as (I1 & I2 & I3 & I4).
  assert (NoDup (inflight s) /\ (h ∉ queued s) /\ (h ∉ finished s)) as (N1 & N2 & N3).
  { unfold known, outstanding in Hn. apply NoDup_app in Hn as (Hn & Hd & _). apply NoDup_app in Hn as (_ & Hq & Hn).
    split; [done|]. split; [intros Hh; by apply (Hq h)|]. apply Hd, elem_of_app. by right. }
  assert (finished s' = finished s ++ [h]) as Ef.
  { unfold finished. cbn. apply ring_push; try done. assert (Z.of_nat (length (known s)) <= NUM) as Hl.
    { apply nodup_num; [done|]. intros i Hi. by eapply known_range. }
    unfold known, outstanding, finished in Hl. rewrite !length_app in Hl.
    pose proof (length_ring_u16 (uring s) (used_idx s) (uidx s)). destruct (inflight s); [by apply elem_of_nil in serving|]. cbn in Hl. lia. }
  split; [done|]. split.
  - unfold known, outstanding. rewrite Ef. change (queued s') with (queued s). change (inflight s') with (filter (fun x => x <> h) (inflight s)).
    rewrite (filter_other (inflight s) h N1 serving) at 2. solve_Permutation.
  - intros x. unfold outstanding. change (queued s') with (queued s). change (inflight s') with (filter (fun x => x <> h) (inflight s)).
    rewrite !elem_of_app, list_elem_of_filter. split; [|tauto]. intros [Hx|[? ?]]; [|tauto]. split; [by left|]. by intros ->.
Qed.

Lemma complete_vinv : vinv s' pc.
Proof.
  destruct serving_lists as (Ef & Hk & Ho). destruct (vi_idx _ _ inv) as (I1 & I2 & I3 & I4). apply (vinv_queues s); try done.
  - rewrite Hk. apply inv.
  - intros x Hx. rewrite Hk in Hx. by apply inv.
  - intros q c v j0 Hq Hj. rewrite Hk in Hj. cbn. rewrite fupd_ne; [by apply (vi_waiting _ _ inv q c v j0)|].
    intros ->. apply Hj, elem_of_app. left. apply elem_of_app. by right.
  - cbn. split_and!; try lia; apply wrap_range; lia.
Qed.

Lemma complete_abs : a_pc (abs (s, pc)) p = APending b w /\
  abs (s', pc) = A (fst t) (snd t) (blockno s)
    (fupd (a_pc (abs (s, pc))) p (if status =? 0 then ADone b w else AFailed b w)).
Proof.
  destruct serving_lists as (_ & _ & Ho). split.
  - cbn. rewrite owner. cbn. rewrite bool_decide_eq_true_2; [done|]. apply elem_of_app. by right.
  - unfold abs. cbn [fst snd a_pc]. f_equal. extensionality q. unfold fupd. destruct (Z.eqb_spec q p) as [-> |Hne].
    + rewrite owner. cbn [abs_pc]. rewrite bool_decide_eq_false_2 by (rewrite Ho; tauto). cbn. by rewrite fupd_eq.
    + destruct (pc q) as [| |c v j0] eqn:Hq; try done. cbn [abs_pc].
      assert (j0 <> h) as Hj by (intros ->; apply Hne; by eapply head_owner).
      rewrite (bool_decide_ext (j0 ∈ outstanding s') (j0 ∈ outstanding s)) by (rewrite Ho; tauto). cbn. by rewrite fupd_ne.
Qed.
End serving.

(** ** The simulation *)

Section simulation.
Context (device : vstate -> vstate -> Prop) (may_fail : Z -> Prop).
(** The device takes chains from the avail ring and finishes chains it has
    taken, with any status byte; it reports a failure only of requests that may
    fail. *)
Hypothesis device_conforms : forall s s', device s s' ->
  dev_take s = Some s' \/ exists h status junk, h ∈ inflight s /\ 0 <= status < 256 /\
    dev_complete h status junk s = Some s' /\ (status <> 0 -> may_fail (op_sector (ops s h))).

Lemma active_abs s pc q b : a_active (a_pc (abs (s, pc))) q b -> active pc q b.
Proof.
  intros (w & Hq). cbn in Hq. exists w. destruct (pc q) as [|c v|c v j0]; cbn in Hq.
  - by destruct Hq as [?|[?|[?|?]]].
  - left. by destruct Hq as [[= -> ->]|[?|[?|?]]].
  - right. exists j0. destruct (bool_decide _), (info_status s j0 =? 0); destruct Hq as [?|[?|[?|?]]]; congruence.
Qed.

Lemma request_cases b w s pc : vinv s pc ->
  (exists ds, rw_request b w s = Sleep FREE_CHAN (redesc ds s) /\ (forall i, dfree s i = false -> ds i = desc s i)) \/
  exists i0 i1 i2, rw_request b w s = Ret i0 (submitted s b w i0 i1 i2) /\ NoDup [i0; i1; i2] /\
    forall i, i ∈ [i0; i1; i2] -> 0 <= i < NUM /\ dfree s i = true.
Proof.
  intros Hi. unfold rw_request. destruct (alloc3_run s) as [(ds & E & Hd)|(i0 & i1 & i2 & E & Hn & Hu)].
  - left. exists ds. split; [|done]. by rewrite (bind_step _ _ _ _ _ E).
  - right. exists i0, i1, i2. split; [|done]. by rewrite (bind_step _ _ _ _ _ E).
Qed.

Lemma count_vinv w s pc : vinv s pc -> vinv (count_rw w s) pc /\ abs (count_rw w s, pc) = abs (s, pc).
Proof. intros Hi. split; [|done]. by apply (vinv_queues s); try done; apply Hi. Qed.

Lemma idle_steps s pc p b w : vinv s pc -> pc p = VIdle -> (forall q, ~ active pc q b) ->
  vinv s (fupd pc p (VWant b w)) /\ astep may_fail (abs (s, pc)) (abs (s, fupd pc p (VWant b w))).
Proof.
  intros Hi Hp Hb. assert (forall q c v j0, fupd pc p (VWant b w) q = VWait c v j0 -> pc q = VWait c v j0) as Hw
    by (intros q c v j0; unfold fupd; by destruct (q =? p)).
  assert (forall q c, active (fupd pc p (VWant b w)) q c -> (q = p /\ c = b) \/ active pc q c) as Ha.
  { intros q c (v & Hq). unfold fupd in Hq. destruct (Z.eqb_spec q p) as [-> |].
    - destruct Hq as [[= -> _]|[? ?]]; [by left|done].
    - right. by exists v. }
  split.
  - pose proof Hi as [V1 V2 V3 V4 V5 V6 V7 V8]. split; try done.
    + intros q c v j0 Hq%Hw. by eapply V2.
    + intros q r c v j0 c' v' k0 Hne Hq%Hw Hr%Hw. by apply (V3 q r c v j0 c' v' k0).
    + intros q r c [[-> ->]|Hq]%Ha [[-> E]|Hr]%Ha; try done; [by apply Hb in Hr|subst; by apply Hb in Hq|by eapply V4].
    + intros h Hh. destruct (V6 h Hh) as (q & c & v & Hq & Hd). exists q, c, v. split; [|done]. rewrite fupd_ne; [done|congruence].
    + intros q c v j0 Hq%Hw. by apply (V7 q c v).
  - assert (abs (s, fupd pc p (VWant b w)) = A (store s) (bdata s) (blockno s) (fupd (a_pc (abs (s, pc))) p (AWant b w))) as ->.
    { unfold abs. cbn [fst snd a_pc]. f_equal. extensionality q. unfold fupd. by destruct (q =? p). }
    apply (as_start may_fail p b w (abs (s, pc))); [cbn; by rewrite Hp|]. intros q Hq%active_abs. by apply Hb in Hq.
Qed.

Lemma want_submits s pc p b w i0 i1 i2 : vinv s pc -> pc p = VWant b w -> NoDup [i0; i1; i2] ->
  (forall i, i ∈ [i0; i1; i2] -> 0 <= i < NUM /\ dfree s i = true) ->
  let s' := submitted s b w i0 i1 i2 in
  vinv s' (fupd pc p (VWait b w i0)) /\ astep may_fail (abs (s, pc)) (abs (s', fupd pc p (VWait b w i0))).
Proof.
  intros Hi Hp Hn Hu s'. assert (forall b' w' j0, pc p <> VWait b' w' j0) as Hnw by (intros; by rewrite Hp).
  assert (forall q, active pc q b -> q = p) as Hm.
  { intros q Hq. apply (vi_bufs _ _ Hi q p b Hq). exists w. by left. }
  split; [by apply submit_vinv|]. unfold s'. rewrite submit_abs by done. apply (as_submit may_fail p b w (abs (s, pc))). cbn. by rewrite Hp.
Qed.

Lemma fupd_pc pc p (x y : vpc) : fupd (fupd pc p x) p y = fupd pc p y.
Proof. apply fupd_twice. Qed.

(** Every step keeps the invariant and is a sequence of abstract steps. *)
Lemma vstep_sim x x' : vinv x.1 x.2 -> vstep device x x' -> vinv x'.1 x'.2 /\ rtc (astep may_fail) (abs x) (abs x').
Proof.
  intros Hi Hs. destruct Hs as [p b w i0 s s' pc Hp Hb E|p b w c s s' pc Hp Hb E|p b w i0 s s' pc Hp E|p b w c s s' pc Hp E|
    p b w i0 s s' pc Hp E|s s' pc E|s s' pc E|b n d s pc Hb]; cbn [fst snd] in *.
  - destruct (count_vinv w s pc Hi) as [Hc Ea]. destruct (idle_steps _ pc p b w Hc Hp Hb) as [Hv A1].
    unfold rw_start in E. rewrite (bind_step _ _ s tt (count_rw w s)) in E by done.
    destruct (request_cases b w _ _ Hv) as [(ds & E' & _)|(j0 & j1 & j2 & E' & Hn & Hu)]; rewrite E' in E; [done|]. injection E as <- <-.
    destruct (want_submits _ _ p b w j0 j1 j2 Hv) as [V2 A2]; [apply fupd_eq|done|done|]. rewrite fupd_pc in V2, A2.
    split; [done|]. rewrite <- Ea. eapply rtc_l; [exact A1|]. by apply rtc_once.
  - destruct (count_vinv w s pc Hi) as [Hc Ea]. destruct (idle_steps _ pc p b w Hc Hp Hb) as [Hv A1].
    unfold rw_start in E. rewrite (bind_step _ _ s tt (count_rw w s)) in E by done.
    destruct (request_cases b w _ _ Hv) as [(ds & E' & Hd)|(j0 & j1 & j2 & E' & Hn & Hu)]; rewrite E' in E; [|done].
    injection E as <- <-. split; [by apply redesc_vinv|]. rewrite <- Ea. apply rtc_once. exact A1.
  - destruct (request_cases b w _ _ Hi) as [(ds & E' & _)|(j0 & j1 & j2 & E' & Hn & Hu)]; rewrite E' in E; [done|]. injection E as <- <-.
    destruct (want_submits _ _ p b w j0 j1 j2 Hi Hp Hn Hu) as [V2 A2]. split; [done|]. by apply rtc_once.
  - destruct (request_cases b w _ _ Hi) as [(ds & E' & Hd)|(j0 & j1 & j2 & E' & Hn & Hu)]; rewrite E' in E; [|done].
    injection E as <- <-. split; [by apply redesc_vinv|]. apply rtc_refl.
  - assert (bdisk s b <> 1) as Hd.
    { intros Hd. unfold rw_wait in E. rewrite (bind_step _ _ _ (bdisk s b) s) in E by done. by rewrite Hd in E. }
    rewrite (rw_wait_run s pc p b w i0 Hi Hp Hd) in E. injection E as <-. split; [by eapply done_vinv|].
    destruct (done_abs s pc p b w i0 Hi Hp Hd) as [A1 ->]. apply rtc_once. by apply (as_return may_fail p b w (abs (s, pc))).
  - destruct (intr_run s pc Hi) as [(_ & s2 & E' & Hv & Ea & _)|[_ E']]; rewrite E in E'; [|done]. injection E' as <-.
    split; [done|]. rewrite Ea. apply rtc_refl.
  - destruct (device_conforms _ _ E) as [Et|(h & status & junk & Hh & _ & Ec & Hf)].
    + destruct (take_sim s s' pc Hi Et) as [Hv ->]. split; [done|apply rtc_refl].
    + destruct (vi_known _ _ Hi h) as (p & b & w & Hp & _); [apply elem_of_app; left; apply elem_of_app; by right|].
      rewrite (complete_run s pc h p b w status junk Hi Hp) in Ec. injection Ec as <-. split; [by apply complete_vinv|].
      destruct (complete_abs s pc h p b w status junk Hi Hh Hp) as [A1 ->]. apply rtc_once. destruct (Z.eqb_spec status 0) as [_|Hs].
      * by apply (as_transfer may_fail p b w (abs (s, pc))).
      * apply (as_fail may_fail p b w junk (abs (s, pc))); [done|]. pose proof (Hf Hs) as Hm.
        by rewrite (ch_op _ _ _ _ (vi_chain _ _ Hi p b w h Hp)) in Hm.
  - split.
    + pose proof Hi as [V1 V2 V3 V4 V5 V6 V7 V8]. split; try done. intros p c w i0 Hp.
      apply (vchain_frame s); try done; [by eapply V2| |].
      * intros i Hin. split; [done|]. by apply (ch_used _ _ _ _ (V2 p c w i0 Hp)).
      * cbn. apply fupd_ne. intros ->. apply (Hb p). exists w. right. by exists i0.
    + apply rtc_once. apply (as_owner may_fail b n d (abs (s, pc))). intros q Hq%active_abs. by apply Hb in Hq.
Qed.

Lemma init_vinv bn dat st : vinv (virtio_init bn dat st) (fun _ => VIdle).
Proof.
  assert (known (virtio_init bn dat st) = []) as Hk by done. split; rewrite ?Hk; try done.
  - intros i H. cbn in H. apply andb_prop in H as [H1 H2]. lia.
  - intros p q b (w & [H|[i0 H]]); done.
  - constructor.
  - by intros h H%elem_of_nil.
Qed.

Lemma vsteps_sim x x' : vinv x.1 x.2 -> rtc (vstep device) x x' -> vinv x'.1 x'.2 /\ rtc (astep may_fail) (abs x) (abs x').
Proof.
  intros Hi H. induction H as [x|x y z Hs _ IH]; [split; [done|apply rtc_refl]|].
  destruct (vstep_sim x y Hi Hs) as [Hy A1]. destruct (IH Hy) as [Hz A2]. split; [done|]. by etransitivity.
Qed.

(** What no reachable state violates: requests are submitted or wait for
    descriptors; a waiting process sleeps on its buffer, or goes on and its
    transfer has been made; the interrupt handler returns when no finished
    request failed, and lets every process go on whose request is finished; it
    panics when one failed, which is then the request of a process and one that
    may fail; and the device finds every chain it has taken well formed. *)
Record vsafe (s : vstate) (pc : Z -> vpc) : Prop := VSafe {
  vf_request : forall b w, (exists i0 s', rw_request b w s = Ret i0 s') \/ exists s', rw_request b w s = Sleep FREE_CHAN s';
  vf_wait : forall p b w i0, pc p = VWait b w i0 ->
    rw_wait b i0 s = Sleep b s \/ (exists s', rw_wait b i0 s = Ret tt s') /\ a_pc (abs (s, pc)) p = ADone b w;
  vf_intr : (forall p b w, a_pc (abs (s, pc)) p <> AFailed b w) -> exists s', virtio_disk_intr s = Ret tt s' /\
    forall p b w i0, pc p = VWait b w i0 -> a_pc (abs (s, pc)) p = ADone b w -> exists s2, rw_wait b i0 s' = Ret tt s2;
  vf_failed : forall p b w, a_pc (abs (s, pc)) p = AFailed b w ->
    may_fail (u32 (blockno s b * 2)) /\ virtio_disk_intr s = Panic "virtio_disk_intr status";
  vf_chain : forall h status junk, h ∈ inflight s -> exists s', dev_complete h status junk s = Some s';
}.

(** The failed requests are the finished ones with a status that is not 0. *)
Lemma failed_status s pc p b w : vinv s pc -> a_pc (abs (s, pc)) p = AFailed b w ->
  exists h, h ∈ finished s /\ info_status s h <> 0.
Proof.
  intros Hi Hp. cbn in Hp. destruct (pc p) as [| |c v h] eqn:Ep; [done|done|]. cbn in Hp. exists h.
  destruct (bool_decide _) eqn:Eo; [done|]. destruct (Z.eqb_spec (info_status s h) 0) as [|Hs]; [done|]. split; [|done].
  apply bool_decide_eq_false_1 in Eo. destruct (decide (h ∈ known s)) as [Hk|Hk]; [by apply elem_of_app in Hk as [|]|].
  destruct (vi_waiting _ _ Hi p c v h Ep Hk) as [_ Hz]. done.
Qed.
Lemma status_failed s pc h : vinv s pc -> h ∈ finished s -> info_status s h <> 0 ->
  exists p b w, a_pc (abs (s, pc)) p = AFailed b w.
Proof.
  intros Hi Hh Hs. destruct (vi_known _ _ Hi h) as (p & b & w & Hp & _); [apply elem_of_app; by right|].
  exists p, b, w. cbn. rewrite Hp. cbn. rewrite bool_decide_eq_false_2, (proj2 (Z.eqb_neq _ 0) Hs); [done|].
  intros Ho. pose proof (vi_nodup _ _ Hi) as Hn. apply NoDup_app in Hn as (_ & Hd & _). by apply (Hd h).
Qed.

Lemma rw_wait_goes_on s pc p b w i0 : vinv s pc -> pc p = VWait b w i0 -> i0 ∉ known s -> exists s', rw_wait b i0 s = Ret tt s'.
Proof.
  intros Hi Hp Hk. eexists. eapply rw_wait_run; [done|done|]. by rewrite (proj1 (vi_waiting _ _ Hi p b w i0 Hp Hk)).
Qed.

Lemma vinv_intr s pc : vinv s pc -> (forall p b w, a_pc (abs (s, pc)) p <> AFailed b w) ->
  exists s', virtio_disk_intr s = Ret tt s' /\
    forall p b w i0, pc p = VWait b w i0 -> a_pc (abs (s, pc)) p = ADone b w -> exists s2, rw_wait b i0 s' = Ret tt s2.
Proof.
  intros Hi Hf. destruct (intr_run s pc Hi) as [(_ & s' & E & Hv & _ & F1 & F2)|[Hex _]].
  - exists s'. split; [done|]. intros p b w i0 Hp Ha. apply (rw_wait_goes_on s' pc p b w i0 Hv Hp).
    unfold known. rewrite F1, F2, app_nil_r. cbn in Ha. rewrite Hp in Ha. cbn in Ha.
    destruct (bool_decide _) eqn:Eo; [done|]. by apply bool_decide_eq_false_1 in Eo.
  - apply Exists_exists in Hex as (h & Hh & Hs). destruct (status_failed s pc h Hi Hh Hs) as (p & b & w & Hp). by apply Hf in Hp.
Qed.

Lemma vinv_safe s pc : vinv s pc -> failures_allowed may_fail (abs (s, pc)) -> vsafe s pc.
Proof.
  intros Hi Hfa. split.
  - intros b w. destruct (request_cases b w s pc Hi) as [(ds & E & _)|(i0 & i1 & i2 & E & _)]; [right|left]; eauto.
  - intros p b w i0 Hp. destruct (decide (bdisk s b = 1)) as [Hd|Hd].
    + left. unfold rw_wait. rewrite (bind_step _ _ _ (bdisk s b) s) by done. by rewrite Hd.
    + right. split; [eexists; by eapply rw_wait_run|]. by eapply done_abs.
  - by apply vinv_intr.
  - intros p b w Hp. split; [by apply (Hfa p b w)|]. destruct (failed_status s pc p b w Hi Hp) as (h & Hh & Hs).
    destruct (intr_run s pc Hi) as [(Hall & _)|[_ E]]; [|done]. rewrite Forall_forall in Hall. by destruct (Hs (Hall h Hh)).
  - intros h status junk Hh.
    destruct (vi_known _ _ Hi h) as (p & b & w & Hp & _); [apply elem_of_app; left; apply elem_of_app; by right|].
    eexists. by eapply complete_run.
Qed.

(** C11. For any device that takes chains from the avail ring and finishes taken
    ones with a status, in any interleaving of processes calling virtio_disk_rw
    (on distinct locked buffers), interrupts and device steps, for any block
    numbers and contents: the driver implements a disk that either carries out a
    request atomically and exactly once between the call and the return, or
    fails it; a chain in the rings is always well formed; a process leaves
    virtio_disk_rw only after its own successful transfer; and the only panic is
    the interrupt handler's, exactly when a request failed, which is then one
    that the device may fail (a block past its end, say). *)
Theorem virtio_disk_refines bn dat st s pc :
  rtc (vstep device) (virtio_init bn dat st, fun _ => VIdle) (s, pc) ->
  rtc (astep may_fail) (A st dat bn (fun _ => AIdle)) (abs (s, pc)) /\ vsafe s pc.
Proof.
  intros H. destruct (vsteps_sim (virtio_init bn dat st, fun _ => VIdle) (s, pc) (init_vinv bn dat st) H) as [Hv Ha].
  split; [exact Ha|]. apply vinv_safe; [done|]. by apply (failures_kept_steps _ _ _ Ha).
Qed.
End simulation.

(** A disk of [capacity] sectors that fails the requests past its end with
    VIRTIO_BLK_S_IOERR and carries out the others *)
Definition past_end (capacity sector : Z) : Prop := capacity < sector + DISK_BSIZE / 512.
Definition disk_device (capacity : Z) (s s' : vstate) : Prop :=
  dev_take s = Some s' \/ exists h, h ∈ inflight s /\
    (capacity < op_sector (ops s h) + 2 /\ dev_complete h 1 (store s) s = Some s' \/
     op_sector (ops s h) + 2 <= capacity /\ dev_complete h 0 (store s) s = Some s').

Lemma disk_device_conforms capacity s s' : disk_device capacity s s' ->
  dev_take s = Some s' \/ exists h status junk, h ∈ inflight s /\ 0 <= status < 256 /\
    dev_complete h status junk s = Some s' /\ (status <> 0 -> past_end capacity (op_sector (ops s h))).
Proof.
  intros [H|(h & Hh & [[Hc E]|[_ E]])]; [by left| |].
  - right. exists h, 1, (store s). split; [done|]. split; [lia|]. done.
  - right. exists h, 0, (store s). split; [done|]. split; [lia|]. done.
Qed.

(** On a disk of 2000 blocks process 3 writes buffer 1 to block 0: it submits,
    the device takes the chain and carries it out, the interrupt arrives, the
    call returns. Then process 4 reads block 5000: the device fails it. *)
Definition w0 : vstate := virtio_init (fun b => if b =? 2 then 5000 else 0) (fun _ x => 7 + x) (fun _ => 0).
Definition out {A} (r : outcome vstate A) : vstate := match r with Ret _ s => s | _ => w0 end.
Definition ret_val {A} (r : outcome vstate A) : option A := match r with Ret a _ => Some a | _ => None end.
Lemma out_run {A} (r : outcome vstate A) a : ret_val r = Some a -> r = Ret a (out r).
Proof. destruct r; intros H; try discriminate H. by injection H as ->. Qed.
Lemma some_run (o : option vstate) : bool_decide (is_Some o) = true -> o = Some (from_option id w0 o).
Proof. by destruct o. Qed.
Definition w1 : vstate := out (rw_start 1 true w0).
Definition w2 : vstate := from_option id w0 (dev_take w1).
Definition w3 : vstate := from_option id w0 (dev_complete 0 0 (store w2) w2).
Definition w4 : vstate := out (virtio_disk_intr w3).
Definition w5 : vstate := out (rw_wait 1 0 w4).
Definition w6 : vstate := out (rw_start 2 false w5).
Definition w7 : vstate := from_option id w0 (dev_take w6).
Definition w8 : vstate := from_option id w0 (dev_complete 0 1 (store w7) w7).

Lemma virtio_disk_refines_witness :
  let pc := fupd (fupd (fupd (fun _ => VIdle) 3 (VWait 1 true 0)) 3 VIdle) 4 (VWait 2 false 0) in
  rtc (astep (past_end 4000)) (A (fun _ => 0) (fun _ x => 7 + x) (fun b => if b =? 2 then 5000 else 0) (fun _ => AIdle)) (abs (w8, pc)) /\
  vsafe (past_end 4000) w8 pc /\ store w8 1023 = 1030 /\ a_pc (abs (w8, pc)) 4 = AFailed 2 false /\
  virtio_disk_intr w8 = Panic "virtio_disk_intr status".
Proof.
  intros pc. assert (rtc (vstep (disk_device 4000)) (w0, fun _ => VIdle) (w8, pc)) as H.
  { eapply rtc_l; [apply (vs_start _ 3 1 true 0 w0 w1); [reflexivity| |apply out_run; vm_compute; reflexivity]|].
    { intros q (w & [H|[i0 H]]); discriminate H. }
    eapply rtc_l; [apply (vs_device _ w1 w2); left; apply some_run; vm_compute; reflexivity|].
    eapply rtc_l; [apply (vs_device _ w2 w3); right; exists 0; split; [apply (bool_decide_eq_true_1 (0 ∈ inflight w2)); vm_compute; reflexivity|
      right; split; [vm_compute; discriminate|apply some_run; vm_compute; reflexivity]]|].
    eapply rtc_l; [apply (vs_intr _ w3 w4); apply out_run; vm_compute; reflexivity|].
    eapply rtc_l; [apply (vs_done _ 3 1 true 0 w4 w5); [reflexivity|refine (out_run (rw_wait 1 0 w4) tt _); vm_compute; reflexivity]|].
    eapply rtc_l; [apply (vs_start _ 4 2 false 0 w5 w6); [reflexivity| |apply out_run; vm_compute; reflexivity]|].
    { intros q (w & [H|[i0 H]]); unfold fupd in H; destruct (q =? 3); discriminate H. }
    eapply rtc_l; [apply (vs_device _ w6 w7); left; apply some_run; vm_compute; reflexivity|].
    eapply rtc_l; [apply (vs_device _ w7 w8); right; exists 0; split; [apply (bool_decide_eq_true_1 (0 ∈ inflight w7)); vm_compute; reflexivity|
      left; split; [vm_compute; reflexivity|apply some_run; vm_compute; reflexivity]]|].
    apply rtc_refl. }
  destruct (virtio_disk_refines (disk_device 4000) (past_end 4000) (disk_device_conforms 4000) _ _ _ w8 pc H) as [H1 H2].
  split; [exact H1|]. split; [exact H2|]. split; [vm_compute; reflexivity|]. split; vm_compute; reflexivity.
Defined.
