(* ===== verification/VirtioInit.v ===== *)
(** * kernel/virtio_disk.c: finding the device and setting up its queue

    virtio_disk_init talks to the device through memory-mapped registers: the
    state is the sequence of writes so far, and what the device answers to a
    read is a function of them. *)
From stdpp Require Import base list numbers strings.
From Stdlib Require Import ZArith Lia FunctionalExtensionality.
From S2P Require Import Prelude Memlayout Kalloc Virtio.

(** virtio.h: registers, status bits, feature bits *)
Definition VIRTIO_MMIO_MAGIC_VALUE : Z := 0x000.
Definition VIRTIO_MMIO_VERSION : Z := 0x004.
Definition VIRTIO_MMIO_DEVICE_ID : Z := 0x008.
Definition VIRTIO_MMIO_VENDOR_ID : Z := 0x00c.
Definition VIRTIO_MMIO_DEVICE_FEATURES : Z := 0x010.
Definition VIRTIO_MMIO_DRIVER_FEATURES : Z := 0x020.
Definition VIRTIO_MMIO_QUEUE_SEL : Z := 0x030.
Definition VIRTIO_MMIO_QUEUE_NUM_MAX : Z := 0x034.
Definition VIRTIO_MMIO_QUEUE_NUM : Z := 0x038.
Definition VIRTIO_MMIO_QUEUE_READY : Z := 0x044.
Definition VIRTIO_MMIO_STATUS : Z := 0x070.
Definition VIRTIO_MMIO_QUEUE_DESC_LOW : Z := 0x080.
Definition VIRTIO_MMIO_QUEUE_DESC_HIGH : Z := 0x084.
Definition VIRTIO_MMIO_DRIVER_DESC_LOW : Z := 0x090.
Definition VIRTIO_MMIO_DRIVER_DESC_HIGH : Z := 0x094.
Definition VIRTIO_MMIO_DEVICE_DESC_LOW : Z := 0x0a0.
Definition VIRTIO_MMIO_DEVICE_DESC_HIGH : Z := 0x0a4.
Definition VIRTIO_CONFIG_S_ACKNOWLEDGE : Z := 1.
Definition VIRTIO_CONFIG_S_DRIVER : Z := 2.
Definition VIRTIO_CONFIG_S_DRIVER_OK : Z := 4.
Definition VIRTIO_CONFIG_S_FEATURES_OK : Z := 8.
(** VIRTIO_BLK_F_RO, _SCSI, _CONFIG_WCE, _MQ, VIRTIO_F_ANY_LAYOUT,
    VIRTIO_RING_F_EVENT_IDX, _INDIRECT_DESC, in the order they are declined *)
Definition declined : list Z := [5; 7; 11; 12; 27; 29; 28].

Record vboot := VB {
  mmio : list (Z * Z);
  vmem : kmem;
  q_desc : Z; q_avail : Z; q_used : Z;
  q_free : Z -> bool;
}.
Definition set_mmio (l : list (Z * Z)) (s : vboot) : vboot := VB l (vmem s) (q_desc s) (q_avail s) (q_used s) (q_free s).
Definition set_vmem (k : kmem) (s : vboot) : vboot := VB (mmio s) k (q_desc s) (q_avail s) (q_used s) (q_free s).
Definition set_queues (d a u : Z) (s : vboot) : vboot := VB (mmio s) (vmem s) d a u (q_free s).
Definition set_qfree (i : Z) (s : vboot) : vboot := VB (mmio s) (vmem s) (q_desc s) (q_avail s) (q_used s) (fupd (q_free s) i true).

Section init.
Context `{KernelEnd}.
Context (device_reg : list (Z * Z) -> Z -> Z).

(** *R(r) *)
Definition reg (r : Z) : M vboot Z := gets (fun s => u32 (device_reg (mmio s) r)).
Definition set_reg (r v : Z) : M vboot unit := modify (fun s => set_mmio (mmio s ++ [(r, u32 v)]) s).
Definition vpage : M vboot Z := lift vmem set_vmem kalloc.
Definition vzero (pa : Z) : M vboot unit := modify (fun s => set_vmem (set_mem (fill (mem (vmem s)) pa 0 PGSIZE) (vmem s)) s).

(** features &= ~(1 << bit), for every declined bit *)
Definition negotiate (features : Z) : Z := foldl (fun f bit => Z.land f (Z.lnot (Z.shiftl 1 bit))) features declined.

(** The device is a virtio disk; the four reads stop at the first wrong one. *)
Definition is_disk : M vboot bool :=
  m <- reg VIRTIO_MMIO_MAGIC_VALUE ;;
  if negb (m =? 0x74726976) then ret false
  else
    v <- reg VIRTIO_MMIO_VERSION ;;
    if negb (v =? 2) then ret false
    else
      d <- reg VIRTIO_MMIO_DEVICE_ID ;;
      if negb (d =? 2) then ret false
      else w <- reg VIRTIO_MMIO_VENDOR_ID ;; ret (w =? 0x554d4551).

(** The status after negotiation *)
Definition init_features : M vboot Z :=
  set_reg VIRTIO_MMIO_STATUS 0 ;;;
  let status := Z.lor 0 VIRTIO_CONFIG_S_ACKNOWLEDGE in
  set_reg VIRTIO_MMIO_STATUS status ;;;
  let status := Z.lor status VIRTIO_CONFIG_S_DRIVER in
  set_reg VIRTIO_MMIO_STATUS status ;;;
  features <- reg VIRTIO_MMIO_DEVICE_FEATURES ;;
  set_reg VIRTIO_MMIO_DRIVER_FEATURES (negotiate features) ;;;
  let status := Z.lor status VIRTIO_CONFIG_S_FEATURES_OK in
  set_reg VIRTIO_MMIO_STATUS status ;;;
  status <- reg VIRTIO_MMIO_STATUS ;;
  if Z.land status VIRTIO_CONFIG_S_FEATURES_OK =? 0 then panic "virtio disk FEATURES_OK unset" else ret status.

Definition init_queue : M vboot unit :=
  set_reg VIRTIO_MMIO_QUEUE_SEL 0 ;;;
  r <- reg VIRTIO_MMIO_QUEUE_READY ;;
  assert_or (r =? 0) "virtio disk should not be ready" ;;;
  max <- reg VIRTIO_MMIO_QUEUE_NUM_MAX ;;
  assert_or (negb (max =? 0)) "virtio disk has no queue 0" ;;;
  assert_or (negb (max <? NUM)) "virtio disk max queue too short" ;;;
  d <- vpage ;; a <- vpage ;; u <- vpage ;;
  modify (set_queues d a u) ;;;
  assert_or (negb ((d =? 0) || (a =? 0) || (u =? 0))) "virtio disk kalloc" ;;;
  vzero d ;;; vzero a ;;; vzero u ;;;
  set_reg VIRTIO_MMIO_QUEUE_NUM NUM ;;;
  set_reg VIRTIO_MMIO_QUEUE_DESC_LOW d ;;; set_reg VIRTIO_MMIO_QUEUE_DESC_HIGH (Z.shiftr d 32) ;;;
  set_reg VIRTIO_MMIO_DRIVER_DESC_LOW a ;;; set_reg VIRTIO_MMIO_DRIVER_DESC_HIGH (Z.shiftr a 32) ;;;
  set_reg VIRTIO_MMIO_DEVICE_DESC_LOW u ;;; set_reg VIRTIO_MMIO_DEVICE_DESC_HIGH (Z.shiftr u 32) ;;;
  set_reg VIRTIO_MMIO_QUEUE_READY 1.

Definition virtio_disk_init : M vboot unit :=
  ok <- is_disk ;;
  assert_or ok "could not find virtio disk" ;;;
  status <- init_features ;;
  init_queue ;;;
  for_loop (Z.to_nat NUM) 0 (fun i => modify (set_qfree i)) ;;;
  set_reg VIRTIO_MMIO_STATUS (Z.lor status VIRTIO_CONFIG_S_DRIVER_OK).
End init.

(** ** What the driver tells the device *)

(** The features offered, less the declined ones. *)
Lemma negotiate_bits f i : 0 <= i -> Z.testbit (negotiate f) i = Z.testbit f i && negb (bool_decide (i ∈ declined)).
Proof.
  intros Hi. unfold negotiate, declined. cbn [foldl]. rewrite !Z.land_spec, !Z.lnot_spec by done.
  rewrite !Z.shiftl_1_l, !Z.pow2_bits_eqb by lia.
  destruct (bool_decide_reflect (i ∈ [5; 7; 11; 12; 27; 29; 28])) as [Hin|Hin].
  - rewrite !elem_of_cons, elem_of_nil in Hin. destruct_or!; subst; try done; cbn; by rewrite ?andb_false_r.
  - rewrite !not_elem_of_cons in Hin. destruct Hin as (? & ? & ? & ? & ? & ? & ? & _).
    rewrite !(proj2 (Z.eqb_neq _ _)) by done. by rewrite !andb_true_r.
Qed.

Section setup.
Context `{KernelEnd}.
Context (device_reg : list (Z * Z) -> Z -> Z).
Implicit Types w : list (Z * Z).

(** The device is QEMU's disk, keeps the status it is given, and its queue 0
    is unused and large enough. *)
Hypothesis dev_magic : forall w, device_reg w VIRTIO_MMIO_MAGIC_VALUE = 0x74726976.
Hypothesis dev_version : forall w, device_reg w VIRTIO_MMIO_VERSION = 2.
Hypothesis dev_disk : forall w, device_reg w VIRTIO_MMIO_DEVICE_ID = 2.
Hypothesis dev_vendor : forall w, device_reg w VIRTIO_MMIO_VENDOR_ID = 0x554d4551.
Hypothesis dev_status : forall w v, device_reg (w ++ [(VIRTIO_MMIO_STATUS, v)]) VIRTIO_MMIO_STATUS = v.
Hypothesis dev_unused : forall w, (forall v, (VIRTIO_MMIO_QUEUE_READY, v) ∉ w) -> device_reg w VIRTIO_MMIO_QUEUE_READY = 0.
Hypothesis dev_queue : forall w, NUM <= device_reg w VIRTIO_MMIO_QUEUE_NUM_MAX < 2 ^ 32.

(** The registers written, in order, for the pages [d], [a] and [u] *)
Definition init_writes (d a u : Z) : list (Z * Z) :=
  let features := u32 (device_reg [(VIRTIO_MMIO_STATUS, 0); (VIRTIO_MMIO_STATUS, 1); (VIRTIO_MMIO_STATUS, 3)] VIRTIO_MMIO_DEVICE_FEATURES) in
  [(VIRTIO_MMIO_STATUS, 0); (VIRTIO_MMIO_STATUS, 1); (VIRTIO_MMIO_STATUS, 3);
   (VIRTIO_MMIO_DRIVER_FEATURES, u32 (negotiate features)); (VIRTIO_MMIO_STATUS, 11); (VIRTIO_MMIO_QUEUE_SEL, 0);
   (VIRTIO_MMIO_QUEUE_NUM, 8); (VIRTIO_MMIO_QUEUE_DESC_LOW, d); (VIRTIO_MMIO_QUEUE_DESC_HIGH, 0);
   (VIRTIO_MMIO_DRIVER_DESC_LOW, a); (VIRTIO_MMIO_DRIVER_DESC_HIGH, 0);
   (VIRTIO_MMIO_DEVICE_DESC_LOW, u); (VIRTIO_MMIO_DEVICE_DESC_HIGH, 0);
   (VIRTIO_MMIO_QUEUE_READY, 1); (VIRTIO_MMIO_STATUS, 15)].

Lemma page_halves p : page_ok p -> u32 p = p /\ u32 (Z.shiftr p 32) = 0.
Proof.
  intros Hp. apply page_ok_range in Hp. assert (0 <= p < 2 ^ 32) by (unfold PGSIZE in *; lia).
  split; [by apply wrap_small|]. rewrite Z.shiftr_div_pow2 by lia. by rewrite Z.div_small.
Qed.

Lemma vpage_cons s p l : kmem_inv (vmem s) (p :: l) ->
  exists k, vpage s = Ret p (set_vmem k s) /\ kmem_inv k l.
Proof.
  intros Hk. destruct (kalloc_cons _ _ _ Hk) as (k' & E & Hk' & _). exists k'. split; [|done]. unfold vpage, lift. by rewrite E.
Qed.

Lemma fill_inv k p l : kmem_inv k l -> page_ok p -> p ∉ l -> kmem_inv (set_mem (fill (mem k) p 0 PGSIZE) k) l.
Proof.
  intros [C N F] Hp Hni. split; try done. apply (chain_outside l (mem k) _ _ p); try done; [apply Hp|].
  intros x Hx. by apply fill_out.
Qed.

Lemma run_disk s : is_disk device_reg s = Ret true s.
Proof.
  unfold is_disk. rewrite (bind_step _ _ s 0x74726976 s) by (unfold reg, gets; by rewrite dev_magic).
  cbn [negb Z.eqb Pos.eqb]. rewrite (bind_step _ _ s 2 s) by (unfold reg, gets; by rewrite dev_version).
  cbn [negb Z.eqb Pos.eqb]. rewrite (bind_step _ _ s 2 s) by (unfold reg, gets; by rewrite dev_disk).
  cbn [negb Z.eqb Pos.eqb]. rewrite (bind_step _ _ s 0x554d4551 s) by (unfold reg, gets; by rewrite dev_vendor). done.
Qed.

Lemma run_features s : mmio s = [] ->
  init_features device_reg s = Ret 11 (set_mmio (take 5 (init_writes 0 0 0)) s).
Proof.
  intros Hm. unfold init_features, reg, set_reg. unfold bind, gets, modify. cbv zeta. cbn [mmio set_mmio]. rewrite Hm.
  rewrite dev_status. reflexivity.
Qed.

Lemma run_queue s p1 p2 p3 l : mmio s = take 5 (init_writes 0 0 0) -> kmem_inv (vmem s) (p1 :: p2 :: p3 :: l) ->
  exists k, init_queue device_reg s = Ret tt (VB (take 14 (init_writes p1 p2 p3)) k p1 p2 p3 (q_free s)) /\ kmem_inv k l /\
    forall p x, p ∈ [p1; p2; p3] -> p <= x < p + PGSIZE -> mem k x = 0.
Proof.
  intros Hm Hk. pose proof (inv_pages _ _ Hk) as Hp. rewrite !Forall_cons in Hp. destruct Hp as (P1 & P2 & P3 & _).
  pose proof (inv_nodup _ _ Hk) as Hn. rewrite !NoDup_cons in Hn. destruct Hn as (N1 & N2 & N3 & _).
  rewrite !not_elem_of_cons in *. destruct N1 as (N12 & N13 & N1), N2 as (N23 & N2).
  set (s1 := set_mmio (mmio s ++ [(VIRTIO_MMIO_QUEUE_SEL, 0)]) s).
  destruct (vpage_cons s1 _ _ Hk) as (k1 & E1 & K1). destruct (vpage_cons (set_vmem k1 s1) _ _ K1) as (k2 & E2 & K2).
  destruct (vpage_cons (set_vmem k2 (set_vmem k1 s1)) _ _ K2) as (k3 & E3 & K3).
  set (zero := fun k p => set_mem (fill (mem k) p 0 PGSIZE) k).
  exists (zero (zero (zero k3 p1) p2) p3). split; [|split].
  - unfold init_queue. rewrite (bind_step _ _ s tt s1) by done.
    rewrite (bind_step _ _ s1 0 s1); [|unfold reg, gets; rewrite dev_unused; [done|]].
    2: { intros v. unfold s1. cbn [mmio set_mmio]. rewrite Hm. cbn. rewrite !elem_of_cons, elem_of_nil.
         unfold VIRTIO_MMIO_QUEUE_READY, VIRTIO_MMIO_STATUS, VIRTIO_MMIO_QUEUE_SEL, VIRTIO_MMIO_DRIVER_FEATURES. intuition congruence. }
    rewrite (bind_step _ _ s1 tt s1) by done.
    set (q := device_reg (mmio s1) VIRTIO_MMIO_QUEUE_NUM_MAX). pose proof (dev_queue (mmio s1)) as Hq. fold q in Hq.
    rewrite (bind_step _ _ s1 q s1) by (unfold reg, gets; fold q; by rewrite wrap_small by (unfold NUM in Hq; lia)).
    rewrite (bind_step _ _ s1 tt s1) by (unfold assert_or; rewrite (proj2 (Z.eqb_neq q 0)) by (unfold NUM in Hq; lia); done).
    rewrite (bind_step _ _ s1 tt s1) by (unfold assert_or; rewrite (proj2 (Z.ltb_ge q NUM)) by lia; done).
    rewrite (bind_step _ _ _ _ _ E1), (bind_step _ _ _ _ _ E2), (bind_step _ _ _ _ _ E3).
    unfold bind, modify, vzero, set_reg, assert_or. rewrite !(proj2 (Z.eqb_neq _ 0)) by (apply page_ok_range in P1, P2, P3; lia).
    destruct (page_halves _ P1) as [L1 H1], (page_halves _ P2) as [L2 H2], (page_halves _ P3) as [L3 H3].
    cbn -[u32 Z.shiftr]. rewrite L1, L2, L3, H1, H2, H3, Hm. reflexivity.
  - repeat apply fill_inv; done.
  - intros p x Hin Hx. cbn. pose proof (page_disjoint p) as Hd. unfold PGSIZE in *.
    destruct (decide (p = p3)) as [-> |]; [by rewrite fill_in|]. rewrite fill_out by (apply (Hd p3); try done; [|apply P3];
      rewrite !elem_of_cons in Hin; destruct Hin as [-> |[-> |[-> |?%elem_of_nil]]]; try done; [apply P1|apply P2]).
    destruct (decide (p = p2)) as [-> |]; [by rewrite fill_in|].
    rewrite !elem_of_cons in Hin. destruct Hin as [-> |[-> |[-> |?%elem_of_nil]]]; try done.
    rewrite fill_out by (apply (Hd p2); try done; [apply P1|apply P2]). by rewrite fill_in.
Qed.

Lemma run_free n : forall i s, for_loop n i (fun i => modify (set_qfree i)) s =
  Ret tt (VB (mmio s) (vmem s) (q_desc s) (q_avail s) (q_used s)
    (fun x => (i <=? x) && (x <? i + Z.of_nat n) || q_free s x)).
Proof.
  induction n as [|n IH]; intros i s; cbn [for_loop].
  - destruct s. cbn. unfold ret. repeat f_equal. extensionality x. zbool; cbn; done || lia.
  - rewrite (bind_step _ _ s tt (set_qfree i s)) by done. rewrite IH. cbn. repeat f_equal. extensionality x. unfold fupd.
    zbool; cbn; done || lia.
Qed.

(** With such a device and three free pages virtio_disk_init returns: it
    writes exactly [init_writes] (so it accepts no feature it declines and only
    offered ones, by [negotiate_bits], and announces three distinct zeroed pages
    and a queue of NUM descriptors before setting DRIVER_OK), and marks all NUM
    descriptors free. *)
Theorem virtio_disk_init_correct k p1 p2 p3 l : kmem_inv k (p1 :: p2 :: p3 :: l) ->
  exists k', virtio_disk_init device_reg (VB [] k 0 0 0 (fun _ => false)) =
    Ret tt (VB (init_writes p1 p2 p3) k' p1 p2 p3 (dfree (virtio_init (fun _ => 0) (fun _ _ => 0) (fun _ => 0)))) /\
    kmem_inv k' l /\ forall p x, p ∈ [p1; p2; p3] -> p <= x < p + PGSIZE -> mem k' x = 0.
Proof.
  intros Hk. set (s := VB _ _ _ _ _ _). unfold virtio_disk_init.
  rewrite (bind_step _ _ s true s) by apply run_disk.
  rewrite (bind_step _ _ s tt s) by done. rewrite (bind_step _ _ _ _ _ (run_features s eq_refl)).
  destruct (run_queue (set_mmio (take 5 (init_writes 0 0 0)) s) p1 p2 p3 l eq_refl Hk) as (k' & E & Hk' & Hz).
  rewrite (bind_step _ _ _ _ _ E). exists k'. split; [|done]. change (Z.to_nat NUM) with 8%nat.
  rewrite (bind_step _ _ _ _ _ (run_free 8 0 _)). unfold set_reg, modify. cbn [mmio vmem q_desc q_avail q_used q_free set_mmio s].
  f_equal. unfold set_mmio. cbn [mmio vmem q_desc q_avail q_used q_free]. f_equal. cbn [virtio_init dfree]. extensionality i. by rewrite orb_false_r.
Qed.
End setup.
