(* ===== verification/VmSpace.v ===== *)
(** * The life of an address space: creation, guard pages, destruction

    freewalk frees exactly the tables of a tree without leaves; with it
    proc_pagetable and proc_freepagetable, and the steps that change only the
    permissions of entries. What belongs to no page involved stays as it is. *)
From stdpp Require Import base list numbers strings relations.
From Stdlib Require Import ZArith Lia FunctionalExtensionality.
From S2P Require Import Prelude Memlayout Kalloc Vm VmTables VmUser VmAlloc.

Definition RWX : Z := Z.lor (Z.lor PTE_R PTE_W) PTE_X.

Section trees.
Context `{KernelEnd}.
Implicit Types m : bytes.

(** The tables of the tree at [t] with [lvl] levels, children first *)
Fixpoint tables (lvl : nat) (m : bytes) (t : Z) : list Z :=
  match lvl with
  | O => []
  | S n => (seqZ 0 512 ≫= fun i => if has (ld64 m (t + 8 * i)) PTE_V then tables n m (PTE2PA (ld64 m (t + 8 * i))) else []) ++ [t]
  end.

(** What freewalk accepts: no leaves, and no entry below the last level *)
Fixpoint leafless (lvl : nat) (m : bytes) (t : Z) : Prop :=
  match lvl with
  | O => False
  | S n => forall i, idx_ok i -> has (ld64 m (t + 8 * i)) PTE_V = true ->
      Z.land (ld64 m (t + 8 * i)) RWX = 0 /\ leafless n m (PTE2PA (ld64 m (t + 8 * i)))
  end.

(** The part of the tree below the entries [i], [i + 1], ... *)
Definition below (n : nat) m (t i : Z) : list Z :=
  if has (ld64 m (t + 8 * i)) PTE_V then tables n m (PTE2PA (ld64 m (t + 8 * i))) else [].
Definition rest (n : nat) m (t i : Z) (c : nat) : list Z := seqZ i (Z.of_nat c) ≫= below n m t.

Lemma tables_S n m t : tables (S n) m t = rest n m t 0 512 ++ [t].
Proof. done. Qed.
Lemma rest_S n m t i c : rest n m t i (S c) = below n m t i ++ rest n m t (i + 1) c.
Proof. unfold rest. rewrite seqZ_cons by lia. cbn. do 3 f_equal; lia. Qed.
Lemma elem_of_rest n m t i c y : y ∈ rest n m t i c <-> exists j, i <= j < i + Z.of_nat c /\ y ∈ below n m t j.
Proof. unfold rest. rewrite list_elem_of_bind. setoid_rewrite elem_of_seqZ. split; intros (j & ? & ?); by exists j. Qed.
Lemma bind_ext_in {A B} (f g : A -> list B) l : (forall x, x ∈ l -> f x = g x) -> l ≫= f = l ≫= g.
Proof. induction l as [|x l IH]; intros Hx; [done|]. cbn. rewrite Hx by (by left). f_equal. apply IH. intros y Hy. apply Hx. by right. Qed.

(** The tables and the absence of leaves depend only on the tables themselves. *)
Lemma tree_frame n : forall m m' t, (forall y x, y ∈ tables n m t -> in_page y x -> m' x = m x) -> Forall page_ok (tables n m t) ->
  tables n m' t = tables n m t /\ (leafless n m t -> leafless n m' t).
Proof.
  induction n as [|n IH]; intros m m' t Hf Hp; [done|].
  assert (t ∈ tables (S n) m t) as Ht by (rewrite tables_S; apply elem_of_app; right; by left).
  assert (page_ok t) as Hpt by (by eapply Forall_forall in Hp).
  assert (forall i, idx_ok i -> ld64 m' (t + 8 * i) = ld64 m (t + 8 * i)) as Hs.
  { intros i Hi. apply ld_ext. intros x Hx. apply (Hf t x Ht), (slot_in t i x Hpt Hi). lia. }
  assert (forall i, idx_ok i -> has (ld64 m (t + 8 * i)) PTE_V = true ->
    tables n m' (PTE2PA (ld64 m (t + 8 * i))) = tables n m (PTE2PA (ld64 m (t + 8 * i))) /\
    (leafless n m (PTE2PA (ld64 m (t + 8 * i))) -> leafless n m' (PTE2PA (ld64 m (t + 8 * i))))) as Hc.
  { intros i Hi Hv. assert (forall y, y ∈ tables n m (PTE2PA (ld64 m (t + 8 * i))) -> y ∈ tables (S n) m t) as Hin.
    { intros y Hy. rewrite tables_S. apply elem_of_app. left. apply elem_of_rest. exists i. unfold idx_ok in Hi.
      split; [lia|]. unfold below. by rewrite Hv. }
    apply IH; [intros y x Hy; by apply Hf, Hin|]. apply Forall_forall. intros y Hy. eapply Forall_forall in Hp; [done|by apply Hin]. }
  split.
  - rewrite !tables_S. f_equal. unfold rest. apply bind_ext_in. intros i Hi%elem_of_seqZ.
    unfold below. rewrite Hs by (unfold idx_ok; lia). destruct (has _ _) eqn:Hv; [|done]. apply Hc; [unfold idx_ok; lia|done].
  - intros Hl i Hi. rewrite Hs by done. intros Hv. destruct (Hl i Hi Hv) as [H1 H2]. split; [done|]. by apply Hc.
Qed.

Definition no_leaves (n : nat) m (t i : Z) (c : nat) : Prop := forall j, i <= j < i + Z.of_nat c ->
  has (ld64 m (t + 8 * j)) PTE_V = true -> Z.land (ld64 m (t + 8 * j)) RWX = 0 /\ leafless n m (PTE2PA (ld64 m (t + 8 * j))).

Lemma rest_frame n m m' t i c : (forall j, i <= j < i + Z.of_nat c -> ld64 m' (t + 8 * j) = ld64 m (t + 8 * j)) ->
  (forall y x, y ∈ rest n m t i c -> in_page y x -> m' x = m x) -> Forall page_ok (rest n m t i c) ->
  rest n m' t i c = rest n m t i c /\ (no_leaves n m t i c -> no_leaves n m' t i c).
Proof.
  intros Hs Hf Hp.
  assert (forall j, i <= j < i + Z.of_nat c -> has (ld64 m (t + 8 * j)) PTE_V = true ->
    tables n m' (PTE2PA (ld64 m (t + 8 * j))) = tables n m (PTE2PA (ld64 m (t + 8 * j))) /\
    (leafless n m (PTE2PA (ld64 m (t + 8 * j))) -> leafless n m' (PTE2PA (ld64 m (t + 8 * j))))) as Hc.
  { intros j Hj Hv. assert (forall y, y ∈ tables n m (PTE2PA (ld64 m (t + 8 * j))) -> y ∈ rest n m t i c) as Hin.
    { intros y Hy. apply elem_of_rest. exists j. split; [done|]. unfold below. by rewrite Hv. }
    apply tree_frame; [intros y x Hy; by apply Hf, Hin|]. apply Forall_forall. intros y Hy. eapply Forall_forall in Hp; [done|by apply Hin]. }
  split.
  - apply bind_ext_in. intros j Hj%elem_of_seqZ. unfold below. rewrite Hs by done. destruct (has _ _) eqn:Hv; [|done]. by apply Hc.
  - intros Hl j Hj. rewrite Hs by done. intros Hv. destruct (Hl j Hj Hv) as [H1 H2]. split; [done|]. by apply Hc.
Qed.

(** What freeing the pages [fr] leaves *)
Definition freed (fr : list Z) (k : kmem) (l : list Z) (k' : kmem) (l' : list Z) : Prop :=
  kmem_inv k' l' /\ (l' ≡ₚ (fr ++ l)) /\ (bytes_ok (mem k) -> bytes_ok (mem k')).

Definition walked (n : nat) : Prop := forall t k l, kmem_inv k l -> leafless n (mem k) t ->
  Forall page_ok (tables n (mem k) t) -> NoDup (tables n (mem k) t ++ l) ->
  exists k' l', freewalk n t k = Ret tt k' /\ freed (tables n (mem k) t) k l k' l' /\
    forall x, (forall y, y ∈ tables n (mem k) t -> ~ in_page y x) -> mem k' x = mem k x.

Definition freewalk_body (n : nat) (t i : Z) : M kmem unit :=
  pte <- load64 (t + 8 * i) ;;
  if has pte PTE_V && (Z.land pte RWX =? 0) then freewalk n (PTE2PA pte) ;;; store64 (t + 8 * i) 0
  else if has pte PTE_V then panic "freewalk: leaf"
  else ret tt.

Lemma freewalk_S n t : freewalk (S n) t = (for_loop 512 0 (freewalk_body n t) ;;; kfree t).
Proof. cbn [freewalk]. unfold freewalk_body, RWX. reflexivity. Qed.

Lemma freewalk_entry n t i k l : walked n -> page_ok t -> idx_ok i -> kmem_inv k l -> no_leaves n (mem k) t i 1 ->
  Forall page_ok (below n (mem k) t i) -> NoDup (below n (mem k) t i ++ t :: l) ->
  exists k' l', freewalk_body n t i k = Ret tt k' /\ freed (below n (mem k) t i) k l k' l' /\
    (forall j, idx_ok j -> j <> i -> ld64 (mem k') (t + 8 * j) = ld64 (mem k) (t + 8 * j)) /\
    forall x, (forall y, y ∈ below n (mem k) t i -> ~ in_page y x) -> ~ in_page t x -> mem k' x = mem k x.
Proof.
  intros Hw Ht Hi Hk Hl Hp Hn. unfold freewalk_body. set (v := ld64 (mem k) (t + 8 * i)).
  rewrite (bind_step _ _ k v k) by done. unfold below in *. fold v in Hp, Hn |- *.
  destruct (has v PTE_V) eqn:Hv; cbn [andb].
  2: { exists k, l. split; [done|]. split; [by split|done]. }
  destruct (Hl i ltac:(lia) Hv) as [HR Hc]. fold v in HR, Hc. rewrite HR. cbn [Z.eqb].
  apply NoDup_app in Hn as (N1 & N2 & N3). apply NoDup_cons in N3 as [N3 N4].
  assert (t ∉ tables n (mem k) (PTE2PA v)) as Htn by (intros Hin; by apply (N2 t Hin); left).
  destruct (Hw (PTE2PA v) k l Hk Hc Hp) as (k1 & l1 & E1 & (F1 & F2 & F3) & F4).
  { apply NoDup_app. split; [done|]. split; [|done]. intros x Hx Hin. apply (N2 x Hx). by right. }
  rewrite (bind_step _ _ _ _ _ E1).
  assert (t ∉ l1) as Htl by (rewrite F2, elem_of_app; tauto).
  assert (forall x, in_page t x -> mem k1 x = mem k x) as Hsame.
  { intros x Hx. apply F4. intros y Hy Hyx. eapply Forall_forall in Hp; [|exact Hy].
    destruct (page_apart t y x Ht Hp) as [?|?]; [by intros ->|done|unfold in_page in Hyx; lia..]. }
  exists (set_mem (st64 (mem k1) (t + 8 * i) 0) k1), l1. split; [done|]. split; [|split].
  - split; [apply (kmem_inv_write k1 l1 t); try done; by apply slot_outside|]. split; [done|].
    intros Hb. apply st_bytes_ok, F3, Hb.
  - intros j Hj Hne. cbn [mem set_mem]. rewrite ld_st_other by lia. apply ld_ext. intros x Hx. apply Hsame, (slot_in t j x Ht Hj). lia.
  - intros x Hx Hxt. cbn [mem set_mem]. rewrite slot_outside by (try done; unfold in_page in Hxt; lia). by apply F4.
Qed.

Lemma freewalk_loop n t : walked n -> page_ok t -> forall c i k l, 0 <= i -> i + Z.of_nat c = 512 -> kmem_inv k l ->
  no_leaves n (mem k) t i c -> Forall page_ok (rest n (mem k) t i c) -> NoDup (rest n (mem k) t i c ++ t :: l) ->
  exists k' l', for_loop c i (freewalk_body n t) k = Ret tt k' /\ freed (rest n (mem k) t i c) k l k' l' /\
    forall x, (forall y, y ∈ rest n (mem k) t i c -> ~ in_page y x) -> ~ in_page t x -> mem k' x = mem k x.
Proof.
  intros Hw Ht. induction c as [|c IH]; intros i k l Hi Hc Hk Hl Hp Hn; cbn [for_loop].
  { exists k, l. split; [done|]. split; [by split|done]. }
  rewrite rest_S in Hp, Hn |- *. apply Forall_app in Hp as [Hp1 Hp2]. rewrite <- app_assoc in Hn.
  pose proof Hn as (N1 & N2 & N3)%NoDup_app. pose proof N3 as (N4 & N5 & N6)%NoDup_app.
  destruct (freewalk_entry n t i k l) as (k1 & l1 & E1 & (F1 & F2 & F3) & F4 & F5); try done; [unfold idx_ok; lia| | |].
  { intros j Hj. apply Hl. lia. }
  { apply NoDup_app. split; [done|]. split; [|done]. intros x Hx Hin. apply (N2 x Hx), elem_of_app. by right. }
  assert (forall y x, y ∈ rest n (mem k) t (i + 1) c -> in_page y x -> mem k1 x = mem k x) as Hfr.
  { intros y x Hy Hyx. assert (page_ok y) as Hpy by (by eapply Forall_forall in Hp2). apply F5.
    - intros z Hz Hzx. assert (page_ok z) as Hpz by (by eapply Forall_forall in Hp1).
      destruct (page_apart y z x Hpy Hpz) as [?|?]; [|done|unfold in_page in Hzx; lia..].
      intros ->. apply (N2 z Hz), elem_of_app. by left.
    - intros Htx. destruct (page_apart y t x Hpy Ht) as [?|?]; [|done|unfold in_page in Htx; lia..].
      intros ->. apply (N5 t Hy). by left. }
  destruct (rest_frame n (mem k) (mem k1) t (i + 1) c) as [Er El]; [|done|done|].
  { intros j Hj. apply F4; [unfold idx_ok; lia|lia]. }
  destruct (IH (i + 1) k1 l1) as (k2 & l2 & E2 & (G1 & G2 & G3) & G4); try done; try lia.
  { apply El. intros j Hj. apply Hl. lia. }
  { by rewrite Er. }
  { rewrite Er, F2. eapply NoDup_Permutation_proper; [|exact Hn]. solve_Permutation. }
  rewrite (bind_step _ _ _ _ _ E1). exists k2, l2. rewrite Er in G2, G4. split; [done|]. split.
  - split; [done|]. split; [rewrite G2, F2; solve_Permutation|]. intros Hb. by apply G3, F3.
  - intros x Hx Hxt. rewrite G4, F5; try done; intros y Hy; apply Hx, elem_of_app; [by left|by right].
Qed.

(** freewalk returns and frees exactly the tables of the tree. *)
Lemma freewalk_run n : walked n.
Proof.
  induction n as [|n IH]; intros t k l Hk Hl Hp Hn; [done|]. rewrite tables_S in Hp, Hn |- *.
  apply Forall_app in Hp as [Hp1 Hp2]. rewrite Forall_singleton in Hp2. rewrite <- app_assoc in Hn.
  destruct (freewalk_loop n t IH Hp2 512 0 k l ltac:(lia) ltac:(lia) Hk) as (k1 & l1 & E1 & (F1 & F2 & F3) & F4); try done.
  apply NoDup_app in Hn as (N1 & N2 & N3). cbn in N3. apply NoDup_cons in N3 as [N3 N4].
  assert (t ∉ l1) as Htl.
  { rewrite F2, elem_of_app. intros [Hin|Hin]; [|done]. apply (N2 t Hin). by left. }
  destruct (kfree_ok k1 l1 t F1 Hp2 Htl) as (k2 & E2 & G1 & G2).
  exists k2, (t :: l1). rewrite freewalk_S.
  split; [by rewrite (bind_step _ _ _ _ _ E1)|]. split.
  - split; [done|]. split; [clear - F2; revert F2; generalize (rest n (mem k) t 0 512); intros r ->; solve_Permutation|]. intros Hb.
    unfold kfree in E2. destruct (_ || _); [done|]. unfold bind, modify in E2. injection E2 as <-.
    apply st_bytes_ok, fill_bytes_ok, F3, Hb.
  - intros x Hx. rewrite G2, F4; try done.
    + intros y Hy. apply Hx, elem_of_app. by left.
    + apply Hx, elem_of_app. right. by left.
    + assert (~ in_page t x) as Hxt by (apply Hx, elem_of_app; right; by left). unfold in_page in Hxt. lia.
Qed.

(** *** The tree of a page table *)

Lemma elem_of_tables n : forall m t y, y ∈ tables n m t <->
  exists q, (length q < n)%nat /\ Forall idx_ok q /\ node m t q = Some y.
Proof.
  induction n as [|n IH]; intros m t y; [split; [by intros ?%elem_of_nil|intros (q & ? & _); lia]|].
  rewrite tables_S, elem_of_app, elem_of_rest, list_elem_of_singleton. split.
  - intros [(i & Hi & Hy)|Hyt]; [|exists []; split; [cbn; lia|by rewrite Hyt]]. unfold below in Hy.
    destruct (has _ _) eqn:Hv; [|by apply elem_of_nil in Hy]. apply IH in Hy as (q & Hq & Hf & E).
    exists (i :: q). split; [cbn; lia|]. split; [constructor; [unfold idx_ok; lia|done]|]. cbn. by rewrite Hv.
  - intros ([|i q] & Hq & Hf & E); [right; cbn in E; congruence|]. left. apply Forall_cons in Hf as [Hi Hf]. cbn in E, Hq.
    destruct (has _ _) eqn:Hv; [|done]. exists i. unfold idx_ok in Hi. split; [lia|]. unfold below. rewrite Hv.
    apply IH. exists q. split; [lia|done].
Qed.

Lemma NoDup_bind {A B} (f : A -> list B) l : NoDup l -> (forall x, x ∈ l -> NoDup (f x)) ->
  (forall x y b, x ∈ l -> y ∈ l -> b ∈ f x -> b ∈ f y -> x = y) -> NoDup (l ≫= f).
Proof.
  induction l as [|x l IH]; intros Hn Hf Hd; cbn; [constructor|]. apply NoDup_cons in Hn as [Hx Hn]. apply NoDup_app. split; [|split].
  - apply Hf. by left.
  - intros b Hb (y & Hby & Hy)%list_elem_of_bind. assert (x = y) as ->; [|done]. apply (Hd x y b); [by left|by right|done..].
  - apply IH; [done| |].
    + intros y Hy. apply Hf. by right.
    + intros y z b Hy Hz. apply Hd; by right.
Qed.

Lemma NoDup_tables n : forall m t, (forall p q x, (length p < n)%nat -> (length q < n)%nat -> Forall idx_ok p -> Forall idx_ok q ->
  node m t p = Some x -> node m t q = Some x -> p = q) -> NoDup (tables n m t).
Proof.
  induction n as [|n IH]; intros m t Hj; [constructor|]. rewrite tables_S.
  assert (forall i b, 0 <= i < 512 -> b ∈ below n m t i -> exists q, (length (i :: q) < S n)%nat /\ Forall idx_ok (i :: q) /\ node m t (i :: q) = Some b) as Hb.
  { intros i b Hi Hin. unfold below in Hin. destruct (has _ _) eqn:Hv; [|by apply elem_of_nil in Hin].
    apply elem_of_tables in Hin as (q & Hq & Hf & E). exists q. split; [cbn; lia|]. split; [constructor; [unfold idx_ok; lia|done]|].
    cbn. by rewrite Hv. }
  apply NoDup_app. split; [|split; [|apply NoDup_singleton]].
  - apply NoDup_bind; [apply NoDup_seqZ| |].
    + intros i Hi%elem_of_seqZ. unfold below. destruct (has _ _) eqn:Hv; [|constructor]. apply IH. intros p q x Hp Hq Fp Fq E1 E2.
      assert (i :: p = i :: q) as E; [|by injection E].
      apply (Hj _ _ x); cbn; try lia; try (constructor; [unfold idx_ok; lia|done]); by rewrite Hv.
    + intros i j b Hi%elem_of_seqZ Hjj%elem_of_seqZ Bi Bj. destruct (Hb i b ltac:(lia) Bi) as (p & P1 & P2 & P3).
      destruct (Hb j b ltac:(lia) Bj) as (q & Q1 & Q2 & Q3). assert (i :: p = j :: q) as E by by eapply Hj. by injection E.
  - intros b (i & Hi & Bi)%elem_of_rest Hbt%list_elem_of_singleton. subst b. destruct (Hb i t ltac:(lia) Bi) as (p & P1 & P2 & P3).
    assert (i :: p = []) as E; [|done]. apply (Hj _ _ t); try done. cbn. lia.
Qed.

Lemma leafless_nodes n : forall m t, (0 < n)%nat ->
  (forall q i u, (length q < n)%nat -> Forall idx_ok (q ++ [i]) -> node m t q = Some u -> has (ld64 m (u + 8 * i)) PTE_V = true ->
     (S (length q) < n)%nat /\ Z.land (ld64 m (u + 8 * i)) RWX = 0) -> leafless n m t.
Proof.
  induction n as [|n IH]; intros m t Hn Hx; [lia|]. intros i Hi Hv.
  destruct (Hx [] i t) as [H1 H2]; [cbn; lia|by apply Forall_singleton|done|done|]. cbn in H1. split; [done|].
  apply IH; [lia|]. intros q j u Hq Hf E Hv'. destruct (Hx (i :: q) j u) as [H3 H4]; [cbn; lia|by constructor| |done|cbn in H3; split; [lia|done]].
  cbn. by rewrite Hv.
Qed.

(** The address whose indices are [i2], [i1] and [i0] *)
Lemma px_address i2 i1 i0 : 0 <= i2 < 256 -> idx_ok i1 -> idx_ok i0 -> let va := ((i2 * 512 + i1) * 512 + i0) * 4096 in
  0 <= va < MAXVA /\ vidx 2 va = [i2; i1] /\ PX 0 va = i0.
Proof.
  intros H2 H1 H0 va. unfold idx_ok in *. change MAXVA with 274877906944. split; [unfold va; lia|]. unfold vidx.
  rewrite !PX_div by lia. change (2 ^ (12 + 9 * Z.of_nat 2)) with 1073741824. change (2 ^ (12 + 9 * Z.of_nat 1)) with 2097152.
  change (2 ^ (12 + 9 * 0)) with 4096. unfold va. split; [f_equal; [|f_equal]|]; dlia.
Qed.

Lemma pt_tree m root l : pt_wf m root l -> NoDup l -> (forall va, 0 <= va < MAXVA -> has (pte_of m root va) PTE_V = false) ->
  leafless 3 m root /\ Forall page_ok (tables 3 m root) /\ NoDup (tables 3 m root ++ l) /\
  forall y, y ∈ tables 3 m root <-> exists q, tpath q /\ node m root q = Some y.
Proof.
  intros Hw Hnl Hv.
  assert (forall y, y ∈ tables 3 m root <-> exists q, tpath q /\ node m root q = Some y) as Ht.
  { intros y. rewrite elem_of_tables. split; intros (q & Hq); exists q; unfold tpath in *; intuition lia. }
  split; [|split; [|split; [|done]]].
  - apply leafless_nodes; [lia|]. intros q i u Hq Hf E Hu. destruct (decide (length q = 2%nat)) as [H2|H2].
    + exfalso. destruct q as [|i2 [|i1 [|]]]; try done. apply Forall_app in Hf as [Hf Hi]. rewrite Forall_singleton in Hi.
      apply Forall_cons in Hf as [F2 F1]. rewrite Forall_singleton in F1.
      assert (i2 < 256) as Hlow.
      { cbn [node] in E. apply (pw_low _ _ _ Hw i2 (PTE2PA (ld64 m (root + 8 * i2))) F2). cbn [node]. by destruct (has _ _). }
      unfold idx_ok in F2. destruct (px_address i2 i1 i) as (A1 & A2 & A3); [lia|done|done|].
      specialize (Hv _ A1). unfold pte_of, table_of in Hv. rewrite A2, A3, E in Hv. by rewrite Hu in Hv.
    + split; [lia|]. apply (pw_inner _ _ _ Hw q); [|done|done]. split; [rewrite length_app; cbn; lia|done].
  - apply Forall_forall. intros y (q & Hq & E)%Ht. by apply (pw_page _ _ _ Hw q).
  - apply NoDup_app. split; [|split; [|done]].
    + apply NoDup_tables. intros p q x Hp Hq Fp Fq. apply (pw_inj _ _ _ Hw); split; (done || lia).
    + intros y (q & Hq & E)%Ht. by apply (pw_page _ _ _ Hw q).
Qed.
End trees.

(** No byte of the pages [l] *)
Definition outside (l : list Z) (x : Z) : Prop := forall y, y ∈ l -> ~ in_page y x.

(** ** Steps that keep the frames of user pages *)

Section spaces.
Context `{KernelEnd}.
Context (root sz : Z).

(** The tables may have grown; user entries keep validity and frame. *)
Lemma ext_uvm k l k' l' : uvm root sz k l -> ext root k l k' l' ->
  (forall a, 0 <= a < TRAPFRAME -> valid root (mem k') a = valid root (mem k) a /\
     (valid root (mem k) a = true -> frame root (mem k') a = frame root (mem k) a)) ->
  (forall a, TRAPFRAME <= a < MAXVA -> has (pte_of (mem k') root a) PTE_U = false) ->
  uext root sz k l k' l' /\
  forall a, 0 <= a < MAXVA -> pte_of (mem k') root a = pte_of (mem k) root a -> ubyte root (mem k') a = ubyte root (mem k) a.
Proof.
  intros Hu Hx Hv Hh.
  assert (forall a, 0 <= a < TRAPFRAME -> valid root (mem k) a = true ->
    (frame root (mem k) a ∉ l') /\ no_table root (mem k') (frame root (mem k) a) /\
    forall y, in_page (frame root (mem k) a) y -> mem k' y = mem k y) as Hold.
  { intros a Ha Hva. destruct (uv_page _ _ _ _ Hu a Ha Hva) as (Hf & Hfl & Hnt).
    destruct (ext_page root k l k' l' _ Hx Hf Hfl Hnt) as (H1 & H2 & H3). split; [done|]. split; [done|].
    intros y Hy. apply H3; [done|apply Hu|apply Hu]. }
  assert (forall a, 0 <= a < TRAPFRAME -> valid root (mem k') a = true -> valid root (mem k) a = true /\
    frame root (mem k') a = frame root (mem k) a) as Hback.
  { intros a Ha Hva. destruct (Hv a Ha) as [E1 E2]. rewrite E1 in Hva. auto. }
  split; [split; [split|split]|].
  - apply Hx.
  - apply Hx.
  - apply Hx, Hu.
  - apply Hu.
  - intros a Ha Hva. destruct (Hback a Ha Hva) as [Hv0 ->]. destruct (Hold a Ha Hv0) as (H1 & H2 & _).
    split; [|done]. by apply (uv_page _ _ _ _ Hu).
  - intros a b Ha Hb Hva Hvb. destruct (Hback a Ha Hva) as [Ha0 ->], (Hback b Hb Hvb) as [Hb0 ->]. by apply (uv_inj _ _ _ _ Hu).
  - done.
  - intros y [[U1 U2] U3]. split; [by apply Hx|]. destruct Hx as [_ _ (tk & El & T) _ _ _ _]. split; [split|].
    + intros z Hz. apply U1. rewrite El. apply elem_of_app. by right.
    + intros q z Hq E. destruct (T q z Hq E) as [E'|Hin]; [by apply (U2 q)|]. apply U1. rewrite El. apply elem_of_app. by left.
    + intros a Ha Hva. destruct (Hback a Ha Hva) as [Hv0 ->]. by apply U3.
  - intros y [[U1 U2] U3]. split; [split|].
    + intros z Hz. destruct (ex_used _ _ _ _ _ Hx z Hz) as [Hin|(q & Hq & E)]; [by apply U1|by apply (U2 q)].
    + intros q z Hq E. apply (U2 q); [done|]. by apply (ex_mono _ _ _ _ _ Hx).
    + intros a Ha Hva. destruct (Hv a Ha) as [E1 E2]. rewrite <- (E2 Hva). apply U3; [done|]. by rewrite E1.
  - intros a Ha Ep. unfold ubyte. assert (readable root (mem k') a = readable root (mem k) a) as -> by (unfold readable, valid; by rewrite Ep).
    destruct (readable root (mem k) a) eqn:Hr; [|done]. destruct (readable_low root sz _ _ _ Hu Hr) as (Hl & Hva & _).
    assert (frame root (mem k') a = frame root (mem k) a) as -> by (unfold frame; by rewrite Ep).
    apply (Hold a Hl Hva). unfold in_page, PGSIZE. dlia.
Qed.

Lemma ubyte_outside k l a : uvm root sz k l -> a < 0 \/ TRAPFRAME <= a -> ubyte root (mem k) a = 0.
Proof.
  intros Hu Ha. unfold ubyte. destruct (readable root (mem k) a) eqn:Hr; [|done].
  destruct (readable_low root sz _ _ _ Hu Hr) as (? & _). lia.
Qed.

(** ext_uvm where the entries of readable pages do not change *)
Lemma ext_same_bytes k l k' l' : uvm root sz k l -> ext root k l k' l' ->
  (forall a, 0 <= a < TRAPFRAME -> pte_of (mem k') root a = pte_of (mem k) root a) ->
  (forall a, TRAPFRAME <= a < MAXVA -> has (pte_of (mem k') root a) PTE_U = false) ->
  uext root sz k l k' l' /\ forall a, ubyte root (mem k') a = ubyte root (mem k) a.
Proof.
  intros Hu Hx Hp Hh. destruct trapframe_max as [T1 T2].
  destruct (ext_uvm k l k' l' Hu Hx) as [X B]; [|done|].
  { intros a Ha. unfold valid, frame. by rewrite Hp. }
  split; [done|]. intros a. destruct (decide (0 <= a < TRAPFRAME)) as [Ha|Ha]; [apply B; [lia|by apply Hp]|].
  rewrite (ubyte_outside k l) by (done || lia). apply (ubyte_outside k' l'); [apply X|lia].
Qed.

(** uvmunmap(pagetable, va, 1, 0) of a page above the user's *)
Lemma unmap_high va k l : uvm root sz k l -> va mod PGSIZE = 0 -> TRAPFRAME <= va < MAXVA ->
  exists k', uvmunmap root va 1 false k = Ret tt k' /\ uext root sz k l k' l /\
    (forall a, ubyte root (mem k') a = ubyte root (mem k) a) /\
    (forall a, 0 <= a < MAXVA -> a / 4096 <> va / 4096 -> pte_of (mem k') root a = pte_of (mem k) root a) /\
    (forall a, 0 <= a < MAXVA -> a / 4096 = va / 4096 -> has (pte_of (mem k') root a) PTE_V = false).
Proof.
  intros Hu Hal Hva. destruct trapframe_max as [T1 T2]. unfold uvmunmap. rewrite Hal. cbn [negb Z.eqb].
  change (Z.to_nat 1 + 1)%nat with 2%nat. rewrite wrap_small by (unfold PGSIZE; lia).
  assert (forall k2, loop 1 (uvmunmap_body root (va + 1 * PGSIZE) false) (u64 (va + PGSIZE)) k2 = Ret tt k2) as Hlast.
  { intros k2. cbn [loop]. unfold uvmunmap_body. rewrite wrap_small by (unfold PGSIZE; lia).
    by rewrite (proj2 (Z.ltb_ge (va + PGSIZE) _)) by lia. }
  cbn [loop]. unfold uvmunmap_body at 1. rewrite (proj2 (Z.ltb_lt va _)) by (unfold PGSIZE; lia).
  unfold bind at 1 2. rewrite (walk_pure root va k) by lia.
  assert (forall a, a / 4096 = va / 4096 -> pte_of (mem k) root a = pte_of (mem k) root va) as Hsame by (intros; by apply pte_of_vpn).
  destruct (table_of (mem k) root va) as [u|] eqn:Et.
  - destruct (table_slot root k l va u (uv_pt _ _ _ _ Hu) Et) as [Hnz Hld]. rewrite Hnz. cbv beta.
    unfold load64, gets, bind. rewrite Hld. destruct (has (pte_of (mem k) root va) PTE_V) eqn:Hv; cbn [negb].
    + destruct (store_pte root k l va u 0 (uv_inv _ _ _ _ Hu) (uv_pt _ _ _ _ Hu) ltac:(lia) Et ltac:(lia)) as (k' & E & Hx & Hp).
      unfold when, ret. cbn [negb]. rewrite E. exists k'. split; [apply Hlast|].
      destruct (ext_same_bytes k l k' l Hu Hx) as [X B].
      * intros a Ha. rewrite Hp by lia. rewrite (proj2 (Z.eqb_neq _ _)); [done|]. dlia.
      * intros a Ha. rewrite Hp by lia. destruct (a / 4096 =? va / 4096); [done|]. by apply (uv_high _ _ _ _ Hu).
      * split; [done|]. split; [done|]. split; intros a Ha Hn; rewrite Hp by done.
        -- by rewrite (proj2 (Z.eqb_neq _ _)).
        -- by rewrite (proj2 (Z.eqb_eq _ _)).
    + exists k. split; [apply Hlast|]. split; [by apply uext_refl|]. split; [done|]. split; [done|]. intros a _ Ea. by rewrite Hsame.
  - cbn [Z.eqb]. exists k. split; [apply Hlast|]. split; [by apply uext_refl|]. split; [done|]. split; [done|]. intros a _ Ea.
    rewrite Hsame by done. unfold pte_of. by rewrite Et.
Qed.

Lemma clear_u v : has (Z.land v (Z.lnot PTE_U)) PTE_V = has v PTE_V /\ PTE2PA (Z.land v (Z.lnot PTE_U)) = PTE2PA v /\
  has (Z.land v (Z.lnot PTE_U)) PTE_U = false.
Proof.
  unfold has, PTE2PA. rewrite <- !Z.land_assoc. change (Z.land (Z.lnot PTE_U) PTE_V) with PTE_V.
  change (Z.land (Z.lnot PTE_U) PTE_U) with 0. rewrite Z.land_0_r. split; [done|]. split; [|done].
  rewrite Z.shiftr_land. change (Z.shiftr (Z.lnot PTE_U) 10) with (-1). by rewrite Z.land_m1_r.
Qed.

(** uvmclear on a mapped page: the page is no longer the user's. *)
Lemma uvmclear_run va k l : uvm root sz k l -> 0 <= va < TRAPFRAME -> valid root (mem k) va = true ->
  exists k', uvmclear root va k = Ret tt k' /\ uext root sz k l k' l /\
    (forall a, 0 <= a < MAXVA -> pte_of (mem k') root a =
       if a / 4096 =? va / 4096 then Z.land (pte_of (mem k) root va) (Z.lnot PTE_U) else pte_of (mem k) root a) /\
    (forall a, ubyte root (mem k') a = if a / 4096 =? va / 4096 then 0 else ubyte root (mem k) a).
Proof.
  intros Hu Hva Hv. destruct trapframe_max as [T1 T2]. unfold uvmclear. unfold bind at 1. rewrite walk_pure by lia.
  destruct (table_of (mem k) root va) as [u|] eqn:Et; [|by unfold valid, pte_of in Hv; rewrite Et in Hv].
  destruct (table_slot root k l va u (uv_pt _ _ _ _ Hu) Et) as [Hnz Hld]. rewrite Hnz. cbv beta.
  unfold load64, gets, bind. rewrite Hld. set (v := pte_of (mem k) root va) in *. destruct (clear_u v) as (C1 & C2 & C3).
  assert (0 <= v < 2 ^ 64) as Hvr by (rewrite <- Hld; apply (ld_range 8), Hu).
  assert (0 <= Z.land v (Z.lnot PTE_U) < 2 ^ 64) as Hr.
  { enough (0 <= Z.land v (Z.lnot PTE_U) <= v) by lia. apply Z.ldiff_le; [lia|]. apply Z.bits_inj'. intros n Hn.
    rewrite Z.ldiff_spec, Z.land_spec, Z.bits_0. by destruct (Z.testbit v n), (Z.testbit (Z.lnot PTE_U) n). }
  destruct (store_pte root k l va u _ (uv_inv _ _ _ _ Hu) (uv_pt _ _ _ _ Hu) ltac:(lia) Et Hr) as (k' & E & Hx & Hp).
  exists k'. split; [done|].
  assert (forall a, a / 4096 = va / 4096 -> pte_of (mem k) root a = v) as Hsame by (intros; by apply pte_of_vpn).
  destruct (ext_uvm k l k' l Hu Hx) as [X B].
  - intros a Ha. unfold valid, frame. rewrite !Hp by lia. destruct (Z.eqb_spec (a / 4096) (va / 4096)) as [Ea|]; [|done].
    by rewrite C1, C2, Hsame.
  - intros a Ha. rewrite Hp by lia. rewrite (proj2 (Z.eqb_neq _ _)) by dlia. by apply (uv_high _ _ _ _ Hu).
  - split; [done|]. split; [done|]. intros a. destruct (Z.eqb_spec (a / 4096) (va / 4096)) as [Ea|Hne].
    + unfold ubyte, readable. rewrite Hp by dlia. rewrite (proj2 (Z.eqb_eq _ _) Ea), C3. by rewrite andb_false_r.
    + destruct (decide (0 <= a < TRAPFRAME)) as [Ha|Ha].
      * apply B; [lia|]. rewrite Hp by lia. by rewrite (proj2 (Z.eqb_neq _ _) Hne).
      * rewrite (ubyte_outside k l) by (done || lia). apply (ubyte_outside k' l); [apply X|lia].
Qed.

(** Freeing the user pages below [s] and the tables, when nothing else is mapped *)
Lemma uvmfree_run s k l : uvm root sz k l -> 0 <= s <= TRAPFRAME ->
  (forall a, 0 <= a < MAXVA -> has (pte_of (mem k) root a) PTE_V = true -> a < PGROUNDUP s) ->
  exists k' l', uvmfree root s k = Ret tt k' /\ kmem_inv k' l' /\ bytes_ok (mem k') /\
    (forall x, foreign root (mem k) l x -> mem k' x = mem k x /\ outside l' x) /\
    (forall x, outside l' x -> foreign root (mem k) l x).
Proof.
  intros Hu Hs Hm. destruct trapframe_max as [T1 T2]. destruct (pgroundup_page s Hs) as (R1 & R2 & R3).
  assert (exists k1 l1, when (0 <? s) (uvmunmap root 0 (PGROUNDUP s / PGSIZE) true) k = Ret tt k1 /\ uext root sz k l k1 l1 /\
    forall a, 0 <= a < MAXVA -> has (pte_of (mem k1) root a) PTE_V = false) as (k1 & l1 & E1 & (U1 & X1 & C1) & P1).
  { unfold when. destruct (Z.ltb_spec 0 s) as [Hpos|Hz].
    - assert (PGROUNDUP s / PGSIZE * PGSIZE = PGROUNDUP s) as En by (unfold PGSIZE in *; dlia).
      destruct (uvmunmap_run root sz 0 (PGROUNDUP s / PGSIZE) k l Hu ltac:(done) ltac:(lia)) as (k1 & l1 & E & X & _ & P & _);
        [unfold PGSIZE in *; dlia|lia|].
      exists k1, l1. split; [done|]. split; [done|]. intros a Ha. rewrite P by done. rewrite Z.add_0_l, En. unfold valid.
      destruct (has (pte_of (mem k) root a) PTE_V) eqn:Hv; [|by rewrite andb_false_r].
      specialize (Hm a Ha Hv). rewrite (proj2 (Z.leb_le 0 a)), (proj2 (Z.ltb_lt a _)) by lia. done.
    - exists k, l. split; [done|]. split; [by apply uext_refl|]. intros a Ha. destruct (has _ _) eqn:Hv; [|done].
      specialize (Hm a Ha Hv). assert (s = 0) as -> by lia. change (PGROUNDUP 0) with 0 in Hm. lia. }
  unfold uvmfree. rewrite (bind_step _ _ _ _ _ E1).
  destruct (pt_tree (mem k1) root l1 (uv_pt _ _ _ _ U1) (inv_nodup _ _ (uv_inv _ _ _ _ U1)) P1) as (T & Tp & Tn & Tq).
  destruct (freewalk_run 3 root k1 l1 (uv_inv _ _ _ _ U1) T Tp Tn) as (k2 & l2 & E2 & (F1 & F2 & F3) & F4).
  exists k2, l2. split; [done|]. split; [done|]. split; [apply F3, U1|].
  split; [|intros x Hx; apply C1; split; [split|]; [intros y Hy; apply Hx; rewrite F2, elem_of_app; by right|
    intros q y Hq E; apply Hx; rewrite F2, elem_of_app; left; apply Tq; by exists q|
    intros va Hva Hv; unfold valid in Hv; rewrite P1 in Hv; [done|lia]]].
  intros x Hx. destruct (X1 x Hx) as [Ex [[V1 V2] _]].
  assert (forall y, y ∈ tables 3 (mem k1) root -> ~ in_page y x) as Hn by (intros y (q & Hq & E)%Tq; by apply (V2 q)).
  split; [by rewrite F4|]. intros y. rewrite F2, elem_of_app. intros [Hy|Hy]; [by apply Hn|by apply V1].
Qed.

(** mappages of one page above the user's, without PTE_U *)
Lemma map_high va pa perm k l : uvm root sz k l -> va mod PGSIZE = 0 -> TRAPFRAME <= va < MAXVA ->
  0 <= pa -> pa + PGSIZE <= 2 ^ 56 -> 0 <= perm < 1024 -> Z.testbit perm 4 = false ->
  (forall a, va <= a < va + PGSIZE -> has (pte_of (mem k) root a) PTE_V = false) ->
  exists r k' l', mappages root va PGSIZE pa perm k = Ret r k' /\ uext root sz k l k' l' /\
    (forall a, ubyte root (mem k') a = ubyte root (mem k) a) /\ (r = 0 \/ (r = -1 /\ l' = [])) /\ (length l <= length l' + 2)%nat /\
    forall a, 0 <= a < MAXVA -> pte_of (mem k') root a =
      if (r =? 0) && (a / 4096 =? va / 4096) then leaf_entry pa perm else pte_of (mem k) root a.
Proof.
  intros Hu Ha Hva Hpa Hpm Hperm HU Hfree. destruct trapframe_max as [T1 T2]. assert (va + PGSIZE <= MAXVA) by (unfold PGSIZE in *; dlia).
  destruct (mappages_run root va PGSIZE pa perm k l (uv_inv _ _ _ _ Hu) (uv_pt _ _ _ _ Hu)) as (r & k' & l' & E & Hx & Ln & Hr); try done; try lia.
  exists r, k', l'. split; [done|]. change (PGSIZE / PGSIZE) with 1 in Hr, Ln.
  assert ((r = 0 \/ (r = -1 /\ l' = [])) /\ forall a, 0 <= a < MAXVA -> pte_of (mem k') root a =
      if (r =? 0) && (a / 4096 =? va / 4096) then leaf_entry pa perm else pte_of (mem k) root a) as [Hrr Hp].
  { destruct Hr as [[-> Hm]|(-> & -> & j & Hj & Hm)].
    - split; [by left|]. cbn [Z.eqb andb]. by apply (mapped_one root k k' va pa perm Ha Hm).
    - split; [by right|]. assert (j = 0) as -> by lia. by apply (mapped_zero root k k' va pa perm Hm). }
  destruct (ext_same_bytes k l k' l' Hu Hx) as [X B].
  - intros a Ha'. rewrite Hp by lia. rewrite (proj2 (Z.eqb_neq (a / 4096) _)) by (unfold PGSIZE in *; dlia). by rewrite andb_false_r.
  - intros a Ha'. rewrite Hp by lia. destruct ((r =? 0) && (a / 4096 =? va / 4096)); [|by apply (uv_high _ _ _ _ Hu)].
    change PTE_U with (Z.shiftl 1 4). unfold PGSIZE in *. rewrite leaf_entry_flag by lia. rewrite Z.lor_spec, HU. done.
  - split; [done|]. split; [done|]. split; [done|]. split; [lia|done].
Qed.

(** *** Another address space *)

(** A byte of a table or of a user page *)
Definition owned (m : bytes) (x : Z) : Prop :=
  (exists q y, tpath q /\ node m root q = Some y /\ in_page y x) \/
  (exists va, 0 <= va < TRAPFRAME /\ valid root m va = true /\ in_page (frame root m va) x).

Lemma owned_outside k l x : uvm root sz k l -> owned (mem k) x -> outside l x.
Proof.
  intros Hu [(q & y & Hq & E & Hy)|(va & Hva & Hv & Hy)] z Hz Hzx; assert (page_ok z) as Hpz
    by (eapply Forall_forall in Hz; [|apply (inv_pages _ _ (uv_inv _ _ _ _ Hu))]; done).
  - destruct (pw_page _ _ _ (uv_pt _ _ _ _ Hu) q y Hq E) as [Hp Hl].
    destruct (page_apart y z x Hp Hpz) as [?|?]; [by intros ->|done|unfold in_page in Hzx; lia..].
  - destruct (uv_page _ _ _ _ Hu va Hva Hv) as (Hp & Hl & _).
    destruct (page_apart (frame root (mem k) va) z x Hp Hpz) as [?|?]; [by intros E; rewrite E in Hl|done|unfold in_page in Hzx; lia..].
Qed.

(** A space none of whose bytes is touched is as before. *)
Lemma uvm_other k l k' l' : uvm root sz k l -> kmem_inv k' l' -> bytes_ok (mem k') ->
  (forall x, owned (mem k) x -> mem k' x = mem k x /\ outside l' x) ->
  uvm root sz k' l' /\ (forall a, pte_of (mem k') root a = pte_of (mem k) root a) /\
  (forall a, ubyte root (mem k') a = ubyte root (mem k) a) /\ (forall x, owned (mem k') x <-> owned (mem k) x).
Proof.
  intros Hu Hk Hb Ho. assert (forall y, page_ok y -> in_page y y) as Hself by (intros; unfold in_page, PGSIZE; lia).
  destruct (pt_wf_frame (mem k) (mem k') root l (uv_pt _ _ _ _ Hu)) as (Hn & Hp & Hw).
  { intros q t x Hq E Hx. apply Ho. left. by exists q, t. }
  assert (forall q, tpath q -> node (mem k') root q = node (mem k) root q) as Hn' by (intros q [? ?]; apply Hn; [lia|done]).
  destruct (same_pte_views root _ _ Hp) as (Ev & Ef & Er).
  split; [split|split; [done|split]].
  - done.
  - split; [|apply Hw..]. intros q y Hq E. destruct (pw_page _ _ _ Hw q y Hq E) as [Hy _]. split; [done|]. intros Hin.
    destruct (Ho y) as [_ Hout]; [left; exists q, y; rewrite <- Hn' by done; split; [done|]; split; [done|by apply Hself]|].
    by apply (Hout y Hin), Hself.
  - done.
  - apply Hu.
  - intros va Hva. rewrite Ev, Ef. intros Hv. destruct (uv_page _ _ _ _ Hu va Hva Hv) as (Hf & Hfl & Hft).
    split; [done|]. split; [|intros q Hq; rewrite Hn' by done; by apply Hft]. intros Hin.
    destruct (Ho (frame root (mem k) va)) as [_ Hout]; [right; exists va; split; [done|]; split; [done|by apply Hself]|].
    by apply (Hout _ Hin), Hself.
  - intros va va' Hva Hva'. rewrite !Ev, !Ef. by apply (uv_inj _ _ _ _ Hu).
  - intros va Hva. rewrite Hp. by apply (uv_high _ _ _ _ Hu).
  - intros a. unfold ubyte. rewrite Er, Ef. destruct (readable root (mem k) a) eqn:Hr; [|done].
    destruct (readable_low root sz _ _ _ Hu Hr) as (Ha & Hv & _). apply Ho. right. exists a. split; [done|]. split; [done|].
    unfold in_page, PGSIZE. dlia.
  - intros x. split; (intros [(q & y & Hq & E & Hy)|(va & Hva & Hv & Hy)]; [left; exists q, y|right; exists va]).
    + by rewrite Hn' in E.
    + by rewrite Ev, Ef in *.
    + by rewrite Hn'.
    + by rewrite Ev, Ef.
Qed.

(** The pages mapped from 0 on are at most those of the machine. *)
Lemma mapped_bound n k l : uvm root sz k l -> 0 <= n -> n * PGSIZE <= TRAPFRAME ->
  (forall va, 0 <= va < n * PGSIZE -> valid root (mem k) va = true) -> n <= 32768.
Proof.
  intros Hu Hn Hmax Hv. unfold PGSIZE in *. set (fs := (fun i => frame root (mem k) (i * 4096)) <$> seqZ 0 n).
  assert (NoDup fs) as Hnd.
  { apply NoDup_fmap_2_strong; [|apply NoDup_seqZ]. intros i j Hi%elem_of_seqZ Hj%elem_of_seqZ E.
    assert (i * 4096 / 4096 = j * 4096 / 4096) as E2; [|rewrite !Z.div_mul in E2 by lia; done].
    apply (uv_inj _ _ _ _ Hu); try lia; try apply Hv; try lia; done. }
  assert (forall y, y ∈ fs -> y ∈ (fun i => KERNBASE + i * 4096) <$> seqZ 0 32768) as Hsub.
  { intros y (i & -> & Hi%elem_of_seqZ)%list_elem_of_fmap. destruct (uv_page _ _ _ _ Hu (i * 4096)) as ([Ha Hr] & _); [lia|apply Hv; lia|].
    pose proof kend_lo. apply list_elem_of_fmap. exists ((frame root (mem k) (i * 4096) - KERNBASE) / 4096).
    change KERNBASE with 2147483648 in *. change PHYSTOP with 2281701376 in *. unfold PGSIZE in *.
    split; [dlia|]. apply elem_of_seqZ. dlia. }
  assert (Nat.le (length fs) (length ((fun i => KERNBASE + i * 4096) <$> seqZ 0 32768))) as Hl by (by apply submseteq_length, NoDup_submseteq).
  unfold fs in Hl. rewrite !length_fmap, !length_seqZ in Hl. lia.
Qed.

(** *** Growing a space that is mapped from 0 to its size *)

Definition contiguous (s : Z) (k : kmem) : Prop := forall va, 0 <= va < TRAPFRAME -> valid root (mem k) va = (va <? PGROUNDUP s).

Lemma contiguous_bound s k l : uvm root sz k l -> 0 <= s <= TRAPFRAME -> contiguous s k -> PGROUNDUP s <= 134217728.
Proof.
  intros Hu Hs Hc. destruct (pgroundup_page s Hs) as (R1 & R2 & R3). unfold PGSIZE in *.
  assert (PGROUNDUP s / 4096 <= 32768); [|dlia]. apply (mapped_bound _ k l Hu); unfold PGSIZE; [dlia|dlia|].
  intros va Hva. rewrite Hc by dlia. apply Z.ltb_lt. dlia.
Qed.

(** A request beyond the machine's memory fails as one up to TRAPFRAME does. *)
Lemma uvmalloc_big o newsz xperm k' n : TRAPFRAME <= newsz -> forall n' a k, (n <= n')%nat ->
  loop n (uvmalloc_body root o TRAPFRAME xperm) a k = Ret 0 k' -> loop n' (uvmalloc_body root o newsz xperm) a k = Ret 0 k'.
Proof.
  intros Hbig. induction n as [|n IH]; intros n' a k Hn E; [done|]. destruct n' as [|n']; [lia|]. cbn [loop] in *.
  unfold bind in E at 1. unfold bind at 1. rewrite uvmalloc_body_eq in E |- *. destruct (Z.ltb_spec a TRAPFRAME) as [Ha|Ha].
  2: { cbn in E. destruct trapframe_max. injection E as E1 _. lia. }
  rewrite (proj2 (Z.ltb_lt a newsz)) by lia. destruct (bind _ _ k) as [[a'|r] k1| | |]; try done. apply IH; [lia|done].
Qed.

Definition resized (s xperm r : Z) (k k' : kmem) : Prop :=
  contiguous r k' /\ forall va, 0 <= va < MAXVA ->
    (va < PGROUNDUP s \/ TRAPFRAME <= va -> pte_of (mem k') root va = pte_of (mem k) root va) /\
    (PGROUNDUP s <= va < PGROUNDUP r -> exists x, page_ok x /\ pte_of (mem k') root va = leaf_entry x (alloc_perm xperm)).

Lemma pgroundup_mono a b : 0 <= a <= b -> b <= TRAPFRAME -> PGROUNDUP a <= PGROUNDUP b.
Proof.
  intros Ha Hb. destruct trapframe_max as [T1 T2]. rewrite !PGROUNDUP_div by lia. apply Z.mul_le_mono_nonneg_r; [lia|]. apply Z.div_le_mono; lia.
Qed.

Lemma uvmalloc_resized s b xperm r k l k' l' : uvm root sz k l -> 0 <= s <= b -> b <= TRAPFRAME -> contiguous s k ->
  uvmalloc_result root sz (PGROUNDUP s) b (alloc_perm xperm) r k l k' l' -> 0 <= alloc_perm xperm < 1024 ->
  (r = 0 /\ resized s xperm s k k') \/ (r = b /\ resized s xperm b k k').
Proof.
  intros Hu Hs Hb Hc (_ & _ & Hr) Hperm. destruct trapframe_max as [T1 T2]. destruct (pgroundup_page b ltac:(lia)) as (B1 & B2 & B3).
  pose proof (pgroundup_mono s b ltac:(lia) ltac:(lia)) as Hmono. destruct Hr as [[-> G]|(-> & G & _)]; [right|left]; (split; [done|]).
  - split.
    + intros va Hva. destruct (G va ltac:(lia)) as [G1 G2]. destruct (decide (PGROUNDUP s <= va < PGROUNDUP b)) as [Hin|Hout].
      * destruct (G1 Hin) as (x & Hx & Ep). unfold valid. rewrite Ep. pose proof (page_ok_range x Hx). unfold PGSIZE in *.
        rewrite leaf_entry_valid by lia. symmetry. apply Z.ltb_lt. lia.
      * unfold valid. rewrite G2 by lia. fold (valid root (mem k) va).
        rewrite Hc by done. destruct (Z.ltb_spec va (PGROUNDUP s)), (Z.ltb_spec va (PGROUNDUP b)); done || lia.
    + intros va Hva. destruct (G va Hva) as [G1 G2]. split; [intros; apply G2; lia|]. intros Hin. by apply G1.
  - split; [intros va Hva; destruct (G va ltac:(lia)) as [-> _]; by apply Hc|].
    intros va Hva. split; [intros; apply G; [done|lia]|lia].
Qed.

Lemma uvmalloc_space s newsz xperm k l : uvm root sz k l -> 0 <= s <= TRAPFRAME -> contiguous s k -> 0 <= newsz < 2 ^ 64 ->
  0 <= alloc_perm xperm < 1024 ->
  exists r k' l', uvmalloc root s newsz xperm k = Ret r k' /\ uext root sz k l k' l' /\
    (forall a, ubyte root (mem k') a = ubyte root (mem k) a) /\
    ((r = 0 /\ resized s xperm s k k') \/ (r = Z.max s newsz /\ 0 <= r <= 134217728 /\ resized s xperm r k k')).
Proof.
  intros Hu Hs Hc Hnew Hperm. destruct trapframe_max as [T1 T2]. destruct (pgroundup_page s Hs) as (R1 & R2 & R3).
  destruct (Z.ltb_spec newsz s) as [Hlt|Hge].
  { exists s, k, l. split; [unfold uvmalloc; by rewrite (proj2 (Z.ltb_lt newsz s))|]. split; [by apply uext_refl|]. split; [done|].
    right. split; [lia|]. pose proof (contiguous_bound s k l Hu Hs Hc). split; [lia|]. split; [done|].
    intros va Hva. split; [done|lia]. }
  assert (forall b va, PGROUNDUP s <= va < b -> b <= TRAPFRAME -> valid root (mem k) va = false) as Hfree.
  { intros b va Hva Hb. rewrite Hc by lia. apply Z.ltb_ge. lia. }
  set (b := Z.min newsz TRAPFRAME). destruct (pgroundup_page b ltac:(lia)) as (B1 & B2 & B3).
  destruct (uvmalloc_run root sz s b xperm k l Hu ltac:(lia) ltac:(lia) ltac:(lia) Hperm) as (r & k' & l' & E & Hr).
  { intros va Hva. apply (Hfree (PGROUNDUP b)); lia. }
  destruct (uvmalloc_resized s b xperm r k l k' l' Hu ltac:(lia) ltac:(lia) Hc Hr Hperm) as [[-> Hz]|[-> Hz]]; destruct Hr as (X & B & _).
  - exists 0, k', l'. split; [|split; [done|split; [done|by left]]]. destruct (Z.le_gt_cases newsz TRAPFRAME) as [Hle|Hgt].
    + by replace newsz with b by lia.
    + replace b with TRAPFRAME in E by lia. revert E. unfold uvmalloc. rewrite !(proj2 (Z.ltb_ge _ s)) by lia. cbv zeta.
      apply uvmalloc_big; [lia|]. apply Z2Nat.inj_le; unfold PGSIZE; [dlia|dlia|]. apply Z.add_le_mono_r, Z.div_le_mono; lia.
  - destruct X as [U X]. pose proof (contiguous_bound b k' l' U ltac:(lia) (proj1 Hz)) as Hbd. assert (b = newsz) as Eb by lia. rewrite Eb in *.
    exists newsz, k', l'. split; [done|]. split; [by split|]. split; [done|]. right. split; [lia|]. split; [lia|done].
Qed.
End spaces.

(** ** Creation *)

Lemma uvmcreate_run `{KernelEnd} k l s : kmem_inv k l -> bytes_ok (mem k) -> 0 <= s <= TRAPFRAME ->
  (l = [] /\ uvmcreate k = Ret 0 k) \/
  exists r k' l', uvmcreate k = Ret r k' /\ r <> 0 /\ length l = S (length l') /\ uvm r s k' l' /\ (forall a, pte_of (mem k') r a = 0) /\
    (forall x, outside l x -> mem k' x = mem k x /\ foreign r (mem k') l' x) /\
    (forall x, foreign r (mem k') l' x -> outside l x).
Proof.
  intros Hk Hb Hs. unfold uvmcreate. destruct l as [|p l].
  { left. split; [done|]. by rewrite (bind_step _ _ _ _ _ (kalloc_empty k Hk)). }
  right. destruct (kalloc_zero k p l Hk) as (Hp & Hp0 & Hpl & k1 & k2 & E1 & E2 & K2 & S2 & Z2 & B2).
  exists p, k2, l. rewrite (bind_step _ _ _ _ _ E1), (proj2 (Z.eqb_neq p 0)), (bind_step _ _ _ _ _ E2) by done.
  split; [done|]. split; [done|]. split; [done|]. assert (forall a, pte_of (mem k2) p a = 0) as Hpte by (intros; by apply empty_root_pte).
  assert (pt_wf (mem k2) p l) as Hw by (by apply empty_root).
  assert (forall a, valid p (mem k2) a = false) as Hv by (intros a; unfold valid; by rewrite Hpte).
  split; [|split; [done|]].
  - split; try done; try by intros; rewrite Hv in *. + auto. + intros a _. by rewrite Hpte.
  - split; [|intros x [[V1 V2] _] y Hy; apply elem_of_cons in Hy as [->|Hy]; [apply (V2 []); [split; [cbn; lia|constructor]|done]|by apply V1]].
    intros x Hx. split.
    + apply S2. specialize (Hx p ltac:(by left)). unfold in_page in Hx. lia.
    + split; [split|].
      * intros y Hy. apply Hx. by right.
      * intros q y Hq E. destruct q as [|i q]; [cbn in E; injection E as <-; apply Hx; by left|].
        cbn in E. rewrite zero_slot in E; [done|done|]. destruct Hq as [_ Hq]. by inversion Hq.
      * intros va _ Hva. by rewrite Hv in Hva.
Qed.

(** ** copyout to mapped pages, whoever is the current process *)
Section mapped_copy.
Context `{KernelEnd}.
Context (root sz psz ppt : Z).

Lemma frame_write_pte k l va0 m' : uvm root sz k l -> readable root (mem k) va0 = true ->
  (forall x, ~ in_page (frame root (mem k) va0) x -> m' x = mem k x) ->
  forall a, pte_of m' root a = pte_of (mem k) root a.
Proof.
  intros Hu Hr Hs. destruct (readable_low root sz _ _ _ Hu Hr) as (Hva & Hv & _).
  destruct (uv_page _ _ _ _ Hu va0 Hva Hv) as (Hf & _ & Hft).
  apply (pt_wf_frame (mem k) m' root l (uv_pt _ _ _ _ Hu)). intros q t x Hq E Hx. apply Hs. intros Hfx.
  destruct (pw_page _ _ _ (uv_pt _ _ _ _ Hu) q t Hq E) as [Ht _].
  destruct (page_apart t (frame root (mem k) va0) x Ht Hf) as [?|?]; [|done|unfold in_page in Hfx; lia..].
  intros ->. by apply (Hft q).
Qed.

(** The pages of [a, b) can be read and written. *)
Definition writable (m : bytes) (a b : Z) : Prop :=
  forall x, a <= x < b -> readable root m x = true /\ has (pte_of m root x) PTE_W = true.

Lemma copyout_mapped_loop fuel : forall dstva src s len k l, uvm root sz k l -> bytes_ok src -> 0 <= dstva ->
  copy_need dstva len < Z.of_nat fuel -> writable (mem k) dstva (dstva + len) ->
  exists k', loop fuel (copyout_body psz ppt root src) (dstva, s, len) k = Ret 0 k' /\ uext root sz k l k' l /\
    (forall a, pte_of (mem k') root a = pte_of (mem k) root a) /\
    (forall a, ubyte root (mem k') a = blit (ubyte root (mem k)) dstva src s len a).
Proof.
  induction fuel as [|fuel IH]; intros dstva src s len k l Hu Hsrc Hd Hfuel Hw.
  { exfalso. unfold copy_need in Hfuel. destruct (Z.ltb_spec 0 len); [dlia|lia]. }
  destruct trapframe_max as [T1 T2]. cbn [loop]. unfold copyout_body at 1. unfold bind at 1.
  destruct (Z.ltb_spec 0 len) as [Hl|Hl].
  2: { exists k. split; [done|]. split; [by apply uext_refl|]. split; [done|]. intros a. by rewrite blit_out by lia. }
  cbv zeta. destruct (pgrounddown_page dstva) as (Hp1 & Hp2 & Hp3 & Hp4).
  assert (PGROUNDDOWN dstva = dstva / 4096 * 4096) as Hp5 by apply PGROUNDDOWN_div. assert (0 <= PGROUNDDOWN dstva) by dlia. set (va0 := PGROUNDDOWN dstva) in *.
  destruct (Hw dstva ltac:(lia)) as [Rd Wd]. destruct (readable_low root sz _ _ _ Hu Rd) as (Hva & Hv & HU).
  assert (pte_of (mem k) root va0 = pte_of (mem k) root dstva) as Ep by by apply pte_of_vpn.
  assert (readable root (mem k) va0 = true) as Rd0.
  { unfold readable, valid in *. rewrite Ep, HU, Hv. rewrite (proj2 (Z.leb_le 0 va0)), (proj2 (Z.ltb_lt va0 _)) by lia. done. }
  rewrite (proj2 (Z.leb_gt MAXVA va0)) by lia. unfold user_page, bind at 1 2. rewrite (walkaddr_run root sz k l va0 Hu) by lia. rewrite Rd0.
  destruct (uv_page _ _ _ _ Hu va0 ltac:(lia) ltac:(unfold valid in *; by rewrite Ep)) as (Hpg & _). pose proof (page_ok_range _ Hpg) as Hpr.
  rewrite (proj2 (Z.eqb_neq (frame root (mem k) va0) 0)) by lia. unfold ret at 1. rewrite (proj2 (Z.eqb_neq (frame root (mem k) va0) 0)) by lia.
  rewrite (bind_step _ _ _ _ _ (walk_pure root va0 k ltac:(lia))).
  destruct (table_of (mem k) root va0) as [u|] eqn:Eu; [|unfold valid, pte_of in Hv; unfold pte_of in Ep; rewrite Eu in Ep; unfold pte_of in Hv; by rewrite <- Ep in Hv].
  destruct (table_slot root k l va0 u (uv_pt _ _ _ _ Hu) Eu) as [_ Hld].
  unfold load64. rewrite (bind_step (gets _) _ k (pte_of (mem k) root dstva) k) by (unfold gets; by rewrite Hld, Ep).
  rewrite Wd. cbn [negb]. rewrite Hp4.
  destruct (copy_need_step dstva len Hl) as (Hn1 & Hn2 & Hn3). rewrite <- Hp5 in Hn3.
  set (n := Z.min (PGSIZE - dstva mod 4096) len) in *.
  destruct (frame_write root sz k l va0 (dstva mod 4096) src s n Hu Rd0 Hp1) as (X2 & B2 & _); try done; try (unfold PGSIZE in *; dlia).
  assert (forall a, pte_of (blit (mem k) (frame root (mem k) va0 + dstva mod 4096) src s n) root a = pte_of (mem k) root a) as P2.
  { apply (frame_write_pte k l va0); [done|done|]. intros x Hx. apply blit_out. unfold in_page, PGSIZE in *. dlia. }
  set (k2 := set_mem _ k) in *. unfold bind, modify, ret. rewrite wrap_small by (unfold PGSIZE in *; lia).
  destruct (IH (va0 + PGSIZE) src (s + n) (len - n) k2 l (proj1 X2) Hsrc) as (k' & E & X' & P' & B').
  { unfold PGSIZE in *. lia. }
  { unfold PGSIZE. lia. }
  { intros x Hx. destruct (Hw x ltac:(unfold PGSIZE in *; lia)) as [R W]. unfold readable, valid in *. cbn [mem set_mem k2]. by rewrite P2. }
  exists k'. split; [exact E|]. split; [by eapply uext_trans|]. split; [intros a; rewrite P'; apply P2|].
  intros a. rewrite B'. unfold blit. rewrite B2. unfold PGSIZE in *.
  destruct (Z.leb_spec (va0 + 4096) a), (Z.ltb_spec a (va0 + 4096 + (len - n))), (Z.leb_spec (va0 + dstva mod 4096) a),
    (Z.ltb_spec a (va0 + dstva mod 4096 + n)), (Z.leb_spec dstva a), (Z.ltb_spec a (dstva + len)); cbn [andb]; try lia; try done; f_equal; lia.
Qed.

Lemma copyout_mapped dstva src s len k l : uvm root sz k l -> bytes_ok src -> 0 <= dstva -> 0 <= len ->
  writable (mem k) dstva (dstva + len) ->
  exists k', copyout psz ppt root dstva src s len k = Ret 0 k' /\ uext root sz k l k' l /\
    (forall a, pte_of (mem k') root a = pte_of (mem k) root a) /\
    (forall a, ubyte root (mem k') a = blit (ubyte root (mem k)) dstva src s len a).
Proof. intros Hu Hs Hd Hl Hw. apply copyout_mapped_loop; try done. by apply copy_fuel. Qed.
End mapped_copy.
