(* ===== verification/VmCopy.v ===== *)
(** * uvmcopy: fork's copy of an address space

    The pages of the parent are copied one by one into fresh pages mapped at
    the same addresses with the same permissions; addresses that are not yet
    allocated stay so in the child. Nothing of the parent changes, and a copy
    that runs out of memory is undone. *)
From stdpp Require Import base list numbers strings.
From Stdlib Require Import ZArith Lia.
From S2P Require Import Prelude Memlayout Kalloc Vm VmTables VmUser VmAlloc VmSpace.

Section copy.
Context `{KernelEnd}.
Context (old new : Z).

(** kalloc, memmove, mappages of one page *)
Definition copy_page (va pa perm : Z) : M kmem Z :=
  page <- kalloc ;;
  if page =? 0 then ret 0
  else
    modify (fun k => set_mem (blit (mem k) page (mem k) pa PGSIZE) k) ;;;
    map_page new page va perm.

Lemma uvmcopy_body_eq sz i k : uvmcopy_body old new sz i k =
  (if i <? sz then
     pte <- walk old i false ;;
     if pte =? 0 then ret (inl (u64 (i + PGSIZE)))
     else
       v <- load64 pte ;;
       if negb (has v PTE_V) then ret (inl (u64 (i + PGSIZE)))
       else r <- copy_page i (PTE2PA v) (PTE_FLAGS v) ;; if r =? 0 then uvmcopy_err new i else ret (inl (u64 (i + PGSIZE)))
   else ret (inr 0))%kernel k.
Proof.
  unfold uvmcopy_body, copy_page, map_page, bind, ret, modify. destruct (i <? sz); [|done].
  destruct (walk old i false k) as [pte k1| | |]; try done. destruct (pte =? 0); [done|].
  destruct (load64 pte k1) as [v k2| | |]; try done. destruct (negb (has v PTE_V)); [done|].
  destruct (kalloc k2) as [page k3| | |]; try done. destruct (page =? 0) eqn:E0; [done|].
  destruct (mappages _ _ _ _ _ _) as [r k5| | |]; try done. destruct (negb (r =? 0)); [|by rewrite E0]. by destruct (kfree page k5).
Qed.

(** One page copied into the free address [va] *)
Lemma copy_page_run k l va pa perm : uvm new 0 k l -> va mod PGSIZE = 0 -> 0 <= va < TRAPFRAME -> valid new (mem k) va = false -> 0 <= perm < 1024 ->
  page_ok pa -> (forall y, in_page pa y -> foreign new (mem k) l y) ->
  exists r k' l', copy_page va pa perm k = Ret r k' /\ uext new 0 k l k' l' /\ (length l <= length l' + 3)%nat /\
    (forall a y, 0 <= a < TRAPFRAME -> valid new (mem k) a = true -> in_page (frame new (mem k) a) y -> mem k' y = mem k y) /\
    ((r = 0 /\ pte_after new None (mem k) (mem k') /\ (length l' <= 1)%nat) \/
     (r <> 0 /\ page_ok r /\ pte_after new (Some (va, r, perm)) (mem k) (mem k') /\
      forall i, 0 <= i < PGSIZE -> mem k' (r + i) = mem k (pa + i))).
Proof.
  intros Hu Ha Hva Hv Hperm Hpa Hfo. unfold copy_page. destruct l as [|x l].
  { rewrite (bind_step _ _ _ _ _ (kalloc_empty k (uv_inv _ _ _ _ Hu))). cbn. exists 0, k, []. split; [done|]. split; [by apply uext_refl|]. split; [cbn; lia|]. split; [done|]. left. split; [done|]. split; [done|cbn; lia]. }
  destruct (uvm_alloc new 0 k x l Hu) as (k1 & k2 & E1 & E2 & Hx0 & Hx & Hxl & Hnt & Hnf & Hz & X2 & P2 & B2 & N2).
  rewrite (bind_step _ _ _ _ _ E1), (proj2 (Z.eqb_neq x 0) Hx0). injection E2 as E2.
  set (k3 := set_mem (blit (mem k1) x (mem k1) pa PGSIZE) k1). rewrite (bind_step _ _ k1 tt k3) by done.
  assert (forall y, ~ in_page x y -> mem k3 y = mem k2 y) as Hs.
  { intros y Hy. rewrite <- E2. cbn. unfold in_page in Hy. rewrite blit_out, fill_out by lia. done. }
  assert (forall i, 0 <= i < PGSIZE -> mem k3 (x + i) = mem k (pa + i)) as Hc.
  { intros i Hi. cbn. rewrite blit_in by lia. replace (x + i - x + pa) with (pa + i) by lia.
    assert (in_page pa (pa + i)) as Hin by (unfold in_page; lia). assert (~ in_page x (pa + i)) as Hout by exact (proj1 (proj1 (Hfo _ Hin)) x ltac:(by left)).
    destruct X2 as [_ F2]. destruct (F2 _ (Hfo _ Hin)) as [E _]. rewrite <- E, <- E2. cbn. rewrite fill_out; [done|unfold in_page in Hout; lia]. }
  assert (k3 = set_mem (mem k3) k2) as Ek by (rewrite <- E2; done).
  assert (same_outside x (mem k2) (mem k3)) as Hso by (intros y Hy; apply Hs; unfold in_page; lia).
  assert (bytes_ok (mem k3)) as Hb3.
  { intros y. destruct (decide (in_page x y)) as [Hy|Hy]; [|rewrite Hs by done; apply (uv_bytes _ _ _ _ (proj1 X2))].
    unfold in_page in Hy. replace y with (x + (y - x)) by lia. rewrite Hc by lia. apply (uv_bytes _ _ _ _ Hu). }
  destruct (uvm_page_step new 0 k2 l k3 l x (proj1 X2)) as (U3 & P3 & N3 & _); try done.
  { rewrite Ek. apply kmem_inv_write with x; try done. apply X2. } { by left. }
  destruct (same_pte_views new _ _ P3) as (Ev3 & Ef3 & _). destruct (same_pte_views new _ _ P2) as (Ev2 & Ef2 & _).
  destruct (map_page_run new 0 k3 l x va perm U3 Hx Hxl) as (r & k' & l' & E & U & Ln & Bk & Fo & _ & Fr & Hr); try done.
  { intros q Hq. rewrite N3 by done. by apply Hnt. } { intros a Haa. rewrite Ev3, Ef3. by apply Hnf. } { by rewrite Ev3, Ev2. }
  exists r, k', l'. split; [exact E|]. split; [split; [done|split]|split; [cbn; lia|split]].
  - intros y Hy. assert (~ in_page x y) as Hxy by exact (proj1 (proj1 Hy) x ltac:(by left)). destruct X2 as [_ F2]. destruct (F2 y Hy) as [Em F].
    assert (foreign new (mem k3) l y) as F3'.
    { destruct F as [[V1 V2] V3]. split; [split|]; [done|intros q z Hq; rewrite N3 by done; by apply V2|intros a Haa; rewrite Ev3, Ef3; by apply V3]. }
    destruct (Fo y F3' Hxy) as [Em' F']. split; [rewrite Em', Hs by done; done|done].
  - intros y Hy. destruct (Bk y Hy) as [F Hxy]. apply (taken_back new k x l k3); try done; [intros a; by rewrite P3, P2|intros q Hq; by rewrite N3, N2].
  - intros a y Haa Hva' Hy. rewrite (Fr a y Haa); [|by rewrite Ev3, Ev2|by rewrite Ef3, Ef2].
    destruct (uv_page _ _ _ _ Hu a Haa Hva') as (Hpf & Hfl & _). assert (frame new (mem k) a <> x) as Hne by (intros Ex; apply Hfl; rewrite Ex; by left).
    assert (~ in_page x y) as Hxy by (destruct (page_apart (frame new (mem k) a) x y Hpf Hx Hne Hy); unfold in_page; lia).
    rewrite Hs by done. destruct (kalloc_cons k x l (uv_inv _ _ _ _ Hu)) as (k1' & E1' & _ & _ & Hs1). rewrite E1 in E1'. injection E1' as <-.
    rewrite <- E2. cbn. unfold in_page in Hxy. rewrite fill_out by lia. apply Hs1. lia.
  - destruct Hr as [(-> & Hp & _ & Hl1)|(-> & Hp & Hsx)].
    + left. split; [done|]. split; [|done]. intros a Haa. by rewrite (Hp a Haa), P3, P2.
    + right. split; [done|]. split; [done|]. split; [intros a Haa; by rewrite (Hp a Haa), P3, P2|].
      intros i Hi. rewrite Hsx by (unfold in_page; lia). by apply Hc.
Qed.

(** The pages below [i] copied *)
Record copied (k0 : kmem) (l0 : list Z) (i : Z) (k : kmem) (l : list Z) : Prop := Copied {
  cp_ext : uext new 0 k0 l0 k l;
  cp_valid va : 0 <= va < TRAPFRAME -> valid new (mem k) va = (va <? i) && valid old (mem k0) va;
  cp_flags va : 0 <= va < TRAPFRAME -> va < i -> valid old (mem k0) va = true ->
    PTE_FLAGS (pte_of (mem k) new va) = PTE_FLAGS (pte_of (mem k0) old va);
  cp_data va j : 0 <= va < TRAPFRAME -> va < i -> valid old (mem k0) va = true -> 0 <= j < PGSIZE ->
    mem k (frame new (mem k) va + j) = mem k0 (frame old (mem k0) va + j);
  cp_len : Z.of_nat (length l0) <= Z.of_nat (length l) + 3 * (i / PGSIZE);
}.

(** The parent does not change while its copy grows *)
Lemma parent_kept sz k0 l0 k l : uvm old sz k0 l0 -> (forall x, owned old (mem k0) x -> foreign new (mem k0) l0 x) -> uext new 0 k0 l0 k l ->
  uvm old sz k l /\ (forall a, pte_of (mem k) old a = pte_of (mem k0) old a) /\ (forall a, ubyte old (mem k) a = ubyte old (mem k0) a) /\
  (forall x, owned old (mem k) x <-> owned old (mem k0) x) /\ (forall x, owned old (mem k0) x -> mem k x = mem k0 x /\ foreign new (mem k) l x).
Proof.
  intros Hu Ho (U & X & _). assert (forall x, owned old (mem k0) x -> mem k x = mem k0 x /\ foreign new (mem k) l x) as Hx by (intros x Hxo; by apply X, Ho).
  destruct (uvm_other old sz k0 l0 k l Hu (uv_inv _ _ _ _ U) (uv_bytes _ _ _ _ U)) as (A & B & C & D).
  { intros x Hxo. destruct (Hx x Hxo) as [E F]. split; [done|]. intros y Hy. by apply F. }
  split; [done|]. split; [done|]. split; [done|]. split; [done|done].
Qed.

Lemma PTE_FLAGS_mod v : PTE_FLAGS v = v mod 1024.
Proof. unfold PTE_FLAGS. change 0x3FF with (Z.ones 10). by rewrite Z.land_ones. Qed.

Lemma flags_leaf x v : page_ok x -> has v PTE_V = true -> PTE_FLAGS (leaf_entry x (PTE_FLAGS v)) = PTE_FLAGS v.
Proof.
  intros Hx Hv. pose proof (page_ok_range x Hx) as Hr. assert (0 <= PTE_FLAGS v < 1024) as Hf by (rewrite PTE_FLAGS_mod; apply Z.mod_pos_bound; lia).
  pose proof (perm_range _ Hf). rewrite (PTE_FLAGS_mod (leaf_entry _ _)), leaf_entry_lor, PA2PTE_div by (unfold PGSIZE in Hr; lia).
  rewrite (lor_disjoint_add _ _ 10); [|lia|done|by apply Z.mod_mul]. rewrite Z.add_comm, Z.mod_add, Z.mod_small by lia.
  apply Z.bits_inj'. intros n Hn. rewrite Z.lor_spec. change PTE_V with (2 ^ 0). rewrite Z.pow2_bits_eqb by lia.
  destruct (Z.eqb_spec 0 n) as [<-|]; [|apply orb_false_r]. rewrite orb_true_r. unfold PTE_FLAGS. rewrite Z.land_spec.
  unfold has in Hv. change PTE_V with (Z.shiftl 1 0) in Hv. rewrite land_shiftl1 in Hv by lia. rewrite negb_involutive in Hv. by rewrite Hv.
Qed.

(** One more page *)
Lemma copied_page sz k0 l0 i k l : uvm old sz k0 l0 -> (forall x, owned old (mem k0) x -> foreign new (mem k0) l0 x) -> copied k0 l0 i k l ->
  i mod PGSIZE = 0 -> 0 <= i < TRAPFRAME -> valid old (mem k0) i = true ->
  let v := pte_of (mem k) old i in
  exists r k' l', copy_page i (PTE2PA v) (PTE_FLAGS v) k = Ret r k' /\
    ((r = 0 /\ (length l' <= 1)%nat /\ uext new 0 k0 l0 k' l' /\ Z.of_nat (length l0) <= 4 + 3 * (i / PGSIZE) /\
      (forall va, 0 <= va < TRAPFRAME -> valid new (mem k') va = (va <? i) && valid old (mem k0) va)) \/
     (r <> 0 /\ copied k0 l0 (i + PGSIZE) k' l')).
Proof.
  intros Hu Ho [X V Fl Da Lc] Ha Hi Hv v. destruct (parent_kept sz k0 l0 k l Hu Ho X) as (Uo & Po & _ & Oo & Fo). destruct trapframe_max as [T1 T2].
  assert (v = pte_of (mem k0) old i) as Ev by apply Po. assert (PTE2PA v = frame old (mem k0) i) as Epa by (unfold frame; congruence).
  destruct (uv_page _ _ _ _ Hu i Hi Hv) as (Hpa & _). rewrite Epa.
  destruct (copy_page_run k l i (frame old (mem k0) i) (PTE_FLAGS v)) as (r & k' & l' & E & X' & Ln & Fr & Hr); try done.
  { apply X. } { rewrite V by done. by rewrite Z.ltb_irrefl. } { rewrite PTE_FLAGS_mod. apply Z.mod_pos_bound. lia. }
  { intros y Hy. apply Fo. right. by exists i. }
  exists r, k', l'. split; [done|]. assert (uext new 0 k0 l0 k' l') as X0 by (by eapply uext_trans).
  assert (forall va j, 0 <= va < TRAPFRAME -> va < i -> valid old (mem k0) va = true -> 0 <= j < PGSIZE -> mem k' (frame new (mem k) va + j) = mem k0 (frame old (mem k0) va + j)) as Hold.
  { intros va j Hva Hlt Hvv Hj. rewrite (Fr va); [by apply Da|done| |unfold in_page; lia]. rewrite V, Hvv by done. by rewrite (proj2 (Z.ltb_lt va i)). }
  destruct Hr as [(-> & Hp & Hl1)|(Hr0 & Hpr & Hp & Hc)].
  - left. split; [done|]. split; [done|]. split; [done|]. split; [lia|]. intros va Hva. unfold valid. rewrite Hp by lia. by apply V.
  - right. split; [done|]. unfold PGSIZE in *. assert (0 <= PTE_FLAGS v < 1024) as Hf by (rewrite PTE_FLAGS_mod; apply Z.mod_pos_bound; lia).
    pose proof (page_ok_range r Hpr) as Hrr. unfold PGSIZE in Hrr.
    assert (forall va, 0 <= va < TRAPFRAME -> pte_of (mem k') new va = if (i <=? va) && (va <? i + 4096) then leaf_entry r (PTE_FLAGS v) else pte_of (mem k) new va) as Hpte.
    { intros va Hva. rewrite Hp by lia. destruct (Z.eqb_spec (va / 4096) (i / 4096)), (Z.leb_spec i va), (Z.ltb_spec va (i + 4096)); cbn [andb]; try done; exfalso; dlia. }
    assert (forall va, i <= va < i + 4096 -> pte_of (mem k0) old va = v) as Hsame by (intros va Hva; rewrite Ev; apply pte_of_vpn; dlia).
    assert (has v PTE_V = true) as HvV by (rewrite Ev; exact Hv).
    split; [done|..|unfold PGSIZE; replace (i + 4096) with (i + 1 * 4096) by lia; rewrite Z.div_add by lia; lia]; intros va.
    + intros Hva. unfold valid at 1. rewrite Hpte by done. destruct (Z.leb_spec i va), (Z.ltb_spec va (i + 4096)); cbn [andb]; try lia.
      * rewrite leaf_entry_valid by (done || lia). unfold valid. by rewrite Hsame by lia.
      * fold (valid new (mem k) va). rewrite V by done. by rewrite (proj2 (Z.ltb_ge va i)).
      * fold (valid new (mem k) va). rewrite V by done. by rewrite (proj2 (Z.ltb_lt va i)).
    + intros Hva Hlt Hvv. rewrite Hpte by done. destruct (Z.leb_spec i va), (Z.ltb_spec va (i + 4096)); cbn [andb]; try lia; [|by apply Fl].
      rewrite flags_leaf by done. by rewrite Hsame.
    + intros j Hva Hlt Hvv Hj. unfold frame at 1. rewrite Hpte by done. destruct (Z.leb_spec i va), (Z.ltb_spec va (i + 4096)); cbn [andb]; try lia; [|by apply Hold].
      rewrite leaf_entry_pa by (done || lia || apply Hpr). rewrite Hc by done.
      assert (frame old (mem k0) va = frame old (mem k0) i) as -> by (unfold frame; rewrite (Hsame va ltac:(lia)); by rewrite Ev).
      unfold PGSIZE in Hj. apply Fo. right. exists i. unfold in_page, PGSIZE. split; [done|]. split; [done|lia].
Qed.

(** goto err: the pages copied so far are freed *)
Lemma copied_err k0 l0 i k l : uext new 0 k0 l0 k l -> (forall va, 0 <= va < TRAPFRAME -> valid new (mem k) va = (va <? i) && valid old (mem k0) va) -> i mod PGSIZE = 0 -> 0 <= i <= TRAPFRAME ->
  exists k' l', uvmcopy_err new i k = Ret (inr (-1)) k' /\ uext new 0 k0 l0 k' l' /\ forall va, 0 <= va < TRAPFRAME -> valid new (mem k') va = false.
Proof.
  intros X V Ha Hi. destruct trapframe_max as [T1 T2]. unfold uvmcopy_err, PGSIZE in *.
  destruct (uvmunmap_run new 0 0 (i / 4096) k l (proj1 X)) as (k' & l' & E & (X' & _ & P & _)); [done|lia|dlia|unfold PGSIZE; dlia|].
  rewrite (bind_step _ _ _ _ _ E). exists k', l'. split; [done|]. split; [by eapply uext_trans|].
  intros va Hva. unfold valid. rewrite P by lia. unfold PGSIZE. replace (0 + i / 4096 * 4096) with i by dlia.
  rewrite V by done. rewrite (proj2 (Z.leb_le 0 va)) by lia. cbn [andb].
  destruct (va <? i) eqn:El; cbn [andb]; [|by fold (valid new (mem k) va); rewrite V, El].
  destruct (valid old (mem k0) va) eqn:Ev; [done|]. fold (valid new (mem k) va). by rewrite V, El, Ev.
Qed.

(** What the copy is *)
Definition same_space (m0 m : bytes) : Prop :=
  forall a, readable new m a = readable old m0 a /\ ubyte new m a = ubyte old m0 a /\
    (0 <= a < TRAPFRAME -> valid new m a = valid old m0 a /\ (valid old m0 a = true -> PTE_FLAGS (pte_of m new a) = PTE_FLAGS (pte_of m0 old a))).

Lemma copied_all sz k0 l0 i k l : uvm old sz k0 l0 -> copied k0 l0 i k l -> (forall a, 0 <= a < TRAPFRAME -> valid old (mem k0) a = true -> a < i) ->
  same_space (mem k0) (mem k).
Proof.
  intros Hu [X V Fl Da _] Hb a. pose proof (proj1 X) as Un. destruct trapframe_max as [T1 T2].
  assert (0 <= a < TRAPFRAME -> valid new (mem k) a = valid old (mem k0) a) as Hv.
  { intros Ha. rewrite V by done. destruct (valid old (mem k0) a) eqn:E; [|by rewrite andb_false_r]. by rewrite (proj2 (Z.ltb_lt a i) (Hb a Ha E)). }
  assert (readable new (mem k) a = readable old (mem k0) a) as Hr.
  { destruct (decide (0 <= a < TRAPFRAME)) as [Ha|Ha].
    - unfold readable. rewrite (Hv Ha). destruct (valid old (mem k0) a) eqn:E; [|by rewrite !andb_false_r]. f_equal.
      change PTE_U with (Z.shiftl 1 4). unfold has. rewrite !land_shiftl1 by lia. rewrite !negb_involutive.
      specialize (Fl a Ha (Hb a Ha E) E). apply (f_equal (fun z => Z.testbit z 4)) in Fl. unfold PTE_FLAGS in Fl. rewrite !Z.land_spec in Fl.
      by rewrite !andb_true_r in Fl.
    - destruct (readable new (mem k) a) eqn:E1; [by destruct (readable_low _ _ _ _ _ Un E1)|].
      destruct (readable old (mem k0) a) eqn:E2; [by destruct (readable_low _ _ _ _ _ Hu E2)|done]. }
  split; [done|]. split; [|intros Ha; split; [by apply Hv|intros E; apply Fl; [done|by apply Hb|done]]].
  unfold ubyte. rewrite Hr. destruct (readable old (mem k0) a) eqn:E; [|done].
  destruct (readable_low _ _ _ _ _ Hu E) as (Ha & Hva & _). apply Da; [done|by apply Hb|done|]. unfold PGSIZE. dlia.
Qed.

Lemma uvmcopy_run sz k0 l0 : uvm old sz k0 l0 -> uvm new 0 k0 l0 -> (forall x, owned old (mem k0) x -> foreign new (mem k0) l0 x) ->
  (forall va, 0 <= va < TRAPFRAME -> valid new (mem k0) va = false) ->
  (forall va, 0 <= va < TRAPFRAME -> valid old (mem k0) va = true -> va < PGROUNDUP sz) ->
  exists r k l, uvmcopy old new sz k0 = Ret r k /\ uext new 0 k0 l0 k l /\
    ((r = 0 /\ same_space (mem k0) (mem k)) \/
     (r = -1 /\ (forall va, 0 <= va < TRAPFRAME -> valid new (mem k) va = false) /\ Z.of_nat (length l0) <= 1 + 3 * (PGROUNDUP sz / PGSIZE))).
Proof.
  intros Hu Hn Ho He Hb. pose proof (uv_sz _ _ _ _ Hu) as Hsz. destruct trapframe_max as [T1 T2].
  set (Q := fun (r : Z) (k : kmem) => exists l, uext new 0 k0 l0 k l /\
    ((r = 0 /\ same_space (mem k0) (mem k)) \/
     (r = -1 /\ (forall va, 0 <= va < TRAPFRAME -> valid new (mem k) va = false) /\ Z.of_nat (length l0) <= 1 + 3 * (PGROUNDUP sz / PGSIZE)))).
  enough (exists r k, uvmcopy old new sz k0 = Ret r k /\ Q r k) as (r & k & E & l & HQ) by (exists r, k, l; done).
  unfold uvmcopy. apply (loop_total _ (fun i k => exists l, copied k0 l0 i k l /\ i mod PGSIZE = 0 /\ 0 <= i < sz + PGSIZE) Q (fun i _ => Z.to_nat ((sz + PGSIZE - i) / PGSIZE))).
  - intros i k (l & Hc & Ha & Hi). rewrite uvmcopy_body_eq. unfold PGSIZE in *. destruct (Z.ltb_spec i sz) as [Hlt|Hge].
    2: { exists (inr 0), k. split; [done|]. exists l. split; [apply Hc|]. left. split; [done|]. apply (copied_all sz k0 l0 i k l); try done.
         intros a Haa Hva. specialize (Hb a Haa Hva). destruct (pgroundup_page sz ltac:(lia)) as (R1 & R2 & _). unfold PGSIZE in *. dlia. }
    assert (0 <= i < TRAPFRAME) as Hit by lia. rewrite (wrap_small 64 (i + 4096)) by lia.
    destruct (parent_kept sz k0 l0 k l Hu Ho (cp_ext _ _ _ _ _ Hc)) as (Uo & Po & _).
    rewrite (bind_step _ _ _ _ _ (walk_pure old i k ltac:(lia))).
    assert (valid old (mem k0) i = false -> exists l', copied k0 l0 (i + 4096) k l') as Hskip.
    { intros Hv. exists l. destruct Hc as [X V Fl Da Lc].
      assert (forall va, i <= va < i + 4096 -> valid old (mem k0) va = false) as Hpg by (intros va Hva; unfold valid in *; rewrite (pte_of_vpn _ _ va i); [done|dlia]).
      split; [done|..|unfold PGSIZE in *; replace (i + 4096) with (i + 1 * 4096) by lia; rewrite Z.div_add by lia; lia]; intros va.
      - intros Hva. rewrite V by done. destruct (Z.ltb_spec va i), (Z.ltb_spec va (i + 4096)); cbn [andb]; try done; try lia. by rewrite Hpg by lia.
      - intros Hva Hl' Hvv. apply Fl; try done. destruct (Z.lt_ge_cases va i); [done|]. by rewrite Hpg in Hvv by lia.
      - intros j Hva Hl' Hvv Hj. apply Da; try done. destruct (Z.lt_ge_cases va i); [done|]. by rewrite Hpg in Hvv by lia. }
    assert (forall k' l', copied k0 l0 (i + 4096) k' l' -> (exists l, copied k0 l0 (i + 4096) k' l /\ (i + 4096) mod 4096 = 0 /\ 0 <= i + 4096 < sz + 4096) /\
      (Z.to_nat ((sz + 4096 - (i + 4096)) / 4096) < Z.to_nat ((sz + 4096 - i) / 4096))%nat) as Hnext.
    { intros k' l' Hc'. split; [exists l'; split; [done|]; split; [dlia|lia]|]. apply Z2Nat.inj_lt; dlia. }
    destruct (table_of (mem k) old i) as [u|] eqn:Et.
    2: { destruct Hskip as [l' Hc']; [unfold valid; rewrite <- Po; unfold pte_of; by rewrite Et|]. exists (inl (i + 4096)), k. split; [done|]. by apply (Hnext k l'). }
    destruct (table_slot old k l i u (uv_pt _ _ _ _ Uo) Et) as [E0 Ep]. rewrite E0.
    rewrite (bind_step (load64 _) _ k (pte_of (mem k) old i) k) by (unfold load64, gets; by rewrite Ep).
    destruct (has (pte_of (mem k) old i) PTE_V) eqn:HV; cbn [negb].
    2: { destruct Hskip as [l' Hc']; [unfold valid; by rewrite <- Po|]. exists (inl (i + 4096)), k. split; [done|]. by apply (Hnext k l'). }
    destruct (copied_page sz k0 l0 i k l Hu Ho Hc Ha Hit) as (r & k' & l' & E & Hr); [unfold valid; by rewrite <- Po|].
    rewrite (bind_step _ _ _ _ _ E). destruct Hr as [(-> & Hl1 & X1 & Ln & V1)|[Hr0 Hc']].
    + cbn [Z.eqb]. destruct (copied_err k0 l0 i k' l' X1 V1 Ha ltac:(lia)) as (k2 & l2 & E2 & X2 & V2). exists (inr (-1)), k2. split; [done|]. exists l2. split; [done|].
      right. split; [done|]. split; [done|]. destruct (pgroundup_page sz ltac:(lia)) as (R1 & R2 & _). unfold PGSIZE in *.
      assert (i / 4096 + 1 <= PGROUNDUP sz / 4096) by dlia. lia.
    + rewrite (proj2 (Z.eqb_neq r 0)) by done. exists (inl (i + 4096)), k'. split; [done|]. by apply (Hnext k' l').
  - exists l0. split; [|unfold PGSIZE; split; [done|lia]]. split; [by apply uext_refl|intros va..|].
    + intros Hva. rewrite He by done. destruct (Z.ltb_spec va 0); [lia|done].
    + lia.
    + lia.
    + change (0 / PGSIZE) with 0. lia.
  - unfold PGSIZE. apply Z2Nat.inj_lt; dlia.
Qed.
End copy.
