(* ===== verification/Exec.v ===== *)
(** * kernel/exec.c: loading a program

    kexec reads an ELF file through the file system into a new address space
    and replaces the image of the process with it. The file system enters
    through the interface [ExecFs]; readi copies into kernel memory, which is
    a local buffer for the headers and a physical page for the segments. *)
From stdpp Require Import base list numbers strings.
From Stdlib Require Import ZArith Lia.
From S2P Require Import Ulib Prelude Memlayout Kalloc Vm Proc.

(** elf.h *)
Definition ELF_MAGIC : Z := 0x464C457F.
Definition ELF_PROG_LOAD : Z := 1.
Record elfhdr := Elf { e_magic : Z; e_entry : Z; e_phoff : Z; e_phnum : Z }.
Record proghdr := Ph { ph_type : Z; ph_flags : Z; ph_off : Z; ph_vaddr : Z; ph_filesz : Z; ph_memsz : Z }.
Definition ELF_SIZE : Z := 64.
Definition PH_SIZE : Z := 56.
(** The fields kexec uses, at their offsets. *)
Definition get_elf (m : bytes) (a : Z) : elfhdr := Elf (ld32 m a) (ld64 m (a + 24)) (ld64 m (a + 32)) (ld16 m (a + 56)).
Definition get_ph (m : bytes) (a : Z) : proghdr :=
  Ph (ld32 m a) (ld32 m (a + 4)) (ld64 m (a + 8)) (ld64 m (a + 16)) (ld64 m (a + 32)) (ld64 m (a + 40)).

(** begin_op and namei, ilock, iunlockput, end_op, and readi(ip, 0, dst, off, n)
    for a destination in the kernel memory [m], which is returned with the
    result. *)
Class ExecFs (F : Type) := {
  x_begin : M F unit;
  x_end : M F unit;
  x_namei : chars -> M F Z;
  x_ilock : Z -> M F unit;
  x_iunlockput : Z -> M F unit;
  x_readi : Z -> bytes -> Z -> Z -> Z -> M F (Z * bytes);
}.

(** What kexec relies on. [x_ok f ip c size]: the inode [ip], locked by the
    caller inside a transaction, holds the [size] bytes [c]. readi gives those
    bytes, or fewer than asked, and writes nothing but its destination. *)
Class ExecFsLaws (F : Type) `{ExecFs F} := {
  x_ok : F -> Z -> bytes -> Z -> Prop;
  x_size f ip c size : x_ok f ip c size -> 0 <= size < 2 ^ 32 /\ bytes_ok c;
  x_readi_ok f ip c size m a off n : x_ok f ip c size -> bytes_ok m -> 0 <= off < 2 ^ 32 -> 0 <= n < 2 ^ 32 -> 0 <= a -> a + n <= 2 ^ 64 ->
    exists r m' f', x_readi ip m a off n f = Ret (r, m') f' /\ x_ok f' ip c size /\ bytes_ok m' /\ -1 <= r <= n /\
      (forall x, x < a \/ a + n <= x -> m' x = m x) /\
      (r = n -> 0 < n -> off + n <= size /\ forall i, 0 <= i < n -> m' (a + i) = c (off + i));
  x_close_ok f ip c size : x_ok f ip c size ->
    exists f' f'', x_iunlockput ip f = Ret tt f' /\ x_end f' = Ret tt f'';
}.

(** offsetof(struct trapframe, epc), sp and a1 *)
Definition TF_EPC : Z := 24.
Definition TF_SP : Z := 48.
Definition TF_A1 : Z := 120.

Definition flags2perm (flags : Z) : Z :=
  let perm := if negb (Z.land flags 1 =? 0) then PTE_X else 0 in
  if negb (Z.land flags 2 =? 0) then Z.lor perm PTE_W else perm.

(** A string with its terminator, and the array ustack, as memory *)
Definition str_bytes (t : chars) : bytes := store_list (fun _ => 0) 0 t.
Fixpoint ustack_bytes (m : bytes) (a : Z) (l : list Z) : bytes :=
  match l with [] => m | v :: l' => ustack_bytes (st64 m a v) (a + 8) l' end.

(** The loop that finds the part of the path after the last slash *)
Fixpoint last_name (last s : chars) : chars :=
  match s with [] => last | c :: s' => if c =? 47 then last_name s' s' else last_name last s' end.

Section exec.
Context `{KernelEnd} {F : Type} `{ExecFs F}.
Context (trampoline : Z).
Abbreviation P := (M (pstate F)).

(** readi into a local variable, and into physical memory at [pa] *)
Definition readi_local (ip off n : Z) : P (Z * bytes) := file_op (x_readi ip (fun _ => 0) 0 off n).
Definition readi_page (ip pa off n : Z) : P Z :=
  k <- gets km ;;
  r <- file_op (x_readi ip (mem k) pa off n) ;;
  modify (set_km (set_mem (snd r) k)) ;;;
  ret (fst r).

Definition loadseg_body (pagetable va ip offset sz : Z) : Z -> P (Z + Z) := fun i =>
  if i <? sz then
    pa <- memory_op (walkaddr pagetable (u64 (va + i))) ;;
    if pa =? 0 then panic "loadseg: address should exist"
    else
      let n := if sz - i <? PGSIZE then sz - i else PGSIZE in
      r <- readi_page ip pa (u32 (offset + i)) n ;;
      if negb (u32 r =? n) then ret (inr (-1)) else ret (inl (u32 (i + PGSIZE)))
  else ret (inr 0).
Definition loadseg (pagetable va ip offset sz : Z) : P Z :=
  loop (Z.to_nat (sz / PGSIZE + 2)) (loadseg_body pagetable va ip offset sz) 0.

(** bad: with and without the inode *)
Definition bad (pagetable sz : Z) (ip : option Z) : P Z :=
  when (negb (pagetable =? 0)) (memory_op (proc_freepagetable pagetable sz)) ;;;
  match ip with
  | Some ip => file_op (x_iunlockput ip) ;;; file_op x_end
  | None => ret tt
  end ;;;
  ret (-1).

(** One program header: the new size, None where the code jumps to bad with
    the size then current *)
Definition load_ph (pagetable ip off sz : Z) : P (Z * bool) :=
  r <- readi_local ip (u32 off) PH_SIZE ;;
  if negb (fst r =? PH_SIZE) then ret (sz, false)
  else
    let ph := get_ph (snd r) 0 in
    if negb (ph_type ph =? ELF_PROG_LOAD) then ret (sz, true)
    else if ph_memsz ph <? ph_filesz ph then ret (sz, false)
    else if u64 (ph_vaddr ph + ph_memsz ph) <? ph_vaddr ph then ret (sz, false)
    else if negb (ph_vaddr ph mod PGSIZE =? 0) then ret (sz, false)
    else
      sz1 <- memory_op (uvmalloc pagetable sz (u64 (ph_vaddr ph + ph_memsz ph)) (flags2perm (i32 (ph_flags ph)))) ;;
      if sz1 =? 0 then ret (sz, false)
      else
        r <- loadseg pagetable (ph_vaddr ph) ip (u32 (ph_off ph)) (u32 (ph_filesz ph)) ;;
        if r <? 0 then ret (sz1, false) else ret (sz1, true).

(** for (i = 0, off = elf.phoff; i < elf.phnum; i++, off += sizeof(ph)) *)
Definition load_body (pagetable ip phnum : Z) : Z * Z * Z -> P (Z * Z * Z + Z * bool) := fun '(i, off, sz) =>
  if i <? phnum then
    r <- load_ph pagetable ip off sz ;;
    if (snd r : bool) then ret (inl (i + 1, i32 (off + PH_SIZE), fst r)) else ret (inr r)
  else ret (inr (sz, true)).

(** The strings of argv, pushed one after the other: the stack pointer and
    the addresses, or None for bad *)
Definition push_body (pagetable stackbase : Z) (p : Z) :
    list chars * Z * list Z -> P (list chars * Z * list Z + option (Z * list Z)) := fun '(argv, sp, us) =>
  match argv with
  | [] => ret (inr (Some (sp, us)))
  | s :: argv' =>
      if MAXARG <=? Z.of_nat (length us) then ret (inr None)
      else
        let n := Z.of_nat (length s) + 1 in
        let sp := u64 (sp - n) in
        let sp := sp - sp mod 16 in
        if sp <? stackbase then ret (inr None)
        else
          pr <- proc_of p ;;
          r <- memory_op (copyout (p_sz pr) (p_pagetable pr) pagetable sp (str_bytes s) 0 n) ;;
          if r <? 0 then ret (inr None) else ret (inl (argv', sp, us ++ [sp]))
  end.
Definition push_args (pagetable stackbase p sp : Z) (argv : list chars) : P (option (Z * list Z)) :=
  loop (S (length argv)) (push_body pagetable stackbase p) (argv, sp, []).

(** ustack[argc] = 0 and the array of pointers: the final stack pointer. The
    array has MAXARG places: with MAXARG arguments the store is out of bounds,
    and the code's behaviour is undefined. *)
Definition push_ustack (pagetable stackbase p sp : Z) (us : list Z) : P (option Z) :=
  if MAXARG <=? Z.of_nat (length us) then panic "ustack out of bounds" else
  let n := (Z.of_nat (length us) + 1) * 8 in
  let sp := u64 (sp - n) in
  let sp := sp - sp mod 16 in
  if sp <? stackbase then ret None
  else
    pr <- proc_of p ;;
    r <- memory_op (copyout (p_sz pr) (p_pagetable pr) pagetable sp (ustack_bytes (fun _ => 0) 0 (us ++ [0])) 0 n) ;;
    if r <? 0 then ret None else ret (Some sp).

(** Saving the name and committing to the user image *)
Definition commit_image (p : Z) (path : chars) (pagetable sz entry sp argc : Z) : P Z :=
  pr <- proc_of p ;;
  memory_op (store64 (p_trapframe pr + TF_A1) sp) ;;;
  upd p (set_name (safestr (last_name path path))) ;;;
  upd p (set_pagetable pagetable) ;;;
  upd p (set_sz sz) ;;;
  memory_op (store64 (p_trapframe pr + TF_EPC) entry) ;;;
  memory_op (store64 (p_trapframe pr + TF_SP) sp) ;;;
  memory_op (proc_freepagetable (p_pagetable pr) (p_sz pr)) ;;;
  ret argc.

(** After the program is loaded: the stack and its contents *)
Definition exec_stack (p : Z) (path : chars) (argv : list chars) (pagetable sz entry : Z) : P Z :=
  let sz := PGROUNDUP sz in
  sz1 <- memory_op (uvmalloc pagetable sz (u64 (sz + (USERSTACK + 1) * PGSIZE)) PTE_W) ;;
  if sz1 =? 0 then bad pagetable sz None
  else
    let sz := sz1 in
    memory_op (uvmclear pagetable (sz - (USERSTACK + 1) * PGSIZE)) ;;;
    let stackbase := sz - USERSTACK * PGSIZE in
    a <- push_args pagetable stackbase p sz argv ;;
    match a with
    | None => bad pagetable sz None
    | Some (sp, us) =>
        b <- push_ustack pagetable stackbase p sp us ;;
        match b with
        | None => bad pagetable sz None
        | Some sp => commit_image p path pagetable sz entry sp (Z.of_nat (length us))
        end
    end.

Definition kexec (p : Z) (path : chars) (argv : list chars) : P Z :=
  file_op x_begin ;;;
  ip <- file_op (x_namei path) ;;
  if ip =? 0 then file_op x_end ;;; ret (-1)
  else
    file_op (x_ilock ip) ;;;
    r <- readi_local ip 0 ELF_SIZE ;;
    if negb (fst r =? ELF_SIZE) then bad 0 0 (Some ip)
    else
      let elf := get_elf (snd r) 0 in
      if negb (e_magic elf =? ELF_MAGIC) then bad 0 0 (Some ip)
      else
        pagetable <- proc_pagetable trampoline p ;;
        if pagetable =? 0 then bad 0 0 (Some ip)
        else
          r <- loop (Z.to_nat (e_phnum elf) + 1) (load_body pagetable ip (e_phnum elf)) (0, i32 (e_phoff elf), 0) ;;
          if negb (snd r) then bad pagetable (fst r) (Some ip)
          else
            file_op (x_iunlockput ip) ;;;
            file_op x_end ;;;
            exec_stack p path argv pagetable (fst r) (e_entry elf).
End exec.
