(* ===== verification/ExecSpace.v ===== *)
(** * proc_pagetable and proc_freepagetable

    A new page table maps the trampoline and the trap frame and nothing else;
    destroying a space gives back its pages, and nothing else changes. *)
From stdpp Require Import base list numbers strings relations.
From Stdlib Require Import ZArith Lia FunctionalExtensionality.
From S2P Require Import Prelude Memlayout Kalloc Vm VmTables VmUser VmAlloc VmSpace Proc.

Section proc_spaces.
Context `{KernelEnd} {F : Type}.

Lemma high_pages : TRAPFRAME mod PGSIZE = 0 /\ TRAMPOLINE mod PGSIZE = 0 /\ TRAMPOLINE = TRAPFRAME + 4096 /\ MAXVA = TRAMPOLINE + 4096 /\
  TRAPFRAME = 274877898752.
Proof. repeat split; reflexivity. Qed.

Lemma proc_freepagetable_run root sz s k l : uvm root sz k l -> 0 <= s <= TRAPFRAME ->
  (forall a, 0 <= a < TRAPFRAME -> valid root (mem k) a = true -> a < PGROUNDUP s) ->
  exists k' l', proc_freepagetable root s k = Ret tt k' /\ kmem_inv k' l' /\ bytes_ok (mem k') /\
    (forall x, foreign root (mem k) l x -> mem k' x = mem k x /\ outside l' x) /\ (forall x, outside l' x -> foreign root (mem k) l x).
Proof.
  intros Hu Hs Hm. destruct high_pages as (A1 & A2 & E1 & E2 & E3). unfold proc_freepagetable.
  destruct (unmap_high root sz TRAMPOLINE k l Hu A2) as (k1 & R1 & X1 & _ & P1 & N1); [lia|].
  destruct (unmap_high root sz TRAPFRAME k1 l (proj1 X1) A1) as (k2 & R2 & X2 & _ & P2 & N2); [lia|].
  rewrite (bind_step _ _ _ _ _ R1), (bind_step _ _ _ _ _ R2).
  destruct (uvmfree_run root sz s k2 l (proj1 X2) Hs) as (k3 & l3 & R3 & K3 & B3 & F3 & C3).
  { intros a Ha Hv. destruct (decide (a / 4096 = TRAPFRAME / 4096)) as [Ea|Ea]; [by rewrite N2 in Hv|]. rewrite P2 in Hv by done.
    destruct (decide (a / 4096 = TRAMPOLINE / 4096)) as [Eb|Eb]; [by rewrite N1 in Hv|]. rewrite P1 in Hv by done.
    apply Hm; [|done]. rewrite E2, E1, E3 in *. dlia. }
  destruct X1 as (V1 & X1 & D1), X2 as (V2 & X2 & D2).
  exists k3, l3. split; [done|]. split; [done|]. split; [done|]. split; [|auto]. intros x Hx.
  destruct (X1 x Hx) as [M1 G1]. destruct (X2 x G1) as [M2 G2]. destruct (F3 x G2) as [M3 O3]. split; [congruence|done].
Qed.

(** Everything outside the pages that were free is as before: with the pages
    given back, and with the space [root] made of some of them. *)
Definition restored (k0 : kmem) (l0 : list Z) (k : kmem) (l : list Z) : Prop :=
  kmem_inv k l /\ bytes_ok (mem k) /\ (forall x, outside l0 x -> mem k x = mem k0 x /\ outside l x) /\ (forall x, outside l x -> outside l0 x).
Definition built (k0 : kmem) (l0 : list Z) (root : Z) (k : kmem) (l : list Z) : Prop :=
  uvm root 0 k l /\ (forall x, outside l0 x -> mem k x = mem k0 x /\ foreign root (mem k) l x) /\ (forall x, foreign root (mem k) l x -> outside l0 x).

(** Only pages that were free are disturbed. *)
Definition within (k0 : kmem) (l0 : list Z) (k : kmem) (l : list Z) : Prop :=
  kmem_inv k l /\ bytes_ok (mem k) /\ forall x, outside l0 x -> mem k x = mem k0 x /\ outside l x.

Lemma restored_within k0 l0 k l : restored k0 l0 k l -> within k0 l0 k l.
Proof. intros (A & B & C & _). done. Qed.

(** With everything given back, the free pages are those of before. *)
Lemma restored_free k0 l0 k l : kmem_inv k0 l0 -> restored k0 l0 k l -> l ≡ₚ l0.
Proof.
  intros [_ N0 P0] ([_ N P] & _ & Hf & Hb). rewrite Forall_forall in P, P0.
  assert (forall l1 l2, (forall y, y ∈ l1 -> page_ok y) -> (forall y, y ∈ l2 -> page_ok y) -> (forall x, outside l2 x -> outside l1 x) -> forall y, y ∈ l1 -> y ∈ l2) as Hsub.
  { intros l1 l2 F1 F2 Ho y Hy. destruct (decide (y ∈ l2)) as [|Hn]; [done|]. exfalso.
    assert (in_page y y) as Hself by (unfold in_page, PGSIZE; lia). apply (Ho y) with (y := y); [|done|done].
    intros z Hz Hzy. assert (z <> y) as Hne by (intros ->; done).
    destruct (page_apart z y y (F2 z Hz) (F1 y Hy) Hne Hzy) as [?|?]; unfold PGSIZE in *; lia. }
  apply NoDup_Permutation; [done|done|]. intros y. split; [|exact (Hsub l0 l P0 P Hb y)]. apply (Hsub l l0 P P0). intros x Hx. by apply Hf.
Qed.

Lemma built_uext k0 l0 root k l k' l' : built k0 l0 root k l -> uext root 0 k l k' l' -> built k0 l0 root k' l'.
Proof.
  intros (Hu & Hf & Hc) (U & X & C). split; [done|]. split; [|auto]. intros x Hx. destruct (Hf x Hx) as [E1 F1]. destruct (X x F1) as [E2 F2]. split; [congruence|done].
Qed.

Lemma built_free k0 l0 root s k l : built k0 l0 root k l -> 0 <= s <= TRAPFRAME ->
  (forall a, 0 <= a < TRAPFRAME -> valid root (mem k) a = true -> a < PGROUNDUP s) ->
  exists k' l', proc_freepagetable root s k = Ret tt k' /\ restored k0 l0 k' l'.
Proof.
  intros (Hu & Hf & Hc) Hs Hm. destruct (proc_freepagetable_run root 0 s k l Hu Hs Hm) as (k' & l' & E & Hk & Hb & Hx & Cx).
  exists k', l'. split; [done|]. split; [done|]. split; [done|]. split; [|auto]. intros x Ho. destruct (Hf x Ho) as [E1 F1].
  destruct (Hx x F1) as [E2 O2]. split; [congruence|done].
Qed.

Context (trampoline : Z).
Hypothesis trampoline_pa : 0 <= trampoline /\ trampoline + PGSIZE <= 2 ^ 56.

Definition new_pagetable (tf : Z) : M kmem Z :=
  pagetable <- uvmcreate ;;
  if pagetable =? 0 then ret 0
  else
    r <- mappages pagetable TRAMPOLINE PGSIZE trampoline (Z.lor PTE_R PTE_X) ;;
    if r <? 0 then uvmfree pagetable 0 ;;; ret 0
    else
      r <- mappages pagetable TRAPFRAME PGSIZE tf (Z.lor PTE_R PTE_W) ;;
      if r <? 0 then uvmunmap pagetable TRAMPOLINE 1 false ;;; uvmfree pagetable 0 ;;; ret 0
      else ret pagetable.

Lemma proc_pagetable_eq i (s : pstate F) : proc_pagetable trampoline i s = memory_op (new_pagetable (p_trapframe (procs s i))) s.
Proof. reflexivity. Qed.

(** uvmfree(pagetable, 0) of a space whose only entries are high ones *)
Lemma built_free0 k0 l0 root k l : built k0 l0 root k l ->
  (forall a, 0 <= a < MAXVA -> has (pte_of (mem k) root a) PTE_V = false) ->
  exists k' l', uvmfree root 0 k = Ret tt k' /\ restored k0 l0 k' l'.
Proof.
  intros (Hu & Hf & Hc) Hn. destruct (uvmfree_run root 0 0 k l Hu) as (k' & l' & E & Hk & Hb & Hx & Cx).
  { destruct high_pages. lia. }
  { intros a Ha Hv. by rewrite Hn in Hv. }
  exists k', l'. split; [done|]. split; [done|]. split; [done|]. split; [|auto]. intros x Ho. destruct (Hf x Ho) as [E1 F1].
  destruct (Hx x F1) as [E2 O2]. split; [congruence|done].
Qed.

Lemma new_pagetable_run tf k0 l0 : kmem_inv k0 l0 -> bytes_ok (mem k0) -> 0 <= tf -> tf + PGSIZE <= 2 ^ 56 ->
  exists r k l, new_pagetable tf k0 = Ret r k /\
    ((r = 0 /\ restored k0 l0 k l /\ (length l0 <= 5)%nat) \/
     (r <> 0 /\ (length l0 <= length l + 5)%nat /\ built k0 l0 r k l /\ contiguous r 0 k /\ forall a, ubyte r (mem k) a = 0)).
Proof.
  intros Hk Hb Ht1 Ht2. destruct high_pages as (A1 & A2 & E1 & E2 & E3). unfold new_pagetable.
  destruct (uvmcreate_run k0 l0 0 Hk Hb ltac:(lia)) as [[-> E]|(r & k1 & l1 & E & Hr & Ln1 & U1 & P1 & F1)].
  { rewrite (bind_step _ _ _ _ _ E). exists 0, k0, []. split; [done|]. left. split; [done|]. split; [|cbn; lia]. split; [done|]. split; [done|]. done. }
  rewrite (bind_step _ _ _ _ _ E), (proj2 (Z.eqb_neq r 0)) by done. assert (built k0 l0 r k1 l1) as B1 by done.
  assert (forall a, ubyte r (mem k1) a = 0) as Z1.
  { intros a. unfold ubyte, readable, valid. rewrite P1. by rewrite andb_false_r. }
  destruct (map_high r 0 TRAMPOLINE trampoline (Z.lor PTE_R PTE_X) k1 l1 U1 A2) as (r2 & k2 & l2 & R2 & X2 & Z2 & C2 & Ln2 & P2); try done; try lia.
  { intros a _. by rewrite P1. }
  assert (built k0 l0 r k2 l2) as B2 by by eapply built_uext.
  rewrite (bind_step _ _ _ _ _ R2). destruct C2 as [-> |[-> ->]].
  2: { cbn [Z.ltb Z.compare]. destruct (built_free0 k0 l0 r k2 [] B2) as (k3 & l3 & R3 & B3).
       { intros a Ha. rewrite P2 by done. by rewrite P1. }
       rewrite (bind_step _ _ _ _ _ R3). exists 0, k3, l3. split; [done|]. left. split; [done|]. split; [done|cbn [length] in *; lia]. }
  cbn [Z.ltb Z.compare]. assert (forall a, 0 <= a < MAXVA -> a / 4096 <> TRAMPOLINE / 4096 -> pte_of (mem k2) r a = 0) as L2.
  { intros a Ha Hne. rewrite P2 by done. by rewrite (proj2 (Z.eqb_neq _ _) Hne), P1. }
  destruct (map_high r 0 TRAPFRAME tf (Z.lor PTE_R PTE_W) k2 l2 (proj1 B2) A1) as (r3 & k3 & l3 & R3 & X3 & Z3 & C3 & Ln3 & P3); try done; try lia.
  { intros a Ha. unfold PGSIZE in Ha. rewrite L2; [done|lia|]. rewrite E1, E3 in *. dlia. }
  assert (built k0 l0 r k3 l3) as B3 by by eapply built_uext.
  rewrite (bind_step _ _ _ _ _ R3). destruct C3 as [-> |[-> ->]]; cbn [Z.ltb Z.compare].
  - exists r, k3, l3. split; [done|]. right. split; [done|]. split; [lia|]. split; [done|]. split; [|intros a; by rewrite Z3, Z2].
    intros va Hva. unfold valid. change (PGROUNDUP 0) with 0. rewrite (proj2 (Z.ltb_ge va 0)) by lia.
    rewrite P3 by lia. rewrite (proj2 (Z.eqb_neq (va / 4096) _)) by (rewrite E3 in *; dlia). cbn [andb Z.eqb].
    rewrite L2; [done|lia|]. rewrite E1, E3 in *. dlia.
  - destruct (unmap_high r 0 TRAMPOLINE k3 [] (proj1 B3) A2) as (k4 & R4 & X4 & _ & P4 & N4); [lia|].
    rewrite (bind_step _ _ _ _ _ R4). destruct (built_free0 k0 l0 r k4 []) as (k5 & l5 & R5 & B5).
    { by eapply built_uext. }
    { intros a Ha. destruct (decide (a / 4096 = TRAMPOLINE / 4096)) as [Ea|Ea]; [by apply N4|]. rewrite P4, P3, L2 by done. done. }
    rewrite (bind_step _ _ _ _ _ R5). exists 0, k5, l5. split; [done|]. left. split; [done|]. split; [done|cbn [length] in *; lia].
Qed.
End proc_spaces.
