(* ===== verification/ExecFile.v ===== *)
(** * The file system as kexec sees it

    The operations of kernel/fs.c (file Fs) behind the interface [ExecFs]: the
    inode with index i of the table is i + 1, so that 0 is the null pointer, and
    path names, directory entries and names are kept in kernel memory at the
    addresses given. *)
From stdpp Require Import base list numbers strings.
From Stdlib Require Import ZArith Lia FunctionalExtensionality.
From S2P Require Import Ulib Prelude Memlayout Kalloc BufCache UserMem Fs FsBlocks FsFiles Proc Exec.

Section exec_file.
Context {U : Type} `{UL : UserMemLaws U}.
Context (a_path a_de a_name : Z).
Implicit Types s : fstate U.

Definition fs_namei (path : chars) : M (fstate U) Z :=
  modify (fun s => set_kmem (store_list (Fs.kmem s) a_path (path ++ [0])) s) ;;;
  ip <- namei a_de a_name a_path ;;
  ret (if ip =? NULL then 0 else ip + 1).

(** readi into the kernel memory [m], which the state holds meanwhile *)
Definition fs_readi (ip : Z) (m : bytes) (a off n : Z) : M (fstate U) (Z * bytes) := fun s =>
  match readi (ip - 1) false a off n (set_kmem m s) with
  | Ret r s' => Ret (r, Fs.kmem s') (set_kmem (Fs.kmem s) s')
  | Panic e => Panic e
  | Sleep c s' => Sleep c (set_kmem (Fs.kmem s) s')
  | Diverge => Diverge
  end.

#[export] Instance exec_fs : ExecFs (fstate U) := {|
  x_begin := begin_op_f;
  x_end := end_op_f;
  x_namei := fs_namei;
  x_ilock ip := ilock (ip - 1);
  x_iunlockput ip := iunlockput (ip - 1);
  x_readi := fs_readi;
|}.

(** The inode is locked by the caller and will not be freed by its iput. *)
Record open_inode s (i : Z) : Prop := OpenInode {
  oi_index : 0 <= i;
  oi_lock : holdingsleep_i i s = true;
  oi_ref : 1 <= i_ref (itable s i);
  oi_kept : (i_ref (itable s i) =? 1) && negb (i_valid (itable s i) =? 0) && (i_nlink (itable s i) =? 0) = false;
}.

Definition contents s (i : Z) : bytes := fun o => if (0 <=? o) && (o <? MAXFILE * BSIZE) then fbyte s (itable s i) o else 0.

Record exec_inode s (ip : Z) (c : bytes) (size : Z) : Prop := ExecInode {
  ei_open : open_inode s (ip - 1);
  ei_file : file_at (ip - 1) s;
  ei_bytes : all_bytes s;
  ei_size : size = i_size (itable s (ip - 1));
  ei_contents : forall o, c o = contents s (ip - 1) o;
}.

Lemma fbyte_range s ip o : all_bytes s -> 0 <= fbyte s ip o < 256.
Proof. intros Hb. unfold fbyte. destruct (_ =? 0); [lia|apply Hb]. Qed.

Lemma kmem_inode s ip c size m : exec_inode s ip c size -> exec_inode (set_kmem m s) ip c size.
Proof. intros [[O1 O2 O3 O4] [F1 F2 F3 F4 F5] B S C]. split; try done. destruct F1, F2. by split. Qed.

Lemma max_file_size : 0 < MAXFILE * BSIZE < 2 ^ 32.
Proof. vm_compute. done. Qed.

(** A read leaves the inode open with the same contents. *)
Lemma read_inode s s' ip c size dst off n r : exec_inode s ip c size -> read_result (ip - 1) false dst off n r s s' -> exec_inode s' ip c size.
Proof.
  intros [[O1 O2 O3 O4] [F1 F2 F3 F4 F5] B -> C] (R1 & R2 & R3 & R4 & [a Ea] & R6 & R7 & R8 & R9 & (_ & K2 & _) & _).
  split; [split|split| | |]; rewrite ?Ea, ?R4; cbn; try done.
  - unfold holdingsleep_i. rewrite Ea, K2. exact O2.
  - by rewrite Ea in R1.
  - intros o. rewrite C. unfold contents. destruct (Z.leb_spec 0 o), (Z.ltb_spec o (MAXFILE * BSIZE)); cbn [andb]; try done. symmetry. by apply R7.
Qed.

Lemma fs_readi_ok s ip c size m a off n : exec_inode s ip c size -> bytes_ok m -> 0 <= off < 2 ^ 32 -> 0 <= n < 2 ^ 32 -> 0 <= a -> a + n <= 2 ^ 64 ->
  exists r m' s', fs_readi ip m a off n s = Ret (r, m') s' /\ exec_inode s' ip c size /\ bytes_ok m' /\ -1 <= r <= n /\
    (forall x, x < a \/ a + n <= x -> m' x = m x) /\
    (r = n -> 0 < n -> off + n <= size /\ forall i, 0 <= i < n -> m' (a + i) = c (off + i)).
Proof.
  intros He Hm Ho Hn Ha1 Ha2. pose proof (kmem_inode s ip c size m He) as He1. set (s1 := set_kmem m s) in *.
  pose proof He1 as [_ Hf Hb Hs Hc]. pose proof (fa_size _ _ Hf) as Hsz. rewrite <- Hs in Hsz. pose proof max_file_size as Hmax.
  pose proof (readi_run (ip - 1) false a off n s1 Hf Hb Ho Hn Ha1 Ha2) as Hr. rewrite <- Hs in Hr.
  unfold fs_readi. fold s1. destruct (Z.leb_spec off size) as [Hle|Hgt]; cbn [andb] in Hr.
  - destruct (Z.ltb_spec (off + n) (2 ^ 32)) as [Hw|Hw].
    + destruct Hr as (r & s2 & E & Hr). rewrite E. exists r, (Fs.kmem s2), (set_kmem (Fs.kmem s) s2). split; [done|].
      split; [apply kmem_inode; by eapply read_inode|].
      destruct Hr as (R1 & R2 & R3 & R4 & R5 & R6 & R7 & R8 & R9 & (_ & K2 & K3) & [(_ & ? & _)|(Hrr & Hrk & _)]); [done|].
      split; [by apply K3|]. split; [lia|]. split; [intros x Hx; apply (R8 x); lia|]. intros Er Hn0. split; [lia|].
      intros i Hi. rewrite (Hrk i ltac:(lia) : Fs.kmem s2 (a + i) = _), Hc. unfold contents.
      by rewrite (proj2 (Z.leb_le 0 _)), (proj2 (Z.ltb_lt _ (MAXFILE * BSIZE))) by lia.
    + rewrite Hr. exists 0, m, (set_kmem (Fs.kmem s) s1). split; [done|]. split; [by apply kmem_inode|]. split; [done|]. split; [lia|]. split; [done|]. lia.
  - rewrite Hr. exists 0, m, (set_kmem (Fs.kmem s) s1). split; [done|]. split; [by apply kmem_inode|]. split; [done|]. split; [lia|]. split; [done|]. lia.
Qed.

Lemma fs_close_ok s ip c size : exec_inode s ip c size ->
  exists s' s'', iunlockput (ip - 1) s = Ret tt s' /\ end_op_f s' = Ret tt s''.
Proof.
  intros [[O1 O2 O3 O4] _ _ _ _]. set (i := ip - 1) in *. set (s1 := on_inode i (with_lock 0 0) s).
  assert (itable s1 i = with_lock 0 0 (itable s i)) as Ei by (unfold s1, on_inode; cbn; apply fupd_eq).
  eexists _, _. split; [|reflexivity]. unfold iunlockput. rewrite (bind_step _ _ s tt s1).
  - unfold iput. rewrite (bind_step _ _ s1 (itable s1 i) s1) by done. rewrite Ei. cbn [i_ref i_valid i_nlink with_lock]. rewrite O4. reflexivity.
  - unfold iunlock. rewrite (bind_step _ _ s s s) by done. rewrite (proj2 (Z.eqb_neq i NULL)) by (unfold NULL; lia). rewrite O2.
    by rewrite (proj2 (Z.ltb_ge _ 1)) by lia.
Qed.

#[export] Instance exec_fs_laws : ExecFsLaws (fstate U).
Proof.
  refine {| x_ok := exec_inode |}.
  - intros s ip c size [_ Hf Hb -> Hc]. pose proof max_file_size. destruct (fa_size _ _ Hf). split; [lia|]. intros o. rewrite Hc. unfold contents.
    destruct (_ && _); [by apply fbyte_range|lia].
  - intros. by apply fs_readi_ok.
  - intros. by eapply fs_close_ok.
Defined.
End exec_file.
