(* ===== verification/ExecProps.v ===== *)
(** * kexec installs the program or changes nothing

    [exec_image] says what the memory of the new process must read as: the
    segments of the file, zeroes elsewhere, and the arguments on the stack.
    kexec returns -1 with the process and its memory as they were, or returns
    the number of arguments with the process running in exactly that image. *)
From stdpp Require Import base list numbers strings relations.
From Stdlib Require Import ZArith Lia FunctionalExtensionality.
From S2P Require Import Ulib Prelude Memlayout Kalloc Vm VmTables VmUser VmAlloc VmSpace Proc ExecSpace Exec.

(** ** The image a file and arguments describe *)

Section image.
Context (c : bytes) (size : Z).

(** The size and the memory after the [n] program headers at [off] *)
Fixpoint load_image (n : nat) (off sz : Z) (m : bytes) : option (Z * bytes) :=
  match n with
  | O => Some (sz, m)
  | S n' =>
      let ph := get_ph c (u32 off) in
      let stop := ph_vaddr ph + ph_memsz ph in
      if size <? u32 off + PH_SIZE then None
      else if negb (ph_type ph =? ELF_PROG_LOAD) then load_image n' (i32 (off + PH_SIZE)) sz m
      else if (ph_memsz ph <? ph_filesz ph) || (2 ^ 64 <=? stop) || negb (ph_vaddr ph mod PGSIZE =? 0) ||
              ((0 <? ph_filesz ph) && (size <? u32 (ph_off ph) + ph_filesz ph)) then None
      else load_image n' (i32 (off + PH_SIZE)) (Z.max sz stop) (blit m (ph_vaddr ph) c (u32 (ph_off ph)) (ph_filesz ph))
  end.

(** Strings pushed on the stack down to [base] *)
Definition align16 (sp : Z) : Z := sp - sp mod 16.
Fixpoint stack_image (base : Z) (argv : list chars) (sp : Z) (us : list Z) (m : bytes) : option (Z * list Z * bytes) :=
  match argv with
  | [] => Some (sp, us, m)
  | s :: argv' =>
      let n := Z.of_nat (length s) + 1 in
      let sp := align16 (sp - n) in
      if (MAXARG <=? Z.of_nat (length us)) || (sp <? base) then None
      else stack_image base argv' sp (us ++ [sp]) (blit m sp (str_bytes s) 0 n)
  end.

(** Whether a page may be written and executed *)
Definition rights := Z -> bool * bool.

(** The rights after the same headers: a page gets those of the segment that
    first reaches it, from the flags PF_W (bit 1) and PF_X (bit 0). *)
Fixpoint load_rights (n : nat) (off sz : Z) (rts : rights) : rights :=
  match n with
  | O => rts
  | S n' =>
      let ph := get_ph c (u32 off) in
      let stop := ph_vaddr ph + ph_memsz ph in
      if negb (ph_type ph =? ELF_PROG_LOAD) then load_rights n' (i32 (off + PH_SIZE)) sz rts
      else load_rights n' (i32 (off + PH_SIZE)) (Z.max sz stop)
             (fun va => if (PGROUNDUP sz <=? va) && (va <? PGROUNDUP stop)
                        then (Z.testbit (ph_flags ph) 1, Z.testbit (ph_flags ph) 0) else rts va)
  end.

(** The rights in an image of [sz] bytes: those of the segments, then the
    stack and its guard, which are written and not executed. *)
Definition exec_rights (sz : Z) : rights :=
  let elf := get_elf c 0 in
  fun va => if va <? sz - (USERSTACK + 1) * PGSIZE
            then load_rights (Z.to_nat (e_phnum elf)) (i32 (e_phoff elf)) 0 (fun _ => (false, false)) va
            else (true, false).

(** entry, size, stack pointer and memory *)
Definition exec_image (argv : list chars) : option (Z * Z * Z * bytes) :=
  let elf := get_elf c 0 in
  if (size <? ELF_SIZE) || negb (e_magic elf =? ELF_MAGIC) then None
  else
    match load_image (Z.to_nat (e_phnum elf)) (i32 (e_phoff elf)) 0 (fun _ => 0) with
    | None => None
    | Some (sz, m) =>
        let sz := PGROUNDUP sz + (USERSTACK + 1) * PGSIZE in
        let base := sz - USERSTACK * PGSIZE in
        match stack_image base argv sz [] m with
        | None => None
        | Some (sp, us, m) =>
            let n := (Z.of_nat (length us) + 1) * 8 in
            let sp := align16 (sp - n) in
            if sp <? base then None
            else Some (e_entry elf, sz, sp, blit m sp (ustack_bytes (fun _ => 0) 0 (us ++ [0])) 0 n)
        end
    end.
End image.

Section loading.
Context `{KernelEnd} {F : Type} `{FL : ExecFsLaws F}.
Implicit Types s : pstate F.

(** The rights the page table gives *)
Definition page_rights (root : Z) (m : bytes) : rights := fun va => (has (pte_of m root va) PTE_W, has (pte_of m root va) PTE_X).

(** A space under construction: mapped from 0 to [sz] with user pages that
    read as [img] and have the rights [rts] *)
Record space_at (k0 : kmem) (l0 : list Z) (root sz : Z) (img : bytes) (rts : rights) (k : kmem) (l : list Z) : Prop := SpaceAt {
  sa_built : built k0 l0 root k l;
  sa_size : 0 <= sz <= 134217728 + 8192;
  sa_mapped : contiguous root sz k;
  sa_user : forall va, 0 <= va < PGROUNDUP sz -> has (pte_of (mem k) root va) PTE_U = true;
  sa_bytes : forall va, ubyte root (mem k) va = img va;
  sa_rights : forall va, 0 <= va < PGROUNDUP sz -> page_rights root (mem k) va = rts va;
}.

Lemma space_readable k0 l0 root sz img rts k l va : space_at k0 l0 root sz img rts k l -> 0 <= va < PGROUNDUP sz ->
  readable root (mem k) va = true /\ page_ok (frame root (mem k) va).
Proof.
  intros [[Hu _] Hs Hm HU _ _] Hva. destruct high_pages as (_ & _ & E1 & E2 & E3).
  destruct (pgroundup_page sz ltac:(lia)) as (R1 & R2 & R3). assert (valid root (mem k) va = true) as Hv.
  { rewrite Hm by lia. apply Z.ltb_lt. lia. }
  split; [|apply (uv_page _ _ _ _ Hu va); [lia|done]].
  unfold readable. rewrite Hv, HU by done. rewrite (proj2 (Z.leb_le 0 va)), (proj2 (Z.ltb_lt va MAXVA)) by lia. done.
Qed.

Lemma readi_local_run ip c size off n s : x_ok (files s) ip c size -> 0 <= off < 2 ^ 32 -> 0 < n < 2 ^ 32 ->
  exists r m f, readi_local ip off n s = Ret (r, m) (set_files f s) /\ x_ok f ip c size /\
    (r = n -> off + n <= size /\ forall i, 0 <= i < n -> m i = c (off + i)).
Proof.
  intros Hx Ho Hn. destruct (x_readi_ok (files s) ip c size (fun _ => 0) 0 off n Hx) as (r & m & f & E & Hx' & _ & _ & _ & Hr);
    [intros a; cbn; lia|done|lia|lia|lia|].
  exists r, m, f. split; [unfold readi_local, file_op, lift; by rewrite E|]. split; [done|]. intros Er. destruct (Hr Er ltac:(lia)) as [H1 H2].
  split; [done|]. intros i Hi. by apply (H2 i).
Qed.

(** One page of a segment *)
Lemma readi_page_run k0 l0 root sz img rts ip c size va0 off n s l : space_at k0 l0 root sz img rts (km s) l -> x_ok (files s) ip c size ->
  va0 mod PGSIZE = 0 -> 0 <= va0 -> va0 + n <= sz -> 0 < n <= PGSIZE -> 0 <= off < 2 ^ 32 ->
  exists r s', readi_page ip (frame root (mem (km s)) va0) off n s = Ret r s' /\ procs s' = procs s /\ x_ok (files s') ip c size /\ -1 <= r <= n /\
    exists img', space_at k0 l0 root sz img' rts (km s') l /\ s' = set_files (files s') (set_km (km s') s) /\
      (r = n -> off + n <= size /\ forall a, img' a = blit img va0 c off n a).
Proof.
  intros Hsp Hx Ha Hva Hle Hn Ho. pose proof Hsp as [[Hu Hb] Hs Hm HU HI HR]. set (k := km s) in *. set (f := frame root (mem k) va0).
  destruct high_pages as (_ & _ & E1 & E2 & E3). destruct (pgroundup_page sz ltac:(lia)) as (R1 & R2 & R3).
  destruct (space_readable _ _ _ _ _ _ _ _ va0 Hsp ltac:(lia)) as [Rd Hf]. fold f in Hf. pose proof (page_ok_range f Hf) as Hfr. unfold PGSIZE in *.
  destruct (x_readi_ok (files s) ip c size (mem k) f off n Hx (uv_bytes _ _ _ _ Hu)) as (r & m' & f' & E & Hx' & Hb' & Hrr & Hout & Hr); try lia.
  set (k' := set_mem m' k). exists r, (set_km k' (set_files f' s)). split.
  { unfold readi_page. rewrite (bind_step _ _ s k s) by done. fold f. unfold file_op at 1, lift at 1, bind at 1. rewrite E. done. }
  split; [done|]. split; [done|]. split; [lia|].
  assert (k' = set_mem (blit (mem k) (f + 0) m' f n) k) as Ek.
  { unfold k'. f_equal. extensionality x. unfold blit. rewrite Z.add_0_r. destruct (Z.leb_spec f x), (Z.ltb_spec x (f + n)); cbn [andb]; try (apply Hout; lia).
    f_equal. lia. }
  destruct (frame_write root 0 k l va0 0 m' f n Hu Rd Ha) as (X & B & _); try done; try (unfold PGSIZE; lia). fold f in X, B. rewrite <- Ek in X, B.
  assert (forall a, pte_of (mem k') root a = pte_of (mem k) root a) as P.
  { apply (frame_write_pte root 0 k l va0); [done|done|]. intros x Hxx. apply Hout. fold f in Hxx. unfold in_page, PGSIZE in Hxx. lia. }
  exists (ubyte root (mem k')). split; [|split; [by destruct s|]].
  - split; [by eapply built_uext|done| | |done|].
    + intros a Haa. unfold valid. rewrite P. by apply Hm.
    + intros a Haa. rewrite P. by apply HU.
    + intros a Haa. unfold page_rights. rewrite P. by apply HR.
  - intros Er. destruct (Hr Er ltac:(lia)) as [H1 H2]. split; [done|]. intros a. rewrite B. unfold blit. rewrite Z.add_0_r.
    destruct (Z.leb_spec va0 a), (Z.ltb_spec a (va0 + n)); cbn [andb]; [|apply HI..]. rewrite H2 by lia. f_equal. lia.
Qed.

(** What a step of kexec may change before the commit: memory and files *)
Definition only_mem (s s' : pstate F) : Prop := s' = set_files (files s') (set_km (km s') s).
Lemma only_mem_trans s1 s2 s3 : only_mem s1 s2 -> only_mem s2 s3 -> only_mem s1 s3.
Proof. unfold only_mem. intros E1 E2. rewrite E2. rewrite E1. by destruct s1. Qed.
Lemma only_mem_refl s : only_mem s s.
Proof. by destruct s. Qed.
Lemma only_mem_procs s s' : only_mem s s' -> procs s' = procs s.
Proof. unfold only_mem. by intros ->. Qed.

Lemma loadseg_loop k0 l0 root szm img rts ip c size va offset sz l fuel : forall i img' s,
  space_at k0 l0 root szm img' rts (km s) l -> x_ok (files s) ip c size -> va mod PGSIZE = 0 -> 0 <= va -> va + sz <= szm ->
  0 <= offset < 2 ^ 32 -> 0 <= i -> i mod PGSIZE = 0 -> (0 < Z.min i sz -> offset + Z.min i sz <= size) ->
  (forall a, img' a = blit img va c offset (Z.min i sz) a) -> i - PGSIZE < sz -> sz - i < Z.of_nat fuel * PGSIZE - PGSIZE -> 0 <= sz ->
  exists r s', loop fuel (loadseg_body root va ip offset sz) i s = Ret r s' /\ (r = 0 \/ r = -1) /\ x_ok (files s') ip c size /\
    only_mem s s' /\ exists img2, space_at k0 l0 root szm img2 rts (km s') l /\
      (r = 0 -> (0 < sz -> offset + sz <= size) /\ forall a, img2 a = blit img va c offset sz a).
Proof.
  induction fuel as [|fuel IH]; intros i img' s Hsp Hx Ha Hva Hle Hoff Hi Him Hrd Hbl Hlast Hfuel Hsz; [lia|].
  destruct high_pages as (_ & _ & E1 & E2 & E3). pose proof (sa_size _ _ _ _ _ _ _ _ Hsp) as Hszm. pose proof (x_size _ _ _ _ Hx) as [Hsize _].
  cbn [loop]. unfold loadseg_body at 1. unfold bind at 1. destruct (Z.ltb_spec i sz) as [Hlt|Hge].
  2: { exists 0, s. split; [done|]. split; [by left|]. split; [done|]. split; [apply only_mem_refl|]. exists img'. split; [done|].
       rewrite Z.min_r in * by lia. intros _. split; [done|done]. }
  rewrite Z.min_l in Hrd, Hbl by lia. rewrite wrap_small by lia.
  set (n := if sz - i <? PGSIZE then sz - i else PGSIZE).
  assert (0 < n <= PGSIZE /\ n <= sz - i /\ (n = sz - i \/ n = PGSIZE)) as (Hn1 & Hn2 & Hn3).
  { unfold n. destruct (Z.ltb_spec (sz - i) PGSIZE); unfold PGSIZE in *; lia. }
  destruct (pgroundup_page szm ltac:(lia)) as (R1 & R2 & R3).
  assert ((va + i) mod PGSIZE = 0) as Hal by (unfold PGSIZE in *; dlia).
  destruct (space_readable _ _ _ _ _ _ _ _ (va + i) Hsp ltac:(lia)) as [Rd Hf]. pose proof (page_ok_range _ Hf) as Hfr.
  rewrite (bind_step _ _ s (frame root (mem (km s)) (va + i)) s).
  2: { unfold memory_op, lift. rewrite (walkaddr_run root 0 (km s) l (va + i)) by (try apply Hsp; lia). rewrite Rd. by destruct s. }
  rewrite (proj2 (Z.eqb_neq (frame root (mem (km s)) (va + i)) 0)) by lia. cbv zeta.
  assert (u32 (offset + i) = offset + i) as ->.
  { destruct (decide (0 < i)) as [Hp|Hp]; [|assert (i = 0) as -> by lia; apply wrap_small; lia]. apply wrap_small. specialize (Hrd Hp). lia. }
  assert (0 <= offset + i < 2 ^ 32) as Hoi.
  { destruct (decide (0 < i)) as [Hp|Hp]; [specialize (Hrd Hp); lia|]. assert (i = 0) as -> by lia. lia. }
  destruct (readi_page_run k0 l0 root szm img' rts ip c size (va + i) (offset + i) n s l Hsp Hx Hal ltac:(lia) ltac:(lia) Hn1 Hoi)
    as (r & s1 & E & Hp & Hx1 & Hr & img1 & Hsp1 & Es & Hok). fold n. rewrite (bind_step _ _ _ _ _ E).
  assert ((u32 r =? n) = (r =? n)) as ->.
  { unfold PGSIZE in *. destruct (Z.eqb_spec r n) as [-> |Hne]; [rewrite wrap_small by lia; apply Z.eqb_refl|].
    apply Z.eqb_neq. destruct (decide (r = -1)) as [-> |]; [change (u32 (-1)) with 4294967295; lia|]. rewrite wrap_small by lia. done. }
  destruct (Z.eqb_spec r n) as [Er|Hne]; cbn [negb].
  2: { exists (-1), s1. split; [done|]. split; [by right|]. split; [done|]. split; [done|]. exists img1. split; [done|]. done. }
  destruct (Hok Er) as [H1 H2]. unfold ret at 1. rewrite wrap_small by (unfold PGSIZE in *; lia).
  destruct (IH (i + PGSIZE) img1 s1) as (r2 & s2 & E' & Hr2 & Hx2 & Hm2 & img2 & Hsp2 & Hok2); try done; try lia; try (unfold PGSIZE in *; dlia).
  - intros a. rewrite H2. replace (Z.min (i + PGSIZE) sz) with (i + n) by lia. unfold blit. rewrite Hbl. unfold blit.
    destruct (Z.leb_spec (va + i) a), (Z.ltb_spec a (va + i + n)), (Z.leb_spec va a), (Z.ltb_spec a (va + i)), (Z.ltb_spec a (va + (i + n)));
      cbn [andb]; try lia; try done. f_equal. lia.
  - exists r2, s2. split; [done|]. split; [done|]. split; [done|]. split; [by eapply only_mem_trans|]. by exists img2.
Qed.

Lemma loadseg_run k0 l0 root szm img rts ip c size va offset sz l s :
  space_at k0 l0 root szm img rts (km s) l -> x_ok (files s) ip c size -> va mod PGSIZE = 0 -> 0 <= va -> va + sz <= szm ->
  0 <= offset < 2 ^ 32 -> 0 <= sz ->
  exists r s', loadseg root va ip offset sz s = Ret r s' /\ (r = 0 \/ r = -1) /\ x_ok (files s') ip c size /\
    only_mem s s' /\ exists img2, space_at k0 l0 root szm img2 rts (km s') l /\
      (r = 0 -> (0 < sz -> offset + sz <= size) /\ forall a, img2 a = blit img va c offset sz a).
Proof.
  intros Hsp Hx Ha Hva Hle Ho Hsz. apply (loadseg_loop k0 l0 root szm img rts ip c size va offset sz l _ 0 img s); try done; try lia.
  - intros a. rewrite blit_out by lia. done.
  - unfold PGSIZE. lia.
  - unfold PGSIZE. rewrite Z2Nat.id by dlia. dlia.
Qed.

(** *** Program headers *)

Lemma memory_op_run {A} (m : M kmem A) s a k : m (km s) = Ret a k -> memory_op m s = Ret a (set_km k s).
Proof. intros E. unfold memory_op, lift. by rewrite E. Qed.
Lemma file_op_run {A} (m : M F A) s a f : m (files s) = Ret a f -> file_op m s = Ret a (set_files f s).
Proof. intros E. unfold file_op, lift. by rewrite E. Qed.

Lemma alloc_perm_u xperm : Z.testbit (Z.lor (alloc_perm xperm) PTE_V) 4 = true.
Proof. unfold alloc_perm. rewrite !Z.lor_spec. done. Qed.

Lemma leaf_user x xperm : page_ok x -> 0 <= alloc_perm xperm < 1024 -> has (leaf_entry x (alloc_perm xperm)) PTE_U = true.
Proof.
  intros Hx Hp. pose proof (page_ok_range x Hx). unfold PGSIZE in *. change PTE_U with (Z.shiftl 1 4).
  rewrite leaf_entry_flag by lia. apply alloc_perm_u.
Qed.

Lemma leaf_rights x xperm : page_ok x -> 0 <= alloc_perm xperm < 1024 ->
  (has (leaf_entry x (alloc_perm xperm)) PTE_W, has (leaf_entry x (alloc_perm xperm)) PTE_X) = (Z.testbit xperm 2, Z.testbit xperm 3).
Proof.
  intros Hx Hp. pose proof (page_ok_range x Hx). unfold PGSIZE in *. change PTE_W with (Z.shiftl 1 2). change PTE_X with (Z.shiftl 1 3).
  rewrite !leaf_entry_flag by lia. unfold alloc_perm. by rewrite !Z.lor_spec, !orb_false_r.
Qed.

Lemma resized_space k0 l0 root sz r img rts rts' xperm k l k' l' : space_at k0 l0 root sz img rts k l -> uext root 0 k l k' l' ->
  (forall a, ubyte root (mem k') a = ubyte root (mem k) a) -> resized root sz xperm r k k' -> 0 <= r <= 134217728 + 8192 ->
  0 <= alloc_perm xperm < 1024 ->
  (forall va, 0 <= va < PGROUNDUP r -> rts' va = if va <? PGROUNDUP sz then rts va else (Z.testbit xperm 2, Z.testbit xperm 3)) ->
  space_at k0 l0 root r img rts' k' l'.
Proof.
  intros [Hb Hs Hm HU HI HR] X B [Hc Hp] Hr Hperm Hrt. destruct high_pages as (_ & _ & E1 & E2 & E3).
  destruct (pgroundup_page r ltac:(lia)) as (R1 & R2 & R3). split; [by eapply built_uext|done|done| | |].
  - intros va Hva. destruct (Hp va ltac:(lia)) as [P1 P2]. destruct (decide (va < PGROUNDUP sz)) as [Hlt|Hge].
    + rewrite P1 by lia. apply HU. lia.
    + destruct (P2 ltac:(lia)) as (x & Hx & ->). by apply leaf_user.
  - intros va. by rewrite B.
  - intros va Hva. rewrite Hrt by done. unfold page_rights. destruct (Hp va ltac:(lia)) as [P1 P2]. destruct (Z.ltb_spec va (PGROUNDUP sz)) as [Hlt|Hge].
    + rewrite P1 by lia. apply HR. lia.
    + destruct (P2 ltac:(lia)) as (x & Hx & ->). by apply leaf_rights.
Qed.

Lemma get_ph_eq c m off : (forall i, 0 <= i < PH_SIZE -> m i = c (off + i)) -> get_ph m 0 = get_ph c off.
Proof.
  intros Hm. unfold PH_SIZE in Hm. unfold get_ph. f_equal; apply ld_shift; intros i Hi; rewrite Hm by lia; f_equal; lia.
Qed.
Lemma get_elf_eq c m : (forall i, 0 <= i < ELF_SIZE -> m i = c (0 + i)) -> get_elf m 0 = get_elf c 0.
Proof.
  intros Hm. unfold ELF_SIZE in Hm. unfold get_elf. f_equal; apply ld_shift; intros i Hi; rewrite Hm by lia; f_equal; lia.
Qed.

Lemma flags2perm_range f : 0 <= alloc_perm (flags2perm f) < 1024.
Proof. unfold flags2perm. destruct (negb _), (negb _); vm_compute; split; congruence. Qed.

Lemma flags2perm_rights f : (Z.testbit (flags2perm (i32 f)) 2, Z.testbit (flags2perm (i32 f)) 3) = (Z.testbit f 1, Z.testbit f 0).
Proof.
  assert (forall n, 0 <= n < 32 -> Z.testbit (i32 f) n = Z.testbit f n) as Hb.
  { intros n Hn. rewrite <- (Z.mod_pow2_bits_low (i32 f) 32 n), <- (Z.mod_pow2_bits_low f 32 n) by lia. f_equal.
    unfold swrap. change (2 ^ (32 - 1)) with 2147483648. change (2 ^ 32) with 4294967296. dlia. }
  assert ((Z.land (i32 f) 1 =? 0) = negb (Z.testbit f 0)) as E0 by (rewrite <- (Hb 0) by lia; by apply (land_shiftl1 (i32 f) 0)).
  assert ((Z.land (i32 f) 2 =? 0) = negb (Z.testbit f 1)) as E1 by (rewrite <- (Hb 1) by lia; by apply (land_shiftl1 (i32 f) 1)).
  unfold flags2perm. rewrite E0, E1. by destruct (Z.testbit f 0), (Z.testbit f 1).
Qed.

Lemma load_ph_run k0 l0 root sz img rts ip c size off s l :
  space_at k0 l0 root sz img rts (km s) l -> sz <= 134217728 -> x_ok (files s) ip c size ->
  exists sz' b s' l' img' rts', load_ph root ip off sz s = Ret (sz', b) s' /\ only_mem s s' /\ x_ok (files s') ip c size /\
    space_at k0 l0 root sz' img' rts' (km s') l' /\ sz' <= 134217728 /\
    (b = true -> forall n, load_image c size (S n) off sz img = load_image c size n (i32 (off + PH_SIZE)) sz' img' /\
       load_rights c (S n) off sz rts = load_rights c n (i32 (off + PH_SIZE)) sz' rts').
Proof.
  intros Hsp Hsz Hx. destruct high_pages as (_ & _ & E1 & E2 & E3). pose proof (sa_size _ _ _ _ _ _ _ _ Hsp) as Hs0.
  pose proof (x_size _ _ _ _ Hx) as [Hsize Hbc]. assert (0 <= u32 off < 2 ^ 32) as Hoff by (apply wrap_range; lia).
  destruct (readi_local_run ip c size (u32 off) PH_SIZE s Hx Hoff) as (r & m & f & E & Hxf & Hr); [unfold PH_SIZE; lia|].
  unfold load_ph. rewrite (bind_step _ _ _ _ _ E). cbn [fst snd].
  assert (only_mem s (set_files f s)) as M1 by by destruct s.
  assert (space_at k0 l0 root sz img rts (km (set_files f s)) l) as Hsp1 by done.
  destruct (Z.eqb_spec r PH_SIZE) as [Er|]; cbn [negb]; [|by exists sz, false, (set_files f s), l, img, rts].
  destruct (Hr Er) as [Hin Hm]. rewrite (get_ph_eq c m (u32 off) Hm). set (ph := get_ph c (u32 off)).
  assert (0 <= ph_vaddr ph < 2 ^ 64 /\ 0 <= ph_memsz ph < 2 ^ 64 /\ 0 <= ph_filesz ph < 2 ^ 64) as (V1 & V2 & V3)
    by (split_and!; apply (ld_range 8); done).
  destruct (Z.eqb_spec (ph_type ph) ELF_PROG_LOAD) as [Ht|Ht]; cbn [negb].
  2: { exists sz, true, (set_files f s), l, img, rts. split; [done|]. split; [done|]. split; [done|]. split; [done|]. split; [done|]. intros _ n.
       cbn [load_image load_rights]. fold ph. by rewrite (proj2 (Z.ltb_ge size _)), (proj2 (Z.eqb_neq _ _) Ht) by lia. }
  destruct (Z.ltb_spec (ph_memsz ph) (ph_filesz ph)) as [|H2]; [by exists sz, false, (set_files f s), l, img, rts|].
  destruct (Z.ltb_spec (u64 (ph_vaddr ph + ph_memsz ph)) (ph_vaddr ph)) as [|H3]; [by exists sz, false, (set_files f s), l, img, rts|].
  assert (ph_vaddr ph + ph_memsz ph < 2 ^ 64) as Hstop.
  { destruct (Z.lt_ge_cases (ph_vaddr ph + ph_memsz ph) (2 ^ 64)) as [|Hge]; [done|]. exfalso. unfold wrap in H3.
    assert ((ph_vaddr ph + ph_memsz ph) mod 2 ^ 64 = ph_vaddr ph + ph_memsz ph - 2 ^ 64) as Em
      by (symmetry; apply (Z.mod_unique_pos _ _ 1); lia). lia. }
  rewrite (wrap_small 64 (ph_vaddr ph + ph_memsz ph)) by lia.
  destruct (Z.eqb_spec (ph_vaddr ph mod PGSIZE) 0) as [H4|]; cbn [negb]; [|by exists sz, false, (set_files f s), l, img, rts].
  destruct (uvmalloc_space root 0 sz (ph_vaddr ph + ph_memsz ph) (flags2perm (i32 (ph_flags ph))) (km s) l) as (r1 & k1 & l1 & E5 & X5 & B5 & H5);
    [apply Hsp|lia|apply Hsp|lia|apply flags2perm_range|].
  rewrite (bind_step _ _ _ _ _ (memory_op_run _ (set_files f s) _ _ E5)). set (s1 := set_km k1 (set_files f s)).
  assert (only_mem s s1) as M2 by by destruct s.
  set (rts1 := fun va => if (PGROUNDUP sz <=? va) && (va <? PGROUNDUP (ph_vaddr ph + ph_memsz ph))
                         then (Z.testbit (ph_flags ph) 1, Z.testbit (ph_flags ph) 0) else rts va).
  assert (r1 <> 0 -> r1 = Z.max sz (ph_vaddr ph + ph_memsz ph) /\ r1 <= 134217728 /\ space_at k0 l0 root r1 img rts1 k1 l1) as Hbig.
  { intros Hne. destruct H5 as [[? _]|(Hr1 & Hb1 & Hz1)]; [done|]. split; [done|]. split; [lia|].
    eapply resized_space; try done; [lia|apply flags2perm_range|]. intros va Hva. rewrite flags2perm_rights. unfold rts1.
    destruct (Z.ltb_spec va (PGROUNDUP sz)), (Z.leb_spec (PGROUNDUP sz) va), (Z.ltb_spec va (PGROUNDUP (ph_vaddr ph + ph_memsz ph))); cbn [andb]; try done; try lia.
    exfalso. destruct (Z.max_spec sz (ph_vaddr ph + ph_memsz ph)) as [[_ Em]|[_ Em]]; rewrite Em in Hr1; rewrite Hr1 in Hva; lia. }
  assert (r1 = 0 -> space_at k0 l0 root sz img rts k1 l1) as Hsame.
  { intros Hr0. destruct H5 as [[_ Hz]|(Hr1 & _ & Hz)]; (eapply resized_space; [done|done|done| |lia|apply flags2perm_range|]);
      [done|intros va Hva; by rewrite (proj2 (Z.ltb_lt va _)) by lia|by replace sz with r1 at 2 by lia|intros va Hva; by rewrite (proj2 (Z.ltb_lt va _)) by lia]. }
  destruct (Z.eqb_spec r1 0) as [Hr0|Hr0].
  { exists sz, false, s1, l1, img, rts. split; [done|]. split; [done|]. split; [done|]. split; [by apply Hsame|]. done. }
  destruct (Hbig Hr0) as (Hr1 & Hb1 & Hsp2).
  assert (u32 (ph_filesz ph) = ph_filesz ph) as -> by (apply wrap_small; lia).
  destruct (loadseg_run k0 l0 root r1 img rts1 ip c size (ph_vaddr ph) (u32 (ph_off ph)) (ph_filesz ph) l1 s1) as (r2 & s2 & E6 & Hr2 & Hx2 & M3 & img2 & Hsp3 & Hok);
    try done; try lia; [apply wrap_range; lia|].
  rewrite (bind_step _ _ _ _ _ E6). assert (only_mem s s2) as M4 by (by eapply only_mem_trans).
  destruct Hr2 as [-> | ->]; cbn [Z.ltb Z.compare]; [|by exists r1, false, s2, l1, img2, rts1].
  destruct (Hok eq_refl) as [Hfit Himg]. exists r1, true, s2, l1, img2, rts1. split; [done|]. split; [done|]. split; [done|]. split; [done|]. split; [done|].
  intros _ n. cbn [load_image load_rights]. fold ph. rewrite (proj2 (Z.ltb_ge size _)), (proj2 (Z.eqb_eq _ _) Ht), (proj2 (Z.ltb_ge (ph_memsz ph) _)),
    (proj2 (Z.leb_gt (2 ^ 64) _)), (proj2 (Z.eqb_eq _ _) H4) by lia. cbn [negb orb].
  replace ((0 <? ph_filesz ph) && (size <? u32 (ph_off ph) + ph_filesz ph)) with false.
  2: { destruct (Z.ltb_spec 0 (ph_filesz ph)), (Z.ltb_spec size (u32 (ph_off ph) + ph_filesz ph)); cbn; lia || done. }
  rewrite <- Hr1. split; [|done]. do 2 f_equal. extensionality a. symmetry. apply Himg.
Qed.

Lemma load_run k0 l0 root ip c size phnum fuel : forall i off sz img rts s l,
  space_at k0 l0 root sz img rts (km s) l -> sz <= 134217728 -> x_ok (files s) ip c size -> 0 <= i <= phnum -> phnum - i < Z.of_nat fuel ->
  exists sz' b s' l' img' rts', loop fuel (load_body root ip phnum) (i, off, sz) s = Ret (sz', b) s' /\ only_mem s s' /\
    x_ok (files s') ip c size /\ space_at k0 l0 root sz' img' rts' (km s') l' /\ sz' <= 134217728 /\
    (b = true -> load_image c size (Z.to_nat (phnum - i)) off sz img = Some (sz', img') /\ load_rights c (Z.to_nat (phnum - i)) off sz rts = rts').
Proof.
  induction fuel as [|fuel IH]; intros i off sz img rts s l Hsp Hsz Hx Hi Hf; [lia|]. cbn [loop]. unfold load_body at 1. unfold bind at 1.
  destruct (Z.ltb_spec i phnum) as [Hlt|Hge].
  2: { exists sz, true, s, l, img, rts. split; [done|]. split; [apply only_mem_refl|]. split; [done|]. split; [done|]. split; [done|]. intros _.
       by replace (phnum - i) with 0 by lia. }
  destruct (load_ph_run k0 l0 root sz img rts ip c size off s l Hsp Hsz Hx) as (sz1 & b & s1 & l1 & img1 & rts1 & E & M1 & Hx1 & Hsp1 & Hsz1 & Hok).
  rewrite (bind_step _ _ _ _ _ E). cbn [fst snd]. destruct b.
  2: { exists sz1, false, s1, l1, img1, rts1. done. }
  destruct (IH (i + 1) (i32 (off + PH_SIZE)) sz1 img1 rts1 s1 l1 Hsp1 Hsz1 Hx1 ltac:(lia) ltac:(lia)) as (sz2 & b & s2 & l2 & img2 & rts2 & E2 & M2 & Hx2 & Hsp2 & Hsz2 & Hok2).
  exists sz2, b, s2, l2, img2, rts2. split; [done|]. split; [by eapply only_mem_trans|]. split; [done|]. split; [done|]. split; [done|]. intros Hb.
  replace (Z.to_nat (phnum - i)) with (S (Z.to_nat (phnum - (i + 1)))) by lia.
  destruct (Hok eq_refl (Z.to_nat (phnum - (i + 1)))) as [-> ->]. by apply Hok2.
Qed.

(** *** Giving up *)

Lemma bad_run k0 l0 root sz s l o : root <> 0 -> built k0 l0 root (km s) l -> 0 <= sz <= TRAPFRAME -> contiguous root sz (km s) ->
  (forall ip, o = Some ip -> exists c size, x_ok (files s) ip c size) ->
  exists s' l', bad root sz o s = Ret (-1) s' /\ only_mem s s' /\ restored k0 l0 (km s') l'.
Proof.
  intros Hr Hb Hs Hm Ho.
  destruct (built_free k0 l0 root sz (km s) l Hb Hs) as (k' & l' & E & Hres).
  { intros a Ha. rewrite Hm by done. apply Z.ltb_lt. }
  unfold bad. rewrite (proj2 (Z.eqb_neq root 0)) by done. cbn [negb when].
  rewrite (bind_step _ _ _ _ _ (memory_op_run _ s _ _ E)). destruct o as [ip|].
  - destruct (Ho ip eq_refl) as (c & size & Hx). destruct (x_close_ok _ _ _ _ Hx) as (f1 & f2 & C1 & C2).
    exists (set_files f2 (set_km k' s)), l'. split; [|split; [by destruct s|done]]. unfold bind.
    rewrite (file_op_run _ (set_km k' s) tt f1) by done. rewrite (file_op_run _ _ tt f2) by done. by destruct s.
  - exists (set_km k' s), l'. split; [done|]. split; [by destruct s|done].
Qed.

Lemma bad0_run s ip c size l : kmem_inv (km s) l -> bytes_ok (mem (km s)) -> x_ok (files s) ip c size ->
  exists s', bad 0 0 (Some ip) s = Ret (-1) s' /\ only_mem s s' /\ km s' = km s.
Proof.
  intros Hk Hb Hx. destruct (x_close_ok _ _ _ _ Hx) as (f1 & f2 & C1 & C2). exists (set_files f2 s). split; [|split; [by destruct s|done]].
  unfold bad. cbn [Z.eqb negb when]. rewrite (bind_step _ _ s tt s) by done. unfold bind.
  rewrite (file_op_run _ s tt f1) by done. rewrite (file_op_run _ _ tt f2) by done. by destruct s.
Qed.

(** *** The stack *)

(** The space with its stack page: one page below is the guard *)
Record stack_at (k0 : kmem) (l0 : list Z) (root sz : Z) (img : bytes) (rts : rights) (k : kmem) (l : list Z) : Prop := StackAt {
  st_built : built k0 l0 root k l;
  st_size : 2 * PGSIZE <= sz <= 134217728 + 8192 /\ sz mod PGSIZE = 0;
  st_mapped : contiguous root sz k;
  st_user : forall va, 0 <= va < sz -> has (pte_of (mem k) root va) PTE_U = negb (va / PGSIZE =? sz / PGSIZE - 2);
  st_write : writable root (mem k) (sz - PGSIZE) sz;
  st_bytes : forall va, ubyte root (mem k) va = img va;
  st_rights : forall va, 0 <= va < sz -> page_rights root (mem k) va = rts va;
}.

Lemma stack_copyout k0 l0 root sz img rts psz ppt sp src n k l : stack_at k0 l0 root sz img rts k l -> bytes_ok src ->
  sz - PGSIZE <= sp -> 0 <= n -> sp + n <= sz ->
  exists k', copyout psz ppt root sp src 0 n k = Ret 0 k' /\ stack_at k0 l0 root sz (blit img sp src 0 n) rts k' l.
Proof.
  intros [Hb Hs Hm HU Hw HI HR] Hsrc Hsp Hn Hle. unfold PGSIZE in *.
  destruct (copyout_mapped root 0 psz ppt sp src 0 n k l (proj1 Hb) Hsrc) as (k' & E & X & P & B); try lia.
  { intros x Hx. apply Hw. lia. }
  exists k'. split; [done|]. split; [by eapply built_uext|done| | | | |].
  - intros va Hva. unfold valid. rewrite P. by apply Hm.
  - intros va Hva. rewrite P. by apply HU.
  - intros x Hx. unfold readable, valid. rewrite P. by apply Hw.
  - intros va. rewrite B. unfold blit. by rewrite HI.
  - intros va Hva. unfold page_rights. rewrite P. by apply HR.
Qed.

Lemma store_list_ok t : forall m a, bytes_ok m -> Forall (fun v => 0 <= v < 256) t -> bytes_ok (store_list m a t).
Proof.
  induction t as [|v t IH]; intros m a Hm Ht; [done|]. apply Forall_cons in Ht as [Hv Ht]. cbn. apply IH; [|done]. by apply fupd_bytes_ok.
Qed.
Lemma str_bytes_ok t : Forall (fun v => 0 <= v < 256) t -> bytes_ok (str_bytes t).
Proof. apply store_list_ok. intros a. lia. Qed.
Lemma ustack_bytes_ok us : forall m a, bytes_ok m -> bytes_ok (ustack_bytes m a us).
Proof. induction us as [|v us IH]; intros m a Hm; [done|]. cbn. by apply IH, st_bytes_ok. Qed.

Lemma stack_image_args base argv : forall sp us m sp' us' m', stack_image base argv sp us m = Some (sp', us', m') ->
  Z.of_nat (length us) <= MAXARG -> Z.of_nat (length us') <= MAXARG.
Proof.
  induction argv as [|t argv IH]; intros sp us m sp' us' m' E Hl; cbn in E; [by injection E as <- <- <-|].
  destruct (Z.leb_spec MAXARG (Z.of_nat (length us))); [done|]. destruct (_ <? base); [done|]. cbn [orb] in E.
  eapply IH; [exact E|]. rewrite length_app. cbn. lia.
Qed.

Definition ok_args (argv : list chars) : Prop := Forall (fun t => Forall (fun v => 0 <= v < 256) t /\ Z.of_nat (length t) < PGSIZE) argv.

Lemma push_args_run k0 l0 root sz rts p l fuel : forall argv sp us img s, stack_at k0 l0 root sz img rts (km s) l -> ok_args argv ->
  sz - PGSIZE <= sp <= sz -> (length argv < fuel)%nat ->
  exists o s' img', loop fuel (push_body root (sz - PGSIZE) p) (argv, sp, us) s = Ret o s' /\ only_mem s s' /\
    files s' = files s /\ stack_at k0 l0 root sz img' rts (km s') l /\
    stack_image (sz - PGSIZE) argv sp us img = option_map (fun x => (x, img')) o /\
    (forall sp' us', o = Some (sp', us') -> sz - PGSIZE <= sp' <= sz /\ length us' = (length us + length argv)%nat).
Proof.
  induction fuel as [|fuel IH]; intros argv sp us img s Hst Ha Hsp Hf; [lia|]. pose proof (st_size _ _ _ _ _ _ _ _ Hst) as [Hsz _].
  cbn [loop]. unfold push_body at 1. unfold bind at 1. destruct argv as [|t argv]; cbn [stack_image].
  { exists (Some (sp, us)), s, img. split; [done|]. split; [apply only_mem_refl|]. split; [done|]. split; [done|]. split; [done|].
    intros sp' us' [= <- <-]. cbn. split; [done|lia]. }
  apply Forall_cons in Ha as [[Ht Hl] Ha]. destruct (Z.leb_spec MAXARG (Z.of_nat (length us))) as [Hm|Hm]; cbn [orb].
  { exists None, s, img. split; [done|]. split; [apply only_mem_refl|]. done. }
  set (n := Z.of_nat (length t) + 1). cbv zeta. unfold PGSIZE in *. rewrite wrap_small by lia. fold (align16 (sp - n)).
  assert (sp - n - 15 <= align16 (sp - n) <= sp - n) as Hal by (unfold align16; dlia). set (sp1 := align16 (sp - n)) in *.
  destruct (Z.ltb_spec sp1 (sz - 4096)) as [Hb|Hb].
  { exists None, s, img. split; [done|]. split; [apply only_mem_refl|]. done. }
  rewrite (bind_step _ _ s (procs s p) s) by done.
  destruct (stack_copyout k0 l0 root sz img rts (p_sz (procs s p)) (p_pagetable (procs s p)) sp1 (str_bytes t) n (km s) l Hst) as (k' & E & Hst');
    [by apply str_bytes_ok|unfold PGSIZE; lia|lia|lia|].
  rewrite (bind_step _ _ _ _ _ (memory_op_run _ s _ _ E)). cbn [Z.ltb Z.compare]. unfold ret at 1.
  destruct (IH argv sp1 (us ++ [sp1]) (blit img sp1 (str_bytes t) 0 n) (set_km k' s)) as (o & s' & img' & E' & M & Ef & Hst2 & Ei & Hsp2); try done; [lia|cbn in Hf; lia|].
  exists o, s', img'. split; [done|]. split; [eapply only_mem_trans; [|exact M]; by destruct s|]. split; [done|]. split; [done|]. split; [done|].
  intros sp' us' Eo. destruct (Hsp2 sp' us' Eo) as [? Hl2]. split; [done|]. rewrite length_app in Hl2. cbn in *. lia.
Qed.

(** Two more pages at the end, the first without PTE_U *)
Lemma clear_rights v : has (Z.land v (Z.lnot PTE_U)) PTE_W = has v PTE_W /\ has (Z.land v (Z.lnot PTE_U)) PTE_X = has v PTE_X.
Proof. unfold has. by rewrite <- !Z.land_assoc. Qed.

(** The rights with a stack from [base] on *)
Definition with_stack (base : Z) (rts : rights) : rights := fun va => if va <? base then rts va else (true, false).

Lemma stack_run k0 l0 root sz img rts s l : space_at k0 l0 root sz img rts (km s) l -> sz <= 134217728 ->
  exists r s1 l1, memory_op (uvmalloc root (PGROUNDUP sz) (u64 (PGROUNDUP sz + (USERSTACK + 1) * PGSIZE)) PTE_W) s = Ret r s1 /\ only_mem s s1 /\ files s1 = files s /\
    ((r = 0 /\ space_at k0 l0 root (PGROUNDUP sz) img rts (km s1) l1) \/
     (r = PGROUNDUP sz + (USERSTACK + 1) * PGSIZE /\
      exists k2, uvmclear root (r - (USERSTACK + 1) * PGSIZE) (km s1) = Ret tt k2 /\ stack_at k0 l0 root r img (with_stack (PGROUNDUP sz) rts) k2 l1)).
Proof.
  intros Hsp Hsz. pose proof Hsp as [Hb Hs Hm HU HI HR]. destruct high_pages as (_ & _ & E1 & E2 & E3).
  destruct (pgroundup_page sz ltac:(lia)) as (R1 & R2 & R3). set (g := PGROUNDUP sz) in *. unfold USERSTACK, PGSIZE in *.
  change ((1 + 1) * 4096) with 8192. rewrite wrap_small by lia.
  assert (PGROUNDUP g = g) as Eg by (rewrite PGROUNDUP_div; dlia).
  assert (g <= 134217728) as Hg by (eapply contiguous_bound; [apply Hb| |exact Hm]; lia).
  destruct (uvmalloc_space root 0 g (g + 8192) PTE_W (km s) l (proj1 Hb)) as (r & k1 & l1 & E & X & B & Hr).
  { lia. }
  { intros va Hva. rewrite Eg. by apply Hm. }
  { lia. }
  { vm_compute; split; congruence. }
  assert (space_at k0 l0 root g img rts (km s) l) as Hsp'.
  { split; [done|lia|intros va Hva; rewrite Eg; by apply Hm|rewrite Eg; done|done|rewrite Eg; done]. }
  exists r, (set_km k1 s), l1. split; [by apply memory_op_run|]. split; [by destruct s|]. split; [done|].
  destruct Hr as [[-> Hz]|(-> & Hbd & Hz)].
  { left. split; [done|]. eapply resized_space; try done; [lia|]. intros va Hva. by rewrite (proj2 (Z.ltb_lt va _)) by lia. }
  right. split; [lia|]. rewrite Z.max_r in * by lia. replace (g + 8192 - 8192) with g by lia. cbn [km set_km].
  assert (space_at k0 l0 root (g + 8192) img (with_stack g rts) k1 l1) as Hsp2.
  { eapply resized_space; try done; [lia|]. intros va Hva. by rewrite Eg. }
  pose proof Hsp2 as [Hb2 Hs2 Hm2 HU2 HI2 HR2]. assert (PGROUNDUP (g + 8192) = g + 8192) as Eg2 by (rewrite PGROUNDUP_div; dlia). rewrite Eg2 in HU2, HR2.
  destruct (uvmclear_run root 0 g k1 l1 (proj1 Hb2) ltac:(lia)) as (k2 & E4 & X4 & P4 & B4).
  { rewrite Hm2 by lia. rewrite Eg2. apply Z.ltb_lt. lia. }
  exists k2. split; [done|].
  assert (forall va, 0 <= va < MAXVA -> va / 4096 <> g / 4096 -> pte_of (mem k2) root va = pte_of (mem k1) root va) as P5.
  { intros va Hva Hne. rewrite P4 by done. by rewrite (proj2 (Z.eqb_neq _ _) Hne). }
  split.
  - by eapply built_uext.
  - unfold PGSIZE. split; [lia|dlia].
  - intros va Hva. unfold valid. rewrite P4 by lia. destruct (Z.eqb_spec (va / 4096) (g / 4096)) as [Ea|]; [|by apply Hm2].
    rewrite (proj1 (clear_u _)). fold (valid root (mem k1) g). rewrite Hm2 by lia. rewrite Eg2. rewrite (proj2 (Z.ltb_lt g _)) by lia. symmetry. apply Z.ltb_lt. dlia.
  - intros va Hva. unfold PGSIZE. replace ((g + 8192) / 4096 - 2) with (g / 4096) by dlia. rewrite P4 by lia.
    destruct (Z.eqb_spec (va / 4096) (g / 4096)); cbn [negb]; [apply clear_u|]. apply HU2. lia.
  - intros va Hva. unfold PGSIZE in Hva. assert (va / 4096 <> g / 4096) as Hne by dlia.
    destruct (space_readable _ _ _ _ _ _ _ _ va Hsp2) as [Rd _]; [rewrite Eg2; lia|]. unfold readable, valid in *. rewrite P5 by (done || lia). split; [done|].
    destruct (proj2 Hz va ltac:(lia)) as [_ Hleaf]. rewrite Eg, Eg2 in Hleaf. destruct (Hleaf ltac:(lia)) as (x & Hx & ->).
    pose proof (page_ok_range x Hx). unfold PGSIZE in *. change PTE_W with (Z.shiftl 1 2). rewrite leaf_entry_flag; [done|lia|vm_compute; split; congruence|lia].
  - intros va. rewrite B4. destruct (Z.eqb_spec (va / 4096) (g / 4096)) as [Ea|]; [|by apply HI2].
    rewrite <- HI. unfold ubyte, readable. rewrite Hm by dlia. fold g. rewrite (proj2 (Z.ltb_ge va g)) by dlia. by rewrite andb_false_r.
  - intros va Hva. rewrite <- HR2 by lia. unfold page_rights. rewrite P4 by lia. destruct (Z.eqb_spec (va / 4096) (g / 4096)) as [Ea|]; [|done].
    destruct (clear_rights (pte_of (mem k1) root g)) as [-> ->]. fold (page_rights root (mem k1) g). fold (page_rights root (mem k1) va).
    rewrite !HR2 by lia. unfold with_stack. by rewrite !(proj2 (Z.ltb_ge _ g)) by dlia.
Qed.

(** *** The commit *)

Lemma foreign_owned root m l x : foreign root m l x -> owned root m x -> False.
Proof. intros [[_ U2] U3] [(q & y & Hq & E & Hy)|(va & Hva & Hv & Hy)]; [by apply (U2 q y)|by apply (U3 va)]. Qed.

Lemma foreign_not_owned root m l x : outside l x -> ~ owned root m x -> foreign root m l x.
Proof.
  intros Ho Hn. split; [split; [done|]|].
  - intros q y Hq E Hy. apply Hn. left. by exists q, y.
  - intros va Hva Hv Hy. apply Hn. right. by exists va.
Qed.

Lemma uvm_resize root sz sz' k l : uvm root sz k l -> 0 <= sz' <= TRAPFRAME -> uvm root sz' k l.
Proof. intros [U1 U2 U3 U4 U5 U6 U7] Hs. by split. Qed.

Lemma page_not_owned root sz k l t x : uvm root sz k l -> page_ok t -> no_table root (mem k) t -> no_frame root (mem k) t ->
  in_page t x -> ~ owned root (mem k) x.
Proof.
  intros Hu Ht Hn Hf Hx [(q & y & Hq & E & Hy)|(va & Hva & Hv & Hy)].
  - destruct (pw_page _ _ _ (uv_pt _ _ _ _ Hu) q y Hq E) as [Hpy _].
    destruct (page_apart t y x Ht Hpy) as [?|?]; [|done|unfold in_page in Hy; lia..]. intros ->. by apply (Hn q).
  - destruct (uv_page _ _ _ _ Hu va Hva Hv) as (Hpf & _).
    destruct (page_apart t (frame root (mem k) va) x Ht Hpf) as [?|?]; [|done|unfold in_page in Hy; lia..]. intros E. by apply (Hf va).
Qed.

(** The process before the call: its address space, fully below its size,
    and a trap frame page that belongs to no space *)
Record exec_pre (pr : proc) (k : kmem) (l : list Z) : Prop := ExecPre {
  xp_uvm : uvm (p_pagetable pr) (p_sz pr) k l;
  xp_below : forall a, 0 <= a < TRAPFRAME -> valid (p_pagetable pr) (mem k) a = true -> a < PGROUNDUP (p_sz pr);
  xp_page : page_ok (p_trapframe pr) /\ p_trapframe pr ∉ l;
  xp_table : no_table (p_pagetable pr) (mem k) (p_trapframe pr);
  xp_frame : no_frame (p_pagetable pr) (mem k) (p_trapframe pr);
}.

Lemma trapframe_outside pr k l x : exec_pre pr k l -> in_page (p_trapframe pr) x -> outside l x.
Proof.
  intros [Hu _ [Ht Hl] _ _] Hx y Hy Hyx. assert (page_ok y) as Hpy by (eapply Forall_forall in Hy; [done|apply (inv_pages _ _ (uv_inv _ _ _ _ Hu))]).
  destruct (page_apart (p_trapframe pr) y x Ht Hpy) as [?|?]; [|done|unfold in_page in Hyx; lia..]. by intros E; rewrite E in Hl.
Qed.

(** The old space and the trap frame survive whatever happens in the pages
    that were free. *)
Lemma pre_restored pr k0 l0 k l : exec_pre pr k0 l0 -> within k0 l0 k l ->
  uvm (p_pagetable pr) (p_sz pr) k l /\ (forall a, ubyte (p_pagetable pr) (mem k) a = ubyte (p_pagetable pr) (mem k0) a) /\
  forall x, in_page (p_trapframe pr) x -> mem k x = mem k0 x.
Proof.
  intros Hp (Hk & Hb & Hx). pose proof (xp_uvm _ _ _ Hp) as Hu.
  destruct (uvm_other _ _ k0 l0 k l Hu Hk Hb) as (U & _ & B & _).
  { intros x Ho. apply Hx. by eapply owned_outside. }
  split; [done|]. split; [done|]. intros x Hin. apply Hx. by eapply trapframe_outside.
Qed.

Definition commit_mem (tf sp entry : Z) (m : bytes) : bytes := st64 (st64 (st64 m (tf + TF_A1) sp) (tf + TF_EPC) entry) (tf + TF_SP) sp.

Lemma commit_mem_run tf sp entry k l : page_ok tf -> tf ∉ l -> kmem_inv k l -> bytes_ok (mem k) -> 0 <= sp < 2 ^ 64 -> 0 <= entry < 2 ^ 64 ->
  let m := commit_mem tf sp entry (mem k) in
  kmem_inv (set_mem m k) l /\ bytes_ok m /\ same_outside tf (mem k) m /\
  ld64 m (tf + TF_A1) = sp /\ ld64 m (tf + TF_EPC) = entry /\ ld64 m (tf + TF_SP) = sp.
Proof.
  intros Ht Hl Hk Hb Hsp Hen m. unfold TF_A1, TF_EPC, TF_SP in *.
  assert (same_outside tf (mem k) m) as Hs.
  { intros x Hx. unfold m, commit_mem, TF_A1, TF_EPC, TF_SP, PGSIZE in *. rewrite !st_other by lia. done. }
  split; [by apply (kmem_inv_write k l tf)|]. split; [by repeat apply st_bytes_ok|]. split; [done|].
  unfold m, commit_mem, TF_A1, TF_EPC, TF_SP. split; [|split].
  - rewrite !ld_st_other by lia. rewrite ld_st_same. change (256 ^ Z.of_nat 8) with (2 ^ 64). by apply Z.mod_small.
  - rewrite ld_st_other by lia. rewrite ld_st_same. change (256 ^ Z.of_nat 8) with (2 ^ 64). by apply Z.mod_small.
  - rewrite ld_st_same. change (256 ^ Z.of_nat 8) with (2 ^ 64). by apply Z.mod_small.
Qed.

(** The process after the commit *)
Definition new_proc (path : chars) (root sz : Z) (pr : proc) : proc :=
  set_sz sz (set_pagetable root (set_name (safestr (last_name path path)) pr)).

(** The memory of the process [pr] is the image, with [l] the free pages *)
Record in_image (root sz entry sp : Z) (img : bytes) (rts : rights) (tf : Z) (k : kmem) (l : list Z) : Prop := InImage {
  ii_uvm : uvm root sz k l;
  ii_bytes : forall a, ubyte root (mem k) a = img a;
  ii_access : forall a, readable root (mem k) a = (0 <=? a) && (a <? sz) && negb (a / PGSIZE =? sz / PGSIZE - 2);
  ii_rights : forall a, 0 <= a < sz -> page_rights root (mem k) a = rts a;
  ii_epc : ld64 (mem k) (tf + TF_EPC) = entry;
  ii_sp : ld64 (mem k) (tf + TF_SP) = sp;
  ii_a1 : ld64 (mem k) (tf + TF_A1) = sp;
}.

Lemma stack_readable k0 l0 root sz img rts k l a : stack_at k0 l0 root sz img rts k l ->
  readable root (mem k) a = (0 <=? a) && (a <? sz) && negb (a / PGSIZE =? sz / PGSIZE - 2).
Proof.
  intros [[Hu _] [Hs Hal] Hm HU _ _ _]. destruct high_pages as (_ & _ & E1 & E2 & E3). unfold PGSIZE in *.
  assert (PGROUNDUP sz = sz) as Eg by (rewrite PGROUNDUP_div; dlia).
  destruct (Z.leb_spec 0 a) as [H0a|H0a]; [|unfold readable; by rewrite (proj2 (Z.leb_gt 0 a))]. cbn [andb].
  destruct (Z.ltb_spec a sz) as [Hlt|Hge]; cbn [andb].
  - unfold readable. rewrite Hm, Eg, (HU a) by lia. rewrite (proj2 (Z.leb_le 0 a)), (proj2 (Z.ltb_lt a MAXVA)), (proj2 (Z.ltb_lt a sz)) by lia. done.
  - destruct (readable root (mem k) a) eqn:Hr; [|done]. destruct (readable_low root 0 _ _ _ Hu Hr) as (Ha & Hv & _).
    rewrite Hm, Eg in Hv by done. apply Z.ltb_lt in Hv. lia.
Qed.

Lemma commit_image_run p path k0 l0 root sz img rts entry sp argc s l : stack_at k0 l0 root sz img rts (km s) l -> exec_pre (procs s p) k0 l0 ->
  0 <= sp < 2 ^ 64 -> 0 <= entry < 2 ^ 64 ->
  exists s', commit_image p path root sz entry sp argc s = Ret argc s' /\ files s' = files s /\
    procs s' = fupd (procs s) p (new_proc path root sz (procs s p)) /\ exists l', in_image root sz entry sp img rts (p_trapframe (procs s p)) (km s') l' /\
      forall x, foreign root (mem (km s')) l' x -> foreign (p_pagetable (procs s p)) (mem k0) l0 x.
Proof.
  intros Hst Hpre Hsp Hen. pose proof Hst as [(Hu & Hf & Hfc) [Hsz _] _ _ _ HI HR]. pose proof Hpre as [Hu0 Hbelow [Ht Htl] Hnt Hnf].
  destruct high_pages as (_ & _ & E1 & E2 & E3). set (pr := procs s p) in *. set (tf := p_trapframe pr) in *. set (k := km s) in *.
  assert (forall x, in_page tf x -> outside l0 x) as Htf by (intros x; by apply (trapframe_outside pr k0 l0)).
  assert (tf ∉ l) as Htl2.
  { intros Hin. destruct (Hf tf) as [_ [[U1 _] _]]; [apply Htf; unfold in_page, PGSIZE; lia|]. apply (U1 tf Hin). unfold in_page, PGSIZE. lia. }
  destruct (commit_mem_run tf sp entry k l Ht Htl2 (uv_inv _ _ _ _ Hu) (uv_bytes _ _ _ _ Hu) Hsp Hen) as (K1 & B1 & S1 & L1 & L2 & L3).
  set (m1 := commit_mem tf sp entry (mem k)) in *. set (k1 := set_mem m1 k) in *.
  assert (forall x, ~ in_page tf x -> mem k1 x = mem k x) as Hk1 by (intros x Hx; apply S1; unfold in_page in Hx; lia).
  (* the old space *)
  assert (forall x, owned (p_pagetable pr) (mem k0) x -> ~ in_page tf x) as Hown.
  { intros x Ho Hin. by apply (page_not_owned (p_pagetable pr) (p_sz pr) k0 l0 tf x). }
  destruct (uvm_other (p_pagetable pr) (p_sz pr) k0 l0 k1 l Hu0 K1 B1) as (Uo & Po & _ & Oo).
  { intros x Ho. destruct (Hf x) as [Ex [[Fx _] _]]; [exact (owned_outside _ _ k0 l0 x Hu0 Ho)|]. split; [|done]. rewrite Hk1 by by apply Hown. done. }
  destruct (proc_freepagetable_run (p_pagetable pr) (p_sz pr) (p_sz pr) k1 l Uo (uv_sz _ _ _ _ Uo)) as (k2 & l2 & E & K2 & B2 & F2 & G2).
  { intros a Ha. unfold valid. rewrite Po. by apply Hbelow. }
  (* the new space *)
  assert (forall x, owned root (mem k) x -> ~ in_page tf x) as Hnew.
  { intros x Ho Hin. destruct (Hf x (Htf x Hin)) as [_ Hfx]. by eapply foreign_owned. }
  destruct (uvm_other root 0 k l k1 l Hu K1 B1) as (Un & Pn & Bn & On).
  { intros x Ho. split; [by apply Hk1, Hnew|exact (owned_outside root 0 k l x Hu Ho)]. }
  destruct (uvm_other root 0 k1 l k2 l2 Un K2 B2) as (Un2 & Pn2 & Bn2 & On2).
  { intros x Ho%On. apply F2, foreign_not_owned; [exact (owned_outside root 0 k l x Hu Ho)|]. intros Ho2%Oo.
    destruct (Hf x) as [_ Hfx]; [exact (owned_outside _ _ k0 l0 x Hu0 Ho2)|]. by eapply foreign_owned. }
  assert (forall x, in_page tf x -> mem k2 x = mem k1 x) as Htf2.
  { intros x Hin. apply F2, foreign_not_owned.
    - intros y Hy Hyx. by apply (proj1 (proj1 (proj2 (Hf x (Htf x Hin)))) y Hy).
    - intros Ho%Oo. by apply (Hown x). }
  exists (set_km k2 (on_proc p (fun q => set_sz sz (set_pagetable root (set_name (safestr (last_name path path)) q))) s)).
  split; [|split; [done|split; [done|]]].
  - unfold commit_image. rewrite (bind_step _ _ s pr s) by done. fold tf.
    unfold upd, memory_op, store64, lift, bind, modify. cbn [km set_km on_proc set_procs procs]. fold k. unfold set_mem at 1 2 3. cbn [mem freelist].
    change (proc_freepagetable (p_pagetable pr) (p_sz pr) _) with (proc_freepagetable (p_pagetable pr) (p_sz pr) k1).
    rewrite E. unfold ret. f_equal. destruct s. unfold set_km, on_proc, set_procs. cbn. rewrite !fupd_eq, !fupd_twice. done.
  - assert (forall n a, tf <= a -> a + Z.of_nat n <= tf + PGSIZE -> ld n (mem k2) a = ld n m1 a) as Hld.
    { intros n a Ha1 Ha2. apply ld_ext. intros x Hx. apply Htf2. unfold in_page. lia. }
    exists l2. split; [split|].
    + apply (uvm_resize root 0); [done|]. unfold PGSIZE in *. lia.
    + intros a. by rewrite Bn2, Bn.
    + intros a. rewrite <- (stack_readable _ _ _ _ _ _ _ _ a Hst). unfold readable, valid. by rewrite Pn2, Pn.
    + intros a Ha. rewrite <- HR by done. unfold page_rights. by rewrite Pn2, Pn.
    + rewrite Hld; [exact L2|unfold TF_EPC; lia|unfold TF_EPC, PGSIZE; lia].
    + rewrite Hld; [exact L3|unfold TF_SP; lia|unfold TF_SP, PGSIZE; lia].
    + rewrite Hld; [exact L1|unfold TF_A1; lia|unfold TF_A1, PGSIZE; lia].
    + intros x Hfx. cbn [km set_km] in Hfx. pose proof (G2 x (proj1 (proj1 Hfx))) as Hox.
      apply foreign_not_owned.
      * apply Hfc, foreign_not_owned; [exact (proj1 (proj1 Hox))|]. intros Ho. eapply foreign_owned; [exact Hfx|]. by apply On2, On.
      * intros Ho. eapply foreign_owned; [exact Hox|]. by apply Oo.
Qed.

(** *** kexec *)

Lemma exec_stack_run p path argv k0 l0 root szl img rts entry s l : root <> 0 -> space_at k0 l0 root szl img rts (km s) l -> szl <= 134217728 ->
  exec_pre (procs s p) k0 l0 -> ok_args argv -> Z.of_nat (length argv) <> MAXARG -> 0 <= entry < 2 ^ 64 ->
  let sz := PGROUNDUP szl + (USERSTACK + 1) * PGSIZE in
  exists r s', exec_stack p path argv root szl entry s = Ret r s' /\
    ((r = -1 /\ only_mem s s' /\ exists l', restored k0 l0 (km s') l') \/
     exists sp0 us m sp, stack_image (sz - USERSTACK * PGSIZE) argv sz [] img = Some (sp0, us, m) /\
       sp = align16 (sp0 - (Z.of_nat (length us) + 1) * 8) /\ sz - USERSTACK * PGSIZE <= sp /\ r = Z.of_nat (length argv) /\
       procs s' = fupd (procs s) p (new_proc path root sz (procs s p)) /\
       exists l', in_image root sz entry sp (blit m sp (ustack_bytes (fun _ => 0) 0 (us ++ [0])) 0 ((Z.of_nat (length us) + 1) * 8))
         (with_stack (PGROUNDUP szl) rts) (p_trapframe (procs s p)) (km s') l' /\
         forall x, foreign root (mem (km s')) l' x -> foreign (p_pagetable (procs s p)) (mem k0) l0 x).
Proof.
  intros Hr Hsp Hszl Hpre Ha Hna Hen sz. destruct high_pages as (_ & _ & E1 & E2 & E3). change (USERSTACK * PGSIZE) with PGSIZE.
  pose proof (sa_size _ _ _ _ _ _ _ _ Hsp) as Hs0. destruct (pgroundup_page szl ltac:(lia)) as (R1 & R2 & R3).
  unfold exec_stack. cbv zeta. fold sz. destruct (stack_run k0 l0 root szl img rts s l Hsp Hszl) as (r & s1 & l1 & E & M1 & Ef1 & Hcase).
  fold sz in E, Hcase. rewrite (bind_step _ _ _ _ _ E). destruct Hcase as [[-> Hsp1]|(-> & k2 & Ek & Hst)].
  { cbn [Z.eqb]. destruct (bad_run k0 l0 root (PGROUNDUP szl) s1 l1 None Hr) as (s2 & l2 & E2' & M2 & Hres); try apply Hsp1; [lia|done|].
    exists (-1), s2. split; [done|]. left. split; [done|]. split; [by eapply only_mem_trans|]. by exists l2. }
  pose proof (st_size _ _ _ _ _ _ _ _ Hst) as [Hsz _]. unfold PGSIZE in Hsz. rewrite (proj2 (Z.eqb_neq sz 0)) by lia.
  rewrite (bind_step _ _ _ _ _ (memory_op_run _ s1 _ _ Ek)). change (USERSTACK * PGSIZE) with PGSIZE. set (s2 := set_km k2 s1).
  assert (only_mem s s2) as M2 by (eapply only_mem_trans; [exact M1|by destruct s1]).
  destruct (push_args_run k0 l0 root sz (with_stack (PGROUNDUP szl) rts) p l1 (S (length argv)) argv sz [] img s2 Hst Ha) as (o & s3 & m & E3' & M3 & Ef3 & Hst3 & Ei & Hsp3);
    [unfold PGSIZE; lia|lia|].
  assert (only_mem s s3) as M4 by (by eapply only_mem_trans).
  assert (forall s4 k, only_mem s s4 -> stack_at k0 l0 root sz k (with_stack (PGROUNDUP szl) rts) (km s4) l1 -> exists r s', bad root sz None s4 = Ret r s' /\
    r = -1 /\ only_mem s s' /\ exists l', restored k0 l0 (km s') l') as Hbad.
  { intros s4 k Hm4 [Hb4 _ Hc4 _ _ _ _]. destruct (bad_run k0 l0 root sz s4 l1 None Hr Hb4 ltac:(lia) Hc4) as (s5 & l5 & E5 & M5 & Hres); [done|].
    exists (-1), s5. split; [done|]. split; [done|]. split; [by eapply only_mem_trans|]. by exists l5. }
  unfold push_args. rewrite (bind_step _ _ _ _ _ E3'). destruct o as [[sp0 us]|].
  2: { destruct (Hbad s3 m M4 Hst3) as (r & s' & E4 & H4). exists r, s'. split; [done|by left]. }
  destruct (Hsp3 sp0 us eq_refl) as [Hsp0 Hlen]. cbn [length Nat.add] in Hlen. unfold push_ustack. set (n := (Z.of_nat (length us) + 1) * 8).
  assert (Z.of_nat (length us) <= MAXARG) as Hmax by (eapply stack_image_args; [exact Ei|cbn; unfold MAXARG; lia]).
  rewrite (proj2 (Z.leb_gt MAXARG _)) by lia. unfold MAXARG, PGSIZE in *.
  rewrite wrap_small by lia. fold (align16 (sp0 - n)). assert (sp0 - n - 15 <= align16 (sp0 - n) <= sp0 - n) as Hal by (unfold align16; dlia).
  set (sp := align16 (sp0 - n)) in *. destruct (Z.ltb_spec sp (sz - 4096)) as [Hlow|Hok].
  { rewrite (bind_step _ _ s3 None s3) by done. destruct (Hbad s3 m M4 Hst3) as (r & s' & E4 & H4). exists r, s'. split; [done|by left]. }
  destruct (stack_copyout k0 l0 root sz m (with_stack (PGROUNDUP szl) rts) (p_sz (procs s3 p)) (p_pagetable (procs s3 p)) sp (ustack_bytes (fun _ => 0) 0 (us ++ [0])) n (km s3) l1 Hst3)
    as (k4 & E4 & Hst4); [apply ustack_bytes_ok; intros a; lia|unfold PGSIZE; lia|lia|lia|].
  rewrite (bind_step _ _ s3 (Some sp) (set_km k4 s3)).
  2: { rewrite (bind_step _ _ s3 (procs s3 p) s3) by done. by rewrite (bind_step _ _ _ _ _ (memory_op_run _ s3 _ _ E4)). }
  assert (procs (set_km k4 s3) = procs s) as Ep by (by rewrite <- (only_mem_procs _ _ M4)).
  destruct (commit_image_run p path k0 l0 root sz (blit m sp (ustack_bytes (fun _ => 0) 0 (us ++ [0])) 0 n) (with_stack (PGROUNDUP szl) rts) entry sp (Z.of_nat (length us)) (set_km k4 s3) l1)
    as (s5 & E5 & Ef5 & Hp5 & Him); [done|by rewrite Ep|lia|done|].
  rewrite Ep in Hp5, Him. exists (Z.of_nat (length us)), s5. split; [done|]. right. exists sp0, us, m, sp. split; [done|]. split; [done|]. split; [lia|].
  split; [by rewrite Hlen|done].
Qed.

(** begin_op, namei and ilock of the file, or its absence *)
Definition exec_open (path : chars) : M F Z :=
  x_begin ;;;
  ip <- x_namei path ;;
  if ip =? 0 then x_end ;;; ret 0 else x_ilock ip ;;; ret ip.

Lemma open_run path s ip f : exec_open path (files s) = Ret ip f ->
  exists f1 f2, x_begin (files s) = Ret tt f1 /\ x_namei path f1 = Ret ip f2 /\
    (if ip =? 0 then x_end f2 = Ret tt f else x_ilock ip f2 = Ret tt f).
Proof.
  unfold exec_open, bind, ret. intros E. destruct (x_begin (files s)) as [[] f1| | |] eqn:E1; try done.
  destruct (x_namei path f1) as [i f2| | |] eqn:E2; try done. exists f1, f2. split; [done|].
  destruct (Z.eqb_spec i 0) as [-> |Hne].
  - destruct (x_end f2) as [[] f3| | |] eqn:E3; try done. by injection E as <- <-.
  - destruct (x_ilock i f2) as [[] f3| | |] eqn:E3; try done. injection E as <- <-. split; [done|]. by rewrite (proj2 (Z.eqb_neq i 0)).
Qed.

Context (trampoline : Z).
Hypothesis trampoline_pa : 0 <= trampoline /\ trampoline + PGSIZE <= 2 ^ 56.

Lemma kexec_run p path argv ip c size f s l :
  exec_pre (procs s p) (km s) l -> ok_args argv -> Z.of_nat (length argv) <> MAXARG -> exec_open path (files s) = Ret ip f -> (ip <> 0 -> x_ok f ip c size) ->
  exists r s', kexec trampoline p path argv s = Ret r s' /\
    ((r = -1 /\ only_mem s s' /\
      (exists l', uvm (p_pagetable (procs s p)) (p_sz (procs s p)) (km s') l' /\ l' ≡ₚ l) /\
      (forall a, ubyte (p_pagetable (procs s p)) (mem (km s')) a = ubyte (p_pagetable (procs s p)) (mem (km s)) a) /\
      (forall x, in_page (p_trapframe (procs s p)) x -> mem (km s') x = mem (km s) x)) \/
     exists entry sz sp img root, exec_image c size argv = Some (entry, sz, sp, img) /\ r = Z.of_nat (length argv) /\
       procs s' = fupd (procs s) p (new_proc path root sz (procs s p)) /\
       exists l', in_image root sz entry sp img (exec_rights c sz) (p_trapframe (procs s p)) (km s') l' /\
         forall x, foreign root (mem (km s')) l' x -> foreign (p_pagetable (procs s p)) (mem (km s)) l x).
Proof.
  intros Hpre Ha Hna Hopen Hx. destruct (open_run path s ip f Hopen) as (f1 & f2 & B1 & N1 & L1).
  pose proof (xp_uvm _ _ _ Hpre) as Hu. pose proof (xp_page _ _ _ Hpre) as [Ht _]. pose proof (page_ok_range _ Ht) as Htr.
  assert (forall s2 l2, only_mem s s2 -> restored (km s) l (km s2) l2 ->
    (-1 = -1 /\ only_mem s s2 /\ (exists l', uvm (p_pagetable (procs s p)) (p_sz (procs s p)) (km s2) l' /\ l' ≡ₚ l) /\
      (forall a, ubyte (p_pagetable (procs s p)) (mem (km s2)) a = ubyte (p_pagetable (procs s p)) (mem (km s)) a) /\
      (forall x, in_page (p_trapframe (procs s p)) x -> mem (km s2) x = mem (km s) x))) as Hfail.
  { intros s2 l2 Hm Hres. destruct (pre_restored _ _ _ _ _ Hpre (restored_within _ _ _ _ Hres)) as (U & B & T).
    split; [done|]. split; [done|]. split; [|done]. exists l2. split; [done|]. apply (restored_free (km s) l (km s2)); [apply Hu|done]. }
  assert (restored (km s) l (km s) l) as Hsame by (split; [apply Hu|]; split; [apply Hu|]; done).
  unfold kexec. rewrite (bind_step _ _ _ _ _ (file_op_run _ s _ _ B1)).
  rewrite (bind_step _ _ _ _ _ (file_op_run _ (set_files f1 s) _ _ N1)). destruct (Z.eqb_spec ip 0) as [Hip|Hip].
  { rewrite (bind_step _ _ _ _ _ (file_op_run _ (set_files f2 (set_files f1 s)) _ _ L1)). eexists (-1), _. split; [done|]. left.
    apply (Hfail _ l); [by destruct s|done]. }
  specialize (Hx Hip). rewrite (bind_step _ _ _ _ _ (file_op_run _ (set_files f2 (set_files f1 s)) _ _ L1)).
  set (s1 := set_files f (set_files f2 (set_files f1 s))). assert (only_mem s s1) as M1 by by destruct s.
  pose proof (x_size _ _ _ _ Hx) as [Hsize Hbc].
  destruct (readi_local_run ip c size 0 ELF_SIZE s1 Hx) as (r & m & f3 & E3 & Hx3 & Hr3); [lia|unfold ELF_SIZE; lia|].
  rewrite (bind_step _ _ _ _ _ E3). cbn [fst snd]. set (s2 := set_files f3 s1). assert (only_mem s s2) as M2 by by destruct s.
  assert (exists r s', bad 0 0 (Some ip) s2 = Ret r s' /\ r = -1 /\ only_mem s s' /\ exists l', restored (km s) l (km s') l') as (rb & sb & Eb & -> & Mb & lb & Rb).
  { destruct (bad0_run s2 ip c size l) as (s3 & E & M & Ek); [apply Hu|apply Hu|done|]. exists (-1), s3. split; [done|]. split; [done|].
    split; [by eapply only_mem_trans|]. exists l. by rewrite Ek. }
  destruct (Z.eqb_spec r ELF_SIZE) as [Er|]; cbn [negb]; [|exists (-1), sb; split; [done|]; left; by apply (Hfail _ lb)].
  destruct (Hr3 Er) as [Hfit Hm]. rewrite (get_elf_eq c m Hm). set (elf := get_elf c 0).
  destruct (Z.eqb_spec (e_magic elf) ELF_MAGIC) as [Hmag|]; cbn [negb]; [|exists (-1), sb; split; [done|]; left; by apply (Hfail _ lb)].
  unfold bind at 1. rewrite proc_pagetable_eq.
  destruct (new_pagetable_run trampoline trampoline_pa (p_trapframe (procs s2 p)) (km s) l (uv_inv _ _ _ _ Hu) (uv_bytes _ _ _ _ Hu))
    as (root & k3 & l3 & E4 & Hnew); [cbn; lia|cbn; unfold PGSIZE in *; lia|].
  rewrite (memory_op_run _ s2 _ _ E4). set (s3 := set_km k3 s2). assert (only_mem s s3) as M3 by by destruct s.
  destruct Hnew as [(-> & Hres & _)|(Hroot & _ & Hb3 & Hc3 & Hz3)].
  { cbn [Z.eqb]. destruct (bad0_run s3 ip c size l3) as (s4 & E & M & Ek); [apply Hres|apply Hres|done|].
    exists (-1), s4. split; [done|]. left. apply (Hfail _ l3); [by eapply only_mem_trans|by rewrite Ek]. }
  rewrite (proj2 (Z.eqb_neq root 0)) by done. destruct high_pages as (_ & _ & E1 & E2 & E3').
  assert (space_at (km s) l root 0 (fun _ => 0) (fun _ => (false, false)) (km s3) l3) as Hsp3.
  { split; [done|lia|done|change (PGROUNDUP 0) with 0; intros va Hva; lia|done|change (PGROUNDUP 0) with 0; intros va Hva; lia]. }
  assert (0 <= e_phnum elf < 2 ^ 16) as Hph by (apply (ld_range 2); done). assert (0 <= e_entry elf < 2 ^ 64) as Hen by (apply (ld_range 8); done).
  destruct (load_run (km s) l root ip c size (e_phnum elf) (Z.to_nat (e_phnum elf) + 1) 0 (i32 (e_phoff elf)) 0 (fun _ => 0) (fun _ => (false, false)) s3 l3 Hsp3)
    as (szl & b & s4 & l4 & img & rts & E5 & M4 & Hx4 & Hsp4 & Hszl & Hok); [lia|done|lia|lia|].
  rewrite (bind_step _ _ _ _ _ E5). cbn [fst snd]. assert (only_mem s s4) as M5 by (by eapply only_mem_trans).
  destruct b; cbn [negb].
  2: { destruct (bad_run (km s) l root szl s4 l4 (Some ip) Hroot) as (s5 & l5 & E6 & M6 & Hres); try apply Hsp4.
       { pose proof (sa_size _ _ _ _ _ _ _ _ Hsp4). lia. } { intros ip' [= <-]. by exists c, size. }
       exists (-1), s5. split; [done|]. left. apply (Hfail _ l5); [by eapply only_mem_trans|done]. }
  destruct (x_close_ok _ _ _ _ Hx4) as (f5 & f6 & C1 & C2). rewrite (bind_step _ _ _ _ _ (file_op_run _ s4 _ _ C1)).
  rewrite (bind_step _ _ _ _ _ (file_op_run _ (set_files f5 s4) _ _ C2)). set (s5 := set_files f6 (set_files f5 s4)).
  assert (only_mem s s5) as M6 by (eapply only_mem_trans; [exact M5|by destruct s4]).
  assert (procs s5 = procs s) as Ep by by apply only_mem_procs.
  destruct (exec_stack_run p path argv (km s) l root szl img rts (e_entry elf) s5 l4 Hroot) as (r7 & s7 & E7 & H7); try done; [by rewrite Ep|].
  exists r7, s7. split; [done|]. destruct H7 as [(-> & M7 & l7 & Hres)|(sp0 & us & m7 & sp & Ei & -> & Hlow & -> & Hp7 & l7 & Him & Hback)].
  { left. apply (Hfail _ l7); [by eapply only_mem_trans|done]. }
  specialize (Hok eq_refl) as [Hok Hrt]. rewrite Z.sub_0_r in Hok, Hrt. subst rts.
  right. rewrite Ep in Hp7, Him, Hback. eexists _, _, _, _, root. split; [|split; [done|split; [exact Hp7|]]].
  2: { exists l7. split; [|exact Hback]. unfold exec_rights. rewrite Z.add_simpl_r. exact Him. }
  unfold exec_image. fold elf. rewrite (proj2 (Z.ltb_ge size _)) by lia. rewrite (proj2 (Z.eqb_eq _ _) Hmag). cbn [negb orb].
  rewrite Hok. cbv zeta. rewrite Ei. by rewrite (proj2 (Z.ltb_ge _ (_ - _))) by exact Hlow.
Qed.

(** C13. kexec, for a process with any address space, and any file, arguments (other
    than exactly MAXARG of them) and amount of free memory, returns. Either the result is -1, and the process
    table, the memory the process reads, and its trap frame are exactly as
    before, and the free pages are those of before; or the file and the arguments describe an image ([exec_image]: a
    valid header, every loaded segment inside the file, page-aligned and below
    2^64, arguments that fit on the stack), the result is the number of
    arguments, and the process is changed only in its name, size and page table:
    every address then reads as the image says (segments, zeroes, strings and
    the array of their addresses), exactly the addresses below the size outside
    the guard page are accessible, every page may be written and executed exactly
    as the flags of the segment that first reaches it say ([exec_rights]; the stack
    is written and not executed), the trap frame holds the entry point, the
    stack pointer and the array's address, and the pages of the old space are
    free or in use again: none is lost. *)
Theorem kexec_correct p path argv ip c size f s l :
  exec_pre (procs s p) (km s) l -> ok_args argv -> Z.of_nat (length argv) <> MAXARG -> exec_open path (files s) = Ret ip f -> (ip <> 0 -> x_ok f ip c size) ->
  exists r s', kexec trampoline p path argv s = Ret r s' /\
    ((r = -1 /\ only_mem s s' /\
      (exists l', uvm (p_pagetable (procs s p)) (p_sz (procs s p)) (km s') l' /\ l' ≡ₚ l) /\
      (forall a, ubyte (p_pagetable (procs s p)) (mem (km s')) a = ubyte (p_pagetable (procs s p)) (mem (km s)) a) /\
      (forall x, in_page (p_trapframe (procs s p)) x -> mem (km s') x = mem (km s) x)) \/
     exists entry sz sp img root, exec_image c size argv = Some (entry, sz, sp, img) /\ r = Z.of_nat (length argv) /\
       procs s' = fupd (procs s) p (new_proc path root sz (procs s p)) /\
       exists l', in_image root sz entry sp img (exec_rights c sz) (p_trapframe (procs s p)) (km s') l' /\
         forall x, foreign root (mem (km s')) l' x -> foreign (p_pagetable (procs s p)) (mem (km s)) l x).
Proof. exact (kexec_run p path argv ip c size f s l). Qed.
End loading.

(** ** A file in memory, for running kexec *)

Record ramfile := Ram { r_bytes : bytes; r_size : Z }.

#[export] Instance ram_fs : ExecFs ramfile := {|
  x_begin := ret tt;
  x_end := ret tt;
  x_namei _ := ret 1;
  x_ilock _ := ret tt;
  x_iunlockput _ := ret tt;
  x_readi _ m a off n := fun f =>
    let r := Z.max 0 (Z.min n (r_size f - off)) in Ret (r, blit m a (r_bytes f) off r) f;
|}.

#[export] Instance ram_laws : ExecFsLaws ramfile.
Proof.
  refine {| x_ok := fun f _ c size => r_bytes f = c /\ r_size f = size /\ 0 <= size < 2 ^ 32 /\ bytes_ok c |}.
  - intros f ip c size (_ & _ & H1 & H2). done.
  - intros f ip c size m a off n (<- & <- & H1 & H2) Hm Ho Hn Ha1 Ha2. eexists _, _, f. split; [reflexivity|]. split; [done|].
    split; [by apply blit_bytes_ok|]. split; [lia|]. split; [intros x Hx; apply blit_out; lia|]. intros Er Hn0. split; [lia|].
    intros i Hi. rewrite blit_in by lia. f_equal. lia.
  - intros f ip c size _. by exists f, f.
Defined.

(** An ELF file with one segment of eight bytes at 0, and a process with an
    empty address space *)
Definition elf_bytes : bytes :=
  store_list (st64 (st64 (st64 (st64 (st64 (st64 (st16 (st64 (st64 (st32 (fun _ => 0) 0 ELF_MAGIC) 24 4) 32 64) 56 1) 64 (1 + 5 * 2 ^ 32)) 72 120) 80 0) 96 8) 104 4096) 112 4096)
    120 [10; 20; 30; 40; 50; 60; 70; 80].
Definition pages8 : list Z := (fun i => PHYSTOP - i * PGSIZE) <$> [1; 2; 3; 4; 5; 6; 7; 8].
Definition exec_kmem : kmem := Kmem (link_pages (zip pages8 (tail pages8 ++ [0]))) (PHYSTOP - PGSIZE).
Definition exec_proc : proc :=
  Proc RUNNING 0 0 0 3 0 0 12288 root10 (PHYSTOP - 9 * PGSIZE) 0 0 (fun _ => 0) 0 [] 0 0.
Definition exec_state : pstate ramfile := PSt (fun _ => exec_proc) 4 0 0 exec_kmem (Ram elf_bytes 128).
Definition cat_args : list chars := [[99; 97; 116]; [120]].

Lemma exec_root_zero x : in_page root10 x -> mem exec_kmem x = 0.
Proof.
  intros Hx. apply link_pages_other. unfold in_page, root10, PGSIZE in Hx. repeat constructor; cbn [fst]; unfold PGSIZE; lia.
Qed.
Lemma exec_empty va : pte_of (mem exec_kmem) root10 va = 0.
Proof. apply empty_root_pte, exec_root_zero. Qed.

Lemma exec_state_pre : exec_pre exec_proc exec_kmem pages8.
Proof.
  assert (forall va, valid root10 (mem exec_kmem) va = false) as Hv by (intros va; unfold valid; by rewrite exec_empty).
  assert (pt_wf (mem exec_kmem) root10 pages8) as Hw.
  { apply empty_root; [| |by apply exec_root_zero]; apply (bool_decide_unpack _); vm_compute; exact I. }
  split; [split| | | |]; cbn [p_pagetable p_sz exec_proc].
  - split; [vm_compute; repeat split|apply (bool_decide_unpack _); vm_compute; exact I..].
  - done.
  - unfold exec_kmem, link_pages. cbn [mem]. generalize (zip pages8 (tail pages8 ++ [0])) as z.
    induction z as [|[p n] z IH]; [intros a; cbn; lia|]. cbn [foldr]. by apply st_bytes_ok.
  - vm_compute. split; congruence.
  - intros va _ H. by rewrite Hv in H.
  - intros va va' _ _ H. by rewrite Hv in H.
  - intros va _. by rewrite exec_empty.
  - intros a _ H. by rewrite Hv in H.
  - split; apply (bool_decide_unpack _); vm_compute; exact I.
  - intros [|i q] [_ Hq] E; [vm_compute in E; congruence|]. apply Forall_cons in Hq as [Hi _]. cbn [node p_pagetable exec_proc] in E.
    rewrite zero_slot in E; [done|by apply exec_root_zero|done].
  - intros va _ H. by rewrite Hv in H.
Qed.

Lemma kexec_correct_witness : exists s' img root, kexec 4096 3 [47; 99; 97; 116] cat_args exec_state = Ret 2 s' /\
  (exists l', in_image root 12288 4 12224 img (exec_rights elf_bytes 12288) (PHYSTOP - 9 * PGSIZE) (km s') l') /\
  exec_rights elf_bytes 12288 0 = (false, true) /\ exec_rights elf_bytes 12288 8192 = (true, false) /\ p_name (procs s' 3) = [99; 97; 116] /\
  exec_image elf_bytes 128 cat_args = Some (4, 12288, 12224, img).
Proof.
  assert (bytes_ok elf_bytes) as Hb.
  { apply store_list_ok; [|repeat constructor; vm_compute; congruence]. repeat apply st_bytes_ok. intros a. lia. }
  destruct (kexec_correct 4096 ltac:(vm_compute; split; congruence) 3 [47; 99; 97; 116] cat_args 1 elf_bytes 128 (Ram elf_bytes 128) exec_state pages8)
    as (r & s' & E & H).
  - exact exec_state_pre.
  - repeat constructor; vm_compute; congruence.
  - vm_compute. congruence.
  - reflexivity.
  - intros _. split; [reflexivity|]. split; [reflexivity|]. split; [vm_compute; split; congruence|exact Hb].
  - assert (match kexec 4096 3 [47; 99; 97; 116] cat_args exec_state with Ret r _ => r = 2 | _ => False end) as Hr by (vm_compute; reflexivity).
    rewrite E in Hr. subst r. destruct H as [[H _]|(entry & sz & sp & img & root & Ei & _ & Hp & l' & Him & _)]; [discriminate H|].
    assert (match exec_image elf_bytes 128 cat_args with Some (e, z, q, _) => e = 4 /\ z = 12288 /\ q = 12224 | None => False end) as Hq
      by (vm_compute; repeat split; reflexivity).
    rewrite Ei in Hq. destruct Hq as (-> & -> & ->). exists s', img, root. split; [exact E|]. split; [exists l'; exact Him|].
    split; [vm_compute; reflexivity|]. split; [vm_compute; reflexivity|]. split; [|exact Ei].
    rewrite Hp. reflexivity.
Defined.
