(* ===== verification/ExecArgs.v ===== *)
(** * The arguments on the new stack

    What main(argc, argv) finds in the image that kexec installs: argv points
    to the addresses of the strings, in order, and a null pointer. *)
From stdpp Require Import base list numbers strings relations.
From Stdlib Require Import ZArith Lia.
From S2P Require Import Ulib Prelude Memlayout Kalloc Vm VmUser Proc Exec ExecProps.

Definition word (t : chars) : Prop := Forall (fun v => 0 < v < 256) t.

Lemma cstr_ext t : forall m m' a b, (forall i, 0 <= i <= Z.of_nat (length t) -> m' (b + i) = m (a + i)) -> cstr m a t -> cstr m' b t.
Proof.
  induction t as [|v t IH]; intros m m' a b Hx Hc; cbn in *.
  - specialize (Hx 0 ltac:(lia)). rewrite !Z.add_0_r in Hx. congruence.
  - destruct Hc as (<- & Hn & Hc). pose proof (Hx 0 ltac:(lia)) as Hx0. rewrite !Z.add_0_r in Hx0. split; [done|]. split; [done|].
    apply (IH m m' (a + 1) (b + 1)); [|done]. intros i Hi. specialize (Hx (1 + i) ltac:(lia)). by rewrite !Z.add_assoc in Hx.
Qed.

Lemma cstr_store t : forall m a, word t -> m (a + Z.of_nat (length t)) = 0 -> cstr (store_list m a t) a t.
Proof.
  induction t as [|v t IH]; intros m a Hw Hz; cbn in *; [by rewrite Z.add_0_r in Hz|]. apply Forall_cons in Hw as [Hv Hw].
  split; [rewrite store_list_other by lia; apply fupd_eq|]. split; [lia|]. apply IH; [done|]. rewrite fupd_ne by lia. rewrite <- Hz. f_equal. lia.
Qed.

Lemma cstr_blit m sp t : word t -> cstr (blit m sp (str_bytes t) 0 (Z.of_nat (length t) + 1)) sp t.
Proof.
  intros Hw. apply (cstr_ext t (str_bytes t) _ 0).
  - intros i Hi. rewrite blit_in by lia. f_equal. lia.
  - by apply cstr_store.
Qed.

(** Every string lies above the final stack pointer, and later ones below
    earlier ones. *)
Lemma stack_image_strings base argv : forall sp us m sp' us' m', Forall word argv -> stack_image base argv sp us m = Some (sp', us', m') ->
  exists vs, us' = us ++ vs /\ sp' <= sp /\ (forall x, x < sp' \/ sp <= x -> m' x = m x) /\
    Forall2 (fun u t => sp' <= u /\ u + Z.of_nat (length t) < sp /\ u mod 16 = 0 /\ cstr m' u t) vs argv.
Proof.
  induction argv as [|t argv IH]; intros sp us m sp' us' m' Hw E; cbn in E.
  - injection E as <- <- <-. exists []. by rewrite app_nil_r.
  - apply Forall_cons in Hw as [Ht Hw]. destruct (_ || _); [done|]. set (n := Z.of_nat (length t) + 1) in *.
    assert (align16 (sp - n) <= sp - n /\ align16 (sp - n) mod 16 = 0) as [Hal Hmod] by (unfold align16; dlia). set (u := align16 (sp - n)) in *.
    destruct (IH _ _ _ _ _ _ Hw E) as (vs & -> & Hle & Hfr & Hall). exists (u :: vs). rewrite <- app_assoc. split; [done|]. split; [lia|]. split.
    + intros x Hx. rewrite Hfr by lia. apply blit_out. lia.
    + constructor.
      * split; [lia|]. split; [lia|]. split; [done|]. apply (cstr_ext t (blit m u (str_bytes t) 0 n) m' u u); [|by apply cstr_blit].
        intros i Hi. apply Hfr. lia.
      * eapply Forall2_impl; [exact Hall|]. intros v w (H1 & H2 & H3 & H4). split; [lia|]. split; [lia|]. done.
Qed.

Lemma ustack_other us : forall m a x, x < a \/ a + 8 * Z.of_nat (length us) <= x -> ustack_bytes m a us x = m x.
Proof. induction us as [|v us IH]; intros m a x Hx; [done|]. cbn [ustack_bytes length] in *. rewrite IH by lia. apply st_other. lia. Qed.

Lemma ustack_word us : forall m a i v, us !! i = Some v -> ld64 (ustack_bytes m a us) (a + 8 * Z.of_nat i) = v mod 2 ^ 64.
Proof.
  induction us as [|w us IH]; intros m a i v E; [done|]. cbn [ustack_bytes]. destruct i as [|i]; cbn in E.
  - injection E as ->. rewrite Z.mul_0_r, Z.add_0_r. rewrite (ld_ext 8 _ (st64 m a v)) by (intros x Hx; apply ustack_other; lia). by rewrite ld_st_same.
  - replace (a + 8 * Z.of_nat (S i)) with (a + 8 + 8 * Z.of_nat i) by lia. by apply IH.
Qed.

(** The contents of the stack in an image *)
Lemma image_arguments c size argv entry sz sp img :
  Forall word argv -> exec_image c size argv = Some (entry, sz, sp, img) -> sz <= TRAPFRAME ->
  sp mod 16 = 0 /\ sz - PGSIZE <= sp < sz /\ ld64 img (sp + 8 * Z.of_nat (length argv)) = 0 /\
  forall i t, argv !! i = Some t -> exists u, ld64 img (sp + 8 * Z.of_nat i) = u /\ cstr img u t /\
    sp + 8 * (Z.of_nat (length argv) + 1) <= u /\ u + Z.of_nat (length t) < sz.
Proof.
  intros Hw E Hmax. unfold exec_image in E. destruct (_ || _); [done|].
  destruct (load_image c size _ _ 0 _) as [[szl m0]|]; [|done]. set (z := PGROUNDUP szl + _) in E. change (USERSTACK * PGSIZE) with PGSIZE in E. cbv zeta in E.
  destruct (stack_image (z - PGSIZE) argv z [] m0) as [[[sp0 us] m]|] eqn:Es; [|done].
  destruct (Z.ltb_spec (align16 (sp0 - (Z.of_nat (length us) + 1) * 8)) (z - PGSIZE)) as [|Hlow]; [done|]. injection E as <- <- <- <-.
  destruct (stack_image_strings _ _ _ _ _ _ _ _ Hw Es) as (vs & -> & Hle & _ & Hall). cbn [app] in *.
  pose proof (Forall2_length _ _ _ Hall) as Hlen. rewrite <- Hlen. set (n := (Z.of_nat (length vs) + 1) * 8) in *.
  assert (align16 (sp0 - n) <= sp0 - n /\ align16 (sp0 - n) mod 16 = 0) as [Hal Hmod] by (unfold align16; dlia). set (sp := align16 (sp0 - n)) in *.
  assert (0 <= z - PGSIZE /\ z < 2 ^ 64) as Hz.
  { assert (0 <= PGROUNDUP szl) by (apply Z.land_nonneg; left; apply wrap_range; lia). change TRAPFRAME with 274877898752 in Hmax.
    unfold z, USERSTACK, PGSIZE in *. lia. }
  set (us := ustack_bytes (fun _ => 0) 0 (vs ++ [0])).
  assert (forall i, (i <= length vs)%nat -> forall u, (vs ++ [0]) !! i = Some u -> 0 <= u < 2 ^ 64 -> ld64 (blit m sp us 0 n) (sp + 8 * Z.of_nat i) = u) as Hld.
  { intros i Hi u Eu Hu. rewrite (ld_shift 8 _ us (sp + 8 * Z.of_nat i) (0 + 8 * Z.of_nat i)).
    - unfold us. rewrite (ustack_word _ _ _ _ _ Eu). by apply Z.mod_small.
    - intros x Hx. rewrite blit_in by lia. f_equal. lia. }
  split; [done|]. split; [lia|]. split; [apply Hld; [lia|by rewrite lookup_app_r, Nat.sub_diag by lia|lia]|].
  intros i t Et. destruct (Forall2_lookup_r _ _ _ _ _ Hall Et) as (u & Eu & H1 & H2 & H3 & H4). exists u.
  assert (i < length vs)%nat as Hi by by eapply lookup_lt_Some.
  split; [apply Hld; [lia|by rewrite lookup_app_l|lia]|]. split; [|lia].
  apply (cstr_ext t m _ u u); [|done]. intros j Hj. apply blit_out. lia.
Qed.

Section arguments.
Context `{KernelEnd} {F : Type} `{ExecFsLaws F} (trampoline : Z).
Hypothesis trampoline_pa : 0 <= trampoline /\ trampoline + PGSIZE <= 2 ^ 56.

(** C14. When kexec succeeds for arguments without null characters, main finds them:
    the result, which becomes a0, is their number; the stack pointer is 16-byte
    aligned and inside the stack page; the array at the stack pointer, whose
    address is in a1, holds in user memory the addresses of the strings in order
    and then a null pointer; and at each of these addresses lies exactly the
    string of that argument, in the stack page and above the array. *)
Theorem exec_arguments p path argv ip c size f s l r s' :
  exec_pre (procs s p) (km s) l -> ok_args argv -> Z.of_nat (length argv) <> MAXARG -> exec_open path (files s) = Ret ip f ->
  (ip <> 0 -> x_ok f ip c size) -> Forall word argv -> kexec trampoline p path argv s = Ret r s' -> r <> -1 ->
  let sz := p_sz (procs s' p) in
  let rd := ubyte (p_pagetable (procs s' p)) (mem (km s')) in
  let sp := ld64 (mem (km s')) (p_trapframe (procs s' p) + TF_SP) in
  r = Z.of_nat (length argv) /\ ld64 (mem (km s')) (p_trapframe (procs s' p) + TF_A1) = sp /\
  sp mod 16 = 0 /\ sz - PGSIZE <= sp < sz /\ ld64 rd (sp + 8 * Z.of_nat (length argv)) = 0 /\
  forall i t, argv !! i = Some t -> exists u, ld64 rd (sp + 8 * Z.of_nat i) = u /\ cstr rd u t /\
    sp + 8 * (Z.of_nat (length argv) + 1) <= u /\ u + Z.of_nat (length t) < sz.
Proof.
  intros Hpre Ha Hna Hopen Hx Hw E Hr. destruct (kexec_run trampoline trampoline_pa p path argv ip c size f s l Hpre Ha Hna Hopen Hx) as (r' & s'' & E' & H').
  rewrite E in E'. injection E' as <- <-. destruct H' as [[? _]|(entry & sz & sp & img & root & Ei & -> & Hp & l' & [Hu Hb _ _ _ Hsp Ha1] & _)]; [done|].
  rewrite Hp, fupd_eq. cbn [new_proc p_sz p_pagetable p_trapframe set_sz set_pagetable set_name]. rewrite Hsp, Ha1.
  destruct (image_arguments c size argv entry sz sp img Hw Ei) as (A1 & A2 & A3 & A4); [apply (uv_sz _ _ _ _ Hu)|].
  cbv zeta. do 4 (split; [done|]). rewrite (ld_ext 8 _ img) by (intros; apply Hb). split; [done|].
  intros i t Et. destruct (A4 i t Et) as (u & U1 & U2 & U3). exists u. split; [by rewrite (ld_ext 8 _ img) by (intros; apply Hb)|].
  split; [|done]. apply (cstr_ext t img _ u u); [|done]. intros j _. apply Hb.
Qed.
End arguments.

Lemma exec_arguments_witness : exists s', kexec 4096 3 [47; 99; 97; 116] cat_args exec_state = Ret 2 s' /\
  exists u, ld64 (ubyte (p_pagetable (procs s' 3)) (mem (km s'))) 12224 = u /\ cstr (ubyte (p_pagetable (procs s' 3)) (mem (km s'))) u [99; 97; 116].
Proof.
  assert (bytes_ok elf_bytes) as Hb.
  { apply store_list_ok; [|repeat constructor; vm_compute; congruence]. repeat apply st_bytes_ok. intros a. lia. }
  assert (match kexec 4096 3 [47; 99; 97; 116] cat_args exec_state with
    | Ret r s' => r = 2 /\ ld64 (mem (km s')) (p_trapframe (procs s' 3) + TF_SP) = 12224 | _ => False end) as Hr by (vm_compute; split; reflexivity).
  destruct (kexec 4096 3 [47; 99; 97; 116] cat_args exec_state) as [r s'| | |] eqn:E; try contradiction. destruct Hr as [-> Hsp].
  exists s'. split; [reflexivity|].
  destruct (exec_arguments 4096 ltac:(vm_compute; split; congruence) 3 [47; 99; 97; 116] cat_args 1 elf_bytes 128 (Ram elf_bytes 128) exec_state pages8 2 s')
    as (_ & _ & _ & _ & _ & H).
  - exact exec_state_pre.
  - repeat constructor; vm_compute; congruence.
  - vm_compute. congruence.
  - reflexivity.
  - intros _. split; [reflexivity|]. split; [reflexivity|]. split; [vm_compute; split; congruence|exact Hb].
  - repeat constructor.
  - exact E.
  - congruence.
  - destruct (H 0%nat [99; 97; 116] eq_refl) as (u & H1 & H2 & _). rewrite Hsp in H1. exists u. split; [exact H1|exact H2].
Defined.
