(* ===== verification/ExecSys.v ===== *)
(** * kernel/sysfile.c: sys_exec

    The path and the strings of argv are copied from user memory, each string
    into a page of its own, before kexec runs; the pages are freed on every way
    out. *)
From stdpp Require Import base list numbers strings.
From Stdlib Require Import ZArith Lia.
From S2P Require Import Ulib Prelude Memlayout Kalloc Vm Proc Sysproc Exec ExecProps.

(** The string at [a], at most [n] characters *)
Fixpoint get_str (n : nat) (m : bytes) (a : Z) : chars :=
  match n with O => [] | S n' => if m a =? 0 then [] else m a :: get_str n' m (a + 1) end.

Section sys_exec.
Context `{KernelEnd} {F : Type} `{ExecFs F}.
Context (trampoline : Z).
Abbreviation P := (M (pstate F)).

(** argstr into a local buffer: None is the result -1 *)
Definition fetch_local (p addr max : Z) : P (option chars) :=
  pr <- proc_of p ;;
  r <- memory_op (copyinstr (p_pagetable pr) (fun _ => 0) 0 addr max) ;;
  if snd r <? 0 then ret None else ret (Some (get_str (Z.to_nat max) (fst r) 0)).

(** fetchstr into the page [page] of kernel memory *)
Definition fetch_page (p addr page : Z) : P Z :=
  pr <- proc_of p ;;
  k <- gets km ;;
  r <- memory_op (copyinstr (p_pagetable pr) (mem k) page addr PGSIZE) ;;
  memory_op (modify (set_mem (fst r))) ;;;
  if snd r <? 0 then ret (-1) else m <- gets (fun s => mem (km s)) ;; ret (Z.of_nat (length (get_str (Z.to_nat PGSIZE) m page))).

(** for (i = 0; i < NELEM(argv) && argv[i] != 0; i++) kfree(argv[i]); *)
Fixpoint free_args (argv : list Z) : P unit :=
  match argv with [] => ret tt | page :: argv' => memory_op (kfree page) ;;; free_args argv' end.

(** The loop that fetches argv: the pages so far and whether it reached the
    null pointer *)
Definition fetch_body (p uargv : Z) : list Z -> P (list Z + list Z * bool) := fun argv =>
  let i := Z.of_nat (length argv) in
  if MAXARG <=? i then ret (inr (argv, false))
  else
    a <- fetchaddr p (u64 (uargv + 8 * i)) ;;
    match a with
    | None => ret (inr (argv, false))
    | Some uarg =>
        if uarg =? 0 then ret (inr (argv, true))
        else
          page <- memory_op kalloc ;;
          if page =? 0 then ret (inr (argv, false))
          else
            r <- fetch_page p uarg page ;;
            if r <? 0 then ret (inr (argv ++ [page], false)) else ret (inl (argv ++ [page]))
    end.

Definition sys_exec (p : Z) : P Z :=
  uargv <- argaddr p 1 ;;
  a <- argaddr p 0 ;;
  o <- fetch_local p a MAXPATH ;;
  match o with
  | None => ret (-1)
  | Some path =>
      r <- loop (Z.to_nat MAXARG + 1) (fetch_body p uargv) [] ;;
      if (snd r : bool) then
        m <- gets (fun s => mem (km s)) ;;
        v <- kexec trampoline p path (get_str (Z.to_nat PGSIZE) m <$> fst r) ;;
        free_args (fst r) ;;;
        ret v
      else free_args (fst r) ;;; ret (-1)
  end.
End sys_exec.

(** ** A run

    A process starts a program, which calls exec with its own arguments: the
    image is replaced, and the number of free pages is the same as before. *)
#[local] Instance forty_pages : KernelEnd.
Proof. refine {| kend := PHYSTOP - 40 * PGSIZE |}; vm_compute; congruence. Defined.

Definition pages38 : list Z := (fun i => PHYSTOP - Z.of_nat i * PGSIZE) <$> seq 1 38.
Definition kmem38 : kmem :=
  Kmem (foldr (fun '(p, nx) m => st64 m p nx) (fun _ => 0) (zip pages38 (tail pages38 ++ [0]))) (PHYSTOP - PGSIZE).
Definition tf38 : Z := PHYSTOP - 39 * PGSIZE.
Definition proc38 : proc := Proc RUNNING 0 0 0 3 0 0 0 (PHYSTOP - 40 * PGSIZE) tf38 0 0 (fun _ => 0) 0 [] 0 0.
Definition state38 : pstate ramfile := PSt (fun _ => proc38) 4 0 0 kmem38 (Ram elf_bytes 128).

(** a0 and a1 of the call: the first string and the array *)
Definition call_exec (s : pstate ramfile) : pstate ramfile :=
  let m := mem (km s) in
  let sp := ld64 m (tf38 + TF_A1) in
  match copyin (p_sz (procs s 3)) (p_pagetable (procs s 3)) (p_pagetable (procs s 3)) (fun _ => 0) 0 sp 8 (km s) with
  | Ret (b, _) k => set_km (set_mem (st64 (mem k) (tf38 + TF_A0) (ld64 b 0)) k) s
  | _ => s
  end.
Definition free_pages (s : pstate ramfile) : option Z := match count_free_ram 64 (km s) with Ret n _ => Some n | _ => None end.

Example sys_exec_run :
  match kexec 4096 3 [47; 99; 97; 116] cat_args state38 with
  | Ret r1 s1 =>
      match sys_exec 4096 3 (call_exec s1) with
      | Ret r2 s2 => (r1, r2, p_name (procs s2 3), bool_decide (free_pages s1 = free_pages s2)) = (2, 2, [99; 97; 116], true)
      | _ => False
      end
  | _ => False
  end.
Proof. vm_compute. reflexivity. Qed.
