(* ===== verification/Mkfs.v ===== *)
(** * mkfs/mkfs.c: building the first file system

    mkfs writes a disk image sector by sector, on the build machine: the super
    block, an inode per file, the root directory, the contents, and last the
    free map. The image is a map from sectors to their bytes with the length of
    the file that holds it (a read past the end fails, a write extends it); the
    host is little-endian, as the code that stores sb.magic without conversion
    requires. The results of read() on an input file are given as the list of
    its pieces, and a failed open() as [None]; die() and assert() stop the
    program. *)
From stdpp Require Import base list numbers strings.
From Stdlib Require Import ZArith Lia.
From S2P Require Import Ulib Prelude Memlayout BufCache Fs.

Definition NINODES : Z := 200.
Definition nbitmap : Z := FSSIZE / BPB + 1.
Definition ninodeblocks : Z := NINODES / IPB + 1.
Definition nlog : Z := LOGBLOCKS + 1.
Definition nmeta : Z := 2 + nlog + ninodeblocks + nbitmap.
Definition nblocks : Z := FSSIZE - nmeta.

Record mkst := Mk { img : Z -> bytes; nsect : Z; freeinode : Z; freeblock : Z }.
Definition set_img (b : Z -> bytes) (n : Z) (s : mkst) : mkst := Mk b n (freeinode s) (freeblock s).
Definition set_freeinode (i : Z) (s : mkst) : mkst := Mk (img s) (nsect s) i (freeblock s).
Definition set_freeblock (b : Z) (s : mkst) : mkst := Mk (img s) (nsect s) (freeinode s) b.
Abbreviation K := (M mkst).

(** y written byte by byte in RISC-V order, and read back as the host's short
    or int *)
Definition xshort (x : Z) : Z :=
  ld16 (fupd (fupd (fun _ => 0) 0 (u8 x)) 1 (u8 (Z.shiftr x 8))) 0.
Definition xint (x : Z) : Z :=
  ld32 (fupd (fupd (fupd (fupd (fun _ => 0) 0 (u8 x)) 1 (u8 (Z.shiftr x 8))) 2 (u8 (Z.shiftr x 16))) 3 (u8 (Z.shiftr x 24))) 0.

(** lseek to sec * BSIZE, which is an unsigned int *)
Definition sector (sec : Z) : Z := u32 (sec * BSIZE) / BSIZE.
Definition wsect (sec : Z) (buf : bytes) : K unit :=
  modify (fun s => set_img (fupd (img s) (sector sec) (blit (img s (sector sec)) 0 buf 0 BSIZE)) (Z.max (nsect s) (sector sec + 1)) s).
Definition rsect (sec : Z) : K bytes :=
  n <- gets nsect ;;
  if n <=? sector sec then panic "read" else gets (fun s => img s (sector sec)).

(** The super block that main fills in *)
Definition mk_sb : superblock :=
  Superblock FSMAGIC (xint FSSIZE) (xint nblocks) (xint NINODES) (xint nlog) (xint 2) (xint (2 + nlog)) (xint (2 + nlog + ninodeblocks)).
Definition sb_bytes (x : superblock) : bytes :=
  st32 (st32 (st32 (st32 (st32 (st32 (st32 (st32 (fun _ => 0) 0 (sb_magic x)) 4 (sb_size x)) 8 (sb_nblocks x)) 12 (sb_ninodes x))
    16 (sb_nlog x)) 20 (sb_logstart x)) 24 (sb_inodestart x)) 28 (sb_bmapstart x).

Definition winode (inum : Z) (ip : dinode) : K unit :=
  let bn := IBLOCK inum mk_sb in
  buf <- rsect bn ;;
  wsect bn (write_dinode ip (ino_off inum) buf).
Definition rinode (inum : Z) : K dinode :=
  buf <- rsect (IBLOCK inum mk_sb) ;;
  ret (read_dinode buf (ino_off inum)).

Definition ialloc (type : Z) : K Z :=
  inum <- gets freeinode ;;
  modify (set_freeinode (u32 (inum + 1))) ;;;
  winode inum (Dinode (i16 (xshort type)) 0 0 (i16 (xshort 1)) (xint 0) (fun _ => 0)) ;;;
  ret inum.

(** buf[i / 8] = buf[i / 8] | (0x1 << (i % 8)) for the first [n] blocks *)
Fixpoint mark_used (n : nat) (i : Z) (buf : bytes) : bytes :=
  match n with
  | O => buf
  | S n' => mark_used n' (i + 1) (fupd buf (i / 8) (u8 (Z.lor (buf (i / 8)) (Z.shiftl 1 (i mod 8)))))
  end.
Definition balloc (used : Z) : K unit :=
  assert_or (used <? BPB) "used < BPB" ;;;
  wsect (sb_bmapstart mk_sb) (mark_used (Z.to_nat used) 0 (fun _ => 0)).

(** freeblock++ *)
Definition next_block : K Z :=
  b <- gets freeblock ;;
  modify (set_freeblock (u32 (b + 1))) ;;;
  ret b.

Definition with_daddr (k v : Z) (d : dinode) : dinode :=
  Dinode (d_type d) (d_major d) (d_minor d) (d_nlink d) (d_size d) (fupd (d_addrs d) k v).
Definition with_dsize (z : Z) (d : dinode) : dinode :=
  Dinode (d_type d) (d_major d) (d_minor d) (d_nlink d) z (d_addrs d).

(** The sector x of block fbn of the file, allocated if it is new *)
Definition file_block (fbn : Z) (din : dinode) : K (Z * dinode) :=
  if fbn <? NDIRECT then
    din <- (if xint (d_addrs din fbn) =? 0 then b <- next_block ;; ret (with_daddr fbn (xint b) din) else ret din) ;;
    ret (xint (d_addrs din fbn), din)
  else
    din <- (if xint (d_addrs din NDIRECT) =? 0 then b <- next_block ;; ret (with_daddr NDIRECT (xint b) din) else ret din) ;;
    indirect <- rsect (xint (d_addrs din NDIRECT)) ;;
    let o := 4 * (fbn - NDIRECT) in
    if ld32 indirect o =? 0 then
      b <- next_block ;;
      let indirect := st32 indirect o (xint b) in
      wsect (xint (d_addrs din NDIRECT)) indirect ;;;
      ret (xint (ld32 indirect o), din)
    else ret (xint (ld32 indirect o), din).

(** The locals n, off, the index of p in the caller's buffer, and din *)
Definition iappend_body (xp : bytes) : Z * Z * Z * dinode -> K (Z * Z * Z * dinode + Z * dinode) := fun '(n, off, p, din) =>
  if 0 <? n then
    let fbn := off / BSIZE in
    assert_or (fbn <? MAXFILE) "fbn < MAXFILE" ;;;
    r <- file_block fbn din ;;
    let n1 := Z.min n ((fbn + 1) * BSIZE - off) in
    buf <- rsect (fst r) ;;
    wsect (fst r) (blit buf (off - fbn * BSIZE) xp p n1) ;;;
    ret (inl (n - n1, u32 (off + n1), p + n1, snd r))
  else ret (inr (off, din)).
Definition iappend (inum : Z) (xp : bytes) (n : Z) : K unit :=
  din <- rinode inum ;;
  r <- loop (Z.to_nat (n / BSIZE + 3)) (iappend_body xp) (n, xint (d_size din), 0, din) ;;
  winode inum (with_dsize (xint (fst r)) (snd r)).

(** A struct dirent: bzero, de.inum and the name *)
Definition dirent (inum : Z) (name : chars) : bytes := store_list (st16 (fun _ => 0) 0 (xshort inum)) 2 name.

(** The name in the file system: without user/ and a leading underscore *)
Definition user_prefix : chars := [117; 115; 101; 114; 47].
Definition drop_user (arg : chars) : chars := if bool_decide (take 5 arg = user_prefix) then drop 5 arg else arg.
Definition drop_underscore (name : chars) : chars := match name with c :: name' => if c =? 95 then name' else name | [] => name end.

(** while ((cc = read(fd, buf, sizeof(buf))) > 0) iappend(inum, buf, cc); *)
Fixpoint copy_file (inum : Z) (pieces : list (list Z)) : K unit :=
  match pieces with
  | [] => ret tt
  | c :: pieces' => iappend inum (store_list (fun _ => 0) 0 c) (Z.of_nat (length c)) ;;; copy_file inum pieces'
  end.

Abbreviation input := (chars * option (list (list Z)))%type.
Definition add_file (rootino : Z) (f : input) : K unit :=
  let shortname := drop_user (fst f) in
  assert_or (bool_decide (47 ∉ shortname)) "index(shortname, '/') == 0" ;;;
  match snd f with
  | None => panic "open"
  | Some pieces =>
      let shortname := drop_underscore shortname in
      assert_or (Z.of_nat (length shortname) <=? DIRSIZ) "strlen(shortname) <= DIRSIZ" ;;;
      inum <- ialloc T_FILE ;;
      iappend rootino (dirent inum shortname) DIRENT_SIZE ;;;
      copy_file inum pieces
  end.
Fixpoint add_files (rootino : Z) (files : list input) : K unit :=
  match files with [] => ret tt | f :: files' => add_file rootino f ;;; add_files rootino files' end.

(** fix size of root inode dir *)
Definition fix_root (rootino : Z) : K unit :=
  din <- rinode rootino ;;
  let off := xint (d_size din) in
  let off := u32 ((off / BSIZE + 1) * BSIZE) in
  winode rootino (with_dsize (xint off) din).

(** main, from the opened image on *)
Definition main (files : list input) : K unit :=
  modify (set_freeblock nmeta) ;;;
  for_loop (Z.to_nat FSSIZE) 0 (fun i => wsect i (fun _ => 0)) ;;;
  wsect 1 (sb_bytes mk_sb) ;;;
  rootino <- ialloc T_DIR ;;
  assert_or (rootino =? ROOTINO) "rootino == ROOTINO" ;;;
  iappend rootino (dirent rootino [46]) DIRENT_SIZE ;;;
  iappend rootino (dirent rootino [46; 46]) DIRENT_SIZE ;;;
  add_files rootino files ;;;
  fix_root rootino ;;;
  used <- gets freeblock ;;
  balloc used.

(** The new image: an empty file, freeinode = 1 *)
Definition mkfs_init : mkst := Mk (fun _ _ => 0) 0 1 0.
Definition mkfs (files : list input) : outcome mkst unit := main files mkfs_init.

Example mkfs_run :
  match mkfs [([117; 115; 101; 114; 47; 95; 97], Some [[1; 2; 3]; [4; 5]]); ([98], Some [])] with
  | Ret _ s => (freeinode s, freeblock s, (fun o => img s 48 o) <$> seqZ 0 6,
                let d := read_dinode (img s (IBLOCK 2 mk_sb)) (ino_off 2) in (d_type d, d_size d, d_addrs d 0, d_addrs d 1),
                d_size (read_dinode (img s (IBLOCK 1 mk_sb)) (ino_off 1)))
               = (4, 49, [1; 2; 3; 4; 5; 0], (2, 5, 48, 0), 1024)
  | _ => False
  end.
Proof. vm_compute. reflexivity. Qed.
