(* ===== verification/MkfsProps.v ===== *)
(** * The image that mkfs builds

    [core] is the invariant of the data blocks while files are appended to: the
    blocks of the files are disjoint and hold their contents, and the blocks not
    handed out yet are zero. [own] records for every block handed out the inode
    and the place in the file it serves. *)
From stdpp Require Import base list numbers strings.
From Stdlib Require Import ZArith Lia FunctionalExtensionality.
From S2P Require Import Ulib Prelude Memlayout CString BufCache UserMem Fs FsBlocks FsFiles FsDirs Mkfs.

Definition ino (i : Z) : Prop := 0 <= i < NINODES.

(** The sector of block [bn] of inode [i], whose block numbers are [A i] *)
Definition blk (b : Z -> bytes) (A : Z -> Z -> Z) (i bn : Z) : Z :=
  if bn <? NDIRECT then A i bn else if A i NDIRECT =? 0 then 0 else ld32 (b (A i NDIRECT)) (4 * (bn - NDIRECT)).

Definition len (l : list Z) : Z := Z.of_nat (length l).

Record core (b : Z -> bytes) (A : Z -> Z -> Z) (fb : Z) (fc : Z -> list Z) (own : Z -> Z * Z) : Prop := Core {
  c_fb : nmeta <= fb <= FSSIZE;
  c_len i : ino i -> len (fc i) <= MAXFILE * BSIZE;
  c_blk i bn : ino i -> 0 <= bn < MAXFILE -> blk b A i bn <> 0 -> nmeta <= blk b A i bn < fb /\ own (blk b A i bn) = (i, bn);
  c_ind i : ino i -> A i NDIRECT <> 0 -> nmeta <= A i NDIRECT < fb /\ own (A i NDIRECT) = (i, -1);
  c_has i bn : ino i -> 0 <= bn -> bn * BSIZE < len (fc i) -> blk b A i bn <> 0;
  c_not i bn : ino i -> bn < MAXFILE -> 0 <= bn -> len (fc i) <= bn * BSIZE -> blk b A i bn = 0;
  c_noind i : ino i -> len (fc i) <= NDIRECT * BSIZE -> A i NDIRECT = 0;
  c_fresh x o : fb <= x < FSSIZE -> 0 <= o < BSIZE -> b x o = 0;
  c_byte i o : ino i -> 0 <= o < len (fc i) -> Some (b (blk b A i (o / BSIZE)) (o mod BSIZE)) = fc i !! Z.to_nat o;
  c_tail i o : ino i -> len (fc i) <= o < MAXFILE * BSIZE -> blk b A i (o / BSIZE) <> 0 -> b (blk b A i (o / BSIZE)) (o mod BSIZE) = 0;
  c_all x : nmeta <= x < fb -> ino (fst (own x)) /\
    ((snd (own x) = -1 /\ A (fst (own x)) NDIRECT = x) \/ (0 <= snd (own x) < MAXFILE /\ blk b A (fst (own x)) (snd (own x)) = x));
}.

Lemma mk_numbers : nmeta = 47 /\ FSSIZE = 2000 /\ MAXFILE * BSIZE = 274432 /\ MAXFILE = 268 /\ NDIRECT = 12 /\ BSIZE = 1024 /\ NINODES = 200.
Proof. repeat split. Qed.
Ltac mknum := destruct mk_numbers as (En1 & En2 & En3 & En4 & En5 & En6 & En7); rewrite ?En1, ?En2, ?En3, ?En4, ?En5, ?En6, ?En7 in *; clear En1 En2 En3 En4 En5 En6 En7.

Lemma len_app l l' : len (l ++ l') = len l + len l'.
Proof. unfold len. rewrite length_app. lia. Qed.

(** The inodes and the blocks outside the data do not matter. *)
Lemma core_ext b b' A A' fb fc own : core b A fb fc own -> (forall x, nmeta <= x < FSSIZE -> b' x = b x) ->
  (forall i k, ino i -> 0 <= k <= NDIRECT -> A' i k = A i k) -> core b' A' fb fc own.
Proof.
  intros Hc Hb HA. pose proof (c_fb _ _ _ _ _ Hc) as Hfb. assert (forall i bn, ino i -> 0 <= bn -> blk b' A' i bn = blk b A i bn) as Hblk.
  { intros i bn Hi Hbn. unfold blk. rewrite (HA i NDIRECT) by (done || mknum; lia). destruct (Z.ltb_spec bn NDIRECT); [apply HA; [done|lia]|].
    destruct (Z.eqb_spec (A i NDIRECT) 0) as [|Hne]; [done|]. destruct (c_ind _ _ _ _ _ Hc i Hi Hne) as [Hr _]. by rewrite Hb by lia. }
  assert (forall i, ino i -> A' i NDIRECT = A i NDIRECT) as HI by (intros i Hi; apply HA; [done|mknum; lia]).
  split.
  - done.
  - apply Hc.
  - intros i bn Hi Hbn. rewrite Hblk by (done || lia). by apply Hc.
  - intros i Hi. rewrite HI by done. by apply Hc.
  - intros i bn Hi Hbn. rewrite Hblk by done. by apply Hc.
  - intros i bn Hi Hbn H0. rewrite Hblk by done. by apply Hc.
  - intros i Hi. rewrite HI by done. by apply Hc.
  - intros x o Hx. rewrite Hb by lia. by apply Hc.
  - intros i o Hi Ho. assert (0 <= o / BSIZE) by (apply Z.div_pos; mknum; lia). rewrite Hblk by done.
    rewrite <- (c_byte _ _ _ _ _ Hc i o Hi Ho). destruct (c_blk _ _ _ _ _ Hc i (o / BSIZE) Hi) as [Hr _]; [|apply (c_has _ _ _ _ _ Hc); [done|done|]|by rewrite Hb by lia].
    + pose proof (c_len _ _ _ _ _ Hc i Hi). mknum. dlia.
    + mknum. dlia.
  - intros i o Hi Ho. assert (0 <= o / BSIZE < MAXFILE) as Hr by (unfold len in Ho; mknum; dlia). rewrite Hblk by (done || lia). intros Hne.
    destruct (c_blk _ _ _ _ _ Hc i (o / BSIZE) Hi Hr Hne) as [Hx _]. rewrite Hb by lia. by apply (c_tail _ _ _ _ _ Hc).
  - intros x Hx. destruct (c_all _ _ _ _ _ Hc x Hx) as [Hi [[E1 E2]|[E1 E2]]]; (split; [done|]); [left; by rewrite HI|right; split; [done|]; by rewrite Hblk by (done || lia)].
Qed.

(** ** One step of an append: [n1] bytes of [p] go into block [bn] of inode [i] *)
Section step.
Context (b : Z -> bytes) (A : Z -> Z -> Z) (fb : Z) (fc : Z -> list Z) (own : Z -> Z * Z).
Hypothesis Hc : core b A fb fc own.
Context (i : Z) (c : list Z).
Hypothesis Hi : ino i.
Let off := len (fc i).
Let bn := off / BSIZE.
Hypothesis Hc0 : 0 < len c.
Hypothesis Hfit : off mod BSIZE + len c <= BSIZE.
Hypothesis Hmax : off + len c <= MAXFILE * BSIZE.

(** What the four ways to get the block have in common *)
Lemma core_step b' A' fb' own' x :
  nmeta <= fb' <= FSSIZE -> fb <= fb' -> (forall y, y < fb -> own' y = own y) ->
  (forall j k, ino j -> j <> i -> A' j k = A j k) ->
  (forall j bn', ino j -> 0 <= bn' < MAXFILE -> (j, bn') <> (i, bn) -> blk b' A' j bn' = blk b A j bn') ->
  blk b' A' i bn = x -> nmeta <= x < fb' -> own' x = (i, bn) ->
  (A' i NDIRECT <> 0 -> nmeta <= A' i NDIRECT < fb' /\ own' (A' i NDIRECT) = (i, -1)) -> (off + len c <= NDIRECT * BSIZE -> A' i NDIRECT = 0) ->
  (forall y, nmeta <= y < fb -> y <> x -> 0 <= snd (own y) -> b' y = b y) ->
  (forall y o, fb' <= y < FSSIZE -> 0 <= o < BSIZE -> b' y o = 0) ->
  (forall o, 0 <= o < BSIZE -> b' x o = match c !! Z.to_nat (o - off mod BSIZE) with Some v => if off mod BSIZE <=? o then v else b x o | None => b x o end) ->
  (off mod BSIZE = 0 -> forall o, 0 <= o < BSIZE -> b x o = 0) -> (off mod BSIZE <> 0 -> x = blk b A i bn) ->
  (A i NDIRECT <> 0 -> A' i NDIRECT = A i NDIRECT) -> (forall y, fb <= y < fb' -> y = x \/ (A' i NDIRECT <> 0 /\ y = A' i NDIRECT)) ->
  core b' A' fb' (fupd fc i (fc i ++ c)) own'.
Proof.
  intros Hfb' Hle Hown HA Hblk Hx Hxr Hox Hind Hnoind Hb Hz Hbx Hnew Hold Hkeep Hall. pose proof (c_fb _ _ _ _ _ Hc) as Hfb.
  assert (0 <= off) as Hoff by (unfold off, len; lia). assert (0 <= bn < MAXFILE) as Hbn by (unfold bn; mknum; dlia).
  assert (x <> 0) as Hx0 by (mknum; lia).
  assert (forall j bn', ino j -> 0 <= bn' < MAXFILE -> blk b A j bn' <> 0 -> (j, bn') <> (i, bn) -> b' (blk b A j bn') = b (blk b A j bn')) as Hdata.
  { intros j bn' Hj Hbn' Hne Hp. destruct (c_blk _ _ _ _ _ Hc j bn' Hj Hbn' Hne) as [Hr Ho]. apply Hb; [done| |rewrite Ho; cbn; lia].
    intros E. rewrite <- E in Hox. rewrite Hown in Hox by lia. congruence. }
  assert (forall j, j <> i -> fupd fc i (fc i ++ c) j = fc j) as Hfc by (intros; by apply fupd_ne).
  assert (fupd fc i (fc i ++ c) i = fc i ++ c) as Hfi by apply fupd_eq.
  split.
  - done.
  - intros j Hj. destruct (Z.eq_dec j i) as [-> |Hne]; [rewrite Hfi, len_app; fold off; lia|]. rewrite Hfc by done. by apply Hc.
  - intros j bn' Hj Hb'. destruct (decide ((j, bn') = (i, bn))) as [[= -> ->]|Hp]; [by rewrite Hx|]. rewrite Hblk by done.
    intros Hne. destruct (c_blk _ _ _ _ _ Hc j bn' Hj Hb' Hne) as [Hr Ho]. rewrite Hown by lia. split; [lia|done].
  - intros j Hj. destruct (Z.eq_dec j i) as [-> |Hne]; [done|]. rewrite HA by done. intros Hn. destruct (c_ind _ _ _ _ _ Hc j Hj Hn) as [Hr Ho].
    rewrite Hown by lia. split; [lia|done].
  - intros j bn' Hj H0 Hl. destruct (decide ((j, bn') = (i, bn))) as [[= -> ->]|Hp]; [by rewrite Hx|].
    destruct (Z.eq_dec j i) as [-> |Hne].
    + rewrite Hfi, len_app in Hl. fold off in Hl. assert (bn' <> bn) as Hnb by congruence. assert (bn' < bn) as Hlt by (unfold bn in *; mknum; dlia).
      rewrite Hblk by (done || lia). apply Hc; [done|done|]. fold off. unfold bn in Hlt. mknum. dlia.
    + rewrite Hfc in Hl by done. pose proof (c_len _ _ _ _ _ Hc j Hj). rewrite Hblk by (done || mknum; lia). by apply Hc.
  - intros j bn' Hj H1 H0 Hl. destruct (Z.eq_dec j i) as [-> |Hne].
    + rewrite Hfi, len_app in Hl. fold off in Hl. assert (bn' <> bn) as Hnb by (unfold bn; mknum; dlia). rewrite Hblk by (congruence || lia || done).
      apply Hc; [done|done|done|fold off; lia].
    + rewrite Hfc in Hl by done. rewrite Hblk by (done || lia || congruence). by apply Hc.
  - intros j Hj Hl. destruct (Z.eq_dec j i) as [-> |Hne]; [rewrite Hfi, len_app in Hl; by apply Hnoind|]. rewrite Hfc in Hl by done. rewrite HA by done. by apply Hc.
  - done.
  - intros j o Hj Ho. destruct (Z.eq_dec j i) as [-> |Hne].
    + rewrite Hfi in Ho |- *. rewrite len_app in Ho. fold off in Ho. destruct (Z.lt_ge_cases o off) as [Hlt|Hge].
      * rewrite lookup_app_l by (unfold off, len in Hlt; lia). rewrite <- (c_byte _ _ _ _ _ Hc i o Hj ltac:(fold off; lia)).
        assert (blk b A i (o / BSIZE) <> 0) as Hn by (apply Hc; [done|mknum; dlia|fold off; mknum; dlia]).
        destruct (Z.eq_dec (o / BSIZE) bn) as [Eb|Nb].
        -- assert (off mod BSIZE <> 0) as Hm by (unfold bn in *; mknum; dlia). rewrite Eb, Hx, Hbx by (mknum; dlia). rewrite (Hold Hm).
           destruct (c !! _); [|done]. rewrite (proj2 (Z.leb_gt _ _)) by (unfold bn in *; mknum; dlia). done.
        -- rewrite Hblk by (congruence || done || mknum; dlia). rewrite Hdata; [done|done|mknum; dlia|done|congruence].
      * assert (o / BSIZE = bn) as Eb by (unfold bn; mknum; dlia). rewrite Eb, Hx, Hbx by (mknum; dlia).
        rewrite lookup_app_r by (unfold off, len in Hge; lia).
        replace (Z.to_nat (o mod BSIZE - off mod BSIZE)) with (Z.to_nat o - length (fc i))%nat by (unfold off, len, bn in *; mknum; dlia).
        destruct (lookup_lt_is_Some_2 c (Z.to_nat o - length (fc i))) as [v Ev]; [unfold off, len in *; lia|].
        rewrite Ev, (proj2 (Z.leb_le _ _)) by (unfold bn in *; mknum; dlia). done.
    + rewrite Hfc in Ho |- * by done. pose proof (c_len _ _ _ _ _ Hc j Hj). assert (0 <= o / BSIZE < MAXFILE) as Hr by (mknum; dlia).
      rewrite Hblk by (done || congruence). rewrite Hdata; [by apply Hc|done|done|apply Hc; [done|lia|mknum; dlia]|congruence].
  - intros j o Hj Ho. assert (0 <= o / BSIZE < MAXFILE) as Hr by (unfold len in Ho; mknum; dlia). destruct (decide ((j, o / BSIZE) = (i, bn))) as [[= -> Eb]|Hp].
    + rewrite Hfi, len_app in Ho. fold off in Ho. rewrite Eb, Hx. intros _. rewrite Hbx by (mknum; dlia). rewrite lookup_ge_None_2 by (unfold bn, len in *; mknum; dlia).
      destruct (Z.eq_dec (off mod BSIZE) 0) as [Hm|Hm]; [apply Hnew; [done|mknum; dlia]|]. rewrite (Hold Hm), <- Eb. apply (c_tail _ _ _ _ _ Hc); [done|fold off; lia|].
      rewrite Eb, <- (Hold Hm). done.
    + rewrite Hblk by done. intros Hne. rewrite Hdata by done. apply (c_tail _ _ _ _ _ Hc); [done| |done].
      destruct (Z.eq_dec j i) as [-> |Hji]; [rewrite Hfi, len_app in Ho; fold off in Ho |- *; lia|by rewrite Hfc in Ho].
  - intros y Hy. destruct (Z.lt_ge_cases y fb) as [Hlt|Hge].
    + rewrite Hown by done. destruct (c_all _ _ _ _ _ Hc y ltac:(lia)) as [Hj H]. split; [done|]. set (j := fst (own y)) in *. destruct H as [[E1 E2]|[E1 E2]].
      * left. split; [done|]. destruct (Z.eq_dec j i) as [Eji|Hne]; [|by rewrite HA]. rewrite Eji in *. rewrite Hkeep; [done|]. rewrite E2. mknum. lia.
      * right. split; [done|]. destruct (decide ((j, snd (own y)) = (i, bn))) as [[= Ej Eb]|Hp]; [|by rewrite Hblk]. rewrite Ej, Eb in *. rewrite Hx.
        destruct (Z.eq_dec (off mod BSIZE) 0) as [Hm|Hm]; [|by rewrite (Hold Hm)]. exfalso.
        rewrite (c_not _ _ _ _ _ Hc i bn Hi) in E2; [mknum; lia|lia|lia|]. fold off. unfold bn. mknum. dlia.
    + destruct (Hall y ltac:(lia)) as [-> |[Hn ->]]; [rewrite Hox; split; [done|]; right; by split|]. destruct (Hind Hn) as [_ ->]. split; [done|]. by left.
Qed.

(** The block has been found or made: [x] in the new [b1], [A1] and [fb1] *)
Record got (b1 : Z -> bytes) (A1 : Z -> Z -> Z) (fb1 : Z) (own1 : Z -> Z * Z) (x : Z) : Prop := Got {
  g_fb : nmeta <= fb1 <= FSSIZE;
  g_le : fb <= fb1;
  g_own y : y < fb -> own1 y = own y;
  g_A j k : ino j -> j <> i -> A1 j k = A j k;
  g_blk j k : ino j -> 0 <= k < MAXFILE -> (j, k) <> (i, bn) -> blk b1 A1 j k = blk b A j k;
  g_x : blk b1 A1 i bn = x /\ nmeta <= x < fb1 /\ own1 x = (i, bn);
  g_ind : A1 i NDIRECT <> 0 -> nmeta <= A1 i NDIRECT < fb1 /\ own1 (A1 i NDIRECT) = (i, -1);
  g_noind : bn < NDIRECT -> A1 i NDIRECT = A i NDIRECT;
  g_data y : nmeta <= y < fb -> 0 <= snd (own y) -> b1 y = b y;
  g_zero y o : fb1 <= y < FSSIZE -> 0 <= o < BSIZE -> b1 y o = 0;
  g_same : b1 x = b x;
  g_new : off mod BSIZE = 0 -> forall o, 0 <= o < BSIZE -> b x o = 0;
  g_old : off mod BSIZE <> 0 -> x = blk b A i bn;
  g_keep : A i NDIRECT <> 0 -> A1 i NDIRECT = A i NDIRECT;
  g_all y : fb <= y < fb1 -> y = x \/ (A1 i NDIRECT <> 0 /\ y = A1 i NDIRECT);
}.

(** Writing the bytes to the block completes the step. *)
Lemma got_core b1 A1 fb1 own1 x d : got b1 A1 fb1 own1 x ->
  (forall o, 0 <= o < BSIZE -> d o = match c !! Z.to_nat (o - off mod BSIZE) with Some v => if off mod BSIZE <=? o then v else b1 x o | None => b1 x o end) ->
  core (fupd b1 x d) A1 fb1 (fupd fc i (fc i ++ c)) own1.
Proof.
  intros [Hfb Hle Hown HA Hblk (Hx & Hxr & Hox) Hind Hnoind Hdata Hz Hsame Hnew Hold Hkeep Hall] Hd.
  assert (0 <= bn) as Hbn by (unfold bn, off, len; mknum; dlia).
  assert (forall j k, ino j -> blk (fupd b1 x d) A1 j k = blk b1 A1 j k) as Hw.
  { intros j k Hj. unfold blk. destruct (k <? NDIRECT); [done|]. destruct (Z.eqb_spec (A1 j NDIRECT) 0) as [|Hne]; [done|].
    rewrite fupd_ne; [done|]. intros E. assert (own1 (A1 j NDIRECT) = (j, -1)) as Ho; [|rewrite E, Hox in Ho; injection Ho as ? ?; lia].
    destruct (Z.eq_dec j i) as [-> |Hji]; [by apply Hind|]. rewrite HA in Hne |- * by done. destruct (c_ind _ _ _ _ _ Hc j Hj Hne). by rewrite Hown by lia. }
  eapply (core_step _ A1 fb1 own1 x); try done.
  - intros j k Hj Hk Hp. rewrite Hw by done. by apply Hblk.
  - by rewrite Hw.
  - intros Hs. assert (bn < NDIRECT) as Hb by (unfold bn; mknum; dlia). rewrite Hnoind by done. apply (c_noind _ _ _ _ _ Hc); [done|]. fold off. lia.
  - intros y Hy Hne Ho. rewrite fupd_ne by done. by apply Hdata.
  - intros y o Hy Ho. rewrite fupd_ne by lia. by apply Hz.
  - intros o Ho. rewrite fupd_eq, Hd, Hsame by done. done.
Qed.

Lemma bn_range : 0 <= off /\ 0 <= bn < MAXFILE.
Proof. unfold bn. assert (0 <= off) by (unfold off, len; lia). mknum. dlia. Qed.

(** The block exists. *)
Lemma got_old : off mod BSIZE <> 0 -> got b A fb own (blk b A i bn).
Proof.
  intros Hm. pose proof bn_range as [H0 Hr]. assert (blk b A i bn <> 0) as Hne by (apply (c_has _ _ _ _ _ Hc); [done|lia|unfold bn; fold off; mknum; dlia]).
  destruct (c_blk _ _ _ _ _ Hc i bn Hi Hr Hne) as [Hx Ho]. split; try done; [apply Hc|by apply (c_ind _ _ _ _ _ Hc)|intros y o Hy Ho'; by apply (c_fresh _ _ _ _ _ Hc)|intros y Hy; lia].
Qed.

Lemma block_aligned : off mod BSIZE = 0 -> blk b A i bn = 0.
Proof. intros Hm. pose proof bn_range as [H0 Hr]. apply (c_not _ _ _ _ _ Hc); [done|lia|lia|]. fold off. unfold bn. mknum. dlia. Qed.

(** Only inode [i] has changed its numbers, and only number [k] of it. *)
Definition set_addr (k v : Z) : Z -> Z -> Z := fun j => if j =? i then fupd (A i) k v else A j.
Lemma set_addr_i k v : set_addr k v i = fupd (A i) k v.
Proof. unfold set_addr. by rewrite Z.eqb_refl. Qed.
Lemma set_addr_ne k v j : j <> i -> set_addr k v j = A j.
Proof. intros Hj. unfold set_addr. by rewrite (proj2 (Z.eqb_neq j i)). Qed.

(** A new direct block *)
Lemma got_direct : off mod BSIZE = 0 -> bn < NDIRECT -> fb < FSSIZE -> got b (set_addr bn fb) (fb + 1) (fupd own fb (i, bn)) fb.
Proof.
  intros Hm Hd Hlt. pose proof bn_range as [H0 Hr]. pose proof (c_fb _ _ _ _ _ Hc) as Hfb. split.
  - lia.
  - lia.
  - intros y Hy. apply fupd_ne. lia.
  - intros j k Hj Hne. by rewrite set_addr_ne.
  - intros j k Hj Hk Hp. unfold blk. destruct (Z.eq_dec j i) as [-> |Hne]; [|by rewrite set_addr_ne]. rewrite set_addr_i.
    destruct (Z.ltb_spec k NDIRECT); [apply fupd_ne; congruence|]. by rewrite fupd_ne by lia.
  - split; [|split; [lia|apply fupd_eq]]. unfold blk. rewrite (proj2 (Z.ltb_lt bn NDIRECT)) by done. rewrite set_addr_i. apply fupd_eq.
  - rewrite set_addr_i. rewrite fupd_ne by lia. intros Hne. destruct (c_ind _ _ _ _ _ Hc i Hi Hne). rewrite fupd_ne by lia. split; [lia|done].
  - intros _. rewrite set_addr_i. apply fupd_ne. lia.
  - done.
  - intros y o Hy Ho. apply (c_fresh _ _ _ _ _ Hc); lia.
  - done.
  - intros _ o Ho. apply (c_fresh _ _ _ _ _ Hc); lia.
  - done.
  - intros _. rewrite set_addr_i. apply fupd_ne. lia.
  - intros y Hy. left. lia.
Qed.

(** A new entry of the indirect block *)
Lemma got_entry y : off mod BSIZE = 0 -> NDIRECT <= bn -> fb < FSSIZE -> A i NDIRECT = y -> y <> 0 ->
  got (fupd b y (st32 (b y) (4 * (bn - NDIRECT)) fb)) A (fb + 1) (fupd own fb (i, bn)) fb.
Proof.
  intros Hm Hd Hlt Hy Hy0. pose proof bn_range as [H0 Hr]. pose proof (c_fb _ _ _ _ _ Hc) as Hfb. destruct (c_ind _ _ _ _ _ Hc i Hi) as [Hyr Hyo]; [by rewrite Hy|].
  rewrite Hy in Hyr, Hyo. split.
  - lia.
  - lia.
  - intros z Hz. apply fupd_ne. lia.
  - done.
  - intros j k Hj Hk Hp. unfold blk. destruct (Z.ltb_spec k NDIRECT); [done|]. destruct (Z.eqb_spec (A j NDIRECT) 0) as [|Hne]; [done|].
    destruct (Z.eq_dec j i) as [-> |Hji].
    + rewrite Hy, fupd_eq. apply ld_st_other. assert (k <> bn) by congruence. lia.
    + rewrite fupd_ne; [done|]. intros E. destruct (c_ind _ _ _ _ _ Hc j Hj Hne) as [_ Ho]. rewrite E, Hyo in Ho. congruence.
  - split; [|split; [lia|apply fupd_eq]]. unfold blk. rewrite (proj2 (Z.ltb_ge bn NDIRECT)) by done. rewrite Hy, (proj2 (Z.eqb_neq y 0)) by done.
    rewrite fupd_eq, ld_st_same. apply Z.mod_small. mknum. lia.
  - rewrite Hy. intros _. rewrite fupd_ne by lia. split; [lia|done].
  - done.
  - intros z Hz Ho. apply fupd_ne. intros ->. rewrite Hyo in Ho. cbn in Ho. lia.
  - intros z o Hz Ho. rewrite fupd_ne by lia. apply (c_fresh _ _ _ _ _ Hc); lia.
  - apply fupd_ne. lia.
  - intros _ o Ho. apply (c_fresh _ _ _ _ _ Hc); lia.
  - done.
  - done.
  - intros z Hz. left. lia.
Qed.

(** The indirect block itself is new, and so is its first entry. *)
Lemma got_indirect : off mod BSIZE = 0 -> NDIRECT <= bn -> fb + 1 < FSSIZE -> A i NDIRECT = 0 ->
  got (fupd b fb (st32 (b fb) (4 * (bn - NDIRECT)) (fb + 1))) (set_addr NDIRECT fb) (fb + 2) (fupd (fupd own fb (i, -1)) (fb + 1) (i, bn)) (fb + 1).
Proof.
  intros Hm Hd Hlt Hz. pose proof bn_range as [H0 Hr]. pose proof (c_fb _ _ _ _ _ Hc) as Hfb.
  assert (bn = NDIRECT) as Hbn.
  { destruct (Z.eq_dec bn NDIRECT) as [|Hne]; [done|exfalso]. apply (c_has _ _ _ _ _ Hc i NDIRECT Hi); [mknum; lia|fold off; unfold bn in *; mknum; dlia|].
    unfold blk. by rewrite Z.ltb_irrefl, Hz. }
  assert (set_addr NDIRECT fb i NDIRECT = fb) as Ei by (rewrite set_addr_i; apply fupd_eq). assert (fb <> 0) as Hf0 by (mknum; lia). split.
  - lia.
  - lia.
  - intros y Hy. by rewrite !fupd_ne by lia.
  - intros j k Hj Hne. by rewrite set_addr_ne.
  - intros j k Hj Hk Hp. unfold blk. destruct (Z.eq_dec j i) as [-> |Hne].
    + destruct (Z.ltb_spec k NDIRECT); [rewrite set_addr_i; apply fupd_ne; lia|]. rewrite Ei, Hz, Z.eqb_refl, (proj2 (Z.eqb_neq fb 0)) by done.
      assert (k <> bn) by congruence. rewrite fupd_eq, ld_st_other by lia. rewrite (ld_ext 4 _ (fun _ => 0)) by (intros o Ho; apply (c_fresh _ _ _ _ _ Hc); mknum; lia). done.
    + rewrite set_addr_ne by done. destruct (k <? NDIRECT); [done|]. destruct (Z.eqb_spec (A j NDIRECT) 0) as [|Hn]; [done|].
      destruct (c_ind _ _ _ _ _ Hc j Hj Hn). by rewrite fupd_ne by lia.
  - split; [|split; [lia|apply fupd_eq]]. unfold blk. rewrite (proj2 (Z.ltb_ge bn NDIRECT)) by done. rewrite Ei, (proj2 (Z.eqb_neq fb 0)) by done.
    rewrite fupd_eq, ld_st_same. apply Z.mod_small. mknum. lia.
  - rewrite Ei. intros _. rewrite fupd_ne, fupd_eq by lia. split; [lia|done].
  - lia.
  - intros y Hy Ho. apply fupd_ne. lia.
  - intros y o Hy Ho. rewrite fupd_ne by lia. apply (c_fresh _ _ _ _ _ Hc); lia.
  - apply fupd_ne. lia.
  - intros _ o Ho. apply (c_fresh _ _ _ _ _ Hc); lia.
  - done.
  - done.
  - intros y Hy. rewrite Ei. destruct (Z.eq_dec y fb) as [-> |Hne]; [right; split; [lia|done]|left; lia].
Qed.
End step.

(** ** The operations on sectors *)

Lemma xint_id x : 0 <= x < 2 ^ 32 -> xint x = x.
Proof.
  intros Hx. unfold xint, fupd. cbv beta iota delta [ld]. change (0 + 1) with 1. change (1 + 1) with 2. change (2 + 1) with 3. cbn [Z.eqb Pos.eqb]. rewrite !Z.shiftr_div_pow2 by lia.
  change (2 ^ 8) with 256. change (2 ^ 16) with 65536. change (2 ^ 24) with 16777216. dlia.
Qed.
Lemma xshort_id x : 0 <= x < 2 ^ 16 -> xshort x = x.
Proof.
  intros Hx. unfold xshort, fupd. cbv beta iota delta [ld]. change (0 + 1) with 1. change (1 + 1) with 2. change (2 + 1) with 3. cbn [Z.eqb Pos.eqb]. rewrite !Z.shiftr_div_pow2 by lia.
  change (2 ^ 8) with 256. dlia.
Qed.
Lemma sector_id x : 0 <= x < FSSIZE -> sector x = x.
Proof. intros Hx. unfold sector. rewrite wrap_small by (mknum; lia). apply Z.div_mul. mknum. lia. Qed.

Lemma blit_same m d : (forall x, x < 0 \/ BSIZE <= x -> d x = m x) -> blit m 0 d 0 BSIZE = d.
Proof.
  intros Hd. extensionality x. destruct (decide (0 <= x < BSIZE)) as [Hx|Hx]; [rewrite blit_in by lia; f_equal; lia|].
  rewrite blit_out by lia. symmetry. apply Hd. lia.
Qed.

(** All sectors of the image are there. *)
Record whole (st : mkst) : Prop := Whole { w_nsect : nsect st = FSSIZE; w_bytes : forall x, bytes_ok (img st x) }.

Lemma rsect_run st x : whole st -> 0 <= x < FSSIZE -> rsect x st = Ret (img st x) st.
Proof.
  intros [Hn _] Hx. unfold rsect. rewrite (bind_step (gets _) _ st (nsect st) st) by done. rewrite sector_id by done.
  by rewrite Hn, (proj2 (Z.leb_gt FSSIZE x)) by lia.
Qed.

Lemma wsect_run st x d : whole st -> 0 <= x < FSSIZE -> (forall y, y < 0 \/ BSIZE <= y -> d y = img st x y) ->
  wsect x d st = Ret tt (set_img (fupd (img st) x d) FSSIZE st).
Proof.
  intros [Hn _] Hx Hd. unfold wsect, modify. rewrite sector_id by done. rewrite blit_same by done. rewrite Hn, Z.max_l by lia. done.
Qed.

Lemma whole_img st x d : whole st -> bytes_ok d -> whole (set_img (fupd (img st) x d) FSSIZE st).
Proof.
  intros [Hn Hb] Hd. split; [done|]. intros y. cbn. destruct (Z.eq_dec y x) as [-> |Hne]; [by rewrite fupd_eq|by rewrite fupd_ne].
Qed.
Lemma whole_freeblock st v : whole st -> whole (set_freeblock v st).
Proof. by intros [Hn Hb]; split. Qed.
Lemma whole_freeinode st v : whole st -> whole (set_freeinode v st).
Proof. by intros [Hn Hb]; split. Qed.

(** What appending leaves alone *)
Record kept (st st' : mkst) : Prop := Kept {
  k_whole : whole st';
  k_inode : freeinode st' = freeinode st;
  k_meta x : x < nmeta -> img st' x = img st x;
}.
Lemma kept_trans st1 st2 st3 : kept st1 st2 -> kept st2 st3 -> kept st1 st3.
Proof. intros [H1 H2 H3] [H4 H5 H6]. split; [done|congruence|]. intros x Hx. by rewrite H6, H3. Qed.

(** Sectors that [l] bytes take, and the indirect block *)
Definition need (l : Z) : Z := (l + BSIZE - 1) / BSIZE + (if NDIRECT * BSIZE <? l then 1 else 0).

(** The same inode up to its block numbers *)
Definition same_inode (d d' : dinode) : Prop :=
  d_type d' = d_type d /\ d_major d' = d_major d /\ d_minor d' = d_minor d /\ d_nlink d' = d_nlink d /\ d_size d' = d_size d.

Section append.
Context (A : Z -> Z -> Z) (fc : Z -> list Z) (i : Z).
Hypothesis Hi : ino i.

Definition numbers (din : dinode) : Z -> Z -> Z := fun j => if j =? i then d_addrs din else A j.
Lemma numbers_i din : numbers din i = d_addrs din.
Proof. unfold numbers. by rewrite Z.eqb_refl. Qed.
Lemma numbers_set din k v : set_addr (numbers din) i k v = numbers (with_daddr k v din).
Proof. extensionality j. unfold set_addr, numbers. rewrite Z.eqb_refl. by destruct (j =? i). Qed.

Lemma next_block_run st : 0 <= freeblock st < FSSIZE -> next_block st = Ret (freeblock st) (set_freeblock (freeblock st + 1) st).
Proof. intros Hf. unfold next_block, bind, gets, modify, ret. rewrite wrap_small by (mknum; lia). done. Qed.

Lemma addr_range st din own bn : core (img st) (numbers din) (freeblock st) fc own -> 0 <= bn <= NDIRECT -> 0 <= d_addrs din bn < FSSIZE.
Proof.
  intros Hc Hb. pose proof (c_fb _ _ _ _ _ Hc). destruct (Z.eq_dec (d_addrs din bn) 0) as [E|Hne]; [mknum; lia|].
  destruct (Z.eq_dec bn NDIRECT) as [-> |Hnd].
  - destruct (c_ind _ _ _ _ _ Hc i Hi) as [Hr _]; rewrite numbers_i in *; [done|mknum; lia].
  - destruct (c_blk _ _ _ _ _ Hc i bn Hi) as [Hr _]; [mknum; lia|..]; unfold blk in *; rewrite numbers_i, (proj2 (Z.ltb_lt bn NDIRECT)) in * by lia; [done|mknum; lia].
Qed.

Definition block_got (st : mkst) (din : dinode) (own : Z -> Z * Z) (c : list Z) : Prop :=
  exists x din' st1 own1, file_block (len (fc i) / BSIZE) din st = Ret (x, din') st1 /\ kept st st1 /\ same_inode din din' /\
    freeblock st1 = freeblock st + (need (len (fc i) + len c) - need (len (fc i))) /\
    got (img st) (numbers din) (freeblock st) fc own i (img st1) (numbers din') (freeblock st1) own1 x.

Section block.
Context (st : mkst) (din : dinode) (own : Z -> Z * Z) (c : list Z).
Hypothesis Hw : whole st.
Hypothesis Hc : core (img st) (numbers din) (freeblock st) fc own.
Hypothesis Hc0 : 0 < len c.
Let off := len (fc i).
Let bn := off / BSIZE.
Hypothesis Hfit : off mod BSIZE + len c <= BSIZE.
Hypothesis Hmax : off + len c <= MAXFILE * BSIZE.
Hypothesis Hroom : freeblock st + (need (off + len c) - need off) <= FSSIZE.

(** Sectors the step takes *)
Lemma need_step : need (off + len c) - need off = if off mod BSIZE =? 0 then if bn =? NDIRECT then 2 else 1 else 0.
Proof.
  pose proof (bn_range fc i c Hc0 Hfit Hmax) as [H0 Hbn]. fold off bn in H0, Hbn. unfold need, bn in *. mknum.
  destruct (Z.eqb_spec (off mod 1024) 0), (Z.eqb_spec (off / 1024) 12), (Z.ltb_spec (12 * 1024) (off + len c)), (Z.ltb_spec (12 * 1024) off); dlia.
Qed.

Lemma file_block_direct : bn < NDIRECT -> block_got st din own c.
Proof.
  intros Hd. pose proof (c_fb _ _ _ _ _ Hc) as Hfb. pose proof (bn_range fc i c Hc0 Hfit Hmax) as [H0 Hbn]. pose proof need_step as En. fold off bn in H0, Hbn.
  unfold block_got, file_block. fold off bn. rewrite (proj2 (Z.ltb_lt bn NDIRECT)) by done. pose proof (addr_range st din own bn Hc ltac:(lia)) as Har. rewrite xint_id by (mknum; lia).
  assert (blk (img st) (numbers din) i bn = d_addrs din bn) as Eb by (unfold blk; by rewrite (proj2 (Z.ltb_lt bn NDIRECT)), numbers_i by done).
  destruct (Z.eqb_spec (off mod BSIZE) 0) as [Hm|Hm].
  - pose proof (block_aligned _ _ _ _ _ Hc i c Hi Hc0 Hfit Hmax Hm) as Ez. fold off bn in Ez. rewrite Ez in Eb. rewrite <- Eb. change (0 =? 0) with true. cbv iota.
    rewrite (proj2 (Z.eqb_neq bn NDIRECT)) in En by lia. rewrite bind_assoc. rewrite (bind_step _ _ _ _ _ (next_block_run st ltac:(mknum; lia))).
    unfold bind, ret. rewrite (xint_id (freeblock st)) by (mknum; lia).
    eexists _, _, _, (fupd own (freeblock st) (i, bn)). split; [reflexivity|]. split; [by split; [apply whole_freeblock|..]|]. split; [done|]. split; [cbn; lia|].
    assert (xint (d_addrs (with_daddr bn (freeblock st) din) bn) = freeblock st) as ->
      by (unfold with_daddr; cbn [d_addrs]; rewrite fupd_eq; apply xint_id; mknum; lia).
    rewrite <- numbers_set. apply (got_direct _ _ _ _ _ Hc i c Hi Hc0 Hfit Hmax); [done|done|lia].
  - pose proof (got_old _ _ _ _ _ Hc i c Hi Hc0 Hfit Hmax Hm) as Hg. fold off bn in Hg. rewrite Eb in Hg. destruct (g_x _ _ _ _ _ _ _ _ _ _ _ Hg) as (_ & Hx & _).
    rewrite (proj2 (Z.eqb_neq _ 0)) by (mknum; lia). unfold bind, ret. exists (d_addrs din bn), din, st, own. rewrite xint_id by (mknum; lia). split; [done|].
    split; [by split|]. split; [done|]. split; [lia|done].
Qed.

Lemma file_block_indirect : NDIRECT <= bn -> block_got st din own c.
Proof.
  intros Hd. pose proof (c_fb _ _ _ _ _ Hc) as Hfb. pose proof (bn_range fc i c Hc0 Hfit Hmax) as [H0 Hbn]. pose proof need_step as En. fold off bn in H0, Hbn.
  unfold block_got, file_block. fold off bn. rewrite (proj2 (Z.ltb_ge bn NDIRECT)) by done.
  pose proof (addr_range st din own NDIRECT Hc ltac:(mknum; lia)) as Har. rewrite xint_id by (mknum; lia).
  assert (d_addrs din NDIRECT = 0 -> off mod BSIZE = 0 /\ bn = NDIRECT) as Hfirst.
  { intros Ez. destruct (Z.eq_dec off (NDIRECT * BSIZE)) as [E|Hne]; [rewrite E; unfold bn; rewrite E; split; reflexivity|exfalso].
    apply (c_has _ _ _ _ _ Hc i NDIRECT Hi); [mknum; lia|fold off; unfold bn in *; mknum; dlia|]. unfold blk. by rewrite Z.ltb_irrefl, numbers_i, Ez. }
  set (o := 4 * (bn - NDIRECT)). assert (0 <= o /\ o + 4 <= BSIZE) as Ho by (unfold o; mknum; lia).
  assert (forall m v x, x < 0 \/ BSIZE <= x -> st32 m o v x = m x) as Hst by (intros m v x Hx; apply st_other; mknum; lia).
  assert (forall m v, 0 <= v < 2 ^ 32 -> xint (ld32 (st32 m o v) o) = v) as Hxl by (intros m v Hv; rewrite ld_st_same, Z.mod_small by done; by apply xint_id).
  destruct (Z.eqb_spec (d_addrs din NDIRECT) 0) as [Ez|Hne].
  - destruct (Hfirst Ez) as [Hm Hbd]. rewrite Hm, Hbd in En. change (0 =? 0) with true in En. change (NDIRECT =? NDIRECT) with true in En. cbv iota in En.
    rewrite bind_assoc. rewrite (bind_step _ _ _ _ _ (next_block_run st ltac:(mknum; lia))). rewrite bind_ret_l. rewrite (xint_id (freeblock st)) by (mknum; lia).
    set (st1 := set_freeblock (freeblock st + 1) st). set (din1 := with_daddr NDIRECT (freeblock st) din).
    assert (d_addrs din1 NDIRECT = freeblock st) as E1 by apply fupd_eq. rewrite E1. rewrite (xint_id (freeblock st)) by (mknum; lia).
    assert (whole st1) as W1 by by apply whole_freeblock. rewrite (bind_step _ _ _ _ _ (rsect_run st1 (freeblock st) W1 ltac:(mknum; lia))).
    change (img st1) with (img st). cbv zeta. assert (ld32 (img st (freeblock st)) o = 0) as E0.
    { rewrite (ld_ext 4 _ (fun _ => 0)); [done|]. intros x Hx. apply (c_fresh _ _ _ _ _ Hc); mknum; lia. }
    rewrite E0. change (0 =? 0) with true. cbv iota. rewrite (bind_step _ _ _ _ _ (next_block_run st1 ltac:(cbn; mknum; lia))). cbn [freeblock set_freeblock st1].
    rewrite (xint_id (freeblock st + 1)) by (mknum; lia). set (st2 := set_freeblock (freeblock st + 1 + 1) (set_freeblock (freeblock st + 1) st)).
    assert (whole st2) as W2 by by apply whole_freeblock. change (img st) with (img st2) at 1.
    rewrite (bind_step _ _ _ _ _ (wsect_run st2 (freeblock st) _ W2 ltac:(mknum; lia) (Hst _ _))). unfold ret. rewrite Hxl by (mknum; lia).
    eexists _, _, _, (fupd (fupd own (freeblock st) (i, -1)) (freeblock st + 1) (i, bn)). split; [reflexivity|]. split.
    { split; [apply whole_img; [done|by apply st_bytes_ok, W2]|done|]. intros x Hx. cbn. apply fupd_ne. lia. }
    split; [done|]. cbn [freeblock set_img st2 set_freeblock img]. replace (freeblock st + 1 + 1) with (freeblock st + 2) by lia. split; [lia|].
    unfold din1. rewrite <- numbers_set. apply (got_indirect _ _ _ _ _ Hc i c Hi Hc0 Hfit Hmax); [done|done|lia|by rewrite numbers_i].
  - rewrite bind_ret_l. rewrite xint_id by (mknum; lia). rewrite (bind_step _ _ _ _ _ (rsect_run st (d_addrs din NDIRECT) Hw ltac:(mknum; lia))). cbv zeta.
    assert (blk (img st) (numbers din) i bn = ld32 (img st (d_addrs din NDIRECT)) o) as Eb
      by (unfold blk; by rewrite (proj2 (Z.ltb_ge bn NDIRECT)), numbers_i, (proj2 (Z.eqb_neq _ 0)) by done).
    destruct (Z.eqb_spec (off mod BSIZE) 0) as [Hm|Hm].
    + pose proof (block_aligned _ _ _ _ _ Hc i c Hi Hc0 Hfit Hmax Hm) as Ez. fold off bn in Ez. rewrite Ez in Eb. rewrite <- Eb. change (0 =? 0) with true. cbv iota.
      destruct (Z.eqb_spec bn NDIRECT) as [Hbd|Hbd].
      { exfalso. apply Hne. pose proof (c_noind _ _ _ _ _ Hc i Hi) as Hno. rewrite numbers_i in Hno. apply Hno. fold off. unfold bn in Hbd. mknum. dlia. }
      rewrite (bind_step _ _ _ _ _ (next_block_run st ltac:(mknum; lia))). rewrite (xint_id (freeblock st)) by (mknum; lia).
      set (st1 := set_freeblock (freeblock st + 1) st). assert (whole st1) as W1 by by apply whole_freeblock. change (img st (d_addrs din NDIRECT)) with (img st1 (d_addrs din NDIRECT)).
      rewrite (bind_step _ _ _ _ _ (wsect_run st1 (d_addrs din NDIRECT) _ W1 ltac:(mknum; lia) (Hst _ _))). unfold ret. rewrite Hxl by (mknum; lia).
      eexists _, _, _, (fupd own (freeblock st) (i, bn)). split; [reflexivity|]. destruct (c_ind _ _ _ _ _ Hc i Hi) as [Hir _]; [by rewrite numbers_i|]. rewrite numbers_i in Hir. split.
      { split; [apply whole_img; [done|by apply st_bytes_ok, W1]|done|]. intros x Hx. cbn. apply fupd_ne. lia. }
      split; [done|]. cbn [freeblock set_img st1 set_freeblock img]. split; [lia|].
      apply (got_entry _ _ _ _ _ Hc i c Hi Hc0 Hfit Hmax); [done|done|lia|by rewrite numbers_i|done].
    + pose proof (got_old _ _ _ _ _ Hc i c Hi Hc0 Hfit Hmax Hm) as Hg. fold off bn in Hg. rewrite Eb in Hg. destruct (g_x _ _ _ _ _ _ _ _ _ _ _ Hg) as (_ & Hx & _).
      rewrite (proj2 (Z.eqb_neq _ 0)) by (mknum; lia). unfold ret. rewrite xint_id by (mknum; lia). exists (ld32 (img st (d_addrs din NDIRECT)) o), din, st, own.
      split; [done|]. split; [by split|]. split; [done|]. split; [lia|done].
Qed.
End block.
End append.

(** ** Appending *)

Lemma file_block_run A fc i st din own c : ino i -> whole st -> core (img st) (numbers A i din) (freeblock st) fc own -> 0 < len c ->
  len (fc i) mod BSIZE + len c <= BSIZE -> len (fc i) + len c <= MAXFILE * BSIZE -> freeblock st + (need (len (fc i) + len c) - need (len (fc i))) <= FSSIZE ->
  block_got A fc i st din own c.
Proof.
  intros Hi Hw Hc Hc0 Hfit Hmax Hroom. destruct (Z.lt_ge_cases (len (fc i) / BSIZE) NDIRECT).
  - by apply file_block_direct.
  - by apply file_block_indirect.
Qed.

Lemma need_mono x y : x <= y -> need x <= need y.
Proof. intros Hx. unfold need. mknum. destruct (Z.ltb_spec (12 * 1024) x), (Z.ltb_spec (12 * 1024) y); dlia. Qed.

Lemma len_slice n m a : 0 <= n -> len (slice (Z.to_nat n) m a) = n.
Proof. intros Hn. unfold len. rewrite length_slice. lia. Qed.

Lemma fupd_app fc (i : Z) (c c' : list Z) : fupd (fupd fc i (fc i ++ c)) i (fupd fc i (fc i ++ c) i ++ c') = fupd fc i (fc i ++ c ++ c').
Proof. rewrite fupd_eq, fupd_twice, <- app_assoc. done. Qed.

(** One round of the loop *)
Lemma iappend_body_run A i xp n p din st fc own : ino i -> whole st -> bytes_ok xp -> core (img st) (numbers A i din) (freeblock st) fc own -> 0 < n ->
  len (fc i) + n <= MAXFILE * BSIZE -> freeblock st + (need (len (fc i) + n) - need (len (fc i))) <= FSSIZE ->
  let n1 := Z.min n ((len (fc i) / BSIZE + 1) * BSIZE - len (fc i)) in
  exists st' din' own', iappend_body xp (n, len (fc i), p, din) st = Ret (inl (n - n1, len (fc i) + n1, p + n1, din')) st' /\ kept st st' /\ same_inode din din' /\
    freeblock st' = freeblock st + (need (len (fc i) + n1) - need (len (fc i))) /\
    core (img st') (numbers A i din') (freeblock st') (fupd fc i (fc i ++ slice (Z.to_nat n1) xp p)) own'.
Proof.
  intros Hi Hw Hxp Hc Hn Hmax Hroom n1. set (off := len (fc i)) in *. assert (0 <= off) as H0 by (unfold off, len; lia).
  assert (0 < n1 <= n /\ off mod BSIZE + n1 <= BSIZE) as [Hn1 Hfit] by (unfold n1; mknum; dlia). set (c := slice (Z.to_nat n1) xp p).
  assert (len c = n1) as Hlc by (apply len_slice; lia). pose proof (need_mono (off + n1) (off + n) ltac:(lia)) as Hmono.
  destruct (file_block_run A fc i st din own c Hi Hw Hc) as (x & din' & st1 & own1 & E & Hk & Hs & Hf & Hg); fold off; rewrite ?Hlc; [lia|done|lia|lia|].
  fold off in E, Hf. rewrite Hlc in Hf. unfold iappend_body. rewrite (proj2 (Z.ltb_lt 0 n)) by done. cbv zeta.
  rewrite (proj2 (Z.ltb_lt (off / BSIZE) MAXFILE)) by (mknum; dlia). unfold assert_or. rewrite bind_ret_l. rewrite (bind_step _ _ _ _ _ E). cbn [fst snd].
  destruct (g_x _ _ _ _ _ _ _ _ _ _ _ Hg) as (_ & Hx & _). pose proof (g_fb _ _ _ _ _ _ _ _ _ _ _ Hg) as Hfb1.
  rewrite (bind_step _ _ _ _ _ (rsect_run st1 x (k_whole _ _ Hk) ltac:(mknum; lia))). fold n1. set (o := off - off / BSIZE * BSIZE).
  assert (o = off mod BSIZE) as Eo by (unfold o; mknum; dlia). rewrite Eo. set (d := blit (img st1 x) (off mod BSIZE) xp p n1).
  assert (0 <= off mod BSIZE) as Hm by (mknum; dlia).
  rewrite (bind_step _ _ _ _ _ (wsect_run st1 x d (k_whole _ _ Hk) ltac:(mknum; lia) ltac:(intros y Hy; apply blit_out; lia))).
  unfold ret. rewrite wrap_small by (mknum; lia). eexists _, din', own1. split; [done|]. split.
  { destruct Hk as [W1 I1 M1]. split; [apply whole_img; [done|apply blit_bytes_ok; [apply W1|done]]|done|]. intros y Hy. cbn. rewrite fupd_ne by lia. by apply M1. }
  split; [done|]. split; [done|]. cbn [img set_img freeblock]. apply (got_core _ _ _ _ _ Hc i c Hi ltac:(lia) ltac:(fold off; lia) ltac:(fold off; lia) _ _ _ _ _ _ Hg).
  fold off. intros y Hy. unfold d. destruct (decide (off mod BSIZE <= y < off mod BSIZE + n1)) as [Hin|Hout].
  - rewrite blit_in by done. unfold c. rewrite slice_lookup by lia. rewrite (proj2 (Z.leb_le _ y)) by lia. f_equal. lia.
  - rewrite blit_out by lia. destruct (Z.leb_spec (off mod BSIZE) y) as [Hy1|Hy1].
    + rewrite lookup_ge_None_2; [done|]. unfold c. rewrite length_slice. lia.
    + by destruct (c !! _).
Qed.

Definition rounds (n off : Z) : Z := if n =? 0 then 0 else (off mod BSIZE + n + BSIZE - 1) / BSIZE.

Lemma iappend_loop A i xp : ino i -> bytes_ok xp -> forall fuel n p din st fc own, whole st -> core (img st) (numbers A i din) (freeblock st) fc own -> 0 <= n ->
  len (fc i) + n <= MAXFILE * BSIZE -> freeblock st + (need (len (fc i) + n) - need (len (fc i))) <= FSSIZE -> rounds n (len (fc i)) < Z.of_nat fuel ->
  exists st' din' own', loop fuel (iappend_body xp) (n, len (fc i), p, din) st = Ret (len (fc i) + n, din') st' /\ kept st st' /\ same_inode din din' /\
    freeblock st' = freeblock st + (need (len (fc i) + n) - need (len (fc i))) /\
    core (img st') (numbers A i din') (freeblock st') (fupd fc i (fc i ++ slice (Z.to_nat n) xp p)) own'.
Proof.
  intros Hi Hxp fuel. induction fuel as [|fuel IH]; intros n p din st fc own Hw Hc Hn Hmax Hroom Hf.
  { exfalso. assert (0 <= len (fc i)) by (unfold len; lia). unfold rounds in Hf. destruct (Z.eqb_spec n 0); [lia|]. mknum. dlia. }
  cbn [loop]. destruct (Z.eq_dec n 0) as [-> |Hne].
  - unfold iappend_body. change (0 <? 0) with false. cbv iota. rewrite bind_ret_l. exists st, din, own. rewrite Z.add_0_r. split; [done|]. split; [by split|]. split; [done|].
    split; [lia|]. cbn [slice Z.to_nat]. rewrite app_nil_r, fupd_id. done.
  - destruct (iappend_body_run A i xp n p din st fc own Hi Hw Hxp Hc ltac:(lia) Hmax Hroom) as (st1 & din1 & own1 & E & Hk & Hs & Hf1 & Hc1).
    set (off := len (fc i)) in *. assert (0 <= off) as H0 by (unfold off, len; lia). set (n1 := Z.min n ((off / BSIZE + 1) * BSIZE - off)) in *.
    assert (0 < n1 <= n) as Hn1 by (unfold n1; mknum; dlia). rewrite (bind_step _ _ _ _ _ E). set (fc1 := fupd fc i (fc i ++ slice (Z.to_nat n1) xp p)) in *.
    assert (len (fc1 i) = off + n1) as Hl by (unfold fc1; rewrite fupd_eq, len_app, len_slice by lia; done).
    destruct (IH (n - n1) (p + n1) din1 st1 fc1 own1 (k_whole _ _ Hk) Hc1) as (st' & din' & own' & E' & Hk' & Hs' & Hf' & Hc'); rewrite ?Hl.
    + lia.
    + lia.
    + rewrite Hf1. replace (off + n1 + (n - n1)) with (off + n) by lia. lia.
    + unfold rounds in *. rewrite (proj2 (Z.eqb_neq n 0)) in Hf by done. destruct (Z.eqb_spec (n - n1) 0); unfold n1 in *; mknum; dlia.
    + rewrite Hl in E', Hf'. replace (off + n1 + (n - n1)) with (off + n) in E', Hf' by lia. exists st', din', own'. split; [done|]. split; [by eapply kept_trans|].
      split; [destruct Hs as (? & ? & ? & ? & ?), Hs' as (? & ? & ? & ? & ?); repeat split; congruence|]. split; [lia|].
      assert (fupd fc1 i (fc1 i ++ slice (Z.to_nat (n - n1)) xp (p + n1)) = fupd fc i (fc i ++ slice (Z.to_nat n) xp p)) as <-; [|done].
      unfold fc1. rewrite fupd_app. do 2 f_equal. replace (Z.to_nat n) with (Z.to_nat n1 + Z.to_nat (n - n1))%nat by lia. rewrite slice_app. do 2 f_equal. lia.
Qed.

(** ** The inodes *)

Definition dinode_at (st : mkst) (j : Z) : dinode := read_dinode (img st (IBLOCK j mk_sb)) (ino_off j).

(** The inode blocks are the sectors 33 to 45. *)
Lemma iblock_eq j : ino j -> IBLOCK j mk_sb = j / 16 + 33 /\ 33 <= IBLOCK j mk_sb < 46 /\ ino_off j = j mod 16 * 64 /\ 0 <= ino_off j <= 960.
Proof.
  intros Hj. assert (IBLOCK j mk_sb = j / 16 + 33) as E.
  { unfold IBLOCK. change IPB with 16. change (sb_inodestart mk_sb) with 33. unfold ino in Hj. apply wrap_small. mknum. dlia. }
  unfold ino_off. change IPB with 16. change DINODE_SIZE with 64. rewrite E. unfold ino in Hj. mknum. dlia.
Qed.

(** Outside the inode blocks nothing has changed. *)
Definition same_but_inodes (st st' : mkst) : Prop := forall x, ~ 33 <= x < 46 -> img st' x = img st x.

Lemma winode_run st i v : whole st -> ino i -> dinode_ok v ->
  exists st', winode i v st = Ret tt st' /\ whole st' /\ freeinode st' = freeinode st /\ freeblock st' = freeblock st /\ same_but_inodes st st' /\
    dinode_eq (dinode_at st' i) v /\ forall j, ino j -> j <> i -> dinode_eq (dinode_at st' j) (dinode_at st j).
Proof.
  intros Hw Hi Hv. destruct (iblock_eq i Hi) as (Ei & Hr & Eo & Hor). unfold winode. set (bn := IBLOCK i mk_sb) in *. set (o := ino_off i) in *.
  rewrite (bind_step _ _ _ _ _ (rsect_run st bn Hw ltac:(mknum; lia))). set (d := write_dinode v o (img st bn)).
  assert (forall x, x < o \/ o + 64 <= x -> d x = img st bn x) as Hd.
  { intros x Hx. unfold d, write_dinode. change (Z.to_nat (NDIRECT + 1)) with 13%nat. cbn [put_addrs]. by rewrite !st_other by lia. }
  rewrite (wsect_run st bn d Hw ltac:(mknum; lia) ltac:(intros y Hy; apply Hd; mknum; lia)). set (st' := set_img (fupd (img st) bn d) FSSIZE st).
  exists st'. split; [done|]. split; [apply whole_img; [done|]|].
  { unfold d, write_dinode. change (Z.to_nat (NDIRECT + 1)) with 13%nat. cbn [put_addrs]. repeat apply st_bytes_ok. apply Hw. }
  split; [done|]. split; [done|]. split; [intros x Hx; cbn; apply fupd_ne; lia|].
  destruct (dinode_store_load v o (img st bn) Hv) as [Hsame Hother]. split.
  - unfold dinode_at. fold bn o. unfold st'. cbn [img set_img]. rewrite fupd_eq. done.
  - intros j Hj Hne. destruct (iblock_eq j Hj) as (Ej & Hrj & Eoj & _). unfold dinode_at, st'. cbn [img set_img]. destruct (Z.eq_dec (IBLOCK j mk_sb) bn) as [E|Hnb].
    + rewrite E, fupd_eq. apply Hother. change DINODE_SIZE with 64. rewrite Eoj. rewrite Eo. rewrite Ei, Ej in E. dlia.
    + rewrite fupd_ne by done. by repeat split.
Qed.

Lemma rinode_run st i : whole st -> ino i -> rinode i st = Ret (dinode_at st i) st.
Proof.
  intros Hw Hi. destruct (iblock_eq i Hi) as (_ & Hr & _). unfold rinode. by rewrite (bind_step _ _ _ _ _ (rsect_run st (IBLOCK i mk_sb) Hw ltac:(mknum; lia))).
Qed.

(** The file system under construction: the files [fc] and their types [ty] *)
Record inodes (st : mkst) (fc : Z -> list Z) (ty : Z -> Z) : Prop := Inodes {
  mi_whole : whole st;
  mi_free : 1 <= freeinode st <= NINODES;
  mi_size j : ino j -> d_size (dinode_at st j) = len (fc j);
  mi_type j : ino j -> d_type (dinode_at st j) = ty j /\ d_major (dinode_at st j) = 0 /\ d_minor (dinode_at st j) = 0 /\
    d_nlink (dinode_at st j) = (if ty j =? 0 then 0 else 1) /\ (ty j = 0 \/ ty j = T_DIR \/ ty j = T_FILE);
  mi_unused j : ino j -> freeinode st <= j -> fc j = [] /\ ty j = 0;
}.
Record mk_inv (st : mkst) (fc : Z -> list Z) (ty : Z -> Z) (own : Z -> Z * Z) : Prop := MkInv {
  mi_inodes : inodes st fc ty;
  mi_core : core (img st) (fun j => d_addrs (dinode_at st j)) (freeblock st) fc own;
}.

Lemma addrs_ok st fc own j : ino j -> core (img st) (fun j => d_addrs (dinode_at st j)) (freeblock st) fc own ->
  forall k, 0 <= k <= NDIRECT -> 0 <= d_addrs (dinode_at st j) k < 2 ^ 32.
Proof.
  intros Hj Hc k Hk. destruct (addr_range (fun j => d_addrs (dinode_at st j)) fc j Hj st (dinode_at st j) own k) as [H1 H2]; [|done|mknum; lia].
  assert (numbers (fun j => d_addrs (dinode_at st j)) j (dinode_at st j) = (fun j => d_addrs (dinode_at st j))) as ->; [|done].
  extensionality x. unfold numbers. destruct (Z.eqb_spec x j) as [-> |]; done.
Qed.

(** An inode written back: the same file system but for inode [i] *)
Lemma inode_written st fc ty i v : ino i -> inodes st fc ty -> dinode_ok v -> forall fc' ty' own' A',
  core (img st) A' (freeblock st) fc' own' -> (forall k, 0 <= k <= NDIRECT -> A' i k = d_addrs v k) ->
  (forall j, ino j -> j <> i -> A' j = d_addrs (dinode_at st j) /\ fc' j = fc j /\ ty' j = ty j) -> d_size v = len (fc' i) ->
  d_type v = ty' i -> d_major v = 0 -> d_minor v = 0 -> d_nlink v = (if ty' i =? 0 then 0 else 1) -> (ty' i = T_DIR \/ ty' i = T_FILE) -> i < freeinode st ->
  exists st', winode i v st = Ret tt st' /\ mk_inv st' fc' ty' own' /\ freeinode st' = freeinode st /\ freeblock st' = freeblock st /\ same_but_inodes st st'.
Proof.
  intros Hi Hinv Hv fc' ty' own' A' Hc HA Hj Hs T1 T2 T3 T4 T5 Hlt. destruct Hinv as [Hw Hfr Hsz Hty Hun].
  destruct (winode_run st i v Hw Hi Hv) as (st' & E & W' & F1 & F2 & Hb & (V1 & V2 & V3 & V4 & V5 & V6) & Ho). exists st'. split; [done|]. split; [|done]. split; [split|].
  - done.
  - by rewrite F1.
  - intros j Hji. destruct (Z.eq_dec j i) as [-> |Hne]; [by rewrite V5|]. destruct (Hj j Hji Hne) as (_ & -> & _). rewrite <- Hsz by done. by apply (Ho j Hji Hne).
  - intros j Hji. destruct (Z.eq_dec j i) as [-> |Hne]; [rewrite V1, V2, V3, V4; by split_and!; try (by right)|]. destruct (Hj j Hji Hne) as (_ & _ & ->).
    destruct (Ho j Hji Hne) as (-> & -> & -> & -> & _). by apply Hty.
  - intros j Hji Hge. rewrite F1 in Hge. destruct (Hj j Hji ltac:(lia)) as (_ & -> & ->). by apply Hun.
  - rewrite F2. eapply core_ext; [exact Hc|intros x Hx; apply Hb; mknum; lia|]. intros j k Hji Hk. destruct (Z.eq_dec j i) as [-> |Hne].
    + rewrite HA by done. by apply V6.
    + destruct (Hj j Hji Hne) as [-> _]. by apply (Ho j Hji Hne).
Qed.

Lemma dinode_kept st st' j : kept st st' -> ino j -> dinode_at st' j = dinode_at st j.
Proof. intros Hk Hj. destruct (iblock_eq j Hj) as (_ & Hr & _). unfold dinode_at. rewrite (k_meta _ _ Hk); [done|]. mknum. lia. Qed.

Lemma inodes_kept st st' fc ty : kept st st' -> inodes st fc ty -> inodes st' fc ty.
Proof.
  intros Hk [Hw Hf Hs Ht Hu]. pose proof (k_inode _ _ Hk) as Ef. split.
  - apply Hk.
  - by rewrite Ef.
  - intros j Hj. rewrite (dinode_kept st st') by done. by apply Hs.
  - intros j Hj. rewrite (dinode_kept st st') by done. by apply Ht.
  - rewrite Ef. done.
Qed.

(** Between the data and the super block: what is neither inode nor data *)
Definition same_meta (st st' : mkst) : Prop := forall x, x < nmeta -> ~ 33 <= x < 46 -> img st' x = img st x.

Lemma iappend_run st fc ty own i xp n : mk_inv st fc ty own -> 1 <= i < freeinode st -> ty i = T_DIR \/ ty i = T_FILE -> bytes_ok xp -> 0 <= n ->
  len (fc i) + n <= MAXFILE * BSIZE -> freeblock st + (need (len (fc i) + n) - need (len (fc i))) <= FSSIZE ->
  exists st' own', iappend i xp n st = Ret tt st' /\ mk_inv st' (fupd fc i (fc i ++ slice (Z.to_nat n) xp 0)) ty own' /\ freeinode st' = freeinode st /\
    freeblock st' = freeblock st + (need (len (fc i) + n) - need (len (fc i))) /\ same_meta st st'.
Proof.
  intros [HI Hc] Hi Hty Hxp Hn Hmax Hroom. pose proof HI as [Hw Hfr Hsz Ht Hu]. assert (ino i) as Hino by (unfold ino; lia).
  set (A := fun j => d_addrs (dinode_at st j)) in *. assert (numbers A i (dinode_at st i) = A) as EA.
  { extensionality j. unfold numbers, A. destruct (Z.eqb_spec j i) as [-> |]; done. }
  unfold iappend. rewrite (bind_step _ _ _ _ _ (rinode_run st i Hw Hino)). rewrite Hsz by done. assert (0 <= len (fc i)) as H0 by (unfold len; lia).
  rewrite xint_id by (mknum; lia). destruct (iappend_loop A i xp Hino Hxp (Z.to_nat (n / BSIZE + 3)) n 0 (dinode_at st i) st fc own Hw) as (st1 & din1 & own1 & E & Hk & Hs & Hf & Hc1);
    [by rewrite EA|done|done|done|unfold rounds; destruct (n =? 0); mknum; dlia|].
  rewrite (bind_step _ _ _ _ _ E). cbn [fst snd]. rewrite xint_id by (mknum; lia). set (fc1 := fupd fc i (fc i ++ slice (Z.to_nat n) xp 0)) in *.
  assert (len (fc1 i) = len (fc i) + n) as Hl by (unfold fc1; rewrite fupd_eq, len_app, len_slice by lia; done).
  destruct Hs as (S1 & S2 & S3 & S4 & S5). destruct (Ht i Hino) as (T1 & T2 & T3 & T4 & _).
  destruct (inode_written st1 fc ty i (with_dsize (len (fc i) + n) din1) Hino (inodes_kept _ _ _ _ Hk HI)) with (fc' := fc1) (ty' := ty) (own' := own1) (A' := numbers A i din1)
    as (st' & E' & Hinv & F1 & F2 & Hb).
  - split; cbn; rewrite ?S1, ?S2, ?S3, ?S4, ?T1, ?T2, ?T3, ?T4.
    + destruct Hty as [-> | ->]; split; vm_compute; congruence.
    + split; vm_compute; congruence.
    + split; vm_compute; congruence.
    + destruct (ty i =? 0); split; vm_compute; congruence.
    + mknum. lia.
    + intros k Hkr. pose proof (addr_range A fc1 i Hino st1 din1 own1 k Hc1 Hkr). mknum. lia.
  - done.
  - intros k _. cbn. by rewrite numbers_i.
  - intros j Hji Hj. split; [|split; [by apply fupd_ne|done]]. unfold numbers. rewrite (proj2 (Z.eqb_neq j i)) by done. unfold A. by rewrite (dinode_kept st st1).
  - cbn. lia.
  - cbn. by rewrite S1.
  - cbn. by rewrite S2.
  - cbn. by rewrite S3.
  - cbn. by rewrite S4.
  - done.
  - rewrite (k_inode _ _ Hk). lia.
  - exists st', own1. split; [done|]. split; [done|]. split; [rewrite F1; apply Hk|]. split; [lia|]. intros x Hx Hnx. rewrite Hb by done. by apply Hk.
Qed.

(** ialloc takes the next inode. *)
Lemma ialloc_run st fc ty own t : mk_inv st fc ty own -> freeinode st < NINODES -> t = T_DIR \/ t = T_FILE ->
  exists st', Mkfs.ialloc t st = Ret (freeinode st) st' /\ mk_inv st' fc (fupd ty (freeinode st) t) own /\ freeinode st' = freeinode st + 1 /\
    freeblock st' = freeblock st /\ same_meta st st'.
Proof.
  intros [HI Hc] Hlt Ht. pose proof HI as [Hw Hfr Hsz Hty Hu]. set (i := freeinode st) in *. assert (ino i) as Hino by (unfold ino; lia).
  destruct (Hu i Hino ltac:(lia)) as [Hfc Hti]. unfold Mkfs.ialloc. rewrite (bind_step (gets _) _ st i st) by done. rewrite wrap_small by (mknum; lia).
  unfold bind at 1, modify at 1. set (st1 := set_freeinode (i + 1) st). set (v := Dinode _ 0 0 _ _ _).
  assert (inodes st1 fc ty) as HI1.
  { split; [by apply whole_freeinode|cbn; lia|exact Hsz|exact Hty|]. intros j Hj Hge. apply Hu; [done|]. cbn in Hge. lia. }
  assert (forall k, 0 <= k <= NDIRECT -> d_addrs (dinode_at st i) k = 0) as Hz.
  { intros k Hk. destruct (Z.eq_dec k NDIRECT) as [-> |Hne]; [apply (c_noind _ _ _ _ _ Hc i Hino); rewrite Hfc; change (len []) with 0; mknum; lia|].
    pose proof (c_not _ _ _ _ _ Hc i k Hino) as Hn. unfold blk in Hn. rewrite (proj2 (Z.ltb_lt k NDIRECT)) in Hn by lia. apply Hn; [mknum; lia|lia|rewrite Hfc; change (len []) with 0; mknum; lia]. }
  destruct (inode_written st1 fc ty i v Hino HI1) with (fc' := fc) (ty' := fupd ty i t) (own' := own) (A' := fun j => d_addrs (dinode_at st j))
    as (st' & E' & Hinv & F1 & F2 & Hb).
  - unfold v. destruct Ht as [-> | ->]; split; try (vm_compute; split; congruence); intros; vm_compute; split; congruence.
  - exact Hc.
  - intros k Hk. rewrite Hz by done. done.
  - intros j Hji Hj. split; [done|]. split; [done|by apply fupd_ne].
  - rewrite Hfc. done.
  - rewrite fupd_eq. unfold v. by destruct Ht as [-> | ->].
  - done.
  - done.
  - rewrite fupd_eq. unfold v. by destruct Ht as [-> | ->].
  - by rewrite fupd_eq.
  - cbn. lia.
  - rewrite (bind_step _ _ _ _ _ E'). exists st'. split; [done|]. split; [done|]. split; [done|]. split; [done|]. intros x _ Hx. by apply Hb.
Qed.

(** ** The files *)

Definition shortname (f : input) : chars := drop_underscore (drop_user (fst f)).
Definition data (f : input) : list Z := match snd f with Some pieces => concat pieces | None => [] end.
Definition is_byte (v : Z) : Prop := 0 <= v < 256.

(** An input that mkfs accepts *)
Record good_input (f : input) : Prop := GoodInput {
  gi_slash : 47 ∉ drop_user (fst f);
  gi_name : Z.of_nat (length (shortname f)) <= DIRSIZ;
  gi_chars : Forall (fun v => 0 < v < 256) (shortname f);
  gi_open : is_Some (snd f);
  gi_data : Forall is_byte (data f);
  gi_size : len (data f) <= MAXFILE * BSIZE;
}.

Lemma store_bytes_ok l : forall m a, bytes_ok m -> Forall is_byte l -> bytes_ok (store_list m a l).
Proof. induction l as [|v l IH]; intros m a Hm Hl; [done|]. apply Forall_cons in Hl as [Hv Hl]. cbn. apply IH; [by apply fupd_bytes_ok|done]. Qed.

Lemma need_nonneg x : 0 <= x -> 0 <= need x.
Proof. intros Hx. unfold need. mknum. destruct (12 * 1024 <? x); dlia. Qed.

Lemma copy_file_run ty i pieces : ty i = T_DIR \/ ty i = T_FILE -> forall st fc own, mk_inv st fc ty own -> 1 <= i < freeinode st -> Forall is_byte (concat pieces) ->
  len (fc i) + len (concat pieces) <= MAXFILE * BSIZE -> freeblock st + (need (len (fc i) + len (concat pieces)) - need (len (fc i))) <= FSSIZE ->
  exists st' own', copy_file i pieces st = Ret tt st' /\ mk_inv st' (fupd fc i (fc i ++ concat pieces)) ty own' /\ freeinode st' = freeinode st /\
    freeblock st' = freeblock st + (need (len (fc i) + len (concat pieces)) - need (len (fc i))) /\ same_meta st st'.
Proof.
  intros Hty. induction pieces as [|c pieces IH]; intros st fc own Hinv Hi Hb Hmax Hroom; cbn [copy_file concat] in *.
  - exists st, own. split; [done|]. rewrite app_nil_r, fupd_id. change (len []) with 0. split; [done|]. split; [done|]. split; [rewrite Z.add_0_r; lia|done].
  - apply Forall_app in Hb as [Hc Hb]. rewrite len_app in *. assert (0 <= len c /\ 0 <= len (concat pieces) /\ 0 <= len (fc i)) as (L1 & L2 & L3) by (unfold len; lia).
    pose proof (need_mono (len (fc i) + len c) (len (fc i) + (len c + len (concat pieces))) ltac:(lia)).
    destruct (iappend_run st fc ty own i (store_list (fun _ => 0) 0 c) (len c) Hinv Hi Hty) as (st1 & own1 & E & Hinv1 & F1 & F2 & Hm); try lia.
    { apply store_bytes_ok; [intros a; lia|done]. }
    unfold len in E at 1. rewrite (bind_step _ _ _ _ _ E). assert (slice (Z.to_nat (len c)) (store_list (fun _ => 0) 0 c) 0 = c) as Es
      by (unfold len; rewrite Nat2Z.id; apply store_list_slice). rewrite Es in Hinv1. set (fc1 := fupd fc i (fc i ++ c)) in *.
    assert (len (fc1 i) = len (fc i) + len c) as Hl by (unfold fc1; by rewrite fupd_eq, len_app).
    destruct (IH st1 fc1 own1 Hinv1) as (st' & own' & E' & Hinv' & G1 & G2 & Hm'); rewrite ?Hl, ?F2, <- ?Z.add_assoc; [lia|done|lia|lia|].
    exists st', own'. split; [done|]. split; [by unfold fc1 in Hinv'; rewrite fupd_app in Hinv'|]. split; [lia|]. split; [rewrite Hl in G2; rewrite <- Z.add_assoc in G2; lia|].
    intros x Hx Hn. by rewrite Hm', Hm.
Qed.

Definition dirent_bytes (inum : Z) (name : chars) : list Z := slice (Z.to_nat DIRENT_SIZE) (dirent inum name) 0.

Lemma dirent_ok inum name : Forall (fun v => 0 < v < 256) name -> bytes_ok (dirent inum name).
Proof. intros Hn. apply store_bytes_ok; [apply st_bytes_ok; intros a; lia|]. eapply Forall_impl; [exact Hn|]. unfold is_byte. lia. Qed.

(** Every file so far is other than the root directory. *)
Lemma add_file_run st fc ty own f : mk_inv st fc ty own -> 1 < freeinode st < NINODES -> ty 1 = T_DIR -> good_input f -> len (fc 1) + 16 <= MAXFILE * BSIZE ->
  freeblock st + (need (len (fc 1) + 16) - need (len (fc 1))) + need (len (data f)) <= FSSIZE ->
  let i := freeinode st in
  exists st' own', add_file 1 f st = Ret tt st' /\ mk_inv st' (fupd (fupd fc 1 (fc 1 ++ dirent_bytes i (shortname f))) i (data f)) (fupd ty i T_FILE) own' /\
    freeinode st' = i + 1 /\ freeblock st' = freeblock st + (need (len (fc 1) + 16) - need (len (fc 1))) + need (len (data f)) /\ same_meta st st'.
Proof.
  intros Hinv Hfi Hroot [G1 G2 G3 [pieces G4] G5 G6] Hmax Hroom i. assert (0 <= len (data f)) as L0 by (unfold len; lia). pose proof (need_nonneg _ L0) as Hn0.
  unfold add_file. cbv zeta. rewrite bool_decide_eq_true_2 by done. unfold assert_or at 1. rewrite bind_ret_l. rewrite G4. fold (shortname f).
  rewrite (proj2 (Z.leb_le _ DIRSIZ)) by done. unfold assert_or. rewrite bind_ret_l.
  destruct (ialloc_run st fc ty own T_FILE Hinv ltac:(lia) ltac:(by right)) as (st1 & E1 & Hinv1 & F1 & B1 & M1). fold i in E1, Hinv1, F1. rewrite (bind_step _ _ _ _ _ E1).
  assert (fupd ty i T_FILE 1 = T_DIR) as Hroot1 by (rewrite fupd_ne by lia; done).
  destruct (iappend_run st1 fc (fupd ty i T_FILE) own 1 (dirent i (shortname f)) DIRENT_SIZE Hinv1) as (st2 & own2 & E2 & Hinv2 & F2 & B2 & M2);
    [lia|by left|by apply dirent_ok|done|done|change DIRENT_SIZE with 16; lia|]. change DIRENT_SIZE with 16 in B2. rewrite (bind_step _ _ _ _ _ E2). fold (dirent_bytes i (shortname f)) in Hinv2.
  set (fc2 := fupd fc 1 (fc 1 ++ dirent_bytes i (shortname f))) in *. assert (fc2 i = []) as Hnil.
  { unfold fc2. rewrite fupd_ne by lia. apply (mi_unused _ _ _ (mi_inodes _ _ _ _ Hinv)); [unfold ino; lia|lia]. }
  unfold data in *. rewrite G4 in *. destruct (copy_file_run (fupd ty i T_FILE) i pieces ltac:(right; apply fupd_eq) st2 fc2 own2 Hinv2) as (st' & own' & E' & Hinv' & F' & B' & M');
    rewrite ?Hnil; change (len []) with 0; change (need 0) with 0; rewrite ?Z.add_0_l; [lia|done|lia|lia|].
  exists st', own'. rewrite Hnil in Hinv', B'. change (len []) with 0 in B'. change (need 0) with 0 in B'. rewrite Z.add_0_l in B'.
  split; [done|]. split; [done|]. split; [lia|]. split; [lia|]. intros x Hx Hn. by rewrite M', M2, M1.
Qed.
