(* ===== verification/MkfsImage.v ===== *)
(** * mkfs: the finished image, as the kernel sees it

    The whole of main: every input is a file whose inode, directory entry and
    contents are where the kernel looks for them. *)
From stdpp Require Import base list numbers strings.
From Stdlib Require Import ZArith Lia FunctionalExtensionality.
From S2P Require Import Ulib Prelude Memlayout CString BufCache UserMem Fs FsBlocks FsFiles FsDirs Mkfs MkfsProps.

(** Entries of the inputs in the root directory, from inode [i] on *)
Fixpoint dir_bytes (i : Z) (files : list input) : list Z :=
  match files with [] => [] | f :: files' => dirent_bytes i (shortname f) ++ dir_bytes (i + 1) files' end.
Definition sum_need (files : list input) : Z := foldr (fun f a => need (len (data f)) + a) 0 files.

Lemma len_dirent i name : len (dirent_bytes i name) = 16.
Proof. unfold dirent_bytes. by rewrite len_slice. Qed.
Lemma len_dir_bytes files : forall i, len (dir_bytes i files) = 16 * Z.of_nat (length files).
Proof. induction files as [|f files IH]; intros i; [done|]. cbn [dir_bytes length]. rewrite len_app, len_dirent, IH. lia. Qed.
Lemma sum_need_nonneg files : 0 <= sum_need files.
Proof. induction files as [|f files IH]; [done|]. unfold sum_need in *. cbn [foldr]. assert (0 <= len (data f)) as H by (unfold len; lia). pose proof (need_nonneg _ H). lia. Qed.

Lemma add_files_run files : forall st fc ty own, mk_inv st fc ty own -> 1 < freeinode st -> freeinode st + Z.of_nat (length files) <= NINODES -> ty 1 = T_DIR ->
  Forall good_input files -> len (fc 1) + 16 * Z.of_nat (length files) <= MAXFILE * BSIZE ->
  freeblock st + (need (len (fc 1) + 16 * Z.of_nat (length files)) - need (len (fc 1))) + sum_need files <= FSSIZE ->
  exists st' fc' ty' own', add_files 1 files st = Ret tt st' /\ mk_inv st' fc' ty' own' /\ same_meta st st' /\ freeinode st' = freeinode st + Z.of_nat (length files) /\
    freeblock st' = freeblock st + (need (len (fc 1) + 16 * Z.of_nat (length files)) - need (len (fc 1))) + sum_need files /\
    ty' 1 = T_DIR /\ fc' 1 = fc 1 ++ dir_bytes (freeinode st) files /\ (forall j, 1 < j < freeinode st -> fc' j = fc j /\ ty' j = ty j) /\
    forall k f, files !! k = Some f -> fc' (freeinode st + Z.of_nat k) = data f /\ ty' (freeinode st + Z.of_nat k) = T_FILE.
Proof.
  induction files as [|f files IH]; intros st fc ty own Hinv H1 H2 Hroot Hg Hmax Hroom; cbn [add_files length dir_bytes sum_need foldr] in *.
  { exists st, fc, ty, own. split; [done|]. split; [done|]. split; [done|]. split; [lia|]. split; [change (16 * Z.of_nat 0) with 0; rewrite !Z.add_0_r; lia|]. split; [done|]. split; [by rewrite app_nil_r|]. split; [done|]. intros k f Ek. done. }
  apply Forall_cons in Hg as [Hf Hg]. assert (0 <= len (data f)) as L0 by (unfold len; lia). pose proof (need_nonneg _ L0). fold (sum_need files) in Hroom. pose proof (sum_need_nonneg files).
  assert (0 <= len (fc 1)) by (unfold len; lia). pose proof (need_mono (len (fc 1) + 16) (len (fc 1) + 16 * Z.of_nat (S (length files))) ltac:(lia)).
  destruct (add_file_run st fc ty own f Hinv ltac:(lia) Hroot Hf ltac:(lia) ltac:(lia)) as (st1 & own1 & E1 & Hinv1 & F1 & B1 & M1). rewrite (bind_step _ _ _ _ _ E1).
  set (i := freeinode st) in *. set (fc1 := fupd (fupd fc 1 (fc 1 ++ dirent_bytes i (shortname f))) i (data f)) in *.
  assert (fc1 1 = fc 1 ++ dirent_bytes i (shortname f)) as Ed by (unfold fc1; rewrite fupd_ne, fupd_eq by lia; done).
  assert (len (fc1 1) = len (fc 1) + 16) as El by (rewrite Ed, len_app, len_dirent; done).
  destruct (IH st1 fc1 (fupd ty i T_FILE) own1 Hinv1) as (st' & fc' & ty' & own' & E' & Hinv' & M' & F' & G' & R' & D' & O' & N').
  - lia.
  - lia.
  - rewrite fupd_ne by lia. done.
  - done.
  - lia.
  - rewrite El. replace (len (fc 1) + 16 + 16 * Z.of_nat (length files)) with (len (fc 1) + 16 * Z.of_nat (S (length files))) by lia. lia.
  - rewrite F1 in *. exists st', fc', ty', own'. split; [done|]. split; [done|]. split; [intros x Hx Hn; by rewrite M', M1|]. split; [lia|].
    split; [rewrite G', El, B1; replace (len (fc 1) + 16 + 16 * Z.of_nat (length files)) with (len (fc 1) + 16 * Z.of_nat (S (length files))) by lia; fold (sum_need files); lia|]. split; [done|].
    split; [by rewrite D', Ed, <- app_assoc|]. split.
    + intros j Hj. destruct (O' j ltac:(lia)) as [-> ->]. unfold fc1. rewrite !fupd_ne by lia. done.
    + intros k g Ek. destruct k as [|k]; cbn in Ek.
      * injection Ek as ->. rewrite Z.add_0_r. destruct (O' i ltac:(lia)) as [-> ->]. unfold fc1. by rewrite !fupd_eq.
      * replace (i + Z.of_nat (S k)) with (i + 1 + Z.of_nat k) by lia. by apply N'.
Qed.

(** ** The start *)

Lemma zero_loop n : forall i st, 0 <= i -> i + Z.of_nat n <= FSSIZE -> img st = (fun _ _ => 0) -> nsect st = i ->
  for_loop n i (fun i => wsect i (fun _ => 0)) st = Ret tt (set_img (fun _ _ => 0) (i + Z.of_nat n) st).
Proof.
  induction n as [|n IH]; intros i st Hi Hn Hz Hs; cbn [for_loop].
  - rewrite Z.add_0_r, <- Hz, <- Hs. by destruct st.
  - unfold bind, wsect, modify. rewrite sector_id by lia. rewrite IH; [|lia|lia| |cbn; lia].
    + f_equal. unfold set_img. cbn. f_equal. lia.
    + cbn. rewrite Hz. extensionality x. unfold fupd. destruct (x =? i); [|done]. extensionality o. unfold blit. by destruct (_ && _).
Qed.

Definition no_files : Z -> list Z := fun _ => [].

Lemma empty_inv st : whole st -> freeinode st = 1 -> freeblock st = nmeta -> (forall x, x <> 1 -> img st x = fun _ => 0) ->
  mk_inv st no_files (fun _ => 0) (fun _ => (0, 0)).
Proof.
  intros Hw Hf Hb Hz. assert (forall j, ino j -> dinode_at st j = read_dinode (fun _ => 0) (ino_off j)) as Hd.
  { intros j Hj. unfold dinode_at. destruct (iblock_eq j Hj) as (_ & Hr & _). by rewrite Hz by lia. }
  assert (forall j bn, ino j -> blk (img st) (fun j => d_addrs (dinode_at st j)) j bn = 0) as Hblk.
  { intros j bn Hj. unfold blk. rewrite Hd by done. by destruct (bn <? NDIRECT). }
  split; [split|split].
  - done.
  - rewrite Hf. mknum. lia.
  - intros j Hj. rewrite Hd by done. done.
  - intros j Hj. rewrite Hd by done. by split_and!; try left.
  - done.
  - rewrite Hb. mknum. lia.
  - intros j Hj. change (len (no_files j)) with 0. mknum. lia.
  - intros j bn Hj Hbn Hne. by rewrite Hblk in Hne.
  - intros j Hj Hne. by rewrite Hd in Hne.
  - intros j bn Hj Hbn Hl. change (len (no_files j)) with 0 in Hl. mknum. lia.
  - intros j bn Hj Hb1 Hb2 Hl. by apply Hblk.
  - intros j Hj Hl. by rewrite Hd.
  - intros x o Hx Ho. by rewrite Hz by (mknum; lia).
  - intros j o Hj Ho. change (len (no_files j)) with 0 in Ho. lia.
  - intros j o Hj Ho Hne. by rewrite Hblk in Hne.
  - intros x Hx. lia.
Qed.

(** ** The end *)

(** The finished image *)
Record made (st : mkst) (fc : Z -> list Z) (ty : Z -> Z) (own : Z -> Z * Z) : Prop := Made {
  md_whole : whole st;
  md_core : core (img st) (fun j => d_addrs (dinode_at st j)) (freeblock st) fc own;
  md_size j : ino j -> d_size (dinode_at st j) = (if j =? 1 then (len (fc 1) / BSIZE + 1) * BSIZE else len (fc j));
  md_type j : ino j -> d_type (dinode_at st j) = ty j /\ d_major (dinode_at st j) = 0 /\ d_minor (dinode_at st j) = 0 /\
    d_nlink (dinode_at st j) = (if ty j =? 0 then 0 else 1) /\ (ty j = 0 \/ ty j = T_DIR \/ ty j = T_FILE);
  md_root : len (fc 1) + BSIZE <= MAXFILE * BSIZE;
  md_sb : img st 1 = sb_bytes mk_sb;
  md_map : img st 46 = mark_used (Z.to_nat (freeblock st)) 0 (fun _ => 0);
}.

Lemma mark_used_bit n : forall i buf b, 0 <= i -> 0 <= b -> dbit (mark_used n i buf) b = ((i <=? b) && (b <? i + Z.of_nat n)) || dbit buf b.
Proof.
  induction n as [|n IH]; intros i buf b Hi Hb; cbn [mark_used].
  - destruct (Z.leb_spec i b), (Z.ltb_spec b (i + Z.of_nat 0)); cbn; done || lia.
  - rewrite IH by lia. fold (bit_mask i). rewrite (dbit_set buf i b) by lia.
    destruct (Z.leb_spec (i + 1) b), (Z.ltb_spec b (i + 1 + Z.of_nat n)), (Z.leb_spec i b), (Z.ltb_spec b (i + Z.of_nat (S n))), (Z.eqb_spec b i), (dbit buf b); cbn; done || lia.
Qed.

Lemma mark_used_out n : forall i buf x, 0 <= i -> x < 0 \/ i + Z.of_nat n <= x * 8 -> mark_used n i buf x = buf x.
Proof.
  induction n as [|n IH]; intros i buf x Hi Hx; cbn [mark_used]; [done|]. rewrite IH by lia. apply fupd_ne. dlia.
Qed.
Lemma mark_used_bytes n : forall i buf, bytes_ok buf -> bytes_ok (mark_used n i buf).
Proof. induction n as [|n IH]; intros i buf Hb; cbn [mark_used]; [done|]. apply IH, fupd_bytes_ok; [done|]. apply wrap_range. lia. Qed.

(** The last two steps: the size of the root directory and the free map *)
Lemma finish_run st fc ty own : mk_inv st fc ty own -> 1 < freeinode st -> ty 1 = T_DIR -> len (fc 1) + BSIZE <= MAXFILE * BSIZE -> img st 1 = sb_bytes mk_sb ->
  (forall o, o < 0 \/ BSIZE <= o -> img st 46 o = 0) ->
  exists st', (fix_root 1 ;;; used <- gets freeblock ;; Mkfs.balloc used) st = Ret tt st' /\ made st' fc ty own /\ freeblock st' = freeblock st.
Proof.
  intros [HI Hc] H1 Hty Hmax Hsb Hz. pose proof HI as [Hw Hfr Hs Ht Hu]. assert (ino 1) as Hi by (unfold ino; mknum; lia). assert (0 <= len (fc 1)) as L0 by (unfold len; lia).
  pose proof (c_fb _ _ _ _ _ Hc) as Hfb. destruct (Ht 1 Hi) as (T1 & T2 & T3 & T4 & _). rewrite Hty in T1, T4.
  unfold fix_root. rewrite bind_assoc. rewrite (bind_step _ _ _ _ _ (rinode_run st 1 Hw Hi)). cbv zeta. rewrite Hs by done. rewrite (xint_id (len (fc 1))) by (mknum; lia).
  rewrite wrap_small by (mknum; dlia). set (z := (len (fc 1) / BSIZE + 1) * BSIZE). assert (0 <= z <= MAXFILE * BSIZE) as Hzr by (unfold z; mknum; dlia). rewrite xint_id by (mknum; lia).
  destruct (winode_run st 1 (with_dsize z (dinode_at st 1)) Hw Hi) as (st1 & E1 & W1 & F1 & B1 & Hb & (V1 & V2 & V3 & V4 & V5 & V6) & Ho).
  { split; cbn [with_dsize d_type d_major d_minor d_nlink d_size d_addrs]; rewrite ?T1, ?T2, ?T3, ?T4; [split; vm_compute; congruence..|mknum; lia|].
    intros k Hk. by apply (addrs_ok st fc own 1). }
  rewrite (bind_step _ _ _ _ _ E1). rewrite (bind_step (gets _) _ st1 (freeblock st1) st1) by done. unfold Mkfs.balloc.
  rewrite (proj2 (Z.ltb_lt (freeblock st1) BPB)) by (change BPB with 8192; mknum; lia). unfold assert_or. rewrite bind_ret_l. change (sb_bmapstart mk_sb) with 46.
  set (d := mark_used _ _ _). assert (forall y, y < 0 \/ BSIZE <= y -> d y = img st1 46 y) as Hd.
  { intros y Hy. rewrite Hb, Hz by (done || lia). apply mark_used_out; [lia|]. mknum. lia. }
  rewrite (wsect_run st1 46 d W1 ltac:(mknum; lia) Hd). set (st2 := set_img _ _ _). exists st2. split; [done|].
  assert (forall j, ino j -> dinode_at st2 j = dinode_at st1 j) as Hd2.
  { intros j Hj. destruct (iblock_eq j Hj) as (_ & Hr & _). unfold dinode_at, st2. cbn [img set_img]. by rewrite fupd_ne by lia. }
  split; [split|done].
  - apply whole_img; [done|]. apply mark_used_bytes. intros o. lia.
  - change (freeblock st2) with (freeblock st1). rewrite B1. eapply core_ext; [exact Hc|..].
    + intros x Hx. unfold st2. cbn [img set_img]. rewrite fupd_ne by (mknum; lia). apply Hb. mknum. lia.
    + intros j k Hj Hk. rewrite Hd2 by done. destruct (Z.eq_dec j 1) as [-> |Hne]; [by apply V6|by apply (Ho j Hj Hne)].
  - intros j Hj. rewrite Hd2 by done. destruct (Z.eqb_spec j 1) as [-> |Hne]; [done|]. rewrite <- Hs by done. by apply (Ho j Hj Hne).
  - intros j Hj. rewrite Hd2 by done. destruct (Z.eq_dec j 1) as [-> |Hne]; [rewrite V1, V2, V3, V4; by apply Ht|].
    destruct (Ho j Hj Hne) as (-> & -> & -> & -> & _). by apply Ht.
  - done.
  - unfold st2. cbn [img set_img]. rewrite fupd_ne by lia. by rewrite Hb by lia.
  - unfold st2. cbn [img set_img]. apply fupd_eq.
Qed.

Lemma mkfs_made files : Forall good_input files -> Z.of_nat (length files) + 2 <= NINODES ->
  nmeta + need (16 * (Z.of_nat (length files) + 2)) + sum_need files <= FSSIZE ->
  exists st fc ty own, mkfs files = Ret tt st /\ made st fc ty own /\ ty 1 = T_DIR /\
    fc 1 = dirent_bytes 1 [46] ++ dirent_bytes 1 [46; 46] ++ dir_bytes 2 files /\
    freeblock st = nmeta + need (16 * (Z.of_nat (length files) + 2)) + sum_need files /\
    forall k f, files !! k = Some f -> fc (2 + Z.of_nat k) = data f /\ ty (2 + Z.of_nat k) = T_FILE.
Proof.
  intros Hg Hn Hroom. set (n := Z.of_nat (length files)) in *. pose proof (sum_need_nonneg files) as Hsn. unfold mkfs, main. unfold bind at 1, modify at 1.
  rewrite (bind_step _ _ _ _ _ (zero_loop (Z.to_nat FSSIZE) 0 (set_freeblock nmeta mkfs_init) ltac:(lia) ltac:(mknum; lia) eq_refl eq_refl)).
  set (st0 := set_img _ _ _). assert (whole st0) as W0 by (split; [done|intros x o; cbn; lia]).
  assert (forall y, y < 0 \/ BSIZE <= y -> sb_bytes mk_sb y = img st0 1 y) as Hsb by (intros y Hy; unfold sb_bytes; rewrite !st_other by (mknum; lia); done).
  rewrite (bind_step _ _ _ _ _ (wsect_run st0 1 _ W0 ltac:(mknum; lia) Hsb)). set (st1 := set_img _ _ st0).
  assert (mk_inv st1 no_files (fun _ => 0) (fun _ => (0, 0))) as I1.
  { apply empty_inv; [|done|done|intros x Hx; cbn; by apply fupd_ne]. apply whole_img; [done|]. unfold sb_bytes. repeat apply st_bytes_ok. intros o. lia. }
  destruct (ialloc_run st1 _ _ _ T_DIR I1 ltac:(cbn; mknum; lia) ltac:(by left)) as (st2 & E2 & I2 & F2 & B2 & M2). change (freeinode st1) with 1 in *.
  rewrite (bind_step _ _ _ _ _ E2). change (1 =? ROOTINO) with true. unfold assert_or at 1. rewrite bind_ret_l. set (ty2 := fupd (fun _ => 0) 1 T_DIR) in *.
  assert (ty2 1 = T_DIR) as Ht2 by apply fupd_eq. change (freeblock st1) with nmeta in B2.
  assert (1 <= need 32 /\ need 32 <= need (16 * (n + 2)) /\ need 16 = 1 /\ need 0 = 0) as (N1 & N2 & N3 & N4) by (split; [by vm_compute|split; [apply need_mono; lia|done]]).
  destruct (iappend_run st2 _ ty2 _ 1 (dirent 1 [46]) DIRENT_SIZE I2) as (st3 & own3 & E3 & I3 & F3 & B3 & M3);
    [lia|by left|apply dirent_ok; repeat constructor|done|by vm_compute|rewrite B2; by vm_compute|].
  change DIRENT_SIZE with 16 in B3. change (len (no_files 1)) with 0 in B3. rewrite N4 in B3. change (0 + 16) with 16 in B3. rewrite N3 in B3.
  rewrite (bind_step _ _ _ _ _ E3). fold (dirent_bytes 1 [46]) in I3. set (fc3 := fupd no_files 1 _) in I3. assert (fc3 1 = dirent_bytes 1 [46]) as D3 by apply fupd_eq.
  destruct (iappend_run st3 fc3 ty2 own3 1 (dirent 1 [46; 46]) DIRENT_SIZE I3) as (st4 & own4 & E4 & I4 & F4 & B4 & M4);
    [lia|by left|apply dirent_ok; repeat constructor|done|rewrite D3, len_dirent; by vm_compute|rewrite D3, len_dirent, B3, B2; by vm_compute|].
  rewrite D3, len_dirent in B4. change DIRENT_SIZE with 16 in B4. change (16 + 16) with 32 in B4. rewrite N3 in B4. change (need 32) with 1 in *.
  rewrite (bind_step _ _ _ _ _ E4). fold (dirent_bytes 1 [46; 46]) in I4. set (fc4 := fupd fc3 1 _) in I4. assert (fc4 1 = dirent_bytes 1 [46] ++ dirent_bytes 1 [46; 46]) as D4
    by (unfold fc4; rewrite fupd_eq, D3; done).
  assert (len (fc4 1) = 32) as L4 by (rewrite D4, len_app, !len_dirent; done).
  destruct (add_files_run files st4 fc4 ty2 own4 I4) as (st5 & fc & ty & own & E5 & I5 & M5 & F5 & G5 & R5 & D5 & _ & N5); rewrite ?L4; fold n.
  { lia. } { lia. } { done. } { done. } { mknum. lia. } { replace (32 + 16 * n) with (16 * (n + 2)) by lia. change (need 32) with 1. mknum. lia. }
  rewrite (bind_step _ _ _ _ _ E5). assert (freeinode st4 = 2) as F24 by lia. rewrite F24 in *. assert (len (fc 1) = 32 + 16 * n) as L5 by (rewrite D5, len_app, L4, len_dir_bytes; done).
  assert (forall x, x < nmeta -> ~ 33 <= x < 46 -> img st5 x = img st1 x) as Hmeta by (intros x Hx Hnx; rewrite M5, M4, M3, M2 by done; done).
  destruct (finish_run st5 fc ty own I5) as (st' & E' & Hmade & G6).
  { lia. } { done. } { mknum. lia. } { rewrite Hmeta by (mknum; lia). unfold st1. cbn [img set_img]. apply fupd_eq. }
  { intros o Ho. rewrite Hmeta by (mknum; lia). unfold st1. cbn [img set_img]. by rewrite fupd_ne by lia. }
  exists st', fc, ty, own. split; [exact E'|]. split; [done|]. split; [done|]. split; [by rewrite D5, D4, <- app_assoc|]. split; [|done].
  rewrite G6, G5, L4, B4, B3, B2. fold n. replace (32 + 16 * n) with (16 * (n + 2)) by lia. change (need 32) with 1. lia.
Qed.

(** ** The kernel's view *)

(** The block numbers of inode [i] on the disk, and the blocks it has: data
    blocks, direct or through the indirect block, and the indirect block. *)
Definition disk_addrs {U} (s : fstate U) (i : Z) : Z -> Z := d_addrs (read_dinode (blocks s (IBLOCK i (sb s))) (ino_off i)).
Definition has_block {U} (s : fstate U) (i x : Z) : Prop :=
  (exists bn, 0 <= bn < MAXFILE /\ blk (blocks s) (disk_addrs s) i bn = x) \/ disk_addrs s i NDIRECT = x.

Lemma layout_mk : layout mk_sb.
Proof. split; vm_compute; try split; congruence. Qed.

Section view.
Context {U : Type} (st : mkst) (fc : Z -> list Z) (ty : Z -> Z) (own : Z -> Z * Z) (s : fstate U).
Hypothesis Hm : made st fc ty own.
Hypothesis Hb : blocks s = img st.
Hypothesis Hs : sb s = mk_sb.

Lemma readsb_run : readsb s = Ret mk_sb s.
Proof.
  unfold readsb, bind, bdata_of, gets, ret. rewrite Hb, (md_sb _ _ _ _ Hm). vm_compute (ld32 (sb_bytes mk_sb) _). done.
Qed.

Lemma used_eq b : 0 <= b < FSSIZE -> used s b = (b <? freeblock st).
Proof.
  intros Hr. unfold used. rewrite Hs, Hb. assert (BBLOCK b mk_sb = 46) as -> by (unfold BBLOCK; change BPB with 8192; change (sb_bmapstart mk_sb) with 46; mknum; rewrite wrap_small; dlia).
  rewrite (md_map _ _ _ _ Hm). change BPB with 8192. rewrite Z.mod_small by (mknum; lia). pose proof (c_fb _ _ _ _ _ (md_core _ _ _ _ Hm)).
  rewrite mark_used_bit by lia. rewrite (proj2 (Z.leb_le 0 b)), Z2Nat.id by (mknum; lia). unfold dbit. rewrite Z.testbit_0_l, orb_false_r. done.
Qed.

Lemma image_alloc : alloc_inv s.
Proof.
  split; rewrite Hs; [exact layout_mk|]. intros b Hr. change (dstart mk_sb) with 47 in Hr. pose proof (c_fb _ _ _ _ _ (md_core _ _ _ _ Hm)) as Hfb.
  rewrite used_eq by (mknum; lia). apply Z.ltb_lt. mknum. lia.
Qed.

Lemma image_bytes : all_bytes s.
Proof. intros b. rewrite Hb. apply (md_whole _ _ _ _ Hm). Qed.

Section inode.
Context (j : Z) (ip : inode).
Hypothesis Hj : ino j.
Hypothesis Hip : i_addrs ip = d_addrs (dinode_at st j).
Let A := fun j => d_addrs (dinode_at st j).

Lemma view_blk bn : fblk s ip bn = blk (img st) A j bn.
Proof. unfold fblk, blk, ind, A. by rewrite Hip, Hb. Qed.

Lemma view_data x : nmeta <= x < freeblock st -> data_block s x.
Proof.
  intros Hx. pose proof (c_fb _ _ _ _ _ (md_core _ _ _ _ Hm)). unfold data_block. rewrite Hs. change (dstart mk_sb) with 47. change (sb_size mk_sb) with 2000.
  rewrite used_eq by (mknum; lia). split; [mknum; lia|]. apply Z.ltb_lt. lia.
Qed.

Lemma view_wf : file_wf s ip.
Proof.
  pose proof (md_core _ _ _ _ Hm) as Hc. split.
  - intros bn Hbn. rewrite view_blk. destruct (Z.eq_dec (blk (img st) A j bn) 0) as [|Hne]; [by left|right]. apply view_data. by apply (c_blk _ _ _ _ _ Hc).
  - unfold ind. rewrite Hip. destruct (Z.eq_dec (d_addrs (dinode_at st j) NDIRECT) 0) as [|Hne]; [by left|right]. apply view_data. by apply (c_ind _ _ _ _ _ Hc).
  - intros bn bn' H1 H2. rewrite !view_blk. intros Hne E. destruct (c_blk _ _ _ _ _ Hc j bn Hj H1 Hne) as [_ O1].
    destruct (c_blk _ _ _ _ _ Hc j bn' Hj H2) as [_ O2]; [unfold A in *; congruence|]. fold A in O1, O2. rewrite E, O2 in O1. congruence.
  - intros bn H1. rewrite view_blk. intros Hne E. unfold ind in E. rewrite Hip in E. destruct (c_blk _ _ _ _ _ Hc j bn Hj H1 Hne) as [_ O1].
    fold A in O1. rewrite E in O1. destruct (c_ind _ _ _ _ _ Hc j Hj) as [_ O2]; [rewrite E in Hne; done|]. rewrite O1 in O2. injection O2 as ?. lia.
Qed.

Lemma view_byte o : 0 <= o < len (fc j) -> Some (fbyte s ip o) = fc j !! Z.to_nat o.
Proof.
  intros Ho. pose proof (md_core _ _ _ _ Hm) as Hc. rewrite <- (c_byte _ _ _ _ _ Hc j o Hj Ho). unfold fbyte. rewrite view_blk, Hb.
  rewrite (proj2 (Z.eqb_neq _ 0)); [done|]. apply (c_has _ _ _ _ _ Hc); [done|mknum; dlia|mknum; dlia].
Qed.

Lemma view_zero o : len (fc j) <= o < MAXFILE * BSIZE -> fbyte s ip o = 0.
Proof.
  intros Ho. pose proof (md_core _ _ _ _ Hm) as Hc. unfold fbyte. rewrite view_blk, Hb. destruct (Z.eqb_spec (blk (img st) A j (o / BSIZE)) 0) as [|Hne]; [done|].
  by apply (c_tail _ _ _ _ _ Hc).
Qed.
End inode.

(** Whose the blocks are *)
Lemma disk_addrs_eq j : disk_addrs s j = d_addrs (dinode_at st j).
Proof. unfold disk_addrs, dinode_at. by rewrite Hb, Hs. Qed.

Lemma image_has j x : has_block s j x <-> (exists bn, 0 <= bn < MAXFILE /\ blk (img st) (fun j => d_addrs (dinode_at st j)) j bn = x) \/ d_addrs (dinode_at st j) NDIRECT = x.
Proof. unfold has_block, blk. by rewrite !disk_addrs_eq, Hb. Qed.

Lemma image_owner j x : ino j -> x <> 0 -> has_block s j x -> nmeta <= x < freeblock st /\ fst (own x) = j.
Proof.
  pose proof (md_core _ _ _ _ Hm) as Hc. intros Hj Hx Hh%image_has. destruct Hh as [(bn & Hbn & E)|E].
  - destruct (c_blk _ _ _ _ _ Hc j bn Hj Hbn) as [Hr Ho]; rewrite E in *; [done|]. by rewrite Ho.
  - destruct (c_ind _ _ _ _ _ Hc j Hj) as [Hr Ho]; rewrite E in *; [done|]. by rewrite Ho.
Qed.

Lemma image_used x : nmeta <= x < FSSIZE -> used s x = true <-> exists j, ino j /\ has_block s j x.
Proof.
  intros Hx. pose proof (md_core _ _ _ _ Hm) as Hc. rewrite used_eq by (mknum; lia). rewrite Z.ltb_lt. split.
  - intros Hlt. destruct (c_all _ _ _ _ _ Hc x ltac:(lia)) as [Hj H]. exists (fst (own x)). split; [done|]. apply image_has. destruct H as [[_ H]|[Hr H]]; [by right|left; by eexists].
  - intros (j & Hj & Hh). destruct (image_owner j x Hj ltac:(mknum; lia) Hh). lia.
Qed.

(** ilock of a slot that holds no inode yet loads the inode [j]. *)
Lemma image_ilock k j : ino j -> ty j <> 0 -> k <> NULL -> 1 <= i_ref (itable s k) -> i_locked (itable s k) = 0 -> i_valid (itable s k) = 0 -> i_inum (itable s k) = j ->
  exists s', ilock k s = Ret tt s' /\ blocks s' = img st /\ sb s' = mk_sb /\ itable s' k = with_valid 1 (with_disk_part (dinode_at st j) (with_lock 1 (mypid s) (itable s k))).
Proof.
  intros Hj Ht Hk Hr Hl Hv Hn. unfold ilock, inode_of. rewrite (bind_step (gets _) _ s (itable s k) s) by done. rewrite (proj2 (Z.eqb_neq k NULL)), (proj2 (Z.ltb_ge _ 1)) by done. cbn [orb].
  unfold acquiresleep_i. rewrite (bind_step _ _ s tt (on_inode k (with_lock 1 (mypid s)) s)).
  2: { rewrite (bind_step get _ s s s) by done. by rewrite Hl. }
  rewrite Hv. cbn [Z.eqb when]. unfold bind, gets, bdata_of, gets, modify, ret, panic. cbn [sb on_inode blocks]. rewrite Hs, Hb, Hn. fold (dinode_at st j).
  destruct (md_type _ _ _ _ Hm j Hj) as (-> & _). rewrite (proj2 (Z.eqb_neq (ty j) 0)) by done. eexists. split; [reflexivity|]. split; [done|]. split; [done|].
  cbn [itable on_inode]. by rewrite !fupd_eq.
Qed.
End view.

(** A loaded inode is a file of the kernel. *)
Lemma image_file {U} st fc ty own (s : fstate U) k j ip : made st fc ty own -> blocks s = img st -> sb s = mk_sb -> ino j -> itable s k = with_valid 1 (with_disk_part (dinode_at st j) ip) ->
  i_inum ip = j -> file_at k s.
Proof.
  intros Hm Hb Hs Hj Ht Hn. pose proof (md_core _ _ _ _ Hm) as Hc. destruct (md_type _ _ _ _ Hm j Hj) as (T1 & T2 & T3 & T4 & T5).
  split; rewrite ?Ht; cbn [with_valid with_disk_part i_inum i_size i_type i_major i_minor i_nlink].
  - by eapply image_alloc.
  - by eapply (view_wf st fc ty own s Hm Hb Hs j).
  - rewrite Hn, Hs. exact Hj.
  - rewrite (md_size _ _ _ _ Hm j Hj). pose proof (md_root _ _ _ _ Hm). pose proof (c_len _ _ _ _ _ Hc j Hj). assert (0 <= len (fc j) /\ 0 <= len (fc 1)) by (unfold len; lia).
    destruct (j =? 1); mknum; dlia.
  - rewrite T1, T2, T3, T4. unfold short_ok, T_DIR, T_FILE in *. destruct (ty j =? 0); lia.
Qed.

(** ** The root directory *)

(** What its entries are *)
Definition root_entries (files : list input) : list dent := [(1, [46]); (1, [46; 46])] ++ imap (fun k f => (2 + Z.of_nat k, shortname f)) files.

Lemma dirent_read c k inum name : 0 <= inum < 2 ^ 16 -> Forall (fun v => 0 < v < 256) name -> Z.of_nat (length name) <= DIRSIZ ->
  (forall x, 0 <= x < DIRENT_SIZE -> c (DIRENT_SIZE * k + x) = dirent inum name x) -> get_dent c k = (inum, name).
Proof.
  intros Hi Hn Hl Hc. change DIRENT_SIZE with 16 in *. change DIRSIZ with 14 in *. unfold get_dent. change DIRENT_SIZE with 16. f_equal.
  - rewrite (ld_shift 2 c (dirent inum name) (16 * k) 0) by (intros x Hx; rewrite Z.add_0_l; apply Hc; lia). unfold dirent.
    rewrite (ld_ext 2 _ (st16 (fun _ => 0) 0 (xshort inum))) by (intros x Hx; apply store_list_other; lia). rewrite xshort_id, ld_st_same by lia. apply Z.mod_small. lia.
  - rewrite (cprefix_shift _ c (dirent inum name) (16 * k + 2) 2) by (change (Z.of_nat (Z.to_nat DIRSIZ)) with 14; intros x Hx; rewrite <- Z.add_assoc; apply Hc; lia).
    assert (forall n m a, Forall (fun v => 0 < v < 256) n -> (length n <= Z.to_nat DIRSIZ)%nat -> forall q, (length n <= q)%nat -> (forall x, a + Z.of_nat (length n) <= x < a + Z.of_nat q -> m x = 0) ->
      cprefix q (store_list m a n) a = n) as Hgen; [|apply Hgen; [done|change (Z.to_nat DIRSIZ) with 14%nat; lia..|intros x Hx; rewrite st_other by lia; done]].
    induction n as [|v n IH]; intros m a Hv Hln q Hq Hz; destruct q as [|q]; cbn [store_list cprefix length] in *; [done| |lia|].
    + by rewrite Hz by lia.
    + apply Forall_cons in Hv as [Hv Hvs]. rewrite store_list_other, fupd_eq, (proj2 (Z.eqb_neq v 0)) by lia. f_equal.
      apply IH; [done|lia|lia|]. intros x Hx. rewrite fupd_ne by lia. apply Hz. lia.
Qed.

Lemma dirent_lookup i name x : 0 <= x < 16 -> dirent_bytes i name !! Z.to_nat x = Some (dirent i name x).
Proof. intros Hx. unfold dirent_bytes. rewrite slice_lookup by (change (Z.to_nat DIRENT_SIZE) with 16%nat; lia). do 2 f_equal. lia. Qed.

Lemma dir_bytes_lookup files : forall i k f x, files !! k = Some f -> 0 <= x < 16 -> dir_bytes i files !! Z.to_nat (16 * Z.of_nat k + x) = Some (dirent (i + Z.of_nat k) (shortname f) x).
Proof.
  induction files as [|g files IH]; intros i k f x Ek Hx; [done|]. cbn [dir_bytes]. assert (length (dirent_bytes i (shortname g)) = 16%nat) as L by apply length_slice.
  destruct k as [|k]; cbn in Ek.
  - injection Ek as ->. rewrite lookup_app_l by lia. rewrite Z.add_0_r. apply dirent_lookup. lia.
  - rewrite lookup_app_r by lia. rewrite L. replace (Z.to_nat (16 * Z.of_nat (S k) + x) - 16)%nat with (Z.to_nat (16 * Z.of_nat k + x)) by lia.
    rewrite (IH (i + 1) k f x Ek Hx). do 2 f_equal. lia.
Qed.

Lemma root_lookup files k e x : Forall good_input files -> root_entries files !! k = Some e -> 0 <= x < 16 ->
  (dirent_bytes 1 [46] ++ dirent_bytes 1 [46; 46] ++ dir_bytes 2 files) !! Z.to_nat (16 * Z.of_nat k + x) = Some (dirent (fst e) (snd e) x) /\
  Forall (fun v => 0 < v < 256) (snd e) /\ Z.of_nat (length (snd e)) <= DIRSIZ /\ (fst e = 1 \/ fst e = Z.of_nat k).
Proof.
  intros Hg Ek Hx. assert (forall i name, length (dirent_bytes i name) = 16%nat) as L by (intros; apply length_slice).
  unfold root_entries in Ek. destruct k as [|[|k]]; cbn [app lookup list_lookup] in Ek.
  - injection Ek as <-. rewrite lookup_app_l by (rewrite L; lia). split; [by apply dirent_lookup|]. split; [repeat constructor|]. split; [by vm_compute|by left].
  - injection Ek as <-. rewrite lookup_app_r, lookup_app_l by (rewrite !L; lia). rewrite L. replace (Z.to_nat (16 * Z.of_nat 1 + x) - 16)%nat with (Z.to_nat x) by lia.
    split; [by apply dirent_lookup|]. split; [repeat constructor|]. split; [by vm_compute|by left].
  - change (imap (fun k f => (2 + Z.of_nat k, shortname f)) files !! k = Some e) in Ek. rewrite list_lookup_imap in Ek. destruct (files !! k) as [f|] eqn:Ef; [|done]. injection Ek as <-. cbn [fst snd].
    rewrite !lookup_app_r by (rewrite !L; lia). rewrite !L. replace (Z.to_nat (16 * Z.of_nat (S (S k)) + x) - 16 - 16)%nat with (Z.to_nat (16 * Z.of_nat k + x)) by lia.
    rewrite (dir_bytes_lookup files 2 k f x Ef Hx). split; [done|]. destruct (proj1 (Forall_lookup good_input files) Hg k f Ef). split; [done|]. split; [done|right; lia].
Qed.

Lemma image_entries {U} files st fc ty own (s : fstate U) k ip : Forall good_input files -> Z.of_nat (length files) + 2 <= NINODES -> made st fc ty own ->
  fc 1 = dirent_bytes 1 [46] ++ dirent_bytes 1 [46; 46] ++ dir_bytes 2 files -> blocks s = img st -> sb s = mk_sb -> itable s k = with_valid 1 (with_disk_part (dinode_at st 1) ip) ->
  exists r, entries s k = root_entries files ++ replicate r (0, []).
Proof.
  intros Hg Hn Hm Hd Hb Hs Ht. assert (ino 1) as Hi by (unfold ino; mknum; lia). assert (i_addrs (itable s k) = d_addrs (dinode_at st 1)) as Ea by by rewrite Ht.
  assert (len (fc 1) = 16 * (Z.of_nat (length files) + 2)) as Hl by (rewrite Hd, !len_app, !len_dirent, len_dir_bytes; lia).
  assert (length (root_entries files) = (length files + 2)%nat) as Lr by (unfold root_entries; rewrite length_app, length_imap; cbn; lia).
  assert (i_size (itable s k) = (len (fc 1) / BSIZE + 1) * BSIZE) as Hsz by (rewrite Ht; exact (md_size _ _ _ _ Hm 1 Hi)).
  set (n := Z.of_nat (length files)) in *. set (q := ndents s k). assert (n + 2 <= q /\ 16 * q <= MAXFILE * BSIZE) as [Hq Hqm].
  { unfold q, ndents. rewrite Hsz, Hl. change DIRENT_SIZE with 16. mknum. dlia. }
  exists (Z.to_nat (q - (n + 2))). apply list_eq_same_length with (n := Z.to_nat q).
  - rewrite length_app, length_replicate, Lr. lia.
  - unfold entries. rewrite length_fmap, length_seqZ. done.
  - intros i x y Hir Ex Ey. unfold entries in Ex. rewrite list_lookup_fmap, lookup_seqZ_lt in Ex by (fold q; lia). cbn [fmap option_fmap option_map] in Ex. rewrite Z.add_0_l in Ex. injection Ex as <-.
    destruct (decide (i < length (root_entries files))%nat) as [Hlt|Hge].
    + rewrite lookup_app_l in Ey by done. destruct y as [inum name]. apply (dirent_read _ (Z.of_nat i) inum name);
        [|apply (root_lookup files i _ 0 Hg Ey ltac:(lia))..|].
      * destruct (root_lookup files i _ 0 Hg Ey ltac:(lia)) as (_ & _ & _ & Hc). cbn in Hc. mknum. lia.
      * intros x Hx. change DIRENT_SIZE with 16 in *. destruct (root_lookup files i _ x Hg Ey Hx) as [Hr _]. rewrite <- Hd in Hr. cbn [fst snd] in Hr.
        pose proof (view_byte st fc ty own s Hm Hb 1 (itable s k) Hi Ea (16 * Z.of_nat i + x) ltac:(lia)) as Hv. rewrite Hr in Hv. by injection Hv.
    + rewrite lookup_app_r in Ey by lia. apply lookup_replicate_1 in Ey as [-> _]. unfold get_dent. change DIRENT_SIZE with 16.
      assert (forall o, 16 * Z.of_nat i <= o < 16 * Z.of_nat i + 16 -> fbyte s (itable s k) o = 0) as Hz by (intros o Ho; apply (view_zero st fc ty own s Hm Hb 1 (itable s k) Hi Ea); lia).
      f_equal; [by rewrite (ld_ext 2 _ (fun _ => 0)) by (intros o Ho; apply Hz; lia)|].
      change (Z.to_nat DIRSIZ) with 14%nat. cbn [cprefix]. by rewrite Hz by lia.
Qed.

(** A slot of the inode table that iget has just taken *)
Record new_slot {U} (s : fstate U) (k : Z) : Prop := NewSlot {
  ns_slot : k <> NULL;
  ns_ref : 1 <= i_ref (itable s k);
  ns_free : i_locked (itable s k) = 0;
  ns_invalid : i_valid (itable s k) = 0;
}.

(** C15. mkfs and the kernel agree. For inputs with names that fit a directory
    entry, not more of them than there are inodes and with contents that fit the
    disk, mkfs succeeds, and on its image the kernel finds: the super block that
    mkfs intended; a free map in the state the block allocator requires, in which
    exactly the blocks before the data and those that belong to some inode are
    used, as many as the contents need, and all others are free; for the inode of
    every input, a file with exactly the bytes that were read, in whatever
    pieces, and no block that belongs to two inodes; and a root directory with the entries for itself
    and for each input under its name without directory and underscore, followed
    by free entries. All its blocks are allocated unless the entries fill whole
    blocks exactly. *)
Theorem mkfs_correct files : Forall good_input files -> Z.of_nat (length files) + 2 <= NINODES ->
  nmeta + need (16 * (Z.of_nat (length files) + 2)) + sum_need files <= FSSIZE ->
  exists st, mkfs files = Ret tt st /\ forall U (s : fstate U), blocks s = img st -> sb s = mk_sb ->
    readsb s = Ret mk_sb s /\ alloc_inv s /\ all_bytes s /\
    (forall b, 0 <= b < FSSIZE -> used s b = (b <? nmeta + need (16 * (Z.of_nat (length files) + 2)) + sum_need files)) /\
    (forall b, nmeta <= b < FSSIZE -> used s b = true <-> exists i, ino i /\ has_block s i b) /\
    (forall i j b, ino i -> ino j -> b <> 0 -> has_block s i b -> has_block s j b -> i = j) /\
    forall k, new_slot s k ->
      (i_inum (itable s k) = ROOTINO -> exists s' r, ilock k s = Ret tt s' /\ file_at k s' /\ i_type (itable s' k) = T_DIR /\ i_nlink (itable s' k) = 1 /\
        entries s' k = root_entries files ++ replicate r (0, []) /\ ((Z.of_nat (length files) + 2) mod 64 <> 0 -> dir_ok s' k)) /\
      (forall m f, files !! m = Some f -> i_inum (itable s k) = 2 + Z.of_nat m -> exists s', ilock k s = Ret tt s' /\ file_at k s' /\
        i_type (itable s' k) = T_FILE /\ i_nlink (itable s' k) = 1 /\ i_size (itable s' k) = len (data f) /\
        slice (length (data f)) (fbyte s' (itable s' k)) 0 = data f).
Proof.
  intros Hg Hn Hroom. destruct (mkfs_made files Hg Hn Hroom) as (st & fc & ty & own & E & Hm & Hroot & Hd & Hfb & Hfiles). exists st. split; [done|]. intros U s Hb Hs.
  split; [by eapply readsb_run|]. split; [by eapply image_alloc|]. split; [by eapply image_bytes|].
  split; [intros b Hr; rewrite <- Hfb; by apply (used_eq st fc ty own s Hm Hb Hs)|]. split; [intros b; by apply (image_used st fc ty own s Hm Hb Hs)|]. split.
  { intros i j b Hi Hj H0 H1 H2. destruct (image_owner st fc ty own s Hm Hb Hs i b Hi H0 H1) as [_ <-]. by apply (image_owner st fc ty own s Hm Hb Hs j b Hj H0 H2). }
  intros k [K1 K2 K3 K4]. split.
  - intros Hi. assert (ino 1) as H1 by (unfold ino; mknum; lia).
    destruct (image_ilock st fc ty own s Hm Hb Hs k 1 H1 ltac:(rewrite Hroot; done) K1 K2 K3 K4 Hi) as (s' & E' & B' & S' & T').
    destruct (image_entries files st fc ty own s' k _ Hg Hn Hm Hd B' S' T') as [r Hr]. destruct (md_type _ _ _ _ Hm 1 H1) as (T1 & _ & _ & T4 & _). rewrite Hroot in T1, T4.
    assert (i_type (itable s' k) = T_DIR) as Ht by (rewrite T'; exact T1). assert (file_at k s') as Hf by (by eapply (image_file st fc ty own)).
    exists s', r. split; [done|]. split; [done|]. split; [done|]. split; [rewrite T'; exact T4|]. split; [done|]. intros Hmod.
    assert (i_size (itable s' k) = (len (fc 1) / BSIZE + 1) * BSIZE) as Hsz by (rewrite T'; exact (md_size _ _ _ _ Hm 1 H1)).
    assert (len (fc 1) = 16 * (Z.of_nat (length files) + 2)) as Hl by (rewrite Hd, !len_app, !len_dirent, len_dir_bytes; lia).
    split; [done|done|rewrite Hsz; change DIRENT_SIZE with 16; mknum; dlia|]. intros bn H0 Hbn. rewrite Hsz, Hl in Hbn.
    rewrite (view_blk st s' B' 1 (itable s' k)) by (by rewrite T'). apply (c_has _ _ _ _ _ (md_core _ _ _ _ Hm)); [done|done|]. rewrite Hl. mknum. dlia.
  - intros m f Ef Hi. destruct (Hfiles m f Ef) as [Hc Ht]. pose proof (lookup_lt_Some _ _ _ Ef) as Hlt. assert (ino (2 + Z.of_nat m)) as Hj by (unfold ino; lia).
    destruct (image_ilock st fc ty own s Hm Hb Hs k (2 + Z.of_nat m) Hj ltac:(rewrite Ht; done) K1 K2 K3 K4 Hi) as (s' & E' & B' & S' & T').
    destruct (md_type _ _ _ _ Hm _ Hj) as (T1 & _ & _ & T4 & _). rewrite Ht in T1, T4. exists s'. split; [done|]. split; [by eapply (image_file st fc ty own)|].
    split; [rewrite T'; exact T1|]. split; [rewrite T'; exact T4|]. pose proof (md_size _ _ _ _ Hm _ Hj) as Hsz. rewrite (proj2 (Z.eqb_neq _ 1)), Hc in Hsz by lia.
    split; [rewrite T'; exact Hsz|]. apply list_eq_same_length with (n := length (data f)); [done|apply length_slice|]. intros i x y Hir Ex Ey.
    rewrite slice_lookup in Ex by done. injection Ex as <-. rewrite Z.add_0_l.
    pose proof (view_byte st fc ty own s' Hm B' (2 + Z.of_nat m) (itable s' k) Hj ltac:(by rewrite T') (Z.of_nat i)) as Hv. rewrite Hc, Nat2Z.id, Ey in Hv.
    specialize (Hv ltac:(unfold len; lia)). by injection Hv.
Qed.

Definition two_files : list input := [([117; 115; 101; 114; 47; 95; 97], Some [[1; 2; 3]; [4; 5]]); ([98], Some [])].

Lemma mkfs_correct_witness : exists st, mkfs two_files = Ret tt st /\
  let s := FState (img st) [] mk_sb (fun _ => Inode 1 2 1 0 0 0 0 0 0 0 0 (fun _ => 0)) (fun _ => 0) tt 1 0 in
  used s 48 = true /\ used s 49 = false /\ exists s', ilock 0 s = Ret tt s' /\ slice 5 (fbyte s' (itable s' 0)) 0 = [1; 2; 3; 4; 5].
Proof.
  destruct (mkfs_correct two_files) as (st & E & H).
  - repeat (apply Forall_cons; split); [split..|apply Forall_nil; exact I]; try (vm_compute; congruence); try (eexists; reflexivity); apply (bool_decide_unpack _); vm_compute; exact I.
  - vm_compute. congruence.
  - vm_compute. congruence.
  - exists st. split; [exact E|]. intros s. destruct (H unit s eq_refl eq_refl) as (_ & _ & _ & Hu & _ & _ & Hk).
    destruct (Hk 0 ltac:(split; vm_compute; congruence)) as [_ Hf]. destruct (Hf 0%nat _ eq_refl eq_refl) as (s' & E' & _ & _ & _ & _ & Hs).
    split; [rewrite Hu by (vm_compute; split; congruence); vm_compute; reflexivity|]. split; [rewrite Hu by (vm_compute; split; congruence); vm_compute; reflexivity|].
    exists s'. split; [exact E'|exact Hs].
Defined.
