(* ===== verification/Uart.v ===== *)
(** * kernel/uart.c: the serial port

    The 16550 is a parameter: reading and writing its registers ([Uart]), with
    what its documentation promises ([UartLaws]): a queue of at most sixteen
    bytes to send, a queue of received bytes, and the status bits. The code
    that transmits runs on several CPUs at once: uartwrite and uartintr under
    tx_lock, uartputc_sync without it. [cpu_step] is one access to the device
    or one critical piece of code on one CPU. *)
From stdpp Require Import base list numbers strings relations.
From Stdlib Require Import ZArith Lia.
From S2P Require Import Prelude Memlayout Console.

(** ** Registers *)
Definition RHR : Z := 0.
Definition THR : Z := 0.
Definition IER : Z := 1.
Definition IER_RX_ENABLE : Z := Z.shiftl 1 0.
Definition IER_TX_ENABLE : Z := Z.shiftl 1 1.
Definition FCR : Z := 2.
Definition FCR_FIFO_ENABLE : Z := Z.shiftl 1 0.
Definition FCR_FIFO_CLEAR : Z := Z.shiftl 3 1.
Definition ISR : Z := 2.
Definition LCR : Z := 3.
Definition LCR_EIGHT_BITS : Z := Z.shiftl 3 0.
Definition LCR_BAUD_LATCH : Z := Z.shiftl 1 7.
Definition LSR : Z := 5.
Definition LSR_RX_READY : Z := Z.shiftl 1 0.
Definition LSR_TX_IDLE : Z := Z.shiftl 1 5.

(** ReadReg and WriteReg *)
Class Uart (U : Type) := { ReadReg : Z -> U -> Z * U; WriteReg : Z -> Z -> U -> U }.

Class UartLaws (U : Type) `{Uart U} := {
  (** bytes sent, bytes accepted but not yet sent, bytes received *)
  sent : U -> list Z;
  txq : U -> list Z;
  rxq : U -> list Z;
  (** what the device does by itself *)
  tick : U -> U -> Prop;
  lsr_ok u : exists v u', ReadReg LSR u = (v, u') /\ sent u' = sent u /\ txq u' = txq u /\ rxq u' = rxq u /\
    (Z.land v LSR_TX_IDLE = 0 <-> txq u <> []) /\ (Z.land v LSR_RX_READY = 0 <-> rxq u = []);
  rhr_ok u c q : rxq u = c :: q -> exists u', ReadReg RHR u = (c, u') /\ sent u' = sent u /\ txq u' = txq u /\ rxq u' = q;
  rx_byte u : Forall (fun c => 0 <= c < 256) (rxq u);
  isr_ok u : exists v u', ReadReg ISR u = (v, u') /\ sent u' = sent u /\ txq u' = txq u /\ rxq u' = rxq u;
  thr_ok u c : Z.of_nat (length (txq u)) < 16 -> sent (WriteReg THR c u) = sent u /\ txq (WriteReg THR c u) = txq u ++ [c];
  tick_ok u u' : tick u u' -> exists out, txq u = out ++ txq u' /\ sent u' = sent u ++ out;
}.

Section uart.
Context {U : Type} `{Uart U}.

Definition uartinit (u : U) : U :=
  let u := WriteReg IER 0 u in
  let u := WriteReg LCR LCR_BAUD_LATCH u in
  let u := WriteReg 0 3 u in
  let u := WriteReg 1 0 u in
  let u := WriteReg LCR LCR_EIGHT_BITS u in
  let u := WriteReg FCR (Z.lor FCR_FIFO_ENABLE FCR_FIFO_CLEAR) u in
  WriteReg IER (Z.lor IER_TX_ENABLE IER_RX_ENABLE) u.

Definition tx_idle (u : U) : bool * U := let '(v, u') := ReadReg LSR u in (negb (Z.land v LSR_TX_IDLE =? 0), u').

Definition uartgetc (u : U) : Z * U :=
  let '(v, u1) := ReadReg LSR u in
  if negb (Z.land v LSR_RX_READY =? 0) then ReadReg RHR u1 else (-1, u1).

(** The loop of uartintr over the received bytes *)
Fixpoint uart_receive (fuel : nat) (s : cons) (u : U) : option (cons * list cevent * U) :=
  match fuel with
  | O => None
  | S f =>
      let '(c, u1) := uartgetc u in
      if c =? -1 then Some (s, [], u1)
      else
        let '(s1, ev) := consoleintr c s in
        match uart_receive f s1 u1 with
        | Some (s', ev', u') => Some (s', ev ++ ev', u')
        | None => None
        end
  end.

(** The interrupt handler, on one CPU: tx_busy and the console; the flag says
    that the writers on tx_chan are woken *)
Definition uartintr (fuel : nat) (busy : Z) (s : cons) (u : U) : option (Z * bool * (cons * list cevent) * U) :=
  let '(_, u0) := ReadReg ISR u in
  let '(idle, u1) := tx_idle u0 in
  match uart_receive fuel s u1 with
  | Some (s', ev, u') => Some (if (idle : bool) then 0 else busy, idle, (s', ev), u')
  | None => None
  end.

(** ** The transmitting side *)

(** What a CPU is doing: nothing here; spinning in uartputc_sync; about to
    write after it saw the transmitter idle; in uartwrite for thread [t], with
    tx_lock; in uartintr with tx_lock, before or after it saw the transmitter
    idle *)
Inductive upc := UOut | UPutc (c : Z) | UGo (c : Z) | UWrite (t : Z) | UIntr | USeen.
(** A thread in uartwrite, with the bytes it has yet to write: on a CPU,
    asleep on tx_chan, or woken and waiting for tx_lock *)
Inductive uthread := TOut | TOn (bs : list Z) | TAsleep (bs : list Z) | TWoken (bs : list Z).
(** Who writes *)
Inductive usrc := SCpu (i : Z) | SThread (t : Z).
#[export] Instance usrc_eq_dec : EqDecision usrc.
Proof. solve_decision. Defined.

(** [hist] is what has been written to THR and by whom, [asked] what each has
    been asked to write *)
Record ustate := USt {
  uart : U; tx_busy : Z; tx_lock : option Z; pcs : Z -> upc; threads : Z -> uthread;
  hist : list (usrc * Z); asked : usrc -> list Z;
}.
Definition ask (x : usrc) (bs : list Z) (f : usrc -> list Z) : usrc -> list Z := fun y => if decide (y = x) then f y ++ bs else f y.

Definition wake_thread (x : uthread) : uthread := match x with TAsleep bs => TWoken bs | _ => x end.

(** The next step of CPU [i] *)
Definition cpu_step (i : Z) (s : ustate) : option ustate :=
  match pcs s i with
  | UOut => None
  | UPutc c =>
      let '(idle, u) := tx_idle (uart s) in
      Some (USt u (tx_busy s) (tx_lock s) (if (idle : bool) then fupd (pcs s) i (UGo c) else pcs s) (threads s) (hist s) (asked s))
  | UGo c =>
      Some (USt (WriteReg THR c (uart s)) (tx_busy s) (tx_lock s) (fupd (pcs s) i UOut) (threads s) (hist s ++ [(SCpu i, c)]) (asked s))
  | UWrite t =>
      match threads s t with
      | TOn [] => Some (USt (uart s) (tx_busy s) None (fupd (pcs s) i UOut) (fupd (threads s) t TOut) (hist s) (asked s))
      | TOn (c :: bs) =>
          if negb (tx_busy s =? 0)
          then Some (USt (uart s) (tx_busy s) None (fupd (pcs s) i UOut) (fupd (threads s) t (TAsleep (c :: bs))) (hist s) (asked s))
          else Some (USt (WriteReg THR c (uart s)) 1 (tx_lock s) (pcs s) (fupd (threads s) t (TOn bs)) (hist s ++ [(SThread t, c)]) (asked s))
      | _ => None
      end
  | UIntr =>
      let '(idle, u) := tx_idle (uart s) in
      Some (USt u (tx_busy s) (if (idle : bool) then tx_lock s else None) (fupd (pcs s) i (if (idle : bool) then USeen else UOut)) (threads s) (hist s) (asked s))
  | USeen =>
      Some (USt (uart s) 0 None (fupd (pcs s) i UOut) (fun t => wake_thread (threads s t)) (hist s) (asked s))
  end.
End uart.
Arguments ustate : clear implicits.

Section steps.
Context {U : Type} `{UartLaws U}.

(** A CPU that is not in this code calls uartputc_sync, takes an interrupt,
    calls uartwrite, or goes on with a woken thread; or a CPU makes a step; or
    the device does something *)
Inductive ustep : ustate U -> ustate U -> Prop :=
| st_putc i c s : 0 <= i < NCPU -> pcs s i = UOut ->
    ustep s (USt (uart s) (tx_busy s) (tx_lock s) (fupd (pcs s) i (UPutc (u8 c))) (threads s) (hist s) (ask (SCpu i) [u8 c] (asked s)))
| st_intr i s : 0 <= i < NCPU -> pcs s i = UOut -> tx_lock s = None ->
    ustep s (USt (snd (ReadReg ISR (uart s))) (tx_busy s) (Some i) (fupd (pcs s) i UIntr) (threads s) (hist s) (asked s))
| st_call i t bs s : 0 <= i < NCPU -> pcs s i = UOut -> tx_lock s = None -> threads s t = TOut ->
    ustep s (USt (uart s) (tx_busy s) (Some i) (fupd (pcs s) i (UWrite t)) (fupd (threads s) t (TOn (u8 <$> bs))) (hist s) (ask (SThread t) (u8 <$> bs) (asked s)))
| st_resume i t bs s : 0 <= i < NCPU -> pcs s i = UOut -> tx_lock s = None -> threads s t = TWoken bs ->
    ustep s (USt (uart s) (tx_busy s) (Some i) (fupd (pcs s) i (UWrite t)) (fupd (threads s) t (TOn bs)) (hist s) (asked s))
| st_cpu i s s' : 0 <= i < NCPU -> cpu_step i s = Some s' -> ustep s s'
| st_tick u s : tick (uart s) u -> ustep s (USt u (tx_busy s) (tx_lock s) (pcs s) (threads s) (hist s) (asked s)).

Definition uart_start (u : U) : ustate U := USt u 0 None (fun _ => UOut) (fun _ => TOut) [] (fun _ => []).

(** What [x] has written, and what it has yet to write *)
Definition written (x : usrc) (h : list (usrc * Z)) : list Z := snd <$> filter (fun e => fst e = x) h.
Definition cpu_left (x : upc) : list Z := match x with UPutc c | UGo c => [c] | _ => [] end.
Definition thread_left (x : uthread) : list Z := match x with TOut => [] | TOn bs | TAsleep bs | TWoken bs => bs end.
Definition remaining (s : ustate U) (x : usrc) : list Z :=
  match x with SCpu i => cpu_left (pcs s i) | SThread t => thread_left (threads s t) end.

(** CPUs that are about to write after they saw the transmitter idle *)
Definition is_go (x : upc) : bool := match x with UGo _ => true | _ => false end.
Fixpoint going_from (n : nat) (i : Z) (f : Z -> upc) : Z :=
  match n with O => 0 | S n' => Z.b2z (is_go (f i)) + going_from n' (i + 1) f end.
Definition going (f : Z -> upc) : Z := going_from (Z.to_nat NCPU) 0 f.
(** May a thread write before the transmitter is seen idle again? *)
Definition credit (s : ustate U) : Z :=
  if tx_busy s =? 0 then 1
  else match tx_lock s with Some i => match pcs s i with USeen => 1 | _ => 0 end | None => 0 end.

Definition holds (x : upc) : bool := match x with UWrite _ | UIntr | USeen => true | _ => false end.

Record uart_inv (s : ustate U) : Prop := UartInv {
  ui_line : sent (uart s) ++ txq (uart s) = snd <$> hist s;
  ui_room : Z.of_nat (length (txq (uart s))) + going (pcs s) + credit s <= NCPU + 1;
  ui_lock i : holds (pcs s i) = true <-> tx_lock s = Some i;
  ui_range i : pcs s i <> UOut -> 0 <= i < NCPU;
  ui_on i t : pcs s i = UWrite t -> exists bs, threads s t = TOn bs;
  ui_asleep t bs : threads s t = TAsleep bs -> tx_busy s <> 0;
  ui_bytes x : written x (hist s) ++ remaining s x = asked s x;
}.

(** ** The invariant holds *)

Lemma going_from_out n i f j x : ~ (i <= j < i + Z.of_nat n) -> going_from n i (fupd f j x) = going_from n i f.
Proof. revert i. induction n as [|n IH]; intros i Hj; cbn [going_from]; [done|]. rewrite fupd_ne, IH by lia. done. Qed.

Lemma going_from_upd n i f j x : i <= j < i + Z.of_nat n ->
  going_from n i (fupd f j x) = going_from n i f - Z.b2z (is_go (f j)) + Z.b2z (is_go x).
Proof.
  revert i. induction n as [|n IH]; intros i Hj; [lia|]. cbn [going_from]. destruct (Z.eq_dec i j) as [->|].
  - rewrite fupd_eq, going_from_out by lia. lia.
  - rewrite fupd_ne, IH by lia. lia.
Qed.

Lemma going_upd f j x : 0 <= j < NCPU -> going (fupd f j x) = going f - Z.b2z (is_go (f j)) + Z.b2z (is_go x).
Proof. intros Hj. apply going_from_upd. unfold NCPU in *. lia. Qed.

Lemma going_bound f : 0 <= going f <= NCPU.
Proof.
  assert (forall n i, 0 <= going_from n i f <= Z.of_nat n) as Hn; [|apply (Hn (Z.to_nat NCPU) 0)].
  intros n. induction n as [|n IH]; intros i; cbn [going_from]; [lia|]. specialize (IH (i + 1)). destruct (is_go (f i)); cbn [Z.b2z]; lia.
Qed.

Lemma tx_idle_run u : exists b u', tx_idle u = (b, u') /\ sent u' = sent u /\ txq u' = txq u /\ rxq u' = rxq u /\ (b = true -> txq u = []).
Proof.
  destruct (lsr_ok u) as (v & u' & E & S1 & S2 & S3 & [_ Hi] & _). unfold tx_idle. rewrite E. eexists _, u'. split; [reflexivity|].
  do 3 (split; [done|]). intros Hb%negb_true_iff%Z.eqb_neq. destruct (txq u); [done|]. exfalso. apply Hb, Hi. done.
Qed.

Lemma written_app x h y c : written x (h ++ [(y, c)]) = written x h ++ (if decide (y = x) then [c] else []).
Proof. unfold written. rewrite filter_app, fmap_app. f_equal. rewrite filter_cons. cbn [fst]. by destruct (decide (y = x)). Qed.

Lemma credit_bound s : 0 <= credit s <= 1.
Proof. unfold credit. destruct (tx_busy s =? 0); [lia|]. destruct (tx_lock s) as [i|]; [destruct (pcs s i)|]; lia. Qed.

Lemma holds_lock s i : uart_inv s -> holds (pcs s i) = true -> tx_lock s = Some i.
Proof. intros Hi. apply (ui_lock _ Hi). Qed.

(** A writer finds room: a CPU that saw the transmitter idle, or a thread when
    tx_busy is 0 *)
Lemma uart_room s : uart_inv s -> 0 < going (pcs s) + credit s -> Z.of_nat (length (txq (uart s))) < 16.
Proof. intros Hi Hg. pose proof (ui_room _ Hi). unfold NCPU in *. lia. Qed.

Lemma lock_others s i j : uart_inv s -> tx_lock s = Some i -> j <> i -> holds (pcs s j) = false.
Proof. intros Hi E Hj. destruct (holds (pcs s j)) eqn:Hh; [|done]. apply (ui_lock _ Hi) in Hh. congruence. Qed.

Lemma lock_free s j : uart_inv s -> tx_lock s = None -> holds (pcs s j) = false.
Proof. intros Hi E. destruct (holds (pcs s j)) eqn:Hh; [|done]. apply (ui_lock _ Hi) in Hh. congruence. Qed.

Ltac upd j i := destruct (Z.eq_dec j i) as [->|]; [rewrite ?fupd_eq in *|rewrite ?fupd_ne in * by done].

Lemma inv_putc i c s : uart_inv s -> 0 <= i < NCPU -> pcs s i = UOut ->
  uart_inv (USt (uart s) (tx_busy s) (tx_lock s) (fupd (pcs s) i (UPutc (u8 c))) (threads s) (hist s) (ask (SCpu i) [u8 c] (asked s))).
Proof.
  intros Hv Hi Ep. pose proof Hv as [A B C D E F G]. split; cbn [uart tx_busy tx_lock pcs threads hist asked].
  - done.
  - rewrite going_upd by done. rewrite Ep. cbn [is_go Z.b2z]. enough (credit (USt (uart s) (tx_busy s) (tx_lock s) (fupd (pcs s) i (UPutc (u8 c))) (threads s) (hist s) (ask (SCpu i) [u8 c] (asked s))) = credit s) by lia.
    unfold credit. cbn. destruct (tx_lock s) as [j|]; [|done]. upd j i; [|done]. by rewrite Ep.
  - intros j. upd j i; [|done]. cbn. rewrite <- C, Ep. done.
  - intros j. upd j i; [done|apply D].
  - intros j t. upd j i; [done|apply E].
  - done.
  - intros x. specialize (G x). unfold ask. destruct x as [j|t]; cbn [remaining pcs threads] in *.
    + upd j i; [|by rewrite decide_False by congruence]. rewrite decide_True by done. rewrite Ep in G. rewrite app_nil_r in G. by rewrite G.
    + by rewrite decide_False.
Qed.

Lemma holds_left x : holds x = true -> cpu_left x = [] /\ is_go x = false.
Proof. by destruct x. Qed.

(** A CPU comes in and takes tx_lock *)
Lemma inv_take i x u th ask' s : uart_inv s -> 0 <= i < NCPU -> pcs s i = UOut -> tx_lock s = None ->
  holds x = true -> x <> USeen -> sent u = sent (uart s) -> txq u = txq (uart s) ->
  (forall t, x = UWrite t -> exists bs, th t = TOn bs) -> (forall t bs, th t = TAsleep bs -> threads s t = TAsleep bs) ->
  (forall j, ask' (SCpu j) = asked s (SCpu j)) -> (forall t, written (SThread t) (hist s) ++ thread_left (th t) = ask' (SThread t)) ->
  uart_inv (USt u (tx_busy s) (Some i) (fupd (pcs s) i x) th (hist s) ask').
Proof.
  intros Hv Hi Ep El Hx Hns Eu1 Eu2 Hon Has Hac Hat. pose proof Hv as [A B C D E F G]. destruct (holds_left x Hx) as [Hl Hg].
  split; cbn [uart tx_busy tx_lock pcs threads hist asked].
  - by rewrite Eu1, Eu2.
  - rewrite going_upd by done. rewrite Ep, Hg, Eu2. cbn [is_go Z.b2z]. revert B. unfold credit. cbn. rewrite El, fupd_eq.
    destruct (tx_busy s =? 0); [lia|]. destruct x; try lia. done.
  - intros j. upd j i; [done|]. rewrite (lock_free s j Hv El). split; [done|congruence].
  - intros j. upd j i; [done|apply D].
  - intros j t. upd j i; [apply Hon|]. intros Ej. exfalso. pose proof (lock_free s j Hv El) as Hf. by rewrite Ej in Hf.
  - intros t bs Ht. by eapply F, Has.
  - intros [j|t]; cbn [remaining pcs threads]; [|apply Hat]. rewrite Hac, <- G. cbn [remaining]. f_equal. upd j i; [|done]. by rewrite Hl, Ep.
Qed.

(** A CPU that holds tx_lock releases it and leaves *)
Lemma inv_leave i u busy th s : uart_inv s -> holds (pcs s i) = true -> sent u = sent (uart s) -> txq u = txq (uart s) ->
  (busy = 0 -> credit s = 1) -> (forall t bs, th t = TAsleep bs -> busy <> 0) -> (forall t, thread_left (th t) = thread_left (threads s t)) ->
  uart_inv (USt u busy None (fupd (pcs s) i UOut) th (hist s) (asked s)).
Proof.
  intros Hv Hh Eu1 Eu2 Hc Has Hle. pose proof Hv as [A B C D E F G]. destruct (holds_left _ Hh) as [Hl Hg]. pose proof (proj1 (C i) Hh) as El.
  assert (0 <= i < NCPU) as Hi by (apply D; intros Ei; by rewrite Ei in Hh).
  split; cbn [uart tx_busy tx_lock pcs threads hist asked].
  - by rewrite Eu1, Eu2.
  - rewrite going_upd by done. rewrite Hg, Eu2. cbn [is_go Z.b2z]. pose proof (credit_bound s). unfold credit at 1. cbn.
    destruct (Z.eqb_spec busy 0) as [Hb|]; [rewrite <- Hc by done|]; lia.
  - intros j. upd j i; [done|]. rewrite (lock_others s i j Hv El) by done. done.
  - intros j. upd j i; [done|apply D].
  - intros j t. upd j i; [done|]. intros Ej. exfalso. pose proof (lock_others s i j Hv El ltac:(done)) as Hf. by rewrite Ej in Hf.
  - done.
  - intros [j|t]; cbn [remaining pcs threads]; [|rewrite Hle; apply (G (SThread t))]. rewrite <- G. cbn [remaining]. f_equal. upd j i; [|done]. by rewrite Hl.
Qed.

Lemma inv_device u s : uart_inv s -> sent u ++ txq u = sent (uart s) ++ txq (uart s) -> (length (txq u) <= length (txq (uart s)))%nat ->
  uart_inv (USt u (tx_busy s) (tx_lock s) (pcs s) (threads s) (hist s) (asked s)).
Proof.
  intros [A B C D E F G] E1 E2. split; try done; [cbn [uart hist]; by rewrite E1|]. cbn [uart pcs]. change (credit (USt u _ _ _ _ _ _)) with (credit s). lia.
Qed.

(** A CPU, in uartputc_sync or in the interrupt handler, sees the transmitter
    idle *)
Lemma inv_see i x y u s : uart_inv s -> pcs s i = x -> x <> UOut -> holds y = holds x -> cpu_left y = cpu_left x -> (forall t, y <> UWrite t) ->
  sent u = sent (uart s) -> txq u = txq (uart s) -> txq (uart s) = [] ->
  uart_inv (USt u (tx_busy s) (tx_lock s) (fupd (pcs s) i y) (threads s) (hist s) (asked s)).
Proof.
  intros Hv Ep Hx Hh Hl Hw Eu Eq Hq. pose proof Hv as [A B C D E F G]. assert (0 <= i < NCPU) as Hi by (apply D; by rewrite Ep).
  split; cbn [uart tx_busy tx_lock pcs threads hist asked].
  - by rewrite Eu, Eq.
  - rewrite Eq, Hq. pose proof (going_bound (fupd (pcs s) i y)). match goal with |- context [credit ?s] => pose proof (credit_bound s) end. cbn [length]. lia.
  - intros j. upd j i; [|done]. by rewrite Hh, <- C, Ep.
  - intros j. upd j i; [done|apply D].
  - intros j t. upd j i; [by intros Ey%Hw|apply E].
  - done.
  - intros z. rewrite <- (G z). destruct z as [j|t]; [|done]. cbn [remaining pcs]. f_equal. upd j i; [|done]. by rewrite Hl, Ep.
Qed.

(** It writes *)
Lemma inv_go i c s : uart_inv s -> pcs s i = UGo c ->
  uart_inv (USt (WriteReg THR c (uart s)) (tx_busy s) (tx_lock s) (fupd (pcs s) i UOut) (threads s) (hist s ++ [(SCpu i, c)]) (asked s)).
Proof.
  intros Hv Ep. pose proof Hv as [A B C D E F G]. assert (0 <= i < NCPU) as Hi by (apply D; by rewrite Ep).
  assert (going (fupd (pcs s) i UOut) = going (pcs s) - 1) as Hg by (rewrite going_upd, Ep by done; cbn; lia).
  pose proof (going_bound (fupd (pcs s) i UOut)). pose proof (credit_bound s).
  destruct (thr_ok (uart s) c) as [T1 T2]; [apply uart_room; [done|lia]|].
  split; cbn [uart tx_busy tx_lock pcs threads hist asked].
  - rewrite T1, T2, fmap_app, <- A, app_assoc. done.
  - rewrite Hg, T2, length_app. cbn [length].
    enough (credit (USt (WriteReg THR c (uart s)) (tx_busy s) (tx_lock s) (fupd (pcs s) i UOut) (threads s) (hist s ++ [(SCpu i, c)]) (asked s)) = credit s) by lia.
    unfold credit. cbn. destruct (tx_lock s) as [j|]; [|done]. upd j i; [|done]. by rewrite Ep.
  - intros j. upd j i; [|done]. cbn. by rewrite <- C, Ep.
  - intros j. upd j i; [done|apply D].
  - intros j t. upd j i; [done|apply E].
  - done.
  - intros x. rewrite <- (G x), written_app, <- app_assoc. f_equal. destruct x as [j|t]; cbn [remaining pcs threads]; [|done].
    upd j i; [by rewrite decide_True, Ep|by rewrite decide_False by congruence].
Qed.

(** A thread writes *)
Lemma inv_write i t c bs s : uart_inv s -> pcs s i = UWrite t -> threads s t = TOn (c :: bs) -> tx_busy s = 0 ->
  uart_inv (USt (WriteReg THR c (uart s)) 1 (tx_lock s) (pcs s) (fupd (threads s) t (TOn bs)) (hist s ++ [(SThread t, c)]) (asked s)).
Proof.
  intros Hv Ep Et Eb. pose proof Hv as [A B C D E F G]. assert (tx_lock s = Some i) as El by (apply C; by rewrite Ep).
  assert (credit s = 1) as Hc by (unfold credit; by rewrite Eb). pose proof (going_bound (pcs s)).
  destruct (thr_ok (uart s) c) as [T1 T2]; [apply uart_room; [done|lia]|].
  split; cbn [uart tx_busy tx_lock pcs threads hist asked].
  - rewrite T1, T2, fmap_app, <- A, app_assoc. done.
  - rewrite T2, length_app. unfold credit. cbn. rewrite El, Ep. lia.
  - done.
  - done.
  - intros j t' Ej. destruct (Z.eq_dec t' t) as [->|]; [rewrite fupd_eq; by exists bs|rewrite fupd_ne by done; by eapply E].
  - done.
  - intros x. rewrite <- (G x), written_app, <- app_assoc. f_equal. destruct x as [j|t']; cbn [remaining pcs threads]; [done|].
    upd t' t; [by rewrite decide_True, Et|by rewrite decide_False by congruence].
Qed.

(** Every step of every CPU and of the device keeps the invariant *)
Lemma uart_inv_step s s' : uart_inv s -> ustep s s' -> uart_inv s'.
Proof.
  intros Hv Hs. pose proof Hv as [A B C D E F G].
  destruct Hs as [i c s Hi Ep|i s Hi Ep El|i t bs s Hi Ep El Et|i t bs s Hi Ep El Et|i s s' Hi Es|u s Hu].
  - by apply inv_putc.
  - destruct (isr_ok (uart s)) as (v & u & Er & S1 & S2 & _). rewrite Er. by apply inv_take.
  - apply inv_take; try done.
    + intros t' [= <-]. rewrite fupd_eq. by eexists.
    + intros t' bs'. upd t' t; [done|by auto].
    + intros t'. unfold ask. rewrite <- (G (SThread t')). cbn [remaining]. upd t' t; [|by rewrite decide_False by congruence].
      rewrite decide_True, Et by done. cbn [thread_left]. by rewrite app_nil_r.
  - apply inv_take; try done.
    + intros t' [= <-]. rewrite fupd_eq. by eexists.
    + intros t' bs'. upd t' t; [done|by auto].
    + intros t'. rewrite <- (G (SThread t')). cbn [remaining]. upd t' t; [|done]. by rewrite Et.
  - unfold cpu_step in Es. destruct (pcs s i) as [|c|c|t| |] eqn:Ep; [done|..].
    + destruct (tx_idle_run (uart s)) as (b & u & Eu & S1 & S2 & _ & S3). rewrite Eu in Es. injection Es as <-.
      destruct b; [|apply inv_device; [done|by rewrite S1, S2|by rewrite S2]]. by apply (inv_see i (UPutc c)); auto.
    + injection Es as <-. by apply inv_go.
    + destruct (threads s t) as [|[|c bs]|bs|bs] eqn:Et; try done.
      * injection Es as <-. apply inv_leave; try done; [by rewrite Ep| | |].
        { intros Eb. unfold credit. by rewrite Eb. } { intros t' bs. upd t' t; [done|apply F]. } { intros t'. upd t' t; [by rewrite Et|done]. }
      * destruct (Z.eqb_spec (tx_busy s) 0) as [Eb|Eb]; cbn [negb] in Es; injection Es as <-; [by apply (inv_write i)|].
        apply inv_leave; try done; [by rewrite Ep|]. intros t'. upd t' t; [by rewrite Et|done].
    + destruct (tx_idle_run (uart s)) as (b & u & Eu & S1 & S2 & _ & S3). rewrite Eu in Es. injection Es as <-.
      destruct b; [by apply (inv_see i UIntr); auto|].
      apply inv_leave; try done; [by rewrite Ep|intros Eb; unfold credit; by rewrite Eb].
    + injection Es as <-. apply inv_leave; try done; [by rewrite Ep| | |].
      * intros _. unfold credit. rewrite (proj1 (C i)), Ep by by rewrite Ep. by destruct (_ =? _).
      * intros t bs. by destruct (threads s t).
      * intros t. by destruct (threads s t).
  - destruct (tick_ok _ _ Hu) as (out & E1 & E2). apply inv_device; [done| |].
    + by rewrite E2, E1, app_assoc.
    + rewrite E1, length_app. lia.
Qed.

Lemma uart_inv_start u : sent u = [] -> txq u = [] -> uart_inv (uart_start u).
Proof.
  intros E1 E2. split; cbn; [by rewrite E1, E2|rewrite E2; by vm_compute|by split; intros ?..|done|done|done|by intros [|]].
Qed.

Lemma uart_inv_reach u s : sent u = [] -> txq u = [] -> rtc ustep (uart_start u) s -> uart_inv s.
Proof.
  intros E1 E2 Hr. assert (uart_inv (uart_start u)) as Hi by by apply uart_inv_start. revert Hi.
  induction Hr as [|x y z Hs _ IH]; [done|]. intros Hi. apply IH. by eapply uart_inv_step.
Qed.

(** C22. Nothing that is written to the serial port is lost, reordered or repeated.
    However the CPUs interleave uartwrite, uartputc_sync and the interrupts,
    with the device sending at any pace: the transmit queue never holds more
    than NCPU + 1 bytes, so none is dropped although uartputc_sync takes no
    lock; what has been sent and what is queued is exactly what has been
    written, in order; each thread and each CPU has written a prefix of what it
    was asked to write and has the rest in hand; and a thread sleeps only while
    tx_busy is set, so that the next completed transmission wakes it. *)
Theorem uart_transmits u s : sent u = [] -> txq u = [] -> rtc ustep (uart_start u) s ->
  Z.of_nat (length (txq (uart s))) <= NCPU + 1 /\
  sent (uart s) ++ txq (uart s) = snd <$> hist s /\
  (forall x, written x (hist s) ++ remaining s x = asked s x) /\
  (forall t bs, threads s t = TAsleep bs -> tx_busy s <> 0).
Proof.
  intros E1 E2 Hr. pose proof (uart_inv_reach u s E1 E2 Hr) as Hi. split; [|split; [apply Hi|split; [apply Hi|apply Hi]]].
  pose proof (ui_room _ Hi). pose proof (going_bound (pcs s)). pose proof (credit_bound s). lia.
Qed.

(** ** Receiving *)

(** consoleintr on each of the received bytes *)
Fixpoint feed (cs : list Z) (s : cons) : cons * list cevent :=
  match cs with
  | [] => (s, [])
  | c :: cs' => let '(s1, ev) := consoleintr c s in let '(s2, ev') := feed cs' s1 in (s2, ev ++ ev')
  end.

(** The loop of uartintr ends, with the bytes received so far given to the
    console in the order they arrived, and none left. *)
Lemma uart_receive_correct s u fuel : (length (rxq u) < fuel)%nat ->
  exists u', uart_receive fuel s u = Some (feed (rxq u) s, u') /\ rxq u' = [] /\ sent u' = sent u /\ txq u' = txq u.
Proof.
  revert s u. induction fuel as [|fuel IH]; intros s u Hf; [lia|]. cbn [uart_receive]. unfold uartgetc.
  destruct (lsr_ok u) as (v & u1 & E1 & S1 & S2 & S3 & _ & Hr). rewrite E1. destruct (rxq u) as [|c q] eqn:Eq.
  - rewrite (proj2 (Z.eqb_eq _ _) (proj2 Hr eq_refl)). cbn. exists u1. by rewrite S3.
  - destruct (Z.eqb_spec (Z.land v LSR_RX_READY) 0) as [E0|_]; [by apply Hr in E0|]. cbn [negb].
    destruct (rhr_ok u1 c q S3) as (u2 & E2 & S4 & S5 & S6). rewrite E2.
    pose proof (rx_byte u) as Hb. rewrite Eq in Hb. apply Forall_cons in Hb as [Hc _].
    rewrite (proj2 (Z.eqb_neq c (-1))) by lia. cbn [feed]. destruct (consoleintr c s) as [s1 ev].
    destruct (IH s1 u2) as (u3 & E3 & Q1 & Q2 & Q3); [rewrite S6; cbn in Hf; lia|]. rewrite E3, S6. destruct (feed q s1) as [s2 ev'].
    exists u3. split; [done|]. split; [done|]. split; congruence.
Qed.

(** The whole handler: it ends; it clears tx_busy and wakes the writers exactly
    when the transmitter is idle; and the console has seen every byte received,
    in order. *)
Theorem uartintr_correct busy s u fuel : (length (rxq u) < fuel)%nat ->
  exists u', uartintr fuel busy s u = Some (if bool_decide (txq u = []) then 0 else busy, bool_decide (txq u = []), feed (rxq u) s, u') /\
    rxq u' = [] /\ sent u' = sent u /\ txq u' = txq u.
Proof.
  intros Hf. unfold uartintr. destruct (isr_ok u) as (v0 & u0 & E0 & A1 & A2 & A3). rewrite E0.
  destruct (tx_idle_run u0) as (b & u1 & E1 & B1 & B2 & B3 & B4). rewrite E1.
  destruct (uart_receive_correct s u1 fuel) as (u2 & E2 & C1 & C2 & C3); [by rewrite B3, A3|]. rewrite E2, B3, A3.
  assert (bool_decide (txq u = []) = b) as Eb.
  { destruct b; [apply bool_decide_true; rewrite <- A2; by apply B4|]. apply bool_decide_false. intros En. unfold tx_idle in E1.
    destruct (lsr_ok u0) as (v & w & Er & _ & _ & _ & [Hl _] & _). rewrite Er in E1. injection E1 as E1 _.
    apply negb_false_iff, Z.eqb_eq in E1. apply Hl in E1. congruence. }
  rewrite Eb. destruct (feed (rxq u) s) as [s' ev]. exists u2. split; [done|]. split; [done|]. split; congruence.
Qed.
End steps.

(** ** A serial port, for running the code *)
Record port := Port { p_sent : list Z; p_tx : list Z; p_rx : list Z }.
#[export] Instance port_uart : Uart port := {|
  ReadReg reg u :=
    if reg =? LSR then
      (Z.lor (match p_tx u with [] => LSR_TX_IDLE | _ => 0 end) (match p_rx u with [] => 0 | _ => LSR_RX_READY end), u)
    else if reg =? RHR then
      match p_rx u with c :: q => (u8 c, Port (p_sent u) (p_tx u) q) | [] => (0, u) end
    else (0, u);
  WriteReg reg v u := if reg =? THR then Port (p_sent u) (if bool_decide (length (p_tx u) < 16)%nat then p_tx u ++ [v] else p_tx u) (p_rx u) else u;
|}.
#[export] Instance port_laws : UartLaws port.
Proof.
  refine {| sent := p_sent; txq := p_tx; rxq u := u8 <$> p_rx u;
    tick u u' := exists c q, p_tx u = c :: q /\ u' = Port (p_sent u ++ [c]) q (p_rx u) |}.
  - intros [a b c]. eexists _, _. split; [reflexivity|]. do 3 (split; [done|]). cbn. destruct b, c; cbn; split; split; done.
  - intros [a b r] c q E. destruct r as [|c' r]; [done|]. injection E as <- <-. eexists. by split.
  - intros u. induction (p_rx u) as [|c q IH]; constructor; [|done]. unfold u8, wrap. apply Z.mod_pos_bound. lia.
  - intros u. by eexists _, _.
  - intros u c Hl. cbn. by rewrite bool_decide_true by lia.
  - intros u u' (c & q & E & ->). exists [c]. by rewrite E.
Defined.

Lemma uartintr_correct_witness : exists u', uartintr 3 1 (Cons (fun _ => 0) 0 0 0) (Port [] [] [97; 10]) =
  Some (0, true, feed [97; 10] (Cons (fun _ => 0) 0 0 0), u') /\ rxq u' = [].
Proof.
  destruct (uartintr_correct 1 (Cons (fun _ => 0) 0 0 0) (Port [] [] [97; 10]) 3) as (u' & E & R & _); [vm_compute; lia|].
  exists u'. split; [exact E|exact R].
Defined.

(** Thread 5 writes "hi" on CPU 0 and sleeps after the first byte; CPU 1 echoes
    an x; the port sends both, and the interrupt on CPU 1 wakes the thread. *)
Definition port0 : port := Port [] [] [].
Definition cpu_run (i : Z) (s : ustate port) : ustate port := match cpu_step i s with Some s' => s' | None => s end.
Lemma cpu_run_step i s : 0 <= i < NCPU -> (match cpu_step i s with Some _ => true | None => false end) = true -> ustep s (cpu_run i s).
Proof. intros Hi E. unfold cpu_run. destruct (cpu_step i s) eqn:Es; [by eapply st_cpu|done]. Qed.

Lemma uart_transmits_witness : exists s, rtc ustep (uart_start port0) s /\ sent (uart s) = [120; 104] /\ written (SThread 5) (hist s) = [104] /\
  threads s 5 = TWoken [105] /\ written (SThread 5) (hist s) ++ remaining s (SThread 5) = asked s (SThread 5).
Proof.
  assert (exists s, rtc ustep (uart_start port0) s /\ sent (uart s) = [120; 104] /\ written (SThread 5) (hist s) = [104] /\ threads s 5 = TWoken [105])
    as (s & Hr & E1 & E2 & E3).
  { eexists. split; [|shelve].
    eapply rtc_l; [eapply (st_putc 1 120); [vm_compute; split; congruence|reflexivity]|].
    eapply rtc_l; [apply (cpu_run_step 1); [vm_compute; split; congruence|vm_compute; reflexivity]|].
    eapply rtc_l; [eapply (st_call 0 5 [104; 105]); [vm_compute; split; congruence|vm_compute; reflexivity..]|].
    eapply rtc_l; [apply (cpu_run_step 1); [vm_compute; split; congruence|vm_compute; reflexivity]|].
    eapply rtc_l; [apply (cpu_run_step 0); [vm_compute; split; congruence|vm_compute; reflexivity]|].
    eapply rtc_l; [apply (cpu_run_step 0); [vm_compute; split; congruence|vm_compute; reflexivity]|].
    eapply rtc_l; [apply (st_tick (Port [120] [104] [])); exists 120, [104]; vm_compute; done|].
    eapply rtc_l; [apply (st_tick (Port [120; 104] [] [])); exists 104, []; vm_compute; done|].
    eapply rtc_l; [eapply (st_intr 1); [vm_compute; split; congruence|vm_compute; reflexivity..]|].
    eapply rtc_l; [apply (cpu_run_step 1); [vm_compute; split; congruence|vm_compute; reflexivity]|].
    eapply rtc_l; [apply (cpu_run_step 1); [vm_compute; split; congruence|vm_compute; reflexivity]|].
    apply rtc_refl.
    Unshelve. vm_compute. done. }
  exists s. split; [exact Hr|]. split; [exact E1|]. split; [exact E2|]. split; [exact E3|].
  destruct (uart_transmits port0 s) as (_ & _ & H & _); [reflexivity|reflexivity|exact Hr|]. apply H.
Defined.
