(* ===== verification/Trap.v ===== *)
(** * kernel/trap.c and kernel/plic.c: traps and interrupts

    The registers of a hart that the supervisor reads and writes, the handlers
    of trap.c over them and over the state of file Proc, and the interrupt
    controller as a device with 32-bit registers. The handlers of the serial
    port and the disk (files Uart and Virtio) enter through the interface
    [Devices]: what they do to the devices and the channels they wake.

    usertrap and kerneltrap run up to their return or up to the switch to the
    scheduler (a timer tick gives up the CPU); [usertrap_return] and
    [kerneltrap_return] are the rest, which runs when the process is scheduled
    again. *)
From stdpp Require Import base list numbers strings.
From Stdlib Require Import ZArith Lia.
From S2P Require Import Ulib Prelude Memlayout Kalloc Vm Proc Exec Sysproc.

(** riscv.h *)
Definition SSTATUS_SPP : Z := Z.shiftl 1 8.
Definition SSTATUS_SPIE : Z := Z.shiftl 1 5.
Definition SSTATUS_SIE : Z := Z.shiftl 1 1.
Definition SATP_SV39 : Z := Z.shiftl 8 60.
Definition MAKE_SATP (pagetable : Z) : Z := Z.lor SATP_SV39 (Z.shiftr pagetable 12).

(** memlayout.h *)
Definition UART0_IRQ : Z := 10.
Definition VIRTIO0_IRQ : Z := 1.
Definition PLIC_SENABLE (hart : Z) : Z := PLIC + 0x2080 + hart * 0x100.
Definition PLIC_SPRIORITY (hart : Z) : Z := PLIC + 0x201000 + hart * 0x2000.
Definition PLIC_SCLAIM (hart : Z) : Z := PLIC + 0x201004 + hart * 0x2000.

(** The control and status registers, tp, and the time *)
Record hart := Hart {
  sstatus : Z; sepc : Z; scause : Z; stval : Z; stvec : Z; satp : Z; tp : Z; stimecmp : Z; time : Z;
}.
Definition w_sstatus (v : Z) (h : hart) : hart := Hart v (sepc h) (scause h) (stval h) (stvec h) (satp h) (tp h) (stimecmp h) (time h).
Definition w_sepc (v : Z) (h : hart) : hart := Hart (sstatus h) v (scause h) (stval h) (stvec h) (satp h) (tp h) (stimecmp h) (time h).
Definition w_stvec (v : Z) (h : hart) : hart := Hart (sstatus h) (sepc h) (scause h) (stval h) v (satp h) (tp h) (stimecmp h) (time h).
Definition w_stimecmp (v : Z) (h : hart) : hart := Hart (sstatus h) (sepc h) (scause h) (stval h) (stvec h) (satp h) (tp h) v (time h).
Definition intr_on (h : hart) : hart := w_sstatus (Z.lor (sstatus h) SSTATUS_SIE) h.
Definition intr_off (h : hart) : hart := w_sstatus (Z.land (sstatus h) (Z.lnot SSTATUS_SIE)) h.
Definition intr_get (h : hart) : bool := negb (Z.land (sstatus h) SSTATUS_SIE =? 0).

(** offsetof(struct trapframe, ...) *)
Definition TF_KERNEL_SATP : Z := 0.
Definition TF_KERNEL_SP : Z := 8.
Definition TF_KERNEL_TRAP : Z := 16.
Definition TF_KERNEL_HARTID : Z := 32.

(** The devices: 32-bit registers of the interrupt controller, and uartintr and
    virtio_disk_intr, which return the channels they pass to wakeup. The code of
    the two handlers is modelled in files Uart and Virtio, each over the state of
    its device; here they are any computations on the devices. *)
Class Devices (D : Type) := {
  r32 : Z -> D -> Z * D;
  w32 : Z -> Z -> D -> D;
  uartintr : M D (list Z);
  virtio_disk_intr : M D (list Z);
}.

Record tstate (F D : Type) := TSt { hrt : hart; ps : pstate F; dev : D }.
Arguments TSt {F D}. Arguments hrt {F D}. Arguments ps {F D}. Arguments dev {F D}.

Section trap.
Context `{KernelEnd} {F D : Type} `{FileOps F} `{Devices D}.
(** Addresses set by the linker: the offset of uservec in the trampoline,
    kernelvec and usertrap; &ticks as a wait channel *)
Context (uservec_off kernelvec usertrap_addr ticks_chan : Z).
(** syscall(), from file Sysproc with the calls of sysfile.c *)
Context (syscall : Z -> M (pstate F) unit).
Abbreviation T := (M (tstate F D)).

Definition set_hrt (h : hart) (s : tstate F D) : tstate F D := TSt h (ps s) (dev s).
Definition set_ps (v : pstate F) (s : tstate F D) : tstate F D := TSt (hrt s) v (dev s).
Definition set_dev (v : D) (s : tstate F D) : tstate F D := TSt (hrt s) (ps s) v.
Definition csr (f : hart -> hart) : T unit := modify (fun s => set_hrt (f (hrt s)) s).
Definition proc_op {A} (m : M (pstate F) A) : T A := lift ps set_ps m.
Definition dev_op {A} (m : M D A) : T A := lift dev set_dev m.

Definition cpuid : T Z := gets (fun s => i32 (tp (hrt s))).

(** plic.c *)
Definition plicinit : T unit :=
  dev_op (modify (w32 (PLIC + UART0_IRQ * 4) 1)) ;;;
  dev_op (modify (w32 (PLIC + VIRTIO0_IRQ * 4) 1)).
Definition plicinithart : T unit :=
  hart <- cpuid ;;
  dev_op (modify (w32 (PLIC_SENABLE hart) (Z.lor (Z.shiftl 1 UART0_IRQ) (Z.shiftl 1 VIRTIO0_IRQ)))) ;;;
  dev_op (modify (w32 (PLIC_SPRIORITY hart) 0)).
Definition plic_claim : T Z :=
  hart <- cpuid ;;
  dev_op (fun d => let '(v, d') := r32 (PLIC_SCLAIM hart) d in Ret (i32 v) d').
Definition plic_complete (irq : Z) : T unit :=
  hart <- cpuid ;;
  dev_op (modify (w32 (PLIC_SCLAIM hart) (u32 irq))).

(** wakeup for each channel; [p] is the current process *)
Fixpoint wakeups (p : Z) (chans : list Z) : T unit :=
  match chans with [] => ret tt | c :: chans' => proc_op (wakeup p c) ;;; wakeups p chans' end.

Definition set_ticks (v : Z) (s : pstate F) : pstate F := PSt (procs s) (nextpid s) (initproc s) v (km s) (files s).

Definition clockintr (p : Z) : T unit :=
  id <- cpuid ;;
  when (id =? 0)
    (proc_op (modify (fun s => set_ticks (u32 (ticks s + 1)) s)) ;;;
     proc_op (wakeup p ticks_chan)) ;;;
  csr (fun h => w_stimecmp (u64 (time h + 1000000)) h).

(** without the message for an unexpected irq *)
Definition devintr (p : Z) : T Z :=
  cause <- gets (fun s => scause (hrt s)) ;;
  if cause =? 0x8000000000000009 then
    irq <- plic_claim ;;
    (if irq =? UART0_IRQ then c <- dev_op uartintr ;; wakeups p c
     else if irq =? VIRTIO0_IRQ then c <- dev_op virtio_disk_intr ;; wakeups p c
     else ret tt) ;;;
    when (negb (irq =? 0)) (plic_complete irq) ;;;
    ret 1
  else if cause =? 0x8000000000000005 then clockintr p ;;; ret 2
  else ret 0.

Definition prepare_return (p : Z) : T unit :=
  csr intr_off ;;;
  csr (w_stvec (TRAMPOLINE + uservec_off)) ;;;
  pr <- proc_op (proc_of p) ;;
  h <- gets hrt ;;
  let tf := p_trapframe pr in
  proc_op (memory_op (store64 (tf + TF_KERNEL_SATP) (satp h))) ;;;
  proc_op (memory_op (store64 (tf + TF_KERNEL_SP) (u64 (p_kstack pr + PGSIZE)))) ;;;
  proc_op (memory_op (store64 (tf + TF_KERNEL_TRAP) usertrap_addr)) ;;;
  proc_op (memory_op (store64 (tf + TF_KERNEL_HARTID) (tp h))) ;;;
  csr (fun h => w_sstatus (Z.lor (Z.land (sstatus h) (Z.lnot SSTATUS_SPP)) SSTATUS_SPIE) h) ;;;
  epc <- gets (fun s => ld64 (mem (km (ps s))) (tf + TF_EPC)) ;;
  csr (w_sepc epc).

(** The end of usertrap: the user page table for trampoline.S *)
Definition usertrap_return (p : Z) : T Z :=
  prepare_return p ;;;
  t <- gets (fun s => ticks (ps s)) ;;
  proc_op (upd p (set_cpu_ticks_base t)) ;;;
  pr <- proc_op (proc_of p) ;;
  ret (MAKE_SATP (p_pagetable pr)).

(** proc.c: where a new process begins. [first] is its static variable; with it
    the file system is initialised and /init executed by this process. *)
Definition forkret (first : bool) (fsinit : T unit) (exec_init : T Z) (p : Z) : T Z :=
  when first
    (fsinit ;;;
     r <- exec_init ;;
     pr <- proc_op (proc_of p) ;;
     proc_op (memory_op (store64 (p_trapframe pr + TF_A0) (u64 r))) ;;;
     if u64 r =? u64 (-1) then panic "exec" else ret tt) ;;;
  prepare_return p ;;;
  pr <- proc_op (proc_of p) ;;
  ret (MAKE_SATP (p_pagetable pr)).

(** if (killed(p)) kexit(-1); which does not return *)
Definition exit_if_killed (p : Z) : T unit :=
  k <- proc_op (killed p) ;;
  if negb (k =? 0) then proc_op (kexit p (-1)) ;;; sleep_on 0 else ret tt.

(** w_stvec, saving the program counter, and the account of ticks *)
Definition usertrap_enter (p : Z) : T unit :=
  csr (w_stvec kernelvec) ;;;
  pr <- proc_op (proc_of p) ;;
  epc <- gets (fun s => sepc (hrt s)) ;;
  proc_op (memory_op (store64 (p_trapframe pr + TF_EPC) epc)) ;;;
  t <- gets (fun s => ticks (ps s)) ;;
  proc_op (upd p (fun q => set_cpu_ticks (u64 (p_cpu_ticks q + u64 (t - p_cpu_ticks_base q))) q)).

(** The branches of usertrap: which_dev *)
Definition usertrap_handle (p : Z) : T Z :=
  cause <- gets (fun s => scause (hrt s)) ;;
  if cause =? 8 then
    exit_if_killed p ;;;
    pr <- proc_op (proc_of p) ;;
    let a := p_trapframe pr + TF_EPC in
    epc <- gets (fun s => ld64 (mem (km (ps s))) a) ;;
    proc_op (memory_op (store64 a (u64 (epc + 4)))) ;;;
    csr intr_on ;;;
    proc_op (syscall p) ;;;
    ret 0
  else
    d <- devintr p ;;
    if negb (d =? 0) then ret d
    else
      pr <- proc_op (proc_of p) ;;
      va <- gets (fun s => stval (hrt s)) ;;
      ok <- (if (cause =? 15) || (cause =? 13)
             then r <- proc_op (memory_op (vmfault (p_sz pr) (p_pagetable pr) (p_pagetable pr) va)) ;; ret (negb (r =? 0))
             else ret false) ;;
      if (ok : bool) then ret 0 else proc_op (setkilled p) ;;; ret 0.

(** The value for the trampoline, or None when the process has given up the CPU *)
Definition usertrap (p : Z) : T (option Z) :=
  st <- gets (fun s => sstatus (hrt s)) ;;
  if negb (Z.land st SSTATUS_SPP =? 0) then panic "usertrap: not from user mode"
  else
    usertrap_enter p ;;;
    which_dev <- usertrap_handle p ;;
    exit_if_killed p ;;;
    if which_dev =? 2 then proc_op (yield p) ;;; ret None
    else v <- usertrap_return p ;; ret (Some v).

Definition kerneltrap_return (epc st : Z) : T unit := csr (w_sepc epc) ;;; csr (w_sstatus st).

(** [p] is NOPROC when no process runs on this CPU. The result is what
    kerneltrap_return needs when the CPU was given up. *)
Definition kerneltrap (p : Z) : T (option (Z * Z)) :=
  h <- gets hrt ;;
  if Z.land (sstatus h) SSTATUS_SPP =? 0 then panic "kerneltrap: not from supervisor mode"
  else if intr_get h then panic "kerneltrap: interrupts enabled"
  else
    which_dev <- devintr p ;;
    if which_dev =? 0 then panic "kerneltrap"
    else if (which_dev =? 2) && negb (p =? NOPROC) then proc_op (yield p) ;;; ret (Some (sepc h, sstatus h))
    else kerneltrap_return (sepc h) (sstatus h) ;;; ret None.
End trap.
