(* ===== verification/TrapProps.v ===== *)
(** * Traps are invisible to the interrupted program

    usertrap saves the program counter, serves the interrupt or the page fault,
    and returns to the trampoline with everything the program can observe as it
    was: the program counter, the saved registers, and every byte of its
    memory. An exception that the kernel does not serve ends the process. *)
From stdpp Require Import base list numbers strings.
From Stdlib Require Import ZArith Lia.
From S2P Require Import Ulib Prelude Memlayout Kalloc Vm VmTables VmUser VmSpace Proc Exec ExecProps Sysproc Trap.

(** A process whose trap frame belongs to neither its address space nor the
    allocator *)
Record utask `{KernelEnd} (pr : proc) (k : kmem) (l : list Z) : Prop := UTask {
  tk_uvm : uvm (p_pagetable pr) (p_sz pr) k l;
  tk_page : page_ok (p_trapframe pr);
  tk_foreign : forall x, in_page (p_trapframe pr) x -> foreign (p_pagetable pr) (mem k) l x;
}.

(** The user registers in the trap frame follow the words of the kernel. *)
Definition TF_RA : Z := 40.

(** What a program observes of its process, and where the kernel keeps it *)
Record kept (pr : proc) (k : kmem) (pr' : proc) (k' : kmem) : Prop := Kept {
  kp_pagetable : p_pagetable pr' = p_pagetable pr;
  kp_trapframe : p_trapframe pr' = p_trapframe pr;
  kp_kstack : p_kstack pr' = p_kstack pr;
  kp_sz : p_sz pr' = p_sz pr;
  kp_bytes : forall a, ubyte (p_pagetable pr) (mem k') a = ubyte (p_pagetable pr) (mem k) a;
  kp_access : forall a, readable (p_pagetable pr) (mem k) a = true -> readable (p_pagetable pr) (mem k') a = true;
  kp_regs : forall x, p_trapframe pr + TF_RA <= x < p_trapframe pr + PGSIZE -> mem k' x = mem k x;
}.

Lemma ukept_refl pr k : kept pr k pr k.
Proof. done. Qed.

Lemma ukept_trans pr1 k1 pr2 k2 pr3 k3 : kept pr1 k1 pr2 k2 -> kept pr2 k2 pr3 k3 -> kept pr1 k1 pr3 k3.
Proof.
  intros [A1 A2 A3 A4 A5 AA A6] [B1 B2 B3 B4 B5 BA B6]. rewrite A1 in B5, BA. rewrite A2 in B6.
  split; [congruence..|intros a; by rewrite B5, A5|by auto|intros x Hx; by rewrite B6, A6].
Qed.

Section frame.
Context `{KernelEnd}.

Lemma tf_self pr k l : utask pr k l -> in_page (p_trapframe pr) (p_trapframe pr).
Proof. intros _. unfold in_page, PGSIZE. lia. Qed.

Lemma tf_not_free pr k l : utask pr k l -> p_trapframe pr ∉ l.
Proof. intros Ht Hin. destruct (tk_foreign _ _ _ Ht _ (tf_self _ _ _ Ht)) as [[U _] _]. by apply (U _ Hin), (tf_self _ _ _ Ht). Qed.

(** The same process, with other fields changed *)
Lemma task_eq pr pr' k l : utask pr k l -> p_pagetable pr' = p_pagetable pr -> p_trapframe pr' = p_trapframe pr -> p_sz pr' = p_sz pr -> utask pr' k l.
Proof. intros [A B C] E1 E2 E3. by split; rewrite ?E1, ?E2, ?E3. Qed.

(** Writing into the trap frame *)
Lemma task_write pr k l m : utask pr k l -> same_outside (p_trapframe pr) (mem k) m -> bytes_ok m ->
  utask pr (set_mem m k) l /\ (forall a, ubyte (p_pagetable pr) m a = ubyte (p_pagetable pr) (mem k) a) /\
  forall a, pte_of m (p_pagetable pr) a = pte_of (mem k) (p_pagetable pr) a.
Proof.
  intros Ht Hs Hb. pose proof Ht as [Hu Hp Hf]. set (root := p_pagetable pr) in *.
  assert (kmem_inv (set_mem m k) l) as Hk by (apply (kmem_inv_write k l (p_trapframe pr)); [apply Hu|done|by eapply tf_not_free|done]).
  assert (forall x, owned root (mem k) x -> ~ in_page (p_trapframe pr) x) as Hno by (intros x Ho Hin; by eapply foreign_owned; [apply Hf|]).
  destruct (uvm_other root (p_sz pr) k l (set_mem m k) l Hu Hk Hb) as (U & P & B & O).
  { intros x Ho. split; [|by eapply owned_outside]. apply Hs. specialize (Hno x Ho). unfold in_page in Hno. lia. }
  split; [|by split].
  split; [done|done|]. intros x Hx. apply foreign_not_owned; [exact (proj1 (proj1 (Hf x Hx)))|]. intros Ho%O. by apply (Hno x).
Qed.

(** Storing the word at [off] of the trap frame *)
Lemma task_store pr k l off v : utask pr k l -> 0 <= off <= 32 ->
  let k' := set_mem (st64 (mem k) (p_trapframe pr + off) v) k in
  utask pr k' l /\ kept pr k pr k' /\ ld64 (mem k') (p_trapframe pr + off) = u64 v /\
  (forall a, pte_of (mem k') (p_pagetable pr) a = pte_of (mem k) (p_pagetable pr) a) /\
  forall o, o + 8 <= off \/ off + 8 <= o -> ld64 (mem k') (p_trapframe pr + o) = ld64 (mem k) (p_trapframe pr + o).
Proof.
  intros Ht Ho k'. destruct (task_write pr k l (st64 (mem k) (p_trapframe pr + off) v) Ht) as (T & B & R).
  { intros x Hx. apply st_other. unfold PGSIZE in *. lia. } { apply st_bytes_ok, (uv_bytes _ _ _ _ (tk_uvm _ _ _ Ht)). }
  split; [done|]. split; [|split; [|split; [done|]]].
  - split; try done; [intros a; unfold readable, valid; cbn [mem set_mem]; by rewrite R|]. intros x Hx. cbn. apply st_other. unfold TF_RA in *. lia.
  - apply ld_st_same.
  - intros o Hoo. cbn [mem k' set_mem]. apply ld_st_other. lia.
Qed.

(** A page fault: the trap frame and the bytes of the program stay *)
Lemma task_fault pr k l va : utask pr k l -> 0 <= va ->
  exists r k' l', vmfault (p_sz pr) (p_pagetable pr) (p_pagetable pr) va k = Ret r k' /\ utask pr k' l' /\ kept pr k pr k' /\
    (forall x, in_page (p_trapframe pr) x -> mem k' x = mem k x) /\
    (r <> 0 -> va < p_sz pr /\ valid (p_pagetable pr) (mem k) va = false /\ readable (p_pagetable pr) (mem k') va = true).
Proof.
  intros [Hu Hp Hf] Hva. destruct (vmfault_run (p_pagetable pr) (p_sz pr) k l va Hu Hva) as (r & k' & l' & E & [U X] & B & Hr).
  exists r, k', l'. split; [done|]. split; [split; [done|done|]; intros x Hx; by apply X, Hf|].
  assert (forall x, in_page (p_trapframe pr) x -> mem k' x = mem k x) as Htf by (intros x Hx; by apply X, Hf).
  assert (forall a, readable (p_pagetable pr) (mem k) a = true -> readable (p_pagetable pr) (mem k') a = true) as Hacc.
  { intros a Ha. pose proof (readable_low _ _ _ _ _ Hu Ha) as (Ha0 & Hav & _). destruct trapframe_max as [T1 T2].
    destruct Hr as [(_ & Hp' & _)|(_ & Hv & _ & Hp')]; specialize (Hp' a ltac:(lia)); cbn in Hp'; unfold readable, valid in *; [by rewrite Hp'|].
    destruct (Z.eqb_spec (a / 4096) (PGROUNDDOWN va / 4096)) as [Eq|_]; [|by rewrite Hp'].
    destruct (pgrounddown_page va) as (_ & Hp2 & _). rewrite (pte_of_vpn _ _ a va) in Hav by congruence. congruence. }
  split; [split; try done; intros x Hx; apply Htf; unfold in_page, TF_RA in *; lia|]. split; [done|].
  intros Hr0. destruct Hr as [[-> _]|(Hlt & Hv & Hpr & Ha)]; [done|]. split; [done|]. split; [done|].
  pose proof (uv_sz _ _ _ _ Hu). destruct trapframe_max as [T1 T2]. by apply (fault_mapped _ (mem k) (mem k') r va); [lia| |].
Qed.
End frame.

Section traps.
Context `{KernelEnd} {F D : Type} `{FileOps F} `{Devices D}.
Context (uservec_off kernelvec usertrap_addr ticks_chan : Z).
Context (syscall : Z -> M (pstate F) unit).
Abbreviation TS := (tstate F D).

Definition proc_at (s : TS) (p : Z) : proc := procs (ps s) p.
Definition mem_at (s : TS) : kmem := km (ps s).

(** The interrupt handlers of the devices return. *)
Definition handlers_return : Prop :=
  forall d, (exists c d', uartintr d = Ret c d') /\ (exists c d', virtio_disk_intr d = Ret c d').

(** The registers that an interrupt handler leaves alone *)
Definition same_csrs (h h' : hart) : Prop :=
  sstatus h' = sstatus h /\ sepc h' = sepc h /\ scause h' = scause h /\ stval h' = stval h /\ stvec h' = stvec h /\ satp h' = satp h /\ tp h' = tp h.

(** What an interrupt does to the process it interrupts: nothing *)
Definition unnoticed (p : Z) (s s' : TS) : Prop :=
  same_csrs (hrt s) (hrt s') /\ proc_at s' p = proc_at s p /\ mem_at s' = mem_at s /\ initproc (ps s') = initproc (ps s).

Lemma unnoticed_refl p s : unnoticed p s s.
Proof. done. Qed.
Lemma unnoticed_trans p s1 s2 s3 : unnoticed p s1 s2 -> unnoticed p s2 s3 -> unnoticed p s1 s3.
Proof. unfold unnoticed, same_csrs. intros ? ?. destruct_and!. repeat split; congruence. Qed.

Lemma wakeup_other p chan (s : pstate F) : exists s', wakeup p chan s = Ret tt s' /\
  procs s' p = procs s p /\ km s' = km s /\ initproc s' = initproc s /\ ticks s' = ticks s.
Proof.
  unfold wakeup. generalize (Z.to_nat NPROC) as n, 0 as i. intros n. revert s.
  induction n as [|n IH]; intros s i; cbn [for_loop]; [by exists s|].
  unfold when. destruct (Z.eqb_spec i p) as [->|Hne]; cbn [negb]; [apply IH|].
  destruct (IH (on_proc i (wake chan) s) (i + 1)) as (s' & E & A & B & C & G). exists s'. split; [done|].
  rewrite A, B, C, G. cbn. by rewrite fupd_ne.
Qed.

Lemma proc_op_run {A} (m : M (pstate F) A) (s : TS) a t : m (ps s) = Ret a t -> proc_op m s = Ret a (set_ps t s).
Proof. intros E. unfold proc_op, lift. by rewrite E. Qed.

Lemma dev_op_run {A} (m : M D A) (s : TS) a t : m (dev s) = Ret a t -> dev_op m s = Ret a (set_dev t s).
Proof. intros E. unfold dev_op, lift. by rewrite E. Qed.

Lemma wakeups_run p cs (s : TS) : exists s', wakeups p cs s = Ret tt s' /\ unnoticed p s s' /\ ticks (ps s') = ticks (ps s).
Proof.
  revert s. induction cs as [|c cs IH]; intros s; cbn [wakeups]; [by exists s|].
  destruct (wakeup_other p c (ps s)) as (t & E & A & B & C & G). rewrite (bind_step _ _ _ _ _ (proc_op_run _ s _ _ E)).
  destruct (IH (set_ps t s)) as (s' & E' & U & T). exists s'. split; [done|]. split; [|by rewrite T].
  eapply unnoticed_trans; [|exact U]. done.
Qed.

Lemma plic_complete_run irq (s : TS) p : exists s', plic_complete irq s = Ret tt s' /\ unnoticed p s s' /\ ticks (ps s') = ticks (ps s).
Proof. eexists. split; [reflexivity|]. done. Qed.

(** The interrupt of a device *)
Lemma external_run p (s : TS) : handlers_return -> scause (hrt s) = 0x8000000000000009 ->
  exists s', devintr ticks_chan p s = Ret 1 s' /\ unnoticed p s s' /\ ticks (ps s') = ticks (ps s).
Proof.
  intros Hh Hc. unfold devintr. rewrite (bind_step _ _ s _ s) by done. rewrite Hc. cbn [Z.eqb Pos.eqb].
  assert (exists irq d, plic_claim s = Ret irq (set_dev d s)) as (irq & d & E).
  { unfold plic_claim, cpuid, dev_op, lift, bind, gets. destruct (r32 _ _) as [v d']. by exists (i32 v), d'. }
  rewrite (bind_step _ _ _ _ _ E). set (s1 := set_dev d s).
  assert (exists s2, (if irq =? UART0_IRQ then c <- dev_op uartintr ;; wakeups p c
     else if irq =? VIRTIO0_IRQ then c <- dev_op virtio_disk_intr ;; wakeups p c else ret tt)%kernel s1 = Ret tt s2 /\ unnoticed p s s2 /\ ticks (ps s2) = ticks (ps s))
    as (s2 & E2 & U2 & T2).
  { destruct (Hh (dev s1)) as [(c1 & d1 & H1') (c2 & d2 & H2')].
    destruct (irq =? UART0_IRQ); [|destruct (irq =? VIRTIO0_IRQ)].
    - rewrite (bind_step _ _ _ _ _ (dev_op_run _ s1 _ _ H1')). apply (wakeups_run p c1 (set_dev d1 s1)).
    - rewrite (bind_step _ _ _ _ _ (dev_op_run _ s1 _ _ H2')). apply (wakeups_run p c2 (set_dev d2 s1)).
    - by exists s1. }
  rewrite (bind_step _ _ _ _ _ E2). unfold when. destruct (negb (irq =? 0)).
  - destruct (plic_complete_run irq s2 p) as (s3 & E3 & U3 & T3). rewrite (bind_step _ _ _ _ _ E3). exists s3. split; [done|].
    split; [by eapply unnoticed_trans|congruence].
  - by exists s2.
Qed.

(** The clock: only hart 0 counts, every hart asks for its next interrupt *)
Lemma timer_run p (s : TS) : scause (hrt s) = 0x8000000000000005 ->
  exists s', devintr ticks_chan p s = Ret 2 s' /\ unnoticed p s s' /\
    ticks (ps s') = (if i32 (tp (hrt s)) =? 0 then u32 (ticks (ps s) + 1) else ticks (ps s)) /\
    stimecmp (hrt s') = u64 (time (hrt s) + 1000000).
Proof.
  intros Hc. unfold devintr. rewrite (bind_step _ _ s _ s) by done. rewrite Hc. cbn [Z.eqb Pos.eqb].
  unfold clockintr. rewrite bind_assoc. rewrite (bind_step cpuid _ s (i32 (tp (hrt s))) s) by done. unfold when.
  destruct (i32 (tp (hrt s)) =? 0).
  - destruct (wakeup_other p ticks_chan (set_ticks (u32 (ticks (ps s) + 1)) (ps s))) as (t & E & A & B & C & G).
    eexists. split; [|split; [|split]].
    + rewrite bind_assoc. rewrite (bind_step _ _ s tt (set_ps t s)); [reflexivity|]. unfold bind at 1, proc_op at 1, lift at 1, modify. cbn.
      unfold proc_op, lift. cbn. by rewrite E.
    + done.
    + cbn. by rewrite G.
    + done.
  - eexists. split; [reflexivity|]. done.
Qed.

(** Saving the program counter *)
Lemma enter_run p (s : TS) l : utask (proc_at s p) (mem_at s) l ->
  exists s', usertrap_enter kernelvec p s = Ret tt s' /\ hrt s' = w_stvec kernelvec (hrt s) /\
    utask (proc_at s' p) (mem_at s') l /\ kept (proc_at s p) (mem_at s) (proc_at s' p) (mem_at s') /\
    ld64 (mem (mem_at s')) (p_trapframe (proc_at s p) + TF_EPC) = u64 (sepc (hrt s)) /\
    p_killed (proc_at s' p) = p_killed (proc_at s p) /\ (forall i, i <> p -> proc_at s' i = proc_at s i) /\
    p_cpu_ticks (proc_at s' p) = u64 (p_cpu_ticks (proc_at s p) + u64 (ticks (ps s) - p_cpu_ticks_base (proc_at s p))) /\
    ticks (ps s') = ticks (ps s) /\
    (forall a, pte_of (mem (mem_at s')) (p_pagetable (proc_at s p)) a = pte_of (mem (mem_at s)) (p_pagetable (proc_at s p)) a).
Proof.
  intros Ht. destruct (task_store _ _ _ TF_EPC (sepc (hrt s)) Ht) as (T & K & L & P & _); [by vm_compute|].
  eexists. split; [reflexivity|]. unfold proc_at, mem_at in *. cbn. rewrite fupd_eq.
  split; [done|]. split; [by apply (task_eq (procs (ps s) p))|]. split; [destruct K; by split|]. split; [done|]. split; [done|].
  split; [|done]. intros i Hi. by rewrite fupd_ne.
Qed.

(** The state in which the trampoline returns to the program of [p] at [epc] *)
Record to_user (p epc : Z) (s s' : TS) : Prop := ToUser {
  tu_sepc : sepc (hrt s') = epc;
  tu_spp : Z.testbit (sstatus (hrt s')) 8 = false;
  tu_spie : Z.testbit (sstatus (hrt s')) 5 = true;
  tu_sie : Z.testbit (sstatus (hrt s')) 1 = false;
  tu_stvec : stvec (hrt s') = TRAMPOLINE + uservec_off;
  tu_words :
    let w o := ld64 (mem (mem_at s')) (p_trapframe (proc_at s p) + o) in
    w TF_KERNEL_SATP = u64 (satp (hrt s)) /\ w TF_KERNEL_SP = u64 (p_kstack (proc_at s p) + PGSIZE) /\
    w TF_KERNEL_TRAP = u64 usertrap_addr /\ w TF_KERNEL_HARTID = u64 (tp (hrt s));
  tu_kept : kept (proc_at s p) (mem_at s) (proc_at s' p) (mem_at s');
  tu_task : exists l, utask (proc_at s' p) (mem_at s') l;
  tu_killed : p_killed (proc_at s' p) = p_killed (proc_at s p);
}.

Lemma user_status x : let y := Z.lor (Z.land (Z.land x (Z.lnot SSTATUS_SIE)) (Z.lnot SSTATUS_SPP)) SSTATUS_SPIE in
  Z.testbit y 8 = false /\ Z.testbit y 5 = true /\ Z.testbit y 1 = false.
Proof. cbv zeta. unfold SSTATUS_SIE, SSTATUS_SPP, SSTATUS_SPIE. rewrite !Z.lor_spec, !Z.land_spec, !Z.lnot_spec by lia. cbn. by rewrite !andb_false_r, !orb_true_r. Qed.

(** The four words that prepare_return stores *)
Definition put (pr : proc) (off v : Z) (k : kmem) : kmem := set_mem (st64 (mem k) (p_trapframe pr + off) v) k.
Definition kernel_words (pr : proc) (h : hart) (k : kmem) : kmem :=
  put pr TF_KERNEL_HARTID (tp h) (put pr TF_KERNEL_TRAP usertrap_addr (put pr TF_KERNEL_SP (u64 (p_kstack pr + PGSIZE)) (put pr TF_KERNEL_SATP (satp h) k))).

Lemma kernel_words_run pr h k l : utask pr k l -> let k' := kernel_words pr h k in let w o := ld64 (mem k') (p_trapframe pr + o) in
  utask pr k' l /\ kept pr k pr k' /\ w TF_EPC = ld64 (mem k) (p_trapframe pr + TF_EPC) /\
  w TF_KERNEL_SATP = u64 (satp h) /\ w TF_KERNEL_SP = u64 (p_kstack pr + PGSIZE) /\ w TF_KERNEL_TRAP = u64 usertrap_addr /\ w TF_KERNEL_HARTID = u64 (tp h).
Proof.
  intros Ht k' w. subst k' w. cbv beta. unfold kernel_words.
  destruct (task_store pr _ l TF_KERNEL_SATP (satp h) Ht) as (T1 & K1 & L1 & _ & O1); [by vm_compute|].
  change (set_mem _ k) with (put pr TF_KERNEL_SATP (satp h) k) in *. set (k1 := put pr TF_KERNEL_SATP (satp h) k) in *. clearbody k1.
  destruct (task_store pr _ l TF_KERNEL_SP (u64 (p_kstack pr + PGSIZE)) T1) as (T2 & K2 & L2 & _ & O2); [by vm_compute|].
  change (set_mem _ k1) with (put pr TF_KERNEL_SP (u64 (p_kstack pr + PGSIZE)) k1) in *. set (k2 := put _ _ _ k1) in *. clearbody k2.
  destruct (task_store pr _ l TF_KERNEL_TRAP usertrap_addr T2) as (T3 & K3 & L3 & _ & O3); [by vm_compute|].
  change (set_mem _ k2) with (put pr TF_KERNEL_TRAP usertrap_addr k2) in *. set (k3 := put _ _ _ k2) in *. clearbody k3.
  destruct (task_store pr _ l TF_KERNEL_HARTID (tp h) T3) as (T4 & K4 & L4 & _ & O4); [by vm_compute|].
  change (set_mem _ k3) with (put pr TF_KERNEL_HARTID (tp h) k3) in *. set (k4 := put _ _ _ k3) in *. clearbody k4.
  unfold TF_KERNEL_SATP, TF_KERNEL_SP, TF_KERNEL_TRAP, TF_KERNEL_HARTID, TF_EPC in *.
  split; [exact T4|]. split; [exact (ukept_trans _ _ _ _ _ _ K1 (ukept_trans _ _ _ _ _ _ K2 (ukept_trans _ _ _ _ _ _ K3 K4)))|].
  rewrite L4, !O4, L3, !O3, L2, !O2, L1, O1 by lia. repeat split; try done. unfold u64, wrap. by rewrite Z.mod_mod.
Qed.

Definition user_hart (epc : Z) (h : hart) : hart :=
  w_sepc epc (w_sstatus (Z.lor (Z.land (Z.land (sstatus h) (Z.lnot SSTATUS_SIE)) (Z.lnot SSTATUS_SPP)) SSTATUS_SPIE) (w_stvec (TRAMPOLINE + uservec_off) h)).

Lemma prepare_return_eq p (s : TS) :
  prepare_return uservec_off usertrap_addr p s =
  let k' := kernel_words (proc_at s p) (hrt s) (mem_at s) in
  Ret tt (TSt (user_hart (ld64 (mem k') (p_trapframe (proc_at s p) + TF_EPC)) (hrt s)) (set_km k' (ps s)) (dev s)).
Proof. destruct s as [h [] d]. reflexivity. Qed.

Lemma usertrap_return_eq p (s : TS) :
  usertrap_return uservec_off usertrap_addr p s =
  let k' := kernel_words (proc_at s p) (hrt s) (mem_at s) in
  Ret (MAKE_SATP (p_pagetable (proc_at s p)))
    (TSt (user_hart (ld64 (mem k') (p_trapframe (proc_at s p) + TF_EPC)) (hrt s)) (on_proc p (set_cpu_ticks_base (ticks (ps s))) (set_km k' (ps s))) (dev s)).
Proof.
  cbv zeta. unfold usertrap_return. rewrite (bind_step _ _ _ _ _ (prepare_return_eq p s)).
  set (k' := kernel_words _ _ _). clearbody k'. unfold bind, proc_op, lift, gets, modify, upd, proc_of, ret. unfold gets, modify.
  cbn [ps ticks set_km hrt dev set_ps on_proc set_procs procs]. by rewrite fupd_eq.
Qed.

Lemma return_run p (s : TS) l : utask (proc_at s p) (mem_at s) l ->
  exists s', usertrap_return uservec_off usertrap_addr p s = Ret (MAKE_SATP (p_pagetable (proc_at s p))) s' /\
    to_user p (ld64 (mem (mem_at s)) (p_trapframe (proc_at s p) + TF_EPC)) s s' /\ initproc (ps s') = initproc (ps s).
Proof.
  intros Ht. rewrite usertrap_return_eq. cbv zeta. eexists. split; [reflexivity|]. split; [|done].
  destruct (kernel_words_run _ (hrt s) _ l Ht) as (T & [A1 A2 A3 A4 A5 AA A6] & W0 & W). destruct (user_status (sstatus (hrt s))) as (S8 & S5 & S1).
  set (k' := kernel_words (proc_at s p) (hrt s) (mem_at s)) in *. clearbody k'.
  split; unfold proc_at, mem_at; cbn [hrt ps km procs set_km on_proc set_procs]; rewrite ?fupd_eq.
  - exact W0.
  - exact S8.
  - exact S5.
  - exact S1.
  - reflexivity.
  - exact W.
  - by split.
  - exists l. by apply (task_eq (proc_at s p)).
  - reflexivity.
Qed.

(** kexit(-1) and then never running again *)
Definition exits (p : Z) : M (tstate F D) (option Z) := (proc_op (kexit p (-1)) ;;; sleep_on 0)%kernel.

Lemma exit_if_killed_no p (s : TS) : p_killed (proc_at s p) = 0 -> exit_if_killed p s = Ret tt s.
Proof. intros E. unfold exit_if_killed, proc_op, lift, killed, bind, proc_of, gets, ret. unfold proc_at in E. rewrite E. by destruct s. Qed.

Lemma exit_if_killed_yes p (s : TS) (f : unit -> M (tstate F D) (option Z)) : p_killed (proc_at s p) <> 0 ->
  bind (exit_if_killed p) f s = exits p s.
Proof.
  intros E. unfold exit_if_killed, exits, proc_op, lift, killed, bind, proc_of, gets, ret, sleep_on. unfold proc_at in E.
  rewrite (proj2 (Z.eqb_neq _ _) E). cbn [negb]. destruct s as [h t d]. unfold set_ps. cbn [ps hrt dev]. by destruct (kexit p (-1) t).
Qed.

Abbreviation trap := (usertrap uservec_off kernelvec usertrap_addr ticks_chan syscall).
Abbreviation resume := (usertrap_return uservec_off usertrap_addr).

(** to_user is relative to the state at the return; earlier states that the
    kernel reached without touching the process *)
Lemma to_user_from p epc (s s1 s' : TS) : kept (proc_at s p) (mem_at s) (proc_at s1 p) (mem_at s1) ->
  satp (hrt s1) = satp (hrt s) -> tp (hrt s1) = tp (hrt s) -> p_killed (proc_at s1 p) = p_killed (proc_at s p) ->
  to_user p epc s1 s' -> to_user p epc s s'.
Proof.
  intros K E1 E2 E3 [A B C G I W K' T X]. rewrite E1, E2, (kp_trapframe _ _ _ _ K), (kp_kstack _ _ _ _ K) in W. rewrite E3 in X.
  split; try done. by eapply ukept_trans.
Qed.

(** An interrupted or faulting process *)
Record interrupted (p : Z) (s : TS) (l : list Z) : Prop := Interrupted {
  ir_user : Z.land (sstatus (hrt s)) SSTATUS_SPP = 0;
  ir_sepc : 0 <= sepc (hrt s) < 2 ^ 64;
  ir_stval : 0 <= stval (hrt s);
  ir_task : utask (proc_at s p) (mem_at s) l;
  ir_alive : p_killed (proc_at s p) = 0;
}.

(** The state after usertrap has saved the program counter: served by
    [usertrap_handle], then the return *)
Record entered (p : Z) (s s1 : TS) (l : list Z) : Prop := Entered {
  en_task : utask (proc_at s1 p) (mem_at s1) l;
  en_kept : kept (proc_at s p) (mem_at s) (proc_at s1 p) (mem_at s1);
  en_epc : ld64 (mem (mem_at s1)) (p_trapframe (proc_at s p) + TF_EPC) = sepc (hrt s);
  en_satp : satp (hrt s1) = satp (hrt s);
  en_tp : tp (hrt s1) = tp (hrt s);
  en_stvec : stvec (hrt s1) = kernelvec;
}.

Lemma trap_enter p (s : TS) l : interrupted p s l -> exists s1, entered p s s1 l /\ p_killed (proc_at s1 p) = 0 /\ (forall i, i <> p -> proc_at s1 i = proc_at s i) /\
  scause (hrt s1) = scause (hrt s) /\ stval (hrt s1) = stval (hrt s) /\ ticks (ps s1) = ticks (ps s) /\ time (hrt s1) = time (hrt s) /\
  (forall a, pte_of (mem (mem_at s1)) (p_pagetable (proc_at s p)) a = pte_of (mem (mem_at s)) (p_pagetable (proc_at s p)) a) /\
  trap p s = (which_dev <- usertrap_handle ticks_chan syscall p ;; exit_if_killed p ;;;
    if which_dev =? 2 then proc_op (yield p) ;;; ret None else v <- resume p ;; ret (Some v))%kernel s1.
Proof.
  intros [U P V T A]. destruct (enter_run p s l T) as (s1 & E & Eh & T1 & K & W & X & O & _ & Tk & P'). exists s1.
  split; [|split; [congruence|split; [done|]]].
  - split; try done; [|by rewrite Eh..]. rewrite W. unfold u64, wrap. by apply Z.mod_small.
  - rewrite Eh. do 4 (split; [done|]). split; [done|]. unfold usertrap. rewrite (bind_step _ _ s (sstatus (hrt s)) s) by done.
    rewrite U. cbn [Z.eqb negb]. by rewrite (bind_step _ _ _ _ _ E).
Qed.

(** Going back after the handler *)
Lemma trap_back p (s s1 : TS) l : entered p s s1 l -> p_killed (proc_at s p) = 0 -> p_killed (proc_at s1 p) = 0 ->
  exists s', (exit_if_killed p ;;; v <- resume p ;; ret (Some v))%kernel s1 = Ret (Some (MAKE_SATP (p_pagetable (proc_at s p)))) s' /\
    to_user p (sepc (hrt s)) s s' /\ kept (proc_at s1 p) (mem_at s1) (proc_at s' p) (mem_at s').
Proof.
  intros [T K W S1 S2 S3] A0 A1. rewrite (bind_step _ _ _ _ _ (exit_if_killed_no p s1 A1)).
  destruct (return_run p s1 l T) as (s' & E & U & _). rewrite (kp_trapframe _ _ _ _ K), W in U. rewrite (kp_pagetable _ _ _ _ K) in E.
  exists s'. rewrite (bind_step _ _ _ _ _ E). split; [done|]. split; [|apply U]. apply (to_user_from p _ s s1); try done. congruence.
Qed.

Lemma entered_unnoticed p (s s1 s2 : TS) l : entered p s s1 l -> unnoticed p s1 s2 -> entered p s s2 l.
Proof.
  intros [T K W S1 S2 S3] ((_ & _ & _ & _ & C0 & C1 & C2) & P & M & _). split; rewrite ?P, ?M; try done; congruence.
Qed.

Lemma handle_dev p d (s s1 s2 : TS) : scause (hrt s) <> 8 -> scause (hrt s1) = scause (hrt s) -> devintr ticks_chan p s1 = Ret d s2 -> d <> 0 ->
  usertrap_handle ticks_chan syscall p s1 = Ret d s2.
Proof.
  intros H8 Ec E Hd. unfold usertrap_handle. rewrite (bind_step _ _ s1 (scause (hrt s1)) s1) by done. rewrite Ec, (proj2 (Z.eqb_neq _ _) H8).
  rewrite (bind_step _ _ _ _ _ E). by rewrite (proj2 (Z.eqb_neq _ _) Hd).
Qed.

(** usertrap, for a device interrupt *)
Lemma trap_external p (s : TS) l : handlers_return -> interrupted p s l -> scause (hrt s) = 0x8000000000000009 ->
  exists s', trap p s = Ret (Some (MAKE_SATP (p_pagetable (proc_at s p)))) s' /\ to_user p (sepc (hrt s)) s s'.
Proof.
  intros Hh Hi Hc. destruct (trap_enter p s l Hi) as (s1 & En & A & _ & Ec & Ev & Et & Em & Pt & ->).
  destruct (external_run p s1 Hh ltac:(congruence)) as (s2 & E2 & U & T2).
  rewrite (bind_step _ _ _ _ _ (handle_dev p 1 s s1 s2 ltac:(lia) Ec E2 ltac:(lia))). cbn [Z.eqb Pos.eqb].
  pose proof (entered_unnoticed _ _ _ _ _ En U) as En2. destruct U as (_ & P & _).
  destruct (trap_back p s s2 l En2) as (s' & E & V & _); [apply Hi|by rewrite P|]. by exists s'.
Qed.

Lemma yield_run p (s : TS) : proc_op (yield p) s = Ret tt (set_ps (on_proc p (set_state RUNNABLE) (ps s)) s).
Proof. apply proc_op_run. unfold yield, sched. unfold upd, bind, modify, proc_of, gets. cbn [procs on_proc set_procs]. by rewrite fupd_eq. Qed.

(** The process when it is scheduled again: nobody has touched its memory, its
    trap frame or its place in the table *)
Definition undisturbed (p : Z) (s s' : TS) : Prop :=
  (exists l, utask (proc_at s' p) (mem_at s') l) /\ kept (proc_at s p) (mem_at s) (proc_at s' p) (mem_at s') /\
  ld64 (mem (mem_at s')) (p_trapframe (proc_at s p) + TF_EPC) = ld64 (mem (mem_at s)) (p_trapframe (proc_at s p) + TF_EPC).

(** usertrap, for the clock: the process gives up the CPU *)
Lemma trap_timer p (s : TS) l : interrupted p s l -> scause (hrt s) = 0x8000000000000005 ->
  exists s', trap p s = Ret None s' /\ p_state (proc_at s' p) = RUNNABLE /\
    kept (proc_at s p) (mem_at s) (proc_at s' p) (mem_at s') /\
    ticks (ps s') = (if i32 (tp (hrt s)) =? 0 then u32 (ticks (ps s) + 1) else ticks (ps s)) /\
    stimecmp (hrt s') = u64 (time (hrt s) + 1000000) /\
    forall s2, undisturbed p s' s2 ->
      exists s3, resume p s2 = Ret (MAKE_SATP (p_pagetable (proc_at s p))) s3 /\ to_user p (sepc (hrt s)) s2 s3 /\
        kept (proc_at s p) (mem_at s) (proc_at s3 p) (mem_at s3).
Proof.
  intros Hi Hc. destruct (trap_enter p s l Hi) as (s1 & En & A & _ & Ec & Ev & Et & Em & Pt & ->).
  destruct (timer_run p s1 ltac:(congruence)) as (s2 & E2 & U & T2 & M2).
  rewrite (bind_step _ _ _ _ _ (handle_dev p 2 s s1 s2 ltac:(lia) Ec E2 ltac:(lia))). cbn [Z.eqb Pos.eqb].
  pose proof (entered_unnoticed _ _ _ _ _ En U) as [T K W S1 S2 S3]. destruct U as (_ & P & _).
  rewrite (bind_step _ _ _ _ _ (exit_if_killed_no p s2 ltac:(by rewrite P))).
  set (s3 := set_ps (on_proc p (set_state RUNNABLE) (ps s2)) s2).
  assert (proc_at s3 p = set_state RUNNABLE (proc_at s2 p)) as E3 by (unfold proc_at, s3; cbn; by rewrite fupd_eq).
  assert (kept (proc_at s p) (mem_at s) (proc_at s3 p) (mem_at s3)) as K3 by (rewrite E3; destruct K; by split).
  exists s3. split.
  { by rewrite (bind_step _ _ _ _ _ (yield_run p s2)). }
  split; [by rewrite E3|]. split; [done|]. rewrite (en_tp _ _ _ _ En), Et in T2. rewrite Em in M2. split; [exact T2|]. split; [exact M2|].
  intros s4 ((l4 & T4) & K4 & W4). pose proof (ukept_trans _ _ _ _ _ _ K3 K4) as K5. destruct (return_run p s4 l4 T4) as (s5 & E5 & U5 & _).
  rewrite (kp_pagetable _ _ _ _ K5) in E5. exists s5. split; [done|].
  rewrite (kp_trapframe _ _ _ _ K3) in W4. rewrite (kp_trapframe _ _ _ _ K5), W4 in U5. change (mem_at s3) with (mem_at s2) in U5. rewrite W in U5.
  split; [done|]. eapply ukept_trans; [exact K5|]. apply U5.
Qed.

(** usertrap, for an exception: a page fault that vmfault serves, or the end of
    the process *)
Lemma trap_exception p (s : TS) l : interrupted p s l -> scause (hrt s) <> 8 -> scause (hrt s) <> 0x8000000000000009 -> scause (hrt s) <> 0x8000000000000005 ->
  (exists s', trap p s = Ret (Some (MAKE_SATP (p_pagetable (proc_at s p)))) s' /\ to_user p (sepc (hrt s)) s s' /\
    (scause (hrt s) = 13 \/ scause (hrt s) = 15) /\ stval (hrt s) < p_sz (proc_at s p) /\
    valid (p_pagetable (proc_at s p)) (mem (mem_at s)) (stval (hrt s)) = false /\
    readable (p_pagetable (proc_at s p)) (mem (mem_at s')) (stval (hrt s)) = true) \/
  (exists s', trap p s = exits p s' /\ p_killed (proc_at s' p) = 1 /\ (forall i, i <> p -> proc_at s' i = proc_at s i) /\
    kept (proc_at s p) (mem_at s) (proc_at s' p) (mem_at s')).
Proof.
  intros Hi H8 Hne Hnt. destruct (trap_enter p s l Hi) as (s1 & En & A & Oth & Ec & Ev & Et & Em & Pt & ->).
  pose proof En as [T K W S1 S2 S3]. set (pr := proc_at s p) in *. set (pr1 := proc_at s1 p) in *.
  assert (valid (p_pagetable pr) (mem (mem_at s1)) (stval (hrt s)) = valid (p_pagetable pr) (mem (mem_at s)) (stval (hrt s))) as Hval.
  { unfold valid. by rewrite Pt. }
  destruct (task_fault pr1 (mem_at s1) l (stval (hrt s)) T (ir_stval _ _ _ Hi)) as (r & k' & l' & E & T' & K' & Htf & Hr).
  set (s2 := set_ps (set_km k' (ps s1)) s1). set (fault := (scause (hrt s) =? 15) || (scause (hrt s) =? 13)).
  set (s3 := if fault then s2 else s1).
  assert (kept pr (mem_at s) (proc_at s3 p) (mem_at s3)) as K3 by (unfold s3; destruct fault; [by eapply ukept_trans|done]).
  assert (usertrap_handle ticks_chan syscall p s1 = (if fault && negb (r =? 0) then ret 0 else proc_op (setkilled p) ;;; ret 0)%kernel s3) as Eh.
  { unfold usertrap_handle. rewrite (bind_step _ _ s1 (scause (hrt s1)) s1) by done. rewrite Ec, (proj2 (Z.eqb_neq _ _) H8).
    assert (devintr ticks_chan p s1 = Ret 0 s1) as E0.
    { unfold devintr. rewrite (bind_step _ _ s1 (scause (hrt s1)) s1) by done. by rewrite Ec, (proj2 (Z.eqb_neq _ _) Hne), (proj2 (Z.eqb_neq _ _) Hnt). }
    rewrite (bind_step _ _ _ _ _ E0). cbn [Z.eqb negb]. rewrite (bind_step _ _ s1 pr1 s1) by (by destruct s1). rewrite (bind_step _ _ s1 (stval (hrt s)) s1) by (by rewrite <- Ev).
    fold fault. unfold s3. destruct fault; [|done]. cbn [andb].
    rewrite (bind_step _ _ s1 (negb (r =? 0)) s2); [by destruct (negb (r =? 0))|].
    rewrite (bind_step _ _ s1 r s2); [done|]. apply proc_op_run. unfold memory_op, lift. change (km (ps s1)) with (mem_at s1). by rewrite E. }
  destruct (fault && negb (r =? 0)) eqn:Ef.
  - left. apply andb_prop in Ef as [Ef1 Ef2]. rewrite (bind_step _ _ s1 0 s3) by by rewrite Eh. cbn [Z.eqb]. unfold s3 in *. rewrite Ef1 in *.
    assert (entered p s s2 l') as En2.
    { split; try done. rewrite <- W. apply ld_ext. intros x Hx. apply Htf.
      rewrite (kp_trapframe _ _ _ _ K). unfold in_page, TF_EPC, PGSIZE in *. lia. }
    destruct (trap_back p s s2 l' En2) as (s' & E' & U & K5); [apply Hi|done|]. exists s'. split; [done|]. split; [done|].
    apply negb_true_iff, Z.eqb_neq in Ef2. destruct (Hr Ef2) as (R1 & R2 & R3).
    rewrite (kp_pagetable _ _ _ _ K) in R2, R3. rewrite (kp_sz _ _ _ _ K) in R1.
    split; [unfold fault in Ef1; lia|]. split; [done|]. split; [congruence|].
    pose proof (kp_access _ _ _ _ K5 (stval (hrt s))) as Q. change (proc_at s2 p) with pr1 in Q. rewrite (kp_pagetable _ _ _ _ K) in Q. by apply Q.
  - right. set (s4 := set_ps (on_proc p (set_killed 1) (ps s3)) s3).
    assert (proc_at s4 p = set_killed 1 (proc_at s3 p)) as E4 by (unfold proc_at, s4; cbn; by rewrite fupd_eq).
    rewrite (bind_step _ _ s1 0 s4) by by rewrite Eh. exists s4. split; [by rewrite exit_if_killed_yes by by rewrite E4|].
    split; [by rewrite E4|]. split; [|rewrite E4; destruct K3; by split].
    intros i Hii. rewrite <- Oth by done. unfold s4, proc_at. cbn. rewrite fupd_ne by done. unfold s3. by destruct fault.
Qed.

(** usertrap, for a system call: the program continues after the ecall *)
Lemma trap_syscall p (s : TS) l : interrupted p s l -> scause (hrt s) = 8 ->
  exists s2, utask (proc_at s2 p) (mem_at s2) l /\ kept (proc_at s p) (mem_at s) (proc_at s2 p) (mem_at s2) /\
    ld64 (mem (mem_at s2)) (p_trapframe (proc_at s p) + TF_EPC) = u64 (sepc (hrt s) + 4) /\
    Z.testbit (sstatus (hrt s2)) 1 = true /\ stvec (hrt s2) = kernelvec /\
    forall t l', syscall p (ps s2) = Ret tt t -> utask (procs t p) (km t) l' -> p_killed (procs t p) = 0 ->
      exists s', trap p s = Ret (Some (MAKE_SATP (p_pagetable (procs t p)))) s' /\
        to_user p (ld64 (mem (km t)) (p_trapframe (procs t p) + TF_EPC)) (set_ps t s2) s'.
Proof.
  intros Hi Hc. destruct (trap_enter p s l Hi) as (s1 & [T K W S1 S2 S3] & A & _ & Ec & Ev & Et & Em & _ & ->).
  destruct (task_store _ _ _ TF_EPC (u64 (sepc (hrt s) + 4)) T) as (T2 & K2 & L2 & _ & _); [by vm_compute|].
  set (k2 := set_mem _ (mem_at s1)) in *. set (s2 := TSt (intr_on (hrt s1)) (set_km k2 (ps s1)) (dev s1)).
  assert (k2 = put (proc_at s1 p) TF_EPC (u64 (sepc (hrt s) + 4)) (mem_at s1)) as Ek by done. clearbody k2.
  exists s2. split; [exact T2|]. split; [exact (ukept_trans _ _ _ _ _ _ K K2)|].
  rewrite (kp_trapframe _ _ _ _ K) in L2. split; [change (mem_at s2) with k2; rewrite L2; unfold u64, wrap; by rewrite Z.mod_mod|].
  split; [change (sstatus (hrt s2)) with (Z.lor (sstatus (hrt s1)) SSTATUS_SIE); rewrite Z.lor_spec; apply orb_true_r|]. split; [exact S3|].
  intros t l' Es Tt At. set (s3 := set_ps t s2).
  assert (usertrap_handle ticks_chan syscall p s1 = Ret 0 s3) as Eh.
  { unfold usertrap_handle. rewrite (bind_step _ _ s1 (scause (hrt s1)) s1) by done. rewrite Ec, Hc. cbn [Z.eqb Pos.eqb].
    rewrite (bind_step _ _ _ _ _ (exit_if_killed_no p s1 A)). rewrite (bind_step _ _ s1 (proc_at s1 p) s1) by (by destruct s1).
    rewrite (bind_step _ _ s1 (sepc (hrt s)) s1); [|unfold gets; f_equal; rewrite <- W, (kp_trapframe _ _ _ _ K); done].
    rewrite (bind_step _ _ s1 tt (set_ps (set_km k2 (ps s1)) s1)) by (rewrite Ek; by destruct s1).
    rewrite (bind_step _ _ _ tt s2) by done. rewrite (bind_step _ _ _ _ _ (proc_op_run _ s2 _ _ Es)). done. }
  rewrite (bind_step _ _ _ _ _ Eh). cbn [Z.eqb]. rewrite (bind_step _ _ _ _ _ (exit_if_killed_no p s3 At)).
  destruct (return_run p s3 l' Tt) as (s' & E & U & _). exists s'. by rewrite (bind_step _ _ _ _ _ E).
Qed.

(** C19. usertrap does what its trap needs and is otherwise invisible. For a process
    that traps in user mode and has not been killed:
    - after a device interrupt it returns the page table of the process, with
      the CPU ready to go back to the interrupted instruction in user mode with
      interrupts on and traps sent to the trampoline, the words the trampoline
      reads in place, and the registers and every byte of the program unchanged;
    - after a clock interrupt the process is RUNNABLE, the clock has advanced
      (on hart 0) and the next tick is asked for; whenever the process gets the
      CPU back it returns in the same way;
    - a page fault on a lazily allocated page makes the page accessible and
      retries the instruction; any other exception kills this process and no
      other;
    - a system call runs with interrupts on, with the program counter after
      the ecall, and returns as the trap frame then says. *)
Theorem usertrap_correct p (s : TS) l : handlers_return -> interrupted p s l ->
  let pr := proc_at s p in let back := Some (MAKE_SATP (p_pagetable pr)) in let epc := sepc (hrt s) in let cause := scause (hrt s) in
  (cause = 0x8000000000000009 -> exists s', trap p s = Ret back s' /\ to_user p epc s s') /\
  (cause = 0x8000000000000005 -> exists s', trap p s = Ret None s' /\ p_state (proc_at s' p) = RUNNABLE /\
    kept pr (mem_at s) (proc_at s' p) (mem_at s') /\
    ticks (ps s') = (if i32 (tp (hrt s)) =? 0 then u32 (ticks (ps s) + 1) else ticks (ps s)) /\
    stimecmp (hrt s') = u64 (time (hrt s) + 1000000) /\
    forall s2, undisturbed p s' s2 ->
      exists s3, resume p s2 = Ret (MAKE_SATP (p_pagetable pr)) s3 /\ to_user p epc s2 s3 /\ kept pr (mem_at s) (proc_at s3 p) (mem_at s3)) /\
  (cause <> 8 -> cause <> 0x8000000000000009 -> cause <> 0x8000000000000005 ->
    (exists s', trap p s = Ret back s' /\ to_user p epc s s' /\ (cause = 13 \/ cause = 15) /\ stval (hrt s) < p_sz pr /\
      valid (p_pagetable pr) (mem (mem_at s)) (stval (hrt s)) = false /\
      readable (p_pagetable pr) (mem (mem_at s')) (stval (hrt s)) = true) \/
    (exists s', trap p s = exits p s' /\ p_killed (proc_at s' p) = 1 /\ (forall i, i <> p -> proc_at s' i = proc_at s i) /\
      kept pr (mem_at s) (proc_at s' p) (mem_at s'))) /\
  (cause = 8 -> exists s2, utask (proc_at s2 p) (mem_at s2) l /\ kept pr (mem_at s) (proc_at s2 p) (mem_at s2) /\
    ld64 (mem (mem_at s2)) (p_trapframe pr + TF_EPC) = u64 (epc + 4) /\
    Z.testbit (sstatus (hrt s2)) 1 = true /\ stvec (hrt s2) = kernelvec /\
    forall t l', syscall p (ps s2) = Ret tt t -> utask (procs t p) (km t) l' -> p_killed (procs t p) = 0 ->
      exists s', trap p s = Ret (Some (MAKE_SATP (p_pagetable (procs t p)))) s' /\
        to_user p (ld64 (mem (km t)) (p_trapframe (procs t p) + TF_EPC)) (set_ps t s2) s').
Proof.
  intros Hh Hi. cbv zeta. split; [by apply (trap_external p s l)|]. split; [by apply (trap_timer p s l)|].
  split; [by apply (trap_exception p s l)|by apply (trap_syscall p s l)].
Qed.

(** C21. kerneltrap, between interrupting kernel code and going back to it. An
    interrupt leaves the trap registers, the memory and the current process as
    they were; the clock takes the CPU from a running process, and when that
    comes back kerneltrap_return restores sepc and sstatus and nothing else;
    a trap of any other kind panics. *)
Theorem kerneltrap_correct p (s : TS) : handlers_return -> Z.land (sstatus (hrt s)) SSTATUS_SPP <> 0 -> intr_get (hrt s) = false ->
  let h := hrt s in
  (scause h = 0x8000000000000009 \/ scause h = 0x8000000000000005 /\ p = NOPROC ->
    exists s', kerneltrap ticks_chan p s = Ret None s' /\ unnoticed p s s') /\
  (scause h = 0x8000000000000005 -> p <> NOPROC ->
    exists s', kerneltrap ticks_chan p s = Ret (Some (sepc h, sstatus h)) s' /\ p_state (proc_at s' p) = RUNNABLE /\ mem_at s' = mem_at s /\
      forall s2 : TS, exists s3 : TS, kerneltrap_return (sepc h) (sstatus h) s2 = Ret tt s3 /\
        hrt s3 = w_sstatus (sstatus h) (w_sepc (sepc h) (hrt s2)) /\ ps s3 = ps s2 /\ dev s3 = dev s2) /\
  (scause h <> 0x8000000000000009 -> scause h <> 0x8000000000000005 -> kerneltrap ticks_chan p s = Panic "kerneltrap").
Proof.
  intros Hh Hp Hi. cbv zeta. unfold kerneltrap. rewrite (bind_step _ _ s (hrt s) s) by done. rewrite (proj2 (Z.eqb_neq _ _) Hp), Hi.
  assert (forall s1, unnoticed p s s1 -> unnoticed p s (set_hrt (w_sstatus (sstatus (hrt s)) (w_sepc (sepc (hrt s)) (hrt s1))) s1)) as Hback.
  { intros s1 ((C1 & C2 & C3 & C4 & C5 & C6 & C7) & P). split; [|done]. unfold same_csrs. cbn. done. }
  split; [|split].
  - intros [Hc|[Hc ->]].
    + destruct (external_run p s Hh Hc) as (s1 & E & U & _). rewrite (bind_step _ _ _ _ _ E). cbn [Z.eqb Pos.eqb andb].
      eexists. split; [reflexivity|]. exact (Hback s1 U).
    + destruct (timer_run NOPROC s Hc) as (s1 & E & U & _). rewrite (bind_step _ _ _ _ _ E). rewrite Z.eqb_refl. cbn [Z.eqb Pos.eqb andb negb].
      eexists. split; [reflexivity|]. exact (Hback s1 U).
  - intros Hc Hn. destruct (timer_run p s Hc) as (s1 & E & (_ & P & M & _) & _). rewrite (bind_step _ _ _ _ _ E). rewrite (proj2 (Z.eqb_neq _ _) Hn).
    cbn [Z.eqb Pos.eqb andb negb]. set (s3 := set_ps (on_proc p (set_state RUNNABLE) (ps s1)) s1). exists s3. split; [|split; [|split]].
    + by rewrite (bind_step _ _ _ _ _ (yield_run p s1)).
    + unfold proc_at, s3. cbn. by rewrite fupd_eq.
    + done.
    + intros s2. eexists. by split.
  - intros Hn1 Hn2. unfold devintr. rewrite bind_assoc, (bind_step _ _ s (scause (hrt s)) s) by done.
    by rewrite (proj2 (Z.eqb_neq _ _) Hn1), (proj2 (Z.eqb_neq _ _) Hn2).
Qed.
End traps.

(** ** An interrupted program, for running the handlers *)

(** Devices with one pending interrupt, that log what is written to them *)
Record board := Board { b_irq : Z; b_log : list (Z * Z) }.
#[export] Instance board_devices : Devices board := {|
  r32 a d := (b_irq d, d);
  w32 a v d := Board (b_irq d) (b_log d ++ [(a, v)]);
  uartintr := ret [7];
  virtio_disk_intr := ret [];
|}.
#[export] Instance ram_files : FileOps ramfile := {| f_dup _ := ret tt; f_close _ := ret tt; i_dup i := ret i; i_put _ := ret tt; root_inode := ret 1 |}.

Definition user_hart0 (cause : Z) : hart := Hart 0 100 cause 5000 4096 77 0 0 50.
Definition trap_state (cause : Z) : tstate ramfile board := TSt (user_hart0 cause) exec_state (Board 10 []).

Lemma exec_state_task : utask exec_proc exec_kmem pages8.
Proof.
  pose proof exec_state_pre as Hp. split; [apply Hp..|]. intros x Hx. apply foreign_not_owned; [by apply (trapframe_outside exec_proc exec_kmem)|].
  apply (page_not_owned _ (p_sz exec_proc) _ pages8 (p_trapframe exec_proc)); [apply Hp..|done].
Qed.

Lemma trap_state_interrupted cause : interrupted 3 (trap_state cause) pages8.
Proof. split; [reflexivity|vm_compute; split; congruence|vm_compute; congruence|exact exec_state_task|reflexivity]. Qed.

Lemma board_returns : handlers_return (D := board).
Proof. intros d. split; [by exists [7], d|by exists [], d]. Qed.

(** An interrupt of the serial port, and a fault on a page not yet allocated *)
Lemma usertrap_correct_witness :
  (exists s', usertrap 0 8192 9000 7 (fun _ => ret tt) 3 (trap_state 0x8000000000000009) = Ret (Some (MAKE_SATP root10)) s' /\
    sepc (hrt s') = 100 /\ stvec (hrt s') = TRAMPOLINE) /\
  (exists s', usertrap 0 8192 9000 7 (fun _ => ret tt) 3 (trap_state 15) = Ret (Some (MAKE_SATP root10)) s' /\
    readable root10 (mem (km (ps s'))) 5000 = true).
Proof.
  split.
  - destruct (usertrap_correct 0 8192 9000 7 (fun _ => ret tt) 3 (trap_state 0x8000000000000009) pages8 board_returns (trap_state_interrupted _))
      as [H _]. destruct (H eq_refl) as (s' & E & U). exists s'. split; [exact E|]. split; [apply U|apply U].
  - destruct (usertrap_correct 0 8192 9000 7 (fun _ => ret tt) 3 (trap_state 15) pages8 board_returns (trap_state_interrupted _))
      as (_ & _ & H & _). destruct H as [(s' & E & _ & _ & _ & _ & R)|(s' & E & _)]; [discriminate..| |].
    + exists s'. split; [exact E|exact R].
    + exfalso. assert (match usertrap 0 8192 9000 7 (fun _ => ret tt) 3 (trap_state 15) with Ret _ _ => True | _ => False end) as Hr by (vm_compute; exact I).
      rewrite E in Hr. revert Hr. unfold exits, bind, sleep_on. by destruct (proc_op _ s').
Defined.

Lemma kerneltrap_correct_witness :
  exists s', kerneltrap 7 3 (TSt (Hart 256 100 0x8000000000000005 0 8192 77 0 0 50) exec_state (Board 10 [])) = Ret (Some (100, 256)) s' /\
    p_state (procs (ps s') 3) = RUNNABLE.
Proof.
  destruct (kerneltrap_correct 7 3 (TSt (Hart 256 100 0x8000000000000005 0 8192 77 0 0 50) exec_state (Board 10 [])) board_returns)
    as (_ & H & _); [vm_compute; congruence|reflexivity|].
  destruct H as (s' & E & R & _); [reflexivity|vm_compute; congruence|]. exists s'. split; [exact E|exact R].
Defined.
