(* ===== verification/Fork.v ===== *)
(** * fork: the child is a copy of its parent

    kfork gives the child the memory of its parent, byte for byte and with the
    same permissions, and its registers except for the return value; the parent
    is unchanged, and a fork that runs out of memory or of processes leaves
    everything as it was. *)
From stdpp Require Import base list numbers strings.
From Stdlib Require Import ZArith Lia FunctionalExtensionality.
From S2P Require Import Ulib Dto Prelude Memlayout Kalloc Vm VmTables VmUser VmAlloc VmSpace VmCopy Proc ProcTable Exec ExecSpace ExecProps Trap TrapProps.

Section fork.
Context `{KernelEnd} {F : Type} `{FileOps F}.
Context (forkret trampoline : Z).
Hypothesis trampoline_pa : 0 <= trampoline /\ trampoline + PGSIZE <= 2 ^ 56.

(** An unused slot of the table, as freeproc leaves it *)
Definition unused_clear (s : pstate F) : Prop :=
  forall i, p_state (procs s i) = UNUSED -> p_pagetable (procs s i) = 0 /\ p_sz (procs s i) = 0.

(** *** Memory *)

Lemma outside_tail x l y : outside (x :: l) y -> outside l y /\ ~ in_page x y.
Proof. intros Ho. split; [intros z Hz; apply Ho; by right|apply Ho; by left]. Qed.

Lemma restored_refl k l : kmem_inv k l -> bytes_ok (mem k) -> restored k l k l.
Proof. intros Hk Hb. split; [done|]. split; [done|]. by split. Qed.

(** A page taken from the allocator *)
Lemma take_page k x l : kmem_inv k (x :: l) -> bytes_ok (mem k) ->
  exists k1, kalloc k = Ret x k1 /\ kmem_inv k1 l /\ bytes_ok (mem k1) /\ page_ok x /\ x <> 0 /\ (forall y, in_page x y -> outside l y) /\
    forall y, ~ in_page x y -> mem k1 y = mem k y.
Proof.
  intros Hk Hb. pose proof Hk as [_ Hn HF]. apply Forall_cons in HF as [Hx HF]. apply NoDup_cons in Hn as [Hxl Hn].
  destruct (kalloc_cons k x l Hk) as (k1 & E & K1 & H5 & Hs). exists k1. split; [done|]. split; [done|].
  assert (forall y, ~ in_page x y -> mem k1 y = mem k y) as Hso by (intros y Hy; apply Hs; unfold in_page in Hy; lia).
  split; [|split; [done|split; [apply page_ok_range in Hx; lia|split; [|done]]]].
  - intros y. destruct (decide (in_page x y)) as [Hy|Hy]; [rewrite H5 by (unfold in_page in Hy; lia); lia|rewrite Hso by done; apply Hb].
  - intros y Hy z Hz Hzy. assert (page_ok z) as Hpz by (by eapply Forall_forall in HF). destruct (page_apart z x y Hpz Hx) as [?|?]; [|done|unfold in_page in Hy; lia..].
    intros ->. done.
Qed.

(** Giving it back *)
Lemma return_page k l x k0 l0 : kmem_inv k l -> bytes_ok (mem k) -> page_ok x -> (forall y, in_page x y -> outside l y) ->
  x ∈ l0 -> (forall y, outside l0 y -> mem k y = mem k0 y /\ outside l y) -> (forall y, outside l y -> ~ in_page x y -> outside l0 y) -> exists k', kfree x k = Ret tt k' /\ restored k0 l0 k' (x :: l).
Proof.
  intros Hk Hb Hx Ho Hl0 Hy Hc. assert (x ∉ l) as Hxl by (intros Hin; apply (Ho x ltac:(unfold in_page, PGSIZE; lia) x Hin); unfold in_page, PGSIZE; lia).
  assert (exists k', kfree x k = Ret tt k' /\ bytes_ok (mem k')) as (k' & E & Hb').
  { destruct Hx as [Ha Hr]. eexists. split.
    - unfold kfree. rewrite Ha. destruct (Z.ltb_spec x kend); [lia|]. destruct (Z.leb_spec PHYSTOP x); [lia|]. reflexivity.
    - by apply st_bytes_ok, fill_bytes_ok. }
  destruct (kfree_ok k l x Hk Hx Hxl) as (k2 & E2 & K2 & Hs). rewrite E in E2. injection E2 as <-.
  exists k'. split; [done|]. split; [done|]. split; [done|]. split; [|intros y (Hy1 & Hy2)%outside_tail; by apply Hc]. intros y Hyo. destruct (Hy y Hyo) as [E1 O1].
  assert (~ in_page x y) as Hxy by by apply Hyo. split; [rewrite Hs; [done|unfold in_page in Hxy; lia]|].
  intros z Hz. apply elem_of_cons in Hz as [->|Hz]; [done|by apply O1].
Qed.

(** *** allocproc *)

(** Everything but the slot [i], the memory and the next pid is as before *)
Definition only_slot (i : Z) (s s' : pstate F) : Prop :=
  (forall j, j <> i -> procs s' j = procs s j) /\ initproc s' = initproc s /\ ticks s' = ticks s /\ files s' = files s.

Lemma only_slot_trans i s1 s2 s3 : only_slot i s1 s2 -> only_slot i s2 s3 -> only_slot i s1 s3.
Proof. intros (A & B & C & D) (A' & B' & C' & D'). split; [intros j Hj; by rewrite A', A|]. split; [congruence|]. split; congruence. Qed.

Record fresh (s : pstate F) (l : list Z) (i : Z) (s' : pstate F) (l' : list Z) : Prop := Fresh {
  fr_slot : 0 <= i < NPROC /\ p_state (procs s i) = UNUSED;
  fr_only : only_slot i s s';
  fr_state : p_state (procs s' i) = USED;
  fr_pid : p_pid (procs s' i) = nextpid s;
  fr_sz : p_sz (procs s' i) = 0;
  fr_ra : p_ra (procs s' i) = forkret;
  fr_root : p_pagetable (procs s' i) <> 0;
  fr_built : uvm (p_pagetable (procs s' i)) 0 (km s') l' /\
    forall x, outside l x -> mem (km s') x = mem (km s) x /\ foreign (p_pagetable (procs s' i)) (mem (km s')) l' x;
  fr_all x : foreign (p_pagetable (procs s' i)) (mem (km s')) l' x -> ~ in_page (p_trapframe (procs s' i)) x -> outside l x;
  fr_len : (length l <= length l' + 6)%nat;
  fr_task : utask (procs s' i) (km s') l';
  fr_empty : forall va, 0 <= va < TRAPFRAME -> valid (p_pagetable (procs s' i)) (mem (km s')) va = false;
  fr_tf : p_trapframe (procs s' i) ∈ l;
}.

Lemma memory_op_step {A} (m : M kmem A) (s : pstate F) a k : m (km s) = Ret a k -> memory_op m s = Ret a (set_km k s).
Proof. intros E. unfold memory_op, lift. by rewrite E. Qed.

Lemma upd_step i f (s : pstate F) : upd i f s = Ret tt (on_proc i f s).
Proof. done. Qed.

Lemma when_memory_run (b : bool) (m : M kmem unit) (s : pstate F) k : (if b then m (km s) = Ret tt k else k = km s) ->
  when b (memory_op m) s = Ret tt (set_km k s).
Proof. intros E. destruct b; cbn [when]; [by apply memory_op_step|]. rewrite E. by destruct s. Qed.

(** freeproc of a slot whose trap frame and page table, if it has them, can be
    freed *)
Lemma freeproc_run i (s : pstate F) k1 k2 :
  (if negb (p_trapframe (procs s i) =? 0) then kfree (p_trapframe (procs s i)) (km s) = Ret tt k1 else k1 = km s) ->
  (if negb (p_pagetable (procs s i) =? 0) then proc_freepagetable (p_pagetable (procs s i)) (p_sz (procs s i)) k1 = Ret tt k2 else k2 = k1) ->
  exists s', freeproc i s = Ret tt s' /\ only_slot i s s' /\ km s' = k2 /\
    p_state (procs s' i) = UNUSED /\ p_pagetable (procs s' i) = 0 /\ p_sz (procs s' i) = 0.
Proof.
  intros E1 E2. unfold freeproc. rewrite (bind_step _ _ s (procs s i) s) by done.
  rewrite (bind_step _ _ _ _ _ (when_memory_run _ _ s k1 E1)). rewrite (bind_step _ _ _ _ _ (upd_step i _ _)). set (s2 := on_proc i _ _).
  rewrite (bind_step _ _ _ _ _ (when_memory_run _ _ s2 k2 E2)). eexists. split; [reflexivity|]. split; [|split; [done|cbn; by rewrite fupd_eq]].
  split; [|done]. intros j Hj. cbn. by rewrite !fupd_ne.
Qed.

(** The processes, the files and the time are as before; slots that were
    unused are unused and clear, and the free pages are those of before, all
    other memory being unchanged. *)
Definition undone (s : pstate F) (l : list Z) (s' : pstate F) : Prop :=
  (forall j, p_state (procs s j) <> UNUSED -> procs s' j = procs s j) /\
  (forall j, p_state (procs s j) = UNUSED -> p_state (procs s' j) = UNUSED /\ p_pagetable (procs s' j) = 0 /\ p_sz (procs s' j) = 0) /\
  initproc s' = initproc s /\ ticks s' = ticks s /\ files s' = files s /\
  exists l', restored (km s) l (km s') l' /\ l' ≡ₚ l.

Lemma only_slot_undone i s l s' l' : kmem_inv (km s) l -> unused_clear s -> p_state (procs s i) = UNUSED -> only_slot i s s' ->
  p_state (procs s' i) = UNUSED /\ p_pagetable (procs s' i) = 0 /\ p_sz (procs s' i) = 0 -> restored (km s) l (km s') l' -> undone s l s'.
Proof.
  intros Hk Hc Hi (A & B & C & D) Hz Hr. split; [intros j Hj; apply A; congruence|]. split.
  - intros j Hj. destruct (Z.eq_dec j i) as [->|Hne]; [done|]. rewrite A by done. by split; [|apply Hc].
  - split; [done|]. split; [done|]. split; [done|]. exists l'. split; [done|]. by apply (restored_free (km s) l (km s')).
Qed.

(** Why there can be no new process: no slot, or too few free pages *)
Definition no_slot (s : pstate F) : Prop := forall j, 0 <= j < NPROC -> p_state (procs s j) <> UNUSED.

(** The slot after the fields that allocproc sets first *)
Definition claim (i : Z) (s : pstate F) : pstate F :=
  on_proc i (set_cpu_ticks 0) (on_proc i (set_cpu_ticks_base (ticks s)) (on_proc i (set_state USED) (on_proc i (set_pid (nextpid s)) (set_nextpid (i32 (nextpid s + 1)) s)))).

Lemma claim_slot i s : only_slot i s (claim i s) /\ km (claim i s) = km s /\ p_state (procs (claim i s) i) = USED /\ p_pid (procs (claim i s) i) = nextpid s /\
  p_pagetable (procs (claim i s) i) = p_pagetable (procs s i) /\ p_sz (procs (claim i s) i) = p_sz (procs s i).
Proof.
  unfold claim. split; [split; [|done]|]; [intros j Hj; cbn; by rewrite !fupd_ne|]. split; [done|]. cbn. by rewrite !fupd_eq.
Qed.

(** allocproc after the slot is chosen *)
Definition equip (i : Z) : M (pstate F) Z :=
  (tf <- memory_op kalloc ;; upd i (set_trapframe tf) ;;; if tf =? 0 then freeproc i ;;; ret NOPROC
   else pt <- proc_pagetable trampoline i ;; upd i (set_pagetable pt) ;;; if pt =? 0 then freeproc i ;;; ret NOPROC
     else upd i (set_ra forkret) ;;; upd i (fun p => set_sp (p_kstack p + PGSIZE) p) ;;; ret i)%kernel.

Lemma equip_run i s s1 l : kmem_inv (km s) l -> bytes_ok (mem (km s)) -> i <> NOPROC -> 0 <= i < NPROC -> p_state (procs s i) = UNUSED ->
  p_pagetable (procs s i) = 0 -> p_sz (procs s i) = 0 -> unused_clear s ->
  only_slot i s s1 -> km s1 = km s -> p_state (procs s1 i) = USED -> p_pid (procs s1 i) = nextpid s ->
  p_pagetable (procs s1 i) = p_pagetable (procs s i) -> p_sz (procs s1 i) = p_sz (procs s i) ->
  exists i' s', equip i s1 = Ret i' s' /\
    ((i' = NOPROC /\ undone s l s' /\ (length l <= 6)%nat) \/ (i' <> NOPROC /\ exists l', fresh s l i' s' l')).
Proof.
  intros Hk Hb Ei Hr Hun Hpt Hsz Hcl C1 C2 C3 C4 C5 C6. unfold equip. pose proof Hk as Hk0.
  rewrite <- C2 in Hk, Hb. destruct l as [|x l].
  { rewrite (bind_step _ _ _ _ _ (memory_op_step _ s1 _ _ (kalloc_empty _ Hk))). rewrite (bind_step _ _ _ _ _ (upd_step i _ _)). cbn [Z.eqb].
    set (s2 := on_proc i (set_trapframe 0) _). destruct (freeproc_run i s2 (km s1) (km s1)) as (s3 & E3 & O3 & K3 & Z3).
    { cbn. by rewrite fupd_eq. } { cbn. rewrite fupd_eq. cbn. by rewrite C5, Hpt. }
    rewrite (bind_step _ _ _ _ _ E3). exists NOPROC, s3. split; [done|]. left. split; [done|]. split; [|cbn; lia].
    apply (only_slot_undone i s [] s3 []); try done; [|rewrite K3, C2; apply restored_refl; [done|by rewrite <- C2]].
    eapply only_slot_trans; [exact C1|]. eapply only_slot_trans; [|exact O3].
    split; [|done]. intros j Hj. cbn. by rewrite fupd_ne. }
  destruct (take_page (km s1) x l Hk Hb) as (k1 & E1 & K1 & B1 & Hx & Hx0 & Hxo & Hxm).
  rewrite (bind_step _ _ _ _ _ (memory_op_step _ s1 _ _ E1)). rewrite (bind_step _ _ _ _ _ (upd_step i _ _)). rewrite (proj2 (Z.eqb_neq x 0) Hx0).
  set (s2 := on_proc i (set_trapframe x) _). assert (procs s2 i = set_trapframe x (procs s1 i)) as P2 by (cbn; by rewrite fupd_eq).
  assert (only_slot i s s2) as O2 by (eapply only_slot_trans; [exact C1|]; split; [|done]; intros j Hj; cbn; by rewrite fupd_ne).
  pose proof (page_ok_range x Hx) as Hxr.
  destruct (new_pagetable_run trampoline trampoline_pa x k1 l K1 B1) as (root & k2 & l2 & E2 & Hnew); [lia|unfold PGSIZE in *; lia|].
  assert (proc_pagetable trampoline i s2 = Ret root (set_km k2 s2)) as E2'.
  { rewrite proc_pagetable_eq, P2. by apply memory_op_step. }
  rewrite (bind_step _ _ _ _ _ E2'), (bind_step _ _ _ _ _ (upd_step i _ _)).
  set (s3 := on_proc i (set_pagetable root) _). assert (procs s3 i = set_pagetable root (set_trapframe x (procs s1 i))) as P3 by (cbn; by rewrite !fupd_eq).
  assert (only_slot i s s3) as O3 by (eapply only_slot_trans; [exact O2|]; split; [|done]; intros j Hj; cbn; by rewrite fupd_ne).
  destruct Hnew as [(-> & Hres & Ln)|(Hroot & Ln & Hbu & Hcon & _)].
  - cbn [Z.eqb]. destruct Hres as (K2 & B2 & R2 & Q2).
    destruct (return_page k2 l2 x (km s1) (x :: l) K2 B2 Hx) as (k3 & E3 & Hres3); [intros y Hy; by apply R2, Hxo|by left| | |].
    { intros y (Ho & Hny)%outside_tail. destruct (R2 y Ho) as [Em O]. split; [rewrite Em; by apply Hxm|done]. }
    { intros y Hy Hny z Hz. apply elem_of_cons in Hz as [->|Hz]; [done|by apply (Q2 y Hy)]. }
    destruct (freeproc_run i s3 k3 k3) as (s4 & E4 & O4 & K4 & Z4).
    { rewrite P3. cbn. rewrite (proj2 (Z.eqb_neq x 0) Hx0). exact E3. } { rewrite P3. done. }
    rewrite (bind_step _ _ _ _ _ E4). exists NOPROC, s4. split; [done|]. left. split; [done|]. split; [|cbn; lia].
    apply (only_slot_undone i s (x :: l) s4 (x :: l2)); try done; [by eapply only_slot_trans|]. by rewrite K4, <- C2.
  - rewrite (proj2 (Z.eqb_neq root 0) Hroot). rewrite (bind_step _ _ _ _ _ (upd_step i _ _)), (bind_step _ _ _ _ _ (upd_step i _ _)).
    set (s4 := on_proc i (fun p => set_sp _ p) _). exists i, s4. split; [done|]. right. split; [done|]. exists l2.
    assert (only_slot i s s4) as O4 by (eapply only_slot_trans; [exact O3|]; split; [|done]; intros j Hj; cbn; by rewrite !fupd_ne).
    destruct Hbu as (U2 & F2 & Q2). assert (procs s4 i = set_sp (p_kstack (procs s1 i) + PGSIZE) (set_ra forkret (procs s3 i))) as P4 by (cbn; rewrite !fupd_eq; done).
    split; rewrite ?P4, ?P3; cbn; try done.
    + congruence.
    + split; [done|]. intros y (Ho & Hny)%outside_tail. destruct (F2 y Ho) as [Em Fo]. split; [rewrite Em, Hxm by done; by rewrite C2|done].
    + intros y Hy Hny z Hz. apply elem_of_cons in Hz as [->|Hz]; [done|by apply (Q2 y Hy)].
    + lia.
    + split; cbn; [by rewrite C6, Hsz|done|]. intros y Hy. by apply F2, Hxo.
    + intros va Hva. rewrite Hcon by done. change (PGROUNDUP 0) with 0. apply Z.ltb_ge. lia.
    + by left.
Qed.

Lemma find_unused_none n : forall i ps, find_unused n i ps = NOPROC -> forall j, i <= j < i + Z.of_nat n -> 0 <= i -> p_state (ps j) <> UNUSED.
Proof.
  induction n as [|n IH]; intros i ps E j Hj Hi; [lia|]. cbn [find_unused] in E.
  destruct (is_state (p_state (ps i)) UNUSED) eqn:Es; [unfold NOPROC in E; lia|]. apply bool_decide_eq_false in Es.
  destruct (Z.eq_dec j i) as [->|]; [done|]. apply (IH (i + 1) ps E j); lia.
Qed.

Lemma allocproc_run s l : kmem_inv (km s) l -> bytes_ok (mem (km s)) -> unused_clear s ->
  exists i s', allocproc forkret trampoline s = Ret i s' /\
    ((i = NOPROC /\ undone s l s' /\ (no_slot s \/ (length l <= 6)%nat)) \/ (i <> NOPROC /\ exists l', fresh s l i s' l')).
Proof.
  intros Hk Hb Hc. unfold allocproc. rewrite (bind_step _ _ s (procs s) s) by done. cbv zeta.
  pose proof (find_unused_spec (Z.to_nat NPROC) 0 (procs s) ltac:(lia)) as Hj. cbv zeta in Hj. set (i := find_unused _ 0 (procs s)) in *.
  assert (i = NOPROC -> find_unused (Z.to_nat NPROC) 0 (procs s) = NOPROC) as Ei0 by done. clearbody i.
  destruct (Z.eqb_spec i NOPROC) as [Ei|Ei].
  { pose proof (Ei0 Ei) as Ei'. exists NOPROC, s. split; [done|]. left. split; [done|]. split.
    - split; [done|]. split; [intros j Hj'; by split; [|apply Hc]|]. split; [done|]. split; [done|]. split; [done|]. exists l. split; [by apply restored_refl|done].
    - left. intros j Hjr Hun. by apply (find_unused_none (Z.to_nat NPROC) 0 (procs s) Ei' j ltac:(change (Z.of_nat (Z.to_nat NPROC)) with NPROC; lia) ltac:(lia)). }
  destruct Hj as [?|[Hr Hun]]; [done|]. change (0 + Z.of_nat (Z.to_nat NPROC)) with NPROC in Hr. destruct (Hc i Hun) as [Hpt Hsz].
  rewrite (bind_step _ _ s (nextpid s) (set_nextpid (i32 (nextpid s + 1)) s)) by done.
  rewrite (bind_step _ _ _ _ _ (upd_step i _ _)), (bind_step _ _ _ _ _ (upd_step i _ _)). rewrite (bind_step (gets ticks) _ _ (ticks s) _) by done.
  rewrite (bind_step _ _ _ _ _ (upd_step i _ _)), (bind_step _ _ _ _ _ (upd_step i _ _)). fold (claim i s).
  destruct (claim_slot i s) as (C1 & C2 & C3 & C4 & C5 & C6).
  destruct (equip_run i s (claim i s) l) as (i' & s' & E & Hres); try done. exists i', s'. split; [exact E|].
  destruct Hres as [(? & ? & ?)|?]; [left; auto|by right].
Qed.
End fork.

(** *** Descriptors *)
Section descriptors.
Context `{KernelEnd} {F : Type} `{FL : FileLaws F}.

(** The open files of [pr] have references, and room for NOFILE more *)
Definition can_dup (pr : proc) (fs : F) (n : Z) : Prop :=
  forall fd, 0 <= fd < NOFILE -> p_ofile pr fd <> NULLF -> 1 <= frefs fs (p_ofile pr fd) /\ frefs fs (p_ofile pr fd) + n <= 2 ^ 31 - 1.

Definition dup_body (p np i : Z) : M (pstate F) unit :=
  (pr <- proc_of p ;;
   let f := p_ofile pr i in
   when (negb (f =? NULLF)) (file_op (f_dup f) ;;; upd np (fun q => set_ofile (fupd (p_ofile q) i f) q)))%kernel.

Lemma dup_body_run p np i (s : pstate F) : (p_ofile (procs s p) i <> NULLF -> 1 <= frefs (files s) (p_ofile (procs s p) i) < 2 ^ 31 - 1) ->
  exists s', dup_body p np i s = Ret tt s' /\
    if p_ofile (procs s p) i =? NULLF then s' = s
    else exists fs, s' = on_proc np (fun q => set_ofile (fupd (p_ofile q) i (p_ofile (procs s p) i)) q) (set_files fs s) /\
      frefs fs = fupd (frefs (files s)) (p_ofile (procs s p) i) (frefs (files s) (p_ofile (procs s p) i) + 1).
Proof.
  intros Hd. unfold dup_body. rewrite (bind_step _ _ s (procs s p) s) by done. cbv zeta. destruct (Z.eqb_spec (p_ofile (procs s p) i) NULLF) as [Ef|Ef]; cbn [negb when]; [by exists s|].
  destruct (f_dup_ok _ (files s) (Hd Ef)) as (fs & E & R). rewrite (bind_step _ _ s tt (set_files fs s)) by (unfold file_op, lift; by rewrite E).
  eexists. split; [reflexivity|]. by exists fs.
Qed.

Lemma dup_files_loop p np n : p <> np -> forall i (s : pstate F), 0 <= i -> i + Z.of_nat n = NOFILE -> can_dup (procs s p) (files s) (Z.of_nat n) ->
  exists s', for_loop n i (dup_body p np) s = Ret tt s' /\
    km s' = km s /\ initproc s' = initproc s /\ ticks s' = ticks s /\ (forall j, j <> np -> procs s' j = procs s j) /\
    exists g, procs s' np = set_ofile g (procs s np) /\ (forall fd, fd < i -> g fd = p_ofile (procs s np) fd) /\
      forall fd, i <= fd < NOFILE -> p_ofile (procs s p) fd <> NULLF -> g fd = p_ofile (procs s p) fd.
Proof.
  intros Hne. induction n as [|n IH]; intros i s Hi Hn Hd; cbn [for_loop].
  { exists s. do 4 (split; [done|]). split; [done|]. exists (p_ofile (procs s np)). split; [by destruct (procs s np)|]. split; [done|lia]. }
  destruct (dup_body_run p np i s) as (s1 & E1 & H1). { intros Ef. destruct (Hd i ltac:(lia) Ef). lia. }
  rewrite (bind_step _ _ _ _ _ E1). destruct (Z.eqb_spec (p_ofile (procs s p) i) NULLF) as [Ef|Ef].
  - subst s1. destruct (IH (i + 1) s) as (s' & E & A & B & C & D & g & G1 & G2 & G3); [lia|lia| |].
    { intros fd Hfd Hf. specialize (Hd fd Hfd Hf). lia. }
    exists s'. split; [done|]. do 4 (split; [done|]). exists g. split; [done|]. split; [intros fd Hfd; apply G2; lia|].
    intros fd Hfd Hf. destruct (Z.eq_dec fd i) as [->|]; [done|]. apply G3; [lia|done].
  - destruct H1 as (fs & -> & R). set (f := p_ofile (procs s p) i) in *. set (s1 := on_proc np _ _) in *.
    assert (procs s1 p = procs s p) as Pp by (cbn; by rewrite fupd_ne).
    assert (procs s1 np = set_ofile (fupd (p_ofile (procs s np)) i f) (procs s np)) as Pn by (cbn; by rewrite fupd_eq).
    destruct (IH (i + 1) s1) as (s' & E' & A & B & C & D & g & G1 & G2 & G3); [lia|lia| |].
    { intros fd Hfd Hf. rewrite Pp in *. specialize (Hd fd Hfd Hf). change (files s1) with fs. rewrite R.
      destruct (Z.eq_dec (p_ofile (procs s p) fd) f) as [Ex|Hx]; [rewrite Ex in *; rewrite fupd_eq; lia|rewrite fupd_ne by done; lia]. }
    exists s'. split; [done|]. split; [done|]. split; [done|]. split; [done|]. split; [intros j Hj; rewrite D by done; cbn; by rewrite fupd_ne|].
    exists g. rewrite Pn in G1, G2. cbn [p_ofile set_ofile] in G2. rewrite Pp in G3. split; [done|]. split.
    + intros fd Hfd. rewrite G2 by lia. by rewrite fupd_ne by lia.
    + intros fd Hfd Hf. destruct (Z.eq_dec fd i) as [->|]; [rewrite G2 by lia; by rewrite fupd_eq|]. apply G3; [lia|done].
Qed.

Lemma dup_files_run p np (s : pstate F) : p <> np -> can_dup (procs s p) (files s) NOFILE ->
  exists s', dup_files p np s = Ret tt s' /\
    km s' = km s /\ initproc s' = initproc s /\ ticks s' = ticks s /\ (forall j, j <> np -> procs s' j = procs s j) /\
    exists g, procs s' np = set_ofile g (procs s np) /\ forall fd, 0 <= fd < NOFILE -> p_ofile (procs s p) fd <> NULLF -> g fd = p_ofile (procs s p) fd.
Proof.
  intros Hne Hd. destruct (dup_files_loop p np (Z.to_nat NOFILE) Hne 0 s) as (s' & E & A & B & C & D & g & G1 & _ & G3); [lia|done|done|].
  exists s'. split; [exact E|]. do 4 (split; [done|]). by exists g.
Qed.
End descriptors.

Section forking.
Context `{KernelEnd} {F : Type} `{FL : FileLaws F}.
Context (forkret trampoline : Z).
Hypothesis trampoline_pa : 0 <= trampoline /\ trampoline + PGSIZE <= 2 ^ 56.
Implicit Types s : pstate F.

(** The parent after anything that happens in pages that were free *)
Lemma restored_kept pr k0 l0 k l : exec_pre pr k0 l0 -> within k0 l0 k l ->
  kept pr k0 pr k /\ (forall x, in_page (p_trapframe pr) x -> mem k x = mem k0 x) /\
  uvm (p_pagetable pr) (p_sz pr) k l /\ (forall a, pte_of (mem k) (p_pagetable pr) a = pte_of (mem k0) (p_pagetable pr) a) /\
  (forall x, owned (p_pagetable pr) (mem k) x <-> owned (p_pagetable pr) (mem k0) x).
Proof.
  intros Hp (Hk & Hb & Hx). pose proof (xp_uvm _ _ _ Hp) as Hu.
  destruct (uvm_other _ _ k0 l0 k l Hu Hk Hb) as (U & P & B & O). { intros x Ho. apply Hx. by eapply owned_outside. }
  assert (forall x, in_page (p_trapframe pr) x -> mem k x = mem k0 x) as Ht by (intros x Hin; apply Hx; by eapply trapframe_outside).
  split; [|done]. split; try done; [intros a; unfold readable, valid; by rewrite P|]. intros x Hin. apply Ht. unfold in_page, TF_RA in *. lia.
Qed.

(** The child of a fork *)
Record forked (p np : Z) (s s' : pstate F) : Prop := Forked {
  fk_slot : 0 <= np < NPROC /\ p_state (procs s np) = UNUSED;
  fk_others : forall j, j <> np -> procs s' j = procs s j;
  fk_state : p_state (procs s' np) = RUNNABLE /\ p_parent (procs s' np) = p /\ p_pid (procs s' np) = nextpid s /\ p_ra (procs s' np) = forkret;
  fk_sz : p_sz (procs s' np) = p_sz (procs s p);
  fk_files : forall fd, 0 <= fd < NOFILE -> p_ofile (procs s p) fd <> NULLF -> p_ofile (procs s' np) fd = p_ofile (procs s p) fd;
  fk_space : same_space (p_pagetable (procs s p)) (p_pagetable (procs s' np)) (mem (km s)) (mem (km s'));
  fk_task : exists l, utask (procs s' np) (km s') l;
  fk_regs : forall o, 0 <= o < TF_SIZE -> ~ (TF_A0 <= o < TF_A0 + 8) ->
    mem (km s') (p_trapframe (procs s' np) + o) = mem (km s) (p_trapframe (procs s p) + o);
  fk_a0 : ld64 (mem (km s')) (p_trapframe (procs s' np) + TF_A0) = 0;
}.

(** The copy of the trap frame *)
Definition fork_frame (tf tf' : Z) (k : kmem) : kmem :=
  let k1 := set_mem (blit (mem k) tf' (mem k) tf TF_SIZE) k in set_mem (st64 (mem k1) (tf' + TF_A0) 0) k1.

Lemma fork_frame_run tf tf' k : bytes_ok (mem k) -> (forall x, in_page tf x -> ~ in_page tf' x) ->
  bytes_ok (mem (fork_frame tf tf' k)) /\ same_outside tf' (mem k) (mem (fork_frame tf tf' k)) /\
  (forall o, 0 <= o < TF_SIZE -> ~ (TF_A0 <= o < TF_A0 + 8) -> mem (fork_frame tf tf' k) (tf' + o) = mem k (tf + o)) /\
  ld64 (mem (fork_frame tf tf' k)) (tf' + TF_A0) = 0.
Proof.
  intros Hb Hne. unfold fork_frame, TF_A0, TF_SIZE. cbn [mem set_mem]. split; [apply st_bytes_ok; by apply blit_bytes_ok|]. split; [|split].
  - intros x Hx. unfold PGSIZE in Hx. rewrite st_other, blit_out by lia. done.
  - intros o Ho Hno. rewrite st_other by lia. rewrite blit_in by lia. f_equal. lia.
  - by rewrite ld_st_same.
Qed.

Lemma only_slot_procs i s s' j : only_slot i s s' -> j <> i -> procs s' j = procs s j.
Proof. intros (A & _). apply A. Qed.

(** What follows the copy of the memory *)
Definition fork_finish (p np : Z) (pr : proc) : M (pstate F) Z :=
  (dup_files p np ;;;
   cwd <- file_op (i_dup (p_cwd pr)) ;;
   upd np (set_cwd cwd) ;;;
   upd np (set_name (safestr (p_name pr))) ;;;
   npr <- proc_of np ;;
   let pid := p_pid npr in
   upd np (set_parent p) ;;;
   upd np (set_state RUNNABLE) ;;;
   ret pid)%kernel.

Lemma fork_finish_run p np s : p <> np -> can_dup (procs s p) (files s) NOFILE ->
  (forall fs, exists c fs', i_dup (p_cwd (procs s p)) fs = Ret c fs') ->
  exists s', fork_finish p np (procs s p) s = Ret (p_pid (procs s np)) s' /\ km s' = km s /\ (forall j, j <> np -> procs s' j = procs s j) /\
    let q := procs s np in let q' := procs s' np in
    p_state q' = RUNNABLE /\ p_parent q' = p /\ p_pid q' = p_pid q /\ p_ra q' = p_ra q /\ p_sz q' = p_sz q /\ p_pagetable q' = p_pagetable q /\ p_trapframe q' = p_trapframe q /\
    forall fd, 0 <= fd < NOFILE -> p_ofile (procs s p) fd <> NULLF -> p_ofile q' fd = p_ofile (procs s p) fd.
Proof.
  intros Hne Hd Hc. unfold fork_finish. destruct (dup_files_run p np s Hne Hd) as (s1 & E1 & K1 & _ & _ & P1 & g & G1 & G2).
  rewrite (bind_step _ _ _ _ _ E1). destruct (Hc (files s1)) as (c & fs & Ec).
  rewrite (bind_step _ _ s1 c (set_files fs s1)) by (unfold file_op, lift; by rewrite Ec).
  rewrite (bind_step _ _ _ _ _ (upd_step np _ _)), (bind_step _ _ _ _ _ (upd_step np _ _)). set (s2 := on_proc np _ _).
  assert (procs s2 np = set_name (safestr (p_name (procs s p))) (set_cwd c (set_ofile g (procs s np)))) as P2 by (cbn; rewrite !fupd_eq; by rewrite G1).
  rewrite (bind_step _ _ s2 (procs s2 np) s2) by done. cbv zeta. rewrite P2. cbn [p_pid set_name set_cwd set_ofile].
  rewrite (bind_step _ _ _ _ _ (upd_step np _ _)), (bind_step _ _ _ _ _ (upd_step np _ _)). eexists. split; [reflexivity|]. split; [exact K1|]. split.
  - intros j Hj. cbn. rewrite !fupd_ne by done. by apply P1.
  - cbn [procs on_proc set_procs]. rewrite !fupd_eq, P2. cbn. done.
Qed.

(** uvmcopy failed: freeproc gives back the child *)
Lemma fork_undo np s l s1 l1 k2 l2 : fresh forkret s l np s1 l1 -> uext (p_pagetable (procs s1 np)) 0 (km s1) l1 k2 l2 ->
  (forall va, 0 <= va < TRAPFRAME -> valid (p_pagetable (procs s1 np)) (mem k2) va = false) ->
  exists s', freeproc np (set_km k2 s1) = Ret tt s' /\ only_slot np s1 s' /\ (p_state (procs s' np) = UNUSED /\ p_pagetable (procs s' np) = 0 /\ p_sz (procs s' np) = 0) /\ exists l', restored (km s) l (km s') l'.
Proof.
  intros [_ _ _ _ Hsz _ Hr [_ Hbu] Hall _ [_ Hp Hfo] _ Hin] (U2 & X2 & Q2) He. set (root := p_pagetable (procs s1 np)) in *. set (tf := p_trapframe (procs s1 np)) in *.
  assert (forall x, in_page tf x -> foreign root (mem k2) l2 x) as Hfo2 by (intros x Hx; by apply X2, Hfo).
  assert (in_page tf tf) as Hself by (unfold in_page, PGSIZE; lia). destruct (Hfo2 tf Hself) as [[V1 V2] V3].
  destruct (uvm_free root 0 k2 l2 tf U2 Hp) as (k3 & E3 & U3 & P3 & _ & S3 & N3).
  { intros Hl. by apply (V1 tf Hl). } { intros q Hq E. by apply (V2 q tf Hq E). } { intros va Hva Hv E. apply (V3 va Hva Hv). by rewrite E. }
  destruct (same_pte_views root _ _ P3) as (Ev & Ef & _).
  assert (built (km s) l root k3 (tf :: l2)) as B3.
  { split; [done|]. split.
    2: { intros x [[W1 W2] W3]. apply Hall; [|apply W1; by left]. apply Q2. split; [split|].
         - intros z Hz. apply W1. by right.
         - intros q z Hq. rewrite <- N3 by done. by apply W2.
         - intros va Hva. rewrite <- Ev, <- Ef. by apply W3. }
    intros x Ho. destruct (Hbu x Ho) as [E1 F1]. destruct (X2 x F1) as [E2 [[W1 W2] W3]]. assert (~ in_page tf x) as Hx by by apply Ho.
    split; [rewrite S3 by (unfold in_page in Hx; lia); congruence|]. split; [split|].
    - intros z Hz. apply elem_of_cons in Hz as [->|Hz]; [done|by apply W1].
    - intros q z Hq. rewrite N3 by done. by apply W2.
    - intros va Hva. rewrite Ev, Ef. by apply W3. }
  destruct high_pages as (_ & _ & _ & _ & T3). destruct (built_free (km s) l root 0 k3 (tf :: l2) B3) as (k4 & l4 & E4 & R4); [lia| |].
  { intros a Ha Hv. rewrite Ev in Hv. by rewrite He in Hv. }
  assert (tf <> 0) as Htf by (apply page_ok_range in Hp; lia).
  destruct (freeproc_run np (set_km k2 s1) k3 k4) as (s' & E & O & K & Zs).
  { cbn. fold tf. rewrite (proj2 (Z.eqb_neq tf 0) Htf). exact E3. } { cbn. fold root. rewrite (proj2 (Z.eqb_neq root 0) Hr), Hsz. exact E4. }
  exists s'. split; [done|]. split; [exact O|]. split; [exact Zs|]. exists l4. by rewrite K.
Qed.

(** uvmcopy succeeded *)
Lemma fork_child p np s l s1 l1 k2 l2 : exec_pre (procs s p) (km s) l -> fresh forkret s l np s1 l1 ->
  uext (p_pagetable (procs s1 np)) 0 (km s1) l1 k2 l2 -> within (km s) l (km s1) l1 ->
  same_space (p_pagetable (procs s p)) (p_pagetable (procs s1 np)) (mem (km s1)) (mem k2) -> p <> np ->
  can_dup (procs s p) (files s) NOFILE -> (forall fs, exists c fs', i_dup (p_cwd (procs s p)) fs = Ret c fs') ->
  exists s', (upd np (set_sz (p_sz (procs s p))) ;;;
      memory_op (modify (fun k => set_mem (blit (mem k) (p_trapframe (procs s1 np)) (mem k) (p_trapframe (procs s p)) TF_SIZE) k)) ;;;
      memory_op (store64 (p_trapframe (procs s1 np) + TF_A0) 0) ;;; fork_finish p np (procs s p))%kernel (set_km k2 s1) = Ret (nextpid s) s' /\
    forked p np s s' /\ within (km s) l (km s') l2.
Proof.
  intros Hpre [Hslot Honly Hst1 Hpid Hsz Hra Hroot Hbu _ _ [_ Hp Hfo] Hemp Htfl] (U2 & X2 & _) R1 Hsame Hne Hdup Hcwd.
  set (pr := procs s p) in *. set (q1 := procs s1 np) in *. set (new := p_pagetable q1) in *. set (old := p_pagetable pr) in *.
  set (tf := p_trapframe pr) in *. set (tf' := p_trapframe q1) in *.
  assert (procs s1 p = pr) as Epr by by apply (only_slot_procs np s s1 p Honly).
  assert (forall x, in_page tf x -> ~ in_page tf' x) as Hapart by (intros x Hx; by apply (trapframe_outside pr (km s) l x Hpre Hx)).
  destruct (fork_frame_run tf tf' k2 (uv_bytes _ _ _ _ U2) Hapart) as (B4 & S4 & G4 & A4). set (k4 := fork_frame tf tf' k2) in *.
  set (s4 := set_km k4 (on_proc np (set_sz (p_sz pr)) (set_km k2 s1))).
  assert (procs s4 np = set_sz (p_sz pr) q1) as P4 by (cbn; by rewrite fupd_eq).
  assert (procs s4 p = pr) as P4p by (cbn; by rewrite fupd_ne).
  assert (utask (procs s4 np) k2 l2) as T2.
  { rewrite P4. split; cbn; [apply (uvm_resize _ 0); [done|apply (uv_sz _ _ _ _ (xp_uvm _ _ _ Hpre))]|done|]. intros x Hx. by apply X2, Hfo. }
  destruct (task_write (procs s4 np) k2 l2 (mem k4) T2) as (T4 & W1 & W2); [by rewrite P4|done|]. rewrite P4 in W1, W2. cbn in W1, W2. fold new in W1, W2.
  change (set_mem (mem k4) k2) with k4 in T4.
  assert (can_dup (procs s4 p) (files s4) NOFILE) as Hd4 by (rewrite P4p; destruct Honly as (_ & _ & _ & Ef); change (files s4) with (files s1); by rewrite Ef).
  destruct (fork_finish_run p np s4 Hne Hd4) as (s' & E' & K' & O' & A1 & A2 & A3 & A4' & A5 & A6 & A7 & A8); [by rewrite P4p|].
  rewrite P4 in A3, A4', A5, A6, A7, E'. rewrite P4p in A8, E'. cbn in A3, A4', A5, A6, A7, E'.
  assert (within (km s) l k4 l2) as R4.
  { split; [apply T4|]. split; [done|]. intros x Ho. destruct Hbu as [_ Fn]. destruct (Fn x Ho) as [Em F1]. destruct (X2 x F1) as [Em2 [[W _] _]].
    split; [|exact W]. rewrite S4; [congruence|]. assert (~ in_page tf' x) as Hx by by apply Ho. unfold in_page in Hx. lia. }
  destruct (restored_kept pr _ _ _ _ Hpre R1) as (_ & Ht1 & U1 & P1 & _). fold old in P1. destruct (same_pte_views old _ _ P1) as (Ev1 & Ef1 & Er1).
  exists s'. split; [|split].
  - rewrite (bind_step _ _ _ _ _ (upd_step np _ _)). set (s3 := on_proc np _ _).
    rewrite (bind_step _ _ s3 tt (set_km (set_mem (blit (mem k2) tf' (mem k2) tf TF_SIZE) k2) s3)) by done.
    rewrite (bind_step _ _ _ tt s4) by done. rewrite E'. by rewrite Hpid.
  - split.
    + done.
    + intros j Hj. rewrite O' by done. cbn. rewrite fupd_ne by done. by apply (only_slot_procs np s s1 j Honly).
    + split; [done|]. split; [done|]. split; congruence.
    + done.
    + done.
    + rewrite A6, K'. fold new old. change (km s4) with k4. intros a. destruct (Hsame a) as (H1 & H2 & H3).
      destruct (restored_kept pr _ _ _ _ Hpre R1) as (Kp & _). pose proof (kp_bytes _ _ _ _ Kp a) as Hby. fold old in Hby.
      unfold readable, valid in *. rewrite !W2. rewrite P1 in H1, H3. split; [done|]. split; [by rewrite W1, H2, Hby|done].
    + exists l2. rewrite K'. apply (task_eq (procs s4 np)); [done|by rewrite A6, P4|by rewrite A7, P4|by rewrite A5, P4].
    + intros o Ho Hno. rewrite A7, K'. fold tf' tf. change (km s4) with k4. rewrite G4 by done.
      assert (in_page tf (tf + o)) as Hin by (unfold in_page, TF_SIZE, PGSIZE in *; lia).
      destruct Hbu as [_ Fn]. destruct (Fn (tf + o)) as [Em F1]; [by apply (trapframe_outside pr (km s) l)|]. destruct (X2 _ F1) as [Em2 _]. exact (eq_trans Em2 Em).
    + by rewrite A7, K'.
  - by rewrite K'.
Qed.

Lemma kfork_run p s l : exec_pre (procs s p) (km s) l -> p_state (procs s p) <> UNUSED -> unused_clear s ->
  can_dup (procs s p) (files s) NOFILE -> (forall fs, exists c fs', i_dup (p_cwd (procs s p)) fs = Ret c fs') ->
  exists r s', kfork forkret trampoline p s = Ret r s' /\ procs s' p = procs s p /\ kept (procs s p) (km s) (procs s' p) (km s') /\
    (exists l', uvm (p_pagetable (procs s p)) (p_sz (procs s p)) (km s') l') /\
    (forall x, in_page (p_trapframe (procs s p)) x -> mem (km s') x = mem (km s) x) /\
    (forall x, outside l x -> mem (km s') x = mem (km s) x) /\
    ((r = -1 /\ undone s l s' /\ (no_slot s \/ Z.of_nat (length l) <= 7 + 3 * (PGROUNDUP (p_sz (procs s p)) / PGSIZE))) \/
     (r = nextpid s /\ exists np, forked p np s s')).
Proof.
  intros Hpre Hst Hcl Hdup Hcwd. set (pr := procs s p) in *. pose proof (xp_uvm _ _ _ Hpre) as Hu.
  unfold kfork. destruct (allocproc_run forkret trampoline trampoline_pa s l (uv_inv _ _ _ _ Hu) (uv_bytes _ _ _ _ Hu) Hcl) as (np & s1 & E1 & Hal).
  destruct (pgroundup_page (p_sz pr) (uv_sz _ _ _ _ Hu)) as (_ & Hru & _). pose proof (uv_sz _ _ _ _ Hu) as Husz.
  assert (0 <= PGROUNDUP (p_sz pr) / PGSIZE) as Hpg by (apply Z.div_pos; unfold PGSIZE; lia).
  rewrite (bind_step _ _ _ _ _ E1). destruct Hal as [(-> & Hund & Hwhy)|(Hnp & l1 & Hfr)].
  { cbn [Z.eqb]. rewrite Z.eqb_refl. assert (procs s1 p = pr) as Epr by (by apply Hund). pose proof Hund as (_ & _ & _ & _ & _ & l' & Hres & _). apply restored_within in Hres.
    destruct (restored_kept pr _ _ _ _ Hpre Hres) as (K & T & U & _). exists (-1), s1. split; [done|]. split; [done|]. rewrite Epr. split; [done|].
    split; [by exists l'|]. split; [done|]. split; [intros x Hx; by apply Hres|]. left. split; [done|]. split; [done|]. destruct Hwhy; [by left|right; lia]. }
  rewrite (proj2 (Z.eqb_neq np NOPROC) Hnp). pose proof Hfr as [[Hnr Hun] Honly Hst1 Hpid Hsz Hra Hroot Hbu Hall Hln Htask Hemp Htfl].
  assert (p <> np) as Hne by (intros ->; done). assert (procs s1 p = pr) as Epr by by apply (only_slot_procs np s s1 p Honly).
  rewrite (bind_step (proc_of p) _ s1 pr s1) by (unfold proc_of, gets; by rewrite Epr). set (q1 := procs s1 np) in *.
  rewrite (bind_step (proc_of np) _ s1 q1 s1) by done. set (old := p_pagetable pr) in *. set (new := p_pagetable q1) in *.
  assert (within (km s) l (km s1) l1) as R1.
  { destruct Hbu as [Un Fn]. split; [apply Un|]. split; [apply Un|]. intros x Ho. destruct (Fn x Ho) as [Em [[W _] _]]. by split. }
  destruct (restored_kept pr _ _ _ _ Hpre R1) as (K1 & T1 & U1 & P1 & O1). fold old in U1, P1, O1.
  destruct (uvmcopy_run old new (p_sz pr) (km s1) l1 U1 (proj1 Hbu)) as (r & k2 & l2 & E2 & X2 & Hr); [|done| |].
  { intros x Ho%O1. apply Hbu. by eapply owned_outside. } { intros va Hva. unfold valid. rewrite P1. by apply (xp_below _ _ _ Hpre). }
  rewrite (bind_step _ _ _ _ _ (memory_op_step _ s1 _ _ E2)). destruct Hr as [[-> Hsame]|(-> & He & Hfew)].
  2: { cbn [Z.ltb Z.compare]. destruct (fork_undo np s l s1 l1 k2 l2 Hfr X2 He) as (s' & E & O & Hz & l' & Hres0). rewrite (bind_step _ _ _ _ _ E). pose proof (restored_within _ _ _ _ Hres0) as Hres.
       assert (procs s' p = pr) as Ep' by (rewrite <- Epr; by apply (only_slot_procs np s1 s')).
       destruct (restored_kept pr _ _ _ _ Hpre Hres) as (K & T & U & _). exists (-1), s'. split; [done|]. split; [done|]. rewrite Ep'. split; [done|].
       split; [by exists l'|]. split; [done|]. split; [intros x Hx; by apply Hres|]. left. split; [done|].
       split; [apply (only_slot_undone np s l s' l'); try done; [apply Hu|by eapply only_slot_trans]|]. right. lia. }
  cbn [Z.ltb Z.compare].
  destruct (fork_child p np s l s1 l1 k2 l2 Hpre Hfr X2 R1) as (s' & E & Hf & Hres); try done.
  fold pr q1 in E. exists (nextpid s), s'. split; [exact E|]. assert (procs s' p = pr) as Ep' by by apply (fk_others _ _ _ _ Hf).
  destruct (restored_kept pr _ _ _ _ Hpre Hres) as (K & T & U & _). split; [done|]. rewrite Ep'. split; [done|]. split; [by exists l2|]. split; [done|].
  split; [intros x Hx; by apply Hres|]. right. split; [done|]. by exists np.
Qed.

(** C12. fork makes a copy of the process. For a process with any memory, with any
    amount of free memory: kfork returns, and the process itself, its memory and
    its registers are as before, and so is all memory but the pages that were
    free. Either the result is -1, and then the fork leaves no trace: every
    process, the files and all memory are as before, the slots that were unused
    are unused and clear, and exactly the same pages are free; this happens only
    when no slot is unused or when at most 7 pages and three for each page of
    the process are free. Or it is a new pid, the number of a process that is ready to run
    whose memory reads exactly as the parent's, with the same access rights page
    for page (pages the parent has not touched yet included), with the same open
    files and the same registers except that a0, the result of its fork, is 0. *)
Theorem kfork_correct p s l : exec_pre (procs s p) (km s) l -> p_state (procs s p) <> UNUSED -> unused_clear s ->
  can_dup (procs s p) (files s) NOFILE -> (forall fs, exists c fs', i_dup (p_cwd (procs s p)) fs = Ret c fs') ->
  exists r s', kfork forkret trampoline p s = Ret r s' /\ procs s' p = procs s p /\ kept (procs s p) (km s) (procs s' p) (km s') /\
    (exists l', uvm (p_pagetable (procs s p)) (p_sz (procs s p)) (km s') l') /\
    (forall x, in_page (p_trapframe (procs s p)) x -> mem (km s') x = mem (km s) x) /\
    (forall x, outside l x -> mem (km s') x = mem (km s) x) /\
    ((r = -1 /\ undone s l s' /\ (no_slot s \/ Z.of_nat (length l) <= 7 + 3 * (PGROUNDUP (p_sz (procs s p)) / PGSIZE))) \/
     (r = nextpid s /\ exists np, forked p np s s')).
Proof. exact (kfork_run p s l). Qed.

(** The child comes back from the same fork: when it first gets a CPU, forkret
    takes it to user space at the program counter its parent had saved, with its
    memory and registers as fork left them. *)
Lemma fork_child_starts {D : Type} (uservec_off usertrap_addr : Z) fsinit exec_init p np (s : pstate F) (t : tstate F D) :
  forked p np s (ps t) ->
  exists t', Trap.forkret uservec_off usertrap_addr false fsinit exec_init np t = Ret (MAKE_SATP (p_pagetable (procs (ps t) np))) t' /\
    to_user uservec_off usertrap_addr np (ld64 (mem (km s)) (p_trapframe (procs s p) + TF_EPC)) t t'.
Proof.
  intros Hf. destruct (fk_task _ _ _ _ Hf) as (l & Ht).
  assert (ld64 (mem (km (ps t))) (p_trapframe (procs (ps t) np) + TF_EPC) = ld64 (mem (km s)) (p_trapframe (procs s p) + TF_EPC)) as <-.
  { apply (ld_shift 8). intros i Hi. pose proof (fk_regs _ _ _ _ Hf (TF_EPC + i)) as Hr. rewrite !Z.add_assoc in Hr. apply Hr; unfold TF_EPC, TF_SIZE, TF_A0; lia. }
  unfold Trap.forkret. cbn [when]. rewrite (bind_step _ _ t tt t) by done. rewrite (bind_step _ _ _ _ _ (prepare_return_eq uservec_off usertrap_addr np t)).
  eexists. split; [reflexivity|].
  destruct (kernel_words_run usertrap_addr _ (hrt t) _ l Ht) as (T & K & W0 & W). destruct (user_status (sstatus (hrt t))) as (S8 & S5 & S1).
  split; unfold proc_at, mem_at; cbn [hrt ps km procs set_km]; [exact W0|exact S8|exact S5|exact S1|reflexivity|exact W|exact K|by exists l|reflexivity].
Qed.
End forking.

(** ** Reference counts alone, for running kfork *)
Record counts := Counts { rc : Z -> Z }.
#[export] Instance counts_ops : FileOps counts := {|
  f_dup f s := Ret tt (Counts (fupd (rc s) f (rc s f + 1)));
  f_close f s := Ret tt (Counts (fupd (rc s) f (rc s f - 1)));
  i_dup i := ret i; i_put _ := ret tt; root_inode := ret 1 |}.
#[export] Instance counts_laws : FileLaws counts.
Proof.
  refine {| frefs := rc |}.
  - intros f s _. eexists. by split.
  - intros f s s' _ [= <-]. done.
  - intros i s i' s' [= _ <-]. done.
  - intros i s s' [= <-]. done.
Defined.

(** Process 3 of exec_state, with slot 5 unused *)
Definition fork_state : pstate counts :=
  PSt (fun i => if i =? 5 then clear_proc exec_proc else exec_proc) 4 0 0 exec_kmem (Counts (fun _ => 1)).

Lemma kfork_correct_witness : exists s', kfork 100 4096 3 fork_state = Ret 4 s' /\ p_state (procs s' 5) = RUNNABLE /\
  procs s' 3 = exec_proc /\ exists np, forked 100 3 np fork_state s'.
Proof.
  destruct (kfork_correct 100 4096 ltac:(vm_compute; split; congruence) 3 fork_state pages8) as (r & s' & E & Hp & _ & _ & _ & _ & Hr).
  - exact exec_state_pre.
  - vm_compute. congruence.
  - intros i Hi. cbn in *. destruct (i =? 5); [by split|done].
  - intros fd _ _. vm_compute. split; congruence.
  - intros fs. by exists 0, fs.
  - assert (match kfork 100 4096 3 fork_state with Ret r s => (r =? 4) && is_state (p_state (procs s 5)) RUNNABLE | _ => false end = true) as Hv by (vm_compute; reflexivity).
    rewrite E in Hv. apply andb_prop in Hv as [Hv1 Hv2]. apply Z.eqb_eq in Hv1. apply bool_decide_eq_true in Hv2. subst r.
    destruct Hr as [[H _]|[_ H]]; [discriminate H|]. exists s'. split; [exact E|]. split; [exact Hv2|]. split; [exact Hp|exact H].
Defined.
