(* ===== verification/Sched.v ===== *)
(** * kernel/proc.c: the scheduler and the switch between threads

    Every CPU runs scheduler(); swtch takes it to the thread of a process and
    back. p->lock is acquired by one side and released by the other, and a
    thread may resume on another CPU than it left. The lock operations are
    those of file Spinlock; the lock of process [p] has the number [p]. A step
    is one critical section of one CPU. *)
From stdpp Require Import base list numbers strings relations.
From Stdlib Require Import ZArith Lia FunctionalExtensionality.
From S2P Require Import Ulib Dto Prelude Memlayout Kalloc Vm Proc Spinlock.

(** Where a thread continues: at forkret, or after the swtch in sched with the
    local variable intena *)
Inductive resume := UForkret | USched (intena : bool).

(** What a CPU is doing. In scheduler: at the head of the loop, before acquiring
    proc[i].lock, holding it, or back from swtch. In the thread of process [p]:
    in forkret before it releases p->lock; running; holding p->lock to give up
    the CPU in state [st]; back from swtch in sched. *)
Inductive kpc :=
| KTop | KScan (i : Z) | KTest (i : Z) | KBack (i : Z)
| PStart (p : Z) | PRun (p : Z) | PLocked (p : Z) (st : procstate) | PBack (p : Z) (intena : bool)
| KPanic (msg : string).

(** [kloop c] is the variable p of scheduler on CPU [c], on the stack that its
    context leads to; [wants p] whether interrupts were on when the thread of
    [p] last began to give up the CPU. *)
Record mach := Mach {
  sm : smp; pst : Z -> procstate; cproc : Z -> Z; kpcs : Z -> kpc; kloop : Z -> Z; uctx : Z -> resume; wants : Z -> bool;
}.

Definition at_pc (c : Z) (q : kpc) (s : mach) : mach := Mach (sm s) (pst s) (cproc s) (fupd (kpcs s) c q) (kloop s) (uctx s) (wants s).
Definition set_sm (m : smp) (s : mach) : mach := Mach m (pst s) (cproc s) (kpcs s) (kloop s) (uctx s) (wants s).
Definition set_pst (p : Z) (v : procstate) (s : mach) : mach := Mach (sm s) (fupd (pst s) p v) (cproc s) (kpcs s) (kloop s) (uctx s) (wants s).
Definition set_cproc (c p : Z) (s : mach) : mach := Mach (sm s) (pst s) (fupd (cproc s) c p) (kpcs s) (kloop s) (uctx s) (wants s).
Definition set_uctx (p : Z) (u : resume) (s : mach) : mach := Mach (sm s) (pst s) (cproc s) (kpcs s) (kloop s) (fupd (uctx s) p u) (wants s).

(** Running code of file Spinlock on CPU [c], then going on at [q]; a lock that
    is taken makes the CPU spin, which is no step *)
Definition locked_step {A} (c : Z) (m : M smp A) (k : A -> mach -> mach) (s : mach) : option mach :=
  match m (sm s) with
  | Ret a t => Some (k a (set_sm t s))
  | Panic e => Some (at_pc c (KPanic e) s)
  | Sleep _ _ | Diverge => None
  end.

(** The checks of sched, for the process [p] in state [st]; the result is
    mycpu()->intena *)
Definition sched (c p : Z) (st : procstate) : M smp bool :=
  h <- holding c p ;;
  if negb h then panic "sched p->lock"
  else
    x <- cpu_of c ;;
    if negb (noff x =? 1) then panic "sched locks"
    else if is_state st RUNNING then panic "sched RUNNING"
    else
      i <- intr_get c ;;
      if (i : bool) then panic "sched interruptible" else ret (intena x).

(** swtch(&c->context, &p->context) and swtch(&p->context, &mycpu()->context) *)
Definition to_thread (c p : Z) (s : mach) : mach :=
  let s' := Mach (sm s) (pst s) (cproc s) (kpcs s) (fupd (kloop s) c p) (uctx s) (wants s) in
  at_pc c (match uctx s p with UForkret => PStart p | USched b => PBack p b end) s'.
Definition to_scheduler (c p : Z) (b : bool) (s : mach) : mach := at_pc c (KBack (kloop s c)) (set_uctx p (USched b) s).

Definition cpu_step (c : Z) (s : mach) : option mach :=
  match kpcs s c with
  | KTop => locked_step c (intr_set true c ;;; intr_set false c) (fun _ => at_pc c (KScan 0)) s
  | KScan i => if i <? NPROC then locked_step c (acquire c i) (fun _ => at_pc c (KTest i)) s else Some (at_pc c KTop s)
  | KTest i =>
      if is_state (pst s i) RUNNABLE
      then Some (to_thread c i (set_cproc c i (set_pst i RUNNING s)))
      else locked_step c (release c i) (fun _ => at_pc c (KScan (i + 1))) s
  | KBack i => locked_step c (release c i) (fun _ => at_pc c (KScan (i + 1))) (set_cproc c NOPROC s)
  | PStart p => locked_step c (release c (cproc s c)) (fun _ => at_pc c (PRun p)) s
  | PLocked p st =>
      let s1 := set_pst p st s in
      locked_step c (sched c (cproc s1 c) st) (fun b => to_scheduler c p b) s1
  | PBack p b =>
      locked_step c (on_cpu c (fun x => Cpu (noff x) b (intr x)) ;;; release c p) (fun _ => at_pc c (PRun p)) s
  | PRun _ | KPanic _ => None
  end.

Definition free_lock (m : smp) (p : Z) : Prop := locks m p = Spinlock 0 NOCPU.

(** yield, sleep and kexit: acquire(&p->lock) and a new state *)
Definition giving_up (st : procstate) : Prop := st = RUNNABLE \/ st = SLEEPING \/ st = ZOMBIE.

Inductive mstep : mach -> mach -> Prop :=
| k_cpu c s s' : is_cpu c -> cpu_step c s = Some s' -> mstep s s'
| k_give c p st m s : is_cpu c -> kpcs s c = PRun p -> giving_up st -> acquire c (cproc s c) (sm s) = Ret tt m ->
    mstep s (at_pc c (PLocked p st) (Mach m (pst s) (cproc s) (kpcs s) (kloop s) (uctx s) (fupd (wants s) p (intr (cpus (sm s) c)))))
| k_intr c p b m s : is_cpu c -> kpcs s c = PRun p -> intr_set b c (sm s) = Ret tt m -> mstep s (set_sm m s)
(** critical sections on p->lock elsewhere: wakeup or kill, fork, wait *)
| k_wake p s : free_lock (sm s) p -> pst s p = SLEEPING -> mstep s (set_pst p RUNNABLE s)
| k_fork p s : free_lock (sm s) p -> pst s p = UNUSED -> mstep s (set_uctx p UForkret (set_pst p RUNNABLE s))
| k_reap p s : free_lock (sm s) p -> pst s p = ZOMBIE -> mstep s (set_pst p UNUSED s).

(** All CPUs at the start of scheduler, no lock held, no process running *)
Definition sched_boot (s : mach) : Prop :=
  (forall c, kpcs s c = KTop /\ cproc s c = NOPROC /\ noff (cpus (sm s) c) = 0) /\
  (forall p, free_lock (sm s) p /\ pst s p <> RUNNING) /\ (forall p b, uctx s p = USched b -> b = wants s p).

(** ** The invariant *)

(** The process whose thread a CPU executes, and the process whose lock it holds *)
Definition thread (q : kpc) : option Z :=
  match q with PStart p | PRun p | PLocked p _ | PBack p _ => Some p | _ => None end.
Definition lock_of (q : kpc) : option Z :=
  match q with KTest i | KBack i => Some i | PStart p | PLocked p _ | PBack p _ => Some p | _ => None end.

Record locks_ok (m : smp) (f : Z -> kpc) : Prop := LocksOk {
  lo_cpu c : is_cpu c -> match lock_of (f c) with
    | Some p => locks m p = Spinlock 1 c /\ noff (cpus m c) = 1 /\ intr (cpus m c) = false
    | None => noff (cpus m c) = 0
    end;
  lo_lock p : free_lock m p \/ exists c, is_cpu c /\ lock_of (f c) = Some p;
}.

Record threads_ok (s : mach) : Prop := ThreadsOk {
  th_run c p : is_cpu c -> thread (kpcs s c) = Some p -> cproc s c = p /\ kloop s c = p /\ pst s p = RUNNING;
  th_on p : pst s p = RUNNING -> exists c, is_cpu c /\ thread (kpcs s c) = Some p;
  th_excl c c' p : is_cpu c -> is_cpu c' -> thread (kpcs s c) = Some p -> thread (kpcs s c') = Some p -> c = c';
  th_locked c p st : is_cpu c -> kpcs s c = PLocked p st -> intena (cpus (sm s) c) = wants s p /\ giving_up st;
  th_back c p b : is_cpu c -> kpcs s c = PBack p b -> b = wants s p;
  th_ctx p b : pst s p <> RUNNING -> uctx s p = USched b -> b = wants s p;
  th_safe c e : is_cpu c -> kpcs s c <> KPanic e;
}.

Definition sched_inv (s : mach) : Prop := locks_ok (sm s) (kpcs s) /\ threads_ok s.

Lemma boot_sched_inv s : sched_boot s -> sched_inv s.
Proof.
  intros (Hc & Hp & Hu). split; split.
  - intros c _. destruct (Hc c) as (-> & _ & Hn). done.
  - intros p. left. apply Hp.
  - intros c p _. destruct (Hc c) as (-> & _). done.
  - intros p E. by destruct (Hp p).
  - intros c c' p _ _. destruct (Hc c) as (-> & _). done.
  - intros c p st _. destruct (Hc c) as (-> & _). done.
  - intros c p b _. destruct (Hc c) as (-> & _). done.
  - intros p b _. apply Hu.
  - intros c e _. destruct (Hc c) as (-> & _). done.
Qed.

Lemma lock_unique m f c c' p : locks_ok m f -> is_cpu c -> is_cpu c' -> lock_of (f c) = Some p -> lock_of (f c') = Some p -> c = c'.
Proof.
  intros Hl Hc Hc' E E'. pose proof (lo_cpu _ _ Hl c Hc) as H1. pose proof (lo_cpu _ _ Hl c' Hc') as H2. rewrite E in H1. rewrite E' in H2.
  destruct H1 as [H1 _], H2 as [H2 _]. congruence.
Qed.

(** *** The lock operations *)

Lemma acquire_free c i m : noff (cpus m c) = 0 -> free_lock m i ->
  acquire c i m = Ret tt (Smp (fupd (locks m) i (Spinlock 1 c)) (fupd (cpus m) c (Cpu 1 (intr (cpus m c)) false))).
Proof.
  intros Hn Hf. unfold free_lock in Hf. unfold acquire. rewrite (bind_step _ _ _ _ _ (push_off_run c m ltac:(lia))). rewrite Hn. cbn [Z.eqb Z.add].
  set (t := Smp (locks m) _). assert (locks t i = Spinlock 0 NOCPU) as Ht by exact Hf.
  rewrite (bind_step _ _ t false t) by (cbv beta iota delta [holding locked_of bind gets]; by rewrite Ht).
  rewrite (bind_step _ _ t 0 (Smp (fupd (locks t) i (Spinlock 1 NOCPU)) (cpus t))) by (cbv beta iota delta [exchange locked_of set_locked on_lock bind gets modify ret]; by rewrite Ht).
  cbn [Z.eqb negb]. unfold set_lcpu, on_lock, modify. cbn [locks cpus]. by rewrite fupd_eq, fupd_twice.
Qed.

(** A lock that another CPU holds *)
Lemma acquire_taken c c' i m : noff (cpus m c) = 0 -> locks m i = Spinlock 1 c' -> c' <> c -> exists t, acquire c i m = Sleep i t.
Proof.
  intros Hn Hk Hc. unfold acquire. rewrite (bind_step _ _ _ _ _ (push_off_run c m ltac:(lia))).
  set (t := Smp (locks m) _). assert (locks t i = Spinlock 1 c') as Ht by exact Hk.
  rewrite (bind_step _ _ t false t).
  2: { cbv beta iota delta [holding locked_of lcpu_of bind gets ret]. rewrite Ht. cbn [locked lcpu]. change (1 =? 0) with false. cbv iota. cbv beta. rewrite Ht. cbn [lcpu]. by rewrite (proj2 (Z.eqb_neq c' c)). }
  rewrite (bind_step _ _ t 1 (Smp (fupd (locks t) i (Spinlock 1 c')) (cpus t))) by (cbv beta iota delta [exchange locked_of set_locked on_lock bind gets modify ret]; by rewrite Ht).
  by eexists.
Qed.

(** A CPU that holds no lock acquires one that is free, or spins *)
Lemma acquire_cases c i m f : locks_ok m f -> is_cpu c -> lock_of (f c) = None ->
  (free_lock m i /\ acquire c i m = Ret tt (Smp (fupd (locks m) i (Spinlock 1 c)) (fupd (cpus m) c (Cpu 1 (intr (cpus m c)) false)))) \/
  exists t, acquire c i m = Sleep i t.
Proof.
  intros Hl Hc Hn. pose proof (lo_cpu _ _ Hl c Hc) as H2. rewrite Hn in H2.
  destruct (lo_lock _ _ Hl i) as [Hf|(c' & Hc' & El)]; [left; split; [done|by apply acquire_free]|]. right.
  pose proof (lo_cpu _ _ Hl c' Hc') as H1. rewrite El in H1. destruct H1 as (Hk & _). apply (acquire_taken c c'); [done|done|congruence].
Qed.

Lemma release_held c i m : locks m i = Spinlock 1 c -> noff (cpus m c) = 1 -> intr (cpus m c) = false ->
  release c i m = Ret tt (Smp (fupd (locks m) i (Spinlock 0 NOCPU)) (fupd (cpus m) c (Cpu 0 (intena (cpus m c)) (intena (cpus m c))))).
Proof.
  intros Hk Hn Hi. unfold release, holding, set_lcpu, set_locked, on_lock. rewrite (bind_step _ _ m true m).
  2: { cbv beta iota delta [locked_of lcpu_of bind gets ret]. rewrite Hk. cbn [locked lcpu]. change (1 =? 0) with false. cbv iota. cbv beta. rewrite Hk. cbn [lcpu]. by rewrite Z.eqb_refl. }
  cbn [negb]. unfold bind at 1, modify. unfold bind at 1, modify. cbn [locks cpus]. rewrite fupd_eq, fupd_twice. cbn [lcpu].
  rewrite pop_off_run; cbn [cpus locks]; [|lia|done]. by rewrite Hn.
Qed.

(** *** What they keep *)

Lemma locks_keep m f c q : locks_ok m f -> lock_of q = lock_of (f c) -> locks_ok m (fupd f c q).
Proof.
  intros [A B] E. split.
  - intros c' Hc'. destruct (Z.eq_dec c' c) as [->|]; [rewrite fupd_eq, E|rewrite fupd_ne by done]; by apply A.
  - intros p. destruct (B p) as [?|(c' & Hc' & El)]; [by left|]. right. exists c'. split; [done|].
    destruct (Z.eq_dec c' c) as [->|]; [by rewrite fupd_eq, E|by rewrite fupd_ne].
Qed.

Lemma locks_acquire m f c i q : locks_ok m f -> is_cpu c -> lock_of (f c) = None -> free_lock m i -> lock_of q = Some i ->
  locks_ok (Smp (fupd (locks m) i (Spinlock 1 c)) (fupd (cpus m) c (Cpu 1 (intr (cpus m c)) false))) (fupd f c q).
Proof.
  intros Hl Hc Hn Hf Hq. pose proof Hl as [A B]. split.
  - intros c' Hc'. destruct (Z.eq_dec c' c) as [->|Hne]; [rewrite fupd_eq, Hq; cbn; by rewrite !fupd_eq|]. rewrite fupd_ne by done. specialize (A c' Hc').
    cbn. rewrite (fupd_ne (cpus m)) by done. destruct (lock_of (f c')) as [p|] eqn:El; [|done].
    rewrite fupd_ne; [done|]. intros ->. destruct A as [A _]. unfold free_lock in Hf. congruence.
  - intros p. destruct (Z.eq_dec p i) as [->|Hp]; [right; exists c; by rewrite fupd_eq|].
    destruct (B p) as [Hfp|(c' & Hc' & El)]; [left; unfold free_lock; cbn; by rewrite fupd_ne|]. right. exists c'. split; [done|].
    rewrite fupd_ne; [done|]. intros ->. congruence.
Qed.

Lemma locks_release m f c i q b : locks_ok m f -> is_cpu c -> lock_of (f c) = Some i -> lock_of q = None ->
  locks_ok (Smp (fupd (locks m) i (Spinlock 0 NOCPU)) (fupd (cpus m) c (Cpu 0 b b))) (fupd f c q).
Proof.
  intros Hl Hc Hn Hq. pose proof Hl as [A B]. split.
  - intros c' Hc'. destruct (Z.eq_dec c' c) as [->|Hne]; [rewrite fupd_eq, Hq; cbn; by rewrite fupd_eq|]. rewrite fupd_ne by done.
    specialize (A c' Hc'). cbn. rewrite (fupd_ne (cpus m)) by done. destruct (lock_of (f c')) as [p|] eqn:El; [|done].
    rewrite fupd_ne; [done|]. intros ->. by apply Hne, (lock_unique m f c' c i).
  - intros p. destruct (Z.eq_dec p i) as [->|Hp]; [left; unfold free_lock; cbn; by rewrite fupd_eq|].
    destruct (B p) as [Hfp|(c' & Hc' & El)]; [left; unfold free_lock; cbn; by rewrite fupd_ne|]. right. exists c'. split; [done|].
    rewrite fupd_ne; [done|]. intros ->. congruence.
Qed.

Lemma locks_cpu m f c x : locks_ok m f -> noff x = noff (cpus m c) -> (noff x = 1 -> intr x = intr (cpus m c)) -> locks_ok (Smp (locks m) (fupd (cpus m) c x)) f.
Proof.
  intros [A B] Hn Hi. split; [|exact B]. intros c' Hc'. specialize (A c' Hc'). cbn.
  destruct (Z.eq_dec c' c) as [->|]; [rewrite fupd_eq|by rewrite fupd_ne]. destruct (lock_of (f c)) as [p|]; [|congruence].
  destruct A as (A1 & A2 & A3). split; [done|]. split; [congruence|]. rewrite Hi; congruence.
Qed.

(** *** The threads *)

Ltac at_cpu c' c := destruct (Z.eq_dec c' c) as [->|]; [rewrite ?fupd_eq in *|rewrite ?fupd_ne in * by done].

(** A step of CPU [c] that stays in its thread *)
Lemma threads_same c q m s : threads_ok s -> is_cpu c -> thread q = thread (kpcs s c) ->
  (forall p st, q <> PLocked p st) -> (forall p b, q <> PBack p b) -> (forall e, q <> KPanic e) ->
  (forall c', c' <> c -> cpus m c' = cpus (sm s) c') -> threads_ok (at_pc c q (set_sm m s)).
Proof.
  intros [A B C D E F G] Hc Ht Hl Hb Hp Hm. split; cbn [sm pst cproc kpcs kloop uctx wants at_pc set_sm].
  - intros c' p Hc' Et. apply A; [done|]. at_cpu c' c; congruence.
  - intros p (c' & Hc' & Et)%B. exists c'. split; [done|]. at_cpu c' c; congruence.
  - intros c1 c2 p H1 H2 E1 E2. apply (C c1 c2 p H1 H2); [at_cpu c1 c; congruence|]. destruct (Z.eq_dec c2 c) as [->|]; [rewrite fupd_eq in E2; congruence|by rewrite fupd_ne in E2].
  - intros c' p st Hc' Eq. at_cpu c' c; [by apply Hl in Eq|]. rewrite Hm by done. by apply (D c' p).
  - intros c' p b Hc' Eq. at_cpu c' c; [by apply Hb in Eq|]. by apply (E c').
  - apply F.
  - intros c' e Hc'. at_cpu c' c; [by apply Hp|by apply G].
Qed.

Lemma threads_cproc c x s : threads_ok s -> thread (kpcs s c) = None -> threads_ok (set_cproc c x s).
Proof.
  intros [A B C D E F G] Ht. split; cbn [sm pst cproc kpcs kloop uctx wants set_cproc]; try done.
  intros c' p Hc' Et. at_cpu c' c; [congruence|by apply A].
Qed.

(** A process that is not running changes its state *)
Lemma threads_pst p v s : threads_ok s -> pst s p <> RUNNING -> v <> RUNNING -> threads_ok (set_pst p v s).
Proof.
  intros [A B C D E F G] Hp Hv. split; cbn [sm pst cproc kpcs kloop uctx wants set_pst]; try done.
  - intros c p' Hc Et. destruct (A c p' Hc Et) as (A1 & A2 & A3). rewrite fupd_ne by congruence. done.
  - intros p' Ep. at_cpu p' p; [done|by apply B].
  - intros p' b Ep. apply F. at_cpu p' p; done.
Qed.

(** The scheduler of CPU [c] goes to the thread of [p] *)
Lemma threads_to_thread c p s : threads_ok s -> is_cpu c -> kpcs s c = KTest p -> pst s p = RUNNABLE ->
  threads_ok (to_thread c p (set_cproc c p (set_pst p RUNNING s))).
Proof.
  intros [A B C D E F G] Hc Eq Ep. assert (forall c', is_cpu c' -> thread (kpcs s c') <> Some p) as Hno.
  { intros c' Hc' Et. destruct (A c' p Hc' Et) as (_ & _ & Er). congruence. }
  set (q := match uctx s p with UForkret => PStart p | USched b => PBack p b end).
  assert (thread q = Some p) as Hq by (unfold q; by destruct (uctx s p)).
  assert (forall p' st, q <> PLocked p' st) as Hl by (unfold q; by destruct (uctx s p)).
  unfold to_thread. split; cbn [sm pst cproc kpcs kloop uctx wants at_pc set_cproc set_pst]; fold q.
  - intros c' p' Hc' Et. at_cpu c' c; [rewrite Hq in Et; injection Et as <-; by rewrite fupd_eq|].
    destruct (A c' p' Hc' Et) as (A1 & A2 & A3). rewrite fupd_ne; [done|]. intros ->. by apply (Hno c').
  - intros p' Er. destruct (Z.eq_dec p' p) as [->|]; [exists c; split; [done|by rewrite fupd_eq]|]. rewrite fupd_ne in Er by done.
    destruct (B p' Er) as (c' & Hc' & Et). exists c'. split; [done|]. at_cpu c' c; [by rewrite Eq in Et|done].
  - intros c1 c2 p' H1 H2 E1 E2. destruct (Z.eq_dec c1 c) as [->|], (Z.eq_dec c2 c) as [->|]; [done|..].
    + rewrite fupd_eq, Hq in E1. rewrite fupd_ne in E2 by done. injection E1 as <-. by apply Hno in E2.
    + rewrite fupd_eq, Hq in E2. rewrite fupd_ne in E1 by done. injection E2 as <-. by apply Hno in E1.
    + rewrite fupd_ne in E1, E2 by done. by apply (C c1 c2 p').
  - intros c' p' st Hc' Es. at_cpu c' c; [by apply Hl in Es|by apply (D c' p')].
  - intros c' p' b Hc' Es. at_cpu c' c; [|by apply (E c')]. unfold q in Es. destruct (uctx s p) as [|b'] eqn:Eu; [done|]. injection Es as <- <-.
    apply (F p); [congruence|done].
  - intros p' b Hr. apply F. at_cpu p' p; done.
  - intros c' e Hc'. at_cpu c' c; [unfold q; by destruct (uctx s p)|by apply G].
Qed.

(** The thread of [p] goes back to the scheduler *)
Lemma threads_to_scheduler c p st s : threads_ok s -> is_cpu c -> kpcs s c = PLocked p st ->
  threads_ok (to_scheduler c p (wants s p) (set_pst p st s)).
Proof.
  intros [A B C D E F G] Hc Eq. assert (thread (kpcs s c) = Some p) as Et by by rewrite Eq. destruct (D c p st Hc Eq) as [_ Hg].
  assert (st <> RUNNING) as Hst by (destruct Hg as [->|[->| ->]]; done).
  unfold to_scheduler. split; cbn [sm pst cproc kpcs kloop uctx wants at_pc set_pst set_uctx].
  - intros c' p' Hc' Et'. at_cpu c' c; [done|]. destruct (A c' p' Hc' Et') as (A1 & A2 & A3). rewrite fupd_ne; [done|]. intros ->.
    by rewrite (C c' c p) in *.
  - intros p' Er. at_cpu p' p; [done|]. destruct (B p' Er) as (c' & Hc' & Et'). exists c'. split; [done|]. at_cpu c' c; [congruence|done].
  - intros c1 c2 p' H1 H2 E1 E2. destruct (Z.eq_dec c1 c) as [->|]; [by rewrite fupd_eq in E1|]. destruct (Z.eq_dec c2 c) as [->|]; [by rewrite fupd_eq in E2|].
    rewrite fupd_ne in E1, E2 by done. by apply (C c1 c2 p').
  - intros c' p' st' Hc' Es. at_cpu c' c; [done|by apply (D c' p')].
  - intros c' p' b Hc' Es. at_cpu c' c; [done|by apply (E c')].
  - intros p' b Hr Eu. at_cpu p' p; [congruence|by apply F].
  - intros c' e Hc'. at_cpu c' c; [done|by apply G].
Qed.

(** The thread of [p] begins to give up the CPU *)
Lemma threads_give c p st m s : threads_ok s -> is_cpu c -> kpcs s c = PRun p -> giving_up st ->
  (forall c', c' <> c -> cpus m c' = cpus (sm s) c') -> intena (cpus m c) = intr (cpus (sm s) c) ->
  threads_ok (at_pc c (PLocked p st) (Mach m (pst s) (cproc s) (kpcs s) (kloop s) (uctx s) (fupd (wants s) p (intr (cpus (sm s) c))))).
Proof.
  intros [A B C D E F G] Hc Eq Hg Hm Hi. assert (thread (kpcs s c) = Some p) as Et by by rewrite Eq. destruct (A c p Hc Et) as (A1 & A2 & A3).
  assert (forall c' p', is_cpu c' -> c' <> c -> thread (kpcs s c') = Some p' -> p' <> p) as Hne.
  { intros c' p' Hc' Hcc Et' ->. by apply Hcc, (C c' c p). }
  split; cbn [sm pst cproc kpcs kloop uctx wants at_pc].
  - intros c' p' Hc' Et'. apply A; [done|]. at_cpu c' c; [by rewrite Eq|done].
  - intros p' (c' & Hc' & Et')%B. exists c'. split; [done|]. at_cpu c' c; [by rewrite Eq in Et'|done].
  - intros c1 c2 p' H1 H2 E1 E2. apply (C c1 c2 p' H1 H2).
    + destruct (Z.eq_dec c1 c) as [->|]; [rewrite fupd_eq in E1; by rewrite Eq|by rewrite fupd_ne in E1].
    + destruct (Z.eq_dec c2 c) as [->|]; [rewrite fupd_eq in E2; by rewrite Eq|by rewrite fupd_ne in E2].
  - intros c' p' st' Hc' Es. destruct (Z.eq_dec c' c) as [->|Hcc]; [rewrite fupd_eq in Es; injection Es as <- <-; by rewrite fupd_eq|].
    rewrite fupd_ne in Es by done. rewrite fupd_ne by (apply (Hne c'); [done|done|by rewrite Es]). rewrite Hm by done. by apply (D c' p').
  - intros c' p' b Hc' Es. destruct (Z.eq_dec c' c) as [->|Hcc]; [by rewrite fupd_eq in Es|]. rewrite fupd_ne in Es by done.
    rewrite fupd_ne by (apply (Hne c'); [done|done|by rewrite Es]). by apply (E c').
  - intros p' b Hr Eu. rewrite fupd_ne by congruence. by apply F.
  - intros c' e Hc'. at_cpu c' c; [done|by apply G].
Qed.

Lemma release_run c i s f : locks_ok (sm s) f -> is_cpu c -> lock_of (f c) = Some i ->
  release c i (sm s) = Ret tt (Smp (fupd (locks (sm s)) i (Spinlock 0 NOCPU)) (fupd (cpus (sm s)) c (Cpu 0 (intena (cpus (sm s) c)) (intena (cpus (sm s) c))))).
Proof. intros Hl Hc E. pose proof (lo_cpu _ _ Hl c Hc) as Hx. rewrite E in Hx. destruct Hx as (? & ? & ?). by apply release_held. Qed.

(** Releasing the lock and staying in the thread *)
Lemma inv_release c i q s : sched_inv s -> is_cpu c -> lock_of (kpcs s c) = Some i -> lock_of q = None -> thread q = thread (kpcs s c) ->
  (forall e, q <> KPanic e) -> exists s', locked_step c (release c i) (fun _ => at_pc c q) s = Some s' /\ sched_inv s' /\
    kpcs s' c = q /\ intr (cpus (sm s') c) = intena (cpus (sm s) c).
Proof.
  intros [Hl Ht] Hc El Hq Hth Hp. unfold locked_step. rewrite (release_run c i s (kpcs s) Hl Hc El). eexists. split; [reflexivity|].
  split; [split|split; cbn; by rewrite fupd_eq].
  - by apply locks_release.
  - apply threads_same; try done; [intros p st ->; done|intros p b ->; done|]. intros c' Hne. cbn. by rewrite fupd_ne.
Qed.

(** The checks of sched pass *)
Lemma sched_run c p st m f : locks_ok m f -> is_cpu c -> lock_of (f c) = Some p -> giving_up st -> sched c p st m = Ret (intena (cpus m c)) m.
Proof.
  intros Hl Hc El Hg. pose proof (lo_cpu _ _ Hl c Hc) as Hx. rewrite El in Hx. destruct Hx as (Hk & Hn & Hi). unfold sched.
  rewrite (bind_step _ _ m true m).
  2: { unfold holding, locked_of, lcpu_of, bind, gets, ret. rewrite Hk. cbn [locked]. change (1 =? 0) with false. cbv iota beta. rewrite Hk. cbn [lcpu]. by rewrite Z.eqb_refl. }
  cbn [negb]. rewrite (bind_step _ _ m (cpus m c) m) by done. rewrite Hn. cbn [Z.eqb Pos.eqb negb].
  replace (is_state st RUNNING) with false by (destruct Hg as [->|[->| ->]]; done). rewrite (bind_step _ _ m false m); [done|].
  unfold intr_get, cpu_of, bind, gets, ret. by rewrite Hi.
Qed.

Lemma inv_back c p b s : sched_inv s -> is_cpu c -> kpcs s c = PBack p b ->
  exists s', cpu_step c s = Some s' /\ sched_inv s' /\ kpcs s' c = PRun p /\ intr (cpus (sm s') c) = b.
Proof.
  intros [Hl Ht] Hc Eq. unfold cpu_step. rewrite Eq. set (x := Cpu (noff (cpus (sm s) c)) b (intr (cpus (sm s) c))).
  set (m1 := Smp (locks (sm s)) (fupd (cpus (sm s)) c x)).
  assert (sched_inv (set_sm m1 s)) as Hi1.
  { split; [by apply locks_cpu|]. destruct Ht as [A B C D E F G]. split; try done. intros c' p' st Hc' Es. cbn in *. at_cpu c' c; [congruence|by apply (D c' p')]. }
  destruct (inv_release c p (PRun p) (set_sm m1 s)) as (s' & E & I & K & W); try done; [cbn; by rewrite Eq..|].
  exists s'. split; [|split; [done|split; [done|]]].
  - rewrite <- E. destruct Hi1 as [Hl1 _]. pose proof (release_run c p (set_sm m1 s) (kpcs s) Hl1 Hc ltac:(by rewrite Eq)) as R. unfold locked_step.
    rewrite R. rewrite (bind_step _ _ (sm s) tt m1) by done. change (sm (set_sm m1 s)) with m1 in R. by rewrite R.
  - rewrite W. cbn. by rewrite fupd_eq.
Qed.

Ltac pcq Eq := cbn [kpcs sm at_pc set_sm set_cproc set_pst]; by rewrite Eq.

Lemma inv_cpu c s s' : sched_inv s -> is_cpu c -> cpu_step c s = Some s' -> sched_inv s'.
Proof.
  intros Hi Hc Es. pose proof Hi as [Hl Ht]. pose proof Es as Es0. unfold cpu_step in Es. destruct (kpcs s c) as [|i|i|i|p|p|p st|p b|e] eqn:Eq; try done.
  - unfold locked_step in Es. unfold bind, intr_set, on_cpu, modify in Es. cbn [locks cpus] in Es. rewrite fupd_eq, fupd_twice in Es. cbn [noff intena] in Es.
    injection Es as <-. pose proof (lo_cpu _ _ Hl c Hc) as Hn. rewrite Eq in Hn. cbn [lock_of] in Hn. split.
    + apply locks_keep; [|pcq Eq]. apply locks_cpu; [done|done|]. cbn. lia.
    + apply threads_same; try done; [pcq Eq|]. intros c' Hne. cbn. by rewrite fupd_ne.
  - destruct (i <? NPROC); [|injection Es as <-; split; [apply locks_keep; [done|pcq Eq]|apply (threads_same c KTop (sm s)); try done; pcq Eq]].
    unfold locked_step in Es. destruct (acquire_cases c i (sm s) (kpcs s) Hl Hc) as [[Hf E]|[t E]]; [pcq Eq|rewrite E in Es|by rewrite E in Es].
    injection Es as <-. split; [apply locks_acquire; try done; pcq Eq|]. apply threads_same; try done; [pcq Eq|].
    intros c' Hne. cbn. by rewrite fupd_ne.
  - destruct (is_state (pst s i) RUNNABLE) eqn:Er.
    + apply bool_decide_eq_true in Er. injection Es as <-. split; [|by apply threads_to_thread]. unfold to_thread. cbn [sm kpcs at_pc set_cproc set_pst].
      apply locks_keep; [done|]. rewrite Eq. cbn. by destruct (uctx s i).
    + destruct (inv_release c i (KScan (i + 1)) s) as (s1 & E & I & _); try done; [pcq Eq..|]. congruence.
  - destruct (inv_release c i (KScan (i + 1)) (set_cproc c NOPROC s)) as (s1 & E & I & _); try done; [|pcq Eq..|congruence].
    split; [done|]. apply threads_cproc; [done|pcq Eq].
  - destruct (th_run _ Ht c p Hc) as (E1 & _); [pcq Eq|]. rewrite E1 in Es.
    destruct (inv_release c p (PRun p) s) as (s1 & E & I & _); try done; [pcq Eq..|]. congruence.
  - destruct (th_run _ Ht c p Hc) as (E1 & E2 & _); [pcq Eq|]. destruct (th_locked _ Ht c p st Hc Eq) as [Hw Hg].
    unfold locked_step in Es. cbn [sm cproc set_pst] in Es. rewrite E1 in Es. rewrite (sched_run c p st (sm s) (kpcs s)) in Es; try done; [|pcq Eq].
    injection Es as <-. rewrite Hw. split; [|by apply (threads_to_scheduler c p st s)].
    unfold to_scheduler. cbn [sm kpcs at_pc set_pst set_uctx set_sm kloop]. apply locks_keep; [done|]. rewrite Eq, E2. done.
  - destruct (inv_back c p b s Hi Hc Eq) as (s1 & E & I & _). congruence.
Qed.

Lemma inv_kstep s s' : sched_inv s -> mstep s s' -> sched_inv s'.
Proof.
  intros Hi Hs. destruct Hs as [c s s' Hc Es|c p st m s Hc Eq Hg Ea|c p b m s Hc Eq Em|p s Hf Ep|p s Hf Ep|p s Hf Ep]; pose proof Hi as [Hl Ht].
  - by eapply inv_cpu.
  - assert (thread (kpcs s c) = Some p) as Eth by pcq Eq. destruct (th_run _ Ht c p Hc Eth) as (E1 & _). rewrite E1 in Ea.
    destruct (acquire_cases c p (sm s) (kpcs s) Hl Hc) as [[Hf E]|[t E]]; [pcq Eq|rewrite E in Ea|by rewrite E in Ea]. injection Ea as <-.
    split; [apply locks_acquire; try done; pcq Eq|]. apply threads_give; try done; cbn [cpus]; [intros c' Hne; by rewrite fupd_ne|by rewrite fupd_eq].
  - unfold intr_set, on_cpu, modify in Em. injection Em as <-. pose proof (lo_cpu _ _ Hl c Hc) as Hn. rewrite Eq in Hn. cbn in Hn. split.
    + apply locks_cpu; [done|done|cbn; lia].
    + pose proof (threads_same c (PRun p) (Smp (locks (sm s)) (fupd (cpus (sm s)) c (Cpu (noff (cpus (sm s) c)) (intena (cpus (sm s) c)) b))) s Ht Hc) as Hx.
      unfold at_pc, set_sm in Hx. cbn in Hx. rewrite <- Eq, fupd_id in Hx. apply Hx; try done; rewrite ?Eq; try done.
      intros c' Hne. by rewrite fupd_ne.
  - split; [done|]. apply threads_pst; [done|congruence|done].
  - split; [done|]. pose proof (threads_pst p RUNNABLE s Ht ltac:(congruence) ltac:(done)) as [A B C D E F G]. split; try done.
    intros p' b Hr Eu. cbn [uctx set_uctx] in Eu. destruct (Z.eq_dec p' p) as [->|]; [by rewrite fupd_eq in Eu|]. rewrite fupd_ne in Eu by done. by apply F.
  - split; [done|]. apply threads_pst; [done|congruence|done].
Qed.

Lemma inv_reach s s' : sched_boot s -> rtc mstep s s' -> sched_inv s'.
Proof. intros Hb Hr. assert (sched_inv s) as Hi by by apply boot_sched_inv. clear Hb. revert Hi. induction Hr as [|x y z Hs _ IH]; [done|]. intros Hi. by apply IH, (inv_kstep x). Qed.

(** C20. The scheduler on any number of CPUs, in any interleaving with processes that
    yield, sleep, exit, fork and wake each other. A process is RUNNING exactly
    when some CPU executes its thread, and no two CPUs execute the same thread;
    on that CPU myproc() is that process; no CPU panics, so each p->lock taken
    on one side of swtch is held by the CPU that releases it on the other and the
    checks of sched pass; and a thread that gave up the CPU continues, on
    whichever CPU, with interrupts as they were when it began to give it up. *)
Theorem scheduler_correct s s' : sched_boot s -> rtc mstep s s' ->
  (forall p, pst s' p = RUNNING <-> exists c, is_cpu c /\ thread (kpcs s' c) = Some p) /\
  (forall c c' p, is_cpu c -> is_cpu c' -> thread (kpcs s' c) = Some p -> thread (kpcs s' c') = Some p -> c = c') /\
  (forall c p, is_cpu c -> thread (kpcs s' c) = Some p -> cproc s' c = p) /\
  (forall c e, is_cpu c -> kpcs s' c <> KPanic e) /\
  (forall c p b, is_cpu c -> kpcs s' c = PBack p b ->
    exists s2, cpu_step c s' = Some s2 /\ kpcs s2 c = PRun p /\ intr (cpus (sm s2) c) = wants s' p).
Proof.
  intros Hb Hr. pose proof (inv_reach s s' Hb Hr) as Hi. pose proof Hi as [Hl [A B C D E F G]]. split; [|split; [done|split; [|split; [done|]]]].
  - intros p. split; [apply B|]. intros (c & Hc & Et). by destruct (A c p Hc Et) as (_ & _ & ?).
  - intros c p Hc Et. by destruct (A c p Hc Et) as (? & _ & _).
  - intros c p b Hc Eq. destruct (inv_back c p b s' Hi Hc Eq) as (s2 & E2 & _ & K & W). exists s2. split; [done|]. split; [done|]. rewrite W. by apply (E c).
Qed.

(** Two CPUs and two processes: process 0 runs on CPU 0 with interrupts on,
    yields, and continues on CPU 1 *)
Definition sched0 : mach :=
  Mach (Smp (fun _ => Spinlock 0 NOCPU) (fun _ => Cpu 0 false false)) (fun p => if p =? 0 then RUNNABLE else UNUSED) (fun _ => NOPROC) (fun _ => KTop)
    (fun _ => 0) (fun _ => UForkret) (fun _ => false).
Definition go (c : Z) (s : mach) : mach := match cpu_step c s with Some s' => s' | None => s end.
Lemma go_step c s : is_cpu c -> (match cpu_step c s with Some _ => true | None => false end) = true -> mstep s (go c s).
Proof. intros Hc E. unfold go. destruct (cpu_step c s) eqn:Es; [by eapply k_cpu|done]. Qed.

Lemma scheduler_correct_witness : exists s, rtc mstep sched0 s /\ kpcs s 1 = PBack 0 true /\
  exists s2, cpu_step 1 s = Some s2 /\ kpcs s2 1 = PRun 0 /\ intr (cpus (sm s2) 1) = true.
Proof.
  assert (forall c, 0 <= c < 8 -> is_cpu c) as Hcpu by (intros c Hc; exact Hc).
  assert (exists s, rtc mstep sched0 s /\ kpcs s 1 = PBack 0 true /\ wants s 0 = true) as (s & Hr & Eq & Ew).
  { eexists. split; [|shelve].
    do 4 (eapply rtc_l; [apply (go_step 0); [apply Hcpu; lia|vm_compute; reflexivity]|]).
    eapply rtc_l; [eapply (k_intr 0 0 true); [apply Hcpu; lia|vm_compute; reflexivity|reflexivity]|].
    eapply rtc_l; [eapply (k_give 0 0 RUNNABLE); [apply Hcpu; lia|vm_compute; reflexivity|by left|vm_compute; reflexivity]|].
    do 2 (eapply rtc_l; [apply (go_step 0); [apply Hcpu; lia|vm_compute; reflexivity]|]).
    do 3 (eapply rtc_l; [apply (go_step 1); [apply Hcpu; lia|vm_compute; reflexivity]|]).
    apply rtc_refl.
    Unshelve. vm_compute. done. }
  exists s. split; [exact Hr|]. split; [exact Eq|].
  destruct (scheduler_correct sched0 s) as (_ & _ & _ & _ & H); [|exact Hr|].
  - split; [done|]. split; [|done]. intros p. split; [done|]. cbn. by destruct (p =? 0).
  - destruct (H 1 0 true) as (s2 & E2 & K & W); [apply Hcpu; lia|exact Eq|]. exists s2. split; [exact E2|]. split; [exact K|]. congruence.
Defined.
