(* ===== verification/Kprintf.v ===== *)
(** * kernel/printf.c: formatted output of the kernel

    The integers a call passes to consputc (file Console), as a list, and the
    bytes that consputc sends for them; panic in terms of it. Arguments are as
    in file Uprintf. *)
From stdpp Require Import base list numbers strings.
From Stdlib Require Import ZArith Lia.
From S2P Require Import Ulib Prelude UserMem Console Uprintf.

Definition kdigits : chars := lit "0123456789abcdef".
Definition kdigit (k : Z) : Z := default 0 (kdigits !! Z.to_nat k).

Fixpoint kprintint_loop (fuel : nat) (x base : Z) : chars :=
  match fuel with
  | O => []
  | S f => kdigit (x mod base) :: (if negb (x / base =? 0) then kprintint_loop f (x / base) base else [])
  end.
(** What printint stores in buf, in order *)
Definition kprintint_buf (xx base : Z) (sign : bool) : chars :=
  let neg := sign && (xx <? 0) in
  let x := if neg then u64 (- xx) else u64 xx in
  let buf := kprintint_loop 64 x base in
  if neg then buf ++ [45] else buf.
Definition kprintint (xx base : Z) (sign : bool) : chars := rev (kprintint_buf xx base sign).

Fixpoint kprintptr_loop (n : nat) (x : Z) : chars :=
  match n with
  | O => []
  | S n' => kdigit (Z.shiftr x 60) :: kprintptr_loop n' (u64 (Z.shiftl x 4))
  end.
Definition kprintptr (x : Z) : chars := [48; 120] ++ kprintptr_loop 16 x.

(** [skip]: the characters that i++, i += 1 and i += 2 jump over *)
Fixpoint kprintf (fmt : chars) (skip : nat) (ap : list arg) : list Z :=
  match fmt with
  | [] => []
  | cx :: rest =>
      match skip with
      | S k => kprintf rest k ap
      | O =>
          if negb (cx =? chr "%") then cx :: kprintf rest 0 ap
          else
            let c0 := default 0 (head rest) in
            let c1 := if c0 =? 0 then 0 else default 0 (head (tail rest)) in
            let c2 := if c1 =? 0 then 0 else default 0 (head (tail (tail rest))) in
            let int_with f k := f (next_int ap) ++ kprintf rest (S k) (tail ap) in
            if c0 =? chr "d" then int_with (fun z => kprintint (i32 z) 10 true) 0%nat
            else if (c0 =? chr "l") && (c1 =? chr "d") then int_with (fun z => kprintint (i64 z) 10 true) 1%nat
            else if (c0 =? chr "l") && (c1 =? chr "l") && (c2 =? chr "d") then int_with (fun z => kprintint (i64 z) 10 true) 2%nat
            else if c0 =? chr "u" then int_with (fun z => kprintint (u32 z) 10 false) 0%nat
            else if (c0 =? chr "l") && (c1 =? chr "u") then int_with (fun z => kprintint (u64 z) 10 false) 1%nat
            else if (c0 =? chr "l") && (c1 =? chr "l") && (c2 =? chr "u") then int_with (fun z => kprintint (u64 z) 10 false) 2%nat
            else if c0 =? chr "x" then int_with (fun z => kprintint (u32 z) 16 false) 0%nat
            else if (c0 =? chr "l") && (c1 =? chr "x") then int_with (fun z => kprintint (u64 z) 16 false) 1%nat
            else if (c0 =? chr "l") && (c1 =? chr "l") && (c2 =? chr "x") then int_with (fun z => kprintint (u64 z) 16 false) 2%nat
            else if c0 =? chr "p" then int_with (fun z => kprintptr (u64 z)) 0%nat
            else if c0 =? chr "c" then int_with (fun z => [i32 (u32 z)]) 0%nat
            else if c0 =? chr "s" then next_str ap ++ kprintf rest 1 (tail ap)
            else if c0 =? chr "%" then chr "%" :: kprintf rest 1 ap
            else if c0 =? 0 then []
            else chr "%" :: c0 :: kprintf rest 1 ap
      end
  end.

(** panic: its output; panicking and panicked are set, and it loops *)
Definition kpanic (s : chars) : list Z := kprintf (lit "panic: ") 0 [] ++ kprintf (lit "%s" ++ [10]) 0 [AStr (Some s)].

(** What a call of consputc puts on the wire, and what printf does *)
Definition sent (c : Z) : list Z := omap (fun e => match e with EPutc b => Some (u8 b) | _ => None end) (consputc c).
Definition kernel_output (fmt : chars) (ap : list arg) : list Z := mjoin (sent <$> kprintf fmt 0 ap).

(** ** The kernel prints what a user program would print *)

(** The same character, up to the case of hexadecimal digits *)
Definition same_char (k u : Z) : Prop := k = u \/ 65 <= u <= 70 /\ k = u + 32.

(** What printf passes to consputc where a user program writes [u]: the same
    character, or, with [pc] (the format has a %c), a whole argument of the
    call, of which the user program writes the low byte. *)
Definition passes (pc : Prop) (ap : list arg) (k u : Z) : Prop :=
  (0 <= k < 256 /\ same_char k u) \/ (pc /\ (exists z, AInt z ∈ ap /\ k = i32 z) /\ u = u8 k).

Section passing.
Context (pc : Prop) (ap0 : list arg).
Abbreviation passed := (passes pc ap0).

Lemma passed_char c : 0 <= c < 256 -> passed c c.
Proof. intros Hc. left. split; [done|by left]. Qed.

Lemma passed_refl s : Forall (fun c => 0 <= c < 256) s -> Forall2 passed s s.
Proof. induction 1 as [|c s Hc _ IH]; constructor; [by apply passed_char|done]. Qed.

Lemma kdigit_same k : 0 <= k < 16 -> passed (kdigit k) (digit k).
Proof.
  intros Hk. set (ok k := (0 <=? kdigit k) && (kdigit k <? 256) && ((kdigit k =? digit k) || ((65 <=? digit k) && (digit k <=? 70) && (kdigit k =? digit k + 32)))).
  assert (forallb ok (seqZ 0 16) = true) as Hs by (vm_compute; reflexivity). rewrite forallb_forall in Hs.
  specialize (Hs k). unfold ok in Hs. unfold passes, same_char. rewrite <- list_elem_of_In, elem_of_seqZ in Hs. specialize (Hs ltac:(lia)). lia.
Qed.

Lemma kprintint_loop_same fuel : forall x base, 2 <= base <= 16 -> Forall2 passed (kprintint_loop fuel x base) (printint_loop fuel x base).
Proof.
  induction fuel as [|fuel IH]; intros x base Hb; cbn [kprintint_loop printint_loop]; constructor.
  - apply kdigit_same. pose proof (Z.mod_pos_bound x base). lia.
  - destruct (negb _); [by apply IH|constructor].
Qed.

Lemma kprintint_buf_same xx base sign : 2 <= base <= 16 -> Forall2 passed (kprintint_buf xx base sign) (printint_buf xx base sign).
Proof.
  intros Hb. unfold kprintint_buf, printint_buf. cbv zeta. destruct (sign && (xx <? 0)); [|by apply kprintint_loop_same].
  apply Forall2_app; [by apply kprintint_loop_same|]. constructor; [by apply passed_char|constructor].
Qed.

Lemma kprintint_same xx base sign : 2 <= base <= 16 -> Forall2 passed (kprintint xx base sign) (printint xx base sign).
Proof. intros Hb. unfold kprintint, printint. rewrite !rev_alt. by apply Forall2_reverse, kprintint_buf_same. Qed.

Lemma kprintptr_loop_same n : forall x, 0 <= x < 2 ^ 64 -> Forall2 passed (kprintptr_loop n x) (printptr_loop n x).
Proof.
  induction n as [|n IH]; intros x Hx; cbn [kprintptr_loop printptr_loop]; constructor.
  - apply kdigit_same. rewrite Z.shiftr_div_pow2 by lia. split; [apply Z.div_pos; lia|]. apply Z.div_lt_upper_bound; lia.
  - apply IH. apply wrap_range. lia.
Qed.

Lemma kprintptr_same x : 0 <= x < 2 ^ 64 -> Forall2 passed (kprintptr x) (printptr x).
Proof. intros Hx. apply Forall2_app; [by apply passed_refl; repeat constructor; vm_compute; congruence|by apply kprintptr_loop_same]. Qed.

(** Formats and strings of characters *)
Definition arg_ok (a : arg) : Prop := match a with AStr (Some s) => Forall (fun c => 0 <= c < 256) s | _ => True end.

Lemma next_str_same ap : Forall arg_ok ap -> Forall2 passed (next_str ap) (next_str ap).
Proof.
  intros Ha. apply passed_refl. destruct Ha as [|[z|[s|]] ap Ha _]; cbn; [constructor|constructor|exact Ha|]. repeat constructor; vm_compute; congruence.
Qed.

Lemma i32_u32_i32 z : i32 (u32 z) = i32 z.
Proof. unfold swrap, wrap. change (2 ^ (32 - 1)) with 2147483648. change (2 ^ 32) with 4294967296. dlia. Qed.
Lemma u8_char z : u8 (i32 z) = u8 z.
Proof. unfold swrap, wrap. change (2 ^ (32 - 1)) with 2147483648. change (2 ^ 32) with 4294967296. change (2 ^ 8) with 256. dlia. Qed.

Lemma next_int_passed ap : pc -> (forall a, a ∈ ap -> a ∈ ap0) -> Forall2 passed [i32 (u32 (next_int ap))] [u8 (next_int ap)].
Proof.
  intros Hp Hs. constructor; [|constructor]. rewrite i32_u32_i32. destruct ap as [|[z|o] ap]; cbn [next_int]; [by apply passed_char| |by apply passed_char].
  right. split; [done|]. split; [exists z; split; [apply Hs; by left|done]|]. by rewrite u8_char.
Qed.

Lemma kprintf_same n : forall fmt skip ap, (length fmt <= n)%nat -> Forall (fun c => 0 < c < 256) fmt -> Forall arg_ok ap ->
  (forall a b, fmt = a ++ [chr "%"; chr "c"] ++ b -> pc) -> (forall a, a ∈ ap -> a ∈ ap0) ->
  Forall2 passed (kprintf fmt skip ap) (vprintf fmt false skip ap).
Proof.
  induction n as [|n IH]; intros fmt skip ap Hl Hf Ha Hpc Hs; [destruct fmt; [constructor|cbn in Hl; lia]|].
  destruct fmt as [|cx rest]; [constructor|]. apply Forall_cons in Hf as [Hc Hf]. cbn [length] in Hl.
  assert (forall a b, rest = a ++ [chr "%"; chr "c"] ++ b -> pc) as Hpr by (intros a b ->; by apply (Hpc (cx :: a) b)).
  destruct skip as [|k]; [|apply (IH rest k ap); [lia|done..]].
  cbn [kprintf vprintf negb]. destruct (Z.eqb_spec cx (chr "%")) as [->|Hne]; cbn [negb].
  2: { constructor; [apply passed_char; lia|]. apply IH; [lia|done..]. }
  destruct rest as [|c0 rest]; [constructor|]. apply Forall_cons in Hf as [Hc0 Hf]. cbn [head tail default length] in *. cbn [vprintf negb kprintf].
  cbn [from_option id] in *. rewrite (proj2 (Z.eqb_neq c0 0)) by lia.
  assert (forall a b, rest = a ++ [chr "%"; chr "c"] ++ b -> pc) as Hpr' by (intros a b ->; by apply (Hpr (c0 :: a) b)).
  assert (forall j ap', Forall arg_ok ap' -> (forall a, a ∈ ap' -> a ∈ ap0) -> Forall2 passed (kprintf rest j ap') (vprintf rest false j ap')) as Hr by (intros; apply IH; [lia|done..]).
  assert (Forall arg_ok (tail ap)) as Ht by (destruct Ha; done). assert (forall a, a ∈ tail ap -> a ∈ ap0) as Hts by (intros a Hin; apply Hs; destruct ap; [done|by right]).
  pose proof (next_str_same ap Ha). pose proof (fun x => wrap_range 64 x ltac:(lia)). pose proof (Hr 0%nat ap Ha Hs). pose proof (fun j => Hr j (tail ap) Ht Hts).
  assert (c0 = chr "c" -> pc) as Hcc by (intros ->; by apply (Hpc [] rest)).
  destruct (Z.eqb_spec c0 (chr "c")) as [Ec|Ec];
  repeat match goal with |- Forall2 _ (if ?b then _ else _) (if ?b then _ else _) => destruct b eqn:? end;
    try (apply Forall2_app; [first [done|apply kprintint_same; lia|apply kprintptr_same; auto|by apply next_int_passed; auto]|done]);
    (constructor; [by apply passed_char|]); [done|]. constructor; [apply passed_char; lia|done].
Qed.
End passing.

(** C39. printf of the kernel and of user programs agree for every format and all
    arguments: where the user program writes a character, the kernel passes the
    same one to consputc, up to the case of the hexadecimal digits, or, for %c,
    the whole argument, of which the user program writes the low byte. So the
    same characters go out on the wire unless the format has a %c and one of the
    arguments is 0x100; consputc takes that value for its BACKSPACE and sends
    three bytes. And the 20 bytes in which printint builds the digits are enough
    for every 64-bit value. *)
Theorem kprintf_correct fmt ap : Forall (fun c => 0 < c < 256) fmt -> Forall arg_ok ap ->
  Forall2 (passes (exists a b, fmt = a ++ [chr "%"; chr "c"] ++ b) ap) (kprintf fmt 0 ap) (vprintf fmt false 0 ap) /\
  ((forall a b, fmt <> a ++ [chr "%"; chr "c"] ++ b) \/ (forall z, AInt z ∈ ap -> i32 z <> BACKSPACE) ->
     Forall2 same_char (kernel_output fmt ap) (vprintf fmt false 0 ap)) /\
  forall xx base sign, base = 10 \/ base = 16 -> - 2 ^ 63 <= xx < 2 ^ 64 -> (sign = true -> xx < 2 ^ 63 /\ base = 10) ->
    Z.of_nat (length (kprintint_buf xx base sign)) <= 20.
Proof.
  intros Hf Ha. set (pc := exists a b, fmt = a ++ [chr "%"; chr "c"] ++ b).
  assert (Forall2 (passes pc ap) (kprintf fmt 0 ap) (vprintf fmt false 0 ap)) as H.
  { apply (kprintf_same pc ap (length fmt)); [done|done|done| |done]. intros a b E. by exists a, b. }
  split; [done|]. split.
  - intros Hno. unfold kernel_output. induction H as [|k u ks us Hk _ IH]; [constructor|]. cbn [fmap list_fmap mjoin list_join].
    assert (k <> BACKSPACE) as Hb.
    { destruct Hk as [[Hr _]|(Hp & (z & Hz & ->) & _)]; [unfold BACKSPACE; lia|]. destruct Hno as [Hno|Hno]; [destruct Hp as (a & b & E); by destruct (Hno a b)|by apply Hno]. }
    assert (sent k = [u8 k]) as -> by (unfold sent, consputc; by rewrite (proj2 (Z.eqb_neq k BACKSPACE))).
    constructor; [|exact IH]. destruct Hk as [[Hr Hs]|(_ & _ & ->)]; [by rewrite wrap_small|by left].
  - intros xx base sign Hb Hx Hs. rewrite (Forall2_length _ _ _ (kprintint_buf_same False [] xx base sign ltac:(lia))).
    by destruct (printint_correct xx base sign Hb Hx Hs) as [? _].
Qed.

Lemma kprintf_correct_witness : kernel_output (lit "%d:%x%c") [AInt 256; AInt 255; AInt 10] = lit "256:ff" ++ [10] /\
  Forall2 same_char (kernel_output (lit "%d:%x%c") [AInt (-5); AInt 255; AInt 10]) (vprintf (lit "%d:%x%c") false 0 [AInt (-5); AInt 255; AInt 10]) /\
  kernel_output (lit "%c") [AInt 256] = [8; 32; 8] /\ vprintf (lit "%c") false 0 [AInt 256] = [0] /\
  Z.of_nat (length (kprintint_buf (- 2 ^ 63) 10 true)) <= 20.
Proof.
  destruct (kprintf_correct (lit "%d:%x%c") [AInt (-5); AInt 255; AInt 10]) as (_ & H1 & H2); [repeat constructor; vm_compute; congruence|repeat constructor|].
  split; [vm_compute; reflexivity|]. split; [|split; [vm_compute; reflexivity|split; [vm_compute; reflexivity|]]].
  - apply H1. right. intros z Hz. repeat (apply elem_of_cons in Hz as [[= ->]|Hz]; [vm_compute; congruence|]). apply not_elem_of_nil in Hz. contradiction.
  - apply H2; [by left|vm_compute; split; congruence|split; [vm_compute; congruence|done]].
Defined.
