(* ===== verification/Umem.v ===== *)
(** * user/ulib.c: the memory functions

    memset, memmove, memcmp and memcpy of user programs, on the byte-addressed
    memory of file CString, and their agreement with the functions of
    kernel/string.c. char is unsigned on RISC-V. *)
From stdpp Require Import base list numbers.
From Stdlib Require Import ZArith Lia FunctionalExtensionality.
From S2P Require Import Prelude CString.

Fixpoint umemset_loop (m : bytes) (cdst c i : Z) (n : nat) : bytes :=
  match n with
  | O => m
  | S n' => umemset_loop (fupd m (cdst + i) (u8 c)) cdst c (i + 1) n'
  end.
Definition umemset (m : bytes) (dst c n : Z) : bytes := umemset_loop m dst c 0 (Z.to_nat n).

(** while (n-- > 0) *dst++ = *src++ *)
Fixpoint up (m : bytes) (dst src : Z) (n : nat) : bytes :=
  match n with O => m | S n' => up (fupd m dst (m src)) (dst + 1) (src + 1) n' end.
(** while (n-- > 0) *--dst = *--src *)
Fixpoint down (m : bytes) (dst src : Z) (n : nat) : bytes :=
  match n with O => m | S n' => down (fupd m (dst - 1) (m (src - 1))) (dst - 1) (src - 1) n' end.
(** n is an int: nothing is copied when it is negative *)
Definition umemmove (m : bytes) (vdst vsrc n : Z) : bytes :=
  if vdst <? vsrc then up m vdst vsrc (Z.to_nat n)
  else down m (vdst + n) (vsrc + n) (Z.to_nat n).

Fixpoint umemcmp_loop (m : bytes) (p1 p2 : Z) (n : nat) : Z :=
  match n with
  | O => 0
  | S n' => if negb (m p1 =? m p2) then m p1 - m p2 else umemcmp_loop m (p1 + 1) (p2 + 1) n'
  end.
Definition umemcmp (m : bytes) (s1 s2 n : Z) : Z := umemcmp_loop m s1 s2 (Z.to_nat n).

(** n is a uint and becomes the int of memmove *)
Definition umemcpy (m : bytes) (dst src n : Z) : bytes := umemmove m dst src (i32 n).

Lemma up_fwd n : forall m d s, up m d s n = copy_fwd m d s n.
Proof. induction n as [|n IH]; intros; [done|apply IH]. Qed.
Lemma down_back n : forall m d s, down m d s n = copy_back m d s n.
Proof. induction n as [|n IH]; intros; [done|apply IH]. Qed.

Lemma umemmove_blit m dst src n : 0 <= n -> umemmove m dst src n = blit m dst m src n.
Proof.
  intros Hn. unfold umemmove. destruct (Z.ltb_spec dst src).
  - rewrite up_fwd, copy_fwd_spec, Z2Nat.id by lia. done.
  - rewrite down_back, copy_back_spec, Z2Nat.id by lia. f_equal; lia.
Qed.

Lemma umemset_loop_eq n : forall m d c i, umemset_loop m d c i n = memset_loop m d c i n.
Proof. induction n as [|n IH]; intros; [done|apply IH]. Qed.
Lemma umemcmp_loop_eq n : forall m p q, umemcmp_loop m p q n = memcmp_loop m p q n.
Proof. induction n as [|n IH]; intros; [done|]. cbn. destruct (_ =? _); [apply IH|done]. Qed.

(** The user functions compute what those of the kernel do for every length an
    int can hold, although memmove picks its direction by another test. *)
Theorem user_memory_functions m a b c n : 0 <= n < 2 ^ 31 ->
  umemset m a c n = memset m a c n /\ umemmove m a b n = memmove m a b n /\
  umemcmp m a b n = memcmp m a b n /\ umemcpy m a b n = memcpy m a b n.
Proof.
  intros Hn. split_and!.
  - apply umemset_loop_eq.
  - by rewrite umemmove_blit, memmove_blit by lia.
  - apply umemcmp_loop_eq.
  - unfold umemcpy, memcpy. rewrite swrap_small by lia. by rewrite umemmove_blit, memmove_blit by lia.
Qed.

Lemma user_memory_functions_witness : umemmove (fun x => x mod 256) 1 0 3 = memmove (fun x => x mod 256) 1 0 3.
Proof. apply (user_memory_functions (fun x => x mod 256) 1 0 0 3). lia. Defined.

(** A length of 2^31 bytes or more is negative for memmove: memcpy copies nothing. *)
Lemma umemcpy_huge m dst src n : 2 ^ 31 <= n < 2 ^ 32 -> umemcpy m dst src n = m.
Proof.
  intros Hn. unfold umemcpy, umemmove. assert (Z.to_nat (i32 n) = 0%nat) as ->.
  { assert (i32 n = n - 2 ^ 32) as ->; [|lia]. unfold swrap.
    change (2 ^ (32 - 1)) with (2 ^ 31). rewrite <- (Z.mod_add _ (-1)) by lia.
    rewrite Z.mod_small; lia. }
  by destruct (_ <? _).
Qed.
