(* ===== verification/Utils.v ===== *)
(** * user/cat.c, wc.c, echo.c, ls.c, rm.c, mkdir.c, ln.c, kill.c: the small programs

    A program is a computation on the state [W] of the kernel it runs on. The
    system calls it makes are the operations of the class [Calls]; what they
    promise is stated in [CallLaws] by an abstract kernel ([view]): files by
    path, the bytes left to read on each descriptor and the bytes written to
    it. A read may deliver fewer bytes than it is asked for, as reads of pipes
    and of the console do; reads of files opened by path do not. The programs
    are proved against the laws, and [Sim] is a kernel that has them. *)
From stdpp Require Import base list numbers strings.
From Stdlib Require Import ZArith Lia FunctionalExtensionality.
From S2P Require Import Ulib Fs Prelude Memlayout Uprintf.

(** ** System calls *)

Record ustat := UStat { u_type : Z; u_ino : Z; u_size : Z }.

Class Calls (W : Type) := {
  sys_open : chars -> W -> Z * W;                  (* open(path, O_RDONLY) *)
  sys_read : Z -> Z -> W -> Z * chars * W;         (* the result and the bytes stored *)
  sys_write : Z -> chars -> W -> Z * W;
  sys_close : Z -> W -> W;
  sys_fstat : Z -> W -> option ustat * W;          (* None is a negative result *)
  sys_unlink : chars -> W -> Z * W;
  sys_mkdir : chars -> W -> Z * W;
  sys_link : chars -> chars -> W -> Z * W;
  sys_kill : Z -> W -> Z * W
}.

(** The end of a computation: it returns, calls exit, or exhausts its fuel. *)
Inductive uout (A : Type) := URet (a : A) | UExit (status : Z) | UFuel.
Arguments URet {A} a.
Arguments UExit {A} status.
Arguments UFuel {A}.

Section programs.
Context {W : Type} `{!Calls W}.

Definition prog (A : Type) := W -> uout A * W.
Definition uret {A} (a : A) : prog A := fun w => (URet a, w).
Definition exit {A} (status : Z) : prog A := fun w => (UExit status, w).
Definition ubind {A B} (m : prog A) (k : A -> prog B) : prog B := fun w =>
  match m w with
  | (URet a, w') => k a w'
  | (UExit c, w') => (UExit c, w')
  | (UFuel, w') => (UFuel, w')
  end.
Definition call {A} (f : W -> A * W) : prog A := fun w => let '(a, w') := f w in (URet a, w').

Declare Scope prog_scope.
Delimit Scope prog_scope with prog.
Notation "x <- m ;; k" := (ubind m (fun x => k)) (at level 100, m at next level, right associativity) : prog_scope.
Notation "m ;; k" := (ubind m (fun _ => k)) (at level 100, right associativity) : prog_scope.
Local Open Scope prog_scope.

Definition open (path : chars) : prog Z := call (sys_open path).
Definition read (fd n : Z) : prog (Z * chars) := call (sys_read fd n).
Definition write (fd : Z) (s : chars) : prog Z := call (sys_write fd s).
Definition close (fd : Z) : prog unit := call (fun w => (tt, sys_close fd w)).
Definition fstat (fd : Z) : prog (option ustat) := call (sys_fstat fd).

(** printf.c writes one character at a time and does not look at the result *)
Fixpoint putcs (fd : Z) (s : chars) : prog unit :=
  match s with [] => uret tt | c :: s' => write fd [c] ;; putcs fd s' end.
Definition fprintf (fd : Z) (s : chars) : prog unit := putcs fd s.

(** stat of ulib.c *)
Definition stat (path : chars) : prog (option ustat) :=
  fd <- open path ;;
  if fd <? 0 then uret None
  else (r <- fstat fd ;; close fd ;; uret r).

(** *** cat.c *)

Definition BUF : Z := 512.

Fixpoint cat (fuel : nat) (fd : Z) : prog unit :=
  match fuel with
  | O => fun w => (UFuel, w)
  | S f =>
      nb <- read fd BUF ;;
      let '(n, buf) := nb in
      if 0 <? n then
        (k <- write 1 buf ;;
         if negb (k =? n) then fprintf 2 (lit "cat: write error" ++ [10]) ;; exit 1 else cat f fd)
      else if n <? 0 then fprintf 2 (lit "cat: read error" ++ [10]) ;; exit 1
      else uret tt
  end.

(** "cat: cannot open %s\n" and the same for wc and ls *)
Definition cannot_open (name : string) (path : chars) : chars :=
  lit name ++ printf ": cannot open %s" [AStr (Some path)] ++ [10].

(** The loop of main over the file arguments, which cat.c and wc.c share *)
Fixpoint each_file (body : Z -> chars -> prog unit) (on_error : chars -> prog unit) (argv : list chars) : prog unit :=
  match argv with
  | [] => uret tt
  | a :: rest =>
      fd <- open a ;;
      if fd <? 0 then on_error a ;; exit 1
      else (body fd a ;; close fd ;; each_file body on_error rest)
  end.
Definition cat_files (fuel : nat) (argv : list chars) : prog unit :=
  each_file (fun fd _ => cat fuel fd) (fun a => fprintf 2 (cannot_open "cat" a)) argv.
(** main; [argv] is argv[1] .. argv[argc-1] here and below *)
Definition cat_main (fuel : nat) (argv : list chars) : prog unit :=
  match argv with
  | [] => cat fuel 0 ;; exit 0
  | _ => cat_files fuel argv ;; exit 0
  end.

(** *** wc.c *)

Record counts := Counts { l : Z; w : Z; c : Z; inword : bool }.
Definition blanks : chars := [32; 13; 9; 10; 11].

(** The body of the for loop *)
Definition wc_char (k : counts) (ch : Z) : counts :=
  let c' := i32 (c k + 1) in
  let l' := if ch =? 10 then i32 (l k + 1) else l k in
  match strchr blanks ch with
  | Some _ => Counts l' (w k) c' false
  | None => if negb (inword k) then Counts l' (i32 (w k + 1)) c' true else Counts l' (w k) c' (inword k)
  end.
Fixpoint wc_buf (k : counts) (buf : chars) : counts :=
  match buf with [] => k | ch :: buf' => wc_buf (wc_char k ch) buf' end.

Fixpoint wc_loop (fuel : nat) (fd : Z) (k : counts) : prog (Z * counts) :=
  match fuel with
  | O => fun w => (UFuel, w)
  | S f =>
      nb <- read fd BUF ;;
      let '(n, buf) := nb in
      if 0 <? n then wc_loop f fd (wc_buf k buf) else uret (n, k)
  end.
(** printf("%d %d %d %s\n", l, w, c, name) *)
Definition count_line (l w c : Z) (name : chars) : chars :=
  printf "%d %d %d %s" [AInt l; AInt w; AInt c; AStr (Some name)] ++ [10].
Definition wc (fuel : nat) (fd : Z) (name : chars) : prog unit :=
  nk <- wc_loop fuel fd (Counts 0 0 0 false) ;;
  let '(n, k) := nk in
  if n <? 0 then fprintf 1 (lit "wc: read error" ++ [10]) ;; exit 1
  else fprintf 1 (count_line (l k) (w k) (c k) name).

Definition wc_files (fuel : nat) (argv : list chars) : prog unit :=
  each_file (wc fuel) (fun a => fprintf 1 (cannot_open "wc" a)) argv.
Definition wc_main (fuel : nat) (argv : list chars) : prog unit :=
  match argv with
  | [] => wc fuel 0 [] ;; exit 0
  | _ => wc_files fuel argv ;; exit 0
  end.

(** *** echo.c *)

Fixpoint echo_args (argv : list chars) : prog unit :=
  match argv with
  | [] => uret tt
  | a :: rest =>
      write 1 a ;;
      match rest with [] => write 1 [10] | _ => write 1 [32] end ;;
      echo_args rest
  end.
Definition echo_main (argv : list chars) : prog unit := echo_args argv ;; exit 0.

(** *** rm.c, mkdir.c, ln.c, kill.c *)

Fixpoint until_failure (f : chars -> W -> Z * W) (msg : chars -> chars) (argv : list chars) : prog unit :=
  match argv with
  | [] => uret tt
  | a :: rest =>
      r <- call (f a) ;;
      if r <? 0 then fprintf 2 (msg a) else until_failure f msg rest
  end.
Definition rm_main (argv : list chars) : prog unit :=
  match argv with
  | [] => fprintf 2 (lit "Usage: rm files..." ++ [10]) ;; exit 1
  | _ => until_failure sys_unlink (fun a => printf "rm: %s failed to delete" [AStr (Some a)] ++ [10]) argv ;; exit 0
  end.
Definition mkdir_main (argv : list chars) : prog unit :=
  match argv with
  | [] => fprintf 2 (lit "Usage: mkdir files..." ++ [10]) ;; exit 1
  | _ => until_failure sys_mkdir (fun a => printf "mkdir: %s failed to create" [AStr (Some a)] ++ [10]) argv ;; exit 0
  end.
Definition ln_main (argv : list chars) : prog unit :=
  match argv with
  | [old; new] =>
      r <- call (sys_link old new) ;;
      (if r <? 0 then fprintf 2 (printf "link %s %s: failed" [AStr (Some old); AStr (Some new)] ++ [10]) else uret tt) ;;
      exit 0
  | _ => fprintf 2 (lit "Usage: ln old new" ++ [10]) ;; exit 1
  end.
Fixpoint kill_args (argv : list chars) : prog unit :=
  match argv with [] => uret tt | a :: rest => call (sys_kill (atoi a)) ;; kill_args rest end.
Definition kill_main (argv : list chars) : prog unit :=
  match argv with
  | [] => fprintf 2 (lit "usage: kill pid..." ++ [10]) ;; exit 1
  | _ => kill_args argv ;; exit 0
  end.

(** *** ls.c *)

(** for (p = path + strlen(path); p >= path && *p != '/'; p--); p++: the
    offset of p, tried from [n] downwards *)
Fixpoint after_slash (n : nat) (path : chars) : nat :=
  match path !! n with
  | Some 47 => S n
  | _ => match n with O => O | S n' => after_slash n' path end
  end.
Definition fmtname (path : chars) : chars :=
  let p := drop (after_slash (length path) path) path in
  if DIRSIZ <=? strlen p then p else p ++ replicate (Z.to_nat (DIRSIZ - strlen p)) 32.

(** printf("%s %d %d %d\n", fmtname(path), st.type, st.ino, (int)st.size) *)
Definition ls_line (path : chars) (st : ustat) : chars :=
  printf "%s %d %d %d" [AStr (Some (fmtname path)); AInt (u_type st); AInt (i32 (u_ino st)); AInt (i32 (u_size st))] ++ [10].

Definition cannot_stat (path : chars) : chars := printf "ls: cannot stat %s" [AStr (Some path)] ++ [10].

(** A struct dirent: its inum and its name up to the first NUL *)
Definition de_inum (de : chars) : Z := default 0 (de !! 0%nat) + 256 * default 0 (de !! 1%nat).
Fixpoint cut (s : chars) : chars :=
  match s with [] => [] | ch :: s' => if ch =? 0 then [] else ch :: cut s' end.
Definition de_name (de : chars) : chars := cut (take (Z.to_nat DIRSIZ) (drop 2 de)).

Fixpoint ls_entries (fuel : nat) (fd : Z) (path : chars) : prog unit :=
  match fuel with
  | O => fun w => (UFuel, w)
  | S f =>
      nb <- read fd DIRENT_SIZE ;;
      let '(n, de) := nb in
      if n =? DIRENT_SIZE then
        if de_inum de =? 0 then ls_entries f fd path
        else
          let buf := path ++ 47 :: de_name de in
          r <- stat buf ;;
          match r with
          | None => fprintf 1 (cannot_stat buf)
          | Some st => fprintf 1 (ls_line buf st)
          end ;;
          ls_entries f fd path
      else uret tt
  end.
Definition ls (fuel : nat) (path : chars) : prog unit :=
  fd <- open path ;;
  if fd <? 0 then fprintf 2 (cannot_open "ls" path)
  else
    r <- fstat fd ;;
    match r with
    | None => fprintf 2 (cannot_stat path) ;; close fd
    | Some st =>
        (if (u_type st =? T_DEVICE) || (u_type st =? T_FILE) then fprintf 1 (ls_line path st)
         else if u_type st =? T_DIR then
           if 512 <? strlen path + 1 + DIRSIZ + 1 then fprintf 1 (lit "ls: path too long" ++ [10])
           else ls_entries fuel fd path
         else uret tt) ;;
        close fd
    end.
Fixpoint ls_args (fuel : nat) (argv : list chars) : prog unit :=
  match argv with [] => uret tt | a :: rest => ls fuel a ;; ls_args fuel rest end.
Definition ls_main (fuel : nat) (argv : list chars) : prog unit :=
  match argv with
  | [] => ls fuel (lit ".") ;; exit 0
  | _ => ls_args fuel argv ;; exit 0
  end.

End programs.

(** ** The abstract kernel *)

(** An open file: the bytes left to read, its stat, and whether every read
    delivers all it can. *)
Record ufile := UFile { f_left : chars; f_stat : ustat; f_whole : bool }.

Record view := View {
  v_file : chars -> option (chars * ustat);
  v_fd : Z -> option ufile;
  v_sink : Z -> bool;
  v_out : Z -> chars
}.
Definition set_fd (fd : Z) (f : option ufile) (v : view) : view :=
  View (v_file v) (fupd (v_fd v) fd f) (v_sink v) (v_out v).
Definition add_out (fd : Z) (s : chars) (v : view) : view :=
  View (v_file v) (v_fd v) (v_sink v) (fupd (v_out v) fd (v_out v fd ++ s)).
Definition rest_of (k : Z) (f : ufile) : ufile := UFile (drop (Z.to_nat k) (f_left f)) (f_stat f) (f_whole f).

Definition free_fd (v : view) (fd : Z) : Prop := 0 <= fd < NOFILE /\ v_fd v fd = None /\ v_sink v fd = false.

Class CallLaws (W : Type) `{!Calls W} := {
  view_of : W -> view;
  law_open_none w p : v_file (view_of w) p = None ->
    exists fd w', sys_open p w = (fd, w') /\ fd < 0 /\ view_of w' = view_of w;
  law_open w p c st : v_file (view_of w) p = Some (c, st) -> (exists fd, free_fd (view_of w) fd) ->
    exists fd w', sys_open p w = (fd, w') /\ free_fd (view_of w) fd /\
      view_of w' = set_fd fd (Some (UFile c st true)) (view_of w);
  law_read w fd n f : v_fd (view_of w) fd = Some f -> 0 < n ->
    exists k w', sys_read fd n w = (k, take (Z.to_nat k) (f_left f), w') /\
      0 <= k <= Z.min n (strlen (f_left f)) /\ (k = 0 -> f_left f = []) /\
      (f_whole f = true -> k = Z.min n (strlen (f_left f))) /\
      view_of w' = set_fd fd (Some (rest_of k f)) (view_of w);
  law_write w fd s : v_sink (view_of w) fd = true ->
    exists w', sys_write fd s w = (strlen s, w') /\ view_of w' = add_out fd s (view_of w);
  law_close w fd f : v_fd (view_of w) fd = Some f -> v_sink (view_of w) fd = false ->
    view_of (sys_close fd w) = set_fd fd None (view_of w);
  law_fstat w fd f : v_fd (view_of w) fd = Some f ->
    exists w', sys_fstat fd w = (Some (f_stat f), w') /\ view_of w' = view_of w
}.

(** ** What the programs print *)

Lemma view_eq v v' : v_file v = v_file v' -> (forall fd, v_fd v fd = v_fd v' fd) -> v_sink v = v_sink v' ->
  (forall fd, v_out v fd = v_out v' fd) -> v = v'.
Proof.
  destruct v, v'; cbn. intros -> H1 -> H2. f_equal; by apply functional_extensionality.
Qed.
Ltac view_solve := apply view_eq; try done; intros ?; cbn; unfold fupd;
  repeat (case_match; subst; cbn); rewrite ?Z.eqb_eq in *; subst; try congruence; rewrite ?app_nil_r, <- ?app_assoc; try done; try lia.

Lemma add_out_nil fd v : add_out fd [] v = v.
Proof. view_solve. Qed.
Lemma add_out_app fd s t v : add_out fd t (add_out fd s v) = add_out fd (s ++ t) v.
Proof. view_solve. Qed.
Lemma add_out_set_fd fd s d f v : add_out fd s (set_fd d f v) = set_fd d f (add_out fd s v).
Proof. done. Qed.
Lemma set_fd_set fd f g v : set_fd fd f (set_fd fd g v) = set_fd fd f v.
Proof. view_solve. Qed.
Lemma set_fd_none fd f v : v_fd v fd = None -> set_fd fd None (set_fd fd f v) = v.
Proof. intros H. view_solve. Qed.
Create Rewrite HintDb view.
#[export] Hint Rewrite add_out_nil add_out_app add_out_set_fd set_fd_set : view.

(** The output of a command that handles its arguments in turn up to the first
    that cannot be opened, and that argument. *)
Fixpoint outputs (files : chars -> option (chars * ustat)) (g : chars -> chars -> chars) (argv : list chars) : chars * option chars :=
  match argv with
  | [] => ([], None)
  | a :: rest =>
      match files a with
      | None => ([], Some a)
      | Some (c, _) => let '(o, e) := outputs files g rest in (g a c ++ o, e)
      end
  end.

Definition space (ch : Z) : bool := bool_decide (ch ∈ blanks).
(** The words of a text: its maximal runs of characters that are not blank. *)
Fixpoint words (s : chars) : list chars :=
  match s with
  | [] => []
  | ch :: s' =>
      if space ch then words s'
      else let ws := words s' in
           match head s', ws with
           | Some d, u :: us => if space d then [ch] :: u :: us else (ch :: u) :: us
           | _, _ => [ch] :: ws
           end
  end.
Definition newlines (s : chars) : Z := Z.of_nat (count_occ Z.eq_dec s 10).
Definition wc_line (name s : chars) : chars :=
  count_line (newlines s) (Z.of_nat (length (words s))) (strlen s) name.

Lemma strchr_blanks ch : match strchr blanks ch with Some _ => space ch = true | None => space ch = false end.
Proof.
  unfold space, blanks. cbn [strchr].
  repeat match goal with |- context [?a =? ch] => destruct (Z.eqb_spec a ch); [by subst|] end.
  apply bool_decide_eq_false. rewrite !not_elem_of_cons. repeat split; try lia. apply not_elem_of_nil.
Qed.

(** Whether a text begins inside a word *)
Definition starts (s : chars) : bool := match s with [] => false | ch :: _ => negb (space ch) end.

Lemma words_length ch s : Z.of_nat (length (words (ch :: s))) =
  Z.of_nat (length (words s)) + (if space ch || starts s then 0 else 1).
Proof.
  cbn [words]. destruct (space ch); cbn [orb]; [lia|]. destruct s as [|d s]; [done|]. cbn [head starts].
  destruct (space d) eqn:E; cbn [negb].
  - destruct (words (d :: s)); cbn [length]; lia.
  - destruct (words (d :: s)) eqn:E2; cbn [length]; [|lia].
    cbn [words] in E2. rewrite E in E2. destruct (head s), (words s); try done. by destruct (space z).
Qed.
(** What [words] promises: no blank in a word, no empty word, nothing lost. *)
Lemma words_spec s : Forall (fun u => u <> [] /\ Forall (fun ch => space ch = false) u) (words s) /\
  concat (words s) = filter (fun ch => space ch = false) s.
Proof.
  induction s as [|ch s [IH1 IH2]]; [done|]. cbn [words]. destruct (space ch) eqn:E.
  - split; [done|]. rewrite filter_cons_False by congruence. done.
  - rewrite filter_cons_True by done. rewrite <- IH2.
    destruct (head s) as [d|]; [destruct (words s) as [|u us]; [|destruct (space d)]|];
      (split; [|done]); repeat constructor; try done; inversion IH1 as [|? ? [Hu1 Hu2]]; subst; done.
Qed.

Lemma newlines_cons ch s : newlines (ch :: s) = newlines s + (if ch =? 10 then 1 else 0).
Proof. unfold newlines. cbn. destruct (Z.eq_dec ch 10), (Z.eqb_spec ch 10); try done; lia. Qed.

Lemma wc_buf_app k s t : wc_buf k (s ++ t) = wc_buf (wc_buf k s) t.
Proof. revert k. induction s as [|ch s IH]; intros k; [done|apply IH]. Qed.

Lemma wc_buf_ok s : forall k, 0 <= l k <= c k -> 0 <= w k <= c k -> c k + strlen s < 2 ^ 31 ->
  exists b, wc_buf k s = Counts (l k + newlines s)
    (w k + Z.of_nat (length (words s)) - (if inword k && starts s then 1 else 0)) (c k + strlen s) b.
Proof.
  induction s as [|ch s IH]; intros k Hl Hw Hc.
  { exists (inword k). destruct k as [l0 w0 c0 i]. cbn. rewrite andb_false_r. unfold newlines, strlen. cbn. f_equal; lia. }
  unfold strlen in *. cbn [length] in Hc. rewrite newlines_cons, words_length. cbn [wc_buf length].
  assert (i32 (c k + 1) = c k + 1) as Ec by (apply swrap_small; lia).
  assert ((if ch =? 10 then i32 (l k + 1) else l k) = l k + (if ch =? 10 then 1 else 0)) as El.
  { destruct (ch =? 10); [apply swrap_small; lia|lia]. }
  pose proof (strchr_blanks ch) as Hb. unfold wc_char. rewrite Ec, El.
  destruct (strchr blanks ch); [|destruct (inword k) eqn:Ei; cbn [negb]; [|rewrite (swrap_small 32 (w k + 1)) by lia]];
    (match goal with |- context [wc_buf ?k' s] => destruct (IH k') as [b ->] end;
     cbn [l w c inword]; [destruct (ch =? 10); lia|lia|lia|]);
    exists b; cbn [starts]; rewrite Hb; cbn [orb andb negb]; rewrite ?andb_false_r;
    f_equal; try lia; destruct (starts s); cbn; lia.
Qed.

Lemma wc_buf_zero s : strlen s < 2 ^ 31 -> exists b,
  wc_buf (Counts 0 0 0 false) s = Counts (newlines s) (Z.of_nat (length (words s))) (strlen s) b.
Proof.
  intros Hs. destruct (wc_buf_ok s (Counts 0 0 0 false)) as [b ->]; [cbn [l w c]; lia..|].
  exists b. cbn [l w c inword andb]. f_equal; lia.
Qed.

Section correct.
Context {W : Type} `{!Calls W, !CallLaws W}.
Implicit Types (k : W) (v : view).

(** [runs m a k v]: started in [k], [m] returns [a] in a state whose view is [v]. *)
Definition runs {A} (m : prog A) (a : A) (k : W) (v : view) : Prop := exists k', m k = (URet a, k') /\ view_of k' = v.
Definition exits {A} (m : @prog W A) (status : Z) (k : W) (v : view) : Prop := exists k', m k = (UExit status, k') /\ view_of k' = v.

Lemma ubind_run {A B} (m : prog A) (g : A -> prog B) k k' a : m k = (URet a, k') -> ubind m g k = g a k'.
Proof. unfold ubind. by intros ->. Qed.
Lemma call_run {A} (f : W -> A * W) k k' a : f k = (a, k') -> call f k = (URet a, k').
Proof. unfold call. by intros ->. Qed.

(** A step of the program by an equation for its first call, or for the call
    of a function it begins with *)
Ltac ucall E := unfold runs, exits; erewrite ubind_run by (apply call_run; exact E); cbv beta iota.
Ltac urun E := unfold runs, exits; erewrite ubind_run by exact E; cbv beta iota.

Lemma putcs_run fd s : forall k, v_sink (view_of k) fd = true -> runs (putcs fd s) tt k (add_out fd s (view_of k)).
Proof.
  induction s as [|ch s IH]; intros k Hs.
  - exists k. by rewrite add_out_nil.
  - destruct (law_write k fd [ch] Hs) as (k1 & E1 & V1). destruct (IH k1) as (k2 & E2 & V2); [by rewrite V1|].
    cbn [putcs]. ucall E1. exists k2. split; [done|].
    rewrite V2, V1, add_out_app. done.
Qed.

(** cat on a descriptor copies what is left to read there *)
Lemma cat_run fuel : forall k fd f, v_fd (view_of k) fd = Some f -> v_sink (view_of k) 1 = true ->
  (length (f_left f) < fuel)%nat ->
  runs (cat fuel fd) tt k (add_out 1 (f_left f) (set_fd fd (Some (UFile [] (f_stat f) (f_whole f))) (view_of k))).
Proof.
  induction fuel as [|fuel IH]; intros k fd f Hf Hs Hlen; [lia|]. cbn [cat].
  destruct (law_read k fd BUF f Hf ltac:(unfold BUF; lia)) as (n & k1 & E1 & Hn & Hz & _ & V1). unfold strlen in Hn.
  ucall E1. destruct (Z.ltb_spec 0 n) as [Hpos|Hpos].
  - destruct (law_write k1 1 (take (Z.to_nat n) (f_left f))) as (k2 & E2 & V2); [by rewrite V1|].
    ucall E2.
    assert (strlen (take (Z.to_nat n) (f_left f)) = n) as -> by (unfold strlen; rewrite length_take; lia).
    rewrite Z.eqb_refl. cbn [negb].
    destruct (IH k2 fd (rest_of n f)) as (k3 & E3 & V3).
    + rewrite V2, V1. cbn. by rewrite fupd_eq.
    + by rewrite V2, V1.
    + cbn. rewrite length_drop. lia.
    + exists k3. split; [done|]. rewrite V3, V2, V1. autorewrite with view. cbn.
      by rewrite take_drop.
  - assert (n = 0) as -> by lia. rewrite (Hz eq_refl) in *. exists k1. split; [done|].
    rewrite V1. autorewrite with view. f_equal. unfold rest_of. rewrite (Hz eq_refl). done.
Qed.

Lemma wc_loop_run fuel : forall k fd f q, v_fd (view_of k) fd = Some f -> (length (f_left f) < fuel)%nat ->
  runs (wc_loop fuel fd q) (0, wc_buf q (f_left f)) k (set_fd fd (Some (UFile [] (f_stat f) (f_whole f))) (view_of k)).
Proof.
  induction fuel as [|fuel IH]; intros k fd f q Hf Hlen; [lia|]. cbn [wc_loop].
  destruct (law_read k fd BUF f Hf ltac:(unfold BUF; lia)) as (n & k1 & E1 & Hn & Hz & _ & V1). unfold strlen in Hn.
  ucall E1. destruct (Z.ltb_spec 0 n) as [Hpos|Hpos].
  - destruct (IH k1 fd (rest_of n f) (wc_buf q (take (Z.to_nat n) (f_left f)))) as (k2 & E2 & V2).
    + rewrite V1. cbn. by rewrite fupd_eq.
    + cbn. rewrite length_drop. lia.
    + exists k2. cbn [f_left rest_of] in E2. rewrite <- wc_buf_app, take_drop in E2. split; [done|].
      rewrite V2, V1. by autorewrite with view.
  - assert (n = 0) as -> by lia. exists k1. rewrite (Hz eq_refl). split; [done|].
    rewrite V1. f_equal. unfold rest_of. rewrite (Hz eq_refl). done.
Qed.

Lemma wc_run fuel k fd f name : v_fd (view_of k) fd = Some f -> v_sink (view_of k) 1 = true ->
  (length (f_left f) < fuel)%nat -> strlen (f_left f) < 2 ^ 31 ->
  runs (wc fuel fd name) tt k
    (add_out 1 (wc_line name (f_left f)) (set_fd fd (Some (UFile [] (f_stat f) (f_whole f))) (view_of k))).
Proof.
  intros Hf Hs Hfuel Hlen. unfold wc.
  destruct (wc_loop_run fuel k fd f (Counts 0 0 0 false) Hf Hfuel) as (k1 & E1 & V1).
  urun E1. rewrite Z.ltb_irrefl. destruct (wc_buf_zero (f_left f) Hlen) as [b ->].
  unfold fprintf. cbn [l w c].
  unfold wc_line. generalize (count_line (newlines (f_left f)) (Z.of_nat (length (words (f_left f)))) (strlen (f_left f)) name).
  intros s. rewrite <- V1. apply putcs_run. by rewrite V1.
Qed.

Lemma exits_bind {A B} (m : prog A) (g : A -> prog B) status k v : exits m status k v -> exits (ubind m g) status k v.
Proof. intros (k' & E & V). exists k'. unfold ubind. by rewrite E. Qed.
Lemma close_run k fd f : v_fd (view_of k) fd = Some f -> v_sink (view_of k) fd = false ->
  runs (close fd) tt k (set_fd fd None (view_of k)).
Proof. intros Hf Hs. exists (sys_close fd k). split; [done|]. by apply law_close with f. Qed.

Section each.
Context (body : Z -> chars -> @prog W unit) (cannot : chars -> @prog W unit) (g : chars -> chars -> chars)
        (efd : Z) (msg : chars -> chars) (ok : chars -> Prop).
Context (body_run : forall k fd a f, v_fd (view_of k) fd = Some f -> v_sink (view_of k) 1 = true -> ok (f_left f) ->
  exists f', runs (body fd a) tt k (add_out 1 (g a (f_left f)) (set_fd fd (Some f') (view_of k)))).
Context (cannot_run : forall k a, v_sink (view_of k) efd = true -> runs (cannot a) tt k (add_out efd (msg a) (view_of k))).

Definition after_files (o : chars) (e : option chars) (v : view) : view :=
  match e with None => add_out 1 o v | Some a => add_out efd (msg a) (add_out 1 o v) end.
Definition readable (k : W) (argv : list chars) : Prop :=
  Forall (fun a => forall ct st, v_file (view_of k) a = Some (ct, st) -> ok ct) argv.

(** One argument: open, body, close *)
Lemma each_one k fd a k1 ct st : view_of k1 = set_fd fd (Some (UFile ct st true)) (view_of k) ->
  free_fd (view_of k) fd -> v_sink (view_of k) 1 = true -> ok ct ->
  exists k', ubind (body fd a) (fun _ => close fd) k1 = (URet tt, k') /\ view_of k' = add_out 1 (g a ct) (view_of k).
Proof.
  intros V1 (_ & Hfd & Hns) Hs Hok.
  destruct (body_run k1 fd a (UFile ct st true)) as (f' & k2 & E2 & V2).
  { rewrite V1. cbn [set_fd v_fd]. by rewrite fupd_eq. }
  { by rewrite V1. }
  { done. }
  cbn [f_left] in V2. rewrite V1 in V2. autorewrite with view in V2.
  destruct (close_run k2 fd f') as (k3 & E3 & V3).
  { rewrite V2. cbn [set_fd v_fd]. by rewrite fupd_eq. }
  { by rewrite V2. }
  exists k3. urun E2. split; [exact E3|]. rewrite V3, V2. by apply set_fd_none.
Qed.

Lemma ubind_assoc {A B C} (m : @prog W A) (h1 : A -> prog B) (h2 : B -> prog C) k :
  ubind (ubind m h1) h2 k = ubind m (fun a => ubind (h1 a) h2) k.
Proof. unfold ubind. by destruct (m k) as [[] ?]. Qed.

Lemma each_file_run argv : forall k, v_sink (view_of k) 1 = true -> v_sink (view_of k) efd = true ->
  (exists fd, free_fd (view_of k) fd) -> readable k argv ->
  let '(o, e) := outputs (v_file (view_of k)) g argv in
  match e with
  | None => runs (each_file body cannot argv) tt k (after_files o e (view_of k))
  | Some _ => exits (each_file body cannot argv) 1 k (after_files o e (view_of k))
  end.
Proof.
  induction argv as [|a argv IH]; intros k H1 He Hfree Hok; cbn [outputs each_file].
  { exists k. cbn [after_files]. by rewrite add_out_nil. }
  apply Forall_cons in Hok as [Ha Hok]. destruct (v_file (view_of k) a) as [[ct st]|] eqn:Ef.
  - destruct (law_open k a ct st Ef Hfree) as (fd & k1 & E1 & Hfd & V1).
    destruct (each_one k fd a k1 ct st V1 Hfd H1 (Ha _ _ eq_refl)) as (k2 & E2 & V2).
    specialize (IH k2). unfold readable in IH. rewrite V2 in IH. specialize (IH H1 He Hfree Hok).
    cbn [add_out v_file] in IH. destruct (outputs _ g argv) as [o e].
    assert (after_files o e (add_out 1 (g a ct) (view_of k)) = after_files (g a ct ++ o) e (view_of k)) as Ev
      by (destruct e; cbn [after_files]; by rewrite add_out_app).
    fold (add_out 1 (g a ct) (view_of k)) in IH. rewrite Ev in IH.
    destruct Hfd as [[Hfd _] _].
    destruct e; unfold runs, exits in *; (ucall E1; rewrite (proj2 (Z.ltb_ge fd 0)) by lia;
      rewrite <- ubind_assoc; urun E2; exact IH).
  - destruct (law_open_none k a Ef) as (fd & k1 & E1 & Hfd & V1).
    destruct (cannot_run k1 a) as (k2 & E2 & V2); [by rewrite V1|].
    ucall E1. rewrite (proj2 (Z.ltb_lt fd 0)) by lia. urun E2. exists k2. split; [done|].
    rewrite V2, V1. cbn [after_files]. by rewrite add_out_nil.
Qed.
End each.

(** ** ls *)

Lemma stat_run k p : (exists fd, free_fd (view_of k) fd) -> runs (stat p) (snd <$> v_file (view_of k) p) k (view_of k).
Proof.
  intros Hfree. unfold stat. destruct (v_file (view_of k) p) as [[ct st]|] eqn:Ef.
  - destruct (law_open k p ct st Ef Hfree) as (fd & k1 & E1 & ([Hfd _] & Hn & Hns) & V1).
    assert (v_fd (view_of k1) fd = Some (UFile ct st true)) as Hf1 by (rewrite V1; cbn; apply fupd_eq).
    destruct (law_fstat k1 fd _ Hf1) as (k2 & E2 & V2).
    destruct (close_run k2 fd (UFile ct st true)) as (k3 & E3 & V3); [by rewrite V2|by rewrite V2, V1|].
    ucall E1. rewrite (proj2 (Z.ltb_ge fd 0)) by lia. ucall E2. urun E3. exists k3. split; [done|].
    rewrite V3, V2, V1. by apply set_fd_none.
  - destruct (law_open_none k p Ef) as (fd & k1 & E1 & Hfd & V1). ucall E1.
    rewrite (proj2 (Z.ltb_lt fd 0)) by lia. by exists k1.
Qed.

(** The line ls prints for a directory entry *)
Definition entry_line (files : chars -> option (chars * ustat)) (path de : chars) : chars :=
  if de_inum de =? 0 then []
  else let buf := path ++ 47 :: de_name de in
       match files buf with None => cannot_stat buf | Some (_, st) => ls_line buf st end.

Lemma free_kept v fd f f' : v_fd v fd = Some f -> (exists fd', free_fd v fd') -> exists fd', free_fd (set_fd fd f' v) fd'.
Proof.
  intros Hf (fd' & Hr & Hn & Hns). exists fd'. repeat split; try done; try lia.
  cbn. rewrite fupd_ne; [done|]. intros ->. congruence.
Qed.

(** One round of the loop, after the read that delivered [de] *)
Lemma ls_entry_run fuel k k1 fd path de : sys_read fd DIRENT_SIZE k = (DIRENT_SIZE, de, k1) ->
  (exists fd', free_fd (view_of k1) fd') -> v_sink (view_of k1) 1 = true ->
  exists k2, view_of k2 = add_out 1 (entry_line (v_file (view_of k1)) path de) (view_of k1) /\
    ls_entries (S fuel) fd path k = ls_entries fuel fd path k2.
Proof.
  intros E1 Hfree Hs. cbn [ls_entries]. ucall E1. rewrite Z.eqb_refl. unfold entry_line. destruct (de_inum de =? 0).
  { exists k1. by rewrite add_out_nil. }
  set (buf := path ++ 47 :: de_name de). destruct (stat_run k1 buf Hfree) as (k2 & Ek2 & Vk2). urun Ek2.
  destruct (v_file (view_of k1) buf) as [[ct' st']|]; cbn [fmap option_fmap option_map snd];
    match goal with |- context [fprintf 1 ?m] => destruct (putcs_run 1 m k2) as (k3 & E3 & V3); [by rewrite Vk2|] end;
    exists k3; (split; [by rewrite V3, Vk2|]); unfold fprintf; urun E3; done.
Qed.

Lemma ls_entries_run des : forall fuel k fd path st, (length des < fuel)%nat ->
  Forall (fun de => strlen de = DIRENT_SIZE) des ->
  v_fd (view_of k) fd = Some (UFile (concat des) st true) -> v_sink (view_of k) 1 = true ->
  (exists fd', free_fd (view_of k) fd') ->
  runs (ls_entries fuel fd path) tt k
    (add_out 1 (concat (entry_line (v_file (view_of k)) path <$> des)) (set_fd fd (Some (UFile [] st true)) (view_of k))).
Proof.
  induction des as [|de des IH]; intros [|fuel] k fd path st Hfuel Hsz Hf Hs Hfree; cbn [length] in Hfuel; try lia;
    destruct (law_read k fd DIRENT_SIZE _ Hf ltac:(done)) as (n & k1 & E1 & Hn & _ & Hw & V1);
    specialize (Hw eq_refl); cbn [f_left] in Hw, E1.
  { subst n. cbn [ls_entries]. ucall E1. change (DIRENT_SIZE `min` strlen (concat [])) with 0 in *. exists k1.
    split; [done|]. rewrite V1. cbn [fmap list_fmap concat]. by rewrite add_out_nil. }
  apply Forall_cons in Hsz as [Hde Hsz].
  assert (n = DIRENT_SIZE) as ->.
  { rewrite Hw. cbn [concat]. unfold strlen in *. rewrite length_app. lia. }
  unfold rest_of in V1. cbn [f_left f_stat f_whole concat] in V1, E1.
  assert (length de = Z.to_nat DIRENT_SIZE) as Hlen by (unfold strlen in Hde; lia).
  rewrite <- Hlen, take_app_length in E1. rewrite <- Hlen, drop_app_length in V1.
  assert (exists fd', free_fd (view_of k1) fd') as Hfree1 by (rewrite V1; eapply free_kept; eauto).
  destruct (ls_entry_run fuel k k1 fd path de E1 Hfree1) as (k2 & V2 & E2); [by rewrite V1|].
  unfold runs. rewrite E2. destruct (IH fuel k2 fd path st) as (k3 & E3 & V3); try done; try lia.
  { rewrite V2, V1. cbn. apply fupd_eq. }
  { by rewrite V2, V1. }
  { by rewrite V2. }
  exists k3. split; [done|]. rewrite V3, V2, V1, add_out_set_fd, add_out_app, !add_out_set_fd, set_fd_set. done.
Qed.

(** What ls prints about one path that can be opened *)
Definition ls_output (files : chars -> option (chars * ustat)) (path : chars) (st : ustat) (des : list chars) : chars :=
  if (u_type st =? T_DEVICE) || (u_type st =? T_FILE) then ls_line path st
  else if u_type st =? T_DIR then
    if 512 <? strlen path + 1 + DIRSIZ + 1 then lit "ls: path too long" ++ [10]
    else concat (entry_line files path <$> des)
  else [].

Lemma ls_run fuel k path ct st des : v_file (view_of k) path = Some (ct, st) ->
  (u_type st = T_DIR -> ct = concat des /\ Forall (fun de => strlen de = DIRENT_SIZE) des /\ (length des < fuel)%nat) ->
  v_sink (view_of k) 1 = true ->
  (exists fd fd', fd <> fd' /\ free_fd (view_of k) fd /\ free_fd (view_of k) fd') ->
  runs (ls fuel path) tt k (add_out 1 (ls_output (v_file (view_of k)) path st des) (view_of k)).
Proof.
  intros Ef Hdir Hs (d1 & d2 & Hne & Hd1 & Hd2). unfold ls.
  destruct (law_open k path ct st Ef) as (fd & k1 & E1 & ([Hfd _] & Hn & Hns) & V1); [by eexists|].
  assert (exists fd', free_fd (view_of k1) fd') as Hfree1.
  { rewrite V1. destruct (decide (d1 = fd)) as [->|]; [exists d2; destruct Hd2 as (? & ? & ?)|exists d1; destruct Hd1 as (? & ? & ?)];
      repeat split; try done; try lia; cbn; by rewrite fupd_ne. }
  assert (v_fd (view_of k1) fd = Some (UFile ct st true)) as Hf1 by (rewrite V1; cbn; apply fupd_eq).
  destruct (law_fstat k1 fd _ Hf1) as (k2 & E2 & V2). rewrite <- V2 in *. cbn [f_stat] in E2.
  ucall E1. rewrite (proj2 (Z.ltb_ge fd 0)) by lia. ucall E2.
  match goal with |- context [ubind ?b] => assert (exists f', runs b tt k2
    (add_out 1 (ls_output (v_file (view_of k)) path st des) (set_fd fd (Some f') (view_of k)))) as (f' & k3 & E3 & V3) end.
  { unfold ls_output. assert (v_file (view_of k) = v_file (view_of k2)) as Efs by by rewrite V1.
    assert (v_sink (view_of k2) 1 = true) as Hs2 by by rewrite V1.
    destruct (_ || _); [|destruct (Z.eqb_spec (u_type st) T_DIR) as [Ht|_]; [destruct (512 <? _)|]].
    - exists (UFile ct st true). rewrite <- V1. by apply putcs_run.
    - exists (UFile ct st true). rewrite <- V1. by apply putcs_run.
    - destruct (Hdir Ht) as (-> & Hsz & Hfuel). exists (UFile [] st true).
      rewrite <- (set_fd_set fd (Some (UFile [] st true)) (Some (UFile (concat des) st true)) (view_of k)), <- V1, Efs.
      by apply ls_entries_run.
    - exists (UFile ct st true). exists k2. by rewrite add_out_nil. }
  destruct (close_run k3 fd f') as (k4 & E4 & V4).
  { rewrite V3. cbn. apply fupd_eq. }
  { by rewrite V3. }
  urun E3. exists k4. split; [exact E4|]. rewrite V4, V3, add_out_set_fd. by apply set_fd_none.
Qed.

(** ** The programs *)

(** The arguments of echo as a line *)
Fixpoint join (argv : list chars) : chars :=
  match argv with
  | [] => []
  | a :: rest => a ++ match rest with [] => [10] | _ => 32 :: join rest end
  end.

Lemma echo_run argv : forall k, v_sink (view_of k) 1 = true -> runs (echo_args argv) tt k (add_out 1 (join argv) (view_of k)).
Proof.
  induction argv as [|a argv IH]; intros k Hs; cbn [echo_args join].
  { exists k. by rewrite add_out_nil. }
  destruct (law_write k 1 a Hs) as (k1 & E1 & V1). ucall E1.
  set (sep := match argv with [] => [10] | _ => [32] end).
  destruct (law_write k1 1 sep) as (k2 & E2 & V2); [by rewrite V1|].
  destruct (IH k2) as (k3 & E3 & V3); [by rewrite V2, V1|]. exists k3. split.
  - destruct argv; (erewrite ubind_run by (apply call_run; exact E2)); exact E3.
  - rewrite V3, V2, V1, !add_out_app. f_equal. subst sep. destruct argv; cbn [join]; rewrite <- ?app_assoc; done.
Qed.

(** What cat and wc do with their arguments: the output, and the first argument
    that could not be opened; without arguments they read descriptor 0. *)
Definition tool_output (g : chars -> chars -> chars) (argv : list chars) (f : ufile) (v : view) : chars * option chars :=
  match argv with [] => (g [] (f_left f), None) | _ => outputs (v_file v) g argv end.
Definition consumed (argv : list chars) (f : ufile) (v : view) : view :=
  match argv with [] => set_fd 0 (Some (UFile [] (f_stat f) (f_whole f))) v | _ => v end.
Definition tool_spec (main : list chars -> @prog W unit) (g : chars -> chars -> chars) (efd : Z) (name : string)
  (argv : list chars) (f : ufile) (k : W) : Prop :=
  let '(o, e) := tool_output g argv f (view_of k) in
  exits (main argv) (match e with None => 0 | Some _ => 1 end) k
    (after_files efd (cannot_open name) o e (consumed argv f (view_of k))).

Definition two_free (v : view) : Prop := exists fd fd', fd <> fd' /\ free_fd v fd /\ free_fd v fd'.
Definition bounded (fuel : nat) (ct : chars) : Prop := (length ct < fuel)%nat /\ strlen ct < 2 ^ 31.

(** A main that applies [body] to descriptor 0 or to each file *)
Lemma tool_run (body : Z -> chars -> @prog W unit) g efd name fuel argv f k :
  (forall k fd a f, v_fd (view_of k) fd = Some f -> v_sink (view_of k) 1 = true -> bounded fuel (f_left f) ->
    runs (body fd a) tt k (add_out 1 (g a (f_left f)) (set_fd fd (Some (UFile [] (f_stat f) (f_whole f))) (view_of k)))) ->
  v_sink (view_of k) 1 = true -> v_sink (view_of k) efd = true -> two_free (view_of k) ->
  readable (bounded fuel) k argv -> v_fd (view_of k) 0 = Some f -> bounded fuel (f_left f) ->
  tool_spec (fun argv => match argv with
    | [] => ubind (body 0 []) (fun _ => exit 0)
    | _ => ubind (each_file body (fun a => fprintf efd (cannot_open name a)) argv) (fun _ => exit 0)
    end) g efd name argv f k.
Proof.
  intros Hbody H1 He (d1 & d2 & _ & Hd1 & _) Hr Hf Hok. unfold tool_spec, tool_output, consumed.
  destruct argv as [|a argv].
  - destruct (Hbody k 0 [] f Hf H1 Hok) as (k1 & E1 & V1). urun E1. by exists k1.
  - pose proof (each_file_run body (fun a => fprintf efd (cannot_open name a)) g efd (cannot_open name) (bounded fuel)) as P.
    specialize (P ltac:(intros; eexists; by apply Hbody) ltac:(intros; by apply putcs_run)).
    specialize (P (a :: argv) k H1 He (ex_intro _ d1 Hd1) Hr). destruct (outputs _ g (a :: argv)) as [o [e|]].
    + by apply exits_bind.
    + destruct P as (k1 & E1 & V1). urun E1. by exists k1.
Qed.

(** C40. The small programs on any kernel with the promised system calls: cat
    copies its files, or its standard input, to the output; wc prints for each
    the numbers of its lines, of its words (maximal runs without blanks) and
    of its characters, whatever sizes the reads have; both stop at the first
    file that cannot be opened, with a message and status 1. echo prints its
    arguments with single spaces and a newline. ls prints one line for a file
    and, for a directory, one line for each entry in use, in order, and leaves
    no descriptor open. *)
Theorem tools_correct fuel argv f k :
  v_sink (view_of k) 1 = true -> v_sink (view_of k) 2 = true -> two_free (view_of k) ->
  readable (bounded fuel) k argv -> v_fd (view_of k) 0 = Some f -> bounded fuel (f_left f) ->
  tool_spec (cat_main fuel) (fun _ ct => ct) 2 "cat" argv f k /\
  tool_spec (wc_main fuel) wc_line 1 "wc" argv f k /\
  exits (echo_main argv) 0 k (add_out 1 (join argv) (view_of k)) /\
  (forall path ct st des, v_file (view_of k) path = Some (ct, st) ->
    (u_type st = T_DIR -> ct = concat des /\ Forall (fun de => strlen de = DIRENT_SIZE) des /\ (length des < fuel)%nat) ->
    runs (ls fuel path) tt k (add_out 1 (ls_output (v_file (view_of k)) path st des) (view_of k))).
Proof.
  intros H1 H2 Hfree Hr Hf Hok. split_and!.
  - apply (tool_run (fun fd _ => cat fuel fd) _ _ _ fuel); try done. intros ? ? ? ? ? ? []. by apply cat_run.
  - apply (tool_run (wc fuel) _ _ _ fuel); try done. intros ? ? ? ? ? ? []. by apply wc_run.
  - destruct (echo_run argv k H1) as (k1 & E1 & V1). unfold echo_main. urun E1. by exists k1.
  - intros. by apply ls_run with ct.
Qed.
End correct.

(** ** A kernel with these laws *)

Module Sim.
(** The state is the view itself; a read that need not be whole delivers three
    bytes at most. *)
Definition lowest (v : view) : option Z :=
  find (fun fd => match v_fd v fd with None => negb (v_sink v fd) | Some _ => false end) (seqZ 0 NOFILE).

#[export] Instance sim_calls : Calls view := {
  sys_open p v :=
    match v_file v p, lowest v with
    | Some (ct, st), Some fd => (fd, set_fd fd (Some (UFile ct st true)) v)
    | _, _ => (-1, v)
    end;
  sys_read fd n v :=
    match v_fd v fd with
    | None => (-1, [], v)
    | Some f =>
        let k := Z.min (if f_whole f then n else Z.min n 3) (strlen (f_left f)) in
        (k, take (Z.to_nat k) (f_left f), set_fd fd (Some (rest_of k f)) v)
    end;
  sys_write fd s v := if v_sink v fd then (strlen s, add_out fd s v) else (-1, v);
  sys_close fd v := set_fd fd None v;
  sys_fstat fd v := (f_stat <$> v_fd v fd, v);
  sys_unlink p v := (-1, v);
  sys_mkdir p v := (-1, v);
  sys_link p q v := (-1, v);
  sys_kill pid v := (-1, v)
}.

Lemma lowest_spec v : (exists fd, free_fd v fd) -> exists fd, lowest v = Some fd /\ free_fd v fd.
Proof.
  intros (fd0 & Hr & Hn & Hs). unfold lowest. destruct (find _ _) as [fd|] eqn:E.
  - apply find_some in E as [Hin E]. exists fd. split; [done|]. apply list_elem_of_In, elem_of_seqZ in Hin.
    destruct (v_fd v fd) eqn:E2; [done|]. apply negb_true_iff in E. repeat split; try done; lia.
  - eapply find_none in E; [|apply list_elem_of_In, elem_of_seqZ; instantiate (1 := fd0); lia]. by rewrite Hn, Hs in E.
Qed.

#[export] Instance sim_laws : CallLaws view.
Proof.
  unshelve econstructor; [exact id|..].
  - intros v p Hp. cbn. unfold id in *. rewrite Hp. by exists (-1), v.
  - intros v p ct st Hp Hfree. cbn. unfold id in *. rewrite Hp. destruct (lowest_spec v Hfree) as (fd & -> & Hfd).
    by exists fd, (set_fd fd (Some (UFile ct st true)) v).
  - intros v fd n f Hf Hn. cbn. unfold id in *. rewrite Hf. eexists _, _. split; [done|]. unfold strlen.
    split; [destruct (f_whole f); lia|]. split; [|split; [by intros ->|done]].
    intros Hz. destruct (f_left f); [done|]. cbn [length] in Hz. destruct (f_whole f); lia.
  - intros v fd s Hs. cbn. unfold id in *. rewrite Hs. by eexists.
  - intros v fd f Hf Hs. done.
  - intros v fd f Hf. cbn. unfold id in *. rewrite Hf. by eexists.
Defined.
End Sim.
Import Sim.

(** A directory with one file, its text on the console too *)
Definition demo_text : chars := lit "two words" ++ [10].
Definition demo_de : chars := [7; 0] ++ lit "f" ++ replicate 13 0.
Definition demo_view : view :=
  View (fun p => if bool_decide (p = lit "f") then Some (demo_text, UStat T_FILE 7 10)
                 else if bool_decide (p = lit ".") then Some (demo_de ++ replicate 16 0, UStat T_DIR 1 32)
                 else if bool_decide (p = lit "./f") then Some (demo_text, UStat T_FILE 7 10) else None)
       (fun fd => if fd =? 0 then Some (UFile demo_text (UStat T_DEVICE 2 0) false) else None)
       (fun fd => (fd =? 1) || (fd =? 2)) (fun _ => []).

(** wc f, and ls of the directory *)
Lemma tools_correct_witness :
  tool_spec (wc_main 100) wc_line 1 "wc" [lit "f"] (UFile demo_text (UStat T_DEVICE 2 0) false) demo_view /\
  v_out (snd (wc_main 100 [lit "f"] demo_view)) 1 = lit "1 2 10 f" ++ [10] /\
  v_out (snd (ls_main 100 [] demo_view)) 1 = lit "f              2 7 10" ++ [10].
Proof.
  split; [|by vm_compute].
  apply (tools_correct 100 [lit "f"] (UFile demo_text (UStat T_DEVICE 2 0) false) demo_view); [reflexivity|reflexivity| | |reflexivity|].
  - exists 3, 4. repeat split; done.
  - apply Forall_singleton. intros ct st E. change (Some (demo_text, UStat T_FILE 7 10) = Some (ct, st)) in E.
    injection E as <- _. split; [apply Nat.ltb_lt|apply Z.ltb_lt]; vm_compute; reflexivity.
  - split; [apply Nat.ltb_lt|apply Z.ltb_lt]; vm_compute; reflexivity.
Defined.
